(* ===== verification/_CoqProject ===== *)
-Q . S2P
Prelude.v
Xet.v
XetChunk.v
Canonical.v
Primitive.v
Errors.v
BoundedList.v
Context.v
Auth.v
Objects.v
Registry.v
View.v
Store.v
Event.v
Terms.v
Work.v
Lease.v
Tx.v
WorkTx.v
OpenTx.v
CloseTx.v
Apply.v
State.v
Spec.v
Validate.v
Conservation.v
Invariant.v
Contest.v
Kernel.v
Settlement.v
Bond.v
Authority.v
Opening.v
Digests.v
Wire.v
PaidWork.v
JobBook.v
JobInput.v
ChannelState.v
ChannelSteps.v
ChannelInvariant.v
ChannelLedger.v
ChannelReplay.v
ChannelCodec.v
Cbor.v
Stream.v
Setup.v
ChannelCheckpoint.v
ChannelReopen.v
ChannelFits.v
Journal.v
ChannelStore.v
ChannelDurable.v
CloseWatch.v
Mirror.v
Watch.v
Closing.v
Endpoint.v
EndpointLife.v
Exchange.v
Frame.v
Mux.v
MuxOk.v
MuxLink.v
MuxFlow.v
MuxPair.v
Webauthn.v
Grants.v
GrantsStep.v
GrantsSafe.v
Examples.v
Witness.v
ChannelExamples.v
GrantsWitness.v
ChannelWitness.v
CloseWitness.v
EndpointWitness.v
