(* ===== verification/Prelude.v ===== *)
(** * Verification of the Hellas settlement kernel, payment channels and node services

    ** The program

    [src/crates/kernel] is a [no_std] settlement state machine.  A state holds
    coins, edges (two-party escrows opened from coins under committed terms) and
    registry chunks.  A transaction opens an edge, closes it under one of four
    proofs (mutual, timeout, freeze, adjudicated), moves a work-payment close
    contest (start, response), or reshapes coins of one owner.  A work-payment
    edge is a payment channel: the client (maker) signs cumulative certificates
    to the provider (taker); either party may start a close, the provider may
    answer a start with a larger certificate inside a window, and the close then
    pays the settled amount.  Each channel leases a work-stake bond.

    [src/crates/channel] is the endpoint of such a channel.  A client and a
    provider negotiate jobs over one payment edge: a proposal, its acceptance,
    running, a signed result, the delivery of the plaintext against a payment,
    and a terminal.  Each side keeps a state machine of the channel
    ([work_store/channel/state.rs]) and persists every step as a record in a
    journal ([work_store/journal.rs]) before acting on it; the journal is rotated
    to a checkpoint, and a restart replays it ([work_store/channel/store.rs]).
    The certificates the client signs are the ones the kernel settles.

    Around a journal stand the two endpoints ([work.rs], [work_close.rs]): they
    answer each other's messages, read the finalized blocks of the chain, and open
    and answer close contests in time.

    [src/crates/wire] carries the messages: frames with a strict encoding, and a
    multiplexer that runs many streams with credit over one ordered pipe.
    [src/crates/auth] decides who may do what on a node: grants with delegation,
    credentials and sessions, administration records, ownership recovery.
    [src/crates/webauthn] is the one verifier of passkey assertions, which the
    kernel and the node authority share.

    [src/crates/xet] names content by its Xet hash: content-defined chunks and a
    Merkle root over them.  The kernel's digests and the channel's content
    references are such hashes.

    ** Conventions

    A [u64] is an [N] with checked or saturating operations written out; bytes
    are [list byte]; a newtype is a one-field record; [List<T, N>] is modelled as
    written in [BoundedList] and, by the refinement proved there, as a plain list
    of at most [N] elements elsewhere; [Result] is [result] with the notation
    [let?]; a panic is [None].  An annotation [[file.rs:a-b] symbol] before a
    definition names the lines it translates, under [src/crates/kernel/src]
    unless it starts with [crates/].  BLAKE3 ([Blake3]) and signature
    verification ([SigVerifier]) are parameters everywhere.

    ** Files

    - [Prelude]: the result monad, checked arithmetic, big-endian integers,
      sums over finite maps, tactics and hint databases.
    - [Xet], [XetChunk]: single-chunk hashing; chunking, streaming and Merkle
      roots (crates/xet/src/lib.rs).
    - [Canonical]: the canonical codec; [Codec] records and the classes [Lawful]
      and [FixedSize] every codec of the kernel is an instance of.
    - [Primitive], [Errors], [BoundedList], [Context], [Auth], [Objects],
      [Registry], [View], [Terms]: primitive.rs, consts.rs, network.rs,
      error.rs, list.rs, context.rs, tx/auth.rs, verifier.rs, object.rs,
      tx/payout.rs, tx/proof.rs, registry.rs, view.rs, terms.rs.
    - [Store]: the [Batch]/[Store] traits as classes with laws, and two hosts,
      the map store of the tests and the chain's block working set.
    - [Event], [Work], [Lease], [Tx]: event.rs, work.rs, lease.rs, and the
      transaction types, ids, digests, costs and codecs of tx/.
    - [WorkTx], [OpenTx], [CloseTx], [Apply], [State]: the transitions, the
      dispatch and the state machine over any store (tx/work.rs, tx/open.rs,
      tx/mod.rs, tx/reshape.rs, state.rs, block.rs).
    - [Spec]: the pure kernel [kcheck], [kapply], [kapply_all] over the abstract
      state [KState], and the refinement of every store to it.
    - [Validate], [Conservation], [Invariant], [Contest]: what acceptance of each
      transaction establishes, the value it conserves, the type invariant, and
      the contest of one edge as a step relation [contest_step].
    - [Kernel], [Settlement], [Bond], [Authority], [Opening], [Digests], [Wire],
      [View]: the theorems.
    - [PaidWork], [JobBook], [JobInput]: the records, digests and arithmetic of
      paid work (crates/channel/src/model/work.rs), the book of open jobs and
      terminals (work_store/channel/book.rs, funding.rs), and the checks of a
      job's input and result (job.rs).
    - [ChannelState]: the state of a channel and the application of each record
      (work_store/channel/state.rs).  [ChannelSteps] and [ChannelInvariant] are
      its steps and invariant, [ChannelLedger] its theorems, [ChannelReplay] what
      a stored record, which carries no job bodies, does on replay.
    - [ChannelCodec], [ChannelCheckpoint], [ChannelReopen], [ChannelFits]: the
      encodings of records and checkpoints (work_store/channel/codec.rs), what
      opening a checkpoint yields, and that a reached state fits its encoding.
    - [Journal]: the journal over a database whose writes may be refused, lost or
      left unacknowledged (work_store/journal.rs).
    - [ChannelStore], [ChannelDurable]: commit, rotation and crash recovery
      (work_store/channel/store.rs), and their theorems.
    - [Setup]: configuration, collateral checks, readiness and the descriptors of a
      channel (model/setup.rs).
    - [CloseWatch]: reading finalized blocks, the contest after a block, the
      transactions of a close and its driver (work_close.rs, work.rs).  [Mirror]
      and [Watch] relate what an endpoint reads to what the kernel holds,
      [Closing] what it submits to what the kernel accepts.
    - [Stream], [Endpoint]: the frames of a result (work/stream.rs) and the
      operations of both endpoints (work.rs, work/observation.rs).
      [EndpointLife] has their theorems and [Exchange] those of a client and a
      provider joined by a network that loses, repeats, reorders and forges.
    - [Cbor]: canonical DAG-CBOR and the program manifest (crates/rpc).
    - [Frame]: the frames of a stream and their encoding (crates/wire/src/frame.rs,
      metadata.rs, status.rs, mux/wire.rs).
    - [Mux]: slots and the multiplexer (mux/slot.rs, mux/state.rs).  [MuxOk] is its
      own invariant, [MuxLink] and [MuxFlow] the control and the flow between two
      ends of one slot, [MuxPair] two multiplexers over two ordered pipes.
    - [Webauthn]: the assertion verifier (crates/webauthn, kernel/src/webauthn.rs)
      and the grammar of the client data it accepts.
    - [Grants]: the node authority (crates/auth/src/authority).  [GrantsStep] has
      lineages and the effect of each command, [GrantsSafe] the invariant and the
      theorems.
    - [Examples], [Witness], [ChannelExamples], [GrantsWitness], [ChannelWitness],
      [CloseWitness], [EndpointWitness]: a toy network, a toy channel and a toy
      authority with computed histories, and the theorems with hypotheses applied
      to them.

    ** What the theorems show

    [Kernel]: every store implementation refines the pure kernel, rejected work
    leaves the store untouched, batches are sequential, value is conserved up to
    the fees burned from genesis on, and stored objects stay well-formed.
    [Settlement]: the life of a contest is a run of the abstract contest machine,
    a contest that is over can be settled by anyone for exactly the settled
    split, and a freeze never walks a contest back.  [Bond]: committed exits
    cannot be withheld and a leased bond stays locked.  [Authority]: coins move
    only with their owner's consent, edges pay only their parties, and nothing is
    accepted twice.  [Opening]: the reserve of an open covers every exit, and the
    projection an endpoint computes is what the kernel does.  [Digests]: the
    preimages of all digests are pairwise distinct and below the hasher's bound.
    [Wire], [View]: encodings are canonical and records read back exactly.

    [XetChunk]: streaming and one-shot chunking agree, hashing always ends, and
    equal file hashes mean equal files or a BLAKE3 collision.  [ChannelLedger]:
    each job is paid at most once, what was paid is what the ledger and the
    certificate say, an ended job stays ended, a closing channel is frozen, and a
    provider's exposure stays within the policy.  [ChannelCodec],
    [ChannelReopen]: stored records and checkpoints read back exactly, with the
    one exception [ChannelReopen] states.  [Journal], [ChannelDurable]: whatever
    happens to its writes, the journal replays the acknowledged ones or those and
    the one whose report was lost, so a commit is atomic and a crash loses
    nothing acknowledged.  [ChannelWitness] computes the exception: a client
    whose close start expired and who pays for another job cannot reopen the
    checkpoint.

    [Watch]: an endpoint that has read the chain holds what the kernel holds of its
    channel.  [Closing]: what it submits is accepted, it always has a next step
    until the close is done, and the provider collects what its ledger credits.
    [EndpointLife]: the backend of a job is invoked at most once, across crashes,
    and signatures once given are given again unchanged.  [Exchange]: a provider
    holds only payments the client released, every released payment is admitted,
    and an honest close cannot be answered.

    [Frame]: encodings and their lengths are exact.  [MuxOk]: a multiplexer stays
    well formed whatever its application and its peer do.  [MuxPair]: two of them
    never accuse each other of a fault, deliver each stream's bytes in order, once
    and before its end, and give back the credit that was used.

    [Webauthn]: the verifier accepts exactly the documents of a grammar, and an
    assertion stands for one key and one payload.  [GrantsSafe]: rights stay within
    the ceilings of installed administrators, evidence identifies the grants it
    names, recovery evicts every earlier administrator, a session without a passkey
    changes only its own execution grants, and a snapshot restores its state.

    ** Bounds

    Most loops are over a bounded list and are a structural recursion or a fold.
    The others take fuel that is enough: the loops of
    [XetChunk] (one-shot and streaming chunking, Merkle levels) and of [Stream] the
    length of what is left; the reading of blocks in [CloseWatch] one round per
    block up to the latest; a varint nine rounds; the outbound scan of [Mux] one
    round per slot; a lineage ten rounds, one more than its longest; the JSON parser
    of [Webauthn] the length of its input.  [MuxPair] assumes at most 65,535 opens
    by each side, since the generation of a slot is sixteen bits wide.

    ** Not modelled

    The verifiers behind [SigVerifier] and [P256] (secp256k1, P-256, SHA-256) are
    third-party arithmetic.  Display, Debug and serde forms have no effect on
    state.  The gear table of the rolling hash is a third-party crate (class
    [Gearhash]); the invocation messages of crates/rpc and the upload store of
    crates/channel/src/content.rs are the classes [Invocations] and [Uploads], of
    which the theorems hold whatever they answer.  The asynchronous services around
    these parts (networking, consensus, execution of jobs, gateways, command line)
    are input and output over third-party libraries. *)

From Stdlib Require Export NArith Lia Strings.Byte String.
From stdpp Require Export prelude gmap countable.
From stdpp Require Export list.


Declare Scope rust_scope.
Delimit Scope rust_scope with rust.
#[global] Open Scope rust_scope.

(** ** Results *)

Inductive result (A E : Type) : Type :=
  | Ok (a : A)
  | Err (e : E).
Arguments Ok {A E} a.
Arguments Err {A E} e.

Definition rbind {A B E} (r : result A E) (k : A -> result B E) : result B E :=
  match r with Ok a => k a | Err e => Err e end.

Definition map_err {A E F} (f : E -> F) (r : result A E) : result A F :=
  match r with Ok a => Ok a | Err e => Err (f e) end.

Definition ok_or {A E} (o : option A) (e : E) : result A E :=
  match o with Some a => Ok a | None => Err e end.

Definition is_ok {A E} (r : result A E) : bool :=
  match r with Ok _ => true | Err _ => false end.

Notation "'let?' x ':=' e 'in' k" := (rbind e (fun x => k))
  (at level 10, x name, e at level 100, k at level 200,
   format "'[v' 'let?'  x  ':='  e  'in' '/' k ']'") : rust_scope.
Notation "'let?' ' p ':=' e 'in' k" := (rbind e (fun p => k))
  (at level 10, p pattern, e at level 100, k at level 200,
   format "'[v' 'let?'  ' p  ':='  e  'in' '/' k ']'") : rust_scope.

(** [collect]: run a fallible function over a list, first error wins. *)
Fixpoint rmap {A B E} (f : A -> result B E) (l : list A) : result (list B) E :=
  match l with
  | [] => Ok []
  | a :: l => let? b := f a in let? bs := rmap f l in Ok (b :: bs)
  end.

(** A fallible left fold. *)
Fixpoint rfold {S A E} (f : S -> A -> result S E) (s : S) (l : list A) : result S E :=
  match l with
  | [] => Ok s
  | a :: l => let? s' := f s a in rfold f s' l
  end.

(** ** Machine integers: [u64] values are [N], with the checked and the
    saturating operations of the standard library written out. *)

Definition U64_MAX : N := 18446744073709551615.
Definition u64_ok (n : N) : bool := (n <=? U64_MAX)%N.
Definition u32_ok (n : N) : bool := (n <=? 4294967295)%N.
Definition u16_ok (n : N) : bool := (n <=? 65535)%N.
Definition u8_ok (n : N) : bool := (n <=? 255)%N.

Definition checked_add (a b : N) : option N :=
  if u64_ok (a + b) then Some (a + b)%N else None.
Definition checked_sub (a b : N) : option N :=
  if (b <=? a)%N then Some (a - b)%N else None.
Definition checked_mul (a b : N) : option N :=
  if u64_ok (a * b) then Some (a * b)%N else None.
Definition saturating_add (a b : N) : N := N.min (a + b) U64_MAX.
Definition saturating_sub (a b : N) : N := (a - b)%N.

(** ** Bytes *)

#[global] Instance byte_eq_dec : EqDecision byte := Byte.byte_eq_dec.
#[global] Program Instance byte_countable : Countable byte :=
  inj_countable Byte.to_N Byte.of_N _.
Next Obligation. intros x. apply Byte.of_to_N. Qed.

Notation bytes := (list byte).

Definition byte_of_N (n : N) : byte :=
  match Byte.of_N (n mod 256) with Some b => b | None => x00 end.

(** [to_be_bytes]/[from_be_bytes]: big-endian, [w] bytes wide. *)
Fixpoint to_be_bytes (w : nat) (v : N) : bytes :=
  match w with
  | O => []
  | S w => to_be_bytes w (v / 256) ++ [byte_of_N v]
  end.
Definition from_be_bytes (bs : bytes) : N :=
  fold_left (fun acc b => (acc * 256 + Byte.to_N b)%N) bs 0%N.

(** Copy a slice into a zeroed array of [n] bytes. *)
Definition array_of (n : nat) (bs : bytes) : bytes :=
  take n (bs ++ repeat x00 n).

Definition sumN {A} (f : A -> N) (l : list A) : N :=
  fold_right (fun a acc => f a + acc)%N 0%N l.

(** Total of a measure over a finite map. *)
Definition map_sum {K A} `{Countable K} (f : A -> N) (m : gmap K A) : N :=
  map_fold (fun _ a acc => f a + acc)%N 0%N m.

(** ** Automation *)

Create HintDb kernel.
Create HintDb codec.

(** Peel one bind, guard or conversion off a hypothesis that says a
    computation returned [Ok]. *)
Lemma rbind_Ok {A B E} (r : result A E) (k : A -> result B E) b :
  rbind r k = Ok b <-> exists a, r = Ok a /\ k a = Ok b.
Proof. destruct r; simpl; split; [eauto|by intros (? & [= <-] & ?)|done|by intros (? & ? & ?)]. Qed.

Lemma Ok_inj {A E} (a b : A) : @Ok A E a = Ok b -> a = b.
Proof. by intros [= ->]. Qed.

Lemma ok_or_Ok {A E} (o : option A) (e : E) a : ok_or o e = Ok a <-> o = Some a.
Proof. destruct o; simpl; split; congruence. Qed.

Lemma map_err_Ok {A E F} (f : E -> F) (r : result A E) a :
  map_err f r = Ok a <-> r = Ok a.
Proof. destruct r; simpl; split; congruence. Qed.

Lemma is_ok_true {A E} (r : result A E) : is_ok r = true <-> exists a, r = Ok a.
Proof. destruct r; simpl; split; [eauto|done|done|by intros []]. Qed.

Ltac inv_ok_step :=
  match goal with
  | H : rbind _ _ = Ok _ |- _ =>
      apply rbind_Ok in H; let x := fresh "v" in let E := fresh "E" in
      destruct H as (x & E & H); cbn beta in H
  | H : mbind _ _ = Some _ |- _ =>
      apply bind_Some in H; let x := fresh "v" in let E := fresh "E" in
      destruct H as (x & E & H); cbn beta in H
  | H : ok_or _ _ = Ok _ |- _ => apply ok_or_Ok in H
  | H : map_err _ _ = Ok _ |- _ => apply map_err_Ok in H
  | H : Ok _ = Ok _ |- _ => apply Ok_inj in H
  | H : (_, _) = (_, _) |- _ => apply pair_equal_spec in H; destruct H
  | H : Err _ = Ok _ |- _ => discriminate H
  | H : Some _ = Some _ |- _ => apply Some_inj in H
  | H : None = Some _ |- _ => discriminate H
  | H : Some _ = None |- _ => discriminate H
  | H : (if ?b then Err _ else _) = Ok _ |- _ =>
      let G := fresh "G" in destruct b eqn:G; [discriminate H|]
  | H : (if ?b then _ else Err _) = Ok _ |- _ =>
      let G := fresh "G" in destruct b eqn:G; [|discriminate H]
  | H : (if ?b then None else _) = Some _ |- _ =>
      let G := fresh "G" in destruct b eqn:G; [discriminate H|]
  | H : (if ?b then _ else None) = Some _ |- _ =>
      let G := fresh "G" in destruct b eqn:G; [|discriminate H]
  | H : (let '(_, _) := ?p in _) = Ok _ |- _ =>
      let a := fresh "a" in let b := fresh "b" in destruct p as [a b]
  end.
Ltac inv_ok := repeat (inv_ok_step; cbn beta iota in *).

(** Reduce the binds of a computation whose next step is known. *)
Ltac bind_simpl := cbn [mbind option_bind rbind ok_or map_err].

(** Turn boolean tests into propositions. *)
Ltac bool_simpl :=
  repeat match goal with
  | H : negb _ = true |- _ => apply negb_true_iff in H
  | H : negb _ = false |- _ => apply negb_false_iff in H
  | H : _ && _ = true |- _ => apply andb_true_iff in H; destruct H
  | H : _ || _ = false |- _ => apply orb_false_iff in H; destruct H
  | H : bool_decide _ = true |- _ => apply bool_decide_eq_true in H
  | H : bool_decide _ = false |- _ => apply bool_decide_eq_false in H
  | H : N.leb _ _ = true |- _ => apply N.leb_le in H
  | H : N.leb _ _ = false |- _ => apply N.leb_gt in H
  | H : N.ltb _ _ = true |- _ => apply N.ltb_lt in H
  | H : N.ltb _ _ = false |- _ => apply N.ltb_ge in H
  | H : N.eqb _ _ = true |- _ => apply N.eqb_eq in H
  | H : N.eqb _ _ = false |- _ => apply N.eqb_neq in H
  | H : Nat.leb _ _ = true |- _ => apply Nat.leb_le in H
  | H : Nat.leb _ _ = false |- _ => apply Nat.leb_gt in H
  | H : Nat.ltb _ _ = true |- _ => apply Nat.ltb_lt in H
  | H : Nat.ltb _ _ = false |- _ => apply Nat.ltb_ge in H
  | H : Nat.eqb _ _ = true |- _ => apply Nat.eqb_eq in H
  | H : Nat.eqb _ _ = false |- _ => apply Nat.eqb_neq in H
  end.

(** ** Generic lemmas *)

(** The compile-time maximum of the source's size constants. *)
Lemma nat_max_if a b : (if (a <? b)%nat then b else a) = Nat.max a b.
Proof. destruct (Nat.ltb_spec a b); lia. Qed.

Lemma checked_add_Some a b c :
  checked_add a b = Some c <-> c = (a + b)%N /\ (a + b <= U64_MAX)%N.
Proof.
  unfold checked_add, u64_ok. destruct (N.leb_spec (a + b) U64_MAX); split;
    intros; simplify_eq; try lia; intuition (subst; done).
Qed.

Lemma checked_mul_Some a b c :
  checked_mul a b = Some c <-> c = (a * b)%N /\ (a * b <= U64_MAX)%N.
Proof.
  unfold checked_mul, u64_ok. destruct (N.leb_spec (a * b) U64_MAX); split;
    intros; simplify_eq; try lia; intuition (subst; done).
Qed.

Lemma checked_sub_Some a b c :
  checked_sub a b = Some c <-> c = (a - b)%N /\ (b <= a)%N.
Proof.
  unfold checked_sub. destruct (N.leb_spec b a); split;
    intros; simplify_eq; try lia; intuition (subst; done).
Qed.

Ltac checked_simpl :=
  repeat match goal with
  | H : checked_add _ _ = Some _ |- _ => apply checked_add_Some in H; destruct H
  | H : checked_mul _ _ = Some _ |- _ => apply checked_mul_Some in H; destruct H
  | H : checked_sub _ _ = Some _ |- _ => apply checked_sub_Some in H; destruct H
  end.

Lemma rmap_Ok {A B E} (f : A -> result B E) l bs :
  rmap f l = Ok bs <-> Forall2 (fun a b => f a = Ok b) l bs.
Proof.
  revert bs; induction l as [|a l IH]; intros bs; simpl.
  - split; [intros; by simplify_eq|]. by inversion 1.
  - rewrite rbind_Ok; split.
    + intros (b & Hb & H). apply rbind_Ok in H as (bs' & H & ?).
      simplify_eq. constructor; [done|]. by apply IH.
    + inversion 1; subst. eexists; split; [done|].
      apply rbind_Ok. eexists; split; [by apply IH|done].
Qed.

(** *** Bytes *)

Lemma rfold_unit_Ok {A E} (f : A -> result unit E) (l : list A) :
  rfold (fun (_ : unit) a => f a) tt l = Ok tt <-> Forall (fun a => f a = Ok tt) l.
Proof.
  induction l as [|a l IH]; simpl; [done|]. rewrite Forall_cons, <- IH.
  destruct (f a) as [[]|]; simpl; [|by split; [|intros []]]. by split; [|intros []].
Qed.

Lemma lor_above value group shift :
  (value < 2 ^ shift -> N.lor value (N.shiftl group shift) = value + group * 2 ^ shift)%N.
Proof.
  intros Hv. rewrite N.shiftl_mul_pow2.
  assert (N.land value (group * 2 ^ shift) = 0)%N as Hl.
  { apply N.bits_inj. intros n. rewrite N.land_spec, N.bits_0.
    destruct (N.ltb_spec n shift); [rewrite N.mul_pow2_bits_low by done; apply andb_false_r|].
    destruct (N.eq_dec value 0%N) as [->|]; [done|].
    rewrite (N.bits_above_log2 value n); [done|]. apply N.log2_lt_pow2 in Hv; lia. }
  by rewrite (N.add_nocarry_lxor _ _ Hl), N.lxor_lor.
Qed.

Lemma byte_to_of_N n : Byte.to_N (byte_of_N n) = (n mod 256)%N.
Proof.
  unfold byte_of_N. destruct (Byte.of_N (n mod 256)) eqn:E.
  - by apply Byte.to_of_N.
  - apply Byte.of_N_None_iff in E.
    pose proof (N.mod_lt n 256 ltac:(lia)). lia.
Qed.

Lemma byte_of_to_N b : byte_of_N (Byte.to_N b) = b.
Proof.
  unfold byte_of_N. pose proof (Byte.to_N_bounded b).
  rewrite N.mod_small by lia. by rewrite Byte.of_to_N.
Qed.

Lemma to_be_bytes_length w v : length (to_be_bytes w v) = w.
Proof.
  revert v; induction w; intros v; simpl; [done|].
  rewrite length_app, IHw. simpl; lia.
Qed.

Lemma from_be_bytes_snoc bs b :
  from_be_bytes (bs ++ [b]) = (from_be_bytes bs * 256 + Byte.to_N b)%N.
Proof. unfold from_be_bytes. by rewrite fold_left_app. Qed.

Lemma from_be_bytes_bound bs : (from_be_bytes bs < 256 ^ N.of_nat (length bs))%N.
Proof.
  induction bs as [|b bs IH] using rev_ind; [done|].
  rewrite from_be_bytes_snoc, length_app; simpl.
  pose proof (Byte.to_N_bounded b).
  replace (N.of_nat (length bs + 1)) with (N.succ (N.of_nat (length bs))) by lia.
  rewrite N.pow_succ_r'. lia.
Qed.

Lemma from_to_be_bytes w v :
  (v < 256 ^ N.of_nat w)%N -> from_be_bytes (to_be_bytes w v) = v.
Proof.
  revert v; induction w; intros v Hv; simpl.
  - simpl in Hv. change (from_be_bytes []) with 0%N. lia.
  - rewrite from_be_bytes_snoc, byte_to_of_N, IHw.
    + pose proof (N.div_mod v 256 ltac:(lia)). lia.
    + rewrite Nat2N.inj_succ, N.pow_succ_r' in Hv.
      apply N.Div0.div_lt_upper_bound; lia.
Qed.

Lemma to_from_be_bytes bs : to_be_bytes (length bs) (from_be_bytes bs) = bs.
Proof.
  induction bs as [|b bs IH] using rev_ind; [done|].
  rewrite length_app, Nat.add_1_r; simpl. rewrite from_be_bytes_snoc.
  pose proof (Byte.to_N_bounded b).
  replace ((from_be_bytes bs * 256 + Byte.to_N b) / 256)%N with (from_be_bytes bs).
  2:{ rewrite N.div_add_l by lia. rewrite N.div_small; lia. }
  rewrite IH. f_equal. f_equal. rewrite <- (byte_of_to_N b) at 2.
  unfold byte_of_N. rewrite N.add_comm, N.Div0.mod_add. done.
Qed.

Lemma array_of_length n bs : length (array_of n bs) = n.
Proof. unfold array_of. rewrite length_take, length_app, repeat_length. lia. Qed.

Lemma array_of_app n bs rest : length bs = n -> array_of n (bs ++ rest) = bs.
Proof. intros <-. unfold array_of. rewrite <- app_assoc. apply take_app_length. Qed.

Lemma array_of_id n bs : length bs = n -> array_of n bs = bs.
Proof. intros H. rewrite <- (app_nil_r bs) at 1. by apply array_of_app. Qed.

Lemma array_of_take n bs : (n <= length bs)%nat -> array_of n bs = take n bs.
Proof. intros. unfold array_of. by rewrite take_app_le by lia. Qed.

(** *** Sums *)

Lemma sumN_app {A} (f : A -> N) l k : sumN f (l ++ k) = (sumN f l + sumN f k)%N.
Proof. induction l; simpl; lia. Qed.

Lemma sumN_cons {A} (f : A -> N) a l : sumN f (a :: l) = (f a + sumN f l)%N.
Proof. done. Qed.

Lemma sumN_map {A B} (f : B -> N) (g : A -> B) l :
  sumN f (map g l) = sumN (fun a => f (g a)) l.
Proof. induction l; simpl; lia. Qed.

Lemma sumN_ext {A} (f g : A -> N) l :
  (forall a, a ∈ l -> f a = g a) -> sumN f l = sumN g l.
Proof.
  induction l; intros H; simpl; [done|]. rewrite H, IHl; [done| |set_solver].
  intros; apply H; set_solver.
Qed.

Section map_sum.
  Context {K A : Type} `{Countable K} (f : A -> N).
  Implicit Types m : gmap K A.

Lemma map_sum_empty : map_sum f (∅ : gmap K A) = 0%N.
Proof. apply map_fold_empty. Qed.

Lemma map_sum_insert m k a :
  m !! k = None -> map_sum f (<[k := a]> m) = (f a + map_sum f m)%N.
Proof.
  intros. unfold map_sum.
  apply (map_fold_insert_L (fun _ a acc => (f a + acc)%N)); [intros; lia|done].
Qed.

Lemma map_sum_delete m k a :
  m !! k = Some a -> map_sum f m = (f a + map_sum f (delete k m))%N.
Proof.
  intros. unfold map_sum.
  apply (map_fold_delete_L (fun _ a acc => (f a + acc)%N)); [intros; lia|done].
Qed.

Lemma map_sum_le m k a : m !! k = Some a -> (f a <= map_sum f m)%N.
Proof. intros. erewrite map_sum_delete by done. lia. Qed.
End map_sum.

Create Rewrite HintDb codec.
#[export] Hint Rewrite @length_app @to_be_bytes_length @array_of_length : codec.

(** ** Boolean list predicates *)

Lemma forallb_Forall {A} (f : A -> bool) l :
  forallb f l = true <-> Forall (fun a => f a = true) l.
Proof.
  induction l as [|a l IH]; simpl; [done|]. by rewrite Forall_cons, andb_true_iff, IH.
Qed.

(** Comparing two lists slot by slot through a map. *)
Lemma zip_compare_map {A B} `{EqDecision B} (g : A -> B) l k :
  negb (length l =? length k)%nat
    || existsb (fun '(x, y) => negb (bool_decide (g x = y))) (zip l k) = false <->
  k = map g l.
Proof.
  revert k. induction l as [|a l IH]; intros [|b k]; simpl; try done.
  specialize (IH k). case_bool_decide as Hg; simpl; [|rewrite orb_true_r].
  - rewrite IH, Hg. split; [by intros ->|]. by intros [= ?].
  - split; [done|]. intros [= ? _]. congruence.
Qed.
