(* ===== verification/Xet.v ===== *)
(** * Xet single-chunk hashing (crates/xet/src/lib.rs)

    The commitment hash of the kernel.  BLAKE3 is a third-party crate and is a
    parameter ([Blake3]): its keyed mode maps a key and a message to 32 bytes,
    and its incremental hasher equals the one-shot hash of the bytes absorbed.
    [SingleChunkHasher] is the code under src/: it counts the bytes it is given
    and panics (here: returns [None]) once they reach [MIN_CHUNK_SIZE]. *)

From S2P Require Import Prelude.

Class Blake3 := {
  blake3_keyed_hash : bytes -> bytes -> bytes;
  blake3_length : forall key msg, length (blake3_keyed_hash key msg) = 32%nat;
}.

(* [crates/xet/src/lib.rs:29-32] DATA_KEY *)
Definition DATA_KEY : bytes := map byte_of_N
  [102; 151; 245; 119; 91; 149; 80; 222; 49; 53; 203; 172; 165; 151; 24; 28; 157; 228; 33; 16;
   155; 235; 43; 88; 180; 208; 176; 75; 147; 173; 242; 41]%N.

(* [crates/xet/src/lib.rs:43-43] MIN_CHUNK_SIZE *)
Definition MIN_CHUNK_SIZE : N := 8 * 1024.

(* [crates/xet/src/lib.rs:66-66] ZERO_KEY *)
Definition ZERO_KEY : bytes := repeat x00 32.

(* [crates/xet/src/lib.rs:77-79] XetHash::LEN *)
Definition XetHash_LEN : nat := 32.

(* [crates/xet/src/lib.rs:81-82] XetHash::ZERO *)
Definition XetHash_ZERO : bytes := repeat x00 XetHash_LEN.

Section xet.
  Context `{Blake3}.

(* [crates/xet/src/lib.rs:302-306] chunk_hash *)
Definition chunk_hash (bs : bytes) : bytes := blake3_keyed_hash DATA_KEY bs.

(* [crates/xet/src/lib.rs:308-316] SingleChunkHasher *)
Record SingleChunkHasher := mk_SingleChunkHasher {
  hasher_leaf : bytes;
  hasher_len : N;
}.

(* [crates/xet/src/lib.rs:325-332] SingleChunkHasher::new *)
Definition SingleChunkHasher_new : SingleChunkHasher := mk_SingleChunkHasher [] 0.

(* [crates/xet/src/lib.rs:334-346] SingleChunkHasher::update *)
Definition SingleChunkHasher_update (h : SingleChunkHasher) (bs : bytes)
    : option SingleChunkHasher :=
  if (hasher_len h <? MIN_CHUNK_SIZE)%N
     && (N.of_nat (length bs) <? MIN_CHUNK_SIZE - hasher_len h)%N
  then Some (mk_SingleChunkHasher (hasher_leaf h ++ bs)
               (hasher_len h + N.of_nat (length bs)))
  else None.

(* [crates/xet/src/lib.rs:348-355] SingleChunkHasher::finalize *)
Definition SingleChunkHasher_finalize (h : SingleChunkHasher) : bytes :=
  if (hasher_len h =? 0)%N then XetHash_ZERO
  else blake3_keyed_hash ZERO_KEY (chunk_hash (hasher_leaf h)).

(** A run of the hasher over the writes of one [encode_to] body. *)
Definition hasher_writes (h : SingleChunkHasher) (writes : list bytes)
    : option SingleChunkHasher :=
  foldl (fun acc bs => acc ≫= fun h => SingleChunkHasher_update h bs) (Some h) writes.

Definition hash_writes (writes : list bytes) : option bytes :=
  SingleChunkHasher_finalize <$> hasher_writes SingleChunkHasher_new writes.

(** The value of a run that does not panic: every kernel digest is written
    with it, over the concatenation of what the source feeds the hasher. *)
Definition xet_hash (preimage : bytes) : bytes :=
  if (N.of_nat (length preimage) =? 0)%N then XetHash_ZERO
  else blake3_keyed_hash ZERO_KEY (chunk_hash preimage).

Lemma xet_hash_length preimage : length (xet_hash preimage) = XetHash_LEN.
Proof.
  unfold xet_hash. case_match; [apply repeat_length|apply blake3_length].
Qed.

Lemma hasher_writes_None writes :
  foldl (fun acc bs => acc ≫= fun h => SingleChunkHasher_update h bs) None writes = None.
Proof. induction writes; simpl; auto. Qed.

Lemma hasher_writes_spec h writes :
  hasher_len h = N.of_nat (length (hasher_leaf h)) ->
  hasher_writes h writes =
    if decide (writes = []) then Some h else
    if (hasher_len h + N.of_nat (length (concat writes)) <? MIN_CHUNK_SIZE)%N
    then Some (mk_SingleChunkHasher (hasher_leaf h ++ concat writes)
                 (hasher_len h + N.of_nat (length (concat writes))))
    else None.
Proof.
  unfold hasher_writes. revert h. induction writes as [|w ws IH]; intros h Hlen.
  { done. }
  rewrite decide_False by done. simpl. rewrite length_app.
  unfold SingleChunkHasher_update at 2; simpl.
  destruct (_ <? _)%N eqn:E1; [|simpl; rewrite hasher_writes_None].
  2:{ bool_simpl. destruct (N.ltb_spec (hasher_len h + N.of_nat (length w + length (concat ws)))
        MIN_CHUNK_SIZE); [lia|done]. }
  destruct (N.of_nat (length w) <? _)%N eqn:E2; simpl.
  2:{ rewrite hasher_writes_None. bool_simpl.
      destruct (N.ltb_spec (hasher_len h + N.of_nat (length w + length (concat ws)))
        MIN_CHUNK_SIZE); [lia|done]. }
  rewrite IH by (simpl; rewrite length_app; lia). simpl. bool_simpl.
  destruct (decide (ws = [])) as [->|Hne]; simpl.
  - rewrite app_nil_r.
    destruct (N.ltb_spec (hasher_len h + N.of_nat (length w + 0)) MIN_CHUNK_SIZE); [|lia].
    by rewrite Nat.add_0_r.
  - rewrite <- app_assoc, Nat2N.inj_add, N.add_assoc. done.
Qed.

(** The hasher panics exactly when the writes reach [MIN_CHUNK_SIZE]; below it
    the result is the Xet hash of their concatenation, however it is split. *)
Lemma hash_writes_xet writes :
  (N.of_nat (length (concat writes)) < MIN_CHUNK_SIZE)%N ->
  hash_writes writes = Some (xet_hash (concat writes)).
Proof.
  intros Hlt. unfold hash_writes. rewrite hasher_writes_spec by done.
  destruct (decide (writes = [])) as [->|]; [done|].
  destruct (N.ltb_spec (hasher_len SingleChunkHasher_new + N.of_nat (length (concat writes)))
    MIN_CHUNK_SIZE) as [?|Hge]; [done|simpl in Hge; lia].
Qed.
End xet.
