(* ===== verification/XetChunk.v ===== *)
(** * Xet content-defined chunking and file hashing (crates/xet/src/lib.rs)

    The chunker that takes a whole buffer ([chunk]), the streaming hasher that
    takes it in pieces ([XetFileHasher]), the Merkle tree over chunk descriptors
    ([merkle_root], computed in place), the file hash and the text form of a
    hash.  The Gear rolling hash is a third-party crate: it is the parameter
    [Gearhash], and what the code relies on is [GearLaws]: a search reads its
    buffer from the left, stops at the first match, and resumes where it
    stopped.  Loops run on fuel and answer [None] when it is exhausted; the
    theorems show that it never is.  A panic ([u64] overflow of a length sum) is
    also [None]. *)

From S2P Require Import Prelude Xet.

#[local] Open Scope N_scope.

(** ** The rolling hash *)

Class Gearhash := {
  gear : Type;
  gear_default : gear;
  gear_next_match : gear -> bytes -> N -> option N * gear;
}.

(** What [gearhash::Hasher::next_match] documents: the number of bytes up to and
    including the first match, the hasher left at that position; with no match
    the whole buffer is absorbed. *)
Class GearLaws `{Gearhash} := {
  gear_bound g bs mask n g' :
    gear_next_match g bs mask = (Some n, g') -> 0 < n <= N.of_nat (length bs);
  gear_nil g mask : gear_next_match g [] mask = (None, g);
  gear_found g bs mask n g' rest :
    gear_next_match g bs mask = (Some n, g') ->
    gear_next_match g (bs ++ rest) mask = (Some n, g');
  gear_resume g bs mask g' rest :
    gear_next_match g bs mask = (None, g') ->
    gear_next_match g (bs ++ rest) mask =
      (N.add (N.of_nat (length bs)) <$> (gear_next_match g' rest mask).1,
       (gear_next_match g' rest mask).2);
}.

Notation lenN l := (N.of_nat (length l)).
Notation takeN n l := (take (N.to_nat n) l).
Notation dropN n l := (drop (N.to_nat n) l).

(** ** Constants *)

Definition MAX_CHUNK_SIZE : N := 128 * 1024.
Definition CHUNK_BOUNDARY_MASK : N := 0xffff000000000000.
Definition HASH_WINDOW_SIZE : N := 64.

(* [crates/xet/src/lib.rs:54-57] INITIAL_SKIP *)
Definition INITIAL_SKIP : N := MIN_CHUNK_SIZE - HASH_WINDOW_SIZE - 1.

(* [crates/xet/src/lib.rs:35-38] INTERNAL_NODE_KEY *)
Definition INTERNAL_NODE_KEY : bytes := map byte_of_N
  [1; 126; 197; 199; 165; 71; 41; 150; 253; 148; 102; 102; 180; 138; 2; 230; 93; 221; 83; 111; 55;
   199; 109; 210; 248; 99; 82; 230; 74; 83; 113; 63].

Definition TREE_BRANCHING_FACTOR : N := 4.
Definition MAX_GROUP_SIZE : N := 2 * TREE_BRANCHING_FACTOR + 1.
Definition MAX_ENTRY_SIZE : N := 64 + 3 + 20 + 1.

(* [crates/xet/src/lib.rs:64-65] MAX_MERGE_BUFFER_SIZE *)
Definition MAX_MERGE_BUFFER_SIZE : N := MAX_GROUP_SIZE * MAX_ENTRY_SIZE.

(** ** Text form of a hash *)

Definition HEX (digit : N) : byte :=
  byte_of_N (if digit <? 10 then 48 + digit else 87 + digit).

Definition byte_hex (b : byte) : bytes :=
  [HEX (N.shiftr (Byte.to_N b) 4); HEX (N.land (Byte.to_N b) 15)].

(** [as_chunks::<n>().0]: the whole [n]-byte groups of an array of [count * n]. *)
Definition as_chunks (n count : nat) (bs : bytes) : list bytes :=
  map (fun i => take n (drop (n * i) bs)) (seq 0 count).

(* [crates/xet/src/lib.rs:143-152] LowerHex::fmt *)
Definition XetHash_fmt (hash : bytes) : bytes :=
  concat (map (fun limb => concat (map byte_hex (rev limb))) (as_chunks 8 4 hash)).

(* [crates/xet/src/lib.rs:273-280] decode_hex *)
Definition decode_hex (b : byte) : option N :=
  let v := Byte.to_N b in
  if (48 <=? v) && (v <=? 57) then Some (v - 48)
  else if (97 <=? v) && (v <=? 102) then Some (v - 97 + 10)
  else if (65 <=? v) && (v <=? 70) then Some (v - 65 + 10)
  else None.

(* [crates/xet/src/lib.rs:166-173] XetHashError *)
Inductive XetHashError := WrongLength (len : N) | InvalidHex.

(* [crates/xet/src/lib.rs:98-104] XetHash::from_slice *)
Definition XetHash_from_slice (bs : bytes) : result bytes XetHashError :=
  if (length bs =? XetHash_LEN)%nat then Ok bs else Err (WrongLength (lenN bs)).

Definition decode_pair (limb : bytes) (byte_index : nat) : option byte :=
  high ← limb !! (byte_index * 2)%nat ≫= decode_hex;
  low ← limb !! (byte_index * 2 + 1)%nat ≫= decode_hex;
  Some (byte_of_N (N.lor (N.shiftl high 4) low)).

(** The bytes of a limb are written back to front ([raw[8 * limb + 7 - i]]). *)
Definition decode_limb (limb : bytes) : option bytes :=
  @rev byte <$> mapM (decode_pair limb) (seq 0 8).

(* [crates/xet/src/lib.rs:189-206] XetHash::from_str *)
Definition XetHash_from_str (hex : bytes) : result bytes XetHashError :=
  if negb (length hex =? 64)%nat then Err InvalidHex
  else ok_or (@concat byte <$> mapM decode_limb (as_chunks 16 4 hex)) InvalidHex.

(** ** Chunks *)

(* [crates/xet/src/lib.rs:287-292] Chunk *)
Record Chunk := Chunk_new { chunk_hash_of : bytes; data_len : N }.

Section chunker.
  Context `{Blake3} `{Gearhash}.

(** The search of one boundary: matches below [MIN_CHUNK_SIZE] are discarded and
    the search goes on with the hasher state they left. *)
(* [crates/xet/src/lib.rs:370-380] chunk *)
Fixpoint find_boundary (fuel : nat) (remaining : bytes) (search_end cursor : N) (hasher : gear)
    : option N :=
  match fuel with
  | O => None
  | S fuel =>
      match gear_next_match hasher (takeN (search_end - cursor) (dropN cursor remaining))
              CHUNK_BOUNDARY_MASK with
      | (None, _) => Some search_end
      | (Some consumed, hasher) =>
          let cursor := cursor + consumed in
          if MIN_CHUNK_SIZE <=? cursor then Some cursor
          else find_boundary fuel remaining search_end cursor hasher
      end
  end.

(* [crates/xet/src/lib.rs:361-388] chunk *)
Fixpoint chunk_from (fuel : nat) (remaining : bytes) : option (list Chunk) :=
  match remaining, fuel with
  | [], _ => Some []
  | _, O => None
  | _, S fuel =>
      let search_end := N.min (lenN remaining) MAX_CHUNK_SIZE in
      boundary ← find_boundary (S (length remaining)) remaining search_end
                   (N.min INITIAL_SKIP search_end) gear_default;
      let data := takeN boundary remaining in
      chunks ← chunk_from fuel (dropN boundary remaining);
      Some (Chunk_new (chunk_hash data) (lenN data) :: chunks)
  end.

Definition chunk (bs : bytes) : option (list Chunk) := chunk_from (length bs) bs.

(* [crates/xet/src/lib.rs:408-417] XetFileHasher *)
Record XetFileHasher := mk_XetFileHasher {
  fh_gear : gear;
  fh_leaf : bytes;
  fh_chunk_len : N;
  fh_chunks : list Chunk;
}.

(* [crates/xet/src/lib.rs:430-437] XetFileHasher::new *)
Definition XetFileHasher_new : XetFileHasher := mk_XetFileHasher gear_default [] 0 [].

(* [crates/xet/src/lib.rs:517-523] XetFileHasher::cut *)
Definition cut (h : XetFileHasher) : XetFileHasher :=
  mk_XetFileHasher gear_default [] 0
    (fh_chunks h ++ [Chunk_new (chunk_hash (fh_leaf h)) (fh_chunk_len h)]).

(** One turn of the [while] loop on a non-empty [input]. *)
(* [crates/xet/src/lib.rs:448-498] XetFileHasher::update *)
Definition update_turn (h : XetFileHasher) (input : bytes) : XetFileHasher * bytes :=
  if fh_chunk_len h <? INITIAL_SKIP then
    let skip := N.min (INITIAL_SKIP - fh_chunk_len h) (lenN input) in
    (mk_XetFileHasher (fh_gear h) (fh_leaf h ++ takeN skip input) (fh_chunk_len h + skip)
       (fh_chunks h), dropN skip input)
  else
    let take := N.min (lenN input) (MAX_CHUNK_SIZE - fh_chunk_len h) in
    let window := takeN take input in
    match gear_next_match (fh_gear h) window CHUNK_BOUNDARY_MASK with
    | (Some consumed, g) =>
        let h' := mk_XetFileHasher g (fh_leaf h ++ takeN consumed window)
                    (fh_chunk_len h + consumed) (fh_chunks h) in
        (if MIN_CHUNK_SIZE <=? fh_chunk_len h' then cut h' else h', dropN consumed input)
    | (None, g) =>
        let h' := mk_XetFileHasher g (fh_leaf h ++ window) (fh_chunk_len h + take)
                    (fh_chunks h) in
        (if fh_chunk_len h' =? MAX_CHUNK_SIZE then cut h' else h', dropN take input)
    end.

Fixpoint update_loop (fuel : nat) (h : XetFileHasher) (input : bytes) : option XetFileHasher :=
  match input, fuel with
  | [], _ => Some h
  | _, O => None
  | _, S fuel => let '(h, input) := update_turn h input in update_loop fuel h input
  end.

(* [crates/xet/src/lib.rs:447-499] XetFileHasher::update *)
Definition XetFileHasher_update (h : XetFileHasher) (input : bytes) : option XetFileHasher :=
  update_loop (length input) h input.

(* [crates/xet/src/lib.rs:503-508] XetFileHasher::finalize_chunks *)
Definition finalize_chunks (h : XetFileHasher) : list Chunk :=
  fh_chunks (if 0 <? fh_chunk_len h then cut h else h).

(** ** The Merkle tree *)

(* [crates/xet/src/lib.rs:118-122] XetHash::natural_cut_value *)
Definition natural_cut_value (hash : bytes) : N := from_be_bytes (rev (drop 24 hash)).

Fixpoint natural_cut (nodes : list Chunk) (index : N) : option N :=
  match nodes with
  | [] => None
  | node :: nodes =>
      if natural_cut_value (chunk_hash_of node) mod TREE_BRANCHING_FACTOR =? 0
      then Some (index + 1) else natural_cut nodes (index + 1)
  end.

(* [crates/xet/src/lib.rs:581-593] next_merge_cut *)
Definition next_merge_cut (nodes : list Chunk) : N :=
  if lenN nodes <=? 2 then lenN nodes
  else let end_ := N.min (lenN nodes) MAX_GROUP_SIZE in
       default end_ (natural_cut (drop 2 (takeN end_ nodes)) 2).

(** The decimal digits of [value], most significant first; twenty suffice for
    a [u64]. *)
Fixpoint digits_of (fuel : nat) (value : N) (acc : bytes) : bytes :=
  match fuel with
  | O => acc
  | S fuel => if value =? 0 then acc
              else digits_of fuel (value / 10) (byte_of_N (48 + value mod 10) :: acc)
  end.

(* [crates/xet/src/lib.rs:629-648] write_decimal *)
Definition write_decimal (value : N) : bytes :=
  if value =? 0 then [byte_of_N 48] else digits_of 20 value [].

(* [crates/xet/src/lib.rs:616-626] write_hash *)
Definition write_hash (hash : bytes) : bytes :=
  concat (map (fun limb => concat (map byte_hex (rev limb))) (as_chunks 8 4 hash)).

Definition merge_entry (node : Chunk) : bytes :=
  write_hash (chunk_hash_of node) ++ map byte_of_N [32; 58; 32]
    ++ write_decimal (data_len node) ++ [byte_of_N 10].

(* [crates/xet/src/lib.rs:596-613] merge *)
Definition merge (nodes : list Chunk) : option Chunk :=
  let buffer := concat (map merge_entry nodes) in
  total_len ← foldl (fun acc node => acc ≫= fun total => checked_add total (data_len node))
                (Some 0) nodes;
  if lenN buffer <=? MAX_MERGE_BUFFER_SIZE
  then Some (Chunk_new (blake3_keyed_hash INTERNAL_NODE_KEY buffer) total_len)
  else None.

(** One level, in place: group [read..cut] is merged into slot [write]. *)
(* [crates/xet/src/lib.rs:543-551] merkle_root *)
Fixpoint merge_level (fuel : nat) (nodes : list Chunk) (read_index write_index : N)
    : option (list Chunk) :=
  if lenN nodes <=? read_index then Some (takeN write_index nodes)
  else match fuel with
  | O => None
  | S fuel =>
      let cut := read_index + next_merge_cut (dropN read_index nodes) in
      node ← merge (takeN (cut - read_index) (dropN read_index nodes));
      merge_level fuel (<[N.to_nat write_index := node]> nodes) cut (write_index + 1)
  end.

Fixpoint merkle_levels (fuel : nat) (nodes : list Chunk) : option (list Chunk) :=
  if lenN nodes <=? 1 then Some nodes
  else match fuel with
  | O => None
  | S fuel => nodes ← merge_level (length nodes) nodes 0 0; merkle_levels fuel nodes
  end.

(* [crates/xet/src/lib.rs:536-557] merkle_root *)
Definition merkle_root (chunks : list Chunk) : option bytes :=
  match chunks with
  | [] => Some XetHash_ZERO
  | _ => nodes ← merkle_levels (length chunks) chunks; chunk_hash_of <$> head nodes
  end.

(* [crates/xet/src/lib.rs:572-578] file_hash *)
Definition file_hash (chunks : list Chunk) : option bytes :=
  match chunks with
  | [] => Some XetHash_ZERO
  | _ => root ← merkle_root chunks; Some (blake3_keyed_hash ZERO_KEY root)
  end.

(* [crates/xet/src/lib.rs:87-89] XetHash::hash *)
Definition XetHash_hash (bs : bytes) : option bytes := chunk bs ≫= file_hash.

(* [crates/xet/src/lib.rs:512-514] XetFileHasher::finalize *)
Definition XetFileHasher_finalize (h : XetFileHasher) : option bytes :=
  file_hash (finalize_chunks h).

End chunker.

(** ** Streaming *)

Section streaming.
  Context `{Blake3} `{GearLaws}.

Ltac sizes := unfold INITIAL_SKIP, MIN_CHUNK_SIZE, MAX_CHUNK_SIZE, HASH_WINDOW_SIZE in *; lia.

Definition hasher_ok (h : XetFileHasher) : Prop := fh_chunk_len h < MAX_CHUNK_SIZE.

(** The run of the loop as a relation: [absorbs h input h'] when the turns on
    [input] from [h] end in [h']. *)
Inductive absorbs : XetFileHasher -> bytes -> XetFileHasher -> Prop :=
  | absorbs_nil h : absorbs h [] h
  | absorbs_turn h input h1 rest h2 :
      input <> [] -> update_turn h input = (h1, rest) -> absorbs h1 rest h2 ->
      absorbs h input h2.

Lemma lenN_nonempty {A} (l : list A) : l <> [] -> 0 < lenN l.
Proof. destruct l; [done|simpl; lia]. Qed.

(** A turn makes progress and keeps the hasher below the maximum chunk. *)
Lemma update_turn_progress h input h1 rest :
  hasher_ok h -> input <> [] -> update_turn h input = (h1, rest) ->
  hasher_ok h1 /\ (length rest < length input)%nat.
Proof.
  unfold hasher_ok, update_turn. intros Hok Hne%lenN_nonempty Hturn.
  destruct (N.ltb_spec (fh_chunk_len h) INITIAL_SKIP).
  { simplify_eq; simpl. rewrite length_drop. sizes. }
  destruct (gear_next_match _ _ _) as [[n|] g] eqn:Hg; simplify_eq; simpl.
  - apply gear_bound in Hg. rewrite length_take in Hg. rewrite length_drop.
    split; [|lia]. destruct (N.leb_spec MIN_CHUNK_SIZE (fh_chunk_len h + n)); simpl; sizes.
  - rewrite length_drop. split; [|sizes].
    destruct (N.eqb_spec (fh_chunk_len h + N.min (lenN input) (MAX_CHUNK_SIZE - fh_chunk_len h))
      MAX_CHUNK_SIZE); simpl; sizes.
Qed.

Lemma update_loop_absorbs fuel h input :
  hasher_ok h -> (length input <= fuel)%nat ->
  exists h', update_loop fuel h input = Some h' /\ absorbs h input h' /\ hasher_ok h'.
Proof.
  revert h input. induction fuel as [|fuel IH]; intros h input Hok Hlen.
  { destruct input; [|simpl in Hlen; lia]. exists h. by repeat constructor. }
  destruct input as [|b input]; [exists h; by repeat constructor|].
  destruct (update_turn h (b :: input)) as [h1 rest] eqn:Hturn.
  destruct (update_turn_progress h (b :: input) h1 rest Hok ltac:(discriminate) Hturn)
    as [Hok1 Hlt].
  destruct (IH h1 rest Hok1 ltac:(simpl in *; lia)) as (h' & Hrun & Habs & Hok').
  exists h'. split; [cbn [update_loop]; by rewrite Hturn|].
  split; [|done]. by eapply absorbs_turn.
Qed.

Lemma absorbs_det h input h1 h2 : absorbs h input h1 -> absorbs h input h2 -> h1 = h2.
Proof.
  intros Habs. revert h2. induction Habs as [h|h input h1 rest h3 Hne Hturn _ IH]; intros h2 Habs2.
  - by inversion Habs2.
  - inversion Habs2 as [|? ? h4 rest4 ? _ Hturn4]; [by subst|].
    rewrite Hturn in Hturn4. injection Hturn4 as <- <-. auto.
Qed.

Lemma XetFileHasher_update_absorbs h input h' :
  hasher_ok h -> XetFileHasher_update h input = Some h' <-> absorbs h input h'.
Proof.
  intros Hok. destruct (update_loop_absorbs (length input) h input Hok ltac:(lia))
    as (h2 & Hrun & Habs & _).
  unfold XetFileHasher_update. rewrite Hrun. split; [by intros [= <-]|].
  intros Habs2. by rewrite (absorbs_det _ _ _ _ Habs Habs2).
Qed.

Lemma takeN_app_room (input more : bytes) room :
  lenN input <= room ->
  takeN (N.min (lenN input + lenN more) room) (input ++ more) =
    input ++ takeN (N.min (lenN more) (room - lenN input)) more.
Proof.
  intros Hle. rewrite take_app, take_ge by lia. f_equal. f_equal. lia.
Qed.

(** A turn that stops inside its buffer is not affected by what follows it; one
    that reaches the end of the buffer either cuts there or is continued by the
    next turn.  First the turn that only skips, then the two of the search. *)
Lemma skip_turn_app h input more h1 rest :
  fh_chunk_len h < INITIAL_SKIP -> update_turn h input = (h1, rest) ->
  update_turn h (input ++ more) = (h1, rest ++ more) \/
  (rest = [] /\ update_turn h (input ++ more) = update_turn h1 more).
Proof.
  intros Hskip Hturn. unfold update_turn in *. rewrite length_app, Nat2N.inj_add.
  destruct (N.ltb_spec (fh_chunk_len h) INITIAL_SKIP); [|lia].
  injection Hturn as <- <-; cbn [fh_chunk_len fh_gear fh_leaf fh_chunks].
  destruct (N.le_gt_cases (INITIAL_SKIP - fh_chunk_len h) (lenN input)) as [Hle|Hgt].
  - left. rewrite !N.min_l by lia. by rewrite take_app_le, drop_app_le by lia.
  - right. rewrite (N.min_r _ (lenN input)) by lia. rewrite Nat2N.id, drop_all. split; [done|].
    destruct (N.ltb_spec (fh_chunk_len h + lenN input) INITIAL_SKIP); [|lia].
    replace (N.min (INITIAL_SKIP - fh_chunk_len h) (lenN input + lenN more))
      with (lenN input + N.min (INITIAL_SKIP - (fh_chunk_len h + lenN input)) (lenN more)) by lia.
    by rewrite N2Nat.inj_add, Nat2N.id, take_app_add', drop_app_add', firstn_all, N.add_assoc,
      <- app_assoc by done.
Qed.

Ltac search_turn h :=
  unfold update_turn in *; destruct (N.ltb_spec (fh_chunk_len h) INITIAL_SKIP); [sizes|].

Lemma full_turn_app h input more h1 rest :
  INITIAL_SKIP <= fh_chunk_len h < MAX_CHUNK_SIZE ->
  MAX_CHUNK_SIZE - fh_chunk_len h <= lenN input ->
  update_turn h input = (h1, rest) ->
  update_turn h (input ++ more) = (h1, rest ++ more).
Proof.
  intros Hskip Hgt Hturn. search_turn h. rewrite length_app, Nat2N.inj_add.
  rewrite N.min_r in * by lia. rewrite take_app_le by lia.
  destruct (gear_next_match _ _ _) as [[n|] g] eqn:Hg; simplify_eq;
    rewrite drop_app_le by (try apply gear_bound in Hg; rewrite ?length_take in Hg; lia);
    done.
Qed.

Lemma open_turn_app h input more h1 rest :
  INITIAL_SKIP <= fh_chunk_len h ->
  lenN input < MAX_CHUNK_SIZE - fh_chunk_len h ->
  update_turn h input = (h1, rest) ->
  update_turn h (input ++ more) = (h1, rest ++ more) \/
  (rest = [] /\ update_turn h (input ++ more) = update_turn h1 more).
Proof.
  intros Hskip Hle Hturn. search_turn h. rewrite length_app, Nat2N.inj_add.
  rewrite (N.min_l (lenN input)) in Hturn by lia.
  rewrite Nat2N.id, firstn_all in Hturn. rewrite takeN_app_room by lia.
  destruct (gear_next_match (fh_gear h) input _) as [[n|] g] eqn:Hg; injection Hturn as <- <-.
  { left. rewrite (gear_found _ _ _ _ _ _ Hg). apply gear_bound in Hg.
    by rewrite take_app_le, drop_app_le by lia. }
  right. rewrite (gear_resume _ _ _ _ _ Hg), drop_all. split; [done|].
  cbn [fh_chunk_len fh_gear fh_leaf fh_chunks].
  destruct (N.eqb_spec (fh_chunk_len h + lenN input) MAX_CHUNK_SIZE) as [?|_]; [lia|].
  cbn [fh_chunk_len fh_gear fh_leaf fh_chunks].
  destruct (N.ltb_spec (fh_chunk_len h + lenN input) INITIAL_SKIP); [lia|].
  replace (MAX_CHUNK_SIZE - (fh_chunk_len h + lenN input))
    with (MAX_CHUNK_SIZE - fh_chunk_len h - lenN input) by lia.
  set (room := MAX_CHUNK_SIZE - fh_chunk_len h - lenN input).
  replace (N.min (lenN input + lenN more) _) with (lenN input + N.min (lenN more) room) by lia.
  destruct (gear_next_match g _ _) as [[n|] g'] eqn:Hg'; cbn [fst snd fmap option_fmap option_map];
    rewrite N2Nat.inj_add, Nat2N.id, drop_app_add' by done;
    rewrite ?take_app_add', <- ?app_assoc, N.add_assoc by done; done.
Qed.

Lemma update_turn_app h input more h1 rest :
  hasher_ok h -> update_turn h input = (h1, rest) ->
  update_turn h (input ++ more) = (h1, rest ++ more) \/
  (rest = [] /\ update_turn h (input ++ more) = update_turn h1 more).
Proof.
  intros Hok Hturn. unfold hasher_ok in Hok.
  destruct (N.lt_ge_cases (fh_chunk_len h) INITIAL_SKIP); [by apply skip_turn_app|].
  destruct (N.lt_ge_cases (lenN input) (MAX_CHUNK_SIZE - fh_chunk_len h)).
  - by apply open_turn_app.
  - left. by apply full_turn_app.
Qed.

(** Feeding two buffers is feeding their concatenation. *)
Lemma absorbs_app h l1 h1 l2 h2 :
  hasher_ok h -> absorbs h l1 h1 -> absorbs h1 l2 h2 -> absorbs h (l1 ++ l2) h2.
Proof.
  intros Hok Habs1 Habs2. induction Habs1 as [h|h input h' rest h1 Hne Hturn Habs1 IH]; [done|].
  destruct (update_turn_progress h input h' rest Hok Hne Hturn) as [Hok' _].
  destruct l2 as [|b l2].
  { inversion Habs2; subst; [|done]. rewrite app_nil_r. by eapply absorbs_turn. }
  assert (input ++ b :: l2 <> []) by (by destruct input).
  destruct (update_turn_app h input (b :: l2) h' rest Hok Hturn) as [Happ|[-> Happ]].
  - eapply absorbs_turn; eauto.
  - inversion Habs1; subst; [|done]. inversion Habs2 as [|? ? h3 rest3 ? _ Hturn3 Habs3]; subst.
    eapply absorbs_turn; [done| |exact Habs3]. by rewrite Happ.
Qed.

(** ** The one-shot chunker *)

Definition hasher_at (g : gear) (leaf : bytes) (chunks : list Chunk) : XetFileHasher :=
  mk_XetFileHasher g leaf (lenN leaf) chunks.

Lemma lenN_take (r : bytes) c : c <= lenN r -> lenN (takeN c r) = c.
Proof. intros. rewrite length_take. lia. Qed.

Lemma takeN_takeN_drop (r : bytes) c n se :
  c + n <= se -> takeN c r ++ takeN n (takeN (se - c) (dropN c r)) = takeN (c + n) r.
Proof.
  intros. rewrite take_take, Nat.min_l, N2Nat.inj_add by lia.
  by rewrite <- (take_take_drop r).
Qed.

(** A turn of the streaming hasher and one of the boundary search make the same
    call of the rolling hash. *)
Lemma search_turn_at g r c cs :
  let se := N.min (lenN r) MAX_CHUNK_SIZE in
  INITIAL_SKIP <= c < se ->
  update_turn (hasher_at g (takeN c r) cs) (dropN c r) =
    match gear_next_match g (takeN (se - c) (dropN c r)) CHUNK_BOUNDARY_MASK with
    | (Some n, g') =>
        (if MIN_CHUNK_SIZE <=? c + n then cut (hasher_at g' (takeN (c + n) r) cs)
         else hasher_at g' (takeN (c + n) r) cs, dropN (c + n) r)
    | (None, g') =>
        (if se =? MAX_CHUNK_SIZE then cut (hasher_at g' (takeN se r) cs)
         else hasher_at g' (takeN se r) cs, dropN se r)
    end.
Proof.
  intros se Hc. unfold update_turn, hasher_at; cbn [fh_chunk_len fh_gear fh_leaf fh_chunks].
  rewrite !lenN_take by lia. destruct (N.ltb_spec c INITIAL_SKIP); [lia|].
  replace (N.min (lenN (dropN c r)) (MAX_CHUNK_SIZE - c)) with (se - c)
    by (rewrite length_drop; lia).
  destruct (gear_next_match _ _ _) as [[n|] g'] eqn:Hg.
  - apply gear_bound in Hg. rewrite length_take, length_drop in Hg.
    rewrite takeN_takeN_drop, drop_drop, <- N2Nat.inj_add, lenN_take by lia. done.
  - rewrite drop_drop, <- N2Nat.inj_add. replace (c + (se - c)) with se by lia.
    replace (takeN c r ++ takeN (se - c) (dropN c r)) with (takeN se r); [done|].
    rewrite N2Nat.inj_sub. symmetry. replace (N.to_nat se) with (N.to_nat c + (N.to_nat se - N.to_nat c))%nat at 2 by lia.
    apply take_take_drop.
Qed.

(** Where the search of a boundary leaves the streaming hasher: the chunk is cut
    at the boundary, or the buffer ended first. *)
Definition boundary_reached (h : XetFileHasher) (input r : bytes) (b : N) (cs : list Chunk)
    : Prop :=
  (MIN_CHUNK_SIZE <= b <= N.min (lenN r) MAX_CHUNK_SIZE /\
   forall h', absorbs (cut (hasher_at gear_default (takeN b r) cs)) (dropN b r) h' ->
     absorbs h input h') \/
  (b = lenN r /\ b < MAX_CHUNK_SIZE /\ exists g, absorbs h input (hasher_at g r cs)).

Lemma find_boundary_reached fuel r c g cs :
  let se := N.min (lenN r) MAX_CHUNK_SIZE in
  c <= se -> c < MAX_CHUNK_SIZE -> (INITIAL_SKIP <= c \/ c = lenN r) ->
  (N.to_nat (se - c) < fuel)%nat ->
  exists b, find_boundary fuel r se c g = Some b /\
    boundary_reached (hasher_at g (takeN c r) cs) (dropN c r) r b cs.
Proof.
  intros se. revert c g. induction fuel as [|fuel IH]; intros c g Hc Hmax Hskip Hfuel; [lia|].
  cbn [find_boundary].
  destruct (N.eq_dec c (lenN r)) as [->|Hne].
  { rewrite Nat2N.id, drop_all, take_nil, gear_nil. exists se. split; [done|].
    right. rewrite firstn_all. repeat split; [lia..|]. exists g. constructor. }
  assert (dropN c r <> []) as Hdrop.
  { intros Hnil%(f_equal length). rewrite length_drop in Hnil. simpl in Hnil. lia. }
  pose proof (search_turn_at g r c cs ltac:(lia)) as Hturn. fold se in Hturn.
  destruct (gear_next_match _ _ _) as [[n|] g'] eqn:Hg.
  - apply gear_bound in Hg. rewrite length_take, length_drop in Hg.
    destruct (N.leb_spec MIN_CHUNK_SIZE (c + n)).
    + exists (c + n). split; [done|]. left. split; [lia|]. intros h' Habs.
      by eapply absorbs_turn.
    + destruct (IH (c + n) g' ltac:(lia) ltac:(sizes) ltac:(lia) ltac:(lia))
        as (b & -> & [[Hb Habs]|(Hb & Hlt & g'' & Habs)]); exists b; (split; [done|]).
      * left. split; [done|]. intros h' Hcut. eapply absorbs_turn; eauto.
      * right. repeat split; [done..|]. exists g''. by eapply absorbs_turn.
  - exists se. split; [done|]. destruct (N.eqb_spec se MAX_CHUNK_SIZE) as [Hse|Hse].
    + left. split; [sizes|]. intros h' Habs. by eapply absorbs_turn.
    + right. assert (lenN r < MAX_CHUNK_SIZE) by lia.
      replace se with (lenN r) in * by lia. rewrite Nat2N.id, firstn_all, drop_all in Hturn.
      repeat split; [lia|]. exists g'. eapply absorbs_turn; [done..|constructor].
Qed.

(** The first turn on a fresh chunk skips to where the search starts. *)
Lemma chunk_boundary_reached r cs :
  r <> [] ->
  exists b, find_boundary (S (length r)) r (N.min (lenN r) MAX_CHUNK_SIZE)
      (N.min INITIAL_SKIP (N.min (lenN r) MAX_CHUNK_SIZE)) gear_default = Some b /\
    boundary_reached (hasher_at gear_default [] cs) r r b cs.
Proof.
  intros Hne. set (c := N.min INITIAL_SKIP (N.min (lenN r) MAX_CHUNK_SIZE)).
  destruct (find_boundary_reached (S (length r)) r c gear_default cs) as (b & Hb & Hreach);
    [sizes..|].
  exists b. split; [done|].
  assert (update_turn (hasher_at gear_default [] cs) r =
    (hasher_at gear_default (takeN c r) cs, dropN c r)) as Hturn.
  { unfold update_turn, hasher_at; cbn [fh_chunk_len fh_gear fh_leaf fh_chunks length].
    destruct (N.ltb_spec (N.of_nat 0) INITIAL_SKIP); [|sizes].
    replace (N.min (INITIAL_SKIP - N.of_nat 0) (lenN r)) with c by (subst c; sizes).
    by rewrite lenN_take by lia. }
  destruct Hreach as [[Hrange Habs]|(Hend & Hlt & g & Habs)].
  - left. split; [done|]. intros h' Hcut. eapply absorbs_turn; eauto.
  - right. repeat split; [done..|]. exists g. by eapply absorbs_turn.
Qed.

(** The pieces a chunk list describes. *)
Definition chunk_of (data : bytes) : Chunk := Chunk_new (chunk_hash data) (lenN data).

(** A legal split: every piece is non-empty and at most [MAX_CHUNK_SIZE], and
    every piece but the last is at least [MIN_CHUNK_SIZE]. *)
Inductive legal_split : list bytes -> Prop :=
  | legal_nil : legal_split []
  | legal_last d : 0 < lenN d <= MAX_CHUNK_SIZE -> legal_split [d]
  | legal_cons d ds : MIN_CHUNK_SIZE <= lenN d <= MAX_CHUNK_SIZE -> legal_split ds ->
      legal_split (d :: ds).

Lemma chunk_from_streams fuel r cs :
  (length r <= fuel)%nat ->
  exists ds h, chunk_from fuel r = Some (map chunk_of ds) /\
    absorbs (hasher_at gear_default [] cs) r h /\
    finalize_chunks h = cs ++ map chunk_of ds /\ concat ds = r /\ legal_split ds.
Proof.
  revert r cs. induction fuel as [|fuel IH]; intros r cs Hfuel;
    (destruct (decide (r = [])) as [->|Hne];
      [by exists [], (hasher_at gear_default [] cs); rewrite app_nil_r; repeat constructor|]).
  { destruct r; [done|simpl in Hfuel; lia]. }
  destruct (chunk_boundary_reached r cs Hne) as (b & Hb & Hreach).
  assert (chunk_from (S fuel) r = 
    chunks ← chunk_from fuel (dropN b r); Some (chunk_of (takeN b r) :: chunks)) as ->.
  { destruct r as [|x r]; [done|]. cbn [chunk_from]. rewrite Hb. done. }
  destruct Hreach as [[Hrange Habs]|(-> & Hlt & g & Habs)].
  - destruct (IH (dropN b r) (cs ++ [chunk_of (takeN b r)])) as (ds & h & -> & Hh & Hfin & Hcat & Hleg).
    { rewrite length_drop. sizes. }
    exists (takeN b r :: ds), h. split; [done|]. split.
    { apply Habs. unfold cut, hasher_at; cbn [fh_chunk_len fh_leaf fh_chunks].
      rewrite lenN_take by lia. unfold chunk_of in Hh. rewrite lenN_take in Hh by lia. done. }
    rewrite Hfin, <- app_assoc. split; [done|]. split; [simpl; by rewrite Hcat, take_drop|].
    constructor; [rewrite lenN_take; lia|done].
  - apply lenN_nonempty in Hne. rewrite Nat2N.id, drop_all, firstn_all.
    exists [r], (hasher_at g r cs). split; [by destruct fuel|]. split; [done|].
    unfold finalize_chunks, hasher_at; cbn [fh_chunk_len].
    destruct (N.ltb_spec 0 (lenN r)); [|lia]. split; [done|].
    split; [apply app_nil_r|]. constructor. lia.
Qed.
End streaming.

(** ** Text round trip *)

Lemma byte_hex_decode b :
  (high ← decode_hex (HEX (N.shiftr (Byte.to_N b) 4));
   low ← decode_hex (HEX (N.land (Byte.to_N b) 15));
   Some (byte_of_N (N.lor (N.shiftl high 4) low))) = Some b.
Proof. destruct b; reflexivity. Qed.

Lemma as_chunks_four n (a b c d : bytes) :
  length a = n -> length b = n -> length c = n -> length d = n ->
  as_chunks n 4 (a ++ b ++ c ++ d) = [a; b; c; d].
Proof.
  intros <- Hb Hc Hd. unfold as_chunks; cbn [seq map].
  rewrite Nat.mul_0_r, Nat.mul_1_r, drop_0, take_app_length, drop_app_length.
  rewrite take_app_length' by done.
  replace (length a * 2)%nat with (length a + length b)%nat by lia.
  replace (length a * 3)%nat with (length a + (length b + length c))%nat by lia.
  rewrite !drop_app_add, !drop_app_length, take_app_length' by done.
  by rewrite take_ge by lia.
Qed.

Lemma split_four n (bs : bytes) :
  length bs = (n * 4)%nat ->
  exists a b c d, bs = a ++ b ++ c ++ d /\
    length a = n /\ length b = n /\ length c = n /\ length d = n.
Proof.
  intros Hlen. exists (take n bs), (take n (drop n bs)), (take n (drop n (drop n bs))),
    (drop n (drop n (drop n bs))).
  rewrite !length_take, !length_drop, !take_drop. repeat split; lia.
Qed.

Lemma decode_limb_hex limb :
  length limb = 8%nat -> decode_limb (concat (map byte_hex (rev limb))) = Some limb.
Proof.
  intros Hlen. do 8 (destruct limb as [|? limb]; [done|]). destruct limb; [|done].
  unfold decode_limb, decode_pair, byte_hex. cbn -[decode_hex HEX N.shiftr N.land N.lor N.shiftl].
  by repeat (rewrite byte_hex_decode; cbn [mbind option_bind]).
Qed.

Lemma limb_hex_length limb : length (concat (map byte_hex (rev limb))) = (2 * length limb)%nat.
Proof. rewrite <- (length_rev limb). induction (rev limb); simpl in *; lia. Qed.

(** The printed form of a hash parses back to it. *)
Lemma XetHash_text_roundtrip hash :
  length hash = XetHash_LEN -> XetHash_from_str (XetHash_fmt hash) = Ok hash.
Proof.
  intros (a & b & c & d & -> & Ha & Hb & Hc & Hd)%(split_four 8).
  unfold XetHash_fmt. rewrite as_chunks_four by done. cbn [map concat].
  rewrite app_nil_r. unfold XetHash_from_str.
  rewrite !length_app, !limb_hex_length, Ha, Hb, Hc, Hd. cbn [negb Nat.eqb Nat.mul Nat.add].
  rewrite as_chunks_four by (rewrite limb_hex_length; lia).
  cbn [mapM]. rewrite !decode_limb_hex by done. cbn. by rewrite app_nil_r.
Qed.

Lemma XetHash_fmt_inj h1 h2 :
  length h1 = XetHash_LEN -> length h2 = XetHash_LEN -> XetHash_fmt h1 = XetHash_fmt h2 -> h1 = h2.
Proof.
  intros H1%XetHash_text_roundtrip H2%XetHash_text_roundtrip Heq. congruence.
Qed.

Lemma XetHash_fmt_length h : length h = XetHash_LEN -> length (XetHash_fmt h) = 64%nat.
Proof.
  intros (a & b & c & d & -> & Ha & Hb & Hc & Hd)%(split_four 8).
  unfold XetHash_fmt. rewrite as_chunks_four by done. cbn [map concat].
  rewrite !length_app, !limb_hex_length, Ha, Hb, Hc, Hd. done.
Qed.

(** ** The preimage of an internal node *)

Definition chunk_ok (c : Chunk) : Prop :=
  length (chunk_hash_of c) = XetHash_LEN /\ data_len c <= U64_MAX.

Definition is_digit (b : byte) : bool := (48 <=? Byte.to_N b) && (Byte.to_N b <=? 57).

Definition decimal_value (v : N) (ds : bytes) : N :=
  fold_left (fun v b => 10 * v + (Byte.to_N b - 48)) ds v.

Lemma digit_byte n : n < 10 -> Byte.to_N (byte_of_N (48 + n)) = 48 + n.
Proof. intros. rewrite byte_to_of_N, N.mod_small by lia. done. Qed.

Lemma digits_of_spec fuel v acc :
  v < 10 ^ N.of_nat fuel -> Forall (fun b => is_digit b = true) acc ->
  decimal_value 0 (digits_of fuel v acc) = decimal_value v acc /\
  Forall (fun b => is_digit b = true) (digits_of fuel v acc) /\
  (length (digits_of fuel v acc) <= fuel + length acc)%nat.
Proof.
  revert v acc. induction fuel as [|fuel IH]; intros v acc Hv Hacc; cbn [digits_of].
  { replace v with 0 by (simpl in Hv; lia). auto. }
  destruct (N.eqb_spec v 0) as [->|Hne]; [split; [done|split; [done|lia]]|].
  assert (v mod 10 < 10) as Hmod by (apply N.mod_lt; lia).
  destruct (IH (v / 10) (byte_of_N (48 + v mod 10) :: acc)) as (Hval & Hdig & Hlen).
  - rewrite Nat2N.inj_succ, N.pow_succ_r in Hv by lia.
    apply N.Div0.div_lt_upper_bound; lia.
  - constructor; [|done]. unfold is_digit. rewrite digit_byte by done.
    clear - Hmod. generalize dependent (v mod 10). intros m Hm.
    apply andb_true_iff. rewrite !N.leb_le. lia.
  - split; [|split; [done|simpl in Hlen; lia]]. rewrite Hval.
    unfold decimal_value; cbn [fold_left]. rewrite digit_byte by done. f_equal.
    pose proof (N.div_mod v 10 ltac:(lia)) as Hdm. clear - Hdm.
    revert Hdm. generalize (v / 10), (v mod 10). lia.
Qed.

Lemma write_decimal_spec v :
  v <= U64_MAX ->
  decimal_value 0 (write_decimal v) = v /\
  Forall (fun b => is_digit b = true) (write_decimal v) /\ (length (write_decimal v) <= 20)%nat.
Proof.
  intros Hv. unfold write_decimal. destruct (N.eqb_spec v 0) as [->|]; [by repeat constructor|].
  destruct (digits_of_spec 20 v []) as (Hval & Hdig & Hlen); [|constructor|by rewrite Nat.add_0_r in Hlen].
  eapply N.le_lt_trans; [exact Hv|by vm_compute].
Qed.

Lemma digits_stop (d1 d2 r1 r2 : bytes) :
  Forall (fun b => is_digit b = true) d1 -> Forall (fun b => is_digit b = true) d2 ->
  d1 ++ byte_of_N 10 :: r1 = d2 ++ byte_of_N 10 :: r2 -> d1 = d2 /\ r1 = r2.
Proof.
  intros Hd1. revert d2. induction Hd1 as [|b d1 Hb _ IH]; intros d2 Hd2 Heq.
  - destruct Hd2 as [|b2 d2 Hb2 _]; simplify_eq/=; auto.
  - destruct Hd2 as [|b2 d2 Hb2 Hd2]; simplify_eq/=.
    by destruct (IH d2 Hd2) as [-> ->].
Qed.

Lemma merge_entry_inj c1 c2 r1 r2 :
  chunk_ok c1 -> chunk_ok c2 -> merge_entry c1 ++ r1 = merge_entry c2 ++ r2 -> c1 = c2 /\ r1 = r2.
Proof.
  intros [Hh1 Hd1] [Hh2 Hd2]. unfold merge_entry. rewrite <- !app_assoc. intros Heq.
  apply app_inj_1 in Heq as [Hhash Heq];
    [|change write_hash with XetHash_fmt; by rewrite !XetHash_fmt_length].
  apply app_inj_1 in Heq as [_ Heq]; [|done].
  destruct (write_decimal_spec _ Hd1) as (Hv1 & Hdig1 & _).
  destruct (write_decimal_spec _ Hd2) as (Hv2 & Hdig2 & _).
  apply digits_stop in Heq as [Hdec ->]; [|done..].
  apply XetHash_fmt_inj in Hhash; [|done..].
  destruct c1, c2; simpl in *. split; [congruence|done].
Qed.

Lemma merge_entry_nonempty c : merge_entry c <> [].
Proof.
  intros Hnil%(f_equal length). unfold merge_entry in Hnil. rewrite !length_app in Hnil.
  simpl in Hnil. lia.
Qed.

(** The text an internal node hashes determines its children. *)
Lemma merge_buffer_inj l1 l2 :
  Forall chunk_ok l1 -> Forall chunk_ok l2 ->
  concat (map merge_entry l1) = concat (map merge_entry l2) -> l1 = l2.
Proof.
  intros Hl1. revert l2. induction Hl1 as [|c1 l1 Hc1 _ IH]; intros l2 Hl2 Heq.
  - destruct Hl2 as [|c2 l2 _ _]; [done|]. simpl in Heq. symmetry in Heq.
    apply app_eq_nil in Heq as [Hnil _]. by apply merge_entry_nonempty in Hnil.
  - destruct Hl2 as [|c2 l2 Hc2 Hl2].
    + simpl in Heq. apply app_eq_nil in Heq as [Hnil _]. by apply merge_entry_nonempty in Hnil.
    + simpl in Heq. apply merge_entry_inj in Heq as [-> Heq]; [|done..]. f_equal. auto.
Qed.

(** ** The tree a root commits to *)

(** The tree of pieces behind a node: what [merge] hashed to make it. *)
#[local] Unset Elimination Schemes.
Inductive Tree := Leaf (data : bytes) | Branch (children : list Tree).
#[local] Set Elimination Schemes.

Fixpoint Tree_rec' (P : Tree -> Prop) (Hleaf : forall d, P (Leaf d))
    (Hbranch : forall ts, Forall P ts -> P (Branch ts)) (t : Tree) : P t :=
  match t with
  | Leaf d => Hleaf d
  | Branch ts =>
      Hbranch ts ((fix go ts : Forall P ts :=
        match ts with
        | [] => @Forall_nil_2 _ P
        | t :: ts => @Forall_cons_2 _ P t ts (Tree_rec' P Hleaf Hbranch t) (go ts)
        end) ts)
  end.

Fixpoint leaves (t : Tree) : list bytes :=
  match t with Leaf d => [d] | Branch ts => concat (map leaves ts) end.

Definition contents (ts : list Tree) : bytes := concat (concat (map leaves ts)).

Section merkle.
  Context `{Blake3}.

Fixpoint tree_chunk (t : Tree) : Chunk :=
  match t with
  | Leaf d => Chunk_new (chunk_hash d) (lenN d)
  | Branch ts =>
      Chunk_new (blake3_keyed_hash INTERNAL_NODE_KEY (concat (map merge_entry (map tree_chunk ts))))
        (sumN data_len (map tree_chunk ts))
  end.

Lemma contents_cons t ts : contents (t :: ts) = concat (leaves t) ++ contents ts.
Proof. unfold contents. simpl. by rewrite concat_app. Qed.

Lemma contents_app ts us : contents (ts ++ us) = contents ts ++ contents us.
Proof. unfold contents. by rewrite map_app, !concat_app. Qed.

Lemma tree_size t : data_len (tree_chunk t) = lenN (concat (leaves t)).
Proof.
  induction t as [d|ts IH] using Tree_rec'; cbn [tree_chunk data_len leaves concat];
    [by rewrite app_nil_r|].
  induction IH as [|t ts Ht _ IH]; [done|]. cbn [map concat].
  rewrite sumN_cons, Ht, IH, concat_app, length_app. lia.
Qed.

Lemma trees_size ts : sumN data_len (map tree_chunk ts) = lenN (contents ts).
Proof.
  induction ts as [|t ts IH]; [done|].
  cbn [map]. rewrite sumN_cons, tree_size, IH, contents_cons, length_app. lia.
Qed.

Lemma tree_hash_length t : length (chunk_hash_of (tree_chunk t)) = XetHash_LEN.
Proof. destruct t; apply blake3_length. Qed.

Lemma trees_ok ts : lenN (contents ts) <= U64_MAX -> Forall chunk_ok (map tree_chunk ts).
Proof.
  induction ts as [|t ts IH]; intros Hle; [constructor|].
  rewrite contents_cons, length_app in Hle.
  constructor; [|apply IH; lia]. split; [apply tree_hash_length|]. rewrite tree_size. lia.
Qed.

Lemma merge_total_len nodes acc :
  acc + sumN data_len nodes <= U64_MAX ->
  foldl (fun acc node => acc ≫= fun total => checked_add total (data_len node)) (Some acc) nodes =
    Some (acc + sumN data_len nodes).
Proof.
  revert acc. induction nodes as [|n nodes IH]; intros acc Hle; simpl.
  { f_equal. unfold sumN; simpl. lia. }
  rewrite sumN_cons in *.
  assert (checked_add acc (data_len n) = Some (acc + data_len n)) as ->
    by (apply checked_add_Some; lia).
  rewrite IH by lia. f_equal. lia.
Qed.

Lemma merge_buffer_fits nodes :
  Forall chunk_ok nodes ->
  lenN (concat (map merge_entry nodes)) <= lenN nodes * MAX_ENTRY_SIZE.
Proof.
  induction 1 as [|n nodes [Hh Hd] _ IH]; [done|].
  cbn [map concat]. rewrite length_app. cbn [length].
  unfold merge_entry at 1. change write_hash with XetHash_fmt.
  rewrite !length_app, XetHash_fmt_length by done.
  destruct (write_decimal_spec _ Hd) as (_ & _ & Hdec). unfold MAX_ENTRY_SIZE in *. simpl. lia.
Qed.

(** Merging at most nine nodes never overruns the stack buffer and makes the
    node of their branch. *)
Lemma merge_branch ts :
  lenN ts <= MAX_GROUP_SIZE -> lenN (contents ts) <= U64_MAX ->
  merge (map tree_chunk ts) = Some (tree_chunk (Branch ts)).
Proof.
  intros Hlen Hsize. unfold merge. rewrite merge_total_len by (rewrite trees_size; lia).
  rewrite N.add_0_l. cbn [mbind option_bind].
  pose proof (merge_buffer_fits _ (trees_ok _ Hsize)) as Hfits. rewrite length_map in Hfits.
  destruct (N.leb_spec (lenN (concat (map merge_entry (map tree_chunk ts)))) MAX_MERGE_BUFFER_SIZE);
    [done|].
  unfold MAX_MERGE_BUFFER_SIZE, MAX_ENTRY_SIZE, MAX_GROUP_SIZE, TREE_BRANCHING_FACTOR in *. lia.
Qed.

Lemma natural_cut_range nodes i n :
  natural_cut nodes i = Some n -> i < n <= i + lenN nodes.
Proof.
  revert i. induction nodes as [|c nodes IH]; intros i Hcut; [done|].
  cbn [natural_cut length] in *. case_match; simplify_eq; [lia|]. apply IH in Hcut. lia.
Qed.

(** A group is never empty, has at most nine nodes, and at least two unless
    only one is left. *)
Lemma next_merge_cut_range nodes :
  nodes <> [] ->
  0 < next_merge_cut nodes <= N.min (lenN nodes) MAX_GROUP_SIZE /\
  (2 <= lenN nodes -> 2 <= next_merge_cut nodes).
Proof.
  intros Hne%lenN_nonempty. unfold next_merge_cut.
  destruct (N.leb_spec (lenN nodes) 2); [unfold MAX_GROUP_SIZE, TREE_BRANCHING_FACTOR; lia|].
  destruct (natural_cut _ _) as [n|] eqn:Hcut; cbn [default].
  - apply natural_cut_range in Hcut. rewrite length_drop, length_take in Hcut.
    unfold id, MAX_GROUP_SIZE, TREE_BRANCHING_FACTOR in *. lia.
  - unfold id, MAX_GROUP_SIZE, TREE_BRANCHING_FACTOR. lia.
Qed.

Lemma take_insert_next {A} (l : list A) i x :
  (i < length l)%nat -> take (S i) (<[i:=x]> l) = take i l ++ [x].
Proof.
  intros Hi. rewrite (take_S_r _ _ x) by (by apply list_lookup_insert_eq).
  by rewrite take_insert_ge.
Qed.

(** One level in place: a write never lands on a node still to be read, so the
    level is the list of the groups' branches. *)
Lemma merge_level_branches fuel nodes read write done_ rest :
  takeN write nodes = map tree_chunk done_ -> dropN read nodes = map tree_chunk rest ->
  write <= read <= lenN nodes -> lenN (contents rest) <= U64_MAX -> (length rest <= fuel)%nat ->
  exists ts, merge_level fuel nodes read write = Some (map tree_chunk (done_ ++ ts)) /\
    concat (map leaves ts) = concat (map leaves rest) /\ (length ts <= length rest)%nat /\
    (2 <= length rest -> length ts < length rest)%nat /\ (rest <> [] -> ts <> []).
Proof.
  revert nodes read write done_ rest.
  induction fuel as [|fuel IH]; intros nodes read write done_ rest Hdone Hrest Hrw Hsize Hfuel;
    pose proof (f_equal length Hrest) as Hlen; rewrite length_drop, length_map in Hlen;
    cbn [merge_level]; (destruct (N.leb_spec (lenN nodes) read) as [Hend|Hmore];
      [exists []; destruct rest; [|simpl in *; lia]; rewrite app_nil_r, Hdone; simpl;
       split_and!; [done|done|lia|lia|done]|]); [lia|].
  assert (rest <> []) as Hne by (intros ->; simpl in *; lia).
  rewrite Hrest. set (c := next_merge_cut (map tree_chunk rest)).
  destruct (next_merge_cut_range (map tree_chunk rest)) as [Hc Hc2]; [by destruct rest|].
  fold c in Hc, Hc2. rewrite length_map in Hc, Hc2.
  replace (read + c - read) with c by lia.
  assert (contents rest = contents (takeN c rest) ++ contents (dropN c rest)) as Hsplit
    by (by rewrite <- contents_app, take_drop).
  rewrite Hsplit, length_app in Hsize.
  rewrite firstn_map, merge_branch by (rewrite ?length_take; lia). cbn [mbind option_bind].
  destruct (IH (<[N.to_nat write:=tree_chunk (Branch (takeN c rest))]> nodes) (read + c) (write + 1)
    (done_ ++ [Branch (takeN c rest)]) (dropN c rest)) as (ts & Hrun & Hleaves & Hle & _ & _).
  - rewrite N.add_1_r, N2Nat.inj_succ, take_insert_next, Hdone, map_app by lia. done.
  - rewrite drop_insert_lt, N2Nat.inj_add, <- drop_drop, Hrest by lia. by rewrite skipn_map.
  - rewrite length_insert. lia.
  - lia.
  - rewrite length_drop. lia.
  - exists (Branch (takeN c rest) :: ts). rewrite Hrun, <- app_assoc. split; [done|].
    rewrite length_drop in Hle. cbn [map concat length leaves]. rewrite Hleaves.
    rewrite <- concat_app, <- map_app, take_drop. split; [done|]. split; [lia|]. split; [lia|done].
Qed.

Lemma merkle_levels_tree fuel ts :
  ts <> [] -> lenN (contents ts) <= U64_MAX -> (length ts <= S fuel)%nat ->
  exists t, merkle_levels fuel (map tree_chunk ts) = Some [tree_chunk t] /\
    leaves t = concat (map leaves ts).
Proof.
  revert ts. induction fuel as [|fuel IH]; intros ts Hne Hsize Hfuel; cbn [merkle_levels];
    rewrite length_map; (destruct (N.leb_spec (lenN ts) 1) as [Hone|Hmore];
      [destruct ts as [|t [|]]; [done| |simpl in *; lia]; exists t; simpl; by rewrite app_nil_r|]).
  { lia. }
  destruct (merge_level_branches (length ts) (map tree_chunk ts) 0 0 [] ts)
    as (us & -> & Hleaves & Hle & Hlt & Hus); rewrite ?length_map; [done|done|lia|done|lia|].
  cbn [mbind option_bind app].
  destruct (IH us) as (t & Hrun & Ht); [auto| |lia|].
  - unfold contents in *. by rewrite Hleaves.
  - exists t. by rewrite Hrun, Ht.
Qed.

(** The root of a non-empty list of pieces is the hash of a tree whose leaves
    are those pieces in order. *)
Lemma merkle_root_tree ds :
  ds <> [] -> lenN (concat ds) <= U64_MAX ->
  exists t, merkle_root (map chunk_of ds) = Some (chunk_hash_of (tree_chunk t)) /\ leaves t = ds.
Proof.
  intros Hne Hsize.
  assert (concat (map leaves (map Leaf ds)) = ds) as Hds.
  { clear. induction ds as [|d ds IH]; simpl; [done|]. by rewrite IH. }
  destruct (merkle_levels_tree (length ds) (map Leaf ds)) as (t & Hrun & Ht).
  - by destruct ds.
  - unfold contents. by rewrite Hds.
  - rewrite length_map. lia.
  - exists t. split; [|by rewrite Ht]. rewrite map_map in Hrun.
    unfold merkle_root. change (map (fun x => tree_chunk (Leaf x)) ds) with (map chunk_of ds) in Hrun.
    rewrite length_map, Hrun. by destruct ds.
Qed.

(** Two BLAKE3 inputs, key included, with one output. *)
Definition blake3_collision : Prop :=
  exists k1 m1 k2 m2, (k1, m1) <> (k2, m2) /\ blake3_keyed_hash k1 m1 = blake3_keyed_hash k2 m2.

Lemma same_hash k1 m1 k2 m2 :
  blake3_keyed_hash k1 m1 = blake3_keyed_hash k2 m2 -> (k1 = k2 /\ m1 = m2) \/ blake3_collision.
Proof.
  intros Heq. destruct (decide ((k1, m1) = (k2, m2))) as [|Hne]; [left; naive_solver|].
  right. by exists k1, m1, k2, m2.
Qed.

Lemma tree_binding t1 t2 :
  lenN (concat (leaves t1)) <= U64_MAX -> lenN (concat (leaves t2)) <= U64_MAX ->
  chunk_hash_of (tree_chunk t1) = chunk_hash_of (tree_chunk t2) -> t1 = t2 \/ blake3_collision.
Proof.
  revert t2. induction t1 as [d1|ts1 IH] using Tree_rec'; intros [d2|ts2] Hs1 Hs2 Heq;
    apply same_hash in Heq as [[Hkey Heq]|?]; [|by right|..|by right| |by right| |by right].
  - left. congruence.
  - discriminate Hkey.
  - discriminate Hkey.
  - apply merge_buffer_inj in Heq; [|by apply trees_ok..].
    assert (ts1 = ts2 \/ blake3_collision) as [->|]; [|by left|by right].
    clear Hkey. change (lenN (contents ts1) <= U64_MAX) in Hs1.
    change (lenN (contents ts2) <= U64_MAX) in Hs2.
    revert ts2 Hs2 Heq. induction IH as [|t1 ts1 Ht1 _ IHl]; intros [|t2 ts2] Hs2 Heq;
      [by left|discriminate Heq|discriminate Heq|].
    apply (f_equal head) in Heq as Hc. apply (f_equal tail) in Heq as Hcs.
    apply (inj Some (tree_chunk t1) (tree_chunk t2)) in Hc.
    rewrite contents_cons, length_app in Hs1, Hs2.
    destruct (Ht1 t2) as [->|]; [lia|lia|by rewrite Hc| |by right].
    destruct (IHl ltac:(lia) ts2 ltac:(lia)) as [->|]; [done|by left|by right].
Qed.
End merkle.

(** ** File hashing *)

Section file_hash.
  Context `{Blake3} `{GearLaws}.

(** The one-shot chunker always answers, with a legal split of its input. *)
Lemma chunk_splits bs :
  exists ds, chunk bs = Some (map chunk_of ds) /\ concat ds = bs /\ legal_split ds.
Proof.
  destruct (chunk_from_streams (length bs) bs [] ltac:(lia)) as (ds & _ & Hrun & _ & _ & Hcat & Hleg).
  eauto.
Qed.

Definition update_all (h : XetFileHasher) (pieces : list bytes) : option XetFileHasher :=
  foldl (fun h piece => h ≫= fun h => XetFileHasher_update h piece) (Some h) pieces.

Lemma update_all_absorbs h pieces :
  hasher_ok h -> exists h', update_all h pieces = Some h' /\ absorbs h (concat pieces) h'.
Proof.
  unfold update_all. revert h.
  induction pieces as [|piece pieces IH]; intros h Hok; simpl; [exists h; by repeat constructor|].
  destruct (update_loop_absorbs (length piece) h piece Hok ltac:(lia)) as (h1 & Hrun & Habs & Hok1).
  unfold XetFileHasher_update at 2. rewrite Hrun.
  destruct (IH h1 Hok1) as (h' & Hfold & Habs'). exists h'. split; [done|].
  by eapply absorbs_app.
Qed.

(** C33: The streaming hasher is the one-shot chunker: feeding a file in any
    pieces ends, and the chunk list it finishes with is the one the one-shot
    chunker computes on the whole file. *)
Theorem streaming_chunks_exact (pieces : list bytes) :
  exists h chunks, update_all XetFileHasher_new pieces = Some h /\
    chunk (concat pieces) = Some chunks /\ finalize_chunks h = chunks /\
    XetFileHasher_finalize h = XetHash_hash (concat pieces).
Proof.
  destruct (update_all_absorbs XetFileHasher_new pieces) as (h & Hrun & Habs); [done|].
  destruct (chunk_from_streams (length (concat pieces)) (concat pieces) [] ltac:(lia))
    as (ds & h2 & Hchunk & Habs2 & Hfin & _ & _).
  rewrite <- (absorbs_det _ _ _ _ Habs Habs2) in Hfin. simpl in Hfin.
  exists h, (map chunk_of ds). split; [done|]. split; [done|]. split; [done|].
  unfold XetFileHasher_finalize, XetHash_hash, chunk. by rewrite Hfin, Hchunk.
Qed.

Lemma XetHash_hash_tree bs :
  bs <> [] -> lenN bs <= U64_MAX ->
  exists t, XetHash_hash bs = Some (blake3_keyed_hash ZERO_KEY (chunk_hash_of (tree_chunk t))) /\
    concat (leaves t) = bs.
Proof.
  intros Hne Hsize. destruct (chunk_splits bs) as (ds & Hchunk & Hcat & _).
  assert (ds <> []) as Hds by (intros ->; by simpl in Hcat).
  destruct (merkle_root_tree ds) as (t & Hroot & Ht); [done|by rewrite Hcat|].
  exists t. split; [|by rewrite Ht]. unfold XetHash_hash. rewrite Hchunk. cbn [mbind option_bind].
  unfold file_hash. rewrite Hroot. by destruct ds.
Qed.

Lemma XetHash_hash_nil : XetHash_hash [] = Some XetHash_ZERO.
Proof. done. Qed.


(** The allocation-free hasher the kernel commits with computes the Xet file
    hash: below one minimum chunk, any split of the writes gives the hash of the
    whole file. *)
Theorem single_chunk_is_file_hash (writes : list bytes) :
  lenN (concat writes) < MIN_CHUNK_SIZE ->
  hash_writes writes = XetHash_hash (concat writes).
Proof.
  intros Hlt. rewrite hash_writes_xet by done.
  destruct (chunk_splits (concat writes)) as (ds & Hchunk & Hcat & Hleg).
  unfold XetHash_hash. rewrite Hchunk. unfold xet_hash. rewrite <- Hcat in *. clear Hcat Hchunk.
  destruct Hleg as [|d Hd|d ds Hd Hleg]; [done| |].
  - simpl. rewrite app_nil_r. destruct (N.eqb_spec (lenN d) 0); [lia|done].
  - simpl in Hlt. rewrite length_app in Hlt. lia.
Qed.
End file_hash.
