(* ===== verification/Canonical.v ===== *)
(** * Canonical codec (crates/kernel/src/canonical.rs)

    [Encode] and [Decode] are one record of operations per type, [Codec], passed
    explicitly where the source names the type ([decode_field::<u64>]).  [wf]
    is what the Rust type guarantees of a value: array lengths, integer widths,
    list capacities, and the private-constructor invariants.  [Lawful] is what
    a codec promises its users: sizes are exact and bounded, decoding an
    encoding gives the value back and consumes exactly it, and whatever decodes
    was the encoding of the value it decodes to. *)

From S2P Require Import Prelude Xet.

(* [canonical.rs:190-232] DecodeError *)
Inductive DecodeError :=
  | InsufficientBytes (needed got : nat)
  | InvalidTag (tag : N)
  | InvalidLength (got : N) (max : nat)
  | InvalidConsumption (consumed available : nat)
  | TrailingBytes (remaining : nat)
  | NonCanonical (field : string).

Notation decoded A := (result (A * nat) DecodeError).

(* [canonical.rs:126-188] Encode *)
Record Codec (A : Type) := mk_Codec {
  MAX_ENCODED_SIZE : nat;
  encoded_size : A -> nat;
  encode_to : A -> bytes;
  decode : bytes -> decoded A;
  wf : A -> bool;
}.
Arguments mk_Codec {A} _ _ _ _ _.
Arguments MAX_ENCODED_SIZE {A} _.
Arguments encoded_size {A} _ _.
Arguments encode_to {A} _ _.
Arguments decode {A} _ _.
Arguments wf {A} _ _.

(* [canonical.rs:158-188] Decode::decode_exact *)
Definition decode_exact {A} (cd : Codec A) (buf : bytes) : result A DecodeError :=
  let? '(value, consumed) := decode cd buf in
  if (length buf <? consumed)%nat then Err (InvalidConsumption consumed (length buf))
  else match (length buf - consumed)%nat with
       | O => Ok value
       | remaining => Err (TrailingBytes remaining)
       end.

(* [canonical.rs:29-30] ENVELOPE_SIZE *)
Definition ENVELOPE_SIZE : nat := 2.

(* [canonical.rs:30-30] FORMAT_VERSION *)
Definition FORMAT_VERSION : N := 1.

(* [canonical.rs:301-312] decode_fixed *)
Definition decode_fixed (n : nat) (buf : bytes) : decoded bytes :=
  if (length buf <? n)%nat then Err (InsufficientBytes n (length buf))
  else Ok (array_of n (take n buf), n).

(* [canonical.rs:234-236] encode_envelope *)
Definition encode_envelope (type_tag : N) : bytes :=
  [byte_of_N FORMAT_VERSION; byte_of_N type_tag].

(* [canonical.rs:238-261] decode_envelope *)
Definition decode_envelope (buf : bytes) (expected_tag : N) : result nat DecodeError :=
  let? '(header, consumed) := decode_fixed ENVELOPE_SIZE buf in
  let? version := ok_or (header !! 0%nat) (InsufficientBytes ENVELOPE_SIZE 0) in
  if negb (Byte.to_N version =? FORMAT_VERSION)%N then Err (InvalidTag (Byte.to_N version)) else
  let? type_tag := ok_or (header !! 1%nat) (InsufficientBytes ENVELOPE_SIZE 1) in
  if negb (Byte.to_N type_tag =? expected_tag)%N then Err (InvalidTag (Byte.to_N type_tag)) else
  Ok consumed.

(* [canonical.rs:263-281] peek_envelope_tag *)
Definition peek_envelope_tag (buf : bytes) : result N DecodeError :=
  let? '(header, _) := decode_fixed ENVELOPE_SIZE buf in
  let? b := ok_or (header !! 1%nat) (InsufficientBytes ENVELOPE_SIZE 1) in
  Ok (Byte.to_N b).

(* [canonical.rs:283-299] decode_field *)
Definition decode_field {A} (cd : Codec A) (buf : bytes) (consumed : nat) : decoded A :=
  if (length buf <? consumed)%nat then Err (InvalidConsumption consumed (length buf)) else
  let rest := drop consumed buf in
  let? '(value, field_consumed) := decode cd rest in
  if (length rest <? field_consumed)%nat
  then Err (InvalidConsumption field_consumed (length rest))
  else Ok (value, (consumed + field_consumed)%nat).

(* [canonical.rs:32-56] tag *)
Definition tag_BLOCK_HEIGHT : N := 1.
Definition tag_FEES : N := 2.
Definition tag_PARTIES : N := 3.
Definition tag_COIN : N := 4.
Definition tag_EDGE : N := 5.
Definition tag_FUNDING : N := 6.
Definition tag_PAYOUT : N := 7.
Definition tag_WEBAUTHN_ASSERTION : N := 9.
Definition tag_AUTH : N := 10.
Definition tag_TERMS : N := 11.
Definition tag_PROOF : N := 12.
Definition tag_TX : N := 13.
Definition tag_EARNED_CERTIFICATE : N := 20.
Definition tag_PAYMENT_CLOSE_START : N := 21.
Definition tag_PAYMENT_CLOSE_RESPONSE : N := 22.
Definition tag_PAYMENT_CLOSE_PENDING : N := 23.
Definition tag_REGISTRY_CHUNK : N := 24.
Definition tag_BOND_LEASE : N := 31.
Definition tag_PARTY_AUTH : N := 32.

(** ** The slice writer *)

(* [canonical.rs:75-103] BufferWriter *)
Record BufferWriter := mk_BufferWriter { writer_buf : bytes; writer_pos : nat }.

(* [canonical.rs:105-124] BufferWriter::write *)
Definition BufferWriter_write (w : BufferWriter) (bs : bytes) : option BufferWriter :=
  let end_ := (writer_pos w + length bs)%nat in
  if (length (writer_buf w) <? end_)%nat then None
  else Some (mk_BufferWriter
               (take (writer_pos w) (writer_buf w) ++ bs ++ drop end_ (writer_buf w)) end_).

(* [canonical.rs:141-152] Encode::write_to *)
Definition write_to {A} (cd : Codec A) (value : A) (buf : bytes) : option (bytes * nat) :=
  w ← BufferWriter_write (mk_BufferWriter buf 0) (encode_to cd value);
  Some (writer_buf w, writer_pos w).

(** ** Fixed-width integers and arrays *)

Definition be_decode (w : nat) (buf : bytes) : decoded N :=
  if (length buf <? w)%nat then Err (InsufficientBytes w (length buf))
  else Ok (from_be_bytes (array_of w (take w buf)), w).

(* [canonical.rs:330-348] u8 *)
Definition u8 : Codec N := {|
  MAX_ENCODED_SIZE := 1;
  encoded_size := fun _ => 1%nat;
  encode_to := fun v => [byte_of_N v];
  decode := fun buf => match buf with
                       | [] => Err (InsufficientBytes 1 (length buf))
                       | b :: _ => Ok (Byte.to_N b, 1%nat)
                       end;
  wf := u8_ok |}.

(* [canonical.rs:350-366] array *)
Definition array (n : nat) : Codec bytes := {|
  MAX_ENCODED_SIZE := n;
  encoded_size := fun _ => n;
  encode_to := fun v => v;
  decode := decode_fixed n;
  wf := fun v => (length v =? n)%nat |}.

(* [canonical.rs:368-390] u16 *)
Definition u16 : Codec N := {|
  MAX_ENCODED_SIZE := 2;
  encoded_size := fun _ => 2%nat;
  encode_to := to_be_bytes 2;
  decode := be_decode 2;
  wf := u16_ok |}.

(* [canonical.rs:392-414] u32 *)
Definition u32 : Codec N := {|
  MAX_ENCODED_SIZE := 4;
  encoded_size := fun _ => 4%nat;
  encode_to := to_be_bytes 4;
  decode := be_decode 4;
  wf := u32_ok |}.

(* [canonical.rs:416-438] u64 *)
Definition u64 : Codec N := {|
  MAX_ENCODED_SIZE := 8;
  encoded_size := fun _ => 8%nat;
  encode_to := to_be_bytes 8;
  decode := be_decode 8;
  wf := u64_ok |}.

(* [canonical.rs:440-464] usize *)
Definition usize : Codec N := {|
  MAX_ENCODED_SIZE := 8;
  encoded_size := fun _ => 8%nat;
  encode_to := to_be_bytes 8;
  decode := decode u64;
  wf := u64_ok |}.

(** ** Optional values and bounded lists *)

(* [canonical.rs:492-493] ABSENT *)
Definition ABSENT : N := 0.
(* [canonical.rs:493-493] PRESENT *)
Definition PRESENT : N := 1.

(* [canonical.rs:495-511] Option::encode_to *)
Definition Option_encode_to {A} (cd : Codec A) (o : option A) : bytes :=
  match o with
  | None => encode_to u8 ABSENT
  | Some value => encode_to u8 PRESENT ++ encode_to cd value
  end.

(* [canonical.rs:513-525] Option::decode *)
Definition Option_decode {A} (cd : Codec A) (buf : bytes) : decoded (option A) :=
  let? '(tag, consumed) := decode_field u8 buf 0 in
  if (tag =? ABSENT)%N then Ok (None, consumed)
  else if (tag =? PRESENT)%N then
    let? '(value, consumed) := decode_field cd buf consumed in
    Ok (Some value, consumed)
  else Err (InvalidTag tag).

(* [canonical.rs:487-525] Option *)
Definition Option_ {A} (cd : Codec A) : Codec (option A) := {|
  MAX_ENCODED_SIZE := MAX_ENCODED_SIZE u8 + MAX_ENCODED_SIZE cd;
  encoded_size := fun o => (MAX_ENCODED_SIZE u8 +
                    match o with None => 0 | Some v => encoded_size cd v end)%nat;
  encode_to := Option_encode_to cd;
  decode := Option_decode cd;
  wf := fun o => match o with None => true | Some v => wf cd v end |}.

(* [canonical.rs:544-549] List::encode_to *)
Definition List_encode_to {A} (cd : Codec A) (l : list A) : bytes :=
  encode_to usize (N.of_nat (length l)) ++ concat (map (encode_to cd) l).

(** The loop over the live slots. *)
(* [canonical.rs:558-561] List::decode *)
Fixpoint decode_items {A} (cd : Codec A) (len : nat) (buf : bytes) (consumed : nat)
    : decoded (list A) :=
  match len with
  | O => Ok ([], consumed)
  | S len =>
      let? '(item, consumed) := decode_field cd buf consumed in
      let? '(items, consumed) := decode_items cd len buf consumed in
      Ok (item :: items, consumed)
  end.

(* [canonical.rs:552-565] List::decode *)
Definition List_decode {A} (cd : Codec A) (cap : nat) (buf : bytes) : decoded (list A) :=
  let? '(len, consumed) := decode usize buf in
  if (N.of_nat cap <? len)%N then Err (InvalidLength len cap)
  else decode_items cd (N.to_nat len) buf consumed.

(* [canonical.rs:527-565] List *)
Definition List_ {A} (cd : Codec A) (cap : nat) : Codec (list A) := {|
  MAX_ENCODED_SIZE := MAX_ENCODED_SIZE usize + cap * MAX_ENCODED_SIZE cd;
  encoded_size := fun l => foldl (fun size item => size + encoded_size cd item)%nat
                             (MAX_ENCODED_SIZE usize) l;
  encode_to := List_encode_to cd;
  decode := List_decode cd cap;
  wf := fun l => (length l <=? cap)%nat && u64_ok (N.of_nat (length l)) && forallb (wf cd) l |}.

(** ** Commitments over canonical bytes *)

(* [canonical.rs:314-326] hash *)
Definition canonical_hash `{Blake3} {A} (domain : bytes) (cd : Codec A) (value : A) : bytes :=
  xet_hash (domain ++ encode_to cd value).

(** ** Laws *)

Class Lawful {A} (cd : Codec A) : Prop := {
  encoded_size_exact x : wf cd x = true -> encoded_size cd x = length (encode_to cd x);
  encoded_size_max x : wf cd x = true -> (length (encode_to cd x) <= MAX_ENCODED_SIZE cd)%nat;
  decode_encode x rest : wf cd x = true ->
    decode cd (encode_to cd x ++ rest) = Ok (x, length (encode_to cd x));
  decode_sound buf x n : decode cd buf = Ok (x, n) ->
    wf cd x = true /\ (exists rest, buf = encode_to cd x ++ rest) /\
    n = length (encode_to cd x);
}.

(** The bytes a decoder sees at [consumed]. *)
Definition at_offset (buf : bytes) (consumed : nat) (s : bytes) : Prop :=
  (consumed <= length buf)%nat /\ drop consumed buf = s.

Lemma at_offset_start buf : at_offset buf 0 buf.
Proof. split; [lia|done]. Qed.

Lemma at_offset_app buf c e s : at_offset buf c (e ++ s) -> at_offset buf (c + length e) s.
Proof.
  intros [Hle Hd]. split.
  - apply (f_equal length) in Hd. rewrite length_drop, length_app in Hd. lia.
  - by rewrite <- drop_drop, Hd, drop_app_length.
Qed.

(** Decoding one field where its encoding lies. *)
Lemma decode_field_encode {A} (cd : Codec A) `{!Lawful cd} buf c x s :
  at_offset buf c (encode_to cd x ++ s) -> wf cd x = true ->
  decode_field cd buf c = Ok (x, (c + length (encode_to cd x))%nat) /\
  at_offset buf (c + length (encode_to cd x)) s.
Proof.
  intros Hat Hwf. split; [|by apply at_offset_app].
  destruct Hat as [Hle Hd]. unfold decode_field.
  destruct (Nat.ltb_spec (length buf) c); [lia|].
  rewrite Hd, decode_encode by done. simpl.
  destruct (Nat.ltb_spec (length (encode_to cd x ++ s)) (length (encode_to cd x))) as [Hlt|];
    [|done].
  rewrite length_app in Hlt. lia.
Qed.

(** What a field that decoded says about the bytes it was read from. *)
Lemma decode_field_sound {A} (cd : Codec A) `{!Lawful cd} buf c x c' s :
  at_offset buf c s -> decode_field cd buf c = Ok (x, c') ->
  wf cd x = true /\ exists s', s = encode_to cd x ++ s' /\
    at_offset buf c' s' /\ c' = (c + length (encode_to cd x))%nat.
Proof.
  intros Hat H. pose proof Hat as [Hle Hd]. unfold decode_field in H. inv_ok.
  subst x c'. rewrite Hd in E. apply decode_sound in E as (Hwf & [rest ->] & ->).
  split; [done|]. exists rest. split; [done|]. split; [by apply at_offset_app|done].
Qed.

Lemma decode_envelope_encode tag s :
  (tag <= 255)%N ->
  decode_envelope (encode_envelope tag ++ s) tag = Ok ENVELOPE_SIZE.
Proof.
  intros Ht. unfold decode_envelope, decode_fixed. simpl.
  rewrite !byte_to_of_N, N.mod_small by lia. by rewrite N.eqb_refl.
Qed.

Lemma encode_envelope_length tag : length (encode_envelope tag) = ENVELOPE_SIZE.
Proof. done. Qed.

Lemma decode_envelope_sound buf tag c :
  decode_envelope buf tag = Ok c ->
  c = ENVELOPE_SIZE /\ exists s, buf = encode_envelope tag ++ s /\ at_offset buf c s.
Proof.
  unfold decode_envelope, decode_fixed. intros H. inv_ok. subst.
  destruct buf as [|b0 [|b1 buf]]; try done. simpl in *. simplify_eq.
  bool_simpl. split; [done|]. exists buf. split.
  - unfold encode_envelope. rewrite <- G1, <- G0, !byte_of_to_N. done.
  - split; simpl; [lia|done].
Qed.

Lemma peek_envelope_tag_encode tag s :
  (tag <= 255)%N -> peek_envelope_tag (encode_envelope tag ++ s) = Ok tag.
Proof.
  intros. unfold peek_envelope_tag, decode_fixed. simpl.
  rewrite !byte_to_of_N, N.mod_small by lia. done.
Qed.

(** ** The laws of the primitive codecs *)

Lemma be_decode_encode w v rest :
  (v < 256 ^ N.of_nat w)%N ->
  be_decode w (to_be_bytes w v ++ rest) = Ok (v, length (to_be_bytes w v)).
Proof.
  intros Hv. unfold be_decode. rewrite length_app, to_be_bytes_length.
  destruct (Nat.ltb_spec (w + length rest) w); [lia|].
  rewrite take_app_length' by (by rewrite to_be_bytes_length).
  rewrite array_of_id by apply to_be_bytes_length.
  by rewrite from_to_be_bytes.
Qed.

Lemma be_decode_sound w buf v n :
  be_decode w buf = Ok (v, n) ->
  (v < 256 ^ N.of_nat w)%N /\ (exists rest, buf = to_be_bytes w v ++ rest) /\
  n = length (to_be_bytes w v).
Proof.
  unfold be_decode. intros H. inv_ok. subst v n. bool_simpl.
  assert (Hl : length (take w buf) = w) by (rewrite length_take; lia).
  rewrite array_of_id by done. split_and!.
  - rewrite <- Hl at 2. apply from_be_bytes_bound.
  - exists (drop w buf). rewrite <- Hl at 1. rewrite to_from_be_bytes, take_drop. done.
  - by rewrite to_be_bytes_length.
Qed.

#[export] Instance u8_lawful : Lawful u8.
Proof.
  split; simpl; try done.
  - intros x rest Hx. unfold u8_ok in Hx. bool_simpl.
    rewrite byte_to_of_N, N.mod_small by lia. done.
  - intros [|b buf] x n; [done|]. intros [= <- <-]. split_and!; [|exists buf|done].
    + unfold u8_ok. apply N.leb_le. apply Byte.to_N_bounded.
    + by rewrite byte_of_to_N.
Qed.

Lemma be_lawful w (cd : Codec N) :
  MAX_ENCODED_SIZE cd = w -> (forall v, encoded_size cd v = w) ->
  (forall v, encode_to cd v = to_be_bytes w v) -> (forall b, decode cd b = be_decode w b) ->
  (forall v, wf cd v = true <-> (v < 256 ^ N.of_nat w)%N) -> Lawful cd.
Proof.
  intros Hm Hs He Hd Hw. split; intros *; rewrite ?He, ?Hm, ?Hs, ?Hd, ?Hw, ?to_be_bytes_length;
    try done.
  - intros. by rewrite be_decode_encode, to_be_bytes_length.
  - intros H%be_decode_sound. by rewrite to_be_bytes_length in H.
Qed.

#[export] Instance u16_lawful : Lawful u16.
Proof. apply (be_lawful 2); try done. intros v. simpl. unfold u16_ok. rewrite N.leb_le. lia. Qed.
#[export] Instance u32_lawful : Lawful u32.
Proof. apply (be_lawful 4); try done. intros v. simpl. unfold u32_ok. rewrite N.leb_le. lia. Qed.
#[export] Instance u64_lawful : Lawful u64.
Proof.
  apply (be_lawful 8); try done. intros v. simpl. unfold u64_ok, U64_MAX. rewrite N.leb_le. lia.
Qed.
#[export] Instance usize_lawful : Lawful usize.
Proof.
  apply (be_lawful 8); try done. intros v. simpl. unfold u64_ok, U64_MAX. rewrite N.leb_le. lia.
Qed.

Lemma decode_fixed_encode n v rest :
  length v = n -> decode_fixed n (v ++ rest) = Ok (v, n).
Proof.
  intros Hn. unfold decode_fixed. rewrite length_app.
  destruct (Nat.ltb_spec (length v + length rest) n); [lia|].
  rewrite take_app_length' by done. by rewrite array_of_id.
Qed.

Lemma decode_fixed_sound n buf v c :
  decode_fixed n buf = Ok (v, c) ->
  length v = n /\ (exists rest, buf = v ++ rest) /\ c = n.
Proof.
  unfold decode_fixed. intros H. inv_ok. subst v c. bool_simpl.
  rewrite array_of_length. split_and!; [done| |done].
  exists (drop n buf). rewrite array_of_id by (rewrite length_take; lia).
  by rewrite take_drop.
Qed.

#[export] Instance array_lawful n : Lawful (array n).
Proof.
  split; simpl; intros; bool_simpl; try lia.
  - rewrite decode_fixed_encode by done. congruence.
  - apply decode_fixed_sound in H as (? & ? & ?). subst. split_and!; [|done|done].
    by apply Nat.eqb_eq.
Qed.

(** Codecs all of whose values have the same size. *)
Class FixedSize {A} (cd : Codec A) : Prop :=
  fixed_size x : wf cd x = true -> length (encode_to cd x) = MAX_ENCODED_SIZE cd.

#[export] Instance u8_fixed : FixedSize u8.
Proof. done. Qed.
#[export] Instance u16_fixed : FixedSize u16.
Proof. intros x _. apply to_be_bytes_length. Qed.
#[export] Instance u32_fixed : FixedSize u32.
Proof. intros x _. apply to_be_bytes_length. Qed.
#[export] Instance u64_fixed : FixedSize u64.
Proof. intros x _. apply to_be_bytes_length. Qed.
#[export] Instance usize_fixed : FixedSize usize.
Proof. intros x _. apply to_be_bytes_length. Qed.
#[export] Instance array_fixed n : FixedSize (array n).
Proof. intros x Hx. simpl in *. by bool_simpl. Qed.

Lemma decode_envelope_at buf tag s :
  at_offset buf 0 (encode_envelope tag ++ s) -> (tag <= 255)%N ->
  decode_envelope buf tag = Ok ENVELOPE_SIZE /\ at_offset buf ENVELOPE_SIZE s.
Proof.
  intros Hat Ht. split; [|by apply (at_offset_app _ 0 (encode_envelope tag))].
  destruct Hat as [_ Hd]. simpl in Hd. rewrite drop_0 in Hd. subst.
  by apply decode_envelope_encode.
Qed.

Lemma u8_length v : length (encode_to u8 v) = MAX_ENCODED_SIZE u8.
Proof. done. Qed.

(** *** The codec tactics *)

(** Collect what the laws say of the sizes of the fields at hand. *)
Ltac codec_sizes :=
  repeat match goal with
  | H : wf ?cd ?x = true |- _ =>
      let S := fresh "Hsize" in let M := fresh "Hmax" in
      pose proof (encoded_size_exact x H) as S;
      pose proof (encoded_size_max x H) as M;
      try pose proof (fixed_size x H);
      revert H
  end; intros;
  rewrite ?length_app, ?encode_envelope_length, ?u8_length;
  rewrite ?length_app, ?encode_envelope_length, ?u8_length in *.

(** Decide a tag comparison between constants. *)
Ltac tag_step :=
  match goal with
  | |- context [N.eqb ?a ?b] =>
      let r := eval vm_compute in (N.eqb a b) in
      lazymatch r with
      | true => change (N.eqb a b) with true
      | false => change (N.eqb a b) with false
      end; cbn beta iota
  end.

(** Steps for field readers declared later, added with [::=]. *)
Ltac enc_step_hook := fail.
Ltac dec_step_hook := fail.

Ltac enc_step :=
  match goal with
  | |- _ => enc_step_hook
  | |- (if N.eqb ?a ?b then _ else _) = _ => tag_step
  | |- rbind (if N.eqb ?a ?b then _ else _) _ = _ => tag_step; cbn [rbind]
  | |- (if negb (N.eqb ?a ?b) then _ else _) = _ => tag_step; cbn [negb]
  | Hat : at_offset ?buf 0 (encode_envelope ?t ++ ?s) |- context [decode_envelope ?buf ?t] =>
      let E := fresh "E" in let Hat' := fresh "Hat" in
      destruct (decode_envelope_at buf t s Hat ltac:(unfold t; lia)) as [E Hat'];
      rewrite E; clear E Hat; cbn [rbind]
  | Hat : at_offset ?buf ?c (encode_to ?cd ?x ++ ?s) |- context [decode_field ?cd ?buf ?c] =>
      let E := fresh "E" in let Hat' := fresh "Hat" in
      destruct (decode_field_encode cd buf c x s Hat ltac:(assumption || reflexivity))
        as [E Hat'];
      rewrite E; clear E Hat; cbn [rbind]
  end.

Ltac dec_step :=
  match goal with
  | |- _ => dec_step_hook
  | H : @eq nat ?a ?b |- _ => is_var b; subst b
  | H : (if N.eqb ?a ?b then _ else _) = Ok _ |- _ =>
      destruct (N.eqb_spec a b); [subst a|]
  | H : (if negb (N.eqb ?a ?b) then _ else _) = Ok _ |- _ =>
      destruct (N.eqb_spec a b); [subst a|]; cbn [negb] in H
  | H : decode_envelope ?buf _ = Ok _ |- _ =>
      let s := fresh "s" in let Hs := fresh "Hs" in let Hat := fresh "Hat" in
      let Hc := fresh "Hc" in
      apply decode_envelope_sound in H as (Hc & s & Hs & Hat)
  | Hat : at_offset ?buf ?c ?s, E : decode_field ?cd ?buf ?c = Ok (_, _) |- _ =>
      let s' := fresh "s" in let Hs := fresh "Hs" in let Hat' := fresh "Hat" in
      let Hc := fresh "Hc" in let Hwf := fresh "Hwf" in
      apply (decode_field_sound cd buf c _ _ s Hat) in E as (Hwf & s' & Hs & Hat' & Hc)
  end.

(** The three parts of a product codec's proof: sizes, encode-then-decode,
    and what a successful decode says of its input. *)
Ltac codec_sum := cbn [length app] in *; codec_sizes; cbn [length app] in *; lia.

Ltac codec_run_encode_ unfold_e unfold_d :=
  match goal with |- _ ?b = Ok (_, _) =>
    let buf := fresh "buf" in let Hb := fresh "Hb" in let Hat := fresh "Hat" in
    remember b as buf eqn:Hb;
    pose proof (at_offset_start buf) as Hat; rewrite Hb in Hat at 2;
    unfold_e Hat; cbn beta iota in Hat; rewrite <- ?app_assoc in Hat; clear Hb;
    unfold_d (); cbn beta iota; repeat enc_step
  end.
Tactic Notation "codec_run_encode" reference(e) reference(d) :=
  codec_run_encode_ ltac:(fun H => unfold e in H) ltac:(fun _ => unfold d).

Ltac codec_run_decode_ unfold_d H :=
  match type of H with _ ?buf = Ok _ =>
    pose proof (at_offset_start buf) end;
  unfold_d H; repeat (dec_step || inv_ok_step); cbn beta iota in *; subst;
  repeat match goal with A : at_offset _ _ _ |- _ => clear A end.
Tactic Notation "codec_run_decode" reference(d) hyp(H) :=
  codec_run_decode_ ltac:(fun H => unfold d in H) H.

Ltac codec_sound_end_ unfold_we :=
  unfold_we (); cbn beta iota; split; [|split];
  [ rewrite ?andb_true_iff; split_and?; assumption || reflexivity
  | eexists; rewrite <- ?app_assoc; reflexivity
  | codec_sum ].
Tactic Notation "codec_sound_end" reference(w) reference(e) :=
  codec_sound_end_ ltac:(fun _ => unfold w, e).

(** [codec_lawful codec enc dec wf] proves the laws of a product codec. *)
Tactic Notation "codec_lawful" reference(cd) reference(e) reference(d) reference(w) :=
  split; unfold cd; cbn [MAX_ENCODED_SIZE encoded_size encode_to decode wf];
  [ let x := fresh "x" in let H := fresh "Hwf" in
    intros x H; destruct x; unfold w, e in *; cbn beta iota in *; bool_simpl; codec_sum
  | let x := fresh "x" in let H := fresh "Hwf" in
    intros x H; destruct x; unfold w, e in *; cbn beta iota in *; bool_simpl; codec_sum
  | let x := fresh "x" in let H := fresh "Hwf" in
    intros x ? H; destruct x; unfold w in H; cbn beta iota in H; bool_simpl;
    codec_run_encode_ ltac:(fun H => unfold e in H) ltac:(fun _ => unfold d);
    do 2 f_equal; unfold e; cbn beta iota; codec_sum
  | let H := fresh "H" in intros ? ? ? H;
    codec_run_decode_ ltac:(fun H => unfold d in H) H;
    codec_sound_end_ ltac:(fun _ => unfold w, e) ].

Tactic Notation "codec_fixed" reference(cd) reference(e) reference(w) :=
  let x := fresh "x" in let H := fresh "Hwf" in
  intros x H; unfold cd in *; cbn [MAX_ENCODED_SIZE encoded_size encode_to decode wf] in *;
  destruct x; unfold w, e in *; cbn beta iota in *; bool_simpl; codec_sum.

(** ** Optional values and lists *)

#[export] Instance Option_lawful {A} (cd : Codec A) `{!Lawful cd} : Lawful (Option_ cd).
Proof.
  split; unfold Option_; cbn [MAX_ENCODED_SIZE encoded_size encode_to decode wf].
  - intros [x|] H; unfold Option_encode_to; [|done].
    by rewrite length_app, encoded_size_exact.
  - intros [x|] H; unfold Option_encode_to; [|simpl; lia]. 
    rewrite length_app. pose proof (encoded_size_max x H). simpl. lia.
  - intros [x|] rest H; codec_run_encode Option_encode_to Option_decode; done.
  - intros buf x n H. codec_run_decode Option_decode H.
    + by split_and!; eauto.
    + split_and!; [done| |].
      * eexists. unfold Option_encode_to. rewrite <- app_assoc. reflexivity.
      * unfold Option_encode_to. rewrite length_app. simpl. lia.
Qed.

Lemma decode_items_encode {A} (cd : Codec A) `{!Lawful cd} l buf c s :
  at_offset buf c (concat (map (encode_to cd) l) ++ s) -> forallb (wf cd) l = true ->
  decode_items cd (length l) buf c =
    Ok (l, (c + length (concat (map (encode_to cd) l)))%nat).
Proof.
  revert c. induction l as [|x l IH]; intros c Hat Hwf; simpl in *.
  - by rewrite Nat.add_0_r.
  - bool_simpl. rewrite <- app_assoc in Hat. enc_step. rewrite IH by done. simpl.
    rewrite length_app. do 2 f_equal. lia.
Qed.

Lemma decode_items_sound {A} (cd : Codec A) `{!Lawful cd} len buf c l c' s :
  at_offset buf c s -> decode_items cd len buf c = Ok (l, c') ->
  length l = len /\ forallb (wf cd) l = true /\
  (exists s', s = concat (map (encode_to cd) l) ++ s') /\
  c' = (c + length (concat (map (encode_to cd) l)))%nat.
Proof.
  revert c s l c'. induction len as [|len IH]; intros c s l c' Hat H; simpl in H.
  - inv_ok. subst. simpl. split_and!; [done|done|by exists s|lia].
  - repeat (inv_ok_step || dec_step). subst.
    apply (IH _ _ _ _ Hat0) in E0 as (Hl & Hw & [s' ->] & ->). simpl.
    split_and!; [by rewrite Hl|by rewrite Hwf, Hw| |rewrite length_app; lia].
    exists s'. by rewrite <- app_assoc.
Qed.

Lemma List_encode_max {A} (cd : Codec A) `{!Lawful cd} l :
  forallb (wf cd) l = true ->
  (length (concat (map (encode_to cd) l)) <= length l * MAX_ENCODED_SIZE cd)%nat.
Proof.
  induction l; simpl; [done|]. intros; bool_simpl. rewrite length_app.
  pose proof (encoded_size_max a H). intuition lia.
Qed.

Lemma foldl_size {A} (cd : Codec A) `{!Lawful cd} l k :
  forallb (wf cd) l = true ->
  foldl (fun size item => size + encoded_size cd item)%nat k l =
  (k + length (concat (map (encode_to cd) l)))%nat.
Proof.
  revert k. induction l; intros k H; simpl in *; [lia|]. bool_simpl.
  rewrite IHl, length_app, encoded_size_exact by done. lia.
Qed.

#[export] Instance List_lawful {A} (cd : Codec A) cap `{!Lawful cd} : Lawful (List_ cd cap).
Proof.
  split; unfold List_; cbn [MAX_ENCODED_SIZE encoded_size encode_to decode wf].
  - intros l H; bool_simpl. unfold List_encode_to. rewrite foldl_size by done.
    rewrite length_app. simpl. lia.
  - intros l H; bool_simpl. unfold List_encode_to. rewrite length_app.
    pose proof (List_encode_max cd l ltac:(done)).
    assert (length l * MAX_ENCODED_SIZE cd <= cap * MAX_ENCODED_SIZE cd)%nat by nia.
    simpl; lia.
  - intros l rest H; bool_simpl. unfold List_decode, List_encode_to.
    rewrite <- app_assoc, (decode_encode (cd := usize)) by done. cbn [rbind].
    destruct (N.ltb_spec (N.of_nat cap) (N.of_nat (length l))); [lia|].
    rewrite Nat2N.id. erewrite decode_items_encode; [by rewrite length_app|done| |done].
    apply (at_offset_app _ 0 (encode_to usize (N.of_nat (length l)))), at_offset_start.
  - intros buf l n H. unfold List_decode in H. inv_ok.
    apply (decode_sound (cd := usize)) in E as (Hw & [rest ->] & ->).
    pose proof (at_offset_app _ 0 (encode_to usize a) rest (at_offset_start _)) as Hat.
    apply (decode_items_sound cd _ _ _ _ _ _ Hat) in H as (Hl & Hf & [s' ->] & ->).
    bool_simpl. assert (N.of_nat (length l) = a) as <- by lia.
    unfold List_encode_to. rewrite Nat.add_0_l, length_app. split_and!; [| |done].
    + rewrite Hf. apply andb_true_intro; split; [|done]. apply andb_true_intro; split; [|done].
      apply Nat.leb_le. lia.
    + exists s'. by rewrite <- app_assoc.
Qed.

(** ** Consequences of the laws *)

Section lawful.
  Context {A : Type} (cd : Codec A) `{!Lawful cd}.

(** Canonical encodings are prefix-free: a concatenation of fields determines
    its fields. *)
Lemma encode_app_inj x y r s :
  wf cd x = true -> wf cd y = true ->
  encode_to cd x ++ r = encode_to cd y ++ s -> x = y /\ r = s.
Proof.
  intros Hx Hy Heq. pose proof (decode_encode x r Hx) as H1.
  rewrite Heq, decode_encode in H1 by done. injection H1 as -> _.
  split; [done|]. by apply app_inv_head in Heq.
Qed.

Lemma encode_inj x y :
  wf cd x = true -> wf cd y = true -> encode_to cd x = encode_to cd y -> x = y.
Proof.
  intros Hx Hy Heq. apply (encode_app_inj x y [] []); [done|done|by rewrite Heq].
Qed.

Lemma decode_exact_encode x :
  wf cd x = true -> decode_exact cd (encode_to cd x) = Ok x.
Proof.
  intros Hx. unfold decode_exact.
  pose proof (decode_encode x [] Hx) as H. rewrite app_nil_r in H. rewrite H. simpl.
  destruct (Nat.ltb_spec (length (encode_to cd x)) (length (encode_to cd x))); [lia|].
  by rewrite Nat.sub_diag.
Qed.

Lemma decode_exact_sound buf x :
  decode_exact cd buf = Ok x -> wf cd x = true /\ buf = encode_to cd x.
Proof.
  unfold decode_exact. intros H. inv_ok.
  apply decode_sound in E as (Hw & [rest ->] & ->).
  rewrite length_app, Nat.add_comm, Nat.add_sub in H.
  destruct rest; simpl in H; inv_ok. subst. by rewrite app_nil_r.
Qed.

Lemma decode_exact_iff buf x :
  decode_exact cd buf = Ok x <-> wf cd x = true /\ buf = encode_to cd x.
Proof.
  split; [apply decode_exact_sound|]. intros [? ->]. by apply decode_exact_encode.
Qed.

(** Writing into a buffer of at least [MAX_ENCODED_SIZE] bytes never panics. *)
Lemma write_to_ok x buf :
  wf cd x = true -> (MAX_ENCODED_SIZE cd <= length buf)%nat ->
  write_to cd x buf =
    Some (encode_to cd x ++ drop (length (encode_to cd x)) buf, encoded_size cd x).
Proof.
  intros Hx Hb. unfold write_to, BufferWriter_write. simpl.
  pose proof (encoded_size_max x Hx).
  destruct (Nat.ltb_spec (length buf) (length (encode_to cd x))); [lia|]. simpl.
  by rewrite encoded_size_exact.
Qed.
End lawful.
