(* ===== verification/Primitive.v ===== *)
(** * Identifiers, keys and constants

    crates/kernel/src/consts.rs, primitive.rs and network.rs.  Every fixed-width
    newtype is a one-field record over its bytes; the identifiers carry the
    [EqDecision] and [Countable] instances the stores key on. *)

From S2P Require Import Prelude Xet Canonical.

(* [consts.rs:20-20] HASH_LENGTH *)
Definition HASH_LENGTH : nat := 32.
(* [consts.rs:24-24] ID_LENGTH *)
Definition ID_LENGTH : nat := HASH_LENGTH.
(* [consts.rs:29-29] KEY_LENGTH *)
Definition KEY_LENGTH : nat := 33.
(* [consts.rs:32-32] P256_COORDINATE_LENGTH *)
Definition P256_COORDINATE_LENGTH : nat := 32.
(* [consts.rs:36-36] SIG_LENGTH *)
Definition SIG_LENGTH : nat := 64.
(* [consts.rs:44-44] MAX_WEBAUTHN_DATA_LENGTH *)
Definition MAX_WEBAUTHN_DATA_LENGTH : nat := N.to_nat 2048.
(* [consts.rs:54-54] MAX_PARTY_INPUTS *)
Definition MAX_PARTY_INPUTS : nat := 4.
(* [consts.rs:58-58] MAX_EDGE_INPUTS *)
Definition MAX_EDGE_INPUTS : nat := (MAX_PARTY_INPUTS * 2)%nat.
(* [consts.rs:65-65] MAX_EDGE_OUTPUTS *)
Definition MAX_EDGE_OUTPUTS : nat := 4.
(* [consts.rs:70-70] MAX_OMIT_RESPONSE_BLOCKS *)
Definition MAX_OMIT_RESPONSE_BLOCKS : N := 4096.
(* [consts.rs:95-121] MIN_OMIT_RESPONSE_BLOCKS *)
Definition MIN_OMIT_RESPONSE_BLOCKS : N :=
  let RESPONSE_FINALIZATION_BLOCKS := 2%N in
  let RESPONSE_POLL_BLOCKS := 4%N in
  let RESPONSE_PROPAGATION_BLOCKS := 1%N in
  let RESPONSE_INCLUSION_BLOCKS := 8%N in
  (RESPONSE_FINALIZATION_BLOCKS + RESPONSE_POLL_BLOCKS + RESPONSE_PROPAGATION_BLOCKS
   + RESPONSE_INCLUSION_BLOCKS + 1)%N.
(* [consts.rs:135-135] MAX_START_VALIDITY_BLOCKS *)
Definition MAX_START_VALIDITY_BLOCKS : N := 64.
(* [consts.rs:143-143] MAX_FREEZE_AUTH_BLOCKS *)
Definition MAX_FREEZE_AUTH_BLOCKS : N := 64.
(* [consts.rs:153-153] REGISTRY_CHUNK_DATA_CAPACITY *)
Definition REGISTRY_CHUNK_DATA_CAPACITY : nat := 120.
(* [consts.rs:159-159] MAX_REGISTRY_CHUNKS *)
Definition MAX_REGISTRY_CHUNKS : nat := 255.
(* [consts.rs:177-177] MAX_REGISTRY_MUTATIONS *)
Definition MAX_REGISTRY_MUTATIONS : nat := 2.

(** ** Domain separators *)

Notation domain s := (list_byte_of_string s%string).

(* [consts.rs:187-187] COIN_GENESIS *)
Definition COIN_GENESIS : bytes := domain "hellas.edge.genesis.v1".
(* [consts.rs:191-191] COIN_PAYOUT *)
Definition COIN_PAYOUT : bytes := domain "hellas.edge.coin.v1".
(* [consts.rs:195-195] EDGE_OPEN *)
Definition EDGE_OPEN : bytes := domain "hellas.edge.edge.v1".
(* [consts.rs:200-200] OPEN *)
Definition OPEN : bytes := domain "hellas.edge.open.v1".
(* [consts.rs:204-204] CLOSE *)
Definition CLOSE : bytes := domain "hellas.edge.close.v1".
(* [consts.rs:209-209] TERMS_BASIC *)
Definition TERMS_BASIC : bytes := domain "hellas.terms.basic.v2".
(* [consts.rs:213-213] TERMS_WORK_PAYMENT *)
Definition TERMS_WORK_PAYMENT : bytes := domain "hellas.terms.work-payment.v4".
(* [consts.rs:219-219] TERMS_WORK_STAKE_BOND *)
Definition TERMS_WORK_STAKE_BOND : bytes := domain "hellas.terms.work-stake-bond.v4".
(* [consts.rs:224-224] WORK_EARNED_CERTIFICATE *)
Definition WORK_EARNED_CERTIFICATE : bytes := domain "hellas.work.earned-cumulative.v2".
(* [consts.rs:232-232] WORK_NO_EARNED_CERTIFICATE *)
Definition WORK_NO_EARNED_CERTIFICATE : bytes := domain "hellas.work.no-earned-certificate.v2".
(* [consts.rs:236-236] WORK_SETTLEMENT_STATE *)
Definition WORK_SETTLEMENT_STATE : bytes := domain "hellas.work.settlement-state.v2".
(* [consts.rs:241-241] WORK_START_PAYMENT_CLOSE *)
Definition WORK_START_PAYMENT_CLOSE : bytes := domain "hellas.work.start-payment-close.v2".
(* [consts.rs:249-249] WORK_START_PAYMENT_CLOSE_ID *)
Definition WORK_START_PAYMENT_CLOSE_ID : bytes :=
  domain "hellas.work.start-payment-close-id.v2".
(* [consts.rs:254-254] WORK_RESPOND_PAYMENT_CLOSE *)
Definition WORK_RESPOND_PAYMENT_CLOSE : bytes := domain "hellas.work.respond-payment-close.v2".
(* [consts.rs:259-260] WORK_ADJUDICATED_PAYMENT_CLOSE *)
Definition WORK_ADJUDICATED_PAYMENT_CLOSE : bytes :=
  domain "hellas.work.adjudicated-payment-close.v4".
(* [consts.rs:265-265] WORK_FREEZE_CLOSE *)
Definition WORK_FREEZE_CLOSE : bytes := domain "hellas.work.freeze-close.v2".
(* [consts.rs:270-270] OWNER_RESHAPE *)
Definition OWNER_RESHAPE : bytes := domain "hellas.owner.reshape.v2".
(* [consts.rs:278-278] COIN_RESHAPE *)
Definition COIN_RESHAPE : bytes := domain "hellas.owner.coin.v2".
(* [consts.rs:289-289] REGISTRY_CHUNK_ID *)
Definition REGISTRY_CHUNK_ID : bytes := domain "hellas.registry.chunk-id.v2".

(** ** Fixed-width newtypes *)

(** A newtype over [[u8; n]] whose codec is [decode_fixed]. *)
Definition newtype {A} (n : nat) (mk : bytes -> A) (get : A -> bytes) : Codec A := {|
  MAX_ENCODED_SIZE := n;
  encoded_size := fun _ => n;
  encode_to := get;
  decode := fun buf => let? '(bs, c) := decode_fixed n buf in Ok (mk bs, c);
  wf := fun x => (length (get x) =? n)%nat |}.

(* [primitive.rs:35-65] Key *)
Record Key := Key_from_bytes { Key_bytes : bytes }.
(* [primitive.rs:67-81] Key *)
Definition Key_codec : Codec Key := newtype KEY_LENGTH Key_from_bytes Key_bytes.

(* [primitive.rs:87-119] CoinId *)
Record CoinId := CoinId_from_bytes { CoinId_bytes : bytes }.
(* [primitive.rs:164-178] CoinId *)
Definition CoinId_codec : Codec CoinId := newtype ID_LENGTH CoinId_from_bytes CoinId_bytes.

(* [primitive.rs:184-213] EdgeId *)
Record EdgeId := EdgeId_from_bytes { EdgeId_bytes : bytes }.
(* [primitive.rs:215-229] EdgeId *)
Definition EdgeId_codec : Codec EdgeId := newtype ID_LENGTH EdgeId_from_bytes EdgeId_bytes.

(* [registry.rs:213-241] RegistryChunkId *)
Record RegistryChunkId := RegistryChunkId_from_bytes { RegistryChunkId_bytes : bytes }.
(* [registry.rs:261-275] RegistryChunkId *)
Definition RegistryChunkId_codec : Codec RegistryChunkId :=
  newtype ID_LENGTH RegistryChunkId_from_bytes RegistryChunkId_bytes.

(* [primitive.rs:231-263] TermsHash *)
Record TermsHash := TermsHash_from_bytes { TermsHash_bytes : bytes }.
(* [primitive.rs:265-279] TermsHash *)
Definition TermsHash_codec : Codec TermsHash :=
  newtype HASH_LENGTH TermsHash_from_bytes TermsHash_bytes.

(* [primitive.rs:281-313] PayloadHash *)
Record PayloadHash := PayloadHash_from_bytes { PayloadHash_bytes : bytes }.
(* [primitive.rs:315-329] PayloadHash *)
Definition PayloadHash_codec : Codec PayloadHash :=
  newtype HASH_LENGTH PayloadHash_from_bytes PayloadHash_bytes.

(* [primitive.rs:331-361] Sig *)
Record Sig := Sig_from_bytes { Sig_bytes : bytes }.
(* [primitive.rs:391-405] Sig *)
Definition Sig_codec : Codec Sig := newtype SIG_LENGTH Sig_from_bytes Sig_bytes.

(* [primitive.rs:418-433] ProtocolCode *)
Record ProtocolCode := ProtocolCode_new { ProtocolCode_get : N }.
(* [primitive.rs:435-450] ProtocolCode *)
Definition ProtocolCode_codec : Codec ProtocolCode := {|
  MAX_ENCODED_SIZE := 1;
  encoded_size := fun _ => 1%nat;
  encode_to := fun c => encode_to u8 (ProtocolCode_get c);
  decode := fun buf => let? '(b, n) := decode u8 buf in Ok (ProtocolCode_new b, n);
  wf := fun c => wf u8 (ProtocolCode_get c) |}.

(* [primitive.rs:453-460] Party *)
Inductive Party := Maker | Taker.

(* [primitive.rs:465-470] Party::tag *)
Definition Party_tag (p : Party) : N := match p with Maker => 0 | Taker => 1 end.

(* [primitive.rs:474-480] Party::from_tag *)
Definition Party_from_tag (tag : N) : option Party :=
  match tag with 0%N => Some Maker | 1%N => Some Taker | _ => None end.

(* [canonical.rs:468-485] Party *)
Definition Party_codec : Codec Party := {|
  MAX_ENCODED_SIZE := 1;
  encoded_size := fun _ => 1%nat;
  encode_to := fun p => [byte_of_N (Party_tag p)];
  decode := fun buf =>
    let? '(byte, consumed) := decode u8 buf in
    let? party := ok_or (Party_from_tag byte) (InvalidTag byte) in
    Ok (party, consumed);
  wf := fun _ => true |}.

(** ** Network id *)

(* [network.rs:36-36] MAX_NETWORK_ID_LENGTH *)
Definition MAX_NETWORK_ID_LENGTH : nat := 63.

(* [network.rs:43-47] NetworkId *)
Record NetworkId := mk_NetworkId { NetworkId_buf : bytes; NetworkId_len : N }.

(** The argument is the UTF-8 bytes of the [&str]. *)
(* [network.rs:49-76] NetworkId::new *)
Definition NetworkId_new (source : bytes) : option NetworkId :=
  if (length source =? 0)%nat || (MAX_NETWORK_ID_LENGTH <? length source)%nat then None
  else Some (mk_NetworkId (array_of MAX_NETWORK_ID_LENGTH source)
               (N.of_nat (length source) mod 256)).

(* [network.rs:78-86] NetworkId::as_bytes *)
Definition NetworkId_as_bytes (n : NetworkId) : bytes :=
  take (N.to_nat (NetworkId_len n)) (NetworkId_buf n).

(* [network.rs:112-125] NetworkId::encode_to *)
Definition NetworkId_encode_to (n : NetworkId) : bytes :=
  encode_to u8 (NetworkId_len n) ++ NetworkId_as_bytes n.

(** [new] is the only constructor. *)
Definition NetworkId_wf (n : NetworkId) : Prop := exists s, NetworkId_new s = Some n.

(** ** Derived coin ids: the writes the source feeds the hasher, in order *)

Section coin_ids.
  Context `{Blake3}.

(* [primitive.rs:121-130] CoinId::genesis *)
Definition CoinId_genesis (index : N) : CoinId :=
  CoinId_from_bytes (canonical_hash COIN_GENESIS u32 index).

Definition CoinId_reshape_writes (network : NetworkId) (inputs : list CoinId) (index : N)
    (owner : Key) : list bytes :=
  [COIN_RESHAPE; NetworkId_encode_to network;
   encode_to (List_ CoinId_codec MAX_EDGE_INPUTS) inputs; encode_to usize index;
   encode_to Key_codec owner].

(* [primitive.rs:132-147] CoinId::reshape *)
Definition CoinId_reshape (network : NetworkId) (inputs : list CoinId) (index : N) (owner : Key)
    : CoinId :=
  CoinId_from_bytes (xet_hash (concat (CoinId_reshape_writes network inputs index owner))).

Definition CoinId_payout_writes (edge : EdgeId) (index : N) (owner : Key) : list bytes :=
  [COIN_PAYOUT; encode_to EdgeId_codec edge; encode_to usize index; encode_to Key_codec owner].

(* [primitive.rs:149-161] CoinId::payout *)
Definition CoinId_payout (edge : EdgeId) (index : N) (owner : Key) : CoinId :=
  CoinId_from_bytes (xet_hash (concat (CoinId_payout_writes edge index owner))).
End coin_ids.

(** ** Decidable equality and countability *)

#[export] Instance Key_eq_dec : EqDecision Key.
Proof. solve_decision. Defined.
#[export] Instance CoinId_eq_dec : EqDecision CoinId.
Proof. solve_decision. Defined.
#[export] Instance EdgeId_eq_dec : EqDecision EdgeId.
Proof. solve_decision. Defined.
#[export] Instance RegistryChunkId_eq_dec : EqDecision RegistryChunkId.
Proof. solve_decision. Defined.
#[export] Instance TermsHash_eq_dec : EqDecision TermsHash.
Proof. solve_decision. Defined.
#[export] Instance PayloadHash_eq_dec : EqDecision PayloadHash.
Proof. solve_decision. Defined.
#[export] Instance Sig_eq_dec : EqDecision Sig.
Proof. solve_decision. Defined.
#[export] Instance ProtocolCode_eq_dec : EqDecision ProtocolCode.
Proof. solve_decision. Defined.
#[export] Instance Party_eq_dec : EqDecision Party.
Proof. solve_decision. Defined.
#[export] Instance NetworkId_eq_dec : EqDecision NetworkId.
Proof. solve_decision. Defined.

#[export] Program Instance CoinId_countable : Countable CoinId :=
  inj_countable' CoinId_bytes CoinId_from_bytes _.
Next Obligation. by intros []. Qed.
#[export] Program Instance EdgeId_countable : Countable EdgeId :=
  inj_countable' EdgeId_bytes EdgeId_from_bytes _.
Next Obligation. by intros []. Qed.

#[export] Program Instance RegistryChunkId_countable : Countable RegistryChunkId :=
  inj_countable' RegistryChunkId_bytes RegistryChunkId_from_bytes _.
Next Obligation. by intros []. Qed.

(** ** Codec laws *)

Lemma newtype_lawful {A} n (mk : bytes -> A) get :
  (forall x, mk (get x) = x) -> (forall b, get (mk b) = b) -> Lawful (newtype n mk get).
Proof.
  intros Hmg Hgm. split; unfold newtype; simpl; intros; bool_simpl; try lia.
  - rewrite decode_fixed_encode by done. simpl. by rewrite Hmg, H.
  - inv_ok. subst. apply decode_fixed_sound in E as (Hl & [rest ->] & ->).
    rewrite Hgm, Hl. split_and!; [by apply Nat.eqb_eq|by exists rest|done].
Qed.

Lemma newtype_fixed {A} n (mk : bytes -> A) get : FixedSize (newtype n mk get).
Proof. intros x H. simpl in *. by bool_simpl. Qed.

#[export] Instance Key_lawful : Lawful Key_codec.
Proof. apply newtype_lawful; by intros []. Qed.
#[export] Instance Key_fixed : FixedSize Key_codec.
Proof. apply newtype_fixed. Qed.
#[export] Instance CoinId_lawful : Lawful CoinId_codec.
Proof. apply newtype_lawful; by intros []. Qed.
#[export] Instance CoinId_fixed : FixedSize CoinId_codec.
Proof. apply newtype_fixed. Qed.
#[export] Instance EdgeId_lawful : Lawful EdgeId_codec.
Proof. apply newtype_lawful; by intros []. Qed.
#[export] Instance EdgeId_fixed : FixedSize EdgeId_codec.
Proof. apply newtype_fixed. Qed.
#[export] Instance RegistryChunkId_lawful : Lawful RegistryChunkId_codec.
Proof. apply newtype_lawful; by intros []. Qed.
#[export] Instance RegistryChunkId_fixed : FixedSize RegistryChunkId_codec.
Proof. apply newtype_fixed. Qed.
#[export] Instance TermsHash_lawful : Lawful TermsHash_codec.
Proof. apply newtype_lawful; by intros []. Qed.
#[export] Instance TermsHash_fixed : FixedSize TermsHash_codec.
Proof. apply newtype_fixed. Qed.
#[export] Instance PayloadHash_lawful : Lawful PayloadHash_codec.
Proof. apply newtype_lawful; by intros []. Qed.
#[export] Instance PayloadHash_fixed : FixedSize PayloadHash_codec.
Proof. apply newtype_fixed. Qed.
#[export] Instance Sig_lawful : Lawful Sig_codec.
Proof. apply newtype_lawful; by intros []. Qed.
#[export] Instance Sig_fixed : FixedSize Sig_codec.
Proof. apply newtype_fixed. Qed.

#[export] Instance ProtocolCode_lawful : Lawful ProtocolCode_codec.
Proof.
  split; try done.
  - intros [c] rest H. unfold ProtocolCode_codec in *; simpl in *.
    rewrite byte_to_of_N. unfold u8_ok in H. bool_simpl. by rewrite N.mod_small by lia.
  - intros buf [c] n H. unfold ProtocolCode_codec in *; cbn [decode] in H. inv_ok. simplify_eq.
    by apply (decode_sound (cd := u8)) in E.
Qed.
#[export] Instance ProtocolCode_fixed : FixedSize ProtocolCode_codec.
Proof. done. Qed.

#[export] Instance Party_lawful : Lawful Party_codec.
Proof.
  split; try done.
  - by intros [] rest _.
  - intros buf p n H. unfold Party_codec in *; cbn [decode] in H. inv_ok. subst.
    apply (decode_sound (cd := u8)) in E as (_ & [rest ->] & ->).
    split; [done|]. split; [|done]. exists rest. cbn.
    destruct a as [|[| |]]; cbn in *; simplify_eq; done.
Qed.
#[export] Instance Party_fixed : FixedSize Party_codec.
Proof. done. Qed.

(** ** Network ids *)

Lemma NetworkId_new_spec s n :
  NetworkId_new s = Some n ->
  NetworkId_as_bytes n = s /\ NetworkId_len n = N.of_nat (length s) /\
  (0 < length s <= MAX_NETWORK_ID_LENGTH)%nat.
Proof.
  unfold NetworkId_new. intros H. inv_ok. bool_simpl. subst n. simpl.
  unfold NetworkId_as_bytes, MAX_NETWORK_ID_LENGTH in *. simpl.
  rewrite N.mod_small, Nat2N.id by lia. split_and!; [|done|lia|lia].
  unfold array_of. rewrite take_take, Nat.min_l by lia. by rewrite take_app_length.
Qed.

(** The length prefix makes the network id self-delimiting in a preimage. *)
Lemma NetworkId_encode_app_inj n m r s :
  NetworkId_wf n -> NetworkId_wf m ->
  NetworkId_encode_to n ++ r = NetworkId_encode_to m ++ s -> n = m /\ r = s.
Proof.
  intros [a Ha] [b Hb] Heq. unfold NetworkId_encode_to in Heq.
  pose proof (NetworkId_new_spec _ _ Ha) as (Hab & Hal & Hlen).
  pose proof (NetworkId_new_spec _ _ Hb) as (Hbb & Hbl & Hlen').
  unfold MAX_NETWORK_ID_LENGTH in *.
  rewrite <- !app_assoc in Heq. apply (encode_app_inj u8) in Heq as [Hl Heq].
  2,3: simpl; unfold u8_ok; apply N.leb_le; lia.
  rewrite Hab, Hbb in Heq. apply app_inj_1 in Heq as [-> ->]; [|lia].
  split; [congruence|done].
Qed.

Lemma NetworkId_encode_length n :
  NetworkId_wf n -> (length (NetworkId_encode_to n) <= 1 + MAX_NETWORK_ID_LENGTH)%nat.
Proof.
  intros [s Hs]. apply NetworkId_new_spec in Hs as (Hb & _ & Hl).
  unfold NetworkId_encode_to. rewrite Hb. simpl. lia.
Qed.
