(* ===== verification/Errors.v ===== *)
(** * Error vocabulary (crates/kernel/src/error.rs)

    Each reason enum keeps its constructors; a prefix tells apart the names
    several enums share. *)

From S2P Require Import Prelude Primitive.

(* [error.rs:35-42] InsertError *)
Inductive InsertError := Exists | Unavailable.

(* [registry.rs:572-582] RegistryDiffError *)
Inductive RegistryDiffError := Diff_Full | Diff_Duplicate (id : RegistryChunkId).

(* [error.rs:306-320] BondLeaseFault *)
Inductive BondLeaseFault := Lease_Partial | Lease_Shape | Lease_Body | Lease_Edge.

(* [error.rs:327-338] PendingCloseFault *)
Inductive PendingCloseFault := Pending_Shape | Pending_Body | Pending_Edge.

(* [error.rs:198-298] InvalidOpenReason *)
Inductive InvalidOpenReason :=
  | FeeOverflow
  | ReserveOverflow
  | FundingOverflow
  | FundingInsufficient
  | TimeoutNotFuture
  | LifetimeFeeOverflow
  | TermsPayoutOverflow
  | TermsValueMismatch
  | FundingUnauthorized
  | FundingNotDelegated
  | PayoutDelegateNotSigner
  | BasicAuthNotOwner
  | TimeoutPayoutNotCommitted
  | Open_BadSignature
  | WorkStakeValueZero
  | JobPriceCapZero
  | WorkStakeReturnRouting
  | WorkStakeMakerUnfunded
  | WorkStakeTakerFunded
  | WorkPaymentTakerFunded
  | WorkPaymentMakerUnfunded
  | WorkResponseWindowOutOfRange
  | WorkStartValidityOutOfRange
  | WorkPaymentReserveTooSmall
  | WorkPaymentCapacityUnfunded
  | WorkBondTermsMismatch
  | WorkBondAlreadyLeased
  | WorkBondLeaseFault (fault : BondLeaseFault).

(* [error.rs:341-399] InvalidMoveReason *)
Inductive InvalidMoveReason :=
  | Move_TermsMismatch
  | NotAPaymentChannel
  | OutsideValidityWindow
  | ValiditySpanTooWide
  | ClosePending
  | Move_ClosePendingMissing
  | Move_ClosePendingFault (fault : PendingCloseFault)
  | StartIdMismatch
  | ResponderNotBeneficiary
  | AlreadyResponded
  | ResponseWindowClosed
  | CertificateNotBound
  | CertificateNotPositive
  | CertificateNotIncreasing
  | CertificateOverCapacity
  | Move_ReserveTooSmall
  | DeadlineOverflow
  | Move_BadSignature
  | BadCertificateSignature.

(* [error.rs:402-418] InvalidCloseReason *)
Inductive InvalidCloseReason :=
  | PayoutOverflow
  | Close_ReserveTooSmall
  | ValueMismatch
  | KindForbidden.

(* [error.rs:420-476] InvalidProofReason *)
Inductive InvalidProofReason :=
  | Proof_TermsMismatch
  | Proof_BadSignature
  | ProofExpired
  | TimeoutNotReached
  | PayoutMismatch
  | PayoutNotCommitted
  | Proof_ClosePendingMissing
  | Proof_ClosePendingFault (fault : PendingCloseFault)
  | ResponseWindowOpen
  | ContestMismatch
  | FreezeOutsideValidityWindow
  | FreezeBelowSettled
  | Proof_BondLeaseFault (fault : BondLeaseFault)
  | PayoutOverCapacity.

(* [error.rs:479-496] InvalidReshapeReason *)
Inductive InvalidReshapeReason :=
  | ZeroOutput
  | ForeignDelegation
  | NoInputs
  | OwnerMismatch
  | Reshape_ValueOverflow
  | Reshape_ValueMismatch
  | Reshape_BadSignature.

(* [error.rs:56-195] ApplyError *)
Inductive ApplyError :=
  | MissingCoin (id : CoinId)
  | CoinChanged (id : CoinId)
  | MissingEdge (id : EdgeId)
  | EdgeChanged (id : EdgeId)
  | MissingRegistryChunk (id : RegistryChunkId)
  | RegistryChunkChanged (id : RegistryChunkId)
  | OutputExists (id : CoinId)
  | EdgeExists (id : EdgeId)
  | DuplicateInput (id : CoinId)
  | InvalidOpen (output : EdgeId) (reason : InvalidOpenReason)
  | InvalidClose (input : EdgeId) (reason : InvalidCloseReason)
  | InvalidProof (input : EdgeId) (reason : InvalidProofReason)
  | InvalidMove (input : EdgeId) (reason : InvalidMoveReason)
  | InvalidReshape (reason : InvalidReshapeReason)
  | RegistryDiffRejected (reason : RegistryDiffError)
  | CoinInsertRejected (id : CoinId) (reason : InsertError)
  | EdgeInsertRejected (id : EdgeId) (reason : InsertError)
  | RegistryChunkInsertRejected (id : RegistryChunkId) (reason : InsertError).

Notation KernelResult A := (result A ApplyError).

(* [error.rs:8-32] BatchError *)
Record BatchError := BatchError_new { BatchError_index : nat; BatchError_source : ApplyError }.
