(* ===== verification/BoundedList.v ===== *)
(** * The kernel's fixed-capacity list (crates/kernel/src/list.rs)

    [List<T, N>] is an array of [N] slots and a live length.  The first part
    models it as written; the second shows that every operation is determined
    by the live prefix, which is what the rest of the development uses: a
    [List<T, N>] there is a plain list of at most [N] elements. *)

From S2P Require Import Prelude.

(* [list.rs:16-19] List *)
Record List (A : Type) := mk_List { List_items : list A; List_len : nat }.
Arguments mk_List {A} _ _.
Arguments List_items {A} _.
Arguments List_len {A} _.

Section list.
  Context {A : Type}.

(* [list.rs:28-32] List::all *)
Definition List_all (items : list A) : List A := mk_List items (length items).

(** Slicing past the array panics: [None]. *)
(* [list.rs:46-54] List::as_slice *)
Definition List_as_slice (self : List A) : option (list A) :=
  if (List_len self <=? length (List_items self))%nat
  then Some (take (List_len self) (List_items self)) else None.

(* [list.rs:94-100] List::empty *)
Definition List_empty (cap : nat) (fill : A) : List A := mk_List (repeat fill cap) 0.

(* [list.rs:102-110] List::new *)
Definition List_new (items : list A) (len : nat) : option (List A) :=
  if (length items <? len)%nat then None else Some (mk_List items len).

(* [list.rs:112-121] List::take *)
Definition List_take (items : list A) (len : nat) : List A :=
  mk_List items (if (length items <? len)%nat then length items else len).

(** The loop writes [f item] over the slots its zip reaches. *)
Definition zip_write {B} (f : A -> B) (slots : list B) (live : list A) : list B :=
  map f (take (length slots) live) ++ drop (length live) slots.

(* [list.rs:123-135] List::map *)
Definition List_map {B} (self : List A) (fill : B) (f : A -> B) : option (List B) :=
  live ← List_as_slice self;
  Some (mk_List (zip_write f (repeat fill (length (List_items self))) live) (List_len self)).

(** The summation loop: stops at the first overflow. *)
Fixpoint checked_sum_from (value : A -> N) (total : N) (l : list A) : option N :=
  match l with
  | [] => Some total
  | item :: l => total ← checked_add total (value item); checked_sum_from value total l
  end.

(* [list.rs:63-70] List::checked_sum *)
Definition checked_sum (value : A -> N) (l : list A) : option N := checked_sum_from value 0 l.

(* [list.rs:138-142] List::eq *)
Definition List_eqb `{EqDecision A} (a b : List A) : bool :=
  match List_as_slice a, List_as_slice b with
  | Some x, Some y => bool_decide (x = y)
  | _, _ => false
  end.

(** Every constructor establishes [len <= N]. *)
Definition List_wf (cap : nat) (self : List A) : Prop :=
  length (List_items self) = cap /\ (List_len self <= cap)%nat.

(** ** Refinement: a list is its live prefix *)

(** [represents cap self l]: [self] is a [List<A, cap>] whose live entries are [l]. *)
Definition represents (cap : nat) (self : List A) (l : list A) : Prop :=
  List_wf cap self /\ List_as_slice self = Some l.

Lemma represents_bound cap self l :
  represents cap self l -> (length l <= cap)%nat /\ length l = List_len self.
Proof.
  intros [[Hl Hn] Hs]. unfold List_as_slice in Hs. inv_ok. bool_simpl. subst l.
  rewrite length_take. lia.
Qed.

Lemma List_take_represents cap items len :
  length items = cap -> represents cap (List_take items len) (take len items).
Proof.
  intros Hc. unfold represents, List_wf, List_as_slice, List_take; simpl.
  destruct (Nat.ltb_spec (length items) len).
  - rewrite Nat.leb_refl, !take_ge by lia. split_and!; [done|lia|done].
  - destruct (Nat.leb_spec len (length items)); [|lia]. split_and!; [done|lia|done].
Qed.

Lemma List_new_represents cap items len self :
  length items = cap -> List_new items len = Some self ->
  represents cap self (take len items).
Proof.
  intros Hc H. unfold List_new in H. inv_ok. subst. bool_simpl.
  unfold represents, List_wf, List_as_slice; simpl.
  destruct (Nat.leb_spec len (length items)); [|lia]. done.
Qed.

Lemma List_empty_represents cap fill : represents cap (List_empty cap fill) [].
Proof. split; [split; simpl; [apply repeat_length|lia]|done]. Qed.

(** Two lists are equal exactly when their live entries are: the dead tail
    is not observable. *)
Lemma List_eqb_represents `{EqDecision A} cap cap' a b l k :
  represents cap a l -> represents cap' b k -> List_eqb a b = true <-> l = k.
Proof.
  intros [_ Ha] [_ Hb]. unfold List_eqb. rewrite Ha, Hb. apply bool_decide_eq_true.
Qed.
End list.

Lemma List_map_represents {A B} cap (self : List A) l (fill : B) f :
  represents cap self l ->
  exists self', List_map self fill f = Some self' /\ represents cap self' (map f l).
Proof.
  intros Hr. pose proof (represents_bound _ _ _ Hr) as [Hb Hl].
  destruct Hr as [[Hc Hn] Hs]. unfold List_map. rewrite Hs. simpl.
  eexists; split; [done|]. unfold zip_write. rewrite repeat_length, Hc.
  rewrite (take_ge l) by lia.
  assert (Hlen : length (map f l ++ drop (length l) (repeat fill cap)) = cap)
    by (rewrite length_app, length_drop, repeat_length, length_map; lia).
  split; [split; simpl; lia|]. unfold List_as_slice; simpl. rewrite Hlen, <- Hl.
  destruct (Nat.leb_spec (length l) cap); [|lia].
  by rewrite take_app_length' by (by rewrite length_map).
Qed.

(** ** The checked sum *)

Lemma checked_sum_from_Some {A} (value : A -> N) total l t :
  (total <= U64_MAX)%N ->
  checked_sum_from value total l = Some t <->
  t = (total + sumN value l)%N /\ (total + sumN value l <= U64_MAX)%N.
Proof.
  revert total. induction l as [|a l IH]; intros total Ht; simpl.
  - rewrite N.add_0_r. split; [by intros [= ->]|]. by intros [-> _].
  - rewrite bind_Some. split.
    + intros (x & [-> Hx]%checked_add_Some & H). apply IH in H as [-> ?]; [|done]. lia.
    + intros [-> H]. exists (total + value a)%N. rewrite checked_add_Some.
      split; [lia|]. rewrite IH by lia. lia.
Qed.

(** The sum is exact, and [None] exactly when the true sum overflows. *)
Lemma checked_sum_Some {A} (value : A -> N) l t :
  checked_sum value l = Some t <-> t = sumN value l /\ (sumN value l <= U64_MAX)%N.
Proof. unfold checked_sum. rewrite checked_sum_from_Some by (unfold U64_MAX; lia). done. Qed.
