(* ===== verification/Context.v ===== *)
(** * Block context, costs and fees (crates/kernel/src/context.rs) *)

From S2P Require Import Prelude Canonical Primitive.

#[local] Open Scope N_scope.

(* [context.rs:92-97] Cost *)
Record Cost := Cost_new { Cost_base : N; Cost_slots : N; Cost_proofs : N }.

(* [context.rs:137-143] Cost::checked_add *)
Definition Cost_checked_add (self other : Cost) : option Cost :=
  base ← checked_add (Cost_base self) (Cost_base other);
  slots ← checked_add (Cost_slots self) (Cost_slots other);
  proofs ← checked_add (Cost_proofs self) (Cost_proofs other);
  Some (Cost_new base slots proofs).

(* [context.rs:147-149] Cost::fits *)
Definition Cost_fits (self budget : Cost) : bool :=
  (Cost_base self <=? Cost_base budget) && (Cost_slots self <=? Cost_slots budget)
  && (Cost_proofs self <=? Cost_proofs budget).

(* [context.rs:158-164] Fees *)
Record Fees := Fees_new {
  Fees_base : N;
  Fees_slot : N;
  Fees_proof : N;
  Fees_lifetime : N;
}.

(* [context.rs:212-217] Fees::charge *)
Definition Fees_charge (self : Fees) (cost : Cost) : option N :=
  base ← checked_mul (Fees_base self) (Cost_base cost);
  slots ← checked_mul (Fees_slot self) (Cost_slots cost);
  proofs ← checked_mul (Fees_proof self) (Cost_proofs cost);
  sum ← checked_add base slots;
  checked_add sum proofs.

Definition Fees_wf (f : Fees) : bool :=
  let '(Fees_new base slot proof lifetime) := f in
  wf u64 base && wf u64 slot && wf u64 proof && wf u64 lifetime.

(* [context.rs:227-233] Fees::encode_to *)
Definition Fees_encode_to (f : Fees) : bytes :=
  let '(Fees_new base slot proof lifetime) := f in
  encode_envelope tag_FEES ++ encode_to u64 base ++ encode_to u64 slot ++
  encode_to u64 proof ++ encode_to u64 lifetime.

(* [context.rs:236-245] Fees::decode *)
Definition Fees_decode (buf : bytes) : decoded Fees :=
  let? consumed := decode_envelope buf tag_FEES in
  let? '(base, consumed) := decode_field u64 buf consumed in
  let? '(slot, consumed) := decode_field u64 buf consumed in
  let? '(proof, consumed) := decode_field u64 buf consumed in
  let? '(lifetime, consumed) := decode_field u64 buf consumed in
  Ok (Fees_new base slot proof lifetime, consumed).

(* [context.rs:220-225] Fees *)
Definition Fees_codec : Codec Fees := {|
  MAX_ENCODED_SIZE := ENVELOPE_SIZE + 4 * MAX_ENCODED_SIZE u64;
  encoded_size := fun _ => (ENVELOPE_SIZE + 4 * MAX_ENCODED_SIZE u64)%nat;
  encode_to := Fees_encode_to;
  decode := Fees_decode;
  wf := Fees_wf |}.

(** A [BlockHeight] is the [u64] it wraps. *)
Notation BlockHeight := N.

(* [context.rs:272-275] BlockHeight::encode_to *)
Definition BlockHeight_encode_to (h : BlockHeight) : bytes :=
  encode_envelope tag_BLOCK_HEIGHT ++ encode_to u64 h.

(* [context.rs:278-284] BlockHeight::decode *)
Definition BlockHeight_decode (buf : bytes) : decoded BlockHeight :=
  let? consumed := decode_envelope buf tag_BLOCK_HEIGHT in
  let? '(value, consumed) := decode_field u64 buf consumed in
  Ok (value, consumed).

(* [context.rs:265-270] BlockHeight *)
Definition BlockHeight_codec : Codec BlockHeight := {|
  MAX_ENCODED_SIZE := ENVELOPE_SIZE + MAX_ENCODED_SIZE u64;
  encoded_size := fun _ => (ENVELOPE_SIZE + MAX_ENCODED_SIZE u64)%nat;
  encode_to := BlockHeight_encode_to;
  decode := BlockHeight_decode;
  wf := fun h => wf u64 h |}.

(* [context.rs:55-80] BlockHash *)
Record BlockHash := BlockHash_from_bytes { BlockHash_bytes : bytes }.

(* [context.rs:286-293] Context *)
Record Context := Context_with_fees {
  Context_network : NetworkId;
  Context_block_height : BlockHeight;
  Context_previous_hash : BlockHash;
  Context_fees : Fees;
}.

(* [context.rs:352-356] Context::fee *)
Definition Context_fee (self : Context) (cost : Cost) : option N :=
  Fees_charge (Context_fees self) cost.

#[export] Instance Cost_eq_dec : EqDecision Cost.
Proof. solve_decision. Defined.
#[export] Instance Fees_eq_dec : EqDecision Fees.
Proof. solve_decision. Defined.

(** ** Codec laws *)

#[export] Instance Fees_lawful : Lawful Fees_codec.
Proof. codec_lawful Fees_codec Fees_encode_to Fees_decode Fees_wf. Qed.
#[export] Instance Fees_fixed : FixedSize Fees_codec.
Proof. codec_fixed Fees_codec Fees_encode_to Fees_wf. Qed.

#[export] Instance BlockHeight_lawful : Lawful BlockHeight_codec.
Proof.
  split; unfold BlockHeight_codec; cbn [MAX_ENCODED_SIZE encoded_size encode_to decode wf];
    unfold BlockHeight_encode_to.
  - intros. codec_sum.
  - intros. codec_sum.
  - intros x rest H. codec_run_encode BlockHeight_encode_to BlockHeight_decode.
    do 2 f_equal; codec_sum.
  - intros buf x n H. codec_run_decode BlockHeight_decode H.
    split_and!; [done|eexists; by rewrite <- app_assoc|codec_sum].
Qed.
#[export] Instance BlockHeight_fixed : FixedSize BlockHeight_codec.
Proof.
  intros x H. unfold BlockHeight_codec in *; cbn [encode_to MAX_ENCODED_SIZE wf] in *.
  unfold BlockHeight_encode_to. codec_sum.
Qed.

(** ** Fees *)

(** A charge is the exact linear price; [None] is exactly an overflow. *)
Definition Fees_price (f : Fees) (c : Cost) : N :=
  Fees_base f * Cost_base c + Fees_slot f * Cost_slots c + Fees_proof f * Cost_proofs c.

Lemma Fees_charge_Some f c v :
  Fees_charge f c = Some v <-> v = Fees_price f c /\ Fees_price f c <= U64_MAX.
Proof.
  unfold Fees_charge, Fees_price.
  split.
  - intros H. repeat (apply bind_Some in H as (? & ?%checked_mul_Some & H)).
    apply bind_Some in H as (? & ?%checked_add_Some & H%checked_add_Some).
    destruct_and!; subst. lia.
  - intros [-> H]. unfold checked_mul, checked_add, u64_ok.
    repeat (match goal with |- context [(?a <=? ?b)%N] =>
      destruct (N.leb_spec a b); [simpl|exfalso; lia] end). done.
Qed.

(** Cheaper costs charge less, and never overflow where a dearer one did not. *)
Lemma Fees_charge_mono f c d v :
  Fees_charge f d = Some v -> Cost_fits c d = true ->
  exists u, Fees_charge f c = Some u /\ u <= v.
Proof.
  intros [-> Hv]%Fees_charge_Some Hfit. unfold Cost_fits in Hfit. bool_simpl.
  assert (Fees_price f c <= Fees_price f d) by (unfold Fees_price; nia).
  exists (Fees_price f c). split; [|done]. apply Fees_charge_Some. lia.
Qed.

Lemma Cost_fits_refl c : Cost_fits c c = true.
Proof. unfold Cost_fits. by rewrite !N.leb_refl. Qed.
