(* ===== verification/Auth.v ===== *)
(** * Authorizations and the verifier interface

    crates/kernel/src/tx/auth.rs and verifier.rs.  Signature checking itself is
    a parameter of the kernel in the source, the [SigVerifier] trait; here a
    record of operations passed to the transitions. *)

From S2P Require Import Prelude Canonical Primitive.

Definition WebAuthnData_codec : Codec (list N) := List_ u8 MAX_WEBAUTHN_DATA_LENGTH.

(* [tx/auth.rs:31-31] NATIVE_TAG *)
Definition NATIVE_TAG : N := 0.
(* [tx/auth.rs:32-32] WEBAUTHN_TAG *)
Definition WEBAUTHN_TAG : N := 1.

(* [tx/auth.rs:40-66] WebAuthnAssertion *)
Record WebAuthnAssertion := WebAuthnAssertion_new {
  wa_r : bytes;
  wa_s : bytes;
  wa_pub_key_x : bytes;
  wa_pub_key_y : bytes;
  wa_webauthn_data : list N;
}.

Definition WebAuthnAssertion_wf (a : WebAuthnAssertion) : bool :=
  let '(WebAuthnAssertion_new r s x y data) := a in
  wf (array P256_COORDINATE_LENGTH) r && wf (array P256_COORDINATE_LENGTH) s &&
  wf (array P256_COORDINATE_LENGTH) x && wf (array P256_COORDINATE_LENGTH) y &&
  wf WebAuthnData_codec data.

(* [tx/auth.rs:113-120] WebAuthnAssertion::encode_to *)
Definition WebAuthnAssertion_encode_to (a : WebAuthnAssertion) : bytes :=
  let '(WebAuthnAssertion_new r s x y data) := a in
  encode_envelope tag_WEBAUTHN_ASSERTION ++
  encode_to (array P256_COORDINATE_LENGTH) r ++ encode_to (array P256_COORDINATE_LENGTH) s ++
  encode_to (array P256_COORDINATE_LENGTH) x ++ encode_to (array P256_COORDINATE_LENGTH) y ++
  encode_to WebAuthnData_codec data.

(* [tx/auth.rs:123-136] WebAuthnAssertion::decode *)
Definition WebAuthnAssertion_decode (buf : bytes) : decoded WebAuthnAssertion :=
  let? consumed := decode_envelope buf tag_WEBAUTHN_ASSERTION in
  let? '(r, consumed) := decode_field (array P256_COORDINATE_LENGTH) buf consumed in
  let? '(s, consumed) := decode_field (array P256_COORDINATE_LENGTH) buf consumed in
  let? '(x, consumed) := decode_field (array P256_COORDINATE_LENGTH) buf consumed in
  let? '(y, consumed) := decode_field (array P256_COORDINATE_LENGTH) buf consumed in
  let? '(data, consumed) := decode_field WebAuthnData_codec buf consumed in
  Ok (WebAuthnAssertion_new r s x y data, consumed).

(* [tx/auth.rs:99-111] WebAuthnAssertion *)
Definition WebAuthnAssertion_codec : Codec WebAuthnAssertion := {|
  MAX_ENCODED_SIZE := ENVELOPE_SIZE + 4 * MAX_ENCODED_SIZE (array P256_COORDINATE_LENGTH)
                      + MAX_ENCODED_SIZE WebAuthnData_codec;
  encoded_size := fun '(WebAuthnAssertion_new r s x y data) => (ENVELOPE_SIZE
    + encoded_size (array P256_COORDINATE_LENGTH) r
    + encoded_size (array P256_COORDINATE_LENGTH) s
    + encoded_size (array P256_COORDINATE_LENGTH) x
    + encoded_size (array P256_COORDINATE_LENGTH) y
    + encoded_size WebAuthnData_codec data)%nat;
  encode_to := WebAuthnAssertion_encode_to;
  decode := WebAuthnAssertion_decode;
  wf := WebAuthnAssertion_wf |}.

(* [tx/auth.rs:148-154] Auth *)
Inductive Auth :=
  | Native (sig : Sig)
  | WebAuthn (assertion : WebAuthnAssertion).

Definition Auth_wf (a : Auth) : bool :=
  match a with
  | Native sig => wf Sig_codec sig
  | WebAuthn assertion => wf WebAuthnAssertion_codec assertion
  end.

(* [tx/auth.rs:183-195] Auth::encode_to *)
Definition Auth_encode_to (a : Auth) : bytes :=
  match a with
  | Native sig =>
      encode_envelope tag_AUTH ++ encode_to u8 NATIVE_TAG ++ encode_to Sig_codec sig
  | WebAuthn assertion =>
      encode_envelope tag_AUTH ++ encode_to u8 WEBAUTHN_TAG ++
      encode_to WebAuthnAssertion_codec assertion
  end.

(* [tx/auth.rs:198-214] Auth::decode *)
Definition Auth_decode (buf : bytes) : decoded Auth :=
  let? consumed := decode_envelope buf tag_AUTH in
  let? '(variant, consumed) := decode_field u8 buf consumed in
  if (variant =? NATIVE_TAG)%N then
    let? '(sig, consumed) := decode_field Sig_codec buf consumed in
    Ok (Native sig, consumed)
  else if (variant =? WEBAUTHN_TAG)%N then
    let? '(assertion, consumed) := decode_field WebAuthnAssertion_codec buf consumed in
    Ok (WebAuthn assertion, consumed)
  else Err (InvalidTag variant).

(* [tx/auth.rs:170-181] Auth *)
Definition Auth_codec : Codec Auth := {|
  MAX_ENCODED_SIZE :=
    ENVELOPE_SIZE + MAX_ENCODED_SIZE u8 + MAX_ENCODED_SIZE WebAuthnAssertion_codec;
  encoded_size := fun a => (ENVELOPE_SIZE + MAX_ENCODED_SIZE u8 +
    match a with
    | Native sig => encoded_size Sig_codec sig
    | WebAuthn assertion => encoded_size WebAuthnAssertion_codec assertion
    end)%nat;
  encode_to := Auth_encode_to;
  decode := Auth_decode;
  wf := Auth_wf |}.

(* [tx/auth.rs:222-222] OWNER_TAG *)
Definition OWNER_TAG : N := 0.
(* [tx/auth.rs:223-223] SIGNER_TAG *)
Definition SIGNER_TAG : N := 1.

(* [tx/auth.rs:227-233] Authority *)
Inductive Authority := Owner | Signer.

(* [tx/auth.rs:236-243] Authority::tag *)
Definition Authority_tag (a : Authority) : N :=
  match a with Owner => OWNER_TAG | Signer => SIGNER_TAG end.

(* [tx/auth.rs:245-253] Authority::from_tag *)
Definition Authority_from_tag (tag : N) : option Authority :=
  if (tag =? OWNER_TAG)%N then Some Owner
  else if (tag =? SIGNER_TAG)%N then Some Signer else None.

(* [tx/auth.rs:256-275] Authority *)
Definition Authority_codec : Codec Authority := {|
  MAX_ENCODED_SIZE := MAX_ENCODED_SIZE u8;
  encoded_size := fun _ => MAX_ENCODED_SIZE u8;
  encode_to := fun a => encode_to u8 (Authority_tag a);
  decode := fun buf =>
    let? '(byte, consumed) := decode u8 buf in
    let? authority := ok_or (Authority_from_tag byte) (InvalidTag byte) in
    Ok (authority, consumed);
  wf := fun _ => true |}.

(* [tx/auth.rs:278-289] PartyAuth *)
Record PartyAuth := PartyAuth_new { PartyAuth_authority : Authority; PartyAuth_auth : Auth }.

(* [tx/auth.rs:315-319] PartyAuth::is_owner *)
Definition PartyAuth_is_owner (a : PartyAuth) : bool :=
  match PartyAuth_authority a with Owner => true | Signer => false end.

Definition PartyAuth_wf (a : PartyAuth) : bool :=
  let '(PartyAuth_new authority auth) := a in
  wf Authority_codec authority && wf Auth_codec auth.

(* [tx/auth.rs:330-334] PartyAuth::encode_to *)
Definition PartyAuth_encode_to (a : PartyAuth) : bytes :=
  let '(PartyAuth_new authority auth) := a in
  encode_envelope tag_PARTY_AUTH ++ encode_to Authority_codec authority ++
  encode_to Auth_codec auth.

(* [tx/auth.rs:337-344] PartyAuth::decode *)
Definition PartyAuth_decode (buf : bytes) : decoded PartyAuth :=
  let? consumed := decode_envelope buf tag_PARTY_AUTH in
  let? '(authority, consumed) := decode_field Authority_codec buf consumed in
  let? '(auth, consumed) := decode_field Auth_codec buf consumed in
  Ok (PartyAuth_new authority auth, consumed).

(* [tx/auth.rs:322-328] PartyAuth *)
Definition PartyAuth_codec : Codec PartyAuth := {|
  MAX_ENCODED_SIZE :=
    ENVELOPE_SIZE + MAX_ENCODED_SIZE Authority_codec + MAX_ENCODED_SIZE Auth_codec;
  encoded_size := fun '(PartyAuth_new authority auth) =>
    (ENVELOPE_SIZE + encoded_size Authority_codec authority + encoded_size Auth_codec auth)%nat;
  encode_to := PartyAuth_encode_to;
  decode := PartyAuth_decode;
  wf := PartyAuth_wf |}.

(** ** The verifier *)

(* [verifier.rs:41-59] SigVerifier *)
Record SigVerifier := mk_SigVerifier {
  verify_sig : Sig -> Key -> PayloadHash -> bool;
  verify_auth : Auth -> Key -> PayloadHash -> bool;
}.

(** The trait's default [verify_auth]: native signatures only. *)
(* [verifier.rs:41-59] SigVerifier::verify_auth *)
Definition SigVerifier_default (verify_sig : Sig -> Key -> PayloadHash -> bool) : SigVerifier := {|
  verify_sig := verify_sig;
  verify_auth := fun auth key hash =>
    match auth with
    | Native sig => verify_sig sig key hash
    | WebAuthn _ => false
    end |}.

#[export] Instance Authority_eq_dec : EqDecision Authority.
Proof. solve_decision. Defined.
#[export] Instance WebAuthnAssertion_eq_dec : EqDecision WebAuthnAssertion.
Proof. solve_decision. Defined.
#[export] Instance Auth_eq_dec : EqDecision Auth.
Proof. solve_decision. Defined.
#[export] Instance PartyAuth_eq_dec : EqDecision PartyAuth.
Proof. solve_decision. Defined.

(** ** Codec laws *)

#[export] Instance WebAuthnData_lawful : Lawful WebAuthnData_codec.
Proof. apply List_lawful, _. Qed.

#[export] Instance WebAuthnAssertion_lawful : Lawful WebAuthnAssertion_codec.
Proof.
  codec_lawful WebAuthnAssertion_codec WebAuthnAssertion_encode_to WebAuthnAssertion_decode
    WebAuthnAssertion_wf.
Qed.

Lemma Sig_max_le_WebAuthn :
  (MAX_ENCODED_SIZE Sig_codec <= MAX_ENCODED_SIZE WebAuthnAssertion_codec)%nat.
Proof. apply Nat.leb_le. vm_compute. reflexivity. Qed.

#[export] Instance Auth_lawful : Lawful Auth_codec.
Proof.
  pose proof Sig_max_le_WebAuthn. codec_lawful Auth_codec Auth_encode_to Auth_decode Auth_wf.
Qed.

#[export] Instance Authority_lawful : Lawful Authority_codec.
Proof.
  split; try done.
  - by intros [] rest _.
  - intros buf p n H. unfold Authority_codec in *; cbn [decode] in H. inv_ok. subst.
    apply (decode_sound (cd := u8)) in E as (_ & [rest ->] & ->).
    split; [done|]. split; [|done]. exists rest. cbn [encode_to].
    unfold Authority_from_tag in E0.
    destruct (N.eqb_spec a OWNER_TAG) as [->|]; [by simplify_eq|].
    destruct (N.eqb_spec a SIGNER_TAG) as [->|]; by simplify_eq.
Qed.
#[export] Instance Authority_fixed : FixedSize Authority_codec.
Proof. done. Qed.

#[export] Instance PartyAuth_lawful : Lawful PartyAuth_codec.
Proof. codec_lawful PartyAuth_codec PartyAuth_encode_to PartyAuth_decode PartyAuth_wf. Qed.
