(* ===== verification/Objects.v ===== *)
(** * Stored objects (crates/kernel/src/object.rs, tx/payout.rs, tx/proof.rs)

    Coins, party keys, edges with the value they close to, the payouts a close
    names and the set of close kinds an edge permits. *)

From S2P Require Import Prelude Xet Canonical Primitive Errors BoundedList Context Auth.

#[local] Open Scope N_scope.

(** ** Coins *)

(* [object.rs:37-81] Coin *)
Record Coin := Coin_issue {
  Coin_owner : Key;
  Coin_delegate : option Key;
  Coin_value : N;
}.

Definition Coin_wf (c : Coin) : bool :=
  let '(Coin_issue owner delegate value) := c in
  wf Key_codec owner && wf (Option_ Key_codec) delegate && wf u64 value.

(* [object.rs:93-98] Coin::encode_to *)
Definition Coin_encode_to (c : Coin) : bytes :=
  let '(Coin_issue owner delegate value) := c in
  encode_envelope tag_COIN ++ encode_to Key_codec owner ++
  encode_to (Option_ Key_codec) delegate ++ encode_to u64 value.

(* [object.rs:101-109] Coin::decode *)
Definition Coin_decode (buf : bytes) : decoded Coin :=
  let? consumed := decode_envelope buf tag_COIN in
  let? '(owner, consumed) := decode_field Key_codec buf consumed in
  let? '(delegate, consumed) := decode_field (Option_ Key_codec) buf consumed in
  let? '(value, consumed) := decode_field u64 buf consumed in
  Ok (Coin_issue owner delegate value, consumed).

(* [object.rs:83-91] Coin *)
Definition Coin_codec : Codec Coin := {|
  MAX_ENCODED_SIZE := ENVELOPE_SIZE + MAX_ENCODED_SIZE Key_codec
    + MAX_ENCODED_SIZE (Option_ Key_codec) + MAX_ENCODED_SIZE u64;
  encoded_size := fun '(Coin_issue _ delegate _) =>
    (ENVELOPE_SIZE + MAX_ENCODED_SIZE Key_codec + encoded_size (Option_ Key_codec) delegate
     + MAX_ENCODED_SIZE u64)%nat;
  encode_to := Coin_encode_to;
  decode := Coin_decode;
  wf := Coin_wf |}.

(** ** Payouts *)

(* [tx/payout.rs:22-27] Payout *)
Record Payout := Payout_delegated {
  Payout_owner : Key;
  Payout_delegate : option Key;
  Payout_value : N;
}.

(* [tx/payout.rs:65-69] Payout::new *)
Definition Payout_new (owner : Key) (value : N) : Payout := Payout_delegated owner None value.

(* [tx/payout.rs:105-109] Payout::coin *)
Definition Payout_coin (p : Payout) : Coin :=
  Coin_issue (Payout_owner p) (Payout_delegate p) (Payout_value p).

Definition Payout_wf (p : Payout) : bool :=
  let '(Payout_delegated owner delegate value) := p in
  wf Key_codec owner && wf (Option_ Key_codec) delegate && wf u64 value.

(* [tx/payout.rs:39-44] Payout::encode_to *)
Definition Payout_encode_to (p : Payout) : bytes :=
  let '(Payout_delegated owner delegate value) := p in
  encode_envelope tag_PAYOUT ++ encode_to Key_codec owner ++
  encode_to (Option_ Key_codec) delegate ++ encode_to u64 value.

(* [tx/payout.rs:47-62] Payout::decode *)
Definition Payout_decode (buf : bytes) : decoded Payout :=
  let? consumed := decode_envelope buf tag_PAYOUT in
  let? '(owner, consumed) := decode_field Key_codec buf consumed in
  let? '(delegate, consumed) := decode_field (Option_ Key_codec) buf consumed in
  let? '(value, consumed) := decode_field u64 buf consumed in
  Ok (Payout_delegated owner delegate value, consumed).

(* [tx/payout.rs:29-37] Payout *)
Definition Payout_codec : Codec Payout := {|
  MAX_ENCODED_SIZE := ENVELOPE_SIZE + MAX_ENCODED_SIZE Key_codec
    + MAX_ENCODED_SIZE (Option_ Key_codec) + MAX_ENCODED_SIZE u64;
  encoded_size := fun '(Payout_delegated _ delegate _) =>
    (ENVELOPE_SIZE + MAX_ENCODED_SIZE Key_codec + encoded_size (Option_ Key_codec) delegate
     + MAX_ENCODED_SIZE u64)%nat;
  encode_to := Payout_encode_to;
  decode := Payout_decode;
  wf := Payout_wf |}.

(* [tx/payout.rs:99-103] Payout::id *)
Definition Payout_id `{Blake3} (p : Payout) (edge : EdgeId) (index : N) : CoinId :=
  CoinId_payout edge index (Payout_owner p).

(* [tx/payout.rs:111-113] Payout::close_coin *)
Definition Payout_close_coin `{Blake3} (p : Payout) (edge : EdgeId) (index : N) : CoinId * Coin :=
  (Payout_id p edge index, Payout_coin p).

(** ** Parties *)

(* [object.rs:119-135] PartyKeys *)
Record PartyKeys := PartyKeys_new {
  PartyKeys_owner : Key;
  PartyKeys_signer : Key;
  PartyKeys_payout_delegate : option Key;
}.

(* [object.rs:137-142] PartyKeys::sole *)
Definition PartyKeys_sole (key : Key) : PartyKeys := PartyKeys_new key key None.

(* [object.rs:162-170] PartyKeys::key *)
Definition PartyKeys_key (self : PartyKeys) (authority : Authority) : Key :=
  match authority with
  | Owner => PartyKeys_owner self
  | Signer => PartyKeys_signer self
  end.

#[export] Instance Coin_eq_dec : EqDecision Coin.
Proof. solve_decision. Defined.
#[export] Instance Payout_eq_dec : EqDecision Payout.
Proof. solve_decision. Defined.
#[export] Instance PartyKeys_eq_dec : EqDecision PartyKeys.
Proof. solve_decision. Defined.

(* [object.rs:172-183] PartyKeys::authority_of *)
Definition PartyKeys_authority_of (self : PartyKeys) (key : Key) : option Authority :=
  if bool_decide (key = PartyKeys_owner self) then Some Owner
  else if bool_decide (key = PartyKeys_signer self) then Some Signer
  else None.

(* [object.rs:185-200] PartyKeys::payout *)
Definition PartyKeys_payout (self : PartyKeys) (value : N) (owner_signed : bool) : Payout :=
  let delegate := if owner_signed then None else PartyKeys_payout_delegate self in
  Payout_delegated (PartyKeys_owner self) delegate value.

(* [object.rs:202-207] PartyKeys::is_destination *)
Definition PartyKeys_is_destination (self : PartyKeys) (payout : Payout) (owner_signed : bool)
    : bool :=
  bool_decide (payout = PartyKeys_payout self (Payout_value payout) owner_signed).

Definition PartyKeys_wf (k : PartyKeys) : bool :=
  let '(PartyKeys_new owner signer delegate) := k in
  wf Key_codec owner && wf Key_codec signer && wf (Option_ Key_codec) delegate.

(* [object.rs:218-222] PartyKeys::encode_to *)
Definition PartyKeys_encode_to (k : PartyKeys) : bytes :=
  let '(PartyKeys_new owner signer delegate) := k in
  encode_to Key_codec owner ++ encode_to Key_codec signer ++
  encode_to (Option_ Key_codec) delegate.

(* [object.rs:225-233] PartyKeys::decode *)
Definition PartyKeys_decode (buf : bytes) : decoded PartyKeys :=
  let? '(owner, consumed) := decode_field Key_codec buf 0 in
  let? '(signer, consumed) := decode_field Key_codec buf consumed in
  let? '(delegate, consumed) := decode_field (Option_ Key_codec) buf consumed in
  Ok (PartyKeys_new owner signer delegate, consumed).

(* [object.rs:210-216] PartyKeys *)
Definition PartyKeys_codec : Codec PartyKeys := {|
  MAX_ENCODED_SIZE := 2 * MAX_ENCODED_SIZE Key_codec + MAX_ENCODED_SIZE (Option_ Key_codec);
  encoded_size := fun '(PartyKeys_new _ _ delegate) =>
    (2 * MAX_ENCODED_SIZE Key_codec + encoded_size (Option_ Key_codec) delegate)%nat;
  encode_to := PartyKeys_encode_to;
  decode := PartyKeys_decode;
  wf := PartyKeys_wf |}.

(* [object.rs:235-259] Parties *)
Record Parties := Parties_new { Parties_maker : PartyKeys; Parties_taker : PartyKeys }.

(* [object.rs:261-268] Parties::is_destination *)
Definition Parties_is_destination (self : Parties) (payout : Payout) (owner_signed : bool) : bool :=
  PartyKeys_is_destination (Parties_maker self) payout owner_signed
  || PartyKeys_is_destination (Parties_taker self) payout owner_signed.

(* [primitive.rs:482-494] Party::keys_of *)
Definition Party_keys_of (party : Party) (parties : Parties) : PartyKeys :=
  match party with Maker => Parties_maker parties | Taker => Parties_taker parties end.

Definition Parties_wf (p : Parties) : bool :=
  let '(Parties_new maker taker) := p in wf PartyKeys_codec maker && wf PartyKeys_codec taker.

(* [object.rs:278-282] Parties::encode_to *)
Definition Parties_encode_to (p : Parties) : bytes :=
  let '(Parties_new maker taker) := p in
  encode_envelope tag_PARTIES ++ encode_to PartyKeys_codec maker ++
  encode_to PartyKeys_codec taker.

(* [object.rs:285-292] Parties::decode *)
Definition Parties_decode (buf : bytes) : decoded Parties :=
  let? consumed := decode_envelope buf tag_PARTIES in
  let? '(maker, consumed) := decode_field PartyKeys_codec buf consumed in
  let? '(taker, consumed) := decode_field PartyKeys_codec buf consumed in
  Ok (Parties_new maker taker, consumed).

(* [object.rs:271-276] Parties *)
Definition Parties_codec : Codec Parties := {|
  MAX_ENCODED_SIZE := ENVELOPE_SIZE + 2 * MAX_ENCODED_SIZE PartyKeys_codec;
  encoded_size := fun '(Parties_new maker taker) =>
    (ENVELOPE_SIZE + encoded_size PartyKeys_codec maker + encoded_size PartyKeys_codec taker)%nat;
  encode_to := Parties_encode_to;
  decode := Parties_decode;
  wf := Parties_wf |}.

(** ** Close kinds *)

(* [tx/proof.rs:32-32] MUTUAL_TAG *)
Definition MUTUAL_TAG : N := 0.
(* [tx/proof.rs:33-33] TIMEOUT_TAG *)
Definition TIMEOUT_TAG : N := 1.
(* [tx/proof.rs:34-34] FREEZE_TAG *)
Definition FREEZE_TAG : N := 3.
(* [tx/proof.rs:35-35] ADJUDICATED_TAG *)
Definition ADJUDICATED_TAG : N := 4.

(* [tx/proof.rs:42-57] CloseKind *)
Inductive CloseKind := Mutual | Timeout | Freeze | Adjudicated.

(* [tx/proof.rs:65-74] CloseKind::tag *)
Definition CloseKind_tag (k : CloseKind) : N :=
  match k with
  | Mutual => MUTUAL_TAG
  | Timeout => TIMEOUT_TAG
  | Freeze => FREEZE_TAG
  | Adjudicated => ADJUDICATED_TAG
  end.

(* [tx/proof.rs:76-81] CloseKind::proofs *)
Definition CloseKind_proofs (k : CloseKind) : N :=
  match k with Timeout | Adjudicated => 1 | Mutual | Freeze => 2 end.

(* [tx/proof.rs:83-85] CloseKind::bit *)
Definition CloseKind_bit (k : CloseKind) : N := N.shiftl 1 (CloseKind_tag k).

(* [tx/proof.rs:96-97] CloseKindSet *)
Record CloseKindSet := mk_CloseKindSet { CloseKindSet_bits : N }.

#[export] Instance CloseKind_eq_dec : EqDecision CloseKind.
Proof. solve_decision. Defined.
#[export] Instance CloseKindSet_eq_dec : EqDecision CloseKindSet.
Proof. solve_decision. Defined.

(* [tx/proof.rs:147-151] CloseKindSet::empty *)
Definition CloseKindSet_empty : CloseKindSet := mk_CloseKindSet 0.

(* [tx/proof.rs:153-157] CloseKindSet::with *)
Definition CloseKindSet_with (self : CloseKindSet) (kind : CloseKind) : CloseKindSet :=
  mk_CloseKindSet (N.lor (CloseKindSet_bits self) (CloseKind_bit kind)).

(* [tx/proof.rs:159-163] CloseKindSet::contains *)
Definition CloseKindSet_contains (self : CloseKindSet) (kind : CloseKind) : bool :=
  negb (N.land (CloseKindSet_bits self) (CloseKind_bit kind) =? 0).

(* [tx/proof.rs:100-103] CloseKindSet::BASIC *)
Definition CloseKindSet_BASIC : CloseKindSet :=
  CloseKindSet_with (CloseKindSet_with CloseKindSet_empty Mutual) Timeout.

(* [tx/proof.rs:105-108] CloseKindSet::WORK_STAKE_BOND *)
Definition CloseKindSet_WORK_STAKE_BOND : CloseKindSet :=
  CloseKindSet_with CloseKindSet_empty Timeout.

(* [tx/proof.rs:110-114] CloseKindSet::WORK_PAYMENT *)
Definition CloseKindSet_WORK_PAYMENT : CloseKindSet :=
  CloseKindSet_with (CloseKindSet_with CloseKindSet_empty Freeze) Adjudicated.

(* [tx/proof.rs:116-120] CloseKindSet::PERMITTED *)
Definition CloseKindSet_PERMITTED : list CloseKindSet :=
  [CloseKindSet_BASIC; CloseKindSet_WORK_STAKE_BOND; CloseKindSet_WORK_PAYMENT].

(* [tx/proof.rs:178-196] CloseKindSet::decode *)
Definition CloseKindSet_decode (buf : bytes) : decoded CloseKindSet :=
  let? '(bits, consumed) := decode_field u8 buf 0 in
  let set := mk_CloseKindSet bits in
  if negb (bool_decide (set ∈ CloseKindSet_PERMITTED)) then Err (InvalidTag bits)
  else Ok (set, consumed).

(* [tx/proof.rs:166-176] CloseKindSet *)
Definition CloseKindSet_codec : Codec CloseKindSet := {|
  MAX_ENCODED_SIZE := MAX_ENCODED_SIZE u8;
  encoded_size := fun _ => MAX_ENCODED_SIZE u8;
  encode_to := fun s => encode_to u8 (CloseKindSet_bits s);
  decode := CloseKindSet_decode;
  wf := fun s => bool_decide (s ∈ CloseKindSet_PERMITTED) |}.

(** ** Edges *)

(* [object.rs:453-476] EdgeValues *)
Record EdgeValues := EdgeValues_new {
  EdgeValues_value : N;
  EdgeValues_reserve : N;
  EdgeValues_close_fees : Fees;
}.

(* [object.rs:496-506] EdgeValues::close_value *)
Definition EdgeValues_close_value (self : EdgeValues) (close_cost : Cost) : option N :=
  fee ← Fees_charge (EdgeValues_close_fees self) close_cost;
  surplus ← checked_sub (EdgeValues_reserve self) fee;
  checked_add (EdgeValues_value self) surplus.

(* [object.rs:294-325] Edge *)
Record Edge := Edge_new {
  Edge_value : N;
  Edge_reserve : N;
  Edge_close_fees : Fees;
  Edge_timeout : BlockHeight;
  Edge_parties : Parties;
  Edge_terms : TermsHash;
  Edge_allowed : CloseKindSet;
}.

(** The error is always [FundingInsufficient]: [None]. *)
(* [object.rs:327-351] Edge::open *)
Definition Edge_open (total : N) (parties : Parties) (terms : TermsHash)
    (debits : N * N * N * Fees) (timeout : BlockHeight) (allowed : CloseKindSet) : option Edge :=
  let '(open_fee, lifetime_fee, reserve, close_fees) := debits in
  value ← (after_open_fee ← checked_sub total open_fee;
           after_fee ← checked_sub after_open_fee lifetime_fee;
           checked_sub after_fee reserve);
  Some (Edge_new value reserve close_fees timeout parties terms allowed).

(* [object.rs:384-398] Edge::values *)
Definition Edge_values (self : Edge) : EdgeValues :=
  EdgeValues_new (Edge_value self) (Edge_reserve self) (Edge_close_fees self).

(* [object.rs:380-382] Edge::close_value *)
Definition Edge_close_value (self : Edge) (close_cost : Cost) : option N :=
  EdgeValues_close_value (Edge_values self) close_cost.

(* [object.rs:400-402] Edge::total *)
Definition Edge_total (coins : list (CoinId * Coin)) : option N :=
  checked_sum (fun c => Coin_value c.2) coins.

(* [object.rs:353-378] Edge::closes *)
Definition Edge_closes (self : Edge) (coins : list (CoinId * Coin)) (close_cost : Cost)
    : result N InvalidCloseReason :=
  let? expected := ok_or (Edge_close_value self close_cost) Close_ReserveTooSmall in
  match Edge_total coins with
  | None => Err PayoutOverflow
  | Some total => if negb (total =? expected) then Err ValueMismatch else Ok expected
  end.

(* [object.rs:446-450] Edge::allows *)
Definition Edge_allows (self : Edge) (kind : CloseKind) : bool :=
  CloseKindSet_contains (Edge_allowed self) kind.

Definition Edge_wf (e : Edge) : bool :=
  let '(Edge_new value reserve close_fees timeout parties terms allowed) := e in
  wf u64 value && wf u64 reserve && wf Fees_codec close_fees && wf BlockHeight_codec timeout &&
  wf Parties_codec parties && wf TermsHash_codec terms && wf CloseKindSet_codec allowed.

(* [object.rs:522-531] Edge::encode_to *)
Definition Edge_encode_to (e : Edge) : bytes :=
  let '(Edge_new value reserve close_fees timeout parties terms allowed) := e in
  encode_envelope tag_EDGE ++ encode_to u64 value ++ encode_to u64 reserve ++
  encode_to Fees_codec close_fees ++ encode_to BlockHeight_codec timeout ++
  encode_to Parties_codec parties ++ encode_to TermsHash_codec terms ++
  encode_to CloseKindSet_codec allowed.

(* [object.rs:534-549] Edge::decode *)
Definition Edge_decode (buf : bytes) : decoded Edge :=
  let? consumed := decode_envelope buf tag_EDGE in
  let? '(value, consumed) := decode_field u64 buf consumed in
  let? '(reserve, consumed) := decode_field u64 buf consumed in
  let? '(close_fees, consumed) := decode_field Fees_codec buf consumed in
  let? '(timeout, consumed) := decode_field BlockHeight_codec buf consumed in
  let? '(parties, consumed) := decode_field Parties_codec buf consumed in
  let? '(terms, consumed) := decode_field TermsHash_codec buf consumed in
  let? '(allowed, consumed) := decode_field CloseKindSet_codec buf consumed in
  Ok (Edge_new value reserve close_fees timeout parties terms allowed, consumed).

Definition Edge_MAX_ENCODED_SIZE : nat :=
  ENVELOPE_SIZE + 2 * MAX_ENCODED_SIZE u64 + MAX_ENCODED_SIZE Fees_codec
  + MAX_ENCODED_SIZE BlockHeight_codec + MAX_ENCODED_SIZE Parties_codec
  + MAX_ENCODED_SIZE TermsHash_codec + MAX_ENCODED_SIZE CloseKindSet_codec.

(* [object.rs:509-520] Edge *)
Definition Edge_codec : Codec Edge := {|
  MAX_ENCODED_SIZE := Edge_MAX_ENCODED_SIZE;
  encoded_size := fun '(Edge_new _ _ _ _ parties _ _) =>
    (Edge_MAX_ENCODED_SIZE - MAX_ENCODED_SIZE Parties_codec
     + encoded_size Parties_codec parties)%nat;
  encode_to := Edge_encode_to;
  decode := Edge_decode;
  wf := Edge_wf |}.

(* [object.rs:551-575] Genesis *)
Record Genesis := mk_Genesis { Genesis_id : CoinId; Genesis_owner : Key; Genesis_value : N }.

Definition Genesis_coin (g : Genesis) : Coin :=
  Coin_issue (Genesis_owner g) None (Genesis_value g).

#[export] Instance Parties_eq_dec : EqDecision Parties.
Proof. solve_decision. Defined.
#[export] Instance EdgeValues_eq_dec : EqDecision EdgeValues.
Proof. solve_decision. Defined.
#[export] Instance Edge_eq_dec : EqDecision Edge.
Proof. solve_decision. Defined.

(** ** Codec laws *)

#[export] Instance Coin_lawful : Lawful Coin_codec.
Proof. codec_lawful Coin_codec Coin_encode_to Coin_decode Coin_wf. Qed.
#[export] Instance Payout_lawful : Lawful Payout_codec.
Proof. codec_lawful Payout_codec Payout_encode_to Payout_decode Payout_wf. Qed.
#[export] Instance PartyKeys_lawful : Lawful PartyKeys_codec.
Proof. codec_lawful PartyKeys_codec PartyKeys_encode_to PartyKeys_decode PartyKeys_wf. Qed.
#[export] Instance Parties_lawful : Lawful Parties_codec.
Proof. codec_lawful Parties_codec Parties_encode_to Parties_decode Parties_wf. Qed.

Lemma CloseKindSet_permitted_u8 s :
  s ∈ CloseKindSet_PERMITTED -> wf u8 (CloseKindSet_bits s) = true.
Proof.
  unfold CloseKindSet_PERMITTED. rewrite !elem_of_cons, elem_of_nil.
  by intros [-> | [-> | [-> | []]]].
Qed.

#[export] Instance CloseKindSet_lawful : Lawful CloseKindSet_codec.
Proof.
  split; try done.
  - intros s rest H. unfold CloseKindSet_codec in *; cbn [encode_to decode wf] in *.
    pose proof (CloseKindSet_permitted_u8 s (proj1 (bool_decide_eq_true _) H)).
    unfold CloseKindSet_decode.
    destruct (decode_field_encode u8 _ 0 (CloseKindSet_bits s) rest (at_offset_start _))
      as [-> _]; [done|].
    simpl. destruct s as [b]. simpl in *. by rewrite H.
  - intros buf s n H. unfold CloseKindSet_codec in *; cbn [encode_to decode wf] in *.
    codec_run_decode CloseKindSet_decode H. apply negb_false_iff in G.
    split_and!; [done|by eexists|done].
Qed.
#[export] Instance CloseKindSet_fixed : FixedSize CloseKindSet_codec.
Proof. done. Qed.

#[export] Instance Edge_lawful : Lawful Edge_codec.
Proof.
  assert (Edge_MAX_ENCODED_SIZE = ENVELOPE_SIZE + 2 * MAX_ENCODED_SIZE u64
    + MAX_ENCODED_SIZE Fees_codec + MAX_ENCODED_SIZE BlockHeight_codec
    + MAX_ENCODED_SIZE Parties_codec + MAX_ENCODED_SIZE TermsHash_codec
    + MAX_ENCODED_SIZE CloseKindSet_codec)%nat by done.
  codec_lawful Edge_codec Edge_encode_to Edge_decode Edge_wf.
Qed.

(** ** Arithmetic of edges *)

(** An opened edge holds exactly what its funding paid in, less the two fees. *)
Lemma Edge_open_Some total parties terms open_fee lifetime_fee reserve fees timeout allowed e :
  Edge_open total parties terms (open_fee, lifetime_fee, reserve, fees) timeout allowed = Some e <->
  open_fee + lifetime_fee + reserve <= total /\
  e = Edge_new (total - open_fee - lifetime_fee - reserve) reserve fees timeout parties terms
        allowed.
Proof.
  unfold Edge_open. rewrite bind_Some. split.
  - intros (v & H & [= <-]).
    apply bind_Some in H as (a & [-> Ha]%checked_sub_Some & H).
    apply bind_Some in H as (b & [-> Hb]%checked_sub_Some & [-> Hc]%checked_sub_Some).
    split; [lia|done].
  - intros [Hle ->]. eexists. split; [|done]. unfold checked_sub.
    destruct (N.leb_spec open_fee total); [|lia]. cbn [mbind option_bind].
    destruct (N.leb_spec lifetime_fee (total - open_fee)); [|lia]. cbn [mbind option_bind].
    destruct (N.leb_spec reserve (total - open_fee - lifetime_fee)); [done|lia].
Qed.

(** A close pays the edge's whole holding less the fee its cost charges. *)
Lemma EdgeValues_close_value_Some ev cost v :
  EdgeValues_close_value ev cost = Some v <->
  exists fee, Fees_charge (EdgeValues_close_fees ev) cost = Some fee /\
    fee <= EdgeValues_reserve ev /\
    v + fee = EdgeValues_value ev + EdgeValues_reserve ev /\ v <= U64_MAX.
Proof.
  unfold EdgeValues_close_value. split.
  - intros H. apply bind_Some in H as (fee & Hf & H).
    apply bind_Some in H as (s & [-> Hs]%checked_sub_Some & [-> Hv]%checked_add_Some).
    exists fee. split_and!; [done|done|lia|lia].
  - intros (fee & -> & Hle & Hv & Hmax). simpl.
    unfold checked_sub. destruct (N.leb_spec fee (EdgeValues_reserve ev)); [|lia]. simpl.
    apply checked_add_Some. lia.
Qed.

Lemma Edge_close_value_Some e cost v :
  Edge_close_value e cost = Some v <->
  exists fee, Fees_charge (Edge_close_fees e) cost = Some fee /\
    fee <= Edge_reserve e /\ v + fee = Edge_value e + Edge_reserve e /\ v <= U64_MAX.
Proof. apply EdgeValues_close_value_Some. Qed.

(** An accepted close issues exactly what the edge holds, less the close fee. *)
Lemma Edge_closes_Ok e coins cost v :
  Edge_closes e coins cost = Ok v <->
  v = sumN (fun c => Coin_value c.2) coins /\ v <= U64_MAX /\
  exists fee, Fees_charge (Edge_close_fees e) cost = Some fee /\ fee <= Edge_reserve e /\
    v + fee = Edge_value e + Edge_reserve e.
Proof.
  unfold Edge_closes. split.
  - intros H. inv_ok. apply Edge_close_value_Some in E as (fee & Hf & Hr & Hv & Hm).
    destruct (Edge_total coins) as [t|] eqn:Ht; [|done].
    apply checked_sum_Some in Ht as [-> _]. inv_ok. bool_simpl. subst. eauto 6.
  - intros (-> & Hm & fee & Hf & Hr & Hv).
    assert (Edge_close_value e cost = Some (sumN (fun c => Coin_value c.2) coins)) as ->
      by (apply Edge_close_value_Some; eauto).
    assert (Edge_total coins = Some (sumN (fun c => Coin_value c.2) coins)) as ->
      by (by apply checked_sum_Some).
    cbn [ok_or rbind]. by rewrite N.eqb_refl.
Qed.

(** [with] adds exactly one kind. *)
Lemma CloseKindSet_contains_with s k k' :
  CloseKindSet_contains (CloseKindSet_with s k) k' =
  CloseKindSet_contains s k' || bool_decide (k = k').
Proof.
  unfold CloseKindSet_contains, CloseKindSet_with, CloseKind_bit; simpl.
  destruct (N.eqb_spec (N.land (CloseKindSet_bits s) (N.shiftl 1 (CloseKind_tag k'))) 0) as [Hz|Hz];
    rewrite N.land_lor_distr_l.
  - rewrite Hz, N.lor_0_l. by destruct k, k'.
  - destruct (N.eqb_spec (N.lor (N.land (CloseKindSet_bits s) (N.shiftl 1 (CloseKind_tag k')))
      (N.land (N.shiftl 1 (CloseKind_tag k)) (N.shiftl 1 (CloseKind_tag k')))) 0) as [Hz'|];
      [|done].
    by apply N.lor_eq_0_iff in Hz' as [? _].
Qed.
