(* ===== verification/Registry.v ===== *)
(** * Registry chunks (crates/kernel/src/registry.rs)

    A registry value of up to 255 * 120 bytes is stored as self-describing
    chunks, one per derived slot.  The chunk codec accepts only the canonical
    slice of a value; [RegistryDiff] is the bounded, duplicate-free list of
    slot writes one operation produces. *)

From S2P Require Import Prelude Xet Canonical Primitive Errors.

#[local] Open Scope N_scope.

(* [registry.rs:69-69] REGISTRY_CHUNK_VERSION *)
Definition REGISTRY_CHUNK_VERSION : N := 2.

(* [registry.rs:72-72] MAX_REGISTRY_VALUE_LEN *)
Definition MAX_REGISTRY_VALUE_LEN : N :=
  N.of_nat MAX_REGISTRY_CHUNKS * N.of_nat REGISTRY_CHUNK_DATA_CAPACITY.

(* [registry.rs:98-104] RegistryNamespace *)
Inductive RegistryNamespace := NS_PaymentClose | NS_BondLease.

(* [registry.rs:107-114] RegistryNamespace::tag *)
Definition RegistryNamespace_tag (n : RegistryNamespace) : N :=
  match n with NS_PaymentClose => 0 | NS_BondLease => 1 end.

(* [registry.rs:116-124] RegistryNamespace::from_tag *)
Definition RegistryNamespace_from_tag (tag : N) : option RegistryNamespace :=
  match tag with 0 => Some NS_PaymentClose | 1 => Some NS_BondLease | _ => None end.

(** A one-byte enum codec: the tag, and the values its table names. *)
Definition tag_codec {A} (tag : A -> N) (from_tag : N -> option A) : Codec A := {|
  MAX_ENCODED_SIZE := 1;
  encoded_size := fun _ => 1%nat;
  encode_to := fun x => [byte_of_N (tag x)];
  decode := fun buf =>
    let? '(byte, consumed) := decode u8 buf in
    let? x := ok_or (from_tag byte) (InvalidTag byte) in
    Ok (x, consumed);
  wf := fun _ => true |}.

(* [registry.rs:127-144] RegistryNamespace *)
Definition RegistryNamespace_codec : Codec RegistryNamespace :=
  tag_codec RegistryNamespace_tag RegistryNamespace_from_tag.

(* [registry.rs:159-165] RegistryRecordTag *)
Inductive RegistryRecordTag := Rec_PaymentPending | Rec_BondLease.

(* [registry.rs:168-175] RegistryRecordTag::tag *)
Definition RegistryRecordTag_tag (n : RegistryRecordTag) : N :=
  match n with Rec_PaymentPending => 0 | Rec_BondLease => 1 end.

(* [registry.rs:177-185] RegistryRecordTag::from_tag *)
Definition RegistryRecordTag_from_tag (tag : N) : option RegistryRecordTag :=
  match tag with 0 => Some Rec_PaymentPending | 1 => Some Rec_BondLease | _ => None end.

(* [registry.rs:188-205] RegistryRecordTag *)
Definition RegistryRecordTag_codec : Codec RegistryRecordTag :=
  tag_codec RegistryRecordTag_tag RegistryRecordTag_from_tag.

Definition RegistryChunkId_derive_writes (network : NetworkId) (namespace : RegistryNamespace)
    (logical_key : bytes) (chunk_index : N) : list bytes :=
  [REGISTRY_CHUNK_ID; NetworkId_encode_to network; encode_to RegistryNamespace_codec namespace;
   encode_to (array ID_LENGTH) logical_key; encode_to u8 chunk_index].

(* [registry.rs:242-258] RegistryChunkId::derive *)
Definition RegistryChunkId_derive `{Blake3} (network : NetworkId) (namespace : RegistryNamespace)
    (logical_key : bytes) (chunk_index : N) : RegistryChunkId :=
  RegistryChunkId_from_bytes
    (xet_hash (concat (RegistryChunkId_derive_writes network namespace logical_key chunk_index))).

(* [registry.rs:284-293] RegistryChunk *)
Record RegistryChunk := mk_RegistryChunk {
  chunk_namespace : RegistryNamespace;
  chunk_record_tag : RegistryRecordTag;
  chunk_index : N;
  chunk_count : N;
  chunk_value_len : N;
  chunk_data_len : N;
  chunk_data_buf : bytes;
}.

Definition CAPACITY : N := N.of_nat REGISTRY_CHUNK_DATA_CAPACITY.

(* [registry.rs:296-312] RegistryChunk::chunk_count_for *)
Definition RegistryChunk_chunk_count_for (value_len : N) : option N :=
  if (value_len =? 0) || (MAX_REGISTRY_VALUE_LEN <? value_len) then None
  else Some (((value_len + CAPACITY - 1) / CAPACITY) mod 256).

(* [registry.rs:314-346] RegistryChunk::split *)
Definition RegistryChunk_split (namespace : RegistryNamespace) (record_tag : RegistryRecordTag)
    (value : bytes) (index : N) : option RegistryChunk :=
  count ← RegistryChunk_chunk_count_for (N.of_nat (length value));
  if count <=? index then None else
  start ← checked_mul index CAPACITY;
  slice ← (if start <=? N.of_nat (length value) then Some (drop (N.to_nat start) value) else None);
  let live := if (REGISTRY_CHUNK_DATA_CAPACITY <=? length slice)%nat
              then take REGISTRY_CHUNK_DATA_CAPACITY slice else slice in
  if (REGISTRY_CHUNK_DATA_CAPACITY <? length live)%nat then None else
  let data := array_of REGISTRY_CHUNK_DATA_CAPACITY live in
  value_len ← (if u16_ok (N.of_nat (length value)) then Some (N.of_nat (length value)) else None);
  data_len ← (if u8_ok (N.of_nat (length live)) then Some (N.of_nat (length live)) else None);
  Some (mk_RegistryChunk namespace record_tag index count value_len data_len data).

(* [registry.rs:378-383] RegistryChunk::data *)
Definition RegistryChunk_data (c : RegistryChunk) : bytes :=
  if (N.to_nat (chunk_data_len c) <=? length (chunk_data_buf c))%nat
  then take (N.to_nat (chunk_data_len c)) (chunk_data_buf c) else [].

(* [registry.rs:385-407] RegistryChunk::expected_data_len *)
Definition RegistryChunk_expected_data_len (value_len index count : N) : option N :=
  if index + 1 <? count then Some CAPACITY else
  remainder ← checked_sub value_len (index * CAPACITY);
  if (remainder =? 0) || (CAPACITY <? remainder) then None else Some remainder.

Definition RegistryChunk_wf (c : RegistryChunk) : bool :=
  let '(mk_RegistryChunk ns tag index count value_len data_len data) := c in
  wf RegistryNamespace_codec ns && wf RegistryRecordTag_codec tag && wf u8 index && wf u8 count &&
  wf u16 value_len && wf u8 data_len && wf (array REGISTRY_CHUNK_DATA_CAPACITY) data &&
  bool_decide (RegistryChunk_chunk_count_for value_len = Some count) && negb (count <=? index) &&
  bool_decide (RegistryChunk_expected_data_len value_len index count = Some data_len) &&
  (N.to_nat data_len <=? length data)%nat &&
  forallb (fun b => Byte.to_N b =? 0) (drop (N.to_nat data_len) data).

(* [registry.rs:420-430] RegistryChunk::encode_to *)
Definition RegistryChunk_encode_to (c : RegistryChunk) : bytes :=
  let '(mk_RegistryChunk ns tag index count value_len data_len data) := c in
  encode_envelope tag_REGISTRY_CHUNK ++ encode_to u8 REGISTRY_CHUNK_VERSION ++
  encode_to RegistryNamespace_codec ns ++ encode_to RegistryRecordTag_codec tag ++
  encode_to u8 index ++ encode_to u8 count ++ encode_to u16 value_len ++
  encode_to u8 data_len ++ encode_to (array REGISTRY_CHUNK_DATA_CAPACITY) data.

(* [registry.rs:433-490] RegistryChunk::decode *)
Definition RegistryChunk_decode (buf : bytes) : decoded RegistryChunk :=
  let? consumed := decode_envelope buf tag_REGISTRY_CHUNK in
  let? '(version, consumed) := decode_field u8 buf consumed in
  if negb (version =? REGISTRY_CHUNK_VERSION) then Err (InvalidTag version) else
  let? '(ns, consumed) := decode_field RegistryNamespace_codec buf consumed in
  let? '(tag, consumed) := decode_field RegistryRecordTag_codec buf consumed in
  let? '(index, consumed) := decode_field u8 buf consumed in
  let? '(count, consumed) := decode_field u8 buf consumed in
  let? '(value_len, consumed) := decode_field u16 buf consumed in
  let? '(data_len, consumed) := decode_field u8 buf consumed in
  let? '(data, consumed) := decode_field (array REGISTRY_CHUNK_DATA_CAPACITY) buf consumed in
  if negb (bool_decide (RegistryChunk_chunk_count_for value_len = Some count))
  then Err (NonCanonical "RegistryChunk.chunk_count") else
  if count <=? index then Err (NonCanonical "RegistryChunk.chunk_index") else
  if negb (bool_decide (RegistryChunk_expected_data_len value_len index count = Some data_len))
  then Err (NonCanonical "RegistryChunk.data_len") else
  if negb (N.to_nat data_len <=? length data)%nat
  then Err (NonCanonical "RegistryChunk.data_len") else
  let padding := drop (N.to_nat data_len) data in
  if negb (forallb (fun b => Byte.to_N b =? 0) padding)
  then Err (NonCanonical "RegistryChunk.data") else
  Ok (mk_RegistryChunk ns tag index count value_len data_len data, consumed).

(* [registry.rs:410-418] RegistryChunk *)
Definition RegistryChunk_codec : Codec RegistryChunk := {|
  MAX_ENCODED_SIZE := ENVELOPE_SIZE + 6 * MAX_ENCODED_SIZE u8 + MAX_ENCODED_SIZE u16
    + REGISTRY_CHUNK_DATA_CAPACITY;
  encoded_size := fun _ => (ENVELOPE_SIZE + 6 * MAX_ENCODED_SIZE u8 + MAX_ENCODED_SIZE u16
    + REGISTRY_CHUNK_DATA_CAPACITY)%nat;
  encode_to := RegistryChunk_encode_to;
  decode := RegistryChunk_decode;
  wf := RegistryChunk_wf |}.

(** ** Diffs *)

(* [registry.rs:498-502] RegistryMutation *)
Record RegistryMutation := mk_RegistryMutation {
  mutation_id : RegistryChunkId;
  mutation_chunk : option RegistryChunk;
}.

(* [registry.rs:511-518] RegistryMutation::write *)
Definition RegistryMutation_write (id : RegistryChunkId) (chunk : RegistryChunk)
    : RegistryMutation := mk_RegistryMutation id (Some chunk).

(* [registry.rs:520-524] RegistryMutation::delete *)
Definition RegistryMutation_delete (id : RegistryChunkId) : RegistryMutation :=
  mk_RegistryMutation id None.

(** The live mutations, in replay order. *)
Notation RegistryDiff := (list RegistryMutation).

(* [registry.rs:611-618] RegistryDiff::empty *)
Definition RegistryDiff_empty : RegistryDiff := [].

(* [registry.rs:664-668] RegistryDiff::contains *)
Definition RegistryDiff_contains (self : RegistryDiff) (id : RegistryChunkId) : bool :=
  existsb (fun m => bool_decide (mutation_id m = id)) self.

(* [registry.rs:620-639] RegistryDiff::push *)
Definition RegistryDiff_push (self : RegistryDiff) (mutation : RegistryMutation)
    : result RegistryDiff RegistryDiffError :=
  if RegistryDiff_contains self (mutation_id mutation)
  then Err (Diff_Duplicate (mutation_id mutation)) else
  if negb (length self <? MAX_REGISTRY_MUTATIONS)%nat then Err Diff_Full
  else Ok (self ++ [mutation]).

#[export] Instance RegistryNamespace_eq_dec : EqDecision RegistryNamespace.
Proof. solve_decision. Defined.
#[export] Instance RegistryRecordTag_eq_dec : EqDecision RegistryRecordTag.
Proof. solve_decision. Defined.
#[export] Instance RegistryChunk_eq_dec : EqDecision RegistryChunk.
Proof. solve_decision. Defined.
#[export] Instance RegistryMutation_eq_dec : EqDecision RegistryMutation.
Proof. solve_decision. Defined.

(** ** Codec laws *)

Lemma tag_codec_lawful {A} (tag : A -> N) from_tag :
  (forall x, tag x <= 255) -> (forall x, from_tag (tag x) = Some x) ->
  (forall n x, from_tag n = Some x -> n = tag x) -> Lawful (tag_codec tag from_tag).
Proof.
  intros Hb Hft Htf. split; try done.
  - intros x rest _. cbn. rewrite byte_to_of_N, N.mod_small by (specialize (Hb x); lia).
    by rewrite Hft.
  - intros buf x n H. unfold tag_codec in *; cbn [decode] in H. inv_ok. subst.
    apply (decode_sound (cd := u8)) in E as (_ & [rest ->] & ->).
    apply Htf in E0 as ->. split_and!; [done|by exists rest|done].
Qed.

#[export] Instance RegistryNamespace_lawful : Lawful RegistryNamespace_codec.
Proof.
  apply tag_codec_lawful; [by intros []|by intros []|].
  intros [|[]] x [= <-]; done.
Qed.
#[export] Instance RegistryNamespace_fixed : FixedSize RegistryNamespace_codec.
Proof. done. Qed.
#[export] Instance RegistryRecordTag_lawful : Lawful RegistryRecordTag_codec.
Proof.
  apply tag_codec_lawful; [by intros []|by intros []|].
  intros [|[]] x [= <-]; done.
Qed.
#[export] Instance RegistryRecordTag_fixed : FixedSize RegistryRecordTag_codec.
Proof. done. Qed.

Lemma RegistryChunk_size c :
  wf RegistryChunk_codec c = true ->
  length (RegistryChunk_encode_to c) = MAX_ENCODED_SIZE RegistryChunk_codec.
Proof.
  destruct c; cbn [wf RegistryChunk_codec]. unfold RegistryChunk_wf, RegistryChunk_encode_to.
  intros H; bool_simpl.
  assert (MAX_ENCODED_SIZE RegistryChunk_codec = ENVELOPE_SIZE + 6 * MAX_ENCODED_SIZE u8
    + MAX_ENCODED_SIZE u16 + REGISTRY_CHUNK_DATA_CAPACITY)%nat as -> by done.
  assert (MAX_ENCODED_SIZE (array REGISTRY_CHUNK_DATA_CAPACITY) = REGISTRY_CHUNK_DATA_CAPACITY)
    by done.
  assert (MAX_ENCODED_SIZE RegistryNamespace_codec = MAX_ENCODED_SIZE u8) by done.
  assert (MAX_ENCODED_SIZE RegistryRecordTag_codec = MAX_ENCODED_SIZE u8) by done.
  codec_sum.
Qed.

#[export] Instance RegistryChunk_lawful : Lawful RegistryChunk_codec.
Proof.
  split.
  - intros c H. cbn [encode_to RegistryChunk_codec]. by rewrite RegistryChunk_size.
  - intros c H. cbn [encode_to RegistryChunk_codec]. by rewrite RegistryChunk_size.
  - intros c rest H. destruct c; cbn [wf decode RegistryChunk_codec] in *. 
    unfold RegistryChunk_wf in H. rewrite !andb_true_iff in H. destruct_and!.
    cbn [encode_to RegistryChunk_codec].
    codec_run_encode RegistryChunk_encode_to RegistryChunk_decode.
    repeat match goal with H : ?b = true |- context [?b] => rewrite H; cbn [negb]
      | H : negb ?b = true |- context [?b] => apply negb_true_iff in H; rewrite H; cbn [negb] end.
    do 2 f_equal; unfold RegistryChunk_encode_to; codec_sum.
  - intros buf c n H. cbn [decode wf encode_to RegistryChunk_codec] in *.
    codec_run_decode RegistryChunk_decode H. unfold RegistryChunk_wf, RegistryChunk_encode_to.
    cbn beta iota. split_and!.
    + repeat match goal with G : negb _ = false |- _ => apply negb_false_iff in G end.
      rewrite !andb_true_iff, negb_true_iff. split_and!; assumption || reflexivity.
    + eexists; rewrite <- ?app_assoc; reflexivity.
    + codec_sum.
Qed.

(** ** Splitting a value *)

Lemma chunk_count_for_Some v n :
  RegistryChunk_chunk_count_for v = Some n <->
  1 <= v <= MAX_REGISTRY_VALUE_LEN /\ (n - 1) * CAPACITY < v <= n * CAPACITY /\ 1 <= n <= 255.
Proof.
  unfold RegistryChunk_chunk_count_for.
  change CAPACITY with 120. change MAX_REGISTRY_VALUE_LEN with 30600.
  pose proof (N.div_mod (v + 120 - 1) 120 ltac:(lia)) as Hd.
  pose proof (N.mod_lt (v + 120 - 1) 120 ltac:(lia)) as Hm.
  generalize dependent ((v + 120 - 1) / 120). intros q.
  generalize dependent ((v + 120 - 1) mod 120). intros r Hr Hd. split.
  - intros H. inv_ok. bool_simpl. subst n. rewrite N.mod_small by lia. lia.
  - intros (Hv & Hn & Hc).
    destruct (N.eqb_spec v 0); [lia|]. destruct (N.ltb_spec 30600 v); [lia|]. simpl.
    assert (q = n) as -> by nia. by rewrite N.mod_small by lia.
Qed.

(** The bytes of [value] that chunk [i] carries. *)
Definition value_slice (value : bytes) (i : N) : bytes :=
  take REGISTRY_CHUNK_DATA_CAPACITY
    (drop (N.to_nat i * REGISTRY_CHUNK_DATA_CAPACITY) value).

Lemma value_slice_length value i n :
  RegistryChunk_chunk_count_for (N.of_nat (length value)) = Some n -> i < n ->
  Some (N.of_nat (length (value_slice value i))) =
  RegistryChunk_expected_data_len (N.of_nat (length value)) i n.
Proof.
  intros (Hv & Hn & Hc)%chunk_count_for_Some Hi.
  unfold RegistryChunk_expected_data_len, value_slice, checked_sub, CAPACITY,
    REGISTRY_CHUNK_DATA_CAPACITY in *.
  rewrite length_take, length_drop. change (N.of_nat 120) with 120 in *.
  destruct (N.ltb_spec (i + 1) n); [f_equal; nia|].
  destruct (N.leb_spec (i * 120) (N.of_nat (length value))); [|nia]. bind_simpl.
  destruct (N.eqb_spec (N.of_nat (length value) - i * 120) 0); [nia|].
  destruct (N.ltb_spec 120 (N.of_nat (length value) - i * 120)); [nia|]. cbn [orb]. f_equal. lia.
Qed.

(** [split] yields exactly the canonical chunk of an index in range. *)
Lemma split_Some ns tag value i n :
  RegistryChunk_chunk_count_for (N.of_nat (length value)) = Some n -> i < n ->
  RegistryChunk_split ns tag value i =
    Some (mk_RegistryChunk ns tag i n (N.of_nat (length value))
            (N.of_nat (length (value_slice value i)))
            (array_of REGISTRY_CHUNK_DATA_CAPACITY (value_slice value i))).
Proof.
  intros Hcount Hi. pose proof Hcount as (Hv & Hn & Hc)%chunk_count_for_Some.
  unfold RegistryChunk_split. rewrite Hcount. bind_simpl.
  change MAX_REGISTRY_VALUE_LEN with 30600 in Hv. change CAPACITY with 120 in *.
  destruct (N.leb_spec n i); [lia|].
  unfold checked_mul, u64_ok. destruct (N.leb_spec (i * 120) U64_MAX); [|unfold U64_MAX in *; lia].
  bind_simpl. destruct (N.leb_spec (i * 120) (N.of_nat (length value))); [|nia]. bind_simpl.
  assert (Hlive : (if (REGISTRY_CHUNK_DATA_CAPACITY <=? length (drop (N.to_nat (i * 120)) value))%nat
          then take REGISTRY_CHUNK_DATA_CAPACITY (drop (N.to_nat (i * 120)) value)
          else drop (N.to_nat (i * 120)) value) = value_slice value i).
  { unfold value_slice, REGISTRY_CHUNK_DATA_CAPACITY.
    replace (N.to_nat (i * 120)) with (N.to_nat i * 120)%nat by lia.
    case_match; bool_simpl; [done|]. by rewrite take_ge by lia. }
  rewrite Hlive.
  assert (Hsl : (length (value_slice value i) <= 120)%nat)
    by (unfold value_slice; rewrite length_take; unfold REGISTRY_CHUNK_DATA_CAPACITY; lia).
  unfold REGISTRY_CHUNK_DATA_CAPACITY at 1.
  destruct (Nat.ltb_spec 120 (length (value_slice value i))); [lia|].
  unfold u16_ok, u8_ok.
  destruct (N.leb_spec (N.of_nat (length value)) 65535); [|lia]. bind_simpl.
  destruct (N.leb_spec (N.of_nat (length (value_slice value i))) 255); [|lia]. done.
Qed.

Lemma split_None ns tag value i :
  (forall n, RegistryChunk_chunk_count_for (N.of_nat (length value)) = Some n -> n <= i) ->
  RegistryChunk_split ns tag value i = None.
Proof.
  intros H. unfold RegistryChunk_split.
  destruct (RegistryChunk_chunk_count_for _) as [n|]; [simpl|done].
  specialize (H n eq_refl). destruct (N.leb_spec n i); [done|lia].
Qed.

Lemma padding_zero n bs :
  (length bs <= n)%nat ->
  forallb (fun b => Byte.to_N b =? 0) (drop (length bs) (array_of n bs)) = true.
Proof.
  intros H. unfold array_of. rewrite skipn_firstn_comm, drop_app_length.
  assert (Hr : Forall (eq x00) (repeat x00 n))
    by (apply Forall_forall; intros b Hb%list_elem_of_In; by apply repeat_spec in Hb).
  apply (Forall_take _ (n - length bs)%nat) in Hr.
  apply forallb_forall. intros b Hb%list_elem_of_In.
  rewrite Forall_forall in Hr. by rewrite <- (Hr b Hb).
Qed.

(** Every chunk [split] makes is one the codec accepts. *)
Lemma split_wf ns tag value i c :
  RegistryChunk_split ns tag value i = Some c -> wf RegistryChunk_codec c = true.
Proof.
  intros H. destruct (RegistryChunk_chunk_count_for (N.of_nat (length value))) as [n|] eqn:Hc.
  2:{ rewrite split_None in H; [done|]. intros ? ?; congruence. }
  destruct (N.lt_ge_cases i n) as [Hi|Hi].
  2:{ rewrite split_None in H; [done|]. intros ? ?; simplify_eq; done. }
  rewrite (split_Some _ _ _ _ _ Hc Hi) in H. injection H as <-.
  pose proof Hc as (Hv & Hn & Hb)%chunk_count_for_Some.
  change MAX_REGISTRY_VALUE_LEN with 30600 in Hv.
  assert (Hl : (length (value_slice value i) <= 120)%nat)
    by (unfold value_slice, REGISTRY_CHUNK_DATA_CAPACITY; rewrite length_take; lia).
  cbn [wf RegistryChunk_codec]. unfold RegistryChunk_wf. rewrite Hc.
  rewrite <- (value_slice_length _ _ _ Hc Hi).
  rewrite !Nat2N.id, padding_zero, array_of_length by done.
  rewrite !bool_decide_eq_true_2 by done.
  cbn [wf u8 u16 array]. rewrite array_of_length. unfold u8_ok, u16_ok.
  repeat rewrite andb_true_iff. rewrite negb_true_iff.
  split_and!; try done; try (apply N.leb_le || apply N.leb_gt || apply Nat.leb_le); try lia.
  unfold REGISTRY_CHUNK_DATA_CAPACITY; lia.
Qed.

(** A canonical chunk carries the slice it was cut from. *)
Lemma split_data ns tag value i c :
  RegistryChunk_split ns tag value i = Some c -> RegistryChunk_data c = value_slice value i.
Proof.
  intros H. destruct (RegistryChunk_chunk_count_for (N.of_nat (length value))) as [n|] eqn:Hc.
  2:{ rewrite split_None in H; [done|]. intros ? ?; congruence. }
  destruct (N.lt_ge_cases i n) as [Hi|Hi].
  2:{ rewrite split_None in H; [done|]. intros ? ?; simplify_eq; done. }
  rewrite (split_Some _ _ _ _ _ Hc Hi) in H. injection H as <-.
  assert (Hl : (length (value_slice value i) <= REGISTRY_CHUNK_DATA_CAPACITY)%nat)
    by (unfold value_slice; rewrite length_take; lia).
  unfold RegistryChunk_data; cbn [chunk_data_len chunk_data_buf].
  rewrite Nat2N.id, array_of_length. destruct (Nat.leb_spec (length (value_slice value i))
    REGISTRY_CHUNK_DATA_CAPACITY); [|lia].
  unfold array_of. rewrite take_take, Nat.min_l by lia. by rewrite take_app_length.
Qed.

(** Every field of a canonical chunk. *)
Lemma split_fields ns tag value i c :
  RegistryChunk_split ns tag value i = Some c ->
  chunk_namespace c = ns /\ chunk_record_tag c = tag /\ chunk_index c = i /\
  RegistryChunk_chunk_count_for (N.of_nat (length value)) = Some (chunk_count c) /\
  i < chunk_count c /\ chunk_value_len c = N.of_nat (length value) /\
  RegistryChunk_data c = value_slice value i.
Proof.
  intros H. pose proof (split_data _ _ _ _ _ H) as Hd.
  destruct (RegistryChunk_chunk_count_for (N.of_nat (length value))) as [n|] eqn:Hc.
  2:{ rewrite split_None in H; [done|]. intros ? ?; congruence. }
  destruct (N.lt_ge_cases i n) as [Hi|Hi].
  2:{ rewrite split_None in H; [done|]. intros ? ?; simplify_eq; done. }
  rewrite (split_Some _ _ _ _ _ Hc Hi) in H. by injection H as <-.
Qed.

(** The slices of a value, in order, are the value. *)
Lemma concat_slices value k :
  concat (map (fun i => value_slice value (N.of_nat i)) (seq 0 k)) =
  take (k * REGISTRY_CHUNK_DATA_CAPACITY) value.
Proof.
  induction k as [|k IH]; [by rewrite take_0|].
  rewrite seq_S, map_app, concat_app, IH. cbn [map concat]. rewrite app_nil_r.
  unfold value_slice. rewrite Nat2N.id, Nat.add_0_l, take_take_drop. f_equal. lia.
Qed.

(** ** Diffs *)

Lemma RegistryDiff_push_Ok d m d' :
  RegistryDiff_push d m = Ok d' ->
  d' = d ++ [m] /\ (mutation_id m ∉ map mutation_id d) /\
  (length d < MAX_REGISTRY_MUTATIONS)%nat.
Proof.
  unfold RegistryDiff_push. intros H. inv_ok. bool_simpl. subst d'. split_and!; [done| |done].
  intros Hin. apply not_true_iff_false in G. apply G. unfold RegistryDiff_contains.
  apply list_elem_of_fmap in Hin as (m' & Heq & Hin). apply existsb_exists.
  exists m'. split; [by apply list_elem_of_In|]. by apply bool_decide_eq_true.
Qed.
