(* ===== verification/View.v ===== *)
(** * State snapshots (crates/kernel/src/view.rs)

    The bounded view of a live state, its lookups, and the reassembly of a
    multi-chunk registry value, which returns exactly the value whose chunks
    are stored or nothing. *)

From stdpp Require Import sorting.
From S2P Require Import Prelude Xet Canonical Primitive Errors Objects Registry.

#[local] Open Scope N_scope.

(** Derived [Ord] of the id newtypes: byte by byte. *)
Fixpoint bytes_le (a b : bytes) : bool :=
  match a, b with
  | [], _ => true
  | _ :: _, [] => false
  | x :: a, y :: b =>
      (Byte.to_N x <? Byte.to_N y) || ((Byte.to_N x =? Byte.to_N y) && bytes_le a b)
  end.

Section pack.
  Context {K V : Type} (key : K -> bytes).

Fixpoint sort_insert (item : K * V) (l : list (K * V)) : list (K * V) :=
  match l with
  | [] => [item]
  | head :: tail =>
      if bytes_le (key item.1) (key head.1) then item :: l else head :: sort_insert item tail
  end.

(** [sort_unstable_by] on live entries, which have distinct ids. *)
Definition sort_by_id (l : list (K * V)) : list (K * V) := foldr sort_insert [] l.

(** An array of [N] optional entries is the list of its live ones followed by
    [None]s. *)
(* [view.rs:183-203] pack_sorted *)
Definition pack_sorted (items : list (option (K * V))) : list (option (K * V)) :=
  let live := sort_by_id (omap id items) in
  map Some live ++ repeat None (length items - length live)%nat.
End pack.

(* [view.rs:24-30] View *)
Record View := mk_View {
  view_coins : list (option (CoinId * Coin));
  view_edges : list (option (EdgeId * Edge));
  view_registry : list (option (RegistryChunkId * RegistryChunk));
}.

(* [view.rs:41-54] View::with_registry *)
Definition View_with_registry (coins : list (option (CoinId * Coin)))
    (edges : list (option (EdgeId * Edge)))
    (registry : list (option (RegistryChunkId * RegistryChunk))) : View :=
  mk_View (pack_sorted CoinId_bytes coins) (pack_sorted EdgeId_bytes edges)
    (pack_sorted RegistryChunkId_bytes registry).

Definition find_id {K V} `{EqDecision K} (k : K) (items : list (option (K * V))) : option V :=
  snd <$> (snd <$> list_find (fun entry : K * V => entry.1 = k) (omap id items)).

(* [view.rs:71-76] View::coin *)
Definition View_coin (self : View) (k : CoinId) : option Coin := find_id k (view_coins self).
(* [view.rs:78-83] View::edge *)
Definition View_edge (self : View) (k : EdgeId) : option Edge := find_id k (view_edges self).
(* [view.rs:85-90] View::registry_chunk *)
Definition View_registry_chunk (self : View) (k : RegistryChunkId) : option RegistryChunk :=
  find_id k (view_registry self).

(* [view.rs:92-96] View::coin_len *)
Definition View_coin_len (self : View) : nat := length (omap id (view_coins self)).
(* [view.rs:98-102] View::edge_len *)
Definition View_edge_len (self : View) : nat := length (omap id (view_edges self)).
(* [view.rs:104-108] View::registry_len *)
Definition View_registry_len (self : View) : nat := length (omap id (view_registry self)).

(** [buf.get_mut(written..end)?.copy_from_slice(data)] *)
Definition copy_at (buf : bytes) (written : nat) (data : bytes) : option bytes :=
  let end_ := (written + length data)%nat in
  if (end_ <=? length buf)%nat then Some (take written buf ++ data ++ drop end_ buf) else None.

Section value.
  Context `{Blake3}.

(** The loop over the chunks: one iteration, then the rest. *)
Fixpoint collect_chunks (slot : N -> option RegistryChunk) (namespace : RegistryNamespace)
    (head : RegistryChunk) (indices : list N) (written : nat) (buf : bytes)
    : option (nat * bytes) :=
  match indices with
  | [] => Some (written, buf)
  | index :: indices =>
      chunk ← slot index;
      if negb (bool_decide (chunk_namespace chunk = namespace))
         || negb (bool_decide (chunk_record_tag chunk = chunk_record_tag head))
         || negb (chunk_index chunk =? index)
         || negb (chunk_count chunk =? chunk_count head)
         || negb (chunk_value_len chunk =? chunk_value_len head)
      then None else
      let data := RegistryChunk_data chunk in
      buf ← copy_at buf written data;
      collect_chunks slot namespace head indices (written + length data) buf
  end.

(* [view.rs:110-180] View::registry_value *)
Definition View_registry_value (self : View) (network : NetworkId) (namespace : RegistryNamespace)
    (key : bytes) (buf : bytes) : option (RegistryRecordTag * bytes) :=
  let slot := fun index =>
    View_registry_chunk self (RegistryChunkId_derive network namespace key index) in
  head ← slot 0;
  let count := chunk_count head in
  '(written, buf) ← collect_chunks slot namespace head
                      (map N.of_nat (seq 0 (N.to_nat count))) 0 buf;
  if negb (N.of_nat written =? chunk_value_len head) then None else
  if (count <? 255) && match slot count with Some _ => true | None => false end then None else
  if (written <=? length buf)%nat then Some (chunk_record_tag head, take written buf) else None.

(** ** Laws *)

(** What the loop has accumulated. *)
Definition chunk_fits (namespace : RegistryNamespace) (head : RegistryChunk) (index : N)
    (chunk : RegistryChunk) : Prop :=
  chunk_namespace chunk = namespace /\ chunk_record_tag chunk = chunk_record_tag head /\
  chunk_index chunk = index /\ chunk_count chunk = chunk_count head /\
  chunk_value_len chunk = chunk_value_len head.

Lemma copy_at_Some buf written data buf' :
  (written <= length buf)%nat ->
  copy_at buf written data = Some buf' ->
  length buf' = length buf /\ (written + length data <= length buf)%nat /\
  take (written + length data) buf' = take written buf ++ data.
Proof.
  unfold copy_at. intros Hw Hc. inv_ok. bool_simpl. subst buf'.
  rewrite !length_app, length_take, length_drop. split_and!; [lia|done|].
  rewrite app_assoc, take_app_le by (rewrite length_app, length_take; lia).
  apply take_ge. rewrite length_app, length_take. lia.
Qed.

Lemma collect_chunks_Some slot namespace head indices written buf written' buf' :
  (written <= length buf)%nat ->
  collect_chunks slot namespace head indices written buf = Some (written', buf') ->
  exists chunks, Forall2 (fun i c => slot i = Some c /\ chunk_fits namespace head i c) indices chunks /\
    length buf' = length buf /\
    written' = (written + length (concat (map RegistryChunk_data chunks)))%nat /\
    (written' <= length buf')%nat /\
    take written' buf' = take written buf ++ concat (map RegistryChunk_data chunks).
Proof.
  revert written buf. induction indices as [|i indices IH]; intros written buf Hw Hc; simpl in Hc.
  { simplify_eq. exists []. simpl. rewrite app_nil_r. split_and!; [constructor|done|lia|done|done]. }
  apply bind_Some in Hc as (chunk & Hs & Hc). inv_ok_step. bool_simpl.
  apply bind_Some in Hc as (buf1 & Hcopy & Hc).
  apply copy_at_Some in Hcopy as (Hl & Hle & Ht); [|done].
  apply IH in Hc as (chunks & Hall & Hl' & -> & Hle' & Ht'); [|lia].
  exists (chunk :: chunks). cbn [map concat]. rewrite length_app. split_and!; [|lia|lia| |].
  - constructor; [|done]. done.
  - lia.
  - rewrite Ht', Ht. by rewrite app_assoc.
Qed.

(** Full slices, the last one possibly shorter, are the slices of their
    concatenation. *)
Lemma slice_concat (ds : list bytes) i d :
  (forall j x, ds !! j = Some x -> (length x <= REGISTRY_CHUNK_DATA_CAPACITY)%nat) ->
  (forall j x, ds !! j = Some x -> (S j < length ds)%nat ->
     length x = REGISTRY_CHUNK_DATA_CAPACITY) ->
  ds !! i = Some d -> value_slice (concat ds) (N.of_nat i) = d.
Proof.
  unfold value_slice. rewrite Nat2N.id. revert i.
  induction ds as [|x ds IH]; intros [|i] Hle Hfull Hi; try done; simpl in Hi.
  - injection Hi as ->. cbn [concat]. change (0 * REGISTRY_CHUNK_DATA_CAPACITY)%nat with 0%nat.
    rewrite drop_0. destruct ds as [|y ds].
    + simpl. rewrite app_nil_r. apply take_ge. by apply (Hle 0%nat).
    + rewrite <- (Hfull 0%nat d eq_refl) by (simpl; lia). by rewrite take_app_length.
  - assert (length x = REGISTRY_CHUNK_DATA_CAPACITY) as Hx.
    { apply (Hfull 0%nat); [done|]. apply lookup_lt_Some in Hi. simpl. lia. }
    cbn [concat]. rewrite drop_app_ge by (rewrite Hx; lia). rewrite Hx.
    replace (S i * REGISTRY_CHUNK_DATA_CAPACITY - REGISTRY_CHUNK_DATA_CAPACITY)%nat
      with (i * REGISTRY_CHUNK_DATA_CAPACITY)%nat by lia.
    apply IH; [intros j y; apply (Hle (S j))| |done].
    intros j y Hj Hlt. apply (Hfull (S j)); [done|simpl; lia].
Qed.

Lemma zeros_repeat l :
  forallb (fun b => Byte.to_N b =? 0) l = true -> l = repeat x00 (length l).
Proof.
  induction l as [|b l IH]; simpl; [done|]. intros [Hb Hl]%andb_true_iff. rewrite <- (IH Hl).
  f_equal. apply N.eqb_eq in Hb. pose proof (Byte.of_to_N b) as Hn. rewrite Hb in Hn.
  by injection Hn as <-.
Qed.

Lemma array_of_unpad n k buf :
  length buf = n -> forallb (fun b => Byte.to_N b =? 0) (drop k buf) = true ->
  (k <= n)%nat -> array_of n (take k buf) = buf.
Proof.
  intros Hn Hz%zeros_repeat Hk. unfold array_of. rewrite length_drop in Hz.
  rewrite <- (take_drop k buf) at 2. rewrite take_app, take_take, length_take, Hn.
  rewrite Nat.min_r, Nat.min_l by lia. f_equal. rewrite Hz, Hn.
  replace n with ((n - k) + k)%nat at 2 by lia.
  by rewrite repeat_app, take_app_length' by (rewrite repeat_length; lia).
Qed.

(** A canonical chunk of [value]'s length that carries [value]'s slice is the
    chunk [split] makes. *)
Lemma chunk_is_split c value :
  wf RegistryChunk_codec c = true -> chunk_value_len c = N.of_nat (length value) ->
  RegistryChunk_data c = value_slice value (chunk_index c) ->
  RegistryChunk_split (chunk_namespace c) (chunk_record_tag c) value (chunk_index c) = Some c.
Proof.
  destruct c as [ns tag index count value_len data_len buf]. cbn [wf RegistryChunk_codec].
  unfold RegistryChunk_wf. intros Hw Hlen Hd. bool_simpl. cbn in Hlen. subst value_len.
  cbn [chunk_namespace chunk_record_tag chunk_index] in *.
  match goal with Hc : RegistryChunk_chunk_count_for _ = Some _, Hi : _ < _ |- _ =>
    rewrite (split_Some _ _ _ _ _ Hc Hi) end.
  unfold RegistryChunk_data in Hd. cbn [chunk_data_len chunk_data_buf wf array] in *.
  destruct (Nat.leb_spec (N.to_nat data_len) (length buf)); [|lia]. apply Nat.eqb_eq in H6.
  rewrite <- Hd, length_take, Nat.min_l, N2Nat.id by lia. rewrite array_of_unpad; [done|done|done|lia].
Qed.

(** The data of a canonical chunk: full, unless it is the last. *)
Lemma chunk_data_length c :
  wf RegistryChunk_codec c = true ->
  (length (RegistryChunk_data c) <= REGISTRY_CHUNK_DATA_CAPACITY)%nat /\
  (chunk_index c + 1 < chunk_count c -> length (RegistryChunk_data c) = REGISTRY_CHUNK_DATA_CAPACITY).
Proof.
  destruct c as [ns tag index count value_len data_len buf]. cbn [wf RegistryChunk_codec].
  unfold RegistryChunk_wf. intros Hw. bool_simpl.
  unfold RegistryChunk_data. cbn [chunk_data_len chunk_data_buf chunk_index chunk_count wf array] in *.
  destruct (Nat.leb_spec (N.to_nat data_len) (length buf)); [|lia]. apply Nat.eqb_eq in H6.
  rewrite length_take, Nat.min_l by lia. split; [lia|]. intros Hlt.
  unfold RegistryChunk_expected_data_len in H3. apply N.ltb_lt in Hlt. rewrite Hlt in H3.
  injection H3 as <-. unfold CAPACITY. lia.
Qed.

Lemma collect_chunks_accepts slot namespace head indices chunks written buf :
  Forall2 (fun i c => slot i = Some c /\ chunk_fits namespace head i c) indices chunks ->
  (written + length (concat (map RegistryChunk_data chunks)) <= length buf)%nat ->
  is_Some (collect_chunks slot namespace head indices written buf).
Proof.
  intros Hall. revert written buf.
  induction Hall as [|i c indices chunks [Hs (Hns & Ht & Hi & Hc & Hv)] _ IH]; intros written buf Hle;
    cbn [collect_chunks map concat] in *; [by eexists|].
  rewrite Hs. bind_simpl. rewrite !bool_decide_eq_true_2 by done.
  rewrite Hi, Hc, Hv, !N.eqb_refl. cbn [negb orb]. rewrite length_app in Hle.
  destruct (copy_at buf written (RegistryChunk_data c)) as [buf1|] eqn:Hcopy.
  - apply copy_at_Some in Hcopy as (Hl & _ & _); [|lia]. bind_simpl. apply IH. lia.
  - unfold copy_at in Hcopy. case_match; [done|]. bool_simpl. lia.
Qed.

Lemma Forall2_slot_unique (P Q : N -> RegistryChunk -> Prop) (slot : N -> option RegistryChunk) l k k' :
  Forall2 (fun i c => slot i = Some c /\ P i c) l k ->
  Forall2 (fun i c => slot i = Some c /\ Q i c) l k' -> k = k'.
Proof.
  intros Hk. revert k'. induction Hk as [|i c l k [Hs _] _ IH]; intros k' Hk'; inversion Hk'; [done|].
  simplify_eq. destruct_and?. f_equal; [congruence|by apply IH].
Qed.

(** The stored chunks of [namespace], [key] are those of [value], and nothing is
    stored past its end. *)
Definition stores_value (slot : N -> option RegistryChunk) (namespace : RegistryNamespace)
    (tag : RegistryRecordTag) (value : bytes) : Prop :=
  exists n, RegistryChunk_chunk_count_for (N.of_nat (length value)) = Some n /\
    (forall i, i < n -> slot i = RegistryChunk_split namespace tag value i) /\
    (n < 255 -> slot n = None).

Lemma collected_is_stored slot namespace head chunks :
  (forall i c, slot i = Some c -> wf RegistryChunk_codec c = true) ->
  Forall2 (fun i c => slot i = Some c /\ chunk_fits namespace head i c)
    (map N.of_nat (seq 0 (N.to_nat (chunk_count head)))) chunks ->
  N.of_nat (length (concat (map RegistryChunk_data chunks))) = chunk_value_len head ->
  forall i, i < chunk_count head ->
    slot i = RegistryChunk_split namespace (chunk_record_tag head)
               (concat (map RegistryChunk_data chunks)) i.
Proof.
  intros Hwf Hall Hlen i Hi.
  assert (Hidx : forall j c, chunks !! j = Some c ->
    slot (N.of_nat j) = Some c /\ chunk_fits namespace head (N.of_nat j) c).
  { intros j c Hj. destruct (Forall2_lookup_r _ _ _ _ _ Hall Hj) as (x & Hx & Hp).
    apply list_lookup_fmap_Some in Hx as (y & -> & Hy). apply lookup_seq in Hy as [-> _]. done. }
  assert (length chunks = N.to_nat (chunk_count head)) as Hn
    by (rewrite <- (Forall2_length _ _ _ Hall), length_map, length_seq; done).
  destruct (lookup_lt_is_Some_2 chunks (N.to_nat i)) as [c Hc]; [lia|].
  destruct (Hidx _ _ Hc) as [Hs (Hns & Ht & Hci & _ & Hv)]. rewrite N2Nat.id in *. rewrite Hs. symmetry.
  rewrite <- Hns, <- Ht, <- Hci. apply chunk_is_split; [by eapply Hwf|congruence|].
  rewrite Hci, <- (N2Nat.id i). symmetry. apply slice_concat.
  - intros j x Hx. apply list_lookup_fmap_Some in Hx as (c' & -> & Hc').
    destruct (Hidx _ _ Hc') as [Hs' _]. by apply (chunk_data_length c'), (Hwf _ _ Hs').
  - intros j x Hx Hlt. apply list_lookup_fmap_Some in Hx as (c' & -> & Hc'). rewrite length_map in Hlt.
    destruct (Hidx _ _ Hc') as [Hs' (_ & _ & Hj & Hcc & _)].
    apply (chunk_data_length c'); [by eapply Hwf|]. rewrite Hj, Hcc. lia.
  - by rewrite list_lookup_fmap, Hc.
Qed.

(** The chunks of a stored value, in order, as the loop sees them. *)
Lemma stored_chunks slot namespace tag value n :
  RegistryChunk_chunk_count_for (N.of_nat (length value)) = Some n ->
  (forall i, i < n -> slot i = RegistryChunk_split namespace tag value i) ->
  exists head chunks,
    slot 0 = Some head /\ chunk_count head = n /\ chunk_record_tag head = tag /\
    chunk_value_len head = N.of_nat (length value) /\
    Forall2 (fun i c => slot i = Some c /\ chunk_fits namespace head i c)
      (map N.of_nat (seq 0 (N.to_nat n))) chunks /\
    concat (map RegistryChunk_data chunks) = value.
Proof.
  intros Hn Hslot. pose proof Hn as (_ & Hb & Hr)%chunk_count_for_Some.
  assert (Hall : forall i, i < n -> exists c, slot i = Some c /\
    RegistryChunk_split namespace tag value i = Some c).
  { intros i Hi. rewrite (Hslot i Hi), (split_Some _ _ _ _ _ Hn Hi). by eexists. }
  destruct (Hall 0) as (head & Hh & Hs0); [lia|].
  apply split_fields in Hs0 as (Hns0 & Ht0 & _ & Hc0 & _ & Hv0 & _). rewrite Hn in Hc0. injection Hc0 as Hc0.
  set (chunk i := default head (RegistryChunk_split namespace tag value (N.of_nat i))).
  exists head, (map chunk (seq 0 (N.to_nat n))). split_and!; [done|done|done|done| |].
  - apply Forall2_fmap, Forall_Forall2_diag, Forall_forall. intros j Hj%elem_of_seq.
    destruct (Hall (N.of_nat j)) as (c & Hs & Hsp); [lia|]. unfold chunk. rewrite Hsp. simpl.
    split; [done|]. apply split_fields in Hsp as (Hns & Ht & Hi & Hc & _ & Hv & _).
    rewrite Hn in Hc. injection Hc as Hc. split_and!; congruence.
  - rewrite map_map. erewrite map_ext_in; [rewrite (concat_slices value (N.to_nat n))|].
    + apply take_ge. unfold CAPACITY in Hb. lia.
    + intros j Hj%in_seq. destruct (Hall (N.of_nat j)) as (c & Hs & Hsp); [lia|].
      unfold chunk. rewrite Hsp. simpl. by apply split_data in Hsp.
Qed.

(** Reading a registry value back gives the value that was split or nothing:
    over canonical chunks, the reassembly returns exactly when every chunk of
    the value is in its own slot, the buffer holds it and the slot past its end
    is empty; so no permuted, truncated or mixed set of chunks ever reads as a
    value. *)
Theorem registry_value_exact v network namespace key buf tag value :
  let slot index := View_registry_chunk v (RegistryChunkId_derive network namespace key index) in
  (forall i c, slot i = Some c -> wf RegistryChunk_codec c = true) ->
  (View_registry_value v network namespace key buf = Some (tag, value) <->
   (length value <= length buf)%nat /\ stores_value slot namespace tag value).
Proof.
  intros slot Hwf. unfold View_registry_value. fold slot. split.
  - intros Hv. apply bind_Some in Hv as (head & Hh & Hv).
    apply bind_Some in Hv as ([written buf'] & Hc & Hv).
    apply collect_chunks_Some in Hc as (chunks & Hall & Hl & -> & Hle & Ht); [|lia].
    inv_ok. bool_simpl. simplify_eq. rewrite Nat.add_0_l in *. rewrite take_0, app_nil_l in Ht.
    rewrite Ht. split; [lia|]. exists (chunk_count head).
    pose proof (Hwf _ _ Hh) as Hw. destruct head as [ns tg index count value_len data_len data].
    cbn [wf RegistryChunk_codec] in Hw. unfold RegistryChunk_wf in Hw. bool_simpl.
    cbn [chunk_count chunk_value_len chunk_record_tag] in *. split_and!; [congruence| |].
    + by apply (collected_is_stored _ _ (mk_RegistryChunk ns tg index count value_len data_len data)).
    + intros Hlt. apply N.ltb_lt in Hlt. rewrite Hlt in G0. unfold slot. revert G0.
      by destruct (View_registry_chunk v (RegistryChunkId_derive network namespace key count)).
  - intros [Hle (n & Hn & Hslot & Hend)].
    destruct (stored_chunks slot namespace tag value n Hn Hslot)
      as (head & chunks & Hh & Hc & Ht & Hv & Hall & Hcat).
    unfold slot in Hh, Hend. rewrite Hh. bind_simpl. rewrite Hc.
    destruct (collect_chunks_accepts slot namespace head _ chunks 0 buf Hall) as [[written buf'] Hcol];
      [by rewrite Hcat|].
    rewrite Hcol. bind_simpl. apply collect_chunks_Some in Hcol as (chunks' & Hall' & Hl & -> & Hle' & Htk);
      [|lia]. rewrite (Forall2_slot_unique _ _ _ _ _ _ Hall Hall') in Hcat. rewrite Hcat in *.
    rewrite Nat.add_0_l, take_0, app_nil_l in *. rewrite Hv, N.eqb_refl. cbn [negb].
    destruct ((n <? 255) && _) eqn:G.
    { bool_simpl. rewrite Hend in * by done. done. }
    destruct (Nat.leb_spec (length value) (length buf')); [|lia]. by rewrite Ht, Htk.
Qed.
End value.

(** ** Packing *)

Lemma bytes_le_total a b : bytes_le a b = true \/ bytes_le b a = true.
Proof.
  revert b. induction a as [|x a IH]; intros [|y b]; simpl; auto.
  destruct (N.lt_trichotomy (Byte.to_N x) (Byte.to_N y)) as [Hl|[He|Hl]].
  - left. by rewrite (proj2 (N.ltb_lt _ _) Hl).
  - rewrite He, N.eqb_refl. destruct (IH b) as [->| ->]; rewrite ?orb_true_r; auto.
  - right. by rewrite (proj2 (N.ltb_lt _ _) Hl).
Qed.

Lemma bytes_le_trans a b c : bytes_le a b = true -> bytes_le b c = true -> bytes_le a c = true.
Proof.
  revert b c. induction a as [|x a IH]; intros [|y b] [|z c]; simpl; try done.
  rewrite !orb_true_iff, !andb_true_iff, !N.ltb_lt, !N.eqb_eq.
  intros [Hxy|[Hxy Hab]] [Hyz|[Hyz Hbc]]; [left; lia|left; lia|left; lia|].
  right. split; [lia|]. by eapply IH.
Qed.

Lemma bytes_le_antisym a b : bytes_le a b = true -> bytes_le b a = true -> a = b.
Proof.
  revert b. induction a as [|x a IH]; intros [|y b]; simpl; try done.
  rewrite !orb_true_iff, !andb_true_iff, !N.ltb_lt, !N.eqb_eq.
  intros [Hxy|[Hxy Hab]] [Hyx|[Hyx Hba]]; try lia. f_equal; [|by apply IH].
  pose proof (Byte.of_to_N x) as Hx. rewrite Hxy, Byte.of_to_N in Hx. by injection Hx.
Qed.

Section packing.
  Context {K V : Type} `{EqDecision K} (key : K -> bytes) (key_inj : forall a b, key a = key b -> a = b).
  Implicit Types (l : list (K * V)) (items : list (option (K * V))).

Lemma sort_insert_perm item l : sort_insert key item l ≡ₚ item :: l.
Proof.
  induction l as [|x l IH]; simpl; [done|]. case_match; [done|]. rewrite IH. apply Permutation_swap.
Qed.

Lemma sort_by_id_perm l : sort_by_id key l ≡ₚ l.
Proof. induction l as [|x l IH]; simpl; [done|]. by rewrite sort_insert_perm, IH. Qed.

Definition id_le (a b : K * V) : Prop := bytes_le (key a.1) (key b.1) = true.

Lemma sort_insert_sorted item l :
  StronglySorted id_le l -> StronglySorted id_le (sort_insert key item l).
Proof.
  induction 1 as [|x l Hs IH Hall]; simpl; [repeat constructor|].
  destruct (bytes_le (key item.1) (key x.1)) eqn:E.
  - constructor; [by constructor|]. constructor; [done|]. eapply Forall_impl; [exact Hall|].
    intros y Hy. by eapply bytes_le_trans.
  - constructor; [done|]. rewrite sort_insert_perm. constructor; [|done].
    unfold id_le. destruct (bytes_le_total (key x.1) (key item.1)); congruence.
Qed.

Lemma sort_by_id_sorted l : StronglySorted id_le (sort_by_id key l).
Proof. induction l; simpl; [constructor|]. by apply sort_insert_sorted. Qed.

Lemma pack_sorted_live items : omap id (pack_sorted key items) = sort_by_id key (omap id items).
Proof.
  unfold pack_sorted. rewrite omap_app.
  assert (forall n, omap id (repeat (@None (K * V)) n) = []) as -> by (induction n; simpl; auto).
  rewrite app_nil_r. generalize (sort_by_id key (omap id items)). intros l.
  induction l as [|x l IH]; [done|]. change (x :: omap id (map Some l) = x :: l). by rewrite IH.
Qed.

(** The view does not depend on the order of the entries. *)
Lemma pack_sorted_canonical items items' :
  items ≡ₚ items' -> NoDup (map fst (omap id items)) -> pack_sorted key items = pack_sorted key items'.
Proof.
  intros Hp Hnd. unfold pack_sorted. assert (omap id items ≡ₚ omap id items') as Hl by (by rewrite Hp).
  assert (sort_by_id key (omap id items) = sort_by_id key (omap id items')) as ->.
  { apply (StronglySorted_unique_strong id_le); [|apply sort_by_id_sorted..|by rewrite !sort_by_id_perm].
    intros x y Hx Hy Hxy Hyx. rewrite sort_by_id_perm in Hx, Hy. rewrite <- Hl in Hy.
    assert (x.1 = y.1) as Hk by (apply key_inj; by apply bytes_le_antisym).
    apply list_elem_of_lookup in Hx as [i Hi]. apply list_elem_of_lookup in Hy as [j Hj].
    assert (i = j) as ->; [|congruence]. eapply NoDup_lookup; [exact Hnd| |];
      rewrite list_lookup_fmap; [by rewrite Hi|]. rewrite Hj. simpl. by rewrite Hk. }
  by rewrite Hp.
Qed.

Lemma find_id_Some k v items :
  NoDup (map fst (omap id items)) ->
  find_id k (pack_sorted key items) = Some v <-> Some (k, v) ∈ items.
Proof.
  intros Hnd. unfold find_id. rewrite pack_sorted_live.
  assert (Some (k, v) ∈ items <-> (k, v) ∈ sort_by_id key (omap id items)) as ->.
  { rewrite sort_by_id_perm. rewrite list_elem_of_omap. split; [by eexists|]. intros (x & Hx & Hid). by rewrite <- Hid. }
  assert (NoDup (map fst (sort_by_id key (omap id items)))) as Hs by (by rewrite sort_by_id_perm).
  revert Hs. generalize (sort_by_id key (omap id items)). intros l Hs.
  induction l as [|[k' v'] l IH]; simpl; [by rewrite elem_of_nil|].
  apply NoDup_cons in Hs as [Hni Hs]. specialize (IH Hs). rewrite elem_of_cons.
  destruct (decide (k' = k)) as [->|Hne]; simpl.
  - split; [intros [= ->]; by left|]. intros [[= ->]|Hin]; [done|]. destruct Hni.
    apply list_elem_of_fmap. by exists (k, v).
  - etransitivity; [|split; [by right|by intros [[= -> _]|]]]. rewrite <- IH.
    by destruct (list_find _ l) as [[]|].
Qed.
End packing.

(** A view is faithful and canonical: it finds exactly the live objects it was
    built from, each under its id, and does not depend on the order (or, hence,
    on the unstable sort) in which they were listed. *)
Theorem view_faithful coins edges registry :
  NoDup (map fst (omap id coins)) -> NoDup (map fst (omap id edges)) ->
  NoDup (map fst (omap id registry)) ->
  let v := View_with_registry coins edges registry in
  (forall k c, View_coin v k = Some c <-> Some (k, c) ∈ coins) /\
  (forall k e, View_edge v k = Some e <-> Some (k, e) ∈ edges) /\
  (forall k c, View_registry_chunk v k = Some c <-> Some (k, c) ∈ registry) /\
  (forall coins' edges' registry',
     coins ≡ₚ coins' -> edges ≡ₚ edges' -> registry ≡ₚ registry' ->
     View_with_registry coins' edges' registry' = v).
Proof.
  intros Hc He Hr v. split_and!; [intros; by apply find_id_Some..|].
  intros coins' edges' registry' Pc Pe Pr. unfold v, View_with_registry.
  rewrite <- (pack_sorted_canonical CoinId_bytes ltac:(intros [] []; simpl; congruence) _ _ Pc Hc).
  rewrite <- (pack_sorted_canonical EdgeId_bytes ltac:(intros [] []; simpl; congruence) _ _ Pe He).
  by rewrite <- (pack_sorted_canonical RegistryChunkId_bytes
    ltac:(intros [] []; simpl; congruence) _ _ Pr Hr).
Qed.
