(* ===== verification/Store.v ===== *)
(** * The store boundary (crates/kernel/src/store.rs)

    [BatchOps]/[StoreOps] are the [Batch] and [Store] traits; [BatchLaws] and
    [StoreLaws] are the contract their documentation states: reads observe the
    working transaction, an insert refuses an occupied slot, [commit] publishes
    every staged write and dropping a batch publishes none.  The kernel's
    theorems are proved against these laws through [bview], the abstract state
    of a batch; the two instances are the growing map store of the kernel's test
    support and the chain's pre-declared block working set
    (crates/chain/src/execution/working_set.rs). *)

From S2P Require Import Prelude Primitive Errors Objects Registry.

(** ** Abstract state *)

Record KState := mk_KState {
  ks_coins : gmap CoinId Coin;
  ks_edges : gmap EdgeId Edge;
  ks_registry : gmap RegistryChunkId RegistryChunk;
}.

Definition with_coins (f : gmap CoinId Coin -> gmap CoinId Coin) (s : KState) : KState :=
  mk_KState (f (ks_coins s)) (ks_edges s) (ks_registry s).
Definition with_edges (f : gmap EdgeId Edge -> gmap EdgeId Edge) (s : KState) : KState :=
  mk_KState (ks_coins s) (f (ks_edges s)) (ks_registry s).
Definition with_registry_map
    (f : gmap RegistryChunkId RegistryChunk -> gmap RegistryChunkId RegistryChunk)
    (s : KState) : KState :=
  mk_KState (ks_coins s) (ks_edges s) (f (ks_registry s)).

(** ** Interfaces *)

(** Mutating methods return their result and the batch after the call. *)
(* [store.rs:50-109] Batch *)
Class BatchOps (B : Type) := {
  coin : B -> CoinId -> option Coin;
  insert_coin : B -> CoinId -> Coin -> result unit InsertError * B;
  remove_coin : B -> CoinId -> option Coin * B;
  edge : B -> EdgeId -> option Edge;
  insert_edge : B -> EdgeId -> Edge -> result unit InsertError * B;
  remove_edge : B -> EdgeId -> option Edge * B;
  registry_chunk : B -> RegistryChunkId -> option RegistryChunk;
  insert_registry_chunk : B -> RegistryChunkId -> RegistryChunk -> result unit InsertError * B;
  remove_registry_chunk : B -> RegistryChunkId -> option RegistryChunk * B;
}.

(** [drop_batch] is what Rust does to a batch that goes out of scope. *)
(* [store.rs:39-48] Store *)
Class StoreOps (S B : Type) := {
  begin : S -> B;
  commit : B -> S;
  drop_batch : B -> S;
}.

Class BatchLaws (B : Type) `{BatchOps B} := {
  bview : B -> KState;
  coin_view b id : coin b id = ks_coins (bview b) !! id;
  edge_view b id : edge b id = ks_edges (bview b) !! id;
  registry_view b id : registry_chunk b id = ks_registry (bview b) !! id;
  insert_coin_Ok b id c b' : insert_coin b id c = (Ok tt, b') ->
    ks_coins (bview b) !! id = None /\ bview b' = with_coins <[id := c]> (bview b);
  insert_coin_Exists b id c b' : insert_coin b id c = (Err Exists, b') ->
    is_Some (ks_coins (bview b) !! id);
  remove_coin_view b id o b' : remove_coin b id = (o, b') ->
    o = ks_coins (bview b) !! id /\ bview b' = with_coins (delete id) (bview b);
  insert_edge_Ok b id e b' : insert_edge b id e = (Ok tt, b') ->
    ks_edges (bview b) !! id = None /\ bview b' = with_edges <[id := e]> (bview b);
  insert_edge_Exists b id e b' : insert_edge b id e = (Err Exists, b') ->
    is_Some (ks_edges (bview b) !! id);
  remove_edge_view b id o b' : remove_edge b id = (o, b') ->
    o = ks_edges (bview b) !! id /\ bview b' = with_edges (delete id) (bview b);
  insert_registry_Ok b id c b' : insert_registry_chunk b id c = (Ok tt, b') ->
    ks_registry (bview b) !! id = None /\ bview b' = with_registry_map <[id := c]> (bview b);
  insert_registry_Exists b id c b' : insert_registry_chunk b id c = (Err Exists, b') ->
    is_Some (ks_registry (bview b) !! id);
  remove_registry_view b id o b' : remove_registry_chunk b id = (o, b') ->
    o = ks_registry (bview b) !! id /\ bview b' = with_registry_map (delete id) (bview b);
}.

Class StoreLaws (S B : Type) `{BatchLaws B} `{!StoreOps S B} := {
  sview : S -> KState;
  begin_view s : bview (begin s) = sview s;
  commit_view b : sview (commit b) = bview b;
  drop_begin s : drop_batch (begin s) = s;
  drop_insert_coin b id c : drop_batch (insert_coin b id c).2 = drop_batch b;
  drop_remove_coin b id : drop_batch (remove_coin b id).2 = drop_batch b;
  drop_insert_edge b id e : drop_batch (insert_edge b id e).2 = drop_batch b;
  drop_remove_edge b id : drop_batch (remove_edge b id).2 = drop_batch b;
  drop_insert_registry b id c : drop_batch (insert_registry_chunk b id c).2 = drop_batch b;
  drop_remove_registry b id : drop_batch (remove_registry_chunk b id).2 = drop_batch b;
}.

(** A store that accepts every slot: [Unavailable] never happens. *)
Class Accepting (B : Type) `{BatchOps B} : Prop := {
  insert_coin_accepts b id c b' : insert_coin b id c <> (Err Unavailable, b');
  insert_edge_accepts b id e b' : insert_edge b id e <> (Err Unavailable, b');
  insert_registry_accepts b id c b' : insert_registry_chunk b id c <> (Err Unavailable, b');
}.

(** ** The map store *)

Section slots.
  Context {K V : Type} `{Countable K}.

Definition slot_insert (m : gmap K V) (k : K) (v : V) : result unit InsertError * gmap K V :=
  match m !! k with Some _ => (Err Exists, m) | None => (Ok tt, <[k := v]> m) end.

(** The chain's pre-declared slots: [None] is a declared, empty slot. *)
Definition declared_insert (m : gmap K (option V)) (k : K) (v : V)
    : result unit InsertError * gmap K (option V) :=
  match m !! k with
  | None => (Err Unavailable, m)
  | Some (Some _) => (Err Exists, m)
  | Some None => (Ok tt, <[k := Some v]> m)
  end.

Definition declared_take (m : gmap K (option V)) (k : K) : option V * gmap K (option V) :=
  match m !! k with None => (None, m) | Some slot => (slot, <[k := None]> m) end.

(** The occupied slots. *)
Definition occupied (m : gmap K (option V)) : gmap K V := omap id m.
End slots.

(* [crates/kernel/tests/support/map_store.rs:30-34] MapStore *)
Record MapStore := mk_MapStore { map_state : KState }.

(* [crates/kernel/tests/support/map_store.rs:92-95] MapTx *)
Record MapTx := mk_MapTx { tx_working : KState; tx_parent : MapStore }.

Definition tx_with (t : MapTx) (s : KState) : MapTx := mk_MapTx s (tx_parent t).

(* [crates/kernel/tests/support/map_store.rs:97-155] MapTx *)
Definition MapTx_ops : BatchOps MapTx := {|
  coin t id := ks_coins (tx_working t) !! id;
  insert_coin t id c :=
    let '(r, m) := slot_insert (ks_coins (tx_working t)) id c in
    (r, tx_with t (with_coins (fun _ => m) (tx_working t)));
  remove_coin t id :=
    (ks_coins (tx_working t) !! id, tx_with t (with_coins (delete id) (tx_working t)));
  edge t id := ks_edges (tx_working t) !! id;
  insert_edge t id e :=
    let '(r, m) := slot_insert (ks_edges (tx_working t)) id e in
    (r, tx_with t (with_edges (fun _ => m) (tx_working t)));
  remove_edge t id :=
    (ks_edges (tx_working t) !! id, tx_with t (with_edges (delete id) (tx_working t)));
  registry_chunk t id := ks_registry (tx_working t) !! id;
  insert_registry_chunk t id c :=
    let '(r, m) := slot_insert (ks_registry (tx_working t)) id c in
    (r, tx_with t (with_registry_map (fun _ => m) (tx_working t)));
  remove_registry_chunk t id :=
    (ks_registry (tx_working t) !! id, tx_with t (with_registry_map (delete id) (tx_working t)));
|}.
#[export] Existing Instance MapTx_ops.

(* [crates/kernel/tests/support/map_store.rs:64-81] MapStore::begin *)
Definition MapStore_ops : StoreOps MapStore MapTx := {|
  begin s := mk_MapTx (map_state s) s;
  commit t := mk_MapStore (tx_working t);
  drop_batch t := tx_parent t;
|}.
#[export] Existing Instance MapStore_ops.

(** ** The block working set *)

(* [crates/chain/src/execution/working_set.rs:26-31] BlockWorkingSet *)
Record BlockWorkingSet := mk_BlockWorkingSet {
  ws_coins : gmap CoinId (option Coin);
  ws_edges : gmap EdgeId (option Edge);
  ws_registry : gmap RegistryChunkId (option RegistryChunk);
}.

(* [crates/chain/src/execution/working_set.rs:102-107] WorkingBatch *)
Record WorkingBatch := mk_WorkingBatch {
  wb_coins : gmap CoinId (option Coin);
  wb_edges : gmap EdgeId (option Edge);
  wb_registry : gmap RegistryChunkId (option RegistryChunk);
  wb_parent : BlockWorkingSet;
}.

(* [crates/chain/src/execution/working_set.rs:109-172] WorkingBatch *)
Definition WorkingBatch_ops : BatchOps WorkingBatch := {|
  coin b id := mjoin (wb_coins b !! id);
  insert_coin b id c :=
    let '(r, m) := declared_insert (wb_coins b) id c in
    (r, mk_WorkingBatch m (wb_edges b) (wb_registry b) (wb_parent b));
  remove_coin b id :=
    let '(o, m) := declared_take (wb_coins b) id in
    (o, mk_WorkingBatch m (wb_edges b) (wb_registry b) (wb_parent b));
  edge b id := mjoin (wb_edges b !! id);
  insert_edge b id e :=
    let '(r, m) := declared_insert (wb_edges b) id e in
    (r, mk_WorkingBatch (wb_coins b) m (wb_registry b) (wb_parent b));
  remove_edge b id :=
    let '(o, m) := declared_take (wb_edges b) id in
    (o, mk_WorkingBatch (wb_coins b) m (wb_registry b) (wb_parent b));
  registry_chunk b id := mjoin (wb_registry b !! id);
  insert_registry_chunk b id c :=
    let '(r, m) := declared_insert (wb_registry b) id c in
    (r, mk_WorkingBatch (wb_coins b) (wb_edges b) m (wb_parent b));
  remove_registry_chunk b id :=
    let '(o, m) := declared_take (wb_registry b) id in
    (o, mk_WorkingBatch (wb_coins b) (wb_edges b) m (wb_parent b));
|}.
#[export] Existing Instance WorkingBatch_ops.

(* [crates/chain/src/execution/working_set.rs:81-95] BlockWorkingSet::begin *)
Definition BlockWorkingSet_begin (s : BlockWorkingSet) : WorkingBatch :=
  mk_WorkingBatch (ws_coins s) (ws_edges s) (ws_registry s) s.

(* [crates/chain/src/execution/working_set.rs:174-178] WorkingBatch::commit *)
Definition WorkingBatch_commit (b : WorkingBatch) : BlockWorkingSet :=
  mk_BlockWorkingSet (wb_coins b) (wb_edges b) (wb_registry b).

#[export] Instance BlockWorkingSet_ops : StoreOps BlockWorkingSet WorkingBatch := {|
  begin := BlockWorkingSet_begin;
  commit := WorkingBatch_commit;
  drop_batch := wb_parent;
|}.

(** ** The instances honour the contract *)

Section slot_lemmas.
  Context {K V : Type} `{Countable K}.

Lemma slot_insert_Ok (m : gmap K V) k v r m' :
  slot_insert m k v = (Ok r, m') -> m !! k = None /\ m' = <[k := v]> m.
Proof. unfold slot_insert. case_match; [done|]. by intros [= _ <-]. Qed.

Lemma slot_insert_Exists (m : gmap K V) k v e m' :
  slot_insert m k v = (Err e, m') -> e = Exists /\ is_Some (m !! k).
Proof. unfold slot_insert. case_match; [|done]. intros [= <- _]. eauto. Qed.

Lemma occupied_lookup (m : gmap K (option V)) k : occupied m !! k = mjoin (m !! k).
Proof. unfold occupied. rewrite lookup_omap. by destruct (m !! k). Qed.

Lemma declared_insert_Ok (m : gmap K (option V)) k v r m' :
  declared_insert m k v = (Ok r, m') ->
  occupied m !! k = None /\ occupied m' = <[k := v]> (occupied m).
Proof.
  unfold declared_insert. rewrite occupied_lookup. destruct (m !! k) as [[?|]|] eqn:E; [done| |done].
  intros [= _ <-]. split; [done|]. apply map_eq. intros j.
  rewrite occupied_lookup. destruct (decide (j = k)) as [->|]; simplify_map_eq; [done|].
  by rewrite occupied_lookup.
Qed.

Lemma declared_insert_Exists (m : gmap K (option V)) k v m' :
  declared_insert m k v = (Err Exists, m') -> is_Some (occupied m !! k).
Proof.
  unfold declared_insert. rewrite occupied_lookup.
  destruct (m !! k) as [[?|]|] eqn:E; [|done|done]. intros _; simpl; eauto.
Qed.

Lemma declared_take_view (m : gmap K (option V)) k o m' :
  declared_take m k = (o, m') -> o = occupied m !! k /\ occupied m' = delete k (occupied m).
Proof.
  unfold declared_take. rewrite occupied_lookup. destruct (m !! k) as [s|] eqn:E.
  - intros [= <- <-]. split; [done|]. apply map_eq. intros j. rewrite occupied_lookup.
    destruct (decide (j = k)) as [->|]; simplify_map_eq; [done|]. by rewrite occupied_lookup.
  - intros [= <- <-]. split; [done|]. rewrite delete_id; [done|]. by rewrite occupied_lookup, E.
Qed.
End slot_lemmas.

Ltac slot_solve :=
  simpl; intros *;
  repeat match goal with |- context [slot_insert ?m ?k ?v] =>
           let E := fresh "E" in destruct (slot_insert m k v) as [[]] eqn:E
         | |- context [declared_insert ?m ?k ?v] =>
           let E := fresh "E" in destruct (declared_insert m k v) as [[]] eqn:E
         | |- context [declared_take ?m ?k] =>
           let E := fresh "E" in destruct (declared_take m k) as [] eqn:E end;
  intros; simplify_eq;
  repeat match goal with
  | E : slot_insert _ _ _ = (Ok _, _) |- _ => apply slot_insert_Ok in E as [? ->]
  | E : slot_insert _ _ _ = (Err _, _) |- _ => apply slot_insert_Exists in E as [? ?]
  | E : declared_insert _ _ _ = (Ok _, _) |- _ => apply declared_insert_Ok in E as [? ?]
  | E : declared_insert _ _ _ = (Err Exists, _) |- _ => apply declared_insert_Exists in E
  | E : declared_take _ _ = _ |- _ => apply declared_take_view in E as [? ?]
  end; unfold with_coins, with_edges, with_registry_map; simpl in *; subst;
  try (split; [done|]); congruence || done || auto.

#[export] Program Instance MapTx_laws : BatchLaws MapTx := {| bview := tx_working |}.
Solve All Obligations with slot_solve.

#[export] Program Instance MapStore_laws : StoreLaws MapStore MapTx := {| sview := map_state |}.
Solve All Obligations with slot_solve.

#[export] Instance MapTx_accepting : Accepting MapTx.
Proof. split; slot_solve. Qed.

Definition WorkingBatch_view (b : WorkingBatch) : KState :=
  mk_KState (occupied (wb_coins b)) (occupied (wb_edges b)) (occupied (wb_registry b)).

#[export] Program Instance WorkingBatch_laws : BatchLaws WorkingBatch :=
  {| bview := WorkingBatch_view |}.
Next Obligation. intros. simpl. by rewrite occupied_lookup. Qed.
Next Obligation. intros. simpl. by rewrite occupied_lookup. Qed.
Next Obligation. intros. simpl. by rewrite occupied_lookup. Qed.
Solve All Obligations with unfold WorkingBatch_view; slot_solve.

#[export] Program Instance BlockWorkingSet_laws : StoreLaws BlockWorkingSet WorkingBatch :=
  {| sview s := mk_KState (occupied (ws_coins s)) (occupied (ws_edges s)) (occupied (ws_registry s))
  |}.
Next Obligation. done. Qed.
Next Obligation. done. Qed.
Next Obligation. done. Qed.
Solve All Obligations with slot_solve.
