(* ===== verification/Event.v ===== *)
(** * Changes and events (crates/kernel/src/event.rs, registry.rs)

    A validated operation is a [Change]: the effect to fold into the batch, the
    public event that reports it and the registry writes that go with it.  The
    fold threads the batch through every store call, also on the error paths,
    where the batch has been partly written.  [Change_post] is the abstract
    effect, and [Change_fold_Ok] the refinement between the two. *)

From S2P Require Import Prelude Primitive Errors Objects Registry Store.

(* [event.rs:150-176] EventKind *)
Inductive EventKind :=
  | EdgeOpened (inputs : list CoinId) (output : EdgeId)
  | EdgeClosed (input : EdgeId) (outputs : list CoinId)
  | CoinsReshaped (inputs outputs : list CoinId).

(* [event.rs:136-148] Event *)
Notation Event := EventKind.

(* [event.rs:34-52] ApplyOutcome *)
Record ApplyOutcome := mk_ApplyOutcome {
  outcome_public_event : option EventKind;
  outcome_registry : RegistryDiff;
}.

(* [event.rs:312-345] Effect *)
Inductive Effect :=
  | Effect_Open (coins : list (CoinId * Coin)) (edge : EdgeId * Edge)
  | Effect_Close (edge : EdgeId * Edge) (coins : list (CoinId * Coin))
  | Effect_Reshape (inputs outputs : list (CoinId * Coin)).

(* [event.rs:186-199] Change *)
Inductive Change :=
  | Change_Public (event : EventKind) (effect : Effect) (registry : RegistryDiff)
  | Change_Private (registry : RegistryDiff).

(* [event.rs:307-309] Change::ids *)
Definition Change_ids (coins : list (CoinId * Coin)) : list CoinId := map fst coins.

(* [event.rs:202-215] Change::open *)
Definition Change_open (inputs : list (CoinId * Coin)) (output : EdgeId * Edge) : Change :=
  Change_Public (EdgeOpened (Change_ids inputs) output.1) (Effect_Open inputs output)
    RegistryDiff_empty.

(* [event.rs:217-230] Change::close *)
Definition Change_close (input : EdgeId * Edge) (outputs : list (CoinId * Coin)) : Change :=
  Change_Public (EdgeClosed input.1 (Change_ids outputs)) (Effect_Close input outputs)
    RegistryDiff_empty.

(* [event.rs:232-248] Change::reshape *)
Definition Change_reshape (inputs outputs : list (CoinId * Coin)) : Change :=
  Change_Public (CoinsReshaped (Change_ids inputs) (Change_ids outputs))
    (Effect_Reshape inputs outputs) RegistryDiff_empty.

(* [event.rs:250-261] Change::private *)
Definition Change_private (registry : RegistryDiff) : Change := Change_Private registry.

(* [event.rs:263-277] Change::with_registry *)
Definition Change_with_registry (self : Change) (diff : RegistryDiff) : Change :=
  match self with
  | Change_Public event effect _ => Change_Public event effect diff
  | Change_Private _ => Change_Private diff
  end.

(* [event.rs:279-293] Change::outcome *)
Definition Change_outcome (self : Change) : ApplyOutcome :=
  match self with
  | Change_Public event _ registry => mk_ApplyOutcome (Some event) registry
  | Change_Private registry => mk_ApplyOutcome None registry
  end.

Definition Change_registry (self : Change) : RegistryDiff :=
  match self with Change_Public _ _ r => r | Change_Private r => r end.

(** ** Folding into a batch *)

(** Continue with the batch a call returned, or stop with it on an error. *)
Definition and_then {A C B} (m : KernelResult A * B) (k : A -> B -> KernelResult C * B)
    : KernelResult C * B :=
  match m with
  | (Ok a, b) => k a b
  | (Err e, b) => (Err e, b)
  end.

Section fold.
  Context {B : Type} `{BatchOps B}.

(* [event.rs:384-388] Effect::insert_coin *)
Definition Effect_insert_coin (b : B) (c : CoinId * Coin) : KernelResult unit * B :=
  let '(r, b) := insert_coin b c.1 c.2 in
  (map_err (CoinInsertRejected c.1) r, b).

(* [event.rs:390-396] Effect::remove_coin *)
Definition Effect_remove_coin (b : B) (c : CoinId * Coin) : KernelResult unit * B :=
  let '(o, b) := remove_coin b c.1 in
  match o with
  | Some removed =>
      if bool_decide (removed = c.2) then (Ok tt, b) else (Err (CoinChanged c.1), b)
  | None => (Err (MissingCoin c.1), b)
  end.

(* [event.rs:398-402] Effect::insert_edge *)
Definition Effect_insert_edge (b : B) (e : EdgeId * Edge) : KernelResult unit * B :=
  let '(r, b) := insert_edge b e.1 e.2 in
  (map_err (EdgeInsertRejected e.1) r, b).

(* [event.rs:404-410] Effect::remove_edge *)
Definition Effect_remove_edge (b : B) (e : EdgeId * Edge) : KernelResult unit * B :=
  let '(o, b) := remove_edge b e.1 in
  match o with
  | Some removed =>
      if bool_decide (removed = e.2) then (Ok tt, b) else (Err (EdgeChanged e.1), b)
  | None => (Err (MissingEdge e.1), b)
  end.

(* [event.rs:364-372] Effect::insert_coins *)
Fixpoint Effect_insert_coins (b : B) (coins : list (CoinId * Coin)) : KernelResult unit * B :=
  match coins with
  | [] => (Ok tt, b)
  | c :: coins => and_then (Effect_insert_coin b c) (fun _ b => Effect_insert_coins b coins)
  end.

(* [event.rs:374-382] Effect::remove_coins *)
Fixpoint Effect_remove_coins (b : B) (coins : list (CoinId * Coin)) : KernelResult unit * B :=
  match coins with
  | [] => (Ok tt, b)
  | c :: coins => and_then (Effect_remove_coin b c) (fun _ b => Effect_remove_coins b coins)
  end.

(* [event.rs:347-362] Effect::fold *)
Definition Effect_fold (self : Effect) (b : B) : KernelResult unit * B :=
  match self with
  | Effect_Open coins edge =>
      and_then (Effect_remove_coins b coins) (fun _ b => Effect_insert_edge b edge)
  | Effect_Close edge coins =>
      and_then (Effect_remove_edge b edge) (fun _ b => Effect_insert_coins b coins)
  | Effect_Reshape inputs outputs =>
      and_then (Effect_remove_coins b inputs) (fun _ b => Effect_insert_coins b outputs)
  end.

(* [registry.rs:540-565] RegistryMutation::fold *)
Definition RegistryMutation_fold (self : RegistryMutation) (b : B) : KernelResult unit * B :=
  match mutation_chunk self with
  | Some chunk =>
      let '(_, b) := remove_registry_chunk b (mutation_id self) in
      let '(r, b) := insert_registry_chunk b (mutation_id self) chunk in
      (map_err (RegistryChunkInsertRejected (mutation_id self)) r, b)
  | None =>
      let '(o, b) := remove_registry_chunk b (mutation_id self) in
      (match o with Some _ => Ok tt | None => Err (MissingRegistryChunk (mutation_id self)) end, b)
  end.

(* [registry.rs:670-676] RegistryDiff::fold *)
Fixpoint RegistryDiff_fold (self : RegistryDiff) (b : B) : KernelResult unit * B :=
  match self with
  | [] => (Ok tt, b)
  | m :: self => and_then (RegistryMutation_fold m b) (fun _ b => RegistryDiff_fold self b)
  end.

(* [event.rs:295-305] Change::fold *)
Definition Change_fold (self : Change) (b : B) : KernelResult unit * B :=
  match self with
  | Change_Public _ effect registry =>
      and_then (Effect_fold effect b) (fun _ b => RegistryDiff_fold registry b)
  | Change_Private registry => RegistryDiff_fold registry b
  end.
End fold.

(** ** Abstract effects *)

Definition delete_all {V} (ids : list CoinId) (m : gmap CoinId V) : gmap CoinId V :=
  foldl (fun m id => delete id m) m ids.
Definition insert_all (coins : list (CoinId * Coin)) (m : gmap CoinId Coin) : gmap CoinId Coin :=
  foldl (fun m c => <[c.1 := c.2]> m) m coins.

Definition Effect_post (e : Effect) (s : KState) : KState :=
  match e with
  | Effect_Open coins (id, ed) =>
      with_edges <[id := ed]> (with_coins (delete_all (map fst coins)) s)
  | Effect_Close (id, ed) coins =>
      with_coins (insert_all coins) (with_edges (delete id) s)
  | Effect_Reshape inputs outputs =>
      with_coins (insert_all outputs) (with_coins (delete_all (map fst inputs)) s)
  end.

Definition mutation_post (m : RegistryMutation)
    (r : gmap RegistryChunkId RegistryChunk) : gmap RegistryChunkId RegistryChunk :=
  match mutation_chunk m with
  | Some c => <[mutation_id m := c]> r
  | None => delete (mutation_id m) r
  end.

(** What a host replaying the diff writes. *)
Definition diff_post (d : RegistryDiff) (r : gmap RegistryChunkId RegistryChunk)
    : gmap RegistryChunkId RegistryChunk :=
  foldl (fun r m => mutation_post m r) r d.

Definition Change_post (c : Change) (s : KState) : KState :=
  match c with
  | Change_Public _ effect registry => with_registry_map (diff_post registry) (Effect_post effect s)
  | Change_Private registry => with_registry_map (diff_post registry) s
  end.

(** What the batch must hold for an effect or a diff to fold. *)
Definition coins_present (coins : list (CoinId * Coin)) (m : gmap CoinId Coin) : Prop :=
  NoDup (map fst coins) /\ Forall (fun c => m !! c.1 = Some c.2) coins.
Definition coins_absent (coins : list (CoinId * Coin)) (m : gmap CoinId Coin) : Prop :=
  NoDup (map fst coins) /\ Forall (fun c => m !! c.1 = None) coins.

Definition Effect_pre (e : Effect) (s : KState) : Prop :=
  match e with
  | Effect_Open coins (id, _) => coins_present coins (ks_coins s) /\ ks_edges s !! id = None
  | Effect_Close (id, ed) coins =>
      ks_edges s !! id = Some ed /\ coins_absent coins (ks_coins s)
  | Effect_Reshape inputs outputs =>
      coins_present inputs (ks_coins s) /\
      coins_absent outputs (delete_all (map fst inputs) (ks_coins s))
  end.

Fixpoint diff_pre (d : RegistryDiff) (r : gmap RegistryChunkId RegistryChunk) : Prop :=
  match d with
  | [] => True
  | m :: d => (mutation_chunk m = None -> is_Some (r !! mutation_id m)) /\
              diff_pre d (mutation_post m r)
  end.

Definition Change_pre (c : Change) (s : KState) : Prop :=
  match c with
  | Change_Public _ effect registry => Effect_pre effect s /\ diff_pre registry (ks_registry s)
  | Change_Private registry => diff_pre registry (ks_registry s)
  end.

(** ** Refinement: what a successful fold did to the abstract state *)

(** The total of the coins and the edges of a state. *)
Definition coins_total (s : KState) : N := map_sum Coin_value (ks_coins s).
Definition edge_holding (e : Edge) : N := (Edge_value e + Edge_reserve e)%N.
Definition edges_total (s : KState) : N := map_sum edge_holding (ks_edges s).
Definition supply (s : KState) : N := (coins_total s + edges_total s)%N.

Lemma and_then_Ok {A C B} (m : KernelResult A * B) (k : A -> B -> KernelResult C * B) c b' :
  and_then m k = (Ok c, b') <-> exists a b, m = (Ok a, b) /\ k a b = (Ok c, b').
Proof.
  destruct m as [[a|e] b]; simpl; split; [eauto| |done|]; intros (? & ? & [=] & ?); by subst.
Qed.

Section refine.
  Context {B : Type} `{BatchLaws B}.
  Implicit Types b : B.

Lemma Effect_insert_coin_Ok b c b' :
  Effect_insert_coin b c = (Ok tt, b') ->
  ks_coins (bview b) !! c.1 = None /\ bview b' = with_coins <[c.1 := c.2]> (bview b).
Proof.
  unfold Effect_insert_coin. destruct (insert_coin b c.1 c.2) as [[[]|] b1] eqn:E; [|done].
  simpl. intros [= <-]. by apply insert_coin_Ok.
Qed.

Lemma Effect_remove_coin_Ok b c b' :
  Effect_remove_coin b c = (Ok tt, b') ->
  ks_coins (bview b) !! c.1 = Some c.2 /\ bview b' = with_coins (delete c.1) (bview b).
Proof.
  unfold Effect_remove_coin. destruct (remove_coin b c.1) as [o b1] eqn:E.
  apply remove_coin_view in E as [-> Hv]. case_match; [|done]. case_match; [|done].
  bool_simpl. intros [= <-]. by subst.
Qed.

Lemma Effect_insert_edge_Ok b e b' :
  Effect_insert_edge b e = (Ok tt, b') ->
  ks_edges (bview b) !! e.1 = None /\ bview b' = with_edges <[e.1 := e.2]> (bview b).
Proof.
  unfold Effect_insert_edge. destruct (insert_edge b e.1 e.2) as [[[]|] b1] eqn:E; [|done].
  simpl. intros [= <-]. by apply insert_edge_Ok.
Qed.

Lemma Effect_remove_edge_Ok b e b' :
  Effect_remove_edge b e = (Ok tt, b') ->
  ks_edges (bview b) !! e.1 = Some e.2 /\ bview b' = with_edges (delete e.1) (bview b).
Proof.
  unfold Effect_remove_edge. destruct (remove_edge b e.1) as [o b1] eqn:E.
  apply remove_edge_view in E as [-> Hv]. case_match; [|done]. case_match; [|done].
  bool_simpl. intros [= <-]. by subst.
Qed.

Lemma Effect_remove_coins_Ok b coins b' :
  Effect_remove_coins b coins = (Ok tt, b') ->
  bview b' = with_coins (delete_all (map fst coins)) (bview b) /\
  coins_present coins (ks_coins (bview b)) /\
  coins_total (bview b) = (sumN (fun c => Coin_value c.2) coins + coins_total (bview b'))%N.
Proof.
  revert b. induction coins as [|c coins IH]; intros b Hr; simpl in Hr.
  - injection Hr as <-. split_and!; [by destruct (bview b)|by split; constructor|done].
  - apply and_then_Ok in Hr as ([] & b1 & Hc & Hr).
    apply Effect_remove_coin_Ok in Hc as [Hin Hv]. apply IH in Hr as (-> & [Hnd Hall] & Htot).
    rewrite Hv in *. simpl in Hall.
    assert (Hall' : Forall (fun c' => c'.1 <> c.1 /\ ks_coins (bview b) !! c'.1 = Some c'.2) coins).
    { eapply Forall_impl; [exact Hall|]. intros c' Hc'. simpl in Hc'.
      apply lookup_delete_Some in Hc' as [? ?]. done. }
    split_and!; [done|split|].
    + constructor; [|done]. intros Hmem. apply list_elem_of_fmap in Hmem as (c' & Heq & Hmem).
      rewrite Forall_forall in Hall'. by destruct (Hall' c' Hmem).
    + constructor; [done|]. eapply Forall_impl; [exact Hall'|]. by intros ? [_ ?].
    + unfold coins_total in *. simpl in *. rewrite (map_sum_delete _ _ _ _ Hin), Htot. lia.
Qed.

Lemma Effect_insert_coins_Ok b coins b' :
  Effect_insert_coins b coins = (Ok tt, b') ->
  bview b' = with_coins (insert_all coins) (bview b) /\
  coins_absent coins (ks_coins (bview b)) /\
  coins_total (bview b') = (sumN (fun c => Coin_value c.2) coins + coins_total (bview b))%N.
Proof.
  revert b. induction coins as [|c coins IH]; intros b Hr; simpl in Hr.
  - injection Hr as <-. split_and!; [by destruct (bview b)|by split; constructor|done].
  - apply and_then_Ok in Hr as ([] & b1 & Hc & Hr).
    apply Effect_insert_coin_Ok in Hc as [Hin Hv]. apply IH in Hr as (-> & [Hnd Hall] & Htot).
    rewrite Hv in *. simpl in Hall.
    assert (Hall' : Forall (fun c' => c'.1 <> c.1 /\ ks_coins (bview b) !! c'.1 = None) coins).
    { eapply Forall_impl; [exact Hall|]. intros c' Hc'. simpl in Hc'.
      apply lookup_insert_None in Hc' as [? ?]. done. }
    split_and!; [done|split|].
    + constructor; [|done]. intros Hmem. apply list_elem_of_fmap in Hmem as (c' & Heq & Hmem).
      rewrite Forall_forall in Hall'. by destruct (Hall' c' Hmem).
    + constructor; [done|]. eapply Forall_impl; [exact Hall'|]. by intros ? [_ ?].
    + rewrite Htot. unfold coins_total; simpl. rewrite map_sum_insert by done. lia.
Qed.

(** What an effect takes out of the state and what it puts in. *)
Definition Effect_debit (e : Effect) : N :=
  match e with
  | Effect_Open coins _ | Effect_Reshape coins _ => sumN (fun c => Coin_value c.2) coins
  | Effect_Close (_, ed) _ => edge_holding ed
  end.
Definition Effect_credit (e : Effect) : N :=
  match e with
  | Effect_Open _ (_, ed) => edge_holding ed
  | Effect_Close _ coins | Effect_Reshape _ coins => sumN (fun c => Coin_value c.2) coins
  end.

Lemma Effect_fold_Ok e b b' :
  Effect_fold e b = (Ok tt, b') ->
  Effect_pre e (bview b) /\ bview b' = Effect_post e (bview b) /\
  (supply (bview b') + Effect_debit e = supply (bview b) + Effect_credit e)%N.
Proof.
  destruct e as [coins [id ed]|[id ed] coins|inputs outputs]; simpl;
    intros ([] & b1 & H1 & H2)%and_then_Ok.
  - apply Effect_remove_coins_Ok in H1 as (Hv & Hpre & Ht).
    apply Effect_insert_edge_Ok in H2 as [Habs ->]. simpl in *.
    rewrite Hv in *. split_and!; [done|done|done|].
    unfold supply, edges_total, coins_total in *. simpl in *. rewrite map_sum_insert by done. lia.
  - apply Effect_remove_edge_Ok in H1 as [Hin Hv]. simpl in *.
    apply Effect_insert_coins_Ok in H2 as (Hv' & Habs & Ht). rewrite Hv in *.
    split_and!; [done|done|done|]. rewrite Hv' in *.
    unfold supply, edges_total in *. simpl in *.
    rewrite (map_sum_delete _ (ks_edges _) _ _ Hin).
    unfold coins_total in *. simpl in *. lia.
  - apply Effect_remove_coins_Ok in H1 as (Hv & Hpre & Ht).
    apply Effect_insert_coins_Ok in H2 as (Hv' & Habs & Ht'). rewrite Hv in *.
    split_and!; [done|done|done|]. rewrite Hv' in *.
    unfold supply, edges_total, coins_total in *. simpl in *. lia.
Qed.

Lemma RegistryMutation_fold_Ok m b b' :
  RegistryMutation_fold m b = (Ok tt, b') ->
  (mutation_chunk m = None -> is_Some (ks_registry (bview b) !! mutation_id m)) /\
  bview b' = with_registry_map (mutation_post m) (bview b).
Proof.
  unfold RegistryMutation_fold, mutation_post.
  destruct (remove_registry_chunk b (mutation_id m)) as [o b2] eqn:E.
  apply remove_registry_view in E as [-> Hv2]. destruct (mutation_chunk m) as [c|] eqn:Ec.
  - destruct (insert_registry_chunk b2 (mutation_id m) c) as [[[]|] b3] eqn:E3; [|done].
    intros [= ->]. apply insert_registry_Ok in E3 as [_ ->]. rewrite Hv2.
    split; [done|]. unfold with_registry_map; simpl. by rewrite insert_delete_eq.
  - case_match; [|done]. intros [= ->]. split; [by eauto|done].
Qed.

Lemma RegistryDiff_fold_Ok d b b' :
  RegistryDiff_fold d b = (Ok tt, b') ->
  diff_pre d (ks_registry (bview b)) /\ bview b' = with_registry_map (diff_post d) (bview b).
Proof.
  revert b. induction d as [|m d IH]; intros b Hr; simpl in Hr.
  { injection Hr as <-. split; [done|]. by destruct (bview b). }
  apply and_then_Ok in Hr as ([] & b1 & [Hp Hv]%RegistryMutation_fold_Ok & Hr).
  apply IH in Hr as [Hpre ->]. by rewrite Hv in *.
Qed.

(** The refinement of a whole change. *)
Lemma Change_fold_Ok c b b' :
  Change_fold c b = (Ok tt, b') ->
  Change_pre c (bview b) /\ bview b' = Change_post c (bview b).
Proof.
  destruct c as [event effect registry|registry]; simpl.
  - intros ([] & b1 & H1 & H2)%and_then_Ok.
    apply Effect_fold_Ok in H1 as (Hpre & Hv & _). apply RegistryDiff_fold_Ok in H2 as [Hd ->].
    rewrite Hv in *. split; [|done]. split; [done|].
    by destruct effect as [? []|[] ?|]; simpl in *.
  - apply RegistryDiff_fold_Ok.
Qed.
End refine.

Lemma diff_post_lookup_ne d r id :
  Forall (fun m => mutation_id m <> id) d -> diff_post d r !! id = r !! id.
Proof.
  unfold diff_post. intros Hall. revert r.
  induction Hall as [|m d Hm _ IH]; intros r; simpl; [done|]. rewrite IH. unfold mutation_post.
  case_match; [by rewrite lookup_insert_ne|by rewrite lookup_delete_ne].
Qed.

(** ** Rolling back: no call of the fold touches the parent store *)

Section rollback.
  Context {S B : Type} `{StoreLaws S B}.
  Implicit Types b : B.

Lemma and_then_drop {A C} (m : KernelResult A * B) (k : A -> B -> KernelResult C * B) (s : S) :
  drop_batch m.2 = s -> (forall a b, drop_batch b = s -> drop_batch (k a b).2 = s) ->
  drop_batch (and_then m k).2 = s.
Proof. destruct m as [[]]; simpl; auto. Qed.

Lemma Effect_insert_coins_drop coins b :
  drop_batch (Effect_insert_coins b coins).2 = drop_batch b.
Proof.
  revert b. induction coins as [|c coins IH]; intros b; [done|].
  apply and_then_drop; [|intros; by rewrite IH].
  rewrite <- (drop_insert_coin b c.1 c.2). unfold Effect_insert_coin. by destruct insert_coin.
Qed.

Lemma Effect_remove_coins_drop coins b :
  drop_batch (Effect_remove_coins b coins).2 = drop_batch b.
Proof.
  revert b. induction coins as [|c coins IH]; intros b; [done|].
  apply and_then_drop; [|intros; by rewrite IH].
  rewrite <- (drop_remove_coin b c.1). unfold Effect_remove_coin.
  destruct remove_coin as [[] ?]; [case_match|]; done.
Qed.

Lemma RegistryMutation_fold_drop m b :
  drop_batch (RegistryMutation_fold m b).2 = drop_batch b.
Proof.
  rewrite <- (drop_remove_registry b (mutation_id m)). unfold RegistryMutation_fold.
  destruct (remove_registry_chunk b (mutation_id m)) as [o b1]; simpl. case_match; [|by destruct o].
  rewrite <- (drop_insert_registry b1 (mutation_id m) r). by destruct insert_registry_chunk.
Qed.

Lemma RegistryDiff_fold_drop d b : drop_batch (RegistryDiff_fold d b).2 = drop_batch b.
Proof.
  revert b. induction d as [|m d IH]; intros b; [done|].
  apply and_then_drop; [apply RegistryMutation_fold_drop|]. intros; by rewrite IH.
Qed.

Lemma Effect_fold_drop e b : drop_batch (Effect_fold e b).2 = drop_batch b.
Proof.
  destruct e as [coins ed|ed coins|inputs outputs]; simpl; apply and_then_drop.
  - apply Effect_remove_coins_drop.
  - intros _ b' <-. rewrite <- (drop_insert_edge b' ed.1 ed.2). unfold Effect_insert_edge.
    by destruct insert_edge.
  - rewrite <- (drop_remove_edge b ed.1). unfold Effect_remove_edge.
    destruct remove_edge as [[] ?]; [case_match|]; done.
  - intros _ b' <-. apply Effect_insert_coins_drop.
  - apply Effect_remove_coins_drop.
  - intros _ b' <-. apply Effect_insert_coins_drop.
Qed.

Lemma Change_fold_drop c b : drop_batch (Change_fold c b).2 = drop_batch b.
Proof.
  destruct c; simpl; [|apply RegistryDiff_fold_drop].
  apply and_then_drop; [apply Effect_fold_drop|]. intros _ b' <-. apply RegistryDiff_fold_drop.
Qed.
End rollback.

(** ** Accepting stores: the preconditions suffice *)

Section accepting.
  Context {B : Type} `{BatchLaws B} `{!Accepting B}.
  Implicit Types b : B.

Lemma insert_coin_absent b id c :
  ks_coins (bview b) !! id = None -> exists b', insert_coin b id c = (Ok tt, b').
Proof.
  intros Hn. destruct (insert_coin b id c) as [[[]|[]] b'] eqn:E; [eauto| |].
  - apply insert_coin_Exists in E as [? ?]. congruence.
  - by apply insert_coin_accepts in E.
Qed.

Lemma insert_edge_absent b id e :
  ks_edges (bview b) !! id = None -> exists b', insert_edge b id e = (Ok tt, b').
Proof.
  intros Hn. destruct (insert_edge b id e) as [[[]|[]] b'] eqn:E; [eauto| |].
  - apply insert_edge_Exists in E as [? ?]. congruence.
  - by apply insert_edge_accepts in E.
Qed.

Lemma insert_registry_absent b id c :
  ks_registry (bview b) !! id = None -> exists b', insert_registry_chunk b id c = (Ok tt, b').
Proof.
  intros Hn. destruct (insert_registry_chunk b id c) as [[[]|[]] b'] eqn:E; [eauto| |].
  - apply insert_registry_Exists in E as [? ?]. congruence.
  - by apply insert_registry_accepts in E.
Qed.

Lemma Effect_insert_coins_accepts b coins :
  coins_absent coins (ks_coins (bview b)) ->
  exists b', Effect_insert_coins b coins = (Ok tt, b').
Proof.
  revert b. induction coins as [|c coins IH]; intros b [Hnd Hall]; [by eexists|].
  apply NoDup_cons in Hnd as [Hni Hnd]. apply Forall_cons in Hall as [Hc Hall].
  destruct (insert_coin_absent b c.1 c.2 Hc) as [b1 E].
  simpl. unfold Effect_insert_coin at 1. rewrite E. simpl. apply IH.
  apply insert_coin_Ok in E as [_ ->]. split; [done|]. simpl.
  apply Forall_forall. intros c' Hc'. rewrite Forall_forall in Hall.
  rewrite lookup_insert_ne; [by apply Hall|]. intros Heq. apply Hni.
  rewrite Heq. by apply list_elem_of_fmap_2.
Qed.

Lemma Effect_remove_coins_accepts b coins :
  coins_present coins (ks_coins (bview b)) ->
  exists b', Effect_remove_coins b coins = (Ok tt, b').
Proof.
  revert b. induction coins as [|c coins IH]; intros b [Hnd Hall]; [by eexists|].
  apply NoDup_cons in Hnd as [Hni Hnd]. apply Forall_cons in Hall as [Hc Hall].
  simpl. unfold Effect_remove_coin at 1. destruct (remove_coin b c.1) as [o b1] eqn:E.
  apply remove_coin_view in E as [-> Hv]. rewrite Hc, bool_decide_eq_true_2 by done. simpl.
  apply IH. rewrite Hv. split; [done|]. simpl.
  apply Forall_forall. intros c' Hc'. rewrite Forall_forall in Hall.
  rewrite lookup_delete_ne; [by apply Hall|]. intros Heq. apply Hni.
  rewrite Heq. by apply list_elem_of_fmap_2.
Qed.

Lemma RegistryDiff_fold_accepts d b :
  diff_pre d (ks_registry (bview b)) -> exists b', RegistryDiff_fold d b = (Ok tt, b').
Proof.
  revert b. induction d as [|m d IH]; intros b Hpre; [by eexists|]. destruct Hpre as [Hm Hpre].
  assert (exists b1, RegistryMutation_fold m b = (Ok tt, b1)) as [b1 E].
  { unfold RegistryMutation_fold. destruct (remove_registry_chunk b (mutation_id m)) as [o b1] eqn:E.
    apply remove_registry_view in E as [-> Hv]. destruct (mutation_chunk m) as [c|] eqn:Ec.
    - destruct (insert_registry_absent b1 (mutation_id m) c) as [b2 E2]; [|rewrite E2; by eexists].
      rewrite Hv. simpl. apply lookup_delete_eq.
    - destruct (Hm eq_refl) as [x ->]. by eexists. }
  simpl. rewrite E. simpl. apply IH. apply RegistryMutation_fold_Ok in E as [_ ->]. done.
Qed.

Lemma Effect_fold_accepts e b :
  Effect_pre e (bview b) -> exists b', Effect_fold e b = (Ok tt, b').
Proof.
  destruct e as [coins [id ed]|[id ed] coins|inputs outputs]; simpl; intros [H1 H2].
  - destruct (Effect_remove_coins_accepts b coins H1) as [b1 E]. rewrite E. simpl.
    apply Effect_remove_coins_Ok in E as (Hv & _). unfold Effect_insert_edge; simpl.
    destruct (insert_edge_absent b1 id ed) as [b2 ->]; [by rewrite Hv|]. by eexists.
  - unfold Effect_remove_edge at 1; simpl. destruct (remove_edge b id) as [o b1] eqn:E.
    apply remove_edge_view in E as [-> Hv]. rewrite H1, bool_decide_eq_true_2 by done. simpl.
    apply Effect_insert_coins_accepts. by rewrite Hv.
  - destruct (Effect_remove_coins_accepts b inputs H1) as [b1 E]. rewrite E. simpl.
    apply Effect_remove_coins_Ok in E as (Hv & _).
    apply Effect_insert_coins_accepts. by rewrite Hv.
Qed.

(** On an accepting store a change folds exactly when its preconditions hold. *)
Lemma Change_fold_accepts c b :
  Change_pre c (bview b) -> exists b', Change_fold c b = (Ok tt, b').
Proof.
  destruct c as [event effect registry|registry]; simpl; [|apply RegistryDiff_fold_accepts].
  intros [H1 H2]. destruct (Effect_fold_accepts effect b H1) as [b1 E]. rewrite E. simpl.
  apply RegistryDiff_fold_accepts. apply Effect_fold_Ok in E as (_ & -> & _).
  by destruct effect as [? []|[] ?|]; simpl in *.
Qed.
End accepting.
