(* ===== verification/Terms.v ===== *)
(** * Edge terms (crates/kernel/src/terms.rs)

    The three bodies an edge can commit to, the hash that commits to them and
    the codec that recomputes that hash. *)

From S2P Require Import Prelude Xet Canonical Primitive Context Objects.

Notation Outputs_codec := (List_ Payout_codec MAX_EDGE_OUTPUTS).

(* [terms.rs:74-97] WorkStakeBondTerms *)
Record WorkStakeBondTerms := mk_WorkStakeBondTerms {
  bond_parties : Parties;
  bond_timeout : BlockHeight;
  bond_timeout_outputs : list Payout;
  bond_max_job_price : N;
}.

(* [terms.rs:99-156] WorkPaymentTerms *)
Record WorkPaymentTerms := mk_WorkPaymentTerms {
  wp_bond_edge : EdgeId;
  wp_bond_terms : WorkStakeBondTerms;
  wp_private_policy_commitment : bytes;
  wp_omit_response_blocks : N;
  wp_start_validity_blocks : N;
  wp_omission_bond : N;
}.

(* [terms.rs:46-65] TermsBody *)
Inductive TermsBody :=
  | Basic (protocol : ProtocolCode) (parties : Parties) (timeout : BlockHeight)
      (timeout_outputs : list Payout)
  | WorkPayment (payment : WorkPaymentTerms)
  | WorkStakeBond (bond : WorkStakeBondTerms).

(* [terms.rs:70-70] BASIC_TAG *)
Definition BASIC_TAG : N := 0.
(* [terms.rs:71-71] WORK_PAYMENT_TAG *)
Definition WORK_PAYMENT_TAG : N := 2.
(* [terms.rs:72-72] WORK_STAKE_BOND_TAG *)
Definition WORK_STAKE_BOND_TAG : N := 4.

(** ** Codecs of the bodies *)

Definition WorkStakeBondTerms_wf (t : WorkStakeBondTerms) : bool :=
  let '(mk_WorkStakeBondTerms parties timeout outputs price) := t in
  wf Parties_codec parties && wf BlockHeight_codec timeout && wf Outputs_codec outputs &&
  wf u64 price.

(* [terms.rs:424-429] WorkStakeBondTerms::encode_to *)
Definition WorkStakeBondTerms_encode_to (t : WorkStakeBondTerms) : bytes :=
  let '(mk_WorkStakeBondTerms parties timeout outputs price) := t in
  encode_to Parties_codec parties ++ encode_to BlockHeight_codec timeout ++
  encode_to Outputs_codec outputs ++ encode_to u64 price.

(* [terms.rs:432-449] WorkStakeBondTerms::decode *)
Definition WorkStakeBondTerms_decode (buf : bytes) : decoded WorkStakeBondTerms :=
  let? '(parties, consumed) := decode_field Parties_codec buf 0 in
  let? '(timeout, consumed) := decode_field BlockHeight_codec buf consumed in
  let? '(outputs, consumed) := decode_field Outputs_codec buf consumed in
  let? '(price, consumed) := decode_field u64 buf consumed in
  Ok (mk_WorkStakeBondTerms parties timeout outputs price, consumed).

(* [terms.rs:411-422] WorkStakeBondTerms *)
Definition WorkStakeBondTerms_codec : Codec WorkStakeBondTerms := {|
  MAX_ENCODED_SIZE := MAX_ENCODED_SIZE Parties_codec + MAX_ENCODED_SIZE BlockHeight_codec
    + MAX_ENCODED_SIZE Outputs_codec + MAX_ENCODED_SIZE u64;
  encoded_size := fun '(mk_WorkStakeBondTerms parties _ outputs _) =>
    (encoded_size Parties_codec parties + MAX_ENCODED_SIZE BlockHeight_codec
     + encoded_size Outputs_codec outputs + MAX_ENCODED_SIZE u64)%nat;
  encode_to := WorkStakeBondTerms_encode_to;
  decode := WorkStakeBondTerms_decode;
  wf := WorkStakeBondTerms_wf |}.

(* [terms.rs:345-354] encode_work_stake_bond_witness *)
Definition encode_work_stake_bond_witness (bond : WorkStakeBondTerms) : bytes :=
  encode_envelope tag_TERMS ++ encode_to u8 WORK_STAKE_BOND_TAG ++
  encode_to WorkStakeBondTerms_codec bond.

(* [terms.rs:356-364] decode_work_stake_bond_witness *)
Definition decode_work_stake_bond_witness (buf : bytes) : decoded WorkStakeBondTerms :=
  let? consumed := decode_envelope buf tag_TERMS in
  let? '(variant, consumed) := decode_field u8 buf consumed in
  if negb (variant =? WORK_STAKE_BOND_TAG)%N then Err (InvalidTag variant) else
  let? '(bond, consumed) := decode_field WorkStakeBondTerms_codec buf consumed in
  Ok (bond, consumed).

(* [terms.rs:366-371] work_stake_bond_witness_size *)
Definition bond_witness_codec : Codec WorkStakeBondTerms := {|
  MAX_ENCODED_SIZE :=
    ENVELOPE_SIZE + MAX_ENCODED_SIZE u8 + MAX_ENCODED_SIZE WorkStakeBondTerms_codec;
  encoded_size := fun bond =>
    (ENVELOPE_SIZE + MAX_ENCODED_SIZE u8 + encoded_size WorkStakeBondTerms_codec bond)%nat;
  encode_to := encode_work_stake_bond_witness;
  decode := decode_work_stake_bond_witness;
  wf := wf WorkStakeBondTerms_codec |}.

Definition WorkPaymentTerms_wf (t : WorkPaymentTerms) : bool :=
  let '(mk_WorkPaymentTerms edge bond policy omit validity omission) := t in
  wf EdgeId_codec edge && wf bond_witness_codec bond && wf (array HASH_LENGTH) policy &&
  wf u64 omit && wf u64 validity && wf u64 omission.

(* [terms.rs:464-471] WorkPaymentTerms::encode_to *)
Definition WorkPaymentTerms_encode_to (t : WorkPaymentTerms) : bytes :=
  let '(mk_WorkPaymentTerms edge bond policy omit validity omission) := t in
  encode_to EdgeId_codec edge ++ encode_to bond_witness_codec bond ++
  encode_to (array HASH_LENGTH) policy ++ encode_to u64 omit ++ encode_to u64 validity ++
  encode_to u64 omission.

(* [terms.rs:474-500] WorkPaymentTerms::decode *)
Definition WorkPaymentTerms_decode (buf : bytes) : decoded WorkPaymentTerms :=
  let? '(edge, consumed) := decode_field EdgeId_codec buf 0 in
  if (length buf <? consumed)%nat then Err (InvalidConsumption consumed (length buf)) else
  let rest := drop consumed buf in
  let? '(bond, witness_size) := decode_work_stake_bond_witness rest in
  let consumed := (consumed + witness_size)%nat in
  let? '(policy, consumed) := decode_field (array HASH_LENGTH) buf consumed in
  let? '(omit, consumed) := decode_field u64 buf consumed in
  let? '(validity, consumed) := decode_field u64 buf consumed in
  let? '(omission, consumed) := decode_field u64 buf consumed in
  Ok (mk_WorkPaymentTerms edge bond policy omit validity omission, consumed).

(* [terms.rs:451-462] WorkPaymentTerms *)
Definition WorkPaymentTerms_codec : Codec WorkPaymentTerms := {|
  MAX_ENCODED_SIZE := MAX_ENCODED_SIZE EdgeId_codec + MAX_ENCODED_SIZE bond_witness_codec
    + HASH_LENGTH + 3 * MAX_ENCODED_SIZE u64;
  encoded_size := fun '(mk_WorkPaymentTerms _ bond _ _ _ _) =>
    (MAX_ENCODED_SIZE EdgeId_codec + encoded_size bond_witness_codec bond
     + HASH_LENGTH + 3 * MAX_ENCODED_SIZE u64)%nat;
  encode_to := WorkPaymentTerms_encode_to;
  decode := WorkPaymentTerms_decode;
  wf := WorkPaymentTerms_wf |}.

(* [terms.rs:406-409] BASIC_BODY_SIZE *)
Definition BASIC_BODY_SIZE : nat :=
  MAX_ENCODED_SIZE ProtocolCode_codec + MAX_ENCODED_SIZE Parties_codec
  + MAX_ENCODED_SIZE BlockHeight_codec + MAX_ENCODED_SIZE Outputs_codec.

Definition TermsBody_wf (b : TermsBody) : bool :=
  match b with
  | Basic protocol parties timeout outputs =>
      wf ProtocolCode_codec protocol && wf Parties_codec parties &&
      wf BlockHeight_codec timeout && wf Outputs_codec outputs
  | WorkPayment payment => wf WorkPaymentTerms_codec payment
  | WorkStakeBond bond => wf WorkStakeBondTerms_codec bond
  end.

(* [terms.rs:536-560] TermsBody::encode_to *)
Definition TermsBody_encode_to (b : TermsBody) : bytes :=
  match b with
  | Basic protocol parties timeout outputs =>
      encode_envelope tag_TERMS ++ encode_to u8 BASIC_TAG ++
      encode_to ProtocolCode_codec protocol ++ encode_to Parties_codec parties ++
      encode_to BlockHeight_codec timeout ++ encode_to Outputs_codec outputs
  | WorkPayment payment =>
      encode_envelope tag_TERMS ++ encode_to u8 WORK_PAYMENT_TAG ++
      encode_to WorkPaymentTerms_codec payment
  | WorkStakeBond bond =>
      encode_envelope tag_TERMS ++ encode_to u8 WORK_STAKE_BOND_TAG ++
      encode_to WorkStakeBondTerms_codec bond
  end.

(* [terms.rs:563-594] TermsBody::decode *)
Definition TermsBody_decode (buf : bytes) : decoded TermsBody :=
  let? consumed := decode_envelope buf tag_TERMS in
  let? '(variant, consumed) := decode_field u8 buf consumed in
  if (variant =? BASIC_TAG)%N then
    let? '(protocol, consumed) := decode_field ProtocolCode_codec buf consumed in
    let? '(parties, consumed) := decode_field Parties_codec buf consumed in
    let? '(timeout, consumed) := decode_field BlockHeight_codec buf consumed in
    let? '(outputs, consumed) := decode_field Outputs_codec buf consumed in
    Ok (Basic protocol parties timeout outputs, consumed)
  else if (variant =? WORK_PAYMENT_TAG)%N then
    let? '(payment, consumed) := decode_field WorkPaymentTerms_codec buf consumed in
    Ok (WorkPayment payment, consumed)
  else if (variant =? WORK_STAKE_BOND_TAG)%N then
    let? '(bond, consumed) := decode_field WorkStakeBondTerms_codec buf consumed in
    Ok (WorkStakeBond bond, consumed)
  else Err (InvalidTag variant).

(* [terms.rs:502-534] TermsBody *)
Definition TermsBody_codec : Codec TermsBody := {|
  MAX_ENCODED_SIZE := ENVELOPE_SIZE + MAX_ENCODED_SIZE u8
    + Nat.max (Nat.max BASIC_BODY_SIZE (MAX_ENCODED_SIZE WorkStakeBondTerms_codec))
        (MAX_ENCODED_SIZE WorkPaymentTerms_codec);
  encoded_size := fun b => (ENVELOPE_SIZE + MAX_ENCODED_SIZE u8 +
    match b with
    | Basic protocol parties timeout outputs =>
        encoded_size ProtocolCode_codec protocol + encoded_size Parties_codec parties
        + encoded_size BlockHeight_codec timeout + encoded_size Outputs_codec outputs
    | WorkPayment payment => encoded_size WorkPaymentTerms_codec payment
    | WorkStakeBond bond => encoded_size WorkStakeBondTerms_codec bond
    end)%nat;
  encode_to := TermsBody_encode_to;
  decode := TermsBody_decode;
  wf := TermsBody_wf |}.

#[export] Instance WorkStakeBondTerms_eq_dec : EqDecision WorkStakeBondTerms.
Proof. solve_decision. Defined.
#[export] Instance WorkPaymentTerms_eq_dec : EqDecision WorkPaymentTerms.
Proof. solve_decision. Defined.
#[export] Instance TermsBody_eq_dec : EqDecision TermsBody.
Proof. solve_decision. Defined.

(** ** Terms and their hash *)

(* [terms.rs:40-44] Terms *)
Record Terms := mk_Terms { Terms_body : TermsBody; Terms_hash : TermsHash }.

#[export] Instance Terms_eq_dec : EqDecision Terms.
Proof. solve_decision. Defined.

(* [terms.rs:196-212] TermsProfile *)
Inductive TermsProfile :=
  | Profile_Basic
  | Profile_WorkPayment (payment : WorkPaymentTerms)
  | Profile_WorkStakeBond (bond : WorkStakeBondTerms).

Section terms.
  Context `{Blake3}.

Definition TermsBody_domain (b : TermsBody) : bytes :=
  match b with
  | Basic _ _ _ _ => TERMS_BASIC
  | WorkPayment _ => TERMS_WORK_PAYMENT
  | WorkStakeBond _ => TERMS_WORK_STAKE_BOND
  end.

(* [terms.rs:373-384] TermsBody::compute_hash *)
Definition TermsBody_compute_hash (b : TermsBody) : TermsHash :=
  TermsHash_from_bytes (canonical_hash (TermsBody_domain b) TermsBody_codec b).

(* [terms.rs:243-246] Terms::commit *)
Definition Terms_commit (body : TermsBody) : Terms := mk_Terms body (TermsBody_compute_hash body).

(* [terms.rs:215-229] Terms::basic *)
Definition Terms_basic (protocol : ProtocolCode) (parties : Parties) (timeout : BlockHeight)
    (timeout_outputs : list Payout) : Terms :=
  Terms_commit (Basic protocol parties timeout timeout_outputs).

(* [terms.rs:231-235] Terms::work_payment *)
Definition Terms_work_payment (payment : WorkPaymentTerms) : Terms :=
  Terms_commit (WorkPayment payment).

(* [terms.rs:237-241] Terms::work_stake_bond *)
Definition Terms_work_stake_bond (bond : WorkStakeBondTerms) : Terms :=
  Terms_commit (WorkStakeBond bond).

(* [terms.rs:333-343] work_stake_bond_terms_hash *)
Definition work_stake_bond_terms_hash (bond : WorkStakeBondTerms) : TermsHash :=
  TermsHash_from_bytes
    (xet_hash (concat [TERMS_WORK_STAKE_BOND; encode_work_stake_bond_witness bond])).

(* [terms.rs:159-166] WorkPaymentTerms::bond_terms_hash *)
Definition WorkPaymentTerms_bond_terms_hash (t : WorkPaymentTerms) : TermsHash :=
  work_stake_bond_terms_hash (wp_bond_terms t).

(* [terms.rs:398-404] Terms::decode *)
Definition Terms_decode (buf : bytes) : decoded Terms :=
  let? '(body, consumed) := decode TermsBody_codec buf in
  let hash := TermsBody_compute_hash body in
  Ok (mk_Terms body hash, consumed).

(* [terms.rs:386-396] Terms *)
Definition Terms_codec : Codec Terms := {|
  MAX_ENCODED_SIZE := MAX_ENCODED_SIZE TermsBody_codec;
  encoded_size := fun t => encoded_size TermsBody_codec (Terms_body t);
  encode_to := fun t => encode_to TermsBody_codec (Terms_body t);
  decode := Terms_decode;
  wf := fun t => wf TermsBody_codec (Terms_body t)
                 && bool_decide (Terms_hash t = TermsBody_compute_hash (Terms_body t)) |}.
End terms.

(* [terms.rs:168-177] WorkPaymentTerms::parties *)
Definition WorkPaymentTerms_parties (t : WorkPaymentTerms) : Parties :=
  let bond := bond_parties (wp_bond_terms t) in
  Parties_new (Parties_taker bond) (Parties_maker bond).

(* [terms.rs:179-194] WorkPaymentTerms::admission_horizon *)
Definition WorkPaymentTerms_admission_horizon (t : WorkPaymentTerms) : BlockHeight :=
  bond_timeout (wp_bond_terms t).

(* [terms.rs:256-264] Terms::profile *)
Definition Terms_profile (t : Terms) : TermsProfile :=
  match Terms_body t with
  | Basic _ _ _ _ => Profile_Basic
  | WorkPayment payment => Profile_WorkPayment payment
  | WorkStakeBond bond => Profile_WorkStakeBond bond
  end.

(* [terms.rs:266-273] Terms::basic_protocol *)
Definition Terms_basic_protocol (t : Terms) : option ProtocolCode :=
  match Terms_body t with
  | Basic protocol _ _ _ => Some protocol
  | WorkPayment _ | WorkStakeBond _ => None
  end.

(* [terms.rs:275-283] Terms::parties *)
Definition Terms_parties (t : Terms) : Parties :=
  match Terms_body t with
  | Basic _ parties _ _ => parties
  | WorkPayment payment => WorkPaymentTerms_parties payment
  | WorkStakeBond bond => bond_parties bond
  end.

(* [terms.rs:285-297] Terms::timeout *)
Definition Terms_timeout (t : Terms) : BlockHeight :=
  match Terms_body t with
  | Basic _ _ timeout _ => timeout
  | WorkPayment payment => WorkPaymentTerms_admission_horizon payment
  | WorkStakeBond bond => bond_timeout bond
  end.

(* [terms.rs:299-316] Terms::timeout_outputs *)
Definition Terms_timeout_outputs (t : Terms) : option (list Payout) :=
  match Terms_body t with
  | Basic _ _ _ timeout_outputs => Some timeout_outputs
  | WorkPayment _ => None
  | WorkStakeBond bond => Some (bond_timeout_outputs bond)
  end.

(* [terms.rs:318-330] Terms::allowed_closes *)
Definition Terms_allowed_closes (t : Terms) : CloseKindSet :=
  match Terms_body t with
  | Basic _ _ _ _ => CloseKindSet_BASIC
  | WorkPayment _ => CloseKindSet_WORK_PAYMENT
  | WorkStakeBond _ => CloseKindSet_WORK_STAKE_BOND
  end.

(** ** Codec laws *)

#[export] Instance WorkStakeBondTerms_lawful : Lawful WorkStakeBondTerms_codec.
Proof.
  codec_lawful WorkStakeBondTerms_codec WorkStakeBondTerms_encode_to WorkStakeBondTerms_decode
    WorkStakeBondTerms_wf.
Qed.

#[export] Instance bond_witness_lawful : Lawful bond_witness_codec.
Proof.
  split; unfold bond_witness_codec; cbn [MAX_ENCODED_SIZE encoded_size encode_to decode wf];
    unfold encode_work_stake_bond_witness.
  - intros. codec_sum.
  - intros. codec_sum.
  - intros x rest Hw.
    codec_run_encode encode_work_stake_bond_witness decode_work_stake_bond_witness.
    do 2 f_equal; codec_sum.
  - intros buf x n H. codec_run_decode decode_work_stake_bond_witness H.
    split_and!; [done|eexists; rewrite <- ?app_assoc; reflexivity|codec_sum].
Qed.

(** The bond witness is read inline; for a lawful codec that is [decode_field]. *)
Lemma decode_inline {A C} (cd : Codec A) `{!Lawful cd} buf c (k : A -> nat -> result C DecodeError) :
  (if (length buf <? c)%nat then Err (InvalidConsumption c (length buf)) else
   let? '(x, n) := decode cd (drop c buf) in k x (c + n)%nat) =
  let? '(x, c') := decode_field cd buf c in k x c'.
Proof.
  unfold decode_field. destruct (length buf <? c)%nat; [done|].
  destruct (decode cd (drop c buf)) as [[x n]|] eqn:E; [simpl|done].
  apply decode_sound in E as (_ & [rest ->] & ->). rewrite length_app.
  by destruct (Nat.ltb_spec (length (encode_to cd x) + length rest) (length (encode_to cd x)));
    [lia|].
Qed.

Definition WorkPaymentTerms_decode_fields (buf : bytes) : decoded WorkPaymentTerms :=
  let? '(edge, consumed) := decode_field EdgeId_codec buf 0 in
  let? '(bond, consumed) := decode_field bond_witness_codec buf consumed in
  let? '(policy, consumed) := decode_field (array HASH_LENGTH) buf consumed in
  let? '(omit, consumed) := decode_field u64 buf consumed in
  let? '(validity, consumed) := decode_field u64 buf consumed in
  let? '(omission, consumed) := decode_field u64 buf consumed in
  Ok (mk_WorkPaymentTerms edge bond policy omit validity omission, consumed).

Lemma WorkPaymentTerms_decode_eq buf :
  WorkPaymentTerms_decode buf = WorkPaymentTerms_decode_fields buf.
Proof.
  unfold WorkPaymentTerms_decode, WorkPaymentTerms_decode_fields.
  destruct (decode_field EdgeId_codec buf 0) as [[edge c]|]; [|done]. cbn [rbind].
  apply (decode_inline bond_witness_codec buf c (fun bond consumed =>
    let? '(policy, consumed) := decode_field (array HASH_LENGTH) buf consumed in
    let? '(omit, consumed) := decode_field u64 buf consumed in
    let? '(validity, consumed) := decode_field u64 buf consumed in
    let? '(omission, consumed) := decode_field u64 buf consumed in
    Ok (mk_WorkPaymentTerms edge bond policy omit validity omission, consumed))).
Qed.

#[export] Instance WorkPaymentTerms_lawful : Lawful WorkPaymentTerms_codec.
Proof.
  assert (MAX_ENCODED_SIZE (array HASH_LENGTH) = HASH_LENGTH) by done.
  split; unfold WorkPaymentTerms_codec;
    cbn [MAX_ENCODED_SIZE encoded_size encode_to decode wf].
  - intros [] Hw; unfold WorkPaymentTerms_wf, WorkPaymentTerms_encode_to in *. bool_simpl. codec_sum.
  - intros [] Hw; unfold WorkPaymentTerms_wf, WorkPaymentTerms_encode_to in *. bool_simpl. codec_sum.
  - intros [] rest Hw. unfold WorkPaymentTerms_wf in Hw. bool_simpl.
    rewrite WorkPaymentTerms_decode_eq.
    codec_run_encode WorkPaymentTerms_encode_to WorkPaymentTerms_decode_fields.
    do 2 f_equal; unfold WorkPaymentTerms_encode_to; codec_sum.
  - intros buf x n Hd. rewrite WorkPaymentTerms_decode_eq in Hd.
    codec_run_decode WorkPaymentTerms_decode_fields Hd.
    codec_sound_end WorkPaymentTerms_wf WorkPaymentTerms_encode_to.
Qed.

#[export] Instance TermsBody_lawful : Lawful TermsBody_codec.
Proof.
  assert (BASIC_BODY_SIZE = MAX_ENCODED_SIZE ProtocolCode_codec + MAX_ENCODED_SIZE Parties_codec
    + MAX_ENCODED_SIZE BlockHeight_codec + MAX_ENCODED_SIZE Outputs_codec)%nat by done.
  codec_lawful TermsBody_codec TermsBody_encode_to TermsBody_decode TermsBody_wf.
Qed.

Section terms_laws.
  Context `{Blake3}.

#[export] Instance Terms_lawful : Lawful Terms_codec.
Proof.
  split; unfold Terms_codec; cbn [MAX_ENCODED_SIZE encoded_size encode_to decode wf].
  - intros t Hw. bool_simpl. by apply encoded_size_exact.
  - intros t Hw. bool_simpl. by apply encoded_size_max.
  - intros [body hash] rest Hw. simpl in Hw. rewrite andb_true_iff in Hw. destruct Hw as [Hw Hh].
    unfold Terms_decode. cbn [Terms_body]. rewrite decode_encode by done. cbn [rbind].
    bool_simpl. by subst.
  - intros buf t n Hd. unfold Terms_decode in Hd. inv_ok. subst. cbn [Terms_body Terms_hash].
    apply decode_sound in E as (Hw & Hr & Hn). rewrite Hw, bool_decide_eq_true_2 by done. done.
Qed.

(** The hash a payment names its bond by is the hash the bond's terms commit to. *)
Lemma work_stake_bond_terms_hash_commit bond :
  work_stake_bond_terms_hash bond = Terms_hash (Terms_work_stake_bond bond).
Proof.
  unfold work_stake_bond_terms_hash, Terms_work_stake_bond, Terms_commit, TermsBody_compute_hash,
    canonical_hash. cbn [Terms_hash concat]. by rewrite app_nil_r.
Qed.

Lemma Terms_hash_length t :
  wf Terms_codec t = true -> wf TermsHash_codec (Terms_hash t) = true.
Proof.
  cbn [wf Terms_codec]. intros Hw. bool_simpl. destruct t as [body hash]; simpl in *. subst.
  simpl. apply Nat.eqb_eq, xet_hash_length.
Qed.
End terms_laws.

(** Every profile commits one of the three permitted close sets. *)
Lemma Terms_allowed_closes_permitted t :
  wf CloseKindSet_codec (Terms_allowed_closes t) = true.
Proof. unfold Terms_allowed_closes. by case_match. Qed.
