(* ===== verification/Work.v ===== *)
(** * Work-payment closes (crates/kernel/src/work.rs)

    The settlement arithmetic of a payment edge, the certificate, start and
    response messages with the digests their signers commit to, and the pending
    record a contest leaves in the registry. *)

From S2P Require Import Prelude Xet Canonical Primitive Errors Context Auth Objects Registry.
From S2P Require Import Store Terms.

#[local] Open Scope N_scope.

(* [work.rs:72-72] WORK_CLOSE_VERSION *)
Definition WORK_CLOSE_VERSION : N := 3.
(* [work.rs:73-73] WORK_PENDING_VERSION *)
Definition WORK_PENDING_VERSION : N := 4.
(* [work.rs:83-83] WORK_PAYMENT_CLOSE_SLOTS *)
Definition WORK_PAYMENT_CLOSE_SLOTS : N := 4.

(** ** Settlement arithmetic *)

(* [work.rs:85-91] work_payment_close_cost *)
Definition work_payment_close_cost (kind : CloseKind) : Cost :=
  Cost_new 1 WORK_PAYMENT_CLOSE_SLOTS (CloseKind_proofs kind).

(* [work.rs:93-99] work_payment_reserve_cost *)
Definition work_payment_reserve_cost : Cost := work_payment_close_cost Freeze.

(* [work.rs:126-134] route_minimum *)
Definition route_minimum (edge : EdgeValues) : option N :=
  freeze ← EdgeValues_close_value edge (work_payment_close_cost Freeze);
  adjudicated ← EdgeValues_close_value edge (work_payment_close_cost Adjudicated);
  Some (if freeze <? adjudicated then freeze else adjudicated).

(* [work.rs:114-124] close_route_minimum *)
Definition close_route_minimum (edge : Edge) : option N := route_minimum (Edge_values edge).

(* [work.rs:136-183] WorkPaymentSettlement *)
Record WorkPaymentSettlement := mk_WorkPaymentSettlement {
  freeze_total : N;
  adjudicated_total : N;
  settlement_capacity : N;
  settlement_omission_bond : N;
}.

(* [work.rs:185-206] work_payment_settlement *)
Definition work_payment_settlement (edge : EdgeValues) (omission_bond : N)
    : option WorkPaymentSettlement :=
  freeze_total ← EdgeValues_close_value edge (work_payment_close_cost Freeze);
  adjudicated_total ← EdgeValues_close_value edge (work_payment_close_cost Adjudicated);
  minimum ← route_minimum edge;
  capacity ← checked_sub minimum omission_bond;
  Some (mk_WorkPaymentSettlement freeze_total adjudicated_total capacity omission_bond).

(* [work.rs:101-112] payment_capacity *)
Definition payment_capacity (edge : Edge) (omission_bond : N) : option N :=
  settlement_capacity <$> work_payment_settlement (Edge_values edge) omission_bond.

(** [owner_signed] is [[maker, taker]]. *)
(* [work.rs:271-295] split_payouts *)
Definition split_payouts (parties : Parties) (total provider_total : N)
    (owner_signed : bool * bool) : result (Payout * Payout) InvalidProofReason :=
  let? client_total := ok_or (checked_sub total provider_total) PayoutOverCapacity in
  Ok (PartyKeys_payout (Parties_taker parties) provider_total owner_signed.2,
      PartyKeys_payout (Parties_maker parties) client_total owner_signed.1).

(* [work.rs:208-243] adjudicated_payouts *)
Definition adjudicated_payouts (settlement : WorkPaymentSettlement) (parties : Parties)
    (final_cumulative : N) (penalty_due : bool) (owner_signed : bool * bool)
    : result (Payout * Payout) InvalidProofReason :=
  let penalty := if penalty_due then settlement_omission_bond settlement else 0 in
  let? provider := ok_or (checked_add final_cumulative penalty) PayoutOverCapacity in
  split_payouts parties (adjudicated_total settlement) provider owner_signed.

(* [work.rs:245-269] freeze_payouts *)
Definition freeze_payouts (settlement : WorkPaymentSettlement) (parties : Parties)
    (earned penalty : N) (owner_signed : bool * bool)
    : result (Payout * Payout) InvalidProofReason :=
  let? provider := ok_or (checked_add earned penalty) PayoutOverCapacity in
  split_payouts parties (freeze_total settlement) provider owner_signed.

(** ** The certificate *)

(* [work.rs:308-335] EarnedCertificate *)
Record EarnedCertificate := EarnedCertificate_new {
  cert_payment_edge : EdgeId;
  cert_payment_terms_hash : TermsHash;
  cert_earned_cumulative : N;
}.

(* [work.rs:316-321] EarnedCertificate::ENCODED_SIZE *)
Definition EarnedCertificate_ENCODED_SIZE : nat :=
  ENVELOPE_SIZE + MAX_ENCODED_SIZE u8 + MAX_ENCODED_SIZE EdgeId_codec
  + MAX_ENCODED_SIZE TermsHash_codec + MAX_ENCODED_SIZE u64.

Definition EarnedCertificate_wf (c : EarnedCertificate) : bool :=
  let '(EarnedCertificate_new edge terms earned) := c in
  wf EdgeId_codec edge && wf TermsHash_codec terms && wf u64 earned.

(* [work.rs:389-395] EarnedCertificate::encode_to *)
Definition EarnedCertificate_encode_to (c : EarnedCertificate) : bytes :=
  let '(EarnedCertificate_new edge terms earned) := c in
  encode_envelope tag_EARNED_CERTIFICATE ++ encode_to u8 WORK_CLOSE_VERSION ++
  encode_to EdgeId_codec edge ++ encode_to TermsHash_codec terms ++ encode_to u64 earned.

(* [work.rs:399-412] EarnedCertificate::decode *)
Definition EarnedCertificate_decode (buf : bytes) : decoded EarnedCertificate :=
  let? consumed := decode_envelope buf tag_EARNED_CERTIFICATE in
  let? '(version, consumed) := decode_field u8 buf consumed in
  if negb (version =? WORK_CLOSE_VERSION) then Err (InvalidTag version) else
  let? '(edge, consumed) := decode_field EdgeId_codec buf consumed in
  let? '(terms, consumed) := decode_field TermsHash_codec buf consumed in
  let? '(earned, consumed) := decode_field u64 buf consumed in
  Ok (EarnedCertificate_new edge terms earned, consumed).

(* [work.rs:382-387] EarnedCertificate *)
Definition EarnedCertificate_codec : Codec EarnedCertificate := {|
  MAX_ENCODED_SIZE := EarnedCertificate_ENCODED_SIZE;
  encoded_size := fun _ => EarnedCertificate_ENCODED_SIZE;
  encode_to := EarnedCertificate_encode_to;
  decode := EarnedCertificate_decode;
  wf := EarnedCertificate_wf |}.

(** ** Digests: the writes of each preimage, in order *)

(* [work.rs:485-510] StartId *)
Record StartId := StartId_from_bytes { StartId_bytes : bytes }.
(* [work.rs:512-529] StartId *)
Definition StartId_codec : Codec StartId := newtype ID_LENGTH StartId_from_bytes StartId_bytes.

#[export] Instance StartId_eq_dec : EqDecision StartId.
Proof. solve_decision. Defined.
#[export] Instance EarnedCertificate_eq_dec : EqDecision EarnedCertificate.
Proof. solve_decision. Defined.

(* [work.rs:364-374] earned_preimage *)
Definition earned_preimage (network : NetworkId) (c : EarnedCertificate) : list bytes :=
  [WORK_EARNED_CERTIFICATE; NetworkId_encode_to network;
   encode_to EdgeId_codec (cert_payment_edge c);
   encode_to TermsHash_codec (cert_payment_terms_hash c);
   encode_to EarnedCertificate_codec c].

(* [work.rs:427-435] no_earned_preimage *)
Definition no_earned_preimage (edge : EdgeId) (terms : TermsHash) : list bytes :=
  [WORK_NO_EARNED_CERTIFICATE; encode_to EdgeId_codec edge; encode_to TermsHash_codec terms].

(* [work.rs:464-476] settlement_preimage *)
Definition settlement_preimage (network : NetworkId) (edge : EdgeId) (terms : TermsHash)
    (amount : N) : list bytes :=
  [WORK_SETTLEMENT_STATE; NetworkId_encode_to network; encode_to EdgeId_codec edge;
   encode_to TermsHash_codec terms; encode_to u64 amount].

(* [work.rs:685-702] start_preimage *)
Definition start_preimage (network : NetworkId) (edge : EdgeId) (terms : TermsHash)
    (opener_role : Party) (validity : N * N) (earned_digest_or_none : PayloadHash) : list bytes :=
  [WORK_START_PAYMENT_CLOSE; NetworkId_encode_to network; encode_to EdgeId_codec edge;
   encode_to TermsHash_codec terms; encode_to Party_codec opener_role;
   encode_to u64 validity.1; encode_to u64 validity.2;
   encode_to PayloadHash_codec earned_digest_or_none].

(* [work.rs:721-729] start_id_preimage *)
Definition start_id_preimage (start_digest : PayloadHash) (inclusion_height : N) : list bytes :=
  [WORK_START_PAYMENT_CLOSE_ID; encode_to PayloadHash_codec start_digest;
   encode_to u64 inclusion_height].

(* [work.rs:923-939] response_preimage *)
Definition response_preimage (network : NetworkId) (edge : EdgeId) (terms : TermsHash)
    (start_id : StartId) (responder_role : Party) (earned_digest : PayloadHash) : list bytes :=
  [WORK_RESPOND_PAYMENT_CLOSE; NetworkId_encode_to network; encode_to EdgeId_codec edge;
   encode_to TermsHash_codec terms; encode_to StartId_codec start_id;
   encode_to Party_codec responder_role; encode_to PayloadHash_codec earned_digest].

Section digests.
  Context `{Blake3}.

(* [work.rs:355-361] EarnedCertificate::digest *)
Definition EarnedCertificate_digest (c : EarnedCertificate) (network : NetworkId) : PayloadHash :=
  PayloadHash_from_bytes (xet_hash (concat (earned_preimage network c))).

(* [work.rs:415-425] no_earned_digest *)
Definition no_earned_digest (edge : EdgeId) (terms : TermsHash) : PayloadHash :=
  PayloadHash_from_bytes (xet_hash (concat (no_earned_preimage edge terms))).

(* [work.rs:441-462] settlement_commitment *)
Definition settlement_commitment (network : NetworkId) (edge : EdgeId) (terms : TermsHash)
    (amount : N) : bytes :=
  xet_hash (concat (settlement_preimage network edge terms amount)).

(* [work.rs:662-683] start_digest *)
Definition start_digest (network : NetworkId) (edge : EdgeId) (terms : TermsHash)
    (opener_role : Party) (validity : N * N) (earned_digest_or_none : PayloadHash) : PayloadHash :=
  PayloadHash_from_bytes (xet_hash (concat
    (start_preimage network edge terms opener_role validity earned_digest_or_none))).

(* [work.rs:712-719] start_id *)
Definition start_id (start_digest : PayloadHash) (inclusion_height : N) : StartId :=
  StartId_from_bytes (xet_hash (concat (start_id_preimage start_digest inclusion_height))).

(* [work.rs:900-921] response_digest *)
Definition response_digest (network : NetworkId) (edge : EdgeId) (terms : TermsHash)
    (start_id : StartId) (responder_role : Party) (earned_digest : PayloadHash) : PayloadHash :=
  PayloadHash_from_bytes (xet_hash (concat
    (response_preimage network edge terms start_id responder_role earned_digest))).

(* [work.rs:1443-1458] freeze_preimage *)
Definition freeze_preimage (network : NetworkId) (edge : EdgeId) (terms : TermsHash)
    (earned : N) (validity : N * N) : list bytes :=
  [WORK_FREEZE_CLOSE; NetworkId_encode_to network; encode_to EdgeId_codec edge;
   encode_to TermsHash_codec terms;
   encode_to (array HASH_LENGTH) (settlement_commitment network edge terms earned);
   encode_to u64 validity.1; encode_to u64 validity.2].

(* [work.rs:1422-1441] freeze_digest *)
Definition freeze_digest (network : NetworkId) (edge : EdgeId) (terms : TermsHash)
    (earned : N) (validity : N * N) : PayloadHash :=
  PayloadHash_from_bytes (xet_hash (concat (freeze_preimage network edge terms earned validity))).
End digests.

(** ** Start *)

(* [work.rs:531-556] PaymentCloseStart *)
Record PaymentCloseStart := mk_PaymentCloseStart {
  start_payment_edge : EdgeId;
  start_terms : Terms;
  start_opener_role : Party;
  start_valid_from_height : N;
  start_valid_through_height : N;
  start_certificate : option (EarnedCertificate * PartyAuth);
  start_action : PartyAuth;
}.

(* [work.rs:561-561] CERTIFICATE_ABSENT *)
Definition CERTIFICATE_ABSENT : N := 0.
(* [work.rs:562-562] CERTIFICATE_PRESENT *)
Definition CERTIFICATE_PRESENT : N := 1.

(* [work.rs:648-659] PaymentCloseStart::cost *)
Definition PaymentCloseStart_cost (s : PaymentCloseStart) : Cost :=
  let proofs := match start_certificate s with Some _ => 2 | None => 1 end in
  Cost_new 1 2 proofs.

(** ** Response *)

(* [work.rs:820-834] PaymentCloseResponse *)
Record PaymentCloseResponse := mk_PaymentCloseResponse {
  resp_payment_edge : EdgeId;
  resp_start_id : StartId;
  resp_responder_role : Party;
  resp_certificate : EarnedCertificate;
  resp_certificate_auth : PartyAuth;
  resp_action : PartyAuth;
}.

(* [work.rs:893-897] PaymentCloseResponse::cost *)
Definition PaymentCloseResponse_cost (r : PaymentCloseResponse) : Cost := Cost_new 1 2 2.

Definition PaymentCloseResponse_wf (r : PaymentCloseResponse) : bool :=
  let '(mk_PaymentCloseResponse edge id role cert cert_auth action) := r in
  wf EdgeId_codec edge && wf StartId_codec id && wf Party_codec role &&
  wf EarnedCertificate_codec cert && wf PartyAuth_codec cert_auth && wf PartyAuth_codec action.

(* [work.rs:964-973] PaymentCloseResponse::encode_to *)
Definition PaymentCloseResponse_encode_to (r : PaymentCloseResponse) : bytes :=
  let '(mk_PaymentCloseResponse edge id role cert cert_auth action) := r in
  encode_envelope tag_PAYMENT_CLOSE_RESPONSE ++ encode_to u8 WORK_CLOSE_VERSION ++
  encode_to EdgeId_codec edge ++ encode_to StartId_codec id ++ encode_to Party_codec role ++
  encode_to EarnedCertificate_codec cert ++ encode_to PartyAuth_codec cert_auth ++
  encode_to PartyAuth_codec action.

(* [work.rs:977-999] PaymentCloseResponse::decode *)
Definition PaymentCloseResponse_decode (buf : bytes) : decoded PaymentCloseResponse :=
  let? consumed := decode_envelope buf tag_PAYMENT_CLOSE_RESPONSE in
  let? '(version, consumed) := decode_field u8 buf consumed in
  if negb (version =? WORK_CLOSE_VERSION) then Err (InvalidTag version) else
  let? '(edge, consumed) := decode_field EdgeId_codec buf consumed in
  let? '(id, consumed) := decode_field StartId_codec buf consumed in
  let? '(role, consumed) := decode_field Party_codec buf consumed in
  let? '(cert, consumed) := decode_field EarnedCertificate_codec buf consumed in
  let? '(cert_auth, consumed) := decode_field PartyAuth_codec buf consumed in
  let? '(action, consumed) := decode_field PartyAuth_codec buf consumed in
  Ok (mk_PaymentCloseResponse edge id role cert cert_auth action, consumed).

Definition PaymentCloseResponse_MAX : nat :=
  ENVELOPE_SIZE + MAX_ENCODED_SIZE u8 + MAX_ENCODED_SIZE EdgeId_codec
  + MAX_ENCODED_SIZE StartId_codec + MAX_ENCODED_SIZE Party_codec
  + EarnedCertificate_ENCODED_SIZE + 2 * MAX_ENCODED_SIZE PartyAuth_codec.

(* [work.rs:949-962] PaymentCloseResponse *)
Definition PaymentCloseResponse_codec : Codec PaymentCloseResponse := {|
  MAX_ENCODED_SIZE := PaymentCloseResponse_MAX;
  encoded_size := fun '(mk_PaymentCloseResponse _ _ _ _ cert_auth action) =>
    (PaymentCloseResponse_MAX - 2 * MAX_ENCODED_SIZE PartyAuth_codec
     + encoded_size PartyAuth_codec cert_auth + encoded_size PartyAuth_codec action)%nat;
  encode_to := PaymentCloseResponse_encode_to;
  decode := PaymentCloseResponse_decode;
  wf := PaymentCloseResponse_wf |}.

(** ** The pending record *)

(* [tx/proof.rs:198-232] PaymentContestCommitment *)
Record PaymentContestCommitment :=
  PaymentContestCommitment_from_bytes { PaymentContestCommitment_bytes : bytes }.

(* [tx/proof.rs:234-252] PaymentContestCommitment *)
Definition PaymentContestCommitment_codec : Codec PaymentContestCommitment :=
  newtype HASH_LENGTH PaymentContestCommitment_from_bytes PaymentContestCommitment_bytes.

(* [work.rs:1015-1027] PendingPaymentClose *)
Record PendingPaymentClose := mk_PendingPaymentClose {
  pending_payment_edge : EdgeId;
  pending_opener_role : Party;
  pending_start_id : StartId;
  pending_response_deadline : N;
  pending_start_cumulative : N;
  pending_final_cumulative : N;
  pending_responded : bool;
  pending_penalty_due : bool;
  pending_penalty_amount : N;
  pending_owner_signed : bool * bool;
}.

#[export] Instance PaymentContestCommitment_eq_dec : EqDecision PaymentContestCommitment.
Proof. solve_decision. Defined.
#[export] Instance PendingPaymentClose_eq_dec : EqDecision PendingPaymentClose.
Proof. solve_decision. Defined.

(* [work.rs:1086-1119] PendingPaymentClose::opened *)
Definition PendingPaymentClose_opened (payment_edge : EdgeId) (opener_role : Party)
    (start_id : StartId) (response_deadline : N) (claim : N * N) (owner_signed : bool)
    : PendingPaymentClose :=
  let owner_signed := match opener_role with
                      | Maker => (owner_signed, false)
                      | Taker => (false, owner_signed)
                      end in
  let '(claimed, omission_bond) := claim in
  mk_PendingPaymentClose payment_edge opener_role start_id response_deadline claimed claimed
    false false omission_bond owner_signed.

(* [work.rs:1185-1194] PendingPaymentClose::penalty *)
Definition PendingPaymentClose_penalty (self : PendingPaymentClose) : N :=
  if pending_penalty_due self then pending_penalty_amount self else 0.

(* [work.rs:1196-1222] PendingPaymentClose::responded_at *)
Definition PendingPaymentClose_responded_at (self : PendingPaymentClose) (amount : N)
    (owner_signed : bool) : PendingPaymentClose :=
  mk_PendingPaymentClose (pending_payment_edge self) (pending_opener_role self)
    (pending_start_id self) (pending_response_deadline self) (pending_start_cumulative self)
    amount true
    (pending_penalty_due self || match pending_opener_role self with Maker => true | Taker => false end)
    (pending_penalty_amount self)
    ((pending_owner_signed self).1, (pending_owner_signed self).2 || owner_signed).

(* [work.rs:1224-1250] PendingPaymentClose::freeze_penalty *)
Definition PendingPaymentClose_freeze_penalty (self : PendingPaymentClose) (earned : N) : N :=
  if pending_penalty_due self
     || (match pending_opener_role self with Maker => true | Taker => false end
         && (pending_start_cumulative self <? earned))
  then pending_penalty_amount self else 0.

(* [work.rs:1063-1073] PendingPaymentClose::with_accepted_response *)
Definition PendingPaymentClose_with_accepted_response (self : PendingPaymentClose)
    (response : PaymentCloseResponse) : PendingPaymentClose :=
  PendingPaymentClose_responded_at self (cert_earned_cumulative (resp_certificate response))
    (PartyAuth_is_owner (resp_action response)).

(* [work.rs:1029-1029] FLAG_CLEAR *)
Definition FLAG_CLEAR : N := 0.
(* [work.rs:1030-1030] FLAG_SET *)
Definition FLAG_SET : N := 1.

(* [work.rs:1492-1494] flag *)
Definition flag (value : bool) : N := if value then FLAG_SET else FLAG_CLEAR.

(* [work.rs:1496-1505] decode_flag *)
Definition decode_flag (buf : bytes) (consumed : nat) (field : string) : decoded bool :=
  let? '(b, consumed) := decode_field u8 buf consumed in
  if b =? FLAG_CLEAR then Ok (false, consumed)
  else if b =? FLAG_SET then Ok (true, consumed)
  else Err (NonCanonical field).

(* [work.rs:1075-1084] PendingPaymentClose::ENCODED_SIZE *)
Definition PendingPaymentClose_ENCODED_SIZE : nat :=
  ENVELOPE_SIZE + MAX_ENCODED_SIZE u8 + MAX_ENCODED_SIZE EdgeId_codec
  + MAX_ENCODED_SIZE Party_codec + MAX_ENCODED_SIZE StartId_codec + 3 * MAX_ENCODED_SIZE u64
  + 2 * MAX_ENCODED_SIZE u8 + MAX_ENCODED_SIZE u64 + 2 * MAX_ENCODED_SIZE u8.

Definition PendingPaymentClose_wf (p : PendingPaymentClose) : bool :=
  let '(mk_PendingPaymentClose edge role id deadline start final _ _ amount _) := p in
  wf EdgeId_codec edge && wf Party_codec role && wf StartId_codec id && wf u64 deadline &&
  wf u64 start && wf u64 final && wf u64 amount.

(* [work.rs:1514-1528] PendingPaymentClose::encode_to *)
Definition PendingPaymentClose_encode_to (p : PendingPaymentClose) : bytes :=
  let '(mk_PendingPaymentClose edge role id deadline start final responded due amount
          (maker_signed, taker_signed)) := p in
  encode_envelope tag_PAYMENT_CLOSE_PENDING ++ encode_to u8 WORK_PENDING_VERSION ++
  encode_to EdgeId_codec edge ++ encode_to Party_codec role ++ encode_to StartId_codec id ++
  encode_to u64 deadline ++ encode_to u64 start ++ encode_to u64 final ++
  encode_to u8 (flag responded) ++ encode_to u8 (flag due) ++ encode_to u64 amount ++
  encode_to u8 (flag maker_signed) ++ encode_to u8 (flag taker_signed).

(* [work.rs:1532-1566] PendingPaymentClose::decode *)
Definition PendingPaymentClose_decode (buf : bytes) : decoded PendingPaymentClose :=
  let? consumed := decode_envelope buf tag_PAYMENT_CLOSE_PENDING in
  let? '(version, consumed) := decode_field u8 buf consumed in
  if negb (version =? WORK_PENDING_VERSION) then Err (InvalidTag version) else
  let? '(edge, consumed) := decode_field EdgeId_codec buf consumed in
  let? '(role, consumed) := decode_field Party_codec buf consumed in
  let? '(id, consumed) := decode_field StartId_codec buf consumed in
  let? '(deadline, consumed) := decode_field u64 buf consumed in
  let? '(start, consumed) := decode_field u64 buf consumed in
  let? '(final, consumed) := decode_field u64 buf consumed in
  let? '(responded, consumed) := decode_flag buf consumed "PendingPaymentClose.responded" in
  let? '(due, consumed) := decode_flag buf consumed "PendingPaymentClose.penalty_due" in
  let? '(amount, consumed) := decode_field u64 buf consumed in
  let? '(maker, consumed) := decode_flag buf consumed "PendingPaymentClose.maker_owner_signed" in
  let? '(taker, consumed) := decode_flag buf consumed "PendingPaymentClose.taker_owner_signed" in
  Ok (mk_PendingPaymentClose edge role id deadline start final responded due amount
        (maker, taker), consumed).

(* [work.rs:1507-1512] PendingPaymentClose *)
Definition PendingPaymentClose_codec : Codec PendingPaymentClose := {|
  MAX_ENCODED_SIZE := PendingPaymentClose_ENCODED_SIZE;
  encoded_size := fun _ => PendingPaymentClose_ENCODED_SIZE;
  encode_to := PendingPaymentClose_encode_to;
  decode := PendingPaymentClose_decode;
  wf := PendingPaymentClose_wf |}.

(** [write_to] into the exact-size buffer; its [None] is the writer's panic. *)
(* [work.rs:1266-1281] PendingPaymentClose::to_chunk *)
Definition PendingPaymentClose_to_chunk (self : PendingPaymentClose) : option RegistryChunk :=
  '(buf, written) ← write_to PendingPaymentClose_codec self
                      (repeat x00 PendingPaymentClose_ENCODED_SIZE);
  value ← (if (written <=? length buf)%nat then Some (take written buf) else None);
  RegistryChunk_split NS_PaymentClose Rec_PaymentPending value 0.

(* [work.rs:1283-1311] PendingPaymentClose::from_chunk *)
Definition PendingPaymentClose_from_chunk (chunk : RegistryChunk) (payment_edge : EdgeId)
    : result PendingPaymentClose PendingCloseFault :=
  if negb (bool_decide (chunk_namespace chunk = NS_PaymentClose))
     || negb (bool_decide (chunk_record_tag chunk = Rec_PaymentPending))
     || negb (chunk_count chunk =? 1)
     || negb (chunk_index chunk =? 0)
     || negb (chunk_value_len chunk =? N.of_nat PendingPaymentClose_ENCODED_SIZE)
  then Err Pending_Shape else
  let? record := map_err (fun _ => Pending_Body)
                   (decode_exact PendingPaymentClose_codec (RegistryChunk_data chunk)) in
  if negb (bool_decide (pending_payment_edge record = payment_edge)) then Err Pending_Edge
  else Ok record.

(* [work.rs:1569-1583] PendingSlot *)
Inductive PendingSlot :=
  | Pending_Absent
  | Pending_Present (record : PendingPaymentClose)
  | Pending_Faulty (fault : PendingCloseFault).

(* [work.rs:1352-1370] parse_pending_close *)
Definition parse_pending_close (chunk : option RegistryChunk) (payment_edge : EdgeId)
    : PendingSlot :=
  match chunk with
  | None => Pending_Absent
  | Some chunk =>
      match PendingPaymentClose_from_chunk chunk payment_edge with
      | Ok record => Pending_Present record
      | Err fault => Pending_Faulty fault
      end
  end.

(* [work.rs:1391-1410] adjudicated_preimage *)
Definition adjudicated_preimage (network : NetworkId) (edge : EdgeId) (terms : TermsHash)
    (record : PendingPaymentClose) : list bytes :=
  [WORK_ADJUDICATED_PAYMENT_CLOSE; NetworkId_encode_to network; encode_to EdgeId_codec edge;
   encode_to TermsHash_codec terms; encode_to StartId_codec (pending_start_id record);
   encode_to u64 (pending_response_deadline record);
   encode_to u64 (pending_start_cumulative record);
   encode_to u64 (pending_final_cumulative record);
   encode_to u8 (flag (pending_penalty_due record));
   encode_to u64 (pending_penalty_amount record);
   encode_to u8 (flag (pending_owner_signed record).1);
   encode_to u8 (flag (pending_owner_signed record).2)].

Section contest.
  Context `{Blake3}.

(* [work.rs:630-646] PaymentCloseStart::digest *)
Definition PaymentCloseStart_digest (self : PaymentCloseStart) (network : NetworkId)
    : PayloadHash :=
  let terms := Terms_hash (start_terms self) in
  let earned := match start_certificate self with
                | None => no_earned_digest (start_payment_edge self) terms
                | Some (certificate, _) => EarnedCertificate_digest certificate network
                end in
  start_digest network (start_payment_edge self) terms (start_opener_role self)
    (start_valid_from_height self, start_valid_through_height self) earned.

(* [work.rs:1033-1061] PendingPaymentClose::from_accepted_start *)
Definition PendingPaymentClose_from_accepted_start (network : NetworkId) (height : N)
    (start : PaymentCloseStart) : option PendingPaymentClose :=
  match Terms_profile (start_terms start) with
  | Profile_WorkPayment payment =>
      deadline ← checked_add height (wp_omit_response_blocks payment);
      Some (PendingPaymentClose_opened (start_payment_edge start) (start_opener_role start)
              (start_id (PaymentCloseStart_digest start network) height) deadline
              (match start_certificate start with
               | None => 0
               | Some (certificate, _) => cert_earned_cumulative certificate
               end, wp_omission_bond payment)
              (PartyAuth_is_owner (start_action start)))
  | _ => None
  end.

(* [work.rs:1252-1264] PendingPaymentClose::contest_commitment *)
Definition PendingPaymentClose_contest_commitment (self : PendingPaymentClose)
    (network : NetworkId) (edge : EdgeId) (terms : TermsHash) : PaymentContestCommitment :=
  PaymentContestCommitment_from_bytes
    (xet_hash (concat (adjudicated_preimage network edge terms self))).

(* [work.rs:1314-1328] pending_payment_close_slot *)
Definition pending_payment_close_slot (network : NetworkId) (payment_edge : EdgeId)
    : RegistryChunkId :=
  RegistryChunkId_derive network NS_PaymentClose (EdgeId_bytes payment_edge) 0.

(* [work.rs:1330-1350] read_pending_close *)
Definition read_pending_close {B} `{BatchOps B} (batch : B) (network : NetworkId)
    (payment_edge : EdgeId) : result (option PendingPaymentClose) PendingCloseFault :=
  match parse_pending_close
          (registry_chunk batch (pending_payment_close_slot network payment_edge)) payment_edge with
  | Pending_Absent => Ok None
  | Pending_Present record => Ok (Some record)
  | Pending_Faulty fault => Err fault
  end.

Definition PaymentCloseStart_wf (s : PaymentCloseStart) : bool :=
  let '(mk_PaymentCloseStart edge terms role from through certificate action) := s in
  wf EdgeId_codec edge && wf Terms_codec terms && wf Party_codec role && wf u64 from &&
  wf u64 through &&
  match certificate with
  | Some (certificate, auth) => wf EarnedCertificate_codec certificate && wf PartyAuth_codec auth
  | None => true
  end && wf PartyAuth_codec action.

(* [work.rs:762-779] PaymentCloseStart::encode_to *)
Definition PaymentCloseStart_encode_to (s : PaymentCloseStart) : bytes :=
  let '(mk_PaymentCloseStart edge terms role from through certificate action) := s in
  encode_envelope tag_PAYMENT_CLOSE_START ++ encode_to u8 WORK_CLOSE_VERSION ++
  encode_to EdgeId_codec edge ++ encode_to Terms_codec terms ++ encode_to Party_codec role ++
  encode_to u64 from ++ encode_to u64 through ++
  match certificate with
  | Some (certificate, auth) =>
      encode_to u8 CERTIFICATE_PRESENT ++ encode_to EarnedCertificate_codec certificate ++
      encode_to PartyAuth_codec auth
  | None => encode_to u8 CERTIFICATE_ABSENT
  end ++ encode_to PartyAuth_codec action.

(* [work.rs:783-815] PaymentCloseStart::decode *)
Definition PaymentCloseStart_decode (buf : bytes) : decoded PaymentCloseStart :=
  let? consumed := decode_envelope buf tag_PAYMENT_CLOSE_START in
  let? '(version, consumed) := decode_field u8 buf consumed in
  if negb (version =? WORK_CLOSE_VERSION) then Err (InvalidTag version) else
  let? '(edge, consumed) := decode_field EdgeId_codec buf consumed in
  let? '(terms, consumed) := decode_field Terms_codec buf consumed in
  let? '(role, consumed) := decode_field Party_codec buf consumed in
  let? '(from, consumed) := decode_field u64 buf consumed in
  let? '(through, consumed) := decode_field u64 buf consumed in
  let? '(tag, consumed) := decode_field u8 buf consumed in
  let? '(certificate, consumed) :=
    if tag =? CERTIFICATE_ABSENT then Ok (None, consumed)
    else if tag =? CERTIFICATE_PRESENT then
      let? '(certificate, consumed) := decode_field EarnedCertificate_codec buf consumed in
      let? '(auth, consumed) := decode_field PartyAuth_codec buf consumed in
      Ok (Some (certificate, auth), consumed)
    else Err (InvalidTag tag) in
  let? '(action, consumed) := decode_field PartyAuth_codec buf consumed in
  Ok (mk_PaymentCloseStart edge terms role from through certificate action, consumed).

(* [work.rs:735-760] PaymentCloseStart *)
Definition PaymentCloseStart_codec : Codec PaymentCloseStart := {|
  MAX_ENCODED_SIZE := ENVELOPE_SIZE + MAX_ENCODED_SIZE u8 + MAX_ENCODED_SIZE EdgeId_codec
    + MAX_ENCODED_SIZE Terms_codec + MAX_ENCODED_SIZE Party_codec + 2 * MAX_ENCODED_SIZE u64
    + MAX_ENCODED_SIZE u8 + EarnedCertificate_ENCODED_SIZE + 2 * MAX_ENCODED_SIZE PartyAuth_codec;
  encoded_size := fun '(mk_PaymentCloseStart _ terms _ _ _ certificate action) =>
    (ENVELOPE_SIZE + MAX_ENCODED_SIZE u8 + MAX_ENCODED_SIZE EdgeId_codec
     + encoded_size Terms_codec terms + MAX_ENCODED_SIZE Party_codec + 2 * MAX_ENCODED_SIZE u64
     + MAX_ENCODED_SIZE u8
     + match certificate with
       | Some (certificate, auth) =>
           encoded_size EarnedCertificate_codec certificate + encoded_size PartyAuth_codec auth
       | None => 0
       end + encoded_size PartyAuth_codec action)%nat;
  encode_to := PaymentCloseStart_encode_to;
  decode := PaymentCloseStart_decode;
  wf := PaymentCloseStart_wf |}.
End contest.

(** ** Codec laws *)

#[export] Instance StartId_lawful : Lawful StartId_codec.
Proof. apply newtype_lawful; by intros []. Qed.
#[export] Instance StartId_fixed : FixedSize StartId_codec.
Proof. apply newtype_fixed. Qed.
#[export] Instance PaymentContestCommitment_lawful : Lawful PaymentContestCommitment_codec.
Proof. apply newtype_lawful; by intros []. Qed.
#[export] Instance PaymentContestCommitment_fixed : FixedSize PaymentContestCommitment_codec.
Proof. apply newtype_fixed. Qed.

Lemma EarnedCertificate_ENCODED_SIZE_eq :
  EarnedCertificate_ENCODED_SIZE = (ENVELOPE_SIZE + MAX_ENCODED_SIZE u8
    + MAX_ENCODED_SIZE EdgeId_codec + MAX_ENCODED_SIZE TermsHash_codec + MAX_ENCODED_SIZE u64)%nat.
Proof. done. Qed.

#[export] Instance EarnedCertificate_lawful : Lawful EarnedCertificate_codec.
Proof.
  pose proof EarnedCertificate_ENCODED_SIZE_eq.
  codec_lawful EarnedCertificate_codec EarnedCertificate_encode_to EarnedCertificate_decode
    EarnedCertificate_wf.
Qed.
#[export] Instance EarnedCertificate_fixed : FixedSize EarnedCertificate_codec.
Proof.
  pose proof EarnedCertificate_ENCODED_SIZE_eq.
  codec_fixed EarnedCertificate_codec EarnedCertificate_encode_to EarnedCertificate_wf.
Qed.

Lemma EarnedCertificate_max :
  MAX_ENCODED_SIZE EarnedCertificate_codec = EarnedCertificate_ENCODED_SIZE.
Proof. done. Qed.

#[export] Instance PaymentCloseResponse_lawful : Lawful PaymentCloseResponse_codec.
Proof.
  pose proof EarnedCertificate_max.
  assert (PaymentCloseResponse_MAX = ENVELOPE_SIZE + MAX_ENCODED_SIZE u8
    + MAX_ENCODED_SIZE EdgeId_codec + MAX_ENCODED_SIZE StartId_codec + MAX_ENCODED_SIZE Party_codec
    + EarnedCertificate_ENCODED_SIZE + 2 * MAX_ENCODED_SIZE PartyAuth_codec)%nat by done.
  codec_lawful PaymentCloseResponse_codec PaymentCloseResponse_encode_to
    PaymentCloseResponse_decode PaymentCloseResponse_wf.
Qed.

Lemma decode_flag_encode buf c b s field :
  at_offset buf c (encode_to u8 (flag b) ++ s) ->
  decode_flag buf c field = Ok (b, (c + length (encode_to u8 (flag b)))%nat) /\
  at_offset buf (c + length (encode_to u8 (flag b))) s.
Proof.
  intros Hat. unfold decode_flag.
  destruct (decode_field_encode u8 buf c (flag b) s Hat) as [-> Hs]; [by destruct b|].
  split; [by destruct b|done].
Qed.

Lemma decode_flag_sound buf c b c' s field :
  at_offset buf c s -> decode_flag buf c field = Ok (b, c') ->
  exists s', s = encode_to u8 (flag b) ++ s' /\ at_offset buf c' s' /\
    c' = (c + length (encode_to u8 (flag b)))%nat.
Proof.
  intros Hat H. unfold decode_flag in H. repeat (dec_step || inv_ok_step); subst; eauto 6.
Qed.

Ltac enc_step_hook ::=
  match goal with
  | Hat : at_offset ?buf ?c (encode_to u8 (flag ?b) ++ ?s) |- context [decode_flag ?buf ?c ?f] =>
      let E := fresh "E" in let Hat' := fresh "Hat" in
      destruct (decode_flag_encode buf c b s f Hat) as [E Hat'];
      rewrite E; clear E Hat; cbn [rbind]
  end.
Ltac dec_step_hook ::=
  match goal with
  | Hat : at_offset ?buf ?c ?s, E : decode_flag ?buf ?c _ = Ok (_, _) |- _ =>
      let s' := fresh "s" in let Hs := fresh "Hs" in let Hat' := fresh "Hat" in
      let Hc := fresh "Hc" in
      apply (decode_flag_sound buf c _ _ s _ Hat) in E as (s' & Hs & Hat' & Hc)
  end.

Lemma PendingPaymentClose_ENCODED_SIZE_eq :
  PendingPaymentClose_ENCODED_SIZE = (ENVELOPE_SIZE + MAX_ENCODED_SIZE u8
    + MAX_ENCODED_SIZE EdgeId_codec + MAX_ENCODED_SIZE Party_codec + MAX_ENCODED_SIZE StartId_codec
    + 3 * MAX_ENCODED_SIZE u64 + 2 * MAX_ENCODED_SIZE u8 + MAX_ENCODED_SIZE u64
    + 2 * MAX_ENCODED_SIZE u8)%nat.
Proof. done. Qed.

#[export] Instance PendingPaymentClose_lawful : Lawful PendingPaymentClose_codec.
Proof.
  pose proof PendingPaymentClose_ENCODED_SIZE_eq.
  split; unfold PendingPaymentClose_codec; cbn [MAX_ENCODED_SIZE encoded_size encode_to decode wf].
  - intros [?????????[]] Hwf. unfold PendingPaymentClose_wf, PendingPaymentClose_encode_to in *.
    bool_simpl. codec_sum.
  - intros [?????????[]] Hwf. unfold PendingPaymentClose_wf, PendingPaymentClose_encode_to in *.
    bool_simpl. codec_sum.
  - intros [?????????[]] rest Hwf. unfold PendingPaymentClose_wf in *. bool_simpl.
    codec_run_encode PendingPaymentClose_encode_to PendingPaymentClose_decode.
    do 2 f_equal. unfold PendingPaymentClose_encode_to. codec_sum.
  - intros buf x n H'. codec_run_decode PendingPaymentClose_decode H'.
    codec_sound_end PendingPaymentClose_wf PendingPaymentClose_encode_to.
Qed.

#[export] Instance PendingPaymentClose_fixed : FixedSize PendingPaymentClose_codec.
Proof.
  intros x Hx. rewrite <- encoded_size_exact by done. done.
Qed.

#[export] Instance PaymentCloseStart_lawful `{Blake3} : Lawful PaymentCloseStart_codec.
Proof.
  pose proof EarnedCertificate_max.
  split; unfold PaymentCloseStart_codec; cbn [MAX_ENCODED_SIZE encoded_size encode_to decode wf].
  - intros [?????[[]|]?] Hwf; unfold PaymentCloseStart_wf, PaymentCloseStart_encode_to in *;
      bool_simpl; codec_sum.
  - intros [?????[[]|]?] Hwf; unfold PaymentCloseStart_wf, PaymentCloseStart_encode_to in *;
      bool_simpl; codec_sum.
  - intros [?????[[]|]?] rest Hwf; unfold PaymentCloseStart_wf in *; bool_simpl;
      codec_run_encode PaymentCloseStart_encode_to PaymentCloseStart_decode;
      do 2 f_equal; unfold PaymentCloseStart_encode_to; codec_sum.
  - intros buf x n H'. codec_run_decode PaymentCloseStart_decode H';
      codec_sound_end PaymentCloseStart_wf PaymentCloseStart_encode_to.
Qed.

(** ** The record in its chunk *)

Lemma PendingPaymentClose_to_chunk_split p :
  wf PendingPaymentClose_codec p = true ->
  PendingPaymentClose_to_chunk p =
    RegistryChunk_split NS_PaymentClose Rec_PaymentPending (encode_to PendingPaymentClose_codec p) 0.
Proof.
  intros Hwf. unfold PendingPaymentClose_to_chunk. pose proof (fixed_size p Hwf) as Hl.
  change (MAX_ENCODED_SIZE PendingPaymentClose_codec) with PendingPaymentClose_ENCODED_SIZE in Hl.
  rewrite (write_to_ok PendingPaymentClose_codec) by (by rewrite ?repeat_length). bind_simpl.
  rewrite Hl, drop_ge, app_nil_r by (by rewrite repeat_length).
  change (encoded_size PendingPaymentClose_codec p) with PendingPaymentClose_ENCODED_SIZE.
  rewrite Hl, Nat.leb_refl. bind_simpl. by rewrite take_ge by lia.
Qed.

(** The [None] of [to_chunk] is unreachable. *)
Lemma PendingPaymentClose_to_chunk_Some p :
  wf PendingPaymentClose_codec p = true -> is_Some (PendingPaymentClose_to_chunk p).
Proof.
  intros Hwf. rewrite PendingPaymentClose_to_chunk_split by done.
  erewrite (split_Some _ _ _ _ 1); [done| |lia]. by rewrite (fixed_size p Hwf).
Qed.

Lemma PendingPaymentClose_from_to_chunk p chunk :
  wf PendingPaymentClose_codec p = true -> PendingPaymentClose_to_chunk p = Some chunk ->
  PendingPaymentClose_from_chunk chunk (pending_payment_edge p) = Ok p.
Proof.
  intros Hwf Hc. rewrite PendingPaymentClose_to_chunk_split in Hc by done.
  apply split_fields in Hc as (Hns & Htag & Hi & Hn & _ & Hv & Hd).
  rewrite (fixed_size p Hwf) in Hn, Hv.
  change (Some 1 = Some (chunk_count chunk)) in Hn. injection Hn as Hn.
  change (MAX_ENCODED_SIZE PendingPaymentClose_codec) with PendingPaymentClose_ENCODED_SIZE in Hv.
  unfold PendingPaymentClose_from_chunk. rewrite Hns, Htag, Hi, <- Hn, Hv, Hd.
  rewrite N.eqb_refl, !bool_decide_eq_true_2 by done. cbn [negb orb N.eqb Pos.eqb].
  assert (Hs : value_slice (encode_to PendingPaymentClose_codec p) 0 =
               encode_to PendingPaymentClose_codec p).
  { unfold value_slice. rewrite drop_0. apply take_ge. rewrite (fixed_size p Hwf). vm_compute. lia. }
  rewrite Hs, (decode_exact_encode PendingPaymentClose_codec) by done. cbn [map_err rbind]. by rewrite bool_decide_eq_true_2.
Qed.

Lemma PendingPaymentClose_from_chunk_Ok chunk edge p :
  PendingPaymentClose_from_chunk chunk edge = Ok p ->
  wf PendingPaymentClose_codec p = true /\ pending_payment_edge p = edge /\
  RegistryChunk_data chunk = encode_to PendingPaymentClose_codec p.
Proof.
  unfold PendingPaymentClose_from_chunk. intros H. inv_ok. subst. bool_simpl.
  by apply (decode_exact_sound PendingPaymentClose_codec) in E as [? ?].
Qed.

Lemma parse_pending_close_Absent chunk edge :
  parse_pending_close chunk edge = Pending_Absent <-> chunk = None.
Proof. destruct chunk; simpl; [|done]. split; [|done]. by case_match. Qed.

Section slots.
  Context `{Blake3} {B} `{!BatchOps B}.

Lemma read_pending_close_None (batch : B) network edge :
  read_pending_close batch network edge = Ok None <->
  registry_chunk batch (pending_payment_close_slot network edge) = None.
Proof.
  unfold read_pending_close. rewrite <- (parse_pending_close_Absent _ edge).
  by destruct (parse_pending_close _ _).
Qed.

Lemma read_pending_close_Some (batch : B) network edge p :
  read_pending_close batch network edge = Ok (Some p) <->
  exists chunk, registry_chunk batch (pending_payment_close_slot network edge) = Some chunk /\
    PendingPaymentClose_from_chunk chunk edge = Ok p.
Proof.
  unfold read_pending_close, parse_pending_close. destruct (registry_chunk _ _) as [chunk|].
  - destruct (PendingPaymentClose_from_chunk chunk edge) eqn:E; split.
    + intros [= <-]. eauto.
    + intros (c & [= <-] & Hc). congruence.
    + done.
    + intros (c & [= <-] & Hc). congruence.
  - split; [done|]. by intros (? & ? & ?).
Qed.
End slots.

(** ** Settlement *)

Lemma split_payouts_Ok parties total provider signed a b :
  split_payouts parties total provider signed = Ok (a, b) <->
  provider <= total /\
  a = PartyKeys_payout (Parties_taker parties) provider signed.2 /\
  b = PartyKeys_payout (Parties_maker parties) (total - provider) signed.1.
Proof.
  unfold split_payouts, checked_sub. destruct (N.leb_spec provider total); simpl.
  - split; [by intros [= <- <-]|]. by intros (_ & -> & ->).
  - split; [done|]. intros [? _]. lia.
Qed.

Lemma route_minimum_Some e m :
  route_minimum e = Some m <->
  exists f a, EdgeValues_close_value e (work_payment_close_cost Freeze) = Some f /\
    EdgeValues_close_value e (work_payment_close_cost Adjudicated) = Some a /\ m = N.min f a.
Proof.
  unfold route_minimum.
  destruct (EdgeValues_close_value e (work_payment_close_cost Freeze)) as [f|]; simpl;
    [|by split; [|intros (?&?&?&_)]].
  destruct (EdgeValues_close_value e (work_payment_close_cost Adjudicated)) as [a|]; simpl;
    [|by split; [|intros (?&?&_&?&_)]].
  split.
  - intros [= <-]. exists f, a. split_and!; [done|done|]. destruct (N.ltb_spec f a); lia.
  - intros (? & ? & [= <-] & [= <-] & ->). f_equal. destruct (N.ltb_spec f a); lia.
Qed.

Lemma work_payment_settlement_Some e bond s :
  work_payment_settlement e bond = Some s ->
  EdgeValues_close_value e (work_payment_close_cost Freeze) = Some (freeze_total s) /\
  EdgeValues_close_value e (work_payment_close_cost Adjudicated) = Some (adjudicated_total s) /\
  settlement_omission_bond s = bond /\
  settlement_capacity s + bond = N.min (freeze_total s) (adjudicated_total s).
Proof.
  unfold work_payment_settlement. intros H. inv_ok. checked_simpl. subst s.
  match goal with E : route_minimum _ = Some _ |- _ =>
    apply route_minimum_Some in E as (f & a' & Hf & Ha & ->) end.
  simplify_eq/=. split_and!; try done. lia.
Qed.
