(* ===== verification/Lease.v ===== *)
(** * The work-stake bond lease (crates/kernel/src/lease.rs)

    The record a payment channel holds over one bond, its two registry chunks,
    and the three-way reading of the slots: absent, present, faulty. *)

From S2P Require Import Prelude Xet Canonical Primitive Errors Context Auth Objects Registry.
From S2P Require Import Store Terms.

#[local] Open Scope N_scope.

(* [lease.rs:65-67] BOND_LEASE_VERSION *)
Definition BOND_LEASE_VERSION : N := 2.
(* [lease.rs:69-76] BOND_LEASE_CHUNKS *)
Definition BOND_LEASE_CHUNKS : N := 2.

(* [lease.rs:87-119] BondLease *)
Record BondLease := mk_BondLease {
  lease_bond_edge : EdgeId;
  lease_payment_edge : EdgeId;
  lease_payment_terms_hash : TermsHash;
  lease_private_policy_commitment : bytes;
  lease_admission_horizon : N;
}.

(* [lease.rs:122-128] BondLease::ENCODED_SIZE *)
Definition BondLease_ENCODED_SIZE : nat :=
  ENVELOPE_SIZE + MAX_ENCODED_SIZE u8 + 2 * MAX_ENCODED_SIZE EdgeId_codec
  + MAX_ENCODED_SIZE TermsHash_codec + HASH_LENGTH + MAX_ENCODED_SIZE u64.

(* [lease.rs:130-151] BondLease::opened *)
Definition BondLease_opened (bond_edge payment_edge : EdgeId) (payment_terms_hash : TermsHash)
    (private_policy_commitment : bytes) (admission_horizon : N) : BondLease :=
  mk_BondLease bond_edge payment_edge payment_terms_hash private_policy_commitment
    admission_horizon.

Definition BondLease_wf (l : BondLease) : bool :=
  let '(mk_BondLease bond payment terms policy horizon) := l in
  wf EdgeId_codec bond && wf EdgeId_codec payment && wf TermsHash_codec terms &&
  wf (array HASH_LENGTH) policy && wf u64 horizon.

(* [lease.rs:381-391] BondLease::encode_to *)
Definition BondLease_encode_to (l : BondLease) : bytes :=
  let '(mk_BondLease bond payment terms policy horizon) := l in
  encode_envelope tag_BOND_LEASE ++ encode_to u8 BOND_LEASE_VERSION ++
  encode_to EdgeId_codec bond ++ encode_to EdgeId_codec payment ++
  encode_to TermsHash_codec terms ++ encode_to (array HASH_LENGTH) policy ++
  encode_to u64 horizon.

(* [lease.rs:395-417] BondLease::decode *)
Definition BondLease_decode (buf : bytes) : decoded BondLease :=
  let? consumed := decode_envelope buf tag_BOND_LEASE in
  let? '(version, consumed) := decode_field u8 buf consumed in
  if negb (version =? BOND_LEASE_VERSION) then Err (InvalidTag version) else
  let? '(bond, consumed) := decode_field EdgeId_codec buf consumed in
  let? '(payment, consumed) := decode_field EdgeId_codec buf consumed in
  let? '(terms, consumed) := decode_field TermsHash_codec buf consumed in
  let? '(policy, consumed) := decode_field (array HASH_LENGTH) buf consumed in
  let? '(horizon, consumed) := decode_field u64 buf consumed in
  Ok (mk_BondLease bond payment terms policy horizon, consumed).

(* [lease.rs:374-379] BondLease *)
Definition BondLease_codec : Codec BondLease := {|
  MAX_ENCODED_SIZE := BondLease_ENCODED_SIZE;
  encoded_size := fun _ => BondLease_ENCODED_SIZE;
  encode_to := BondLease_encode_to;
  decode := BondLease_decode;
  wf := BondLease_wf |}.

(** ** Chunks: an array of two is a pair *)

(** [write_to] into the exact-size buffer; its [None] is the writer's panic. *)
(* [lease.rs:183-208] BondLease::to_chunks *)
Definition BondLease_to_chunks (self : BondLease) : option (RegistryChunk * RegistryChunk) :=
  '(buf, written) ← write_to BondLease_codec self (repeat x00 BondLease_ENCODED_SIZE);
  value ← (if (written <=? length buf)%nat then Some (take written buf) else None);
  first ← RegistryChunk_split NS_BondLease Rec_BondLease value 0;
  second ← RegistryChunk_split NS_BondLease Rec_BondLease value 1;
  Some (first, second).

(** One turn of the reassembly loop over the buffer and its write position. *)
(* [lease.rs:222-240] BondLease::from_chunks *)
Definition BondLease_reassemble_step (state : bytes * N) (item : nat * RegistryChunk)
    : result (bytes * N) BondLeaseFault :=
  let '(buf, written) := state in
  let '(index, chunk) := item in
  let? expected_index := ok_or (if u8_ok (N.of_nat index) then Some (N.of_nat index) else None)
                           Lease_Shape in
  if negb (bool_decide (chunk_namespace chunk = NS_BondLease))
     || negb (bool_decide (chunk_record_tag chunk = Rec_BondLease))
     || negb (chunk_count chunk =? BOND_LEASE_CHUNKS)
     || negb (chunk_index chunk =? expected_index)
     || negb (chunk_value_len chunk =? N.of_nat BondLease_ENCODED_SIZE)
  then Err Lease_Shape else
  let data := RegistryChunk_data chunk in
  let? end_ := ok_or (checked_add written (N.of_nat (length data))) Lease_Shape in
  if N.of_nat (length buf) <? end_ then Err Lease_Shape else
  Ok (take (N.to_nat written) buf ++ data ++ drop (N.to_nat end_) buf, end_).

(* [lease.rs:210-258] BondLease::from_chunks *)
Definition BondLease_from_chunks (chunks : RegistryChunk * RegistryChunk) (bond_edge : EdgeId)
    : result BondLease BondLeaseFault :=
  let? '(buf, written) := rfold BondLease_reassemble_step
                            (repeat x00 BondLease_ENCODED_SIZE, 0)
                            [(0%nat, chunks.1); (1%nat, chunks.2)] in
  if negb (written =? N.of_nat BondLease_ENCODED_SIZE) then Err Lease_Shape else
  let? value := ok_or (if written <=? N.of_nat (length buf)
                       then Some (take (N.to_nat written) buf) else None) Lease_Shape in
  let? lease := map_err (fun _ => Lease_Body) (decode_exact BondLease_codec value) in
  if negb (bool_decide (lease_bond_edge lease = bond_edge)) then Err Lease_Edge else Ok lease.

(* [lease.rs:290-306] LeaseSlots *)
Inductive LeaseSlots :=
  | Lease_Absent
  | Lease_Present (lease : BondLease)
  | Lease_Faulty (fault : BondLeaseFault).

(* [lease.rs:308-332] parse_bond_lease *)
Definition parse_bond_lease (slots : option RegistryChunk * option RegistryChunk)
    (bond_edge : EdgeId) : LeaseSlots :=
  match slots with
  | (None, None) => Lease_Absent
  | (Some first, Some second) =>
      match BondLease_from_chunks (first, second) bond_edge with
      | Ok lease => Lease_Present lease
      | Err fault => Lease_Faulty fault
      end
  | (Some _, None) | (None, Some _) => Lease_Faulty Lease_Partial
  end.

Section slots.
  Context `{Blake3}.

(* [lease.rs:261-275] bond_lease_slot *)
Definition bond_lease_slot (network : NetworkId) (bond_edge : EdgeId) (chunk_index : N)
    : RegistryChunkId :=
  RegistryChunkId_derive network NS_BondLease (EdgeId_bytes bond_edge) chunk_index.

(* [lease.rs:277-288] bond_lease_slots *)
Definition bond_lease_slots (network : NetworkId) (bond_edge : EdgeId)
    : RegistryChunkId * RegistryChunkId :=
  (bond_lease_slot network bond_edge 0, bond_lease_slot network bond_edge 1).

(* [lease.rs:335-351] read_bond_lease *)
Definition read_bond_lease {B} `{BatchOps B} (batch : B) (network : NetworkId)
    (bond_edge : EdgeId) : result (option BondLease) BondLeaseFault :=
  let slots := bond_lease_slots network bond_edge in
  let stored := (registry_chunk batch slots.1, registry_chunk batch slots.2) in
  match parse_bond_lease stored bond_edge with
  | Lease_Absent => Ok None
  | Lease_Present lease => Ok (Some lease)
  | Lease_Faulty fault => Err fault
  end.

(* [lease.rs:353-364] create_mutations *)
Definition create_mutations (network : NetworkId) (lease : BondLease)
    : option (RegistryMutation * RegistryMutation) :=
  let slots := bond_lease_slots network (lease_bond_edge lease) in
  chunks ← BondLease_to_chunks lease;
  Some (RegistryMutation_write slots.1 chunks.1, RegistryMutation_write slots.2 chunks.2).

(* [lease.rs:366-372] delete_mutations *)
Definition delete_mutations (network : NetworkId) (bond_edge : EdgeId)
    : RegistryMutation * RegistryMutation :=
  let slots := bond_lease_slots network bond_edge in
  (RegistryMutation_delete slots.1, RegistryMutation_delete slots.2).
End slots.

#[export] Instance BondLease_eq_dec : EqDecision BondLease.
Proof. solve_decision. Defined.

(** ** Laws *)

Lemma BondLease_ENCODED_SIZE_eq :
  BondLease_ENCODED_SIZE = (ENVELOPE_SIZE + MAX_ENCODED_SIZE u8 + 2 * MAX_ENCODED_SIZE EdgeId_codec
    + MAX_ENCODED_SIZE TermsHash_codec + MAX_ENCODED_SIZE (array HASH_LENGTH)
    + MAX_ENCODED_SIZE u64)%nat.
Proof. done. Qed.

#[export] Instance BondLease_lawful : Lawful BondLease_codec.
Proof.
  pose proof BondLease_ENCODED_SIZE_eq.
  codec_lawful BondLease_codec BondLease_encode_to BondLease_decode BondLease_wf.
Qed.
#[export] Instance BondLease_fixed : FixedSize BondLease_codec.
Proof. intros x Hx. by rewrite <- encoded_size_exact. Qed.

Lemma BondLease_encode_length l :
  wf BondLease_codec l = true -> length (encode_to BondLease_codec l) = 139%nat.
Proof. intros Hl. by rewrite (fixed_size l Hl). Qed.

(** The [None] of [to_chunks] is unreachable. *)
Lemma BondLease_to_chunks_Some l :
  wf BondLease_codec l = true ->
  exists c0 c1, BondLease_to_chunks l = Some (c0, c1) /\
    RegistryChunk_split NS_BondLease Rec_BondLease (encode_to BondLease_codec l) 0 = Some c0 /\
    RegistryChunk_split NS_BondLease Rec_BondLease (encode_to BondLease_codec l) 1 = Some c1.
Proof.
  intros Hwf. unfold BondLease_to_chunks. pose proof (BondLease_encode_length l Hwf) as Hl.
  change BondLease_ENCODED_SIZE with 139%nat.
  rewrite (write_to_ok BondLease_codec) by (by rewrite ?repeat_length). bind_simpl.
  rewrite Hl, drop_ge, app_nil_r by (by rewrite repeat_length).
  change (encoded_size BondLease_codec l) with 139%nat.
  rewrite Hl, Nat.leb_refl. bind_simpl. rewrite take_ge by lia.
  do 2 (erewrite (split_Some _ _ _ _ 2); [|by rewrite Hl|lia]). bind_simpl. eauto.
Qed.

(** The checks a chunk passes in the loop. *)
Definition lease_chunk_shape (index : nat) (chunk : RegistryChunk) : Prop :=
  chunk_namespace chunk = NS_BondLease /\ chunk_record_tag chunk = Rec_BondLease /\
  chunk_count chunk = 2 /\ chunk_index chunk = N.of_nat index /\ chunk_value_len chunk = 139.

Lemma reassemble_step_ok buf written index chunk :
  lease_chunk_shape index chunk -> (index < 2)%nat ->
  (written + length (RegistryChunk_data chunk) <= 139)%nat -> length buf = 139%nat ->
  BondLease_reassemble_step (buf, N.of_nat written) (index, chunk) =
  Ok (take written buf ++ RegistryChunk_data chunk ++
      drop (written + length (RegistryChunk_data chunk)) buf,
      N.of_nat (written + length (RegistryChunk_data chunk))).
Proof.
  intros (Hns & Htag & Hn & Hi & Hv) Hlt Hw Hb. unfold BondLease_reassemble_step, u8_ok.
  destruct (N.leb_spec (N.of_nat index) 255); [|lia]. bind_simpl.
  rewrite Hns, Htag, Hn, Hi, Hv, !N.eqb_refl, !bool_decide_eq_true_2 by done.
  cbn [negb orb]. change (139 =? N.of_nat BondLease_ENCODED_SIZE) with true. cbn [negb].
  set (e := (written + _)%nat) in *.
  unfold checked_add, u64_ok. rewrite <- Nat2N.inj_add. fold e.
  destruct (N.leb_spec (N.of_nat e) U64_MAX); [|unfold U64_MAX in *; lia]. bind_simpl. rewrite Hb.
  destruct (N.ltb_spec (N.of_nat 139) (N.of_nat e)); [lia|]. by rewrite !Nat2N.id.
Qed.

Lemma reassemble_pair c0 c1 :
  lease_chunk_shape 0 c0 -> lease_chunk_shape 1 c1 ->
  (length (RegistryChunk_data c0) + length (RegistryChunk_data c1) = 139)%nat ->
  rfold BondLease_reassemble_step (repeat x00 BondLease_ENCODED_SIZE, 0)
    [(0%nat, c0); (1%nat, c1)] =
  Ok (RegistryChunk_data c0 ++ RegistryChunk_data c1, 139).
Proof.
  intros H0 H1 Hl. cbn [rfold]. change BondLease_ENCODED_SIZE with 139%nat.
  change 0 with (N.of_nat 0). rewrite reassemble_step_ok by (done || lia). bind_simpl.
  rewrite take_0, app_nil_l, Nat.add_0_l. rewrite reassemble_step_ok; [|done|lia|lia|].
  2:{ rewrite length_app, length_drop, repeat_length. lia. }
  bind_simpl. rewrite take_app_length, Hl, drop_ge, app_nil_r; [done|].
  rewrite length_app, length_drop, repeat_length. lia.
Qed.

(** A lease read back from the two chunks it was written to is the lease. *)
Lemma BondLease_from_to_chunks l chunks :
  wf BondLease_codec l = true -> BondLease_to_chunks l = Some chunks ->
  BondLease_from_chunks chunks (lease_bond_edge l) = Ok l.
Proof.
  intros Hwf Hc. destruct (BondLease_to_chunks_Some l Hwf) as (c0 & c1 & Hc' & H0 & H1).
  simplify_eq. pose proof (BondLease_encode_length l Hwf) as Hl.
  apply split_fields in H0 as (Hns0 & Ht0 & Hi0 & Hn0 & _ & Hv0 & Hd0).
  apply split_fields in H1 as (Hns1 & Ht1 & Hi1 & Hn1 & _ & Hv1 & Hd1).
  rewrite Hl in *. change (Some 2 = Some (chunk_count c0)) in Hn0.
  change (Some 2 = Some (chunk_count c1)) in Hn1. injection Hn0 as Hn0. injection Hn1 as Hn1.
  assert (Hcat : RegistryChunk_data c0 ++ RegistryChunk_data c1 = encode_to BondLease_codec l).
  { pose proof (concat_slices (encode_to BondLease_codec l) 2) as Hs.
    rewrite take_ge in Hs by (rewrite Hl; vm_compute; lia).
    cbn [seq map concat] in Hs. rewrite app_nil_r in Hs. by rewrite Hd0, Hd1. }
  unfold BondLease_from_chunks. cbn [fst snd].
  rewrite reassemble_pair; [|done|done|by rewrite <- length_app, Hcat].
  bind_simpl. change BondLease_ENCODED_SIZE with 139%nat. rewrite Hcat, Hl.
  change (139 =? N.of_nat 139) with true. change (139 <=? N.of_nat 139) with true.
  cbn [negb ok_or rbind]. rewrite take_ge by (rewrite Hl; vm_compute; lia).
  rewrite (decode_exact_encode BondLease_codec) by done. cbn [map_err rbind].
  by rewrite bool_decide_eq_true_2.
Qed.

Lemma BondLease_from_chunks_Ok c0 c1 edge l :
  BondLease_from_chunks (c0, c1) edge = Ok l ->
  wf BondLease_codec l = true /\ lease_bond_edge l = edge.
Proof.
  unfold BondLease_from_chunks. intros H. inv_ok. subst. bool_simpl.
  by apply (decode_exact_sound BondLease_codec) in E1 as [? ?].
Qed.

Lemma parse_bond_lease_Absent slots edge :
  parse_bond_lease slots edge = Lease_Absent <-> slots = (None, None).
Proof. destruct slots as [[c0|] [c1|]]; simpl; split; try done. by case_match. Qed.

Section reads.
  Context `{Blake3} {B} `{!BatchOps B}.

Lemma read_bond_lease_None (batch : B) network edge :
  read_bond_lease batch network edge = Ok None <->
  registry_chunk batch (bond_lease_slot network edge 0) = None /\
  registry_chunk batch (bond_lease_slot network edge 1) = None.
Proof.
  unfold read_bond_lease. cbn [bond_lease_slots fst snd].
  rewrite <- pair_equal_spec, <- (parse_bond_lease_Absent _ edge).
  by destruct (parse_bond_lease _ _).
Qed.

Lemma read_bond_lease_Some (batch : B) network edge l :
  read_bond_lease batch network edge = Ok (Some l) <->
  exists c0 c1, registry_chunk batch (bond_lease_slot network edge 0) = Some c0 /\
    registry_chunk batch (bond_lease_slot network edge 1) = Some c1 /\
    BondLease_from_chunks (c0, c1) edge = Ok l.
Proof.
  unfold read_bond_lease. cbn [bond_lease_slots fst snd].
  destruct (registry_chunk _ (bond_lease_slot network edge 0)) as [c0|],
    (registry_chunk _ (bond_lease_slot network edge 1)) as [c1|]; cbn [parse_bond_lease];
    try by (split; [|intros (? & ? & ? & ? & _)]).
  destruct (BondLease_from_chunks (c0, c1) edge) eqn:E; split.
  - intros [= <-]. eauto 6.
  - intros (? & ? & [= <-] & [= <-] & Hc). congruence.
  - done.
  - intros (? & ? & [= <-] & [= <-] & Hc). congruence.
Qed.
End reads.
