(* ===== verification/Tx.v ===== *)
(** * Transactions (crates/kernel/src/tx/mod.rs, funding.rs, proof.rs, reshape.rs)

    The four transaction shapes with their codecs, costs, derived ids and the
    digests their signers commit to.  What a transaction does to a batch is in
    [OpenTx], [WorkTx], [CloseTx] and [ReshapeTx]. *)

From S2P Require Import Prelude Xet Canonical Primitive Errors Context Auth Objects Registry.
From S2P Require Import Store Terms Work.

#[local] Open Scope N_scope.

Notation PartyCoins_codec := (List_ CoinId_codec MAX_PARTY_INPUTS).
Notation Inputs_codec := (List_ CoinId_codec MAX_EDGE_INPUTS).
Notation Payouts_codec := (List_ Payout_codec MAX_EDGE_OUTPUTS).

(** ** Funding *)

(* [tx/funding.rs:18-33] Funding *)
Record Funding := Funding_new { Funding_maker : list CoinId; Funding_taker : list CoinId }.

(* [tx/funding.rs:47-49] Funding::len *)
Definition Funding_len (self : Funding) : nat :=
  length (Funding_maker self) + length (Funding_taker self).

(* [tx/funding.rs:51-53] Funding::maker_len *)
Definition Funding_maker_len (self : Funding) : nat := length (Funding_maker self).

(* [tx/funding.rs:55-57] Funding::iter *)
Definition Funding_iter (self : Funding) : list CoinId := Funding_maker self ++ Funding_taker self.

Definition Funding_wf (f : Funding) : bool :=
  let '(Funding_new maker taker) := f in wf PartyCoins_codec maker && wf PartyCoins_codec taker.

(* [tx/funding.rs:67-71] Funding::encode_to *)
Definition Funding_encode_to (f : Funding) : bytes :=
  let '(Funding_new maker taker) := f in
  encode_envelope tag_FUNDING ++ encode_to PartyCoins_codec maker ++
  encode_to PartyCoins_codec taker.

(* [tx/funding.rs:75-80] Funding::decode *)
Definition Funding_decode (buf : bytes) : decoded Funding :=
  let? consumed := decode_envelope buf tag_FUNDING in
  let? '(maker, consumed) := decode_field PartyCoins_codec buf consumed in
  let? '(taker, consumed) := decode_field PartyCoins_codec buf consumed in
  Ok (Funding_new maker taker, consumed).

(* [tx/funding.rs:60-65] Funding *)
Definition Funding_codec : Codec Funding := {|
  MAX_ENCODED_SIZE := ENVELOPE_SIZE + 2 * MAX_ENCODED_SIZE PartyCoins_codec;
  encoded_size := fun '(Funding_new maker taker) =>
    (ENVELOPE_SIZE + encoded_size PartyCoins_codec maker
     + encoded_size PartyCoins_codec taker)%nat;
  encode_to := Funding_encode_to;
  decode := Funding_decode;
  wf := Funding_wf |}.

(** ** Close witnesses *)

(* [tx/proof.rs:264-314] Proof *)
Inductive CloseProof :=
  | Proof_Mutual (maker taker : PartyAuth)
  | Proof_Timeout (terms : Terms) (owner : option PartyAuth)
  | Proof_Freeze (earned valid_from_height valid_through_height : N) (maker taker : PartyAuth)
  | Proof_Adjudicated (contest_commitment : PaymentContestCommitment).

(* [tx/proof.rs:317-328] freeze_owner_signed *)
Definition freeze_owner_signed (maker taker : PartyAuth) (pending : option PendingPaymentClose)
    : bool * bool :=
  let previous := match pending with
                  | None => (false, false)
                  | Some record => pending_owner_signed record
                  end in
  (PartyAuth_is_owner maker || previous.1, PartyAuth_is_owner taker || previous.2).

(* [tx/proof.rs:367-386] Proof::payment_close_owner_signed *)
Definition payment_close_owner_signed (self : CloseProof) (pending : option PendingPaymentClose)
    : option (bool * bool) :=
  match self with
  | Proof_Freeze _ _ _ maker taker => Some (freeze_owner_signed maker taker pending)
  | Proof_Adjudicated _ => pending_owner_signed <$> pending
  | Proof_Mutual _ _ | Proof_Timeout _ _ => None
  end.

(* [tx/proof.rs:388-397] Proof::kind *)
Definition CloseProof_kind (self : CloseProof) : CloseKind :=
  match self with
  | Proof_Mutual _ _ => Mutual
  | Proof_Timeout _ _ => Timeout
  | Proof_Freeze _ _ _ _ _ => Freeze
  | Proof_Adjudicated _ => Adjudicated
  end.

(* [tx/proof.rs:399-403] Proof::cost *)
Definition CloseProof_cost (self : CloseProof) : Cost :=
  Cost_new 0 0 (CloseKind_proofs (CloseProof_kind self)).

(** ** Reshapes, moves and transactions *)

(* [tx/reshape.rs:41-64] Reshape *)
Record Reshape := Reshape_new {
  reshape_inputs : list CoinId;
  reshape_outputs : list Payout;
  reshape_auth : Auth;
}.

(* [tx/reshape.rs:115-121] Reshape::cost *)
Definition Reshape_cost (self : Reshape) : Cost :=
  let slots := saturating_add (N.of_nat (length (reshape_inputs self)))
                 (N.of_nat (length (reshape_outputs self))) in
  Cost_new 1 slots 1.

(* [tx/mod.rs:115-132] Move *)
Inductive Move :=
  | StartPaymentClose (start : PaymentCloseStart)
  | RespondPaymentClose (response : PaymentCloseResponse).

(* [tx/mod.rs:135-142] Move::cost *)
Definition Move_cost (self : Move) : Cost :=
  match self with
  | StartPaymentClose start => PaymentCloseStart_cost start
  | RespondPaymentClose response => PaymentCloseResponse_cost response
  end.

(* [tx/mod.rs:63-113] Tx *)
Inductive Tx :=
  | Tx_Open (funding : Funding) (terms : Terms) (maker_auth taker_auth : PartyAuth)
  | Tx_Close (input : EdgeId) (proof : CloseProof) (outputs : list Payout)
  | Tx_Move (action : Move)
  | Tx_Owner (reshape : Reshape).

(* [tx/mod.rs:53-53] OPEN_TAG *)
Definition OPEN_TAG : N := 0.
(* [tx/mod.rs:54-54] CLOSE_TAG *)
Definition CLOSE_TAG : N := 1.
(* [tx/mod.rs:55-55] MOVE_TAG *)
Definition MOVE_TAG : N := 2.
(* [tx/mod.rs:56-56] OWNER_TAG *)
Definition TX_OWNER_TAG : N := 3.

(* [tx/mod.rs:234-253] Tx::timeout_close *)
Definition Tx_timeout_close (edge : EdgeId) (terms : Terms) : option Tx :=
  outputs ← Terms_timeout_outputs terms;
  Some (Tx_Close edge (Proof_Timeout terms None) outputs).

(** ** Costs *)

(* [tx/mod.rs:475-481] WORK_BOND_TIMEOUT_EXTRA_SLOTS *)
Definition WORK_BOND_TIMEOUT_EXTRA_SLOTS : N := 4.

(* [tx/mod.rs:1007-1009] units *)
Definition units (value : nat) : N := if u64_ok (N.of_nat value) then N.of_nat value else U64_MAX.

(* [tx/mod.rs:503-507] is_work_bond *)
Definition is_work_bond (terms : Terms) : bool :=
  match Terms_profile terms with Profile_WorkStakeBond _ => true | _ => false end.

(* [tx/mod.rs:509-523] timeout_close_cost *)
Definition timeout_close_cost (outputs : nat) (work_bond : bool) : Cost :=
  let extra := if work_bond then WORK_BOND_TIMEOUT_EXTRA_SLOTS else 1 in
  Cost_new 1 (saturating_add (units outputs) extra) (CloseKind_proofs Timeout).

(* [tx/mod.rs:525-532] kind_close_cost *)
Definition kind_close_cost (outputs : nat) (kind : CloseKind) : Cost :=
  match kind with
  | Freeze | Adjudicated => work_payment_close_cost kind
  | Mutual | Timeout => Cost_new 1 (saturating_add (units outputs) 1) (CloseKind_proofs kind)
  end.

(* [tx/mod.rs:483-501] close_cost *)
Definition close_cost (outputs : nat) (proof : CloseProof) : Cost :=
  match proof with
  | Proof_Timeout terms _ => timeout_close_cost outputs (is_work_bond terms)
  | _ => kind_close_cost outputs (CloseProof_kind proof)
  end.

(* [tx/mod.rs:694-703] verify_party *)
Definition verify_party (verifier : SigVerifier) (auth : PartyAuth) (party : PartyKeys)
    (hash : PayloadHash) : bool :=
  verify_auth verifier (PartyAuth_auth auth) (PartyKeys_key party (PartyAuth_authority auth)) hash.

(** ** Derived ids and signed digests: the writes of each preimage, in order *)

Definition edge_id_writes (funding : Funding) (terms_hash : TermsHash) : list bytes :=
  [EDGE_OPEN; encode_to TermsHash_codec terms_hash;
   encode_to PartyCoins_codec (Funding_maker funding);
   encode_to PartyCoins_codec (Funding_taker funding)].

Definition open_hash_writes (network : NetworkId) (edge : EdgeId) : list bytes :=
  [OPEN; NetworkId_encode_to network; encode_to EdgeId_codec edge].

Definition payload_hash_writes (network : NetworkId) (input : EdgeId) (kind : CloseKind)
    (terms : TermsHash) (outputs : list Payout) : list bytes :=
  [CLOSE; NetworkId_encode_to network; encode_to EdgeId_codec input;
   encode_to u8 (CloseKind_tag kind); encode_to TermsHash_codec terms;
   encode_to Payouts_codec outputs].

Definition reshape_hash_writes (network : NetworkId) (inputs : list CoinId)
    (outputs : list Payout) : list bytes :=
  [OWNER_RESHAPE; NetworkId_encode_to network; encode_to Inputs_codec inputs;
   encode_to Payouts_codec outputs].

Section digests.
  Context `{Blake3}.

(* [tx/mod.rs:990-997] edge_id *)
Definition edge_id (funding : Funding) (terms_hash : TermsHash) : EdgeId :=
  EdgeId_from_bytes (xet_hash (concat (edge_id_writes funding terms_hash))).

(* [tx/mod.rs:255-263] Tx::edge_id_of *)
Definition Tx_edge_id_of (funding : Funding) (terms : Terms) : EdgeId :=
  edge_id funding (Terms_hash terms).

(* [tx/mod.rs:265-284] Tx::open_hash *)
Definition Tx_open_hash (network : NetworkId) (funding : Funding) (terms : Terms) : PayloadHash :=
  PayloadHash_from_bytes
    (xet_hash (concat (open_hash_writes network (Tx_edge_id_of funding terms)))).

(* [tx/mod.rs:286-299] Tx::close_output_ids *)
Definition Tx_close_output_ids (edge : EdgeId) (outputs : list Payout) : list CoinId :=
  imap (fun index payout => Payout_id payout edge (N.of_nat index)) outputs.

(* [tx/mod.rs:301-324] Tx::payload_hash *)
Definition Tx_payload_hash (network : NetworkId) (input : EdgeId) (kind : CloseKind)
    (terms : TermsHash) (outputs : list Payout) : PayloadHash :=
  PayloadHash_from_bytes
    (xet_hash (concat (payload_hash_writes network input kind terms outputs))).

(* [tx/reshape.rs:84-98] Reshape::payload_hash *)
Definition Reshape_payload_hash (network : NetworkId) (inputs : list CoinId)
    (outputs : list Payout) : PayloadHash :=
  PayloadHash_from_bytes (xet_hash (concat (reshape_hash_writes network inputs outputs))).

(* [tx/reshape.rs:100-113] Reshape::output_ids *)
Definition Reshape_output_ids (network : NetworkId) (inputs : list CoinId)
    (outputs : list Payout) : list CoinId :=
  imap (fun index payout => CoinId_reshape network inputs (N.of_nat index) (Payout_owner payout))
    outputs.
End digests.

(** ** Codecs *)

Definition Reshape_wf (r : Reshape) : bool :=
  let '(Reshape_new inputs outputs auth) := r in
  wf Inputs_codec inputs && wf Payouts_codec outputs && wf Auth_codec auth.

(* [tx/reshape.rs:203-207] Reshape::encode_to *)
Definition Reshape_encode_to (r : Reshape) : bytes :=
  let '(Reshape_new inputs outputs auth) := r in
  encode_to Inputs_codec inputs ++ encode_to Payouts_codec outputs ++ encode_to Auth_codec auth.

(* [tx/reshape.rs:211-217] Reshape::decode *)
Definition Reshape_decode (buf : bytes) : decoded Reshape :=
  let? '(inputs, consumed) := decode_field Inputs_codec buf 0 in
  let? '(outputs, consumed) := decode_field Payouts_codec buf consumed in
  let? '(auth, consumed) := decode_field Auth_codec buf consumed in
  Ok (Reshape_new inputs outputs auth, consumed).

(* [tx/reshape.rs:195-201] Reshape *)
Definition Reshape_codec : Codec Reshape := {|
  MAX_ENCODED_SIZE := MAX_ENCODED_SIZE Inputs_codec + MAX_ENCODED_SIZE Payouts_codec
    + MAX_ENCODED_SIZE Auth_codec;
  encoded_size := fun '(Reshape_new inputs outputs auth) =>
    (encoded_size Inputs_codec inputs + encoded_size Payouts_codec outputs
     + encoded_size Auth_codec auth)%nat;
  encode_to := Reshape_encode_to;
  decode := Reshape_decode;
  wf := Reshape_wf |}.

Section codecs.
  Context `{Blake3}.

(* [tx/proof.rs:421-421] FREEZE_BODY_SIZE *)
Definition FREEZE_BODY_SIZE : nat := 3 * MAX_ENCODED_SIZE u64 + 2 * MAX_ENCODED_SIZE PartyAuth_codec.

(* [tx/proof.rs:406-419] MAX_PROOF_BODY *)
Definition MAX_PROOF_BODY : nat :=
  let max := (2 * MAX_ENCODED_SIZE PartyAuth_codec)%nat in
  let timeout := (MAX_ENCODED_SIZE Terms_codec + MAX_ENCODED_SIZE (Option_ PartyAuth_codec))%nat in
  let max := if (max <? timeout)%nat then timeout else max in
  let max := if (max <? FREEZE_BODY_SIZE)%nat then FREEZE_BODY_SIZE else max in
  let commitment := MAX_ENCODED_SIZE PaymentContestCommitment_codec in
  if (max <? commitment)%nat then commitment else max.

Definition CloseProof_wf (p : CloseProof) : bool :=
  match p with
  | Proof_Mutual maker taker => wf PartyAuth_codec maker && wf PartyAuth_codec taker
  | Proof_Timeout terms owner => wf Terms_codec terms && wf (Option_ PartyAuth_codec) owner
  | Proof_Freeze earned from through maker taker =>
      wf u64 earned && wf u64 from && wf u64 through && wf PartyAuth_codec maker &&
      wf PartyAuth_codec taker
  | Proof_Adjudicated commitment => wf PaymentContestCommitment_codec commitment
  end.

(* [tx/proof.rs:439-470] Proof::encode_to *)
Definition CloseProof_encode_to (p : CloseProof) : bytes :=
  match p with
  | Proof_Mutual maker taker =>
      encode_envelope tag_PROOF ++ encode_to u8 MUTUAL_TAG ++ encode_to PartyAuth_codec maker ++
      encode_to PartyAuth_codec taker
  | Proof_Timeout terms owner =>
      encode_envelope tag_PROOF ++ encode_to u8 TIMEOUT_TAG ++ encode_to Terms_codec terms ++
      encode_to (Option_ PartyAuth_codec) owner
  | Proof_Freeze earned from through maker taker =>
      encode_envelope tag_PROOF ++ encode_to u8 FREEZE_TAG ++ encode_to u64 earned ++
      encode_to u64 from ++ encode_to u64 through ++ encode_to PartyAuth_codec maker ++
      encode_to PartyAuth_codec taker
  | Proof_Adjudicated commitment =>
      encode_envelope tag_PROOF ++ encode_to u8 ADJUDICATED_TAG ++
      encode_to PaymentContestCommitment_codec commitment
  end.

(* [tx/proof.rs:475-511] Proof::decode *)
Definition CloseProof_decode (buf : bytes) : decoded CloseProof :=
  let? consumed := decode_envelope buf tag_PROOF in
  let? '(variant, consumed) := decode_field u8 buf consumed in
  if variant =? MUTUAL_TAG then
    let? '(maker, consumed) := decode_field PartyAuth_codec buf consumed in
    let? '(taker, consumed) := decode_field PartyAuth_codec buf consumed in
    Ok (Proof_Mutual maker taker, consumed)
  else if variant =? TIMEOUT_TAG then
    let? '(terms, consumed) := decode_field Terms_codec buf consumed in
    let? '(owner, consumed) := decode_field (Option_ PartyAuth_codec) buf consumed in
    Ok (Proof_Timeout terms owner, consumed)
  else if variant =? FREEZE_TAG then
    let? '(earned, consumed) := decode_field u64 buf consumed in
    let? '(from, consumed) := decode_field u64 buf consumed in
    let? '(through, consumed) := decode_field u64 buf consumed in
    let? '(maker, consumed) := decode_field PartyAuth_codec buf consumed in
    let? '(taker, consumed) := decode_field PartyAuth_codec buf consumed in
    Ok (Proof_Freeze earned from through maker taker, consumed)
  else if variant =? ADJUDICATED_TAG then
    let? '(commitment, consumed) := decode_field PaymentContestCommitment_codec buf consumed in
    Ok (Proof_Adjudicated commitment, consumed)
  else Err (InvalidTag variant).

(* [tx/proof.rs:423-437] Proof *)
Definition CloseProof_codec : Codec CloseProof := {|
  MAX_ENCODED_SIZE := ENVELOPE_SIZE + MAX_ENCODED_SIZE u8 + MAX_PROOF_BODY;
  encoded_size := fun p => (ENVELOPE_SIZE + MAX_ENCODED_SIZE u8 +
    match p with
    | Proof_Mutual maker taker =>
        encoded_size PartyAuth_codec maker + encoded_size PartyAuth_codec taker
    | Proof_Timeout terms owner =>
        encoded_size Terms_codec terms + encoded_size (Option_ PartyAuth_codec) owner
    | Proof_Freeze _ _ _ maker taker =>
        3 * MAX_ENCODED_SIZE u64 + encoded_size PartyAuth_codec maker
        + encoded_size PartyAuth_codec taker
    | Proof_Adjudicated commitment => encoded_size PaymentContestCommitment_codec commitment
    end)%nat;
  encode_to := CloseProof_encode_to;
  decode := CloseProof_decode;
  wf := CloseProof_wf |}.

Definition Move_wf (m : Move) : bool :=
  match m with
  | StartPaymentClose start => wf PaymentCloseStart_codec start
  | RespondPaymentClose response => wf PaymentCloseResponse_codec response
  end.

(* [tx/mod.rs:172-177] Move::encode_to *)
Definition Move_encode_to (m : Move) : bytes :=
  match m with
  | StartPaymentClose start => encode_to PaymentCloseStart_codec start
  | RespondPaymentClose response => encode_to PaymentCloseResponse_codec response
  end.

(* [tx/mod.rs:181-193] Move::decode *)
Definition Move_decode (buf : bytes) : decoded Move :=
  let? tag := peek_envelope_tag buf in
  if tag =? tag_PAYMENT_CLOSE_START then
    let? '(start, consumed) := decode PaymentCloseStart_codec buf in
    Ok (StartPaymentClose start, consumed)
  else if tag =? tag_PAYMENT_CLOSE_RESPONSE then
    let? '(response, consumed) := decode PaymentCloseResponse_codec buf in
    Ok (RespondPaymentClose response, consumed)
  else Err (InvalidTag tag).

(* [tx/mod.rs:158-170] Move *)
Definition Move_codec : Codec Move := {|
  MAX_ENCODED_SIZE :=
    let start := MAX_ENCODED_SIZE PaymentCloseStart_codec in
    let response := MAX_ENCODED_SIZE PaymentCloseResponse_codec in
    if (response <? start)%nat then start else response;
  encoded_size := fun m =>
    match m with
    | StartPaymentClose start => encoded_size PaymentCloseStart_codec start
    | RespondPaymentClose response => encoded_size PaymentCloseResponse_codec response
    end;
  encode_to := Move_encode_to;
  decode := Move_decode;
  wf := Move_wf |}.

Definition Tx_wf (t : Tx) : bool :=
  match t with
  | Tx_Open funding terms maker taker =>
      wf Funding_codec funding && wf Terms_codec terms && wf PartyAuth_codec maker &&
      wf PartyAuth_codec taker
  | Tx_Close input proof outputs =>
      wf EdgeId_codec input && wf CloseProof_codec proof && wf Payouts_codec outputs
  | Tx_Move action => wf Move_codec action
  | Tx_Owner reshape => wf Reshape_codec reshape
  end.

(* [tx/mod.rs:407-441] Tx::encode_to *)
Definition Tx_encode_to (t : Tx) : bytes :=
  match t with
  | Tx_Open funding terms maker taker =>
      encode_envelope tag_TX ++ encode_to u8 OPEN_TAG ++ encode_to Funding_codec funding ++
      encode_to Terms_codec terms ++ encode_to PartyAuth_codec maker ++
      encode_to PartyAuth_codec taker
  | Tx_Close input proof outputs =>
      encode_envelope tag_TX ++ encode_to u8 CLOSE_TAG ++ encode_to EdgeId_codec input ++
      encode_to CloseProof_codec proof ++ encode_to Payouts_codec outputs
  | Tx_Move action =>
      encode_envelope tag_TX ++ encode_to u8 MOVE_TAG ++ encode_to Move_codec action
  | Tx_Owner reshape =>
      encode_envelope tag_TX ++ encode_to u8 TX_OWNER_TAG ++ encode_to Reshape_codec reshape
  end.

(* [tx/mod.rs:445-472] Tx::decode *)
Definition Tx_decode (buf : bytes) : decoded Tx :=
  let? consumed := decode_envelope buf tag_TX in
  let? '(variant, consumed) := decode_field u8 buf consumed in
  if variant =? OPEN_TAG then
    let? '(funding, consumed) := decode_field Funding_codec buf consumed in
    let? '(terms, consumed) := decode_field Terms_codec buf consumed in
    let? '(maker, consumed) := decode_field PartyAuth_codec buf consumed in
    let? '(taker, consumed) := decode_field PartyAuth_codec buf consumed in
    Ok (Tx_Open funding terms maker taker, consumed)
  else if variant =? CLOSE_TAG then
    let? '(input, consumed) := decode_field EdgeId_codec buf consumed in
    let? '(proof, consumed) := decode_field CloseProof_codec buf consumed in
    let? '(outputs, consumed) := decode_field Payouts_codec buf consumed in
    Ok (Tx_Close input proof outputs, consumed)
  else if variant =? MOVE_TAG then
    let? '(action, consumed) := decode_field Move_codec buf consumed in
    Ok (Tx_Move action, consumed)
  else if variant =? TX_OWNER_TAG then
    let? '(reshape, consumed) := decode_field Reshape_codec buf consumed in
    Ok (Tx_Owner reshape, consumed)
  else Err (InvalidTag variant).

Definition Tx_MAX_BODY : nat :=
  let open := (MAX_ENCODED_SIZE Funding_codec + MAX_ENCODED_SIZE Terms_codec
               + 2 * MAX_ENCODED_SIZE PartyAuth_codec)%nat in
  let close := (MAX_ENCODED_SIZE EdgeId_codec + MAX_ENCODED_SIZE CloseProof_codec
                + MAX_ENCODED_SIZE Payouts_codec)%nat in
  let max_body := if (close <? open)%nat then open else close in
  let max_body := if (max_body <? MAX_ENCODED_SIZE Move_codec)%nat
                  then MAX_ENCODED_SIZE Move_codec else max_body in
  if (max_body <? MAX_ENCODED_SIZE Reshape_codec)%nat
  then MAX_ENCODED_SIZE Reshape_codec else max_body.

(* [tx/mod.rs:367-404] Tx *)
Definition Tx_codec : Codec Tx := {|
  MAX_ENCODED_SIZE := ENVELOPE_SIZE + MAX_ENCODED_SIZE u8 + Tx_MAX_BODY;
  encoded_size := fun t => (ENVELOPE_SIZE + MAX_ENCODED_SIZE u8 +
    match t with
    | Tx_Open funding terms maker taker =>
        encoded_size Funding_codec funding + encoded_size Terms_codec terms
        + encoded_size PartyAuth_codec maker + encoded_size PartyAuth_codec taker
    | Tx_Close input proof outputs =>
        encoded_size EdgeId_codec input + encoded_size CloseProof_codec proof
        + encoded_size Payouts_codec outputs
    | Tx_Move action => encoded_size Move_codec action
    | Tx_Owner reshape => encoded_size Reshape_codec reshape
    end)%nat;
  encode_to := Tx_encode_to;
  decode := Tx_decode;
  wf := Tx_wf |}.
End codecs.

(** ** Codec laws *)

#[export] Instance Funding_lawful : Lawful Funding_codec.
Proof. codec_lawful Funding_codec Funding_encode_to Funding_decode Funding_wf. Qed.

#[export] Instance Reshape_lawful : Lawful Reshape_codec.
Proof. codec_lawful Reshape_codec Reshape_encode_to Reshape_decode Reshape_wf. Qed.

Section laws.
  Context `{Blake3}.

Lemma MAX_PROOF_BODY_bounds :
  (2 * MAX_ENCODED_SIZE PartyAuth_codec <= MAX_PROOF_BODY /\
   MAX_ENCODED_SIZE Terms_codec + MAX_ENCODED_SIZE (Option_ PartyAuth_codec) <= MAX_PROOF_BODY /\
   3 * MAX_ENCODED_SIZE u64 + 2 * MAX_ENCODED_SIZE PartyAuth_codec <= MAX_PROOF_BODY /\
   MAX_ENCODED_SIZE PaymentContestCommitment_codec <= MAX_PROOF_BODY)%nat.
Proof.
  unfold MAX_PROOF_BODY, FREEZE_BODY_SIZE. cbv zeta. rewrite !nat_max_if. lia.
Qed.

#[export] Instance CloseProof_lawful : Lawful CloseProof_codec.
Proof.
  destruct MAX_PROOF_BODY_bounds as (? & ? & ? & ?).
  codec_lawful CloseProof_codec CloseProof_encode_to CloseProof_decode CloseProof_wf.
Qed.

#[export] Instance Move_lawful : Lawful Move_codec.
Proof.
  split; unfold Move_codec; cbn [MAX_ENCODED_SIZE encoded_size encode_to decode wf].
  - intros [] Hwf; by apply encoded_size_exact.
  - intros [s|r] Hwf; [pose proof (encoded_size_max s Hwf)|pose proof (encoded_size_max r Hwf)];
      unfold Move_encode_to; cbv zeta; rewrite nat_max_if; lia.
  - intros [s|r] rest Hwf; unfold Move_decode, Move_encode_to.
    + destruct s eqn:Es; rewrite <- Es in *.
      replace (peek_envelope_tag (encode_to PaymentCloseStart_codec s ++ rest))
        with (@Ok N DecodeError tag_PAYMENT_CLOSE_START) by (by subst).
      cbn [rbind]. tag_step. by rewrite decode_encode.
    + destruct r eqn:Es; rewrite <- Es in *.
      replace (peek_envelope_tag (encode_to PaymentCloseResponse_codec r ++ rest))
        with (@Ok N DecodeError tag_PAYMENT_CLOSE_RESPONSE) by (by subst).
      cbn [rbind]. do 2 tag_step. by rewrite decode_encode.
  - intros buf x n Hd. unfold Move_decode in Hd. inv_ok. repeat dec_step; inv_ok; subst.
    + by apply decode_sound in E0.
    + by apply decode_sound in E0.
Qed.

Lemma Tx_MAX_BODY_bounds :
  (MAX_ENCODED_SIZE Funding_codec + MAX_ENCODED_SIZE Terms_codec
     + 2 * MAX_ENCODED_SIZE PartyAuth_codec <= Tx_MAX_BODY /\
   MAX_ENCODED_SIZE EdgeId_codec + MAX_ENCODED_SIZE CloseProof_codec
     + MAX_ENCODED_SIZE Payouts_codec <= Tx_MAX_BODY /\
   MAX_ENCODED_SIZE Move_codec <= Tx_MAX_BODY /\ MAX_ENCODED_SIZE Reshape_codec <= Tx_MAX_BODY)%nat.
Proof.
  unfold Tx_MAX_BODY. cbv zeta. rewrite !nat_max_if. lia.
Qed.

#[export] Instance Tx_lawful : Lawful Tx_codec.
Proof.
  destruct Tx_MAX_BODY_bounds as (? & ? & ? & ?).
  codec_lawful Tx_codec Tx_encode_to Tx_decode Tx_wf.
Qed.
End laws.
