(* ===== verification/WorkTx.v ===== *)
(** * The work-payment transitions (crates/kernel/src/tx/work.rs)

    Starting and answering a payment-close contest, the two close proofs that
    end it, and the bond lease a payment open takes out.  Every reader goes
    through the one pending slot of the edge. *)

From S2P Require Import Prelude Xet Canonical Primitive Errors Context Auth Objects Registry.
From S2P Require Import Store Event Terms Work Lease Tx.

#[local] Open Scope N_scope.

(** ** Shared checks *)

(* [tx/work.rs:47-54] WindowFault *)
Inductive WindowFault := Outside | TooWide.

(* [tx/work.rs:563-592] check_validity_window *)
Definition check_validity_window (height : N) (validity : N * N) (max_span : N)
    : result unit WindowFault :=
  let '(from, through) := validity in
  if (height <? from) || (through <? height) then Err Outside else
  let? gap := ok_or (checked_sub through from) TooWide in
  let? span := ok_or (checked_add gap 1) TooWide in
  if max_span <? span then Err TooWide else Ok tt.

(* [tx/work.rs:556-561] move_window_fault *)
Definition move_window_fault (fault : WindowFault) : InvalidMoveReason :=
  match fault with Outside => OutsideValidityWindow | TooWide => ValiditySpanTooWide end.

(* [tx/work.rs:594-611] check_certificate *)
Definition check_certificate (certificate : EarnedCertificate) (input : EdgeId)
    (terms : TermsHash) : result unit InvalidMoveReason :=
  if bool_decide (cert_payment_edge certificate = input)
     && bool_decide (cert_payment_terms_hash certificate = terms)
  then Ok tt else Err CertificateNotBound.

(* [tx/work.rs:613-620] check_capacity *)
Definition check_capacity (edge : Edge) (omission_bond amount : N)
    : result unit InvalidMoveReason :=
  let? capacity := ok_or (payment_capacity edge omission_bond) Move_ReserveTooSmall in
  if capacity <? amount then Err CertificateOverCapacity else Ok tt.

(* [tx/work.rs:622-643] check_split *)
Definition check_split (parties : Parties) (amounts : N * N) (owner_signed : bool * bool)
    (outputs : list Payout) : result unit InvalidProofReason :=
  let '(total, provider_total) := amounts in
  let? '(provider, client) := split_payouts parties total provider_total owner_signed in
  if bool_decide (outputs = [provider; client]) then Ok tt else Err PayoutMismatch.

(* [tx/work.rs:645-650] one_mutation *)
Definition one_mutation (mutation : RegistryMutation) : KernelResult RegistryDiff :=
  map_err RegistryDiffRejected (RegistryDiff_push RegistryDiff_empty mutation).

(* [tx/work.rs:513-536] check_payment_capacity *)
Definition check_payment_capacity (edge : Edge) (payment : WorkPaymentTerms)
    : result unit InvalidOpenReason :=
  let? route := ok_or (close_route_minimum edge) WorkPaymentReserveTooSmall in
  let? capacity := ok_or (checked_sub route (wp_omission_bond payment))
                     WorkPaymentCapacityUnfunded in
  if capacity =? 0 then Err WorkPaymentCapacityUnfunded else Ok tt.

(* [tx/work.rs:282-297] CloseSubject *)
Record CloseSubject := mk_CloseSubject {
  subject_input : EdgeId;
  subject_edge : Edge;
  subject_total : N;
  subject_outputs : list Payout;
}.

Section work_tx.
  Context `{Blake3} {B : Type} `{BatchOps B}.
  Implicit Types batch : B.

(* [tx/work.rs:540-546] read_pending *)
Definition read_pending batch (context : Context) (input : EdgeId)
    : result (option PendingPaymentClose) PendingCloseFault :=
  read_pending_close batch (Context_network context) input.

(** ** The contest moves *)

(* [tx/work.rs:56-156] apply_start *)
Definition apply_start (start : PaymentCloseStart) (context : Context) (verifier : SigVerifier)
    batch : KernelResult Change :=
  let input := start_payment_edge start in
  let reject := InvalidMove input in
  let? edge := ok_or (edge batch input) (MissingEdge input) in
  if negb (bool_decide (Terms_hash (start_terms start) = Edge_terms edge))
  then Err (reject Move_TermsMismatch) else
  match Terms_profile (start_terms start) with
  | Profile_WorkPayment payment =>
      let height := Context_block_height context in
      let? _ := map_err (fun fault => reject (move_window_fault fault))
                  (check_validity_window height
                     (start_valid_from_height start, start_valid_through_height start)
                     (wp_start_validity_blocks payment)) in
      let? pending := map_err (fun fault => reject (Move_ClosePendingFault fault))
                        (read_pending batch context input) in
      match pending with
      | Some _ => Err (reject ClosePending)
      | None =>
          let? record := ok_or (PendingPaymentClose_from_accepted_start
                                  (Context_network context) height start)
                           (reject DeadlineOverflow) in
          let? _ := match start_certificate start with
                    | None => Ok tt
                    | Some (certificate, _) =>
                        let? _ := map_err reject (check_certificate certificate input
                                                    (Edge_terms edge)) in
                        if cert_earned_cumulative certificate =? 0
                        then Err (reject CertificateNotPositive)
                        else map_err reject (check_capacity edge (wp_omission_bond payment)
                                               (cert_earned_cumulative certificate))
                    end in
          let? _ := match start_certificate start with
                    | Some (certificate, auth) =>
                        if negb (verify_party verifier auth (Parties_maker (Edge_parties edge))
                                   (EarnedCertificate_digest certificate
                                      (Context_network context)))
                        then Err (reject BadCertificateSignature) else Ok tt
                    | None => Ok tt
                    end in
          if negb (verify_party verifier (start_action start)
                     (Party_keys_of (start_opener_role start) (Edge_parties edge))
                     (PaymentCloseStart_digest start (Context_network context)))
          then Err (reject Move_BadSignature) else
          let? chunk := ok_or (PendingPaymentClose_to_chunk record)
                          (reject (Move_ClosePendingFault Pending_Body)) in
          let? diff := one_mutation (RegistryMutation_write
                         (pending_payment_close_slot (Context_network context) input) chunk) in
          Ok (Change_private diff)
      end
  | _ => Err (reject NotAPaymentChannel)
  end.

(* [tx/work.rs:158-254] check_response *)
Definition check_response (response : PaymentCloseResponse) (context : Context)
    (verifier : SigVerifier) batch : KernelResult PendingPaymentClose :=
  let input := resp_payment_edge response in
  let reject := InvalidMove input in
  let? edge := ok_or (edge batch input) (MissingEdge input) in
  if negb (Edge_allows edge Adjudicated) then Err (reject NotAPaymentChannel) else
  let? pending := map_err (fun fault => reject (Move_ClosePendingFault fault))
                    (read_pending batch context input) in
  let? record := ok_or pending (reject Move_ClosePendingMissing) in
  if negb (bool_decide (pending_start_id record = resp_start_id response))
  then Err (reject StartIdMismatch) else
  if negb (bool_decide (resp_responder_role response = Taker))
  then Err (reject ResponderNotBeneficiary) else
  if pending_responded record then Err (reject AlreadyResponded) else
  if pending_response_deadline record <=? Context_block_height context
  then Err (reject ResponseWindowClosed) else
  let certificate := resp_certificate response in
  let? _ := map_err reject (check_certificate certificate input (Edge_terms edge)) in
  if cert_earned_cumulative certificate <=? pending_final_cumulative record
  then Err (reject CertificateNotIncreasing) else
  let? _ := map_err reject (check_capacity edge (pending_penalty_amount record)
                              (cert_earned_cumulative certificate)) in
  let earned_digest := EarnedCertificate_digest certificate (Context_network context) in
  let digest := response_digest (Context_network context) input (Edge_terms edge)
                  (pending_start_id record) (resp_responder_role response) earned_digest in
  if negb (verify_party verifier (resp_action response)
             (Party_keys_of (resp_responder_role response) (Edge_parties edge)) digest)
  then Err (reject Move_BadSignature) else
  if negb (verify_party verifier (resp_certificate_auth response)
             (Parties_maker (Edge_parties edge)) earned_digest)
  then Err (reject BadCertificateSignature) else
  Ok (PendingPaymentClose_with_accepted_response record response).

(* [tx/work.rs:256-280] apply_response *)
Definition apply_response (response : PaymentCloseResponse) (context : Context)
    (verifier : SigVerifier) batch : KernelResult Change :=
  let input := resp_payment_edge response in
  let reject := InvalidMove input in
  let? advanced := check_response response context verifier batch in
  let? chunk := ok_or (PendingPaymentClose_to_chunk advanced)
                  (reject (Move_ClosePendingFault Pending_Body)) in
  let? diff := one_mutation (RegistryMutation_write
                 (pending_payment_close_slot (Context_network context) input) chunk) in
  Ok (Change_private diff).

(** ** The work-payment close proofs *)

(* [tx/work.rs:299-352] check_adjudicated *)
Definition check_adjudicated (close : CloseSubject) (contest_commitment : PaymentContestCommitment)
    (context : Context) batch : result (option RegistryMutation) InvalidProofReason :=
  let '(mk_CloseSubject input edge total outputs) := close in
  let? pending := map_err Proof_ClosePendingFault (read_pending batch context input) in
  let? record := ok_or pending Proof_ClosePendingMissing in
  if negb (pending_responded record)
     && (Context_block_height context <? pending_response_deadline record)
  then Err ResponseWindowOpen else
  let? provider := ok_or (checked_add (pending_final_cumulative record)
                            (PendingPaymentClose_penalty record)) PayoutOverCapacity in
  let? _ := check_split (Edge_parties edge) (total, provider) (pending_owner_signed record)
              outputs in
  if negb (bool_decide (contest_commitment =
             PendingPaymentClose_contest_commitment record (Context_network context) input
               (Edge_terms edge)))
  then Err ContestMismatch else
  Ok (Some (RegistryMutation_delete
              (pending_payment_close_slot (Context_network context) input))).

(* [tx/work.rs:354-429] check_freeze *)
Definition check_freeze (close : CloseSubject) (freeze : N * (N * N) * PartyAuth * PartyAuth)
    (context : Context) (verifier : SigVerifier) batch
    : result (option RegistryMutation) InvalidProofReason :=
  let '(mk_CloseSubject input edge total outputs) := close in
  let '(earned, validity, maker_auth, taker_auth) := freeze in
  let height := Context_block_height context in
  let? _ := map_err (fun _ => FreezeOutsideValidityWindow)
              (check_validity_window height validity MAX_FREEZE_AUTH_BLOCKS) in
  let? pending := map_err Proof_ClosePendingFault (read_pending batch context input) in
  let? provider := match pending with
                   | None => Ok earned
                   | Some record =>
                       if earned <? pending_final_cumulative record then Err FreezeBelowSettled
                       else ok_or (checked_add earned
                                     (PendingPaymentClose_freeze_penalty record earned))
                              PayoutOverCapacity
                   end in
  let owner_signed := freeze_owner_signed maker_auth taker_auth pending in
  let? _ := check_split (Edge_parties edge) (total, provider) owner_signed outputs in
  let digest := freeze_digest (Context_network context) input (Edge_terms edge) earned validity in
  let parties := Edge_parties edge in
  if negb (verify_party verifier maker_auth (Parties_maker parties) digest)
     || negb (verify_party verifier taker_auth (Parties_taker parties) digest)
  then Err Proof_BadSignature else
  Ok ((fun _ => RegistryMutation_delete
                  (pending_payment_close_slot (Context_network context) input)) <$> pending).

(** ** The lease a payment open takes out *)

(* [tx/work.rs:431-511] open_bond_lease *)
Definition open_bond_lease (output : EdgeId) (terms : Terms) (context : Context) batch
    : KernelResult RegistryDiff :=
  match Terms_profile terms with
  | Profile_WorkPayment payment =>
      let reject := InvalidOpen output in
      let? bond := ok_or (edge batch (wp_bond_edge payment))
                     (MissingEdge (wp_bond_edge payment)) in
      if negb (bool_decide (Edge_terms bond = WorkPaymentTerms_bond_terms_hash payment))
      then Err (reject WorkBondTermsMismatch) else
      let? held := map_err (fun fault => reject (WorkBondLeaseFault fault))
                     (read_bond_lease batch (Context_network context) (wp_bond_edge payment)) in
      match held with
      | Some _ => Err (reject WorkBondAlreadyLeased)
      | None =>
          let lease := BondLease_opened (wp_bond_edge payment) output (Terms_hash terms)
                         (wp_private_policy_commitment payment)
                         (WorkPaymentTerms_admission_horizon payment) in
          let? mutations := ok_or (create_mutations (Context_network context) lease)
                              (reject (WorkBondLeaseFault Lease_Body)) in
          map_err RegistryDiffRejected
            (rfold RegistryDiff_push RegistryDiff_empty [mutations.1; mutations.2])
      end
  | _ => Ok RegistryDiff_empty
  end.
End work_tx.
