(* ===== verification/OpenTx.v ===== *)
(** * Opening an edge (crates/kernel/src/tx/open.rs and the open half of tx/mod.rs)

    The arithmetic of an open, the projection an endpoint computes without a
    store, and [apply_open], which validates an open against a batch. *)

From S2P Require Import Prelude Xet Canonical Primitive Errors BoundedList Context Auth Objects.
From S2P Require Import Registry Store Event Terms Work Lease Tx WorkTx.

#[local] Open Scope N_scope.

(** ** Priced funding *)

(* [tx/open.rs:47-65] OpenFunding *)
Record OpenFunding := OpenFunding_new {
  OpenFunding_maker : list (CoinId * N);
  OpenFunding_taker : list (CoinId * N);
}.

(* [tx/open.rs:107-109] ids *)
Definition ids (coins : list (CoinId * N)) : list CoinId := map fst coins.

(* [tx/open.rs:77-82] OpenFunding::funding *)
Definition OpenFunding_funding (self : OpenFunding) : Funding :=
  Funding_new (ids (OpenFunding_maker self)) (ids (OpenFunding_taker self)).

(* [tx/open.rs:84-86] OpenFunding::len *)
Definition OpenFunding_len (self : OpenFunding) : nat :=
  length (OpenFunding_maker self) + length (OpenFunding_taker self).

(* [tx/open.rs:382-387] FundingShape *)
Record FundingShape := mk_FundingShape { shape_maker : bool; shape_taker : bool }.

Definition is_empty {A} (l : list A) : bool := match l with [] => true | _ => false end.

(* [tx/open.rs:390-395] FundingShape::of *)
Definition FundingShape_of (funding : Funding) : FundingShape :=
  mk_FundingShape (negb (is_empty (Funding_maker funding)))
    (negb (is_empty (Funding_taker funding))).

(* [tx/open.rs:88-93] OpenFunding::shape *)
Definition OpenFunding_shape (self : OpenFunding) : FundingShape :=
  mk_FundingShape (negb (is_empty (OpenFunding_maker self)))
    (negb (is_empty (OpenFunding_taker self))).

(* [tx/open.rs:96-105] OpenFunding::total *)
Definition OpenFunding_total (self : OpenFunding) : option N :=
  maker ← checked_sum snd (OpenFunding_maker self);
  taker ← checked_sum snd (OpenFunding_taker self);
  checked_add maker taker.

(** ** The debits *)

(* [tx/open.rs:276-277] OPEN_WITNESSES *)
Definition OPEN_WITNESSES : N := 2.

(* [tx/open.rs:257-277] open_cost *)
Definition open_cost (coins : nat) (terms : Terms) : Cost :=
  let inputs := units coins in
  match Terms_profile terms with
  | Profile_WorkPayment _ => Cost_new 1 (saturating_add inputs 4) OPEN_WITNESSES
  | Profile_WorkStakeBond _ | Profile_Basic => Cost_new 1 (saturating_add inputs 1) OPEN_WITNESSES
  end.

(* [tx/open.rs:279-303] open_reserve_cost *)
Definition open_reserve_cost (terms : Terms) : Cost :=
  match Terms_profile terms with
  | Profile_WorkPayment _ => work_payment_reserve_cost
  | Profile_WorkStakeBond _ =>
      Cost_new 1 (saturating_add (units MAX_EDGE_OUTPUTS) WORK_BOND_TIMEOUT_EXTRA_SLOTS)
        (CloseKind_proofs Mutual)
  | Profile_Basic => kind_close_cost MAX_EDGE_OUTPUTS Mutual
  end.

(* [tx/open.rs:305-319] open_lifetime_fee *)
Definition open_lifetime_fee (height : BlockHeight) (fees : Fees) (terms : Terms)
    : result N InvalidOpenReason :=
  match checked_sub (Terms_timeout terms) height with
  | None => Err TimeoutNotFuture
  | Some blocks =>
      if blocks =? 0 then Err TimeoutNotFuture
      else ok_or (checked_mul (Fees_lifetime fees) blocks) LifetimeFeeOverflow
  end.

(* [tx/open.rs:321-342] timeout_payout *)
Definition timeout_payout (values : EdgeValues) (terms : Terms)
    : result (option N) InvalidOpenReason :=
  match Terms_timeout_outputs terms with
  | None => Ok None
  | Some outputs =>
      let cost := timeout_close_cost (length outputs) (is_work_bond terms) in
      ok_or (Some <$> EdgeValues_close_value values cost) ReserveOverflow
  end.

(* [tx/open.rs:209-216] OpenDebits *)
Record OpenDebits := mk_OpenDebits {
  debits_open_fee : N;
  debits_lifetime_fee : N;
  debits_edge : Edge;
  debits_timeout_payout : option N;
}.

(* [tx/open.rs:218-253] open_debits *)
Definition open_debits (height : BlockHeight) (fees : Fees) (coins : nat) (total : option N)
    (terms : Terms) : result OpenDebits InvalidOpenReason :=
  let? open_fee := ok_or (Fees_charge fees (open_cost coins terms)) FeeOverflow in
  let? lifetime_fee := open_lifetime_fee height fees terms in
  let? reserve := ok_or (Fees_charge fees (open_reserve_cost terms)) ReserveOverflow in
  let? total := ok_or total FundingOverflow in
  let? edge := ok_or (Edge_open total (Terms_parties terms) (Terms_hash terms)
                        (open_fee, lifetime_fee, reserve, fees) (Terms_timeout terms)
                        (Terms_allowed_closes terms)) FundingInsufficient in
  let? payout := timeout_payout (Edge_values edge) terms in
  Ok (mk_OpenDebits open_fee lifetime_fee edge payout).

(* [tx/open.rs:378-380] payout_total *)
Definition payout_total (outputs : list Payout) : option N := checked_sum Payout_value outputs.

(* [tx/open.rs:344-376] check_timeout_payout *)
Definition check_timeout_payout (debits : OpenDebits) (terms : Terms)
    : result unit InvalidOpenReason :=
  match debits_timeout_payout debits, Terms_timeout_outputs terms with
  | Some required, Some outputs =>
      let? committed := ok_or (payout_total outputs) TermsPayoutOverflow in
      if negb (committed =? required) then Err TermsValueMismatch else
      let parties := Terms_parties terms in
      if forallb (fun payout => Parties_is_destination parties payout false) outputs
      then Ok tt else Err TimeoutPayoutNotCommitted
  | _, _ => Ok tt
  end.

(** ** Profile rules *)

(* [tx/open.rs:509-516] paid_solely_to *)
Definition paid_solely_to (outputs : list Payout) (party : PartyKeys) : bool :=
  negb (is_empty outputs)
  && forallb (fun payout => PartyKeys_is_destination party payout false) outputs.

(* [tx/open.rs:452-480] check_work_bond_policy *)
Definition check_work_bond_policy (bond : WorkStakeBondTerms) : result unit InvalidOpenReason :=
  if bond_max_job_price bond =? 0 then Err JobPriceCapZero else
  if paid_solely_to (bond_timeout_outputs bond) (Parties_maker (bond_parties bond))
  then Ok tt else Err WorkStakeReturnRouting.

(* [tx/open.rs:482-507] check_work_payment_terms *)
Definition check_work_payment_terms (payment : WorkPaymentTerms) : result unit InvalidOpenReason :=
  let? _ := check_work_bond_policy (wp_bond_terms payment) in
  if (wp_omit_response_blocks payment <? MIN_OMIT_RESPONSE_BLOCKS)
     || (MAX_OMIT_RESPONSE_BLOCKS <? wp_omit_response_blocks payment)
  then Err WorkResponseWindowOutOfRange else
  if (wp_start_validity_blocks payment =? 0)
     || (MAX_START_VALIDITY_BLOCKS <? wp_start_validity_blocks payment)
  then Err WorkStartValidityOutOfRange else Ok tt.

(* [tx/open.rs:398-450] check_work_profile_open *)
Definition check_work_profile_open (edge : Edge) (funding : FundingShape) (terms : Terms)
    : result unit InvalidOpenReason :=
  match Terms_profile terms with
  | Profile_Basic => Ok tt
  | Profile_WorkStakeBond bond =>
      let? _ := check_work_bond_policy bond in
      if negb (shape_maker funding) then Err WorkStakeMakerUnfunded else
      if Edge_value edge =? 0 then Err WorkStakeValueZero else
      if shape_taker funding then Err WorkStakeTakerFunded else Ok tt
  | Profile_WorkPayment payment =>
      let? _ := check_work_payment_terms payment in
      if shape_taker funding then Err WorkPaymentTakerFunded else
      if negb (shape_maker funding) then Err WorkPaymentMakerUnfunded else
      check_payment_capacity edge payment
  end.

(** ** Authority *)

(* [tx/mod.rs:601-623] check_funding_ownership *)
Definition check_funding_ownership (output : EdgeId) (coins : list (CoinId * Coin))
    (maker_len : nat) (parties : Parties) : KernelResult unit :=
  rfold (fun (_ : unit) '(index, (_, coin)) =>
           let expected := if (index <? maker_len)%nat then Parties_maker parties
                           else Parties_taker parties in
           if negb (bool_decide (Coin_owner coin = PartyKeys_owner expected))
           then Err (InvalidOpen output FundingUnauthorized) else Ok tt)
    tt (imap pair coins).

(* [tx/mod.rs:657-673] check_party_authority *)
Definition check_party_authority (party : PartyKeys) (auth : PartyAuth)
    (coins : list (CoinId * Coin)) : result unit InvalidOpenReason :=
  if PartyAuth_is_owner auth then Ok tt else
  let signer := Some (PartyKeys_signer party) in
  if existsb (fun c => negb (bool_decide (Coin_delegate c.2 = signer))) coins
  then Err FundingNotDelegated else
  if match PartyKeys_payout_delegate party with Some _ => true | None => false end
     && negb (bool_decide (PartyKeys_payout_delegate party = signer))
  then Err PayoutDelegateNotSigner else Ok tt.

(* [tx/mod.rs:625-655] check_open_authority *)
Definition check_open_authority (terms : Terms) (funding : list (CoinId * Coin) * nat)
    (maker_auth taker_auth : PartyAuth) : result unit InvalidOpenReason :=
  let '(coins, maker_len) := funding in
  if match Terms_profile terms with Profile_Basic => true | _ => false end
     && negb (PartyAuth_is_owner maker_auth && PartyAuth_is_owner taker_auth)
  then Err BasicAuthNotOwner else
  let parties := Terms_parties terms in
  let at_ := Nat.min maker_len (length coins) in
  let? _ := check_party_authority (Parties_maker parties) maker_auth (take at_ coins) in
  check_party_authority (Parties_taker parties) taker_auth (drop at_ coins).

(* [tx/mod.rs:1011-1020] duplicate *)
Fixpoint duplicate {T} `{EqDecision T} (items : list T) : option T :=
  match items with
  | [] => None
  | head :: tail => if bool_decide (head ∈ tail) then Some head else duplicate tail
  end.

(* [tx/mod.rs:953-961] open_inputs *)
Definition open_inputs (funding : Funding) : list CoinId := Funding_iter funding.

Section open_tx.
  Context `{Blake3}.

(* [tx/mod.rs:675-692] check_open_auth *)
Definition check_open_auth (network : NetworkId) (output : EdgeId) (funding : Funding)
    (terms : Terms) (maker_auth taker_auth : PartyAuth) (verifier : SigVerifier)
    : KernelResult unit :=
  let hash := Tx_open_hash network funding terms in
  let parties := Terms_parties terms in
  if negb (verify_party verifier maker_auth (Parties_maker parties) hash)
     || negb (verify_party verifier taker_auth (Parties_taker parties) hash)
  then Err (InvalidOpen output Open_BadSignature) else Ok tt.

(** ** The projection *)

(* [tx/open.rs:111-124] OpenProjection *)
Record OpenProjection := mk_OpenProjection {
  projection_edge : EdgeId;
  projection_open_fee : N;
  projection_lifetime_fee : N;
  projection_values : EdgeValues;
  projection_timeout_payout : option N;
}.

(* [tx/open.rs:183-207] open_projection *)
Definition open_projection (height : BlockHeight) (fees : Fees) (funding : OpenFunding)
    (terms : Terms) : result OpenProjection InvalidOpenReason :=
  let? debits := open_debits height fees (OpenFunding_len funding) (OpenFunding_total funding)
                   terms in
  let? _ := check_work_profile_open (debits_edge debits) (OpenFunding_shape funding) terms in
  Ok (mk_OpenProjection (Tx_edge_id_of (OpenFunding_funding funding) terms)
        (debits_open_fee debits) (debits_lifetime_fee debits) (Edge_values (debits_edge debits))
        (debits_timeout_payout debits)).

(** ** The transition *)

Section batch.
  Context {B : Type} `{BatchOps B}.
  Implicit Types batch : B.

(** Each listed coin with the coin the batch holds, first missing one wins. *)
Definition lookup_coins batch (ids : list CoinId) : KernelResult (list (CoinId * Coin)) :=
  rmap (fun id => let? c := ok_or (coin batch id) (MissingCoin id) in Ok (id, c)) ids.

(* [tx/mod.rs:963-970] open_coins *)
Definition open_coins (funding : Funding) batch : KernelResult (list (CoinId * Coin)) :=
  lookup_coins batch (Funding_iter funding).

(* [tx/mod.rs:534-599] apply_open *)
Definition apply_open (funding : Funding) (terms : Terms) (maker_auth taker_auth : PartyAuth)
    (context : Context) (verifier : SigVerifier) batch : KernelResult Change :=
  let output := edge_id funding (Terms_hash terms) in
  match duplicate (open_inputs funding) with
  | Some id => Err (DuplicateInput id)
  | None =>
      match edge batch output with
      | Some _ => Err (EdgeExists output)
      | None =>
          let? coins := open_coins funding batch in
          let parties := Terms_parties terms in
          let? _ := check_funding_ownership output coins (Funding_maker_len funding) parties in
          let? debits := map_err (InvalidOpen output)
                           (open_debits (Context_block_height context) (Context_fees context)
                              (Funding_len funding)
                              (checked_sum (fun c => Coin_value c.2) coins) terms) in
          let edge := debits_edge debits in
          let? _ := map_err (InvalidOpen output) (check_timeout_payout debits terms) in
          let? _ := map_err (InvalidOpen output)
                      (check_open_authority terms (coins, Funding_maker_len funding)
                         maker_auth taker_auth) in
          let? _ := map_err (InvalidOpen output)
                      (check_work_profile_open edge (FundingShape_of funding) terms) in
          let? registry := open_bond_lease output terms context batch in
          let? _ := check_open_auth (Context_network context) output funding terms maker_auth
                      taker_auth verifier in
          Ok (Change_with_registry (Change_open coins (output, edge)) registry)
      end
  end.
End batch.
End open_tx.
