(* ===== verification/CloseTx.v ===== *)
(** * Closing an edge (crates/kernel/src/tx/mod.rs)

    The four close proofs and [apply_close], which validates a close against a
    batch and stages the registry records it retires. *)

From S2P Require Import Prelude Xet Canonical Primitive Errors BoundedList Context Auth Objects.
From S2P Require Import Registry Store Event Terms Work Lease Tx WorkTx.

#[local] Open Scope N_scope.

(** [[Option<RegistryMutation>; 2]] *)
(* [tx/mod.rs:757-762] StagedCloseRegistry *)
Definition StagedCloseRegistry : Type := option RegistryMutation * option RegistryMutation.

(* [tx/mod.rs:945-946] NO_STAGED_REGISTRY *)
Definition NO_STAGED_REGISTRY : StagedCloseRegistry := (None, None).

(* [tx/mod.rs:948-951] one_staged *)
Definition one_staged (mutation : option RegistryMutation) : StagedCloseRegistry := (mutation, None).

(** [into_iter().flatten()] *)
Definition staged_mutations (staged : StagedCloseRegistry) : list RegistryMutation :=
  option_list staged.1 ++ option_list staged.2.

Section close_tx.
  Context `{Blake3} {B : Type} `{BatchOps B}.
  Implicit Types batch : B.

(** The first listed id the batch already holds is refused. *)
Fixpoint check_absent batch (ids : list CoinId) : KernelResult unit :=
  match ids with
  | [] => Ok tt
  | id :: ids =>
      match coin batch id with
      | Some _ => Err (OutputExists id)
      | None => check_absent batch ids
      end
  end.

(* [tx/mod.rs:972-980] check_close_outputs *)
Definition check_close_outputs (input : EdgeId) (outputs : list Payout) batch
    : KernelResult unit :=
  check_absent batch (imap (fun index output => Payout_id output input (N.of_nat index)) outputs).

(* [tx/mod.rs:982-988] close_coins *)
Definition close_coins (input : EdgeId) (outputs : list Payout) : list (CoinId * Coin) :=
  imap (fun index output => Payout_close_coin output input (N.of_nat index)) outputs.

(** What a timeout pays: the committed payout, stripped of its delegate when
    the bond owner signs. *)
Definition timeout_expected (owner : option PartyAuth) (expected : Payout) : Payout :=
  match owner with
  | Some _ => Payout_new (Payout_owner expected) (Payout_value expected)
  | None => expected
  end.

(* [tx/mod.rs:764-854] check_timeout *)
Definition check_timeout (close : CloseSubject) (terms : Terms) (owner : option PartyAuth)
    (context : Context) (verifier : SigVerifier) batch
    : result StagedCloseRegistry InvalidProofReason :=
  let '(mk_CloseSubject input edge _ outputs) := close in
  if negb (bool_decide (Terms_hash terms = Edge_terms edge)) then Err Proof_TermsMismatch else
  let? lease := if is_work_bond terms
                then map_err Proof_BondLeaseFault
                       (read_bond_lease batch (Context_network context) input)
                else Ok None in
  let live_lease := match lease with
                    | Some l => match Store.edge batch (lease_payment_edge l) with
                                | Some _ => Some l
                                | None => None
                                end
                    | None => None
                    end in
  if negb (is_work_bond terms && match live_lease with None => true | Some _ => false end)
     && (Context_block_height context <? Edge_timeout edge)
  then Err TimeoutNotReached else
  match Terms_timeout_outputs terms with
  | None => Err PayoutMismatch
  | Some committed =>
      let? _ := match owner with
                | None => Ok tt
                | Some auth =>
                    if negb (is_work_bond terms) || negb (PartyAuth_is_owner auth)
                    then Err Proof_BadSignature else
                    let hash := Tx_payload_hash (Context_network context) input Timeout
                                  (Edge_terms edge) outputs in
                    if negb (verify_party verifier auth (Parties_maker (Edge_parties edge)) hash)
                    then Err Proof_BadSignature else Ok tt
                end in
      if negb (length committed =? length outputs)%nat
         || existsb (fun '(expected, actual) =>
                       negb (bool_decide (timeout_expected owner expected = actual)))
              (zip committed outputs)
      then Err PayoutMismatch else
      Ok match lease with
         | None => NO_STAGED_REGISTRY
         | Some _ => let deletes := delete_mutations (Context_network context) input in
                     (Some deletes.1, Some deletes.2)
         end
  end.

(* [tx/mod.rs:856-943] check_proof *)
Definition check_proof (close : CloseSubject) (proof : CloseProof) (context : Context)
    (verifier : SigVerifier) batch : result StagedCloseRegistry InvalidProofReason :=
  let input := subject_input close in
  let edge := subject_edge close in
  let outputs := subject_outputs close in
  match proof with
  | Proof_Mutual maker taker =>
      if Edge_timeout edge <=? Context_block_height context then Err ProofExpired else
      let parties := Edge_parties edge in
      if negb (forallb (fun payout =>
                 PartyKeys_is_destination (Parties_maker parties) payout (PartyAuth_is_owner maker)
                 || PartyKeys_is_destination (Parties_taker parties) payout
                      (PartyAuth_is_owner taker)) outputs)
      then Err PayoutNotCommitted else
      let hash := Tx_payload_hash (Context_network context) input Mutual (Edge_terms edge)
                    outputs in
      if verify_party verifier maker (Parties_maker parties) hash
         && verify_party verifier taker (Parties_taker parties) hash
      then Ok NO_STAGED_REGISTRY else Err Proof_BadSignature
  | Proof_Timeout terms owner => check_timeout close terms owner context verifier batch
  | Proof_Freeze earned valid_from_height valid_through_height maker taker =>
      let? m := check_freeze close
                  (earned, (valid_from_height, valid_through_height), maker, taker)
                  context verifier batch in
      Ok (one_staged m)
  | Proof_Adjudicated contest_commitment =>
      let? m := check_adjudicated close contest_commitment context batch in
      Ok (one_staged m)
  end.

(* [tx/mod.rs:705-755] apply_close *)
Definition apply_close (input : EdgeId) (proof : CloseProof) (outputs : list Payout)
    (context : Context) (verifier : SigVerifier) batch : KernelResult Change :=
  let? _ := check_close_outputs input outputs batch in
  let coins := close_coins input outputs in
  let? edge := ok_or (edge batch input) (MissingEdge input) in
  if negb (Edge_allows edge (CloseProof_kind proof))
  then Err (InvalidClose input KindForbidden) else
  let? total := map_err (InvalidClose input)
                  (Edge_closes edge coins (close_cost (length outputs) proof)) in
  let subject := mk_CloseSubject input edge total outputs in
  let? staged := map_err (InvalidProof input)
                   (check_proof subject proof context verifier batch) in
  let? registry := map_err RegistryDiffRejected
                     (rfold RegistryDiff_push RegistryDiff_empty (staged_mutations staged)) in
  Ok (Change_with_registry (Change_close (input, edge) coins) registry).
End close_tx.
