(* ===== verification/Apply.v ===== *)
(** * Dispatch (crates/kernel/src/tx/reshape.rs, tx/mod.rs, state.rs, block.rs)

    The owner reshape, [Tx::apply], and the state machine around it: one batch
    per transaction, or one batch for a block. *)

From S2P Require Import Prelude Xet Canonical Primitive Errors BoundedList Context Auth Objects.
From S2P Require Import Registry Store Event Terms Work Lease Tx WorkTx OpenTx CloseTx.

#[local] Open Scope N_scope.

(* [tx/mod.rs:326-335] Tx::cost *)
Definition Tx_cost (self : Tx) : Cost :=
  match self with
  | Tx_Open funding terms _ _ => open_cost (Funding_len funding) terms
  | Tx_Close _ proof outputs => close_cost (length outputs) proof
  | Tx_Move action => Move_cost action
  | Tx_Owner reshape => Reshape_cost reshape
  end.

Section apply.
  Context `{Blake3}.

Section batch.
  Context {B : Type} `{BatchOps B}.
  Implicit Types batch : B.

(** The output loop of a reshape: both rules per payout, in order. *)
(* [tx/reshape.rs:156-163] Reshape::apply *)
Definition check_reshape_outputs (owner : Key) (outputs : list Payout)
    : result unit InvalidReshapeReason :=
  rfold (fun (_ : unit) payout =>
           if Payout_value payout =? 0 then Err ZeroOutput else
           if match Payout_delegate payout with Some _ => true | None => false end
              && negb (bool_decide (Payout_owner payout = owner))
           then Err ForeignDelegation else Ok tt) tt outputs.

(* [tx/reshape.rs:123-192] Reshape::apply *)
Definition Reshape_apply (self : Reshape) (context : Context) (verifier : SigVerifier) batch
    : KernelResult Change :=
  match duplicate (reshape_inputs self) with
  | Some id => Err (DuplicateInput id)
  | None =>
      let? coins := lookup_coins batch (reshape_inputs self) in
      match coins with
      | [] => Err (InvalidReshape NoInputs)
      | (_, first) :: _ =>
          let owner := Coin_owner first in
          if existsb (fun c => negb (bool_decide (Coin_owner c.2 = owner))) coins
          then Err (InvalidReshape OwnerMismatch) else
          let? _ := map_err InvalidReshape (check_reshape_outputs owner (reshape_outputs self)) in
          let? held := ok_or (checked_sum (fun c => Coin_value c.2) coins)
                         (InvalidReshape Reshape_ValueOverflow) in
          let? issued := ok_or (checked_sum Payout_value (reshape_outputs self))
                           (InvalidReshape Reshape_ValueOverflow) in
          if negb (held =? issued) then Err (InvalidReshape Reshape_ValueMismatch) else
          let network := Context_network context in
          let ids := Reshape_output_ids network (reshape_inputs self) (reshape_outputs self) in
          let? _ := check_absent batch ids in
          let issued_coins := zip ids (map Payout_coin (reshape_outputs self)) in
          let hash := Reshape_payload_hash network (reshape_inputs self) (reshape_outputs self) in
          if negb (verify_auth verifier (reshape_auth self) owner hash)
          then Err (InvalidReshape Reshape_BadSignature) else
          Ok (Change_reshape coins issued_coins)
      end
  end.

(* [tx/mod.rs:144-155] Move::apply *)
Definition Move_apply (self : Move) (context : Context) (verifier : SigVerifier) batch
    : KernelResult Change :=
  match self with
  | StartPaymentClose start => apply_start start context verifier batch
  | RespondPaymentClose response => apply_response response context verifier batch
  end.

(* [tx/mod.rs:337-364] Tx::apply *)
Definition Tx_apply (self : Tx) (context : Context) (verifier : SigVerifier) batch
    : KernelResult Change :=
  match self with
  | Tx_Open funding terms maker_auth taker_auth =>
      apply_open funding terms maker_auth taker_auth context verifier batch
  | Tx_Close input proof outputs => apply_close input proof outputs context verifier batch
  | Tx_Move action => Move_apply action context verifier batch
  | Tx_Owner reshape => Reshape_apply reshape context verifier batch
  end.
End batch.
End apply.
