(* ===== verification/State.v ===== *)
(** * The state machine (crates/kernel/src/state.rs, block.rs)

    One batch per operation, or one for an ordered list of operations: every
    error path drops the batch, every success commits it.  Each operation
    returns its result and the store after it. *)

From S2P Require Import Prelude Xet Canonical Primitive Errors BoundedList Context Auth Objects.
From S2P Require Import Registry Store Event Terms Work Lease Tx WorkTx OpenTx CloseTx Apply.

#[local] Open Scope N_scope.

(* [block.rs:25-36] Block *)
Record Block := Block_new { Block_context : Context; Block_ops : list Tx }.

(* [block.rs:51-61] Block::cost *)
Definition Block_cost (self : Block) : option Cost :=
  foldl (fun acc op => cost ← acc; Cost_checked_add cost (Tx_cost op))
    (Some (Cost_new 0 0 0)) (Block_ops self).

(* [block.rs:63-67] Block::fee *)
Definition Block_fee (self : Block) : option N :=
  cost ← Block_cost self; Context_fee (Block_context self) cost.

(* [block.rs:69-73] Block::fits *)
Definition Block_fits (self : Block) (budget : Cost) : bool :=
  match Block_cost self with Some cost => Cost_fits cost budget | None => false end.

(** One outcome per applied operation. *)
(* [event.rs:54-63] Diff *)
Definition Diff : Type := list ApplyOutcome.

(* [event.rs:79-87] Diff::push *)
Definition Diff_push (self : Diff) (outcome : ApplyOutcome) : Diff := self ++ [outcome].

(* [event.rs:101-109] Diff::outcome *)
Definition Diff_outcome (self : Diff) (index : nat) : option ApplyOutcome := self !! index.

(* [event.rs:130-134] Diff::events *)
Definition Diff_events (self : Diff) : list EventKind := omap outcome_public_event self.

Section state.
  Context `{Blake3} {S B : Type} `{BatchOps B} `{!StoreOps S B}.
  Implicit Types (s : S) (b : B).

(* [state.rs:221-224] State::fold_change *)
Definition fold_change b (change : Change) : KernelResult ApplyOutcome * B :=
  and_then (Change_fold change b) (fun _ b => (Ok (Change_outcome change), b)).

(* [state.rs:211-219] State::fold_one *)
Definition fold_one b (context : Context) (verifier : SigVerifier) (operation : Tx)
    : KernelResult ApplyOutcome * B :=
  match Tx_apply operation context verifier b with
  | Ok change => fold_change b change
  | Err e => (Err e, b)
  end.

Definition Genesis_insert b (seed : Genesis) : result unit InsertError * B :=
  insert_coin b (Genesis_id seed) (Genesis_coin seed).

Fixpoint insert_seeds b (seeds : list Genesis) : result unit InsertError * B :=
  match seeds with
  | [] => (Ok tt, b)
  | seed :: seeds =>
      match Genesis_insert b seed with
      | (Ok _, b) => insert_seeds b seeds
      | (Err e, b) => (Err e, b)
      end
  end.

(* [state.rs:72-86] State::genesis *)
Definition State_genesis s (seeds : list Genesis) : result unit InsertError * S :=
  match insert_seeds (begin s) seeds with
  | (Ok _, b) => (Ok tt, commit b)
  | (Err e, b) => (Err e, drop_batch b)
  end.

(* [state.rs:88-113] State::apply *)
Definition State_apply s (context : Context) (verifier : SigVerifier) (operation : Tx)
    : KernelResult ApplyOutcome * S :=
  match fold_one (begin s) context verifier operation with
  | (Ok outcome, b) => (Ok outcome, commit b)
  | (Err e, b) => (Err e, drop_batch b)
  end.

(** The loop shared by the batch entry points: [observe] sees every outcome
    with its index, before the commit. *)
Fixpoint fold_ops {X} (context : Context) (verifier : SigVerifier)
    (observe : X -> nat -> ApplyOutcome -> X) b (x : X) (index : nat) (operations : list Tx)
    : result unit BatchError * B * X :=
  match operations with
  | [] => (Ok tt, b, x)
  | operation :: operations =>
      match fold_one b context verifier operation with
      | (Ok outcome, b) =>
          fold_ops context verifier observe b (observe x index outcome) (Datatypes.S index)
            operations
      | (Err source, b) => (Err (BatchError_new index source), b, x)
      end
  end.

(* [state.rs:115-141] State::apply_all *)
Definition State_apply_all s (context : Context) (verifier : SigVerifier) (operations : list Tx)
    : result Diff BatchError * S :=
  match fold_ops context verifier (fun diff _ outcome => Diff_push diff outcome) (begin s) [] 0
          operations with
  | (Ok _, b, diff) => (Ok diff, commit b)
  | (Err e, b, _) => (Err e, drop_batch b)
  end.

(* [state.rs:143-159] State::apply_block *)
Definition State_apply_block s (verifier : SigVerifier) (block : Block)
    : result Diff BatchError * S :=
  State_apply_all s (Block_context block) verifier (Block_ops block).

(** The closure's captured state is [X]. *)
(* [state.rs:161-209] State::apply_iter *)
Definition State_apply_iter {X} s (context : Context) (verifier : SigVerifier)
    (operations : list Tx) (on_outcome : X -> nat -> ApplyOutcome -> X) (x : X)
    : result unit BatchError * S * X :=
  match fold_ops context verifier on_outcome (begin s) x 0 operations with
  | (Ok _, b, x) => (Ok tt, commit b, x)
  | (Err e, b, x) => (Err e, drop_batch b, x)
  end.
End state.
