(* ===== verification/Spec.v ===== *)
(** * The abstract kernel

    The kernel over its abstract state: [KState] itself read as a batch gives a
    pure [kcheck] (validation) and a pure [kapply] (validation and effect).
    Validation reads a batch only through its view, so every host agrees with
    [kcheck]; the state machine of [State] refines [kapply]. *)

From S2P Require Import Prelude Xet Canonical Primitive Errors BoundedList Context Auth Objects.
From S2P Require Import Registry Store Event Terms Work Lease Tx WorkTx OpenTx CloseTx Apply.
From S2P Require Import State.

#[local] Open Scope N_scope.

(** The abstract state, read and written directly. *)
#[export] Instance KState_ops : BatchOps KState := {|
  coin s id := ks_coins s !! id;
  insert_coin s id c :=
    let '(r, m) := slot_insert (ks_coins s) id c in (r, with_coins (fun _ => m) s);
  remove_coin s id := (ks_coins s !! id, with_coins (delete id) s);
  edge s id := ks_edges s !! id;
  insert_edge s id e :=
    let '(r, m) := slot_insert (ks_edges s) id e in (r, with_edges (fun _ => m) s);
  remove_edge s id := (ks_edges s !! id, with_edges (delete id) s);
  registry_chunk s id := ks_registry s !! id;
  insert_registry_chunk s id c :=
    let '(r, m) := slot_insert (ks_registry s) id c in (r, with_registry_map (fun _ => m) s);
  remove_registry_chunk s id := (ks_registry s !! id, with_registry_map (delete id) s);
|}.

#[export] Program Instance KState_laws : BatchLaws KState := {| bview := id |}.
Solve All Obligations with slot_solve.

#[export] Instance KState_accepting : Accepting KState.
Proof. split; slot_solve. Qed.

Section spec.
  Context `{Blake3}.

(** Validation of one transaction against an abstract state. *)
Definition kcheck (context : Context) (verifier : SigVerifier) (tx : Tx) (s : KState)
    : KernelResult Change := Tx_apply tx context verifier s.

(** Validation and effect: the change folds exactly when its preconditions
    hold, see [Change_fold_Ok] and [Change_fold_accepts]. *)
Definition kapply (context : Context) (verifier : SigVerifier) (tx : Tx) (s : KState)
    : KernelResult (ApplyOutcome * KState) :=
  match fold_one s context verifier tx with
  | (Ok outcome, s') => Ok (outcome, s')
  | (Err e, _) => Err e
  end.

(** ** Validation depends on the view alone *)

Section views.
  Context {B : Type} `{BatchLaws B}.
  Implicit Types b : B.

Lemma lookup_coins_view b l : lookup_coins b l = lookup_coins (bview b) l.
Proof. unfold lookup_coins. induction l; simpl; [done|]. by rewrite coin_view, IHl. Qed.

Lemma check_absent_view b l : check_absent b l = check_absent (bview b) l.
Proof. induction l; simpl; [done|]. by rewrite coin_view, IHl. Qed.

Lemma read_pending_close_view b network e :
  read_pending_close b network e = read_pending_close (bview b) network e.
Proof. unfold read_pending_close. by rewrite registry_view. Qed.

Lemma read_bond_lease_view b network e :
  read_bond_lease b network e = read_bond_lease (bview b) network e.
Proof. unfold read_bond_lease. by rewrite !registry_view. Qed.

Lemma apply_open_view f t ma ta context verifier b :
  apply_open f t ma ta context verifier b = apply_open f t ma ta context verifier (bview b).
Proof.
  unfold apply_open, open_coins, open_bond_lease. rewrite edge_view, lookup_coins_view.
  destruct (Terms_profile t); [done| |done].
  by rewrite edge_view, read_bond_lease_view.
Qed.

Lemma check_timeout_view close t o context verifier b :
  check_timeout close t o context verifier b =
  check_timeout close t o context verifier (bview b).
Proof.
  unfold check_timeout. destruct close. rewrite read_bond_lease_view.
  destruct (negb _); [done|]. destruct (if is_work_bond t then _ else _) as [[l|]|]; [|done|done].
  cbn [rbind]. by rewrite edge_view.
Qed.

Lemma apply_close_view input proof outputs context verifier b :
  apply_close input proof outputs context verifier b =
  apply_close input proof outputs context verifier (bview b).
Proof.
  unfold apply_close, check_close_outputs. rewrite check_absent_view, edge_view.
  destruct proof; cbn [check_proof]; [done|..].
  - change (edge (bview b) input) with (ks_edges (bview b) !! input).
    destruct (check_absent _ _); [|done]. cbn [rbind].
    destruct (ks_edges (bview b) !! input); [|done]. cbn [ok_or rbind].
    destruct (negb _); [done|]. destruct (map_err _ _); [|done]. cbn [rbind].
    by rewrite check_timeout_view.
  - unfold check_freeze, read_pending. by rewrite read_pending_close_view.
  - unfold check_adjudicated, read_pending. by rewrite read_pending_close_view.
Qed.

Lemma Move_apply_view m context verifier b :
  Move_apply m context verifier b = Move_apply m context verifier (bview b).
Proof.
  destruct m; simpl.
  - unfold apply_start, read_pending. by rewrite edge_view, read_pending_close_view.
  - unfold apply_response, check_response, read_pending.
    by rewrite edge_view, read_pending_close_view.
Qed.

Lemma Reshape_apply_view r context verifier b :
  Reshape_apply r context verifier b = Reshape_apply r context verifier (bview b).
Proof.
  unfold Reshape_apply. rewrite lookup_coins_view. destruct (duplicate _); [done|].
  destruct (lookup_coins (bview b) _) as [[|[]]|]; try done. cbn [rbind].
  by rewrite check_absent_view.
Qed.

(** Every batch is validated as its abstract state is. *)
Lemma Tx_apply_view tx context verifier b :
  Tx_apply tx context verifier b = kcheck context verifier tx (bview b).
Proof.
  unfold kcheck. destruct tx; simpl.
  - apply apply_open_view.
  - apply apply_close_view.
  - apply Move_apply_view.
  - apply Reshape_apply_view.
Qed.
End views.

(** ** Folding *)

Lemma kapply_Ok context verifier tx s o s' :
  kapply context verifier tx s = Ok (o, s') <->
  exists c, kcheck context verifier tx s = Ok c /\ Change_pre c s /\
    o = Change_outcome c /\ s' = Change_post c s.
Proof.
  unfold kapply, fold_one, kcheck. split.
  - destruct (Tx_apply tx context verifier s) as [c|] eqn:Ec; [|done].
    unfold fold_change. destruct (Change_fold c s) as [[[]|] s1] eqn:Ef; [|done]. simpl.
    intros [= <- <-]. apply Change_fold_Ok in Ef as [Hp Hv]. exists c. simpl in *.
    by split_and!.
  - intros (c & -> & Hp & -> & ->).
    assert (exists s1, Change_fold c s = (Ok tt, s1)) as [s1 E]
      by exact (Change_fold_accepts c s Hp).
    unfold fold_change. rewrite E. simpl.
    apply Change_fold_Ok in E as [_ Hv]. simpl in Hv. by rewrite Hv.
Qed.

Section folds.
  Context {B : Type} `{BatchLaws B}.
  Implicit Types b : B.

Lemma fold_one_Ok context verifier tx b o b' :
  fold_one b context verifier tx = (Ok o, b') ->
  kapply context verifier tx (bview b) = Ok (o, bview b').
Proof.
  unfold fold_one. rewrite Tx_apply_view. intros Hf.
  destruct (kcheck context verifier tx (bview b)) as [c|] eqn:Ec; [|done].
  unfold fold_change in Hf. destruct (Change_fold c b) as [[[]|] b1] eqn:Ef; [|done].
  simpl in Hf. injection Hf as <- <-. apply Change_fold_Ok in Ef as [Hp Hv].
  apply kapply_Ok. exists c. by split_and!.
Qed.

Lemma fold_one_accepts `{!Accepting B} context verifier tx b o s' :
  kapply context verifier tx (bview b) = Ok (o, s') ->
  exists b', fold_one b context verifier tx = (Ok o, b') /\ bview b' = s'.
Proof.
  intros (c & Hc & Hp & -> & ->)%kapply_Ok. unfold fold_one. rewrite Tx_apply_view, Hc.
  destruct (Change_fold_accepts c b Hp) as [b1 E]. unfold fold_change. rewrite E. simpl.
  apply Change_fold_Ok in E as [_ Hv]. eauto.
Qed.

(** Running a list of transactions on the abstract state. *)
Fixpoint kapply_all (context : Context) (verifier : SigVerifier) (txs : list Tx) (s : KState)
    : KernelResult (Diff * KState) :=
  match txs with
  | [] => Ok ([], s)
  | tx :: txs =>
      let? '(o, s1) := kapply context verifier tx s in
      let? '(os, s2) := kapply_all context verifier txs s1 in
      Ok (o :: os, s2)
  end.

Lemma fold_ops_Ok {X} context verifier (observe : X -> nat -> ApplyOutcome -> X) txs b x i r b' x' :
  fold_ops context verifier observe b x i txs = (Ok r, b', x') ->
  exists os, kapply_all context verifier txs (bview b) = Ok (os, bview b') /\
    length os = length txs /\
    x' = foldl (fun x p => observe x p.1 p.2) x (imap (fun j o => ((i + j)%nat, o)) os).
Proof.
  revert b x i. induction txs as [|tx txs IH]; intros b x i Hf; simpl in Hf.
  { simplify_eq. exists []. done. }
  destruct (fold_one b context verifier tx) as [[o|] b1] eqn:E1; [|done].
  apply IH in Hf as (os & Hall & Hl & ->). exists (o :: os). simpl.
  rewrite (fold_one_Ok _ _ _ _ _ _ E1). cbn [rbind]. rewrite Hall. cbn [rbind].
  split_and!; [done|by rewrite Hl|]. rewrite Nat.add_0_r. f_equal.
  apply imap_ext. intros j y _. simpl. f_equal. lia.
Qed.

Lemma fold_ops_Err {X} context verifier (observe : X -> nat -> ApplyOutcome -> X) txs b x i e b' x' :
  fold_ops context verifier observe b x i txs = (Err e, b', x') ->
  exists k os b1 tx, BatchError_index e = (i + k)%nat /\ txs !! k = Some tx /\
    kapply_all context verifier (take k txs) (bview b) = Ok (os, bview b1) /\
    fst (fold_one b1 context verifier tx) = Err (BatchError_source e).
Proof.
  revert b x i. induction txs as [|tx txs IH]; intros b x i Hf; simpl in Hf; [done|].
  destruct (fold_one b context verifier tx) as [[o|e1] b1] eqn:E1.
  - apply IH in Hf as (k & os & b2 & tx' & Hi & Htx & Hall & He).
    exists (S k), (o :: os), b2, tx'. simpl. rewrite (fold_one_Ok _ _ _ _ _ _ E1). cbn [rbind].
    rewrite Hall. split_and!; [lia|done|done|done].
  - simplify_eq. exists 0%nat, [], b, tx. simpl. rewrite E1. split_and!; [lia|done|done|done].
Qed.
End folds.

Section stores.
  Context {S B : Type} `{StoreLaws S B}.
  Implicit Types (s : S) (b : B).

Lemma fold_one_drop context verifier tx b :
  drop_batch (fold_one b context verifier tx).2 = drop_batch b.
Proof.
  unfold fold_one. case_match; [|done]. unfold fold_change.
  apply and_then_drop; [apply Change_fold_drop|]. done.
Qed.

Lemma fold_ops_drop {X} context verifier (observe : X -> nat -> ApplyOutcome -> X) txs b x i :
  drop_batch (fold_ops context verifier observe b x i txs).1.2 = drop_batch b.
Proof.
  revert b x i. induction txs as [|tx txs IH]; intros b x i; simpl; [done|].
  pose proof (fold_one_drop context verifier tx b) as Hd.
  destruct (fold_one b context verifier tx) as [[o|e] b1]; simpl in *; [|done].
  by rewrite IH.
Qed.
End stores.
End spec.
