(* ===== verification/Validate.v ===== *)
(** * What validation establishes

    For each transition, everything its acceptance says of the transaction and
    of the state it was checked against, as a record of facts; and the fold
    precondition each accepted change meets. *)

From S2P Require Import Prelude Xet Canonical Primitive Errors BoundedList Context Auth Objects.
From S2P Require Import Registry Store Event Terms Work Lease Tx WorkTx OpenTx CloseTx Apply.
From S2P Require Import State Spec.

#[local] Open Scope N_scope.

(** ** Lists of coins *)

Lemma duplicate_None {T} `{EqDecision T} (l : list T) : duplicate l = None <-> NoDup l.
Proof.
  induction l as [|x l IH]; simpl; [split; [constructor|done]|].
  rewrite NoDup_cons. case_bool_decide as Hin.
  - split; [done|]. by intros [? _].
  - rewrite IH. split; [done|]. by intros [_ ?].
Qed.

Lemma lookup_coins_Ok (s : KState) l coins :
  lookup_coins s l = Ok coins <->
  map fst coins = l /\ Forall (fun c => ks_coins s !! c.1 = Some c.2) coins.
Proof.
  unfold lookup_coins. rewrite rmap_Ok. split.
  - induction 1 as [|id c l coins Hc _ [IH1 IH2]]; [done|]. inv_ok. subst c. simpl in *.
    split; [by rewrite IH1|]. by constructor.
  - intros [<- Hall]. induction Hall as [|[id c] coins Hc _ IH]; simpl; constructor; [|done].
    simpl in Hc. by rewrite Hc.
Qed.

Lemma check_absent_Ok (s : KState) l :
  check_absent s l = Ok tt <-> Forall (fun id => ks_coins s !! id = None) l.
Proof.
  induction l as [|id l IH]; simpl; [done|]. rewrite Forall_cons, <- IH.
  destruct (ks_coins s !! id); [by split; [|intros []]|]. by split; [|intros []].
Qed.

(** ** Opens *)

Lemma check_funding_ownership_Ok output coins maker_len parties :
  check_funding_ownership output coins maker_len parties = Ok tt <->
  forall i c, coins !! i = Some c ->
    Coin_owner c.2 = PartyKeys_owner (if (i <? maker_len)%nat then Parties_maker parties
                                      else Parties_taker parties).
Proof.
  unfold check_funding_ownership.
  etransitivity; [apply (rfold_unit_Ok (fun '(index, (_, coin)) =>
    if negb (bool_decide (Coin_owner coin = PartyKeys_owner
         (if (index <? maker_len)%nat then Parties_maker parties else Parties_taker parties)))
    then Err (InvalidOpen output FundingUnauthorized) else Ok tt))|].
  rewrite Forall_lookup. setoid_rewrite list_lookup_imap. split.
  - intros Hall i [id c] Hi. specialize (Hall i (i, (id, c))). rewrite Hi in Hall.
    specialize (Hall eq_refl). simpl in Hall. case_bool_decide; [done|done].
  - intros Hall i [j [id c]] Hi. apply fmap_Some in Hi as ([id' c'] & Hi & [= -> -> ->]).
    specialize (Hall _ _ Hi). simpl in *. by rewrite bool_decide_eq_true_2.
Qed.

Lemma check_party_authority_Ok party auth coins :
  check_party_authority party auth coins = Ok tt <->
  PartyAuth_is_owner auth = true \/
  (Forall (fun c => Coin_delegate c.2 = Some (PartyKeys_signer party)) coins /\
   (PartyKeys_payout_delegate party = None \/
    PartyKeys_payout_delegate party = Some (PartyKeys_signer party))).
Proof.
  unfold check_party_authority. destruct (PartyAuth_is_owner auth); [by split; [left|]|].
  destruct (existsb _ coins) eqn:Ex.
  - split; [done|]. intros [|[Hall _]]; [done|]. apply existsb_exists in Ex as (c & Hc & Hd).
    rewrite Forall_forall in Hall. rewrite Hall in Hd by (by apply list_elem_of_In).
    by rewrite bool_decide_eq_true_2 in Hd.
  - assert (Forall (fun c => Coin_delegate c.2 = Some (PartyKeys_signer party)) coins) as Hall.
    { apply Forall_forall. intros c Hc. destruct (decide (Coin_delegate c.2 =
        Some (PartyKeys_signer party))) as [|Hne]; [done|]. exfalso.
      assert (existsb (fun c => negb (bool_decide (Coin_delegate c.2 =
        Some (PartyKeys_signer party)))) coins = true); [|congruence].
      apply existsb_exists. exists c. split; [by apply list_elem_of_In|].
      by rewrite bool_decide_eq_false_2. }
    destruct (PartyKeys_payout_delegate party) as [d|]; simpl; [|by split; [right; eauto|]].
    case_bool_decide as Hd; simpl; split; try done; [by right; eauto|].
    intros [|[_ [|]]]; congruence.
Qed.

(** The arithmetic of an accepted open: the funding is the two fees, the
    reserve and the value, to the unit. *)
Lemma open_debits_Ok height fees coins total terms d :
  open_debits height fees coins total terms = Ok d <->
  exists t open_fee lifetime_fee reserve,
    total = Some t /\
    Fees_charge fees (open_cost coins terms) = Some open_fee /\
    open_lifetime_fee height fees terms = Ok lifetime_fee /\
    Fees_charge fees (open_reserve_cost terms) = Some reserve /\
    open_fee + lifetime_fee + reserve <= t /\
    let e := Edge_new (t - open_fee - lifetime_fee - reserve) reserve fees (Terms_timeout terms)
               (Terms_parties terms) (Terms_hash terms) (Terms_allowed_closes terms) in
    exists payout, timeout_payout (Edge_values e) terms = Ok payout /\
      d = mk_OpenDebits open_fee lifetime_fee e payout.
Proof.
  unfold open_debits. split.
  - intros Hd. inv_ok. apply Edge_open_Some in E3.
    destruct E3 as [Hle ->]. do 4 eexists. split_and!; try done. simpl. eauto.
  - intros (t & a & b & c & -> & -> & -> & -> & Hle & payout & Hp & ->). cbn [ok_or rbind].
    assert (Edge_open t (Terms_parties terms) (Terms_hash terms) (a, b, c, fees)
      (Terms_timeout terms) (Terms_allowed_closes terms) =
      Some (Edge_new (t - a - b - c) c fees (Terms_timeout terms)
               (Terms_parties terms) (Terms_hash terms) (Terms_allowed_closes terms))) as ->
      by (apply Edge_open_Some; done).
    cbn [ok_or rbind]. by rewrite Hp.
Qed.

(** What an accepted open commits to its timeout: exactly what a timeout close
    of the new edge distributes, to destinations of its parties. *)
Lemma check_timeout_payout_Ok height fees coins total terms d outputs :
  open_debits height fees coins total terms = Ok d -> check_timeout_payout d terms = Ok tt ->
  Terms_timeout_outputs terms = Some outputs ->
  debits_timeout_payout d = Some (sumN Payout_value outputs) /\
  Edge_close_value (debits_edge d) (timeout_close_cost (length outputs) (is_work_bond terms))
    = Some (sumN Payout_value outputs) /\
  Forall (fun p => Parties_is_destination (Terms_parties terms) p false = true) outputs.
Proof.
  intros Hd Hc Ho. apply open_debits_Ok in Hd as (t & a & b & c & _ & _ & _ & _ & _ & payout & Hp & ->).
  unfold check_timeout_payout in Hc. cbn [debits_timeout_payout debits_edge] in *.
  unfold timeout_payout in Hp. rewrite Ho in *. apply ok_or_Ok, fmap_Some in Hp as (v & Hv & ->).
  inv_ok. bool_simpl. subst. unfold payout_total in *.
  match goal with Hs : checked_sum _ _ = Some _ |- _ => apply checked_sum_Some in Hs as [-> _] end.
  split_and!; [done|done|]. by apply forallb_Forall.
Qed.

Lemma RegistryDiff_push_all l d d' :
  rfold RegistryDiff_push d l = Ok d' -> NoDup (map mutation_id d) ->
  d' = d ++ l /\ NoDup (map mutation_id d').
Proof.
  revert d. induction l as [|m l IH]; intros d Hf Hnd; simpl in Hf.
  - simplify_eq. by rewrite app_nil_r.
  - inv_ok. apply RegistryDiff_push_Ok in E as (-> & Hni & _).
    apply IH in Hf as [-> Hnd']; [split; [by rewrite <- app_assoc|done]|].
    rewrite map_app. apply NoDup_app. split_and!; [done| |by apply NoDup_singleton].
    intros x Hx Hx'. simpl in Hx'. apply list_elem_of_singleton in Hx'. by subst.
Qed.

Lemma RegistryDiff_push_empty l d :
  rfold RegistryDiff_push RegistryDiff_empty l = Ok d -> d = l /\ NoDup (map mutation_id d).
Proof. intros Hf. apply RegistryDiff_push_all in Hf as [-> ?]; [done|constructor]. Qed.

Section validate.
  Context `{Blake3}.
  Implicit Types s : KState.

(** The lease of a payment open; nothing for the other profiles. *)
Lemma open_bond_lease_Ok output terms context s registry :
  open_bond_lease output terms context s = Ok registry ->
  match Terms_profile terms with
  | Profile_WorkPayment payment =>
      exists bond m0 m1,
        ks_edges s !! wp_bond_edge payment = Some bond /\
        Edge_terms bond = WorkPaymentTerms_bond_terms_hash payment /\
        read_bond_lease s (Context_network context) (wp_bond_edge payment) = Ok None /\
        create_mutations (Context_network context)
          (BondLease_opened (wp_bond_edge payment) output (Terms_hash terms)
             (wp_private_policy_commitment payment) (WorkPaymentTerms_admission_horizon payment))
          = Some (m0, m1) /\
        registry = [m0; m1] /\ mutation_id m0 <> mutation_id m1
  | _ => registry = []
  end.
Proof.
  unfold open_bond_lease. destruct (Terms_profile terms) as [|payment|]; [by intros [= <-]| |by intros [= <-]].
  intros Ho. inv_ok. bool_simpl. destruct v1 as [m0 m1].
  apply RegistryDiff_push_empty in Ho as [-> Hnd]. exists v, m0, m1. split_and!; try done.
  simpl in Hnd. apply NoDup_cons in Hnd as [Hni _]. intros Heq. apply Hni. rewrite Heq. left.
Qed.

Record OpenAccepted (funding : Funding) (terms : Terms) (maker_auth taker_auth : PartyAuth)
    (context : Context) (verifier : SigVerifier) (s : KState) (coins : list (CoinId * Coin))
    (debits : OpenDebits) (registry : RegistryDiff) : Prop := {
  oa_nodup : NoDup (Funding_iter funding);
  oa_fresh : ks_edges s !! Tx_edge_id_of funding terms = None;
  oa_inputs : map fst coins = Funding_iter funding;
  oa_present : Forall (fun c => ks_coins s !! c.1 = Some c.2) coins;
  oa_owned : forall i c, coins !! i = Some c ->
    Coin_owner c.2 = PartyKeys_owner
      (if (i <? Funding_maker_len funding)%nat then Parties_maker (Terms_parties terms)
       else Parties_taker (Terms_parties terms));
  oa_debits : open_debits (Context_block_height context) (Context_fees context)
    (Funding_len funding) (checked_sum (fun c => Coin_value c.2) coins) terms = Ok debits;
  oa_payout : check_timeout_payout debits terms = Ok tt;
  oa_authority : check_open_authority terms (coins, Funding_maker_len funding)
    maker_auth taker_auth = Ok tt;
  oa_profile : check_work_profile_open (debits_edge debits) (FundingShape_of funding) terms = Ok tt;
  oa_lease : open_bond_lease (Tx_edge_id_of funding terms) terms context s = Ok registry;
  oa_maker : verify_party verifier maker_auth (Parties_maker (Terms_parties terms))
    (Tx_open_hash (Context_network context) funding terms) = true;
  oa_taker : verify_party verifier taker_auth (Parties_taker (Terms_parties terms))
    (Tx_open_hash (Context_network context) funding terms) = true;
}.

Lemma apply_open_Ok funding terms maker_auth taker_auth context verifier s c :
  apply_open funding terms maker_auth taker_auth context verifier s = Ok c ->
  exists coins debits registry,
    OpenAccepted funding terms maker_auth taker_auth context verifier s coins debits registry /\
    c = Change_Public (EdgeOpened (Funding_iter funding) (Tx_edge_id_of funding terms))
          (Effect_Open coins (Tx_edge_id_of funding terms, debits_edge debits)) registry.
Proof.
  unfold apply_open. destruct (duplicate _) eqn:Hd; [done|]. apply duplicate_None in Hd.
  destruct (edge s _) eqn:He; [done|]. intros Ho. inv_ok.
  repeat match goal with u : unit |- _ => destruct u end.
  unfold check_open_auth in *. inv_ok. bool_simpl. subst c.
  apply lookup_coins_Ok in E as [Hids Hall]. exists v, v1, v5. split.
  - split; try done. exact (proj1 (check_funding_ownership_Ok _ _ _ _) E0).
  - unfold Change_open, Change_with_registry, Change_ids. simpl. by rewrite Hids.
Qed.

(** ** Closes *)

Record CloseAccepted (input : EdgeId) (proof : CloseProof) (outputs : list Payout)
    (context : Context) (verifier : SigVerifier) (s : KState) (e : Edge) (total : N)
    (staged : StagedCloseRegistry) : Prop := {
  ca_fresh : Forall (fun id => ks_coins s !! id = None) (Tx_close_output_ids input outputs);
  ca_edge : ks_edges s !! input = Some e;
  ca_kind : Edge_allows e (CloseProof_kind proof) = true;
  ca_total : Edge_closes e (close_coins input outputs) (close_cost (length outputs) proof) = Ok total;
  ca_proof : check_proof (mk_CloseSubject input e total outputs) proof context verifier s = Ok staged;
  ca_nodup : NoDup (map mutation_id (staged_mutations staged));
}.

Lemma close_coins_ids input outputs :
  map fst (close_coins input outputs) = Tx_close_output_ids input outputs.
Proof. unfold close_coins, Tx_close_output_ids. apply fmap_imap. Qed.

Lemma close_coins_snd input outputs :
  map snd (close_coins input outputs) = map Payout_coin outputs.
Proof.
  unfold close_coins. etransitivity; [apply fmap_imap|].
  change (map Payout_coin outputs) with (Payout_coin <$> outputs).
  rewrite <- imap_const. by apply imap_ext.
Qed.

Lemma apply_close_Ok input proof outputs context verifier s c :
  apply_close input proof outputs context verifier s = Ok c ->
  exists e total staged,
    CloseAccepted input proof outputs context verifier s e total staged /\
    c = Change_Public (EdgeClosed input (Tx_close_output_ids input outputs))
          (Effect_Close (input, e) (close_coins input outputs)) (staged_mutations staged).
Proof.
  unfold apply_close. intros Ho. inv_ok. destruct v. bool_simpl.
  apply check_absent_Ok in E. apply RegistryDiff_push_empty in E3 as [-> Hnd]. subst c.
  exists v0, v1, v2. split; [by split|].
  unfold Change_close, Change_with_registry, Change_ids. simpl. by rewrite close_coins_ids.
Qed.

Lemma staged_push staged :
  NoDup (map mutation_id (staged_mutations staged)) ->
  rfold RegistryDiff_push RegistryDiff_empty (staged_mutations staged) = Ok (staged_mutations staged).
Proof.
  destruct staged as [[m|] [m'|]]; unfold staged_mutations; simpl; try done. intros Hnd.
  unfold RegistryDiff_push. simpl. rewrite bool_decide_eq_false_2; [done|].
  apply NoDup_cons in Hnd as [Hni _]. intros Heq. apply Hni. simpl. rewrite Heq. left.
Qed.

(** The checks of [CloseAccepted] are all there are. *)
Lemma apply_close_accepts input proof outputs context verifier s e total staged :
  CloseAccepted input proof outputs context verifier s e total staged ->
  apply_close input proof outputs context verifier s =
    Ok (Change_Public (EdgeClosed input (Tx_close_output_ids input outputs))
          (Effect_Close (input, e) (close_coins input outputs)) (staged_mutations staged)).
Proof.
  intros [Hf He Hk Ht Hp Hn]. unfold apply_close.
  assert (check_close_outputs input outputs s = Ok tt) as -> by exact (proj2 (check_absent_Ok s _) Hf).
  cbn [rbind].
  assert (edge s input = Some e) as -> by exact He. cbn [ok_or rbind].
  rewrite Hk, Ht. cbn [negb map_err rbind]. rewrite Hp. cbn [map_err rbind].
  rewrite (staged_push _ Hn). cbn [map_err rbind].
  unfold Change_close, Change_with_registry, Change_ids. simpl. by rewrite close_coins_ids.
Qed.

Lemma check_validity_window_Ok height from through max_span :
  check_validity_window height (from, through) max_span = Ok tt <->
  from <= height <= through /\ through - from + 1 <= max_span /\ through - from + 1 <= U64_MAX.
Proof.
  unfold check_validity_window. split.
  - intros Hc. inv_ok. bool_simpl. checked_simpl. lia.
  - intros (Hh & Hs & Hm). destruct (N.ltb_spec height from), (N.ltb_spec through height); try lia.
    simpl. rewrite (proj2 (checked_sub_Some through from (through - from))) by lia. cbn [ok_or rbind].
    rewrite (proj2 (checked_add_Some (through - from) 1 (through - from + 1))) by lia.
    cbn [ok_or rbind]. by destruct (N.ltb_spec max_span (through - from + 1)); [lia|].
Qed.

(** What each proof kind checks. *)

Lemma check_split_Ok parties total provider signed outputs :
  check_split parties (total, provider) signed outputs = Ok tt <->
  provider <= total /\
  outputs = [PartyKeys_payout (Parties_taker parties) provider signed.2;
             PartyKeys_payout (Parties_maker parties) (total - provider) signed.1].
Proof.
  unfold check_split. split.
  - intros Hc. inv_ok. bool_simpl. apply split_payouts_Ok in E as (? & -> & ->). done.
  - intros [Hle ->]. rewrite (proj2 (split_payouts_Ok parties total provider signed _ _)
      (conj Hle (conj eq_refl eq_refl))). cbn [rbind]. by rewrite bool_decide_eq_true_2.
Qed.

Lemma check_mutual_Ok input e total outputs maker taker context verifier s staged :
  check_proof (mk_CloseSubject input e total outputs) (Proof_Mutual maker taker) context verifier s
    = Ok staged <->
  Context_block_height context < Edge_timeout e /\
  Forall (fun p =>
    PartyKeys_is_destination (Parties_maker (Edge_parties e)) p (PartyAuth_is_owner maker) = true \/
    PartyKeys_is_destination (Parties_taker (Edge_parties e)) p (PartyAuth_is_owner taker) = true)
    outputs /\
  verify_party verifier maker (Parties_maker (Edge_parties e))
    (Tx_payload_hash (Context_network context) input Mutual (Edge_terms e) outputs) = true /\
  verify_party verifier taker (Parties_taker (Edge_parties e))
    (Tx_payload_hash (Context_network context) input Mutual (Edge_terms e) outputs) = true /\
  staged = NO_STAGED_REGISTRY.
Proof.
  cbn [check_proof subject_edge subject_input subject_outputs].
  assert (Hf : forallb (fun payout =>
      PartyKeys_is_destination (Parties_maker (Edge_parties e)) payout (PartyAuth_is_owner maker)
      || PartyKeys_is_destination (Parties_taker (Edge_parties e)) payout
           (PartyAuth_is_owner taker)) outputs = true <->
    Forall (fun p =>
      PartyKeys_is_destination (Parties_maker (Edge_parties e)) p (PartyAuth_is_owner maker) = true \/
      PartyKeys_is_destination (Parties_taker (Edge_parties e)) p (PartyAuth_is_owner taker) = true)
      outputs).
  { rewrite forallb_Forall. by setoid_rewrite orb_true_iff. }
  split.
  - intros Hc. inv_ok. bool_simpl. apply Hf in G0. by split_and!.
  - intros (Hh & Hd & -> & -> & ->).
    destruct (N.leb_spec (Edge_timeout e) (Context_block_height context)); [lia|].
    by rewrite (proj2 Hf Hd).
Qed.

Lemma check_adjudicated_Ok input e total outputs commitment context s staged :
  check_adjudicated (mk_CloseSubject input e total outputs) commitment context s = Ok staged <->
  exists record provider,
    read_pending_close s (Context_network context) input = Ok (Some record) /\
    (pending_responded record = true \/
     pending_response_deadline record <= Context_block_height context) /\
    checked_add (pending_final_cumulative record) (PendingPaymentClose_penalty record)
      = Some provider /\
    check_split (Edge_parties e) (total, provider) (pending_owner_signed record) outputs = Ok tt /\
    commitment = PendingPaymentClose_contest_commitment record (Context_network context) input
                   (Edge_terms e) /\
    staged = Some (RegistryMutation_delete
                     (pending_payment_close_slot (Context_network context) input)).
Proof.
  unfold check_adjudicated, read_pending. split.
  - intros Hc. inv_ok. repeat match goal with u : unit |- _ => destruct u end.
    bool_simpl. subst. exists v0, v1. split_and!; try done.
    apply andb_false_iff in G as [|]; bool_simpl; eauto.
  - intros (record & provider & -> & Hw & Ha & Hs & -> & ->). cbn [map_err rbind ok_or].
    destruct (negb (pending_responded record) && _) eqn:G.
    { bool_simpl. destruct Hw; [congruence|lia]. }
    rewrite Ha. cbn [rbind ok_or]. rewrite Hs. cbn [rbind]. by rewrite bool_decide_eq_true_2.
Qed.

Lemma check_freeze_Ok input e total outputs earned validity maker taker context verifier s staged :
  check_freeze (mk_CloseSubject input e total outputs) (earned, validity, maker, taker)
    context verifier s = Ok staged ->
  exists pending provider,
    check_validity_window (Context_block_height context) validity MAX_FREEZE_AUTH_BLOCKS = Ok tt /\
    read_pending_close s (Context_network context) input = Ok pending /\
    match pending with
    | None => provider = earned
    | Some record => pending_final_cumulative record <= earned /\
        checked_add earned (PendingPaymentClose_freeze_penalty record earned) = Some provider
    end /\
    check_split (Edge_parties e) (total, provider) (freeze_owner_signed maker taker pending) outputs
      = Ok tt /\
    verify_party verifier maker (Parties_maker (Edge_parties e))
      (freeze_digest (Context_network context) input (Edge_terms e) earned validity) = true /\
    verify_party verifier taker (Parties_taker (Edge_parties e))
      (freeze_digest (Context_network context) input (Edge_terms e) earned validity) = true /\
    staged = (fun _ => RegistryMutation_delete
                (pending_payment_close_slot (Context_network context) input)) <$> pending.
Proof.
  unfold check_freeze, read_pending. intros Hc.
  apply rbind_Ok in Hc as ([] & Hw & Hc). apply map_err_Ok in Hw.
  apply rbind_Ok in Hc as (pending & Hp & Hc). apply map_err_Ok in Hp.
  apply rbind_Ok in Hc as (provider & Hpr & Hc).
  apply rbind_Ok in Hc as ([] & Hs & Hc). inv_ok. bool_simpl. subst staged.
  exists pending, provider. split_and!; try done.
  destruct pending as [record|]; [|by simplify_eq]. inv_ok. bool_simpl. done.
Qed.

Lemma check_timeout_Ok input e total outputs terms owner context verifier s staged :
  check_timeout (mk_CloseSubject input e total outputs) terms owner context verifier s = Ok staged ->
  exists lease committed,
    Terms_hash terms = Edge_terms e /\
    (if is_work_bond terms
     then read_bond_lease s (Context_network context) input = Ok lease else lease = None) /\
    (Edge_timeout e <= Context_block_height context \/
     is_work_bond terms = true /\
     match lease with Some l => ks_edges s !! lease_payment_edge l = None | None => True end) /\
    Terms_timeout_outputs terms = Some committed /\
    outputs = map (timeout_expected owner) committed /\
    match owner with
    | None => True
    | Some auth =>
        is_work_bond terms = true /\ PartyAuth_is_owner auth = true /\
        verify_party verifier auth (Parties_maker (Edge_parties e))
          (Tx_payload_hash (Context_network context) input Timeout (Edge_terms e) outputs) = true
    end /\
    staged = match lease with
             | None => NO_STAGED_REGISTRY
             | Some _ => let d := delete_mutations (Context_network context) input in
                         (Some d.1, Some d.2)
             end.
Proof.
  unfold check_timeout. intros Hc. inv_ok_step. bool_simpl.
  apply rbind_Ok in Hc as (lease & Hl & Hc). cbn beta zeta in Hc.
  inv_ok_step. apply andb_false_iff in G0 as Hw.
  destruct (Terms_timeout_outputs terms) as [committed|]; [|done].
  apply rbind_Ok in Hc as ([] & Ho & Hc). inv_ok_step. apply zip_compare_map in G1.
  exists lease, committed. split_and!; try done.
  - destruct (is_work_bond terms); [by apply map_err_Ok in Hl|by simplify_eq].
  - destruct Hw as [Hw|Hw]; bool_simpl; [right|by left]. split; [done|].
    destruct lease as [l|]; [|done]. by destruct (ks_edges s !! lease_payment_edge l) eqn:El; [cbn in *; rewrite El in *|].
  - destruct owner as [auth|]; [|done]. inv_ok. bool_simpl. done.
  - by simplify_eq.
Qed.

(** ** Reshapes *)

Record ReshapeAccepted (r : Reshape) (context : Context) (verifier : SigVerifier) (s : KState)
    (coins : list (CoinId * Coin)) (owner : Key) : Prop := {
  ra_nodup : NoDup (reshape_inputs r);
  ra_nonempty : reshape_inputs r <> [];
  ra_inputs : map fst coins = reshape_inputs r;
  ra_present : Forall (fun c => ks_coins s !! c.1 = Some c.2) coins;
  ra_owner : Forall (fun c => Coin_owner c.2 = owner) coins;
  ra_outputs : Forall (fun p => Payout_value p <> 0 /\
    (Payout_delegate p = None \/ Payout_owner p = owner)) (reshape_outputs r);
  ra_value : sumN (fun c => Coin_value c.2) coins = sumN Payout_value (reshape_outputs r);
  ra_fresh : Forall (fun id => ks_coins s !! id = None)
    (Reshape_output_ids (Context_network context) (reshape_inputs r) (reshape_outputs r));
  ra_auth : verify_auth verifier (reshape_auth r) owner
    (Reshape_payload_hash (Context_network context) (reshape_inputs r) (reshape_outputs r)) = true;
}.

Lemma check_reshape_outputs_Ok owner outputs :
  check_reshape_outputs owner outputs = Ok tt <->
  Forall (fun p => Payout_value p <> 0 /\
    (Payout_delegate p = None \/ Payout_owner p = owner)) outputs.
Proof.
  unfold check_reshape_outputs.
  etransitivity; [apply (rfold_unit_Ok (fun payout =>
    if Payout_value payout =? 0 then Err ZeroOutput else
    if match Payout_delegate payout with Some _ => true | None => false end
       && negb (bool_decide (Payout_owner payout = owner))
    then Err ForeignDelegation else Ok tt))|].
  apply Forall_iff. intros p. destruct (N.eqb_spec (Payout_value p) 0); [by split; [|intros []]|].
  destruct (Payout_delegate p); simpl; [|by split; eauto].
  case_bool_decide; simpl; split; try done; [by eauto|]. by intros [_ [|]].
Qed.

(** The coins a reshape issues, with their ids. *)
Definition reshape_coins (network : NetworkId) (r : Reshape) : list (CoinId * Coin) :=
  zip (Reshape_output_ids network (reshape_inputs r) (reshape_outputs r))
      (map Payout_coin (reshape_outputs r)).

Lemma reshape_coins_fst network r :
  map fst (reshape_coins network r) =
  Reshape_output_ids network (reshape_inputs r) (reshape_outputs r).
Proof.
  apply fst_zip. rewrite length_map. unfold Reshape_output_ids. by rewrite length_imap.
Qed.
Lemma reshape_coins_snd network r :
  map snd (reshape_coins network r) = map Payout_coin (reshape_outputs r).
Proof.
  apply snd_zip. rewrite length_map. unfold Reshape_output_ids. by rewrite length_imap.
Qed.

Lemma existsb_Forall {A} (P : A -> Prop) `{forall a, Decision (P a)} l :
  existsb (fun a => negb (bool_decide (P a))) l = false <-> Forall P l.
Proof.
  induction l as [|a l IH]; simpl; [done|]. rewrite Forall_cons, <- IH.
  case_bool_decide; simpl; split; try done; by intros [].
Qed.

Lemma Reshape_apply_Ok r context verifier s c :
  Reshape_apply r context verifier s = Ok c ->
  exists coins owner,
    ReshapeAccepted r context verifier s coins owner /\
    c = Change_Public
          (CoinsReshaped (reshape_inputs r)
             (Reshape_output_ids (Context_network context) (reshape_inputs r) (reshape_outputs r)))
          (Effect_Reshape coins (reshape_coins (Context_network context) r)) [].
Proof.
  unfold Reshape_apply. destruct (duplicate _) eqn:Hd; [done|]. apply duplicate_None in Hd.
  intros Hr. apply rbind_Ok in Hr as (coins & [Hids Hall]%lookup_coins_Ok & Hr).
  destruct coins as [|[id first] tail] eqn:Ec; [done|]. rewrite <- Ec in *. cbn zeta in Hr.
  inv_ok. repeat match goal with u : unit |- _ => destruct u end. bool_simpl.
  apply (existsb_Forall (fun c => Coin_owner c.2 = Coin_owner first)) in G.
  match goal with E : checked_sum _ coins = Some _ |- _ => apply checked_sum_Some in E as [-> _] end.
  match goal with E : checked_sum _ (reshape_outputs r) = Some _ |- _ =>
    apply checked_sum_Some in E as [-> _] end.
  exists coins, (Coin_owner first). split.
  - split; try done.
    + rewrite <- Hids, Ec. done.
    + by apply check_reshape_outputs_Ok.
    + by apply check_absent_Ok.
  - subst c. unfold Change_reshape, Change_ids. fold (reshape_coins (Context_network context) r).
    by rewrite reshape_coins_fst, Hids.
Qed.

(** ** Moves *)

Lemma check_capacity_Ok e bond amount :
  check_capacity e bond amount = Ok tt <->
  exists capacity, payment_capacity e bond = Some capacity /\ amount <= capacity.
Proof.
  unfold check_capacity. split.
  - intros Hc. inv_ok. bool_simpl. eauto.
  - intros (capacity & -> & Hle). cbn [ok_or rbind]. by destruct (N.ltb_spec capacity amount); [lia|].
Qed.

Lemma check_certificate_Ok certificate input terms :
  check_certificate certificate input terms = Ok tt <->
  cert_payment_edge certificate = input /\ cert_payment_terms_hash certificate = terms.
Proof.
  unfold check_certificate. do 2 case_bool_decide; simpl; split; try done; by intros [].
Qed.

(** The amount a start claims. *)
Definition start_claim (start : PaymentCloseStart) : N :=
  match start_certificate start with
  | None => 0
  | Some (certificate, _) => cert_earned_cumulative certificate
  end.

Record StartAccepted (start : PaymentCloseStart) (context : Context) (verifier : SigVerifier)
    (s : KState) (e : Edge) (payment : WorkPaymentTerms) (deadline : N) (chunk : RegistryChunk)
    : Prop := {
  sa_edge : ks_edges s !! start_payment_edge start = Some e;
  sa_terms : Terms_hash (start_terms start) = Edge_terms e;
  sa_profile : Terms_profile (start_terms start) = Profile_WorkPayment payment;
  sa_window : check_validity_window (Context_block_height context)
    (start_valid_from_height start, start_valid_through_height start)
    (wp_start_validity_blocks payment) = Ok tt;
  sa_absent : read_pending_close s (Context_network context) (start_payment_edge start) = Ok None;
  sa_deadline : checked_add (Context_block_height context) (wp_omit_response_blocks payment)
    = Some deadline;
  sa_certificate : forall certificate auth, start_certificate start = Some (certificate, auth) ->
    cert_payment_edge certificate = start_payment_edge start /\
    cert_payment_terms_hash certificate = Edge_terms e /\
    cert_earned_cumulative certificate <> 0 /\
    (exists capacity, payment_capacity e (wp_omission_bond payment) = Some capacity /\
       cert_earned_cumulative certificate <= capacity) /\
    verify_party verifier auth (Parties_maker (Edge_parties e))
      (EarnedCertificate_digest certificate (Context_network context)) = true;
  sa_auth : verify_party verifier (start_action start)
    (Party_keys_of (start_opener_role start) (Edge_parties e))
    (PaymentCloseStart_digest start (Context_network context)) = true;
  sa_chunk : PendingPaymentClose_to_chunk
    (PendingPaymentClose_opened (start_payment_edge start) (start_opener_role start)
       (start_id (PaymentCloseStart_digest start (Context_network context))
          (Context_block_height context)) deadline
       (start_claim start, wp_omission_bond payment)
       (PartyAuth_is_owner (start_action start))) = Some chunk;
}.

Lemma one_mutation_Ok m d : one_mutation m = Ok d <-> d = [m].
Proof. unfold one_mutation. split; [|intros ->; done]. intros Hm. inv_ok.
  by apply RegistryDiff_push_Ok in Hm as (-> & _).
Qed.

Lemma apply_start_Ok start context verifier s c :
  apply_start start context verifier s = Ok c ->
  exists e payment deadline chunk,
    StartAccepted start context verifier s e payment deadline chunk /\
    c = Change_Private [RegistryMutation_write
          (pending_payment_close_slot (Context_network context) (start_payment_edge start)) chunk].
Proof.
  unfold apply_start, read_pending. intros Hc. inv_ok_step. inv_ok_step. inv_ok_step. bool_simpl.
  destruct (Terms_profile (start_terms start)) as [|payment|] eqn:Hp; [done| |done].
  cbn zeta in Hc. inv_ok. repeat match goal with u : unit |- _ => destruct u end. bool_simpl.
  unfold PendingPaymentClose_from_accepted_start in *. rewrite Hp in *. inv_ok.
  match goal with E : one_mutation _ = Ok _ |- _ => apply one_mutation_Ok in E as -> end.
  do 4 eexists. split; [split|by symmetry]; try done.
  - intros certificate auth Hcert. rewrite Hcert in *. inv_ok.
    repeat match goal with u : unit |- _ => destruct u end. bool_simpl.
    match goal with E : check_certificate _ _ _ = Ok _ |- _ =>
      apply check_certificate_Ok in E as [? ?] end.
    match goal with E : check_capacity _ _ _ = Ok _ |- _ => apply check_capacity_Ok in E end.
    by split_and!.
  - subst. unfold start_claim. destruct (start_certificate start) as [[]|]; eassumption.
Qed.

Record ResponseAccepted (response : PaymentCloseResponse) (context : Context)
    (verifier : SigVerifier) (s : KState) (e : Edge) (record : PendingPaymentClose) : Prop := {
  pa_edge : ks_edges s !! resp_payment_edge response = Some e;
  pa_allows : Edge_allows e Adjudicated = true;
  pa_pending : read_pending_close s (Context_network context) (resp_payment_edge response)
    = Ok (Some record);
  pa_start_id : pending_start_id record = resp_start_id response;
  pa_role : resp_responder_role response = Taker;
  pa_first : pending_responded record = false;
  pa_window : Context_block_height context < pending_response_deadline record;
  pa_cert_edge : cert_payment_edge (resp_certificate response) = resp_payment_edge response;
  pa_cert_terms : cert_payment_terms_hash (resp_certificate response) = Edge_terms e;
  pa_increases : pending_final_cumulative record < cert_earned_cumulative (resp_certificate response);
  pa_capacity : exists capacity, payment_capacity e (pending_penalty_amount record) = Some capacity /\
    cert_earned_cumulative (resp_certificate response) <= capacity;
  pa_action : verify_party verifier (resp_action response) (Parties_taker (Edge_parties e))
    (response_digest (Context_network context) (resp_payment_edge response) (Edge_terms e)
       (pending_start_id record) Taker
       (EarnedCertificate_digest (resp_certificate response) (Context_network context))) = true;
  pa_certificate : verify_party verifier (resp_certificate_auth response)
    (Parties_maker (Edge_parties e))
    (EarnedCertificate_digest (resp_certificate response) (Context_network context)) = true;
}.

Lemma check_response_Ok response context verifier s advanced :
  check_response response context verifier s = Ok advanced ->
  exists e record, ResponseAccepted response context verifier s e record /\
    advanced = PendingPaymentClose_with_accepted_response record response.
Proof.
  unfold check_response, read_pending. intros Hc. inv_ok. bool_simpl.
  repeat match goal with u : unit |- _ => destruct u end. subst v0.
  match goal with E : check_certificate _ _ _ = Ok _ |- _ =>
    apply check_certificate_Ok in E as [? ?] end.
  match goal with E : check_capacity _ _ _ = Ok _ |- _ => apply check_capacity_Ok in E end.
  match goal with E : resp_responder_role _ = Taker |- _ => rewrite E in * end.
  do 2 eexists. split; [|by symmetry]. by split.
Qed.

Lemma apply_response_Ok response context verifier s c :
  apply_response response context verifier s = Ok c ->
  exists e record chunk, ResponseAccepted response context verifier s e record /\
    PendingPaymentClose_to_chunk (PendingPaymentClose_with_accepted_response record response)
      = Some chunk /\
    c = Change_Private [RegistryMutation_write
          (pending_payment_close_slot (Context_network context) (resp_payment_edge response)) chunk].
Proof.
  unfold apply_response. intros Hc. inv_ok.
  match goal with E : one_mutation _ = Ok _ |- _ => apply one_mutation_Ok in E as -> end.
  match goal with E : check_response _ _ _ _ = Ok _ |- _ =>
    apply check_response_Ok in E as (e & record & Ha & ->) end.
  do 3 eexists. split_and!; [done|done|by symmetry].
Qed.
End validate.
