(* ===== verification/Conservation.v ===== *)
(** * Effects of accepted transactions: folding and value

    A validated change meets the preconditions of its fold, so validation is
    the only place a transaction can fail on a store that takes every slot; and
    the supply (coins and edge holdings) changes by the fees alone. *)

From S2P Require Import Prelude Xet Canonical Primitive Errors BoundedList Context Auth Objects.
From S2P Require Import Registry Store Event Terms Work Lease Tx WorkTx OpenTx CloseTx Apply.
From S2P Require Import State Spec Validate.

#[local] Open Scope N_scope.

(** The ids of the coins a change creates. *)
Definition Change_created (c : Change) : list CoinId :=
  match c with
  | Change_Public _ (Effect_Close _ coins) _ | Change_Public _ (Effect_Reshape _ coins) _ =>
      map fst coins
  | _ => []
  end.

Lemma diff_pre_writes d r :
  Forall (fun m => is_Some (mutation_chunk m)) d -> diff_pre d r.
Proof.
  intros Hall. revert r. induction Hall as [|m d [c Hc] _ IH]; intros r; simpl; [done|].
  split; [|done]. congruence.
Qed.

(** What a transaction takes out of circulation: the open and lifetime fees of
    an open, the close fee its edge committed for a close, nothing else. *)
Definition burned (context : Context) (tx : Tx) (s : KState) : N :=
  match tx with
  | Tx_Open funding terms _ _ =>
      Fees_price (Context_fees context) (open_cost (Funding_len funding) terms)
      + Fees_lifetime (Context_fees context) * (Terms_timeout terms - Context_block_height context)
  | Tx_Close input proof outputs =>
      match ks_edges s !! input with
      | Some e => Fees_price (Edge_close_fees e) (close_cost (length outputs) proof)
      | None => 0
      end
  | Tx_Move _ | Tx_Owner _ => 0
  end.

Section conservation.
  Context `{Blake3}.
  Implicit Types (s : KState) (context : Context) (verifier : SigVerifier).

Lemma create_mutations_writes network lease m0 m1 :
  create_mutations network lease = Some (m0, m1) ->
  exists c0 c1, BondLease_to_chunks lease = Some (c0, c1) /\
    m0 = RegistryMutation_write (bond_lease_slot network (lease_bond_edge lease) 0) c0 /\
    m1 = RegistryMutation_write (bond_lease_slot network (lease_bond_edge lease) 1) c1.
Proof.
  unfold create_mutations. intros Hm. inv_ok. destruct v as [c0 c1]. exists c0, c1.
  by simplify_eq/=.
Qed.

Lemma open_bond_lease_pre output terms context s registry r :
  open_bond_lease output terms context s = Ok registry -> diff_pre registry r.
Proof.
  intros Ho%open_bond_lease_Ok. apply diff_pre_writes.
  destruct (Terms_profile terms); [by subst| |by subst].
  destruct Ho as (bond & m0 & m1 & _ & _ & _ & Hm & -> & _).
  apply create_mutations_writes in Hm as (c0 & c1 & _ & -> & ->).
  repeat constructor; simpl; eauto.
Qed.

(** Every record a close retires is present. *)
Lemma check_proof_pre input e total outputs proof context verifier s staged :
  check_proof (mk_CloseSubject input e total outputs) proof context verifier s = Ok staged ->
  NoDup (map mutation_id (staged_mutations staged)) ->
  diff_pre (staged_mutations staged) (ks_registry s).
Proof.
  intros Hc Hnd. destruct proof.
  - apply check_mutual_Ok in Hc as (_ & _ & _ & _ & ->). done.
  - cbn [check_proof] in Hc. apply check_timeout_Ok in Hc as (lease & committed & _ & Hl & _ & _ & _ & _ & ->).
    destruct lease as [l|]; [|done]. destruct (is_work_bond terms); [|done].
    apply read_bond_lease_Some in Hl as (c0 & c1 & H0 & H1 & _). simpl in *.
    apply NoDup_cons in Hnd as [Hni _]. unfold mutation_post; simpl. split_and!; [by eauto| |done].
    intros _. rewrite lookup_delete_ne; [by eauto|]. intros Heq. apply Hni. rewrite Heq. left.
  - cbn [check_proof] in Hc. inv_ok. apply check_freeze_Ok in E as (pending & p & _ & Hp & _ & _ & _ & _ & ->).
    subst staged. destruct pending as [record|]; [|done].
    apply read_pending_close_Some in Hp as (chunk & Hs & _). simpl in *. eauto.
  - cbn [check_proof] in Hc. inv_ok.
    apply check_adjudicated_Ok in E as (record & p & Hp & _ & _ & _ & _ & ->).
    subst staged. apply read_pending_close_Some in Hp as (chunk & Hs & _). simpl in *. eauto.
Qed.

Lemma delete_all_lookup {V} (l : list CoinId) (m : gmap CoinId V) id :
  m !! id = None -> delete_all l m !! id = None.
Proof.
  unfold delete_all. revert m. induction l as [|x l IH]; intros m Hm; simpl; [done|].
  apply IH. by apply lookup_delete_None; right.
Qed.

(** A validated change folds, unless two of its output ids collide. *)
Lemma kcheck_pre context verifier tx s c :
  kcheck context verifier tx s = Ok c -> NoDup (Change_created c) -> Change_pre c s.
Proof.
  unfold kcheck. destruct tx as [f t ma ta|input proof outputs|[start|response]|r]; simpl;
    intros Hc Hnd.
  - apply apply_open_Ok in Hc as (coins & d & registry & [] & ->). simpl.
    split; [|by eapply open_bond_lease_pre]. split; [|done]. split; [|done]. by rewrite oa_inputs.
  - apply apply_close_Ok in Hc as (e & total & staged & [] & ->). simpl in *.
    split; [|by eapply check_proof_pre]. split; [done|]. split; [done|].
    rewrite <- (close_coins_ids input outputs) in ca_fresh. by apply Forall_map in ca_fresh.
  - apply apply_start_Ok in Hc as (e & p & d & chunk & _ & ->). by apply diff_pre_writes; repeat constructor; simpl.
  - apply apply_response_Ok in Hc as (e & record & chunk & _ & _ & ->).
    apply diff_pre_writes; repeat constructor; simpl; eauto.
  - apply Reshape_apply_Ok in Hc as (coins & owner & [] & ->). simpl in *.
    split; [|done]. split; split; [by rewrite ra_inputs|done|done|].
    apply Forall_forall. intros [id c] Hc. simpl. apply delete_all_lookup.
    rewrite <- (reshape_coins_fst (Context_network context) r) in ra_fresh.
    apply Forall_map in ra_fresh. rewrite Forall_forall in ra_fresh. by apply (ra_fresh (id, c)).
Qed.

(** ** Value *)

Lemma Effect_post_supply e s :
  Effect_pre e s -> supply (Effect_post e s) + Effect_debit e = supply s + Effect_credit e.
Proof.
  intros Hp. assert (exists s', Effect_fold e s = (Ok tt, s')) as [s' E]
    by exact (Effect_fold_accepts e s Hp).
  apply Effect_fold_Ok in E as (_ & Hv & Hs). simpl in *. by rewrite <- Hv.
Qed.

Lemma Change_post_supply event e d s :
  Effect_pre e s ->
  supply (Change_post (Change_Public event e d) s) + Effect_debit e = supply s + Effect_credit e.
Proof. intros Hp. rewrite <- (Effect_post_supply e s Hp). done. Qed.

Lemma sumN_close_coins input outputs :
  sumN (fun c => Coin_value c.2) (close_coins input outputs) = sumN Payout_value outputs.
Proof.
  rewrite <- (sumN_map Coin_value snd), close_coins_snd, sumN_map. done.
Qed.

Lemma sumN_reshape_coins network r :
  sumN (fun c => Coin_value c.2) (reshape_coins network r) =
  sumN Payout_value (reshape_outputs r).
Proof. rewrite <- (sumN_map Coin_value snd), reshape_coins_snd, sumN_map. done. Qed.

Lemma open_lifetime_fee_Ok height fees terms fee :
  open_lifetime_fee height fees terms = Ok fee <->
  height < Terms_timeout terms /\ fee = Fees_lifetime fees * (Terms_timeout terms - height) /\
  fee <= U64_MAX.
Proof.
  unfold open_lifetime_fee. destruct (checked_sub _ _) as [blocks|] eqn:E.
  - apply checked_sub_Some in E as [-> Hle]. destruct (N.eqb_spec (Terms_timeout terms - height) 0).
    + split; [done|]. lia.
    + rewrite ok_or_Ok, checked_mul_Some. split.
      * intros [-> ?]. split_and!; [lia|done|done].
      * intros (? & -> & ?). done.
  - split; [done|]. intros [Hlt _]. unfold checked_sub in E.
    destruct (N.leb_spec height (Terms_timeout terms)); [done|lia].
Qed.

(** The whole funding of an open is its edge and its two fees. *)
Lemma open_value funding terms maker_auth taker_auth context verifier s coins debits registry :
  OpenAccepted funding terms maker_auth taker_auth context verifier s coins debits registry ->
  sumN (fun c => Coin_value c.2) coins =
  edge_holding (debits_edge debits) + burned context (Tx_Open funding terms maker_auth taker_auth) s.
Proof.
  intros []. apply open_debits_Ok in oa_debits as
    (t & ofee & lf & rs & Ht & Hof & Hlf & Hrs & Hle & payout & _ & ->).
  apply checked_sum_Some in Ht as [-> _]. apply Fees_charge_Some in Hof as [-> _].
  apply open_lifetime_fee_Ok in Hlf as (_ & -> & _). unfold edge_holding, burned.
  cbn [debits_edge Edge_value Edge_reserve]. revert Hle.
  generalize (Fees_lifetime (Context_fees context)
    * (Terms_timeout terms - Context_block_height context)). lia.
Qed.

(** A close issues the whole holding of its edge less the close fee. *)
Lemma close_value input proof outputs context verifier s e total staged :
  CloseAccepted input proof outputs context verifier s e total staged ->
  edge_holding e = sumN Payout_value outputs + burned context (Tx_Close input proof outputs) s.
Proof.
  intros []. apply Edge_closes_Ok in ca_total as (-> & _ & fee & Hf & _ & Hv).
  rewrite sumN_close_coins in Hv. apply Fees_charge_Some in Hf as [-> _].
  unfold burned. rewrite ca_edge. unfold edge_holding. lia.
Qed.

Lemma kapply_supply context verifier tx s o s' :
  kapply context verifier tx s = Ok (o, s') -> supply s = supply s' + burned context tx s.
Proof.
  intros (c & Hc & Hp & _ & ->)%kapply_Ok. unfold kcheck in Hc.
  destruct tx as [f t ma ta|input proof outputs|[start|response]|r]; cbn [Tx_apply Move_apply] in Hc.
  - apply apply_open_Ok in Hc as (coins & d & registry & Ha & ->).
    pose proof (open_value _ _ _ _ _ _ _ _ _ _ Ha) as Hv. destruct Hp as [Hp _].
    pose proof (Change_post_supply (EdgeOpened (Funding_iter f) (Tx_edge_id_of f t)) _ registry s Hp).
    cbn [Effect_debit Effect_credit] in *. lia.
  - apply apply_close_Ok in Hc as (e & total & staged & Ha & ->).
    pose proof (close_value _ _ _ _ _ _ _ _ _ Ha) as Hv. destruct Hp as [Hp _].
    pose proof (Change_post_supply (EdgeClosed input (Tx_close_output_ids input outputs)) _
      (staged_mutations staged) s Hp).
    cbn [Effect_debit Effect_credit] in *. rewrite sumN_close_coins in *. lia.
  - apply apply_start_Ok in Hc as (? & ? & ? & ? & _ & ->). cbn [burned]. by rewrite N.add_0_r.
  - apply apply_response_Ok in Hc as (? & ? & ? & _ & _ & ->). cbn [burned]. by rewrite N.add_0_r.
  - apply Reshape_apply_Ok in Hc as (coins & owner & [] & ->). destruct Hp as [Hp _].
    pose proof (Change_post_supply (CoinsReshaped (reshape_inputs r) (Reshape_output_ids
      (Context_network context) (reshape_inputs r) (reshape_outputs r))) _ [] s Hp).
    cbn [Effect_debit Effect_credit burned] in *. rewrite sumN_reshape_coins in *. lia.
Qed.
End conservation.
