(* ===== verification/Invariant.v ===== *)
(** * The type invariant

    Every object in the state is one its codec accepts: fixed-width ids, [u64]
    values, permitted close sets, canonical registry chunks.  Accepted
    transactions preserve it, so every stored object encodes and decodes. *)

From S2P Require Import Prelude Xet Canonical Primitive Errors BoundedList Context Auth Objects.
From S2P Require Import Registry Store Event Terms Work Lease Tx WorkTx OpenTx CloseTx Apply.
From S2P Require Import State Spec Validate Conservation.

#[local] Open Scope N_scope.

Definition slot_wf {K V} (kcd : Codec K) (vcd : Codec V) (k : K) (v : V) : Prop :=
  wf kcd k = true /\ wf vcd v = true.

Record KState_wf (s : KState) : Prop := {
  wf_coins : map_Forall (slot_wf CoinId_codec Coin_codec) (ks_coins s);
  wf_edges : map_Forall (slot_wf EdgeId_codec Edge_codec) (ks_edges s);
  wf_registry : map_Forall (slot_wf RegistryChunkId_codec RegistryChunk_codec) (ks_registry s);
}.

Record Context_wf (context : Context) : Prop := {
  wf_network : NetworkId_wf (Context_network context);
  wf_height : wf u64 (Context_block_height context) = true;
  wf_fees : wf Fees_codec (Context_fees context) = true;
}.

(** ** Maps under the effects *)

Lemma map_Forall_delete_all {V} (P : CoinId -> V -> Prop) l m :
  map_Forall P m -> map_Forall P (delete_all l m).
Proof.
  unfold delete_all. revert m. induction l as [|id l IH]; intros m Hm; simpl; [done|].
  apply IH. by apply map_Forall_delete.
Qed.

Lemma map_Forall_insert_all (P : CoinId -> Coin -> Prop) coins m :
  map_Forall P m -> Forall (fun c => P c.1 c.2) coins -> map_Forall P (insert_all coins m).
Proof.
  unfold insert_all. intros Hm Hall. revert m Hm.
  induction Hall as [|c coins Hc _ IH]; intros m Hm; simpl; [done|].
  apply IH. by apply map_Forall_insert_2.
Qed.

Lemma map_Forall_diff_post (P : RegistryChunkId -> RegistryChunk -> Prop) d m :
  map_Forall P m ->
  Forall (fun mu => forall c, mutation_chunk mu = Some c -> P (mutation_id mu) c) d ->
  map_Forall P (diff_post d m).
Proof.
  unfold diff_post. intros Hm Hall. revert m Hm.
  induction Hall as [|mu d Hmu _ IH]; intros m Hm; simpl; [done|].
  apply IH. unfold mutation_post. destruct (mutation_chunk mu) eqn:E.
  - apply map_Forall_insert_2; [by apply Hmu|done].
  - by apply map_Forall_delete.
Qed.

Section invariant.
  Context `{Blake3}.
  Implicit Types (s : KState) (context : Context) (verifier : SigVerifier).

Lemma xet_hash_wf preimage : (length (xet_hash preimage) =? 32)%nat = true.
Proof. apply Nat.eqb_eq, xet_hash_length. Qed.

Lemma Terms_parties_wf t : wf Terms_codec t = true -> wf Parties_codec (Terms_parties t) = true.
Proof.
  destruct t as [body h]. unfold Terms_parties. cbn [wf Terms_codec TermsBody_codec Terms_body].
  intros Hw. bool_simpl. destruct body as [|[? [bp ? ? ?] ? ? ? ?]|[]]; cbn [TermsBody_wf] in *;
    cbn [wf WorkPaymentTerms_codec WorkStakeBondTerms_codec bond_witness_codec WorkPaymentTerms_wf
         WorkStakeBondTerms_wf] in *; bool_simpl; try done.
  unfold WorkPaymentTerms_parties. cbn [wp_bond_terms bond_parties].
  destruct bp as [mk tk]. cbn [wf Parties_codec Parties_wf Parties_taker Parties_maker] in *.
  bool_simpl. rewrite andb_true_iff. done.
Qed.

Lemma Terms_timeout_wf t : wf Terms_codec t = true -> wf u64 (Terms_timeout t) = true.
Proof.
  destruct t as [body h]. unfold Terms_timeout. cbn [wf Terms_codec TermsBody_codec Terms_body].
  intros Hw. bool_simpl. destruct body as [|[? [bp ? ? ?] ? ? ? ?]|[]]; cbn [TermsBody_wf] in *;
    cbn [wf WorkPaymentTerms_codec WorkStakeBondTerms_codec bond_witness_codec WorkPaymentTerms_wf
         WorkStakeBondTerms_wf] in *; bool_simpl; done.
Qed.

Lemma Payout_coin_wf p : wf Payout_codec p = true -> wf Coin_codec (Payout_coin p) = true.
Proof. by destruct p. Qed.

(** An accepted open makes a well-formed edge. *)
Lemma open_edge_wf height fees coins total terms d :
  open_debits height fees coins total terms = Ok d ->
  wf Fees_codec fees = true -> wf Terms_codec terms = true ->
  (forall t, total = Some t -> t <= U64_MAX) ->
  wf Edge_codec (debits_edge d) = true.
Proof.
  intros Hd Hfees Hterms Htotal. apply open_debits_Ok in Hd as
    (t & a & b & c & Ht & _ & _ & Hc & Hle & payout & _ & ->).
  specialize (Htotal t Ht). apply Fees_charge_Some in Hc as [-> Hc].
  cbn [debits_edge wf Edge_codec Edge_wf]. rewrite !andb_true_iff. split_and!.
  - apply N.leb_le. lia.
  - by apply N.leb_le.
  - done.
  - by apply Terms_timeout_wf.
  - by apply Terms_parties_wf.
  - by apply Terms_hash_length.
  - apply Terms_allowed_closes_permitted.
Qed.

Lemma create_mutations_wf network lease m0 m1 :
  create_mutations network lease = Some (m0, m1) ->
  Forall (fun mu => forall c, mutation_chunk mu = Some c ->
    slot_wf RegistryChunkId_codec RegistryChunk_codec (mutation_id mu) c) [m0; m1].
Proof.
  intros Hm. apply create_mutations_writes in Hm as (c0 & c1 & Hc & -> & ->).
  unfold BondLease_to_chunks in Hc. inv_ok. destruct v. inv_ok. subst.
  apply Forall_cons_2; [|apply Forall_singleton]; intros c [= <-];
    (split; [apply xet_hash_wf|by eapply split_wf]).
Qed.

Lemma to_chunk_wf p chunk :
  PendingPaymentClose_to_chunk p = Some chunk -> wf RegistryChunk_codec chunk = true.
Proof.
  unfold PendingPaymentClose_to_chunk. intros Hc. inv_ok. destruct v. inv_ok. by eapply split_wf.
Qed.

Lemma staged_deletes input e total outputs proof context verifier s staged :
  check_proof (mk_CloseSubject input e total outputs) proof context verifier s = Ok staged ->
  Forall (fun mu => mutation_chunk mu = None) (staged_mutations staged).
Proof.
  intros Hc. destruct proof; [|cbn [check_proof] in Hc..].
  - apply check_mutual_Ok in Hc as (_ & _ & _ & _ & ->). constructor.
  - apply check_timeout_Ok in Hc as (lease & committed & _ & _ & _ & _ & _ & _ & ->).
    destruct lease; repeat constructor.
  - inv_ok. apply check_freeze_Ok in E as (pending & p & _ & _ & _ & _ & _ & _ & ->). subst staged.
    destruct pending; repeat constructor.
  - inv_ok. apply check_adjudicated_Ok in E as (record & p & _ & _ & _ & _ & _ & ->). subst staged.
    repeat constructor.
Qed.

Lemma payouts_wf (ids : list CoinId) (outputs : list Payout) :
  Forall (fun id => wf CoinId_codec id = true) ids -> forallb (wf Payout_codec) outputs = true ->
  Forall (fun c => slot_wf CoinId_codec Coin_codec c.1 c.2) (zip ids (map Payout_coin outputs)).
Proof.
  intros Hids Hout%forallb_Forall. revert outputs Hout.
  induction Hids as [|id ids Hid _ IH]; intros [|p outputs] Hout; simpl; try constructor.
  - apply Forall_cons in Hout as [Hp _]. split; [done|by apply Payout_coin_wf].
  - apply IH. by apply Forall_cons in Hout as [_ ?].
Qed.

Lemma zip_fst_snd {A B} (l : list (A * B)) : zip (map fst l) (map snd l) = l.
Proof. induction l as [|[]]; simpl; congruence. Qed.

Lemma close_coins_wf input outputs :
  wf Payouts_codec outputs = true ->
  Forall (fun c => slot_wf CoinId_codec Coin_codec c.1 c.2) (close_coins input outputs).
Proof.
  cbn [wf List_]. intros Hw. bool_simpl. rewrite <- (zip_fst_snd (close_coins input outputs)).
  rewrite close_coins_ids, close_coins_snd. apply payouts_wf; [|done].
  unfold Tx_close_output_ids. apply Forall_lookup. intros i id Hi.
  apply list_lookup_imap_Some in Hi as (p & _ & ->). apply xet_hash_wf.
Qed.

Lemma reshape_coins_wf network r :
  wf Payouts_codec (reshape_outputs r) = true ->
  Forall (fun c => slot_wf CoinId_codec Coin_codec c.1 c.2) (reshape_coins network r).
Proof.
  cbn [wf List_]. intros Hw. bool_simpl. apply payouts_wf; [|done].
  unfold Reshape_output_ids. apply Forall_lookup. intros i id Hi.
  apply list_lookup_imap_Some in Hi as (p & _ & ->). apply xet_hash_wf.
Qed.

Lemma kapply_wf context verifier tx s o s' :
  KState_wf s -> Context_wf context -> wf Tx_codec tx = true ->
  kapply context verifier tx s = Ok (o, s') -> KState_wf s'.
Proof.
  intros [Hc He Hr] [Hn Hh Hf] Htx (c & Hk & _ & _ & ->)%kapply_Ok. unfold kcheck in Hk.
  destruct tx as [f t ma ta|input proof outputs|[start|response]|r];
    cbn [Tx_apply Move_apply] in Hk; cbn [wf Tx_codec Tx_wf] in Htx; bool_simpl.
  - apply apply_open_Ok in Hk as (coins & d & registry & [] & ->). split; simpl.
    + by apply map_Forall_delete_all.
    + apply map_Forall_insert_2; [|done]. split; [apply xet_hash_wf|].
      eapply open_edge_wf; [done|done|done|]. intros ? [-> ?]%checked_sum_Some. done.
    + apply open_bond_lease_Ok in oa_lease. apply map_Forall_diff_post; [done|].
      destruct (Terms_profile t); [by subst| |by subst].
      destruct oa_lease as (? & m0 & m1 & _ & _ & _ & Hm & -> & _). by eapply create_mutations_wf.
  - apply apply_close_Ok in Hk as (e & total & staged & [] & ->). split; simpl.
    + apply map_Forall_insert_all; [done|]. by apply close_coins_wf.
    + by apply map_Forall_delete.
    + apply map_Forall_diff_post; [done|]. apply staged_deletes in ca_proof.
      eapply Forall_impl; [exact ca_proof|]. simpl. congruence.
  - apply apply_start_Ok in Hk as (e & p & dl & chunk & [] & ->). split; [done|done|].
    cbn [Change_post with_registry_map ks_registry]. apply map_Forall_diff_post; [done|]. apply Forall_singleton. intros ? [= <-].
    split; [apply xet_hash_wf|by eapply to_chunk_wf].
  - apply apply_response_Ok in Hk as (e & record & chunk & _ & Hch & ->).
    split; [done|done|]. cbn [Change_post with_registry_map ks_registry].
    apply map_Forall_diff_post; [done|].
    apply Forall_singleton. intros ? [= <-]. split; [apply xet_hash_wf|by eapply to_chunk_wf].
  - apply Reshape_apply_Ok in Hk as (coins & owner & [] & ->). split; simpl; [|done|done].
    destruct r. cbn [wf Reshape_codec Reshape_wf] in Htx. bool_simpl.
    apply map_Forall_insert_all; [by apply map_Forall_delete_all|]. by apply reshape_coins_wf.
Qed.
End invariant.
