(* ===== verification/Contest.v ===== *)
(** * The payment-close contest

    The life of one edge's contest as an abstract state machine, the refinement
    that every accepted transaction is one of its steps, and what its runs and
    its settlements guarantee. *)

From S2P Require Import Prelude Xet Canonical Primitive Errors BoundedList Context Auth Objects.
From S2P Require Import Registry Store Event Terms Work Lease Tx WorkTx OpenTx CloseTx Apply.
From S2P Require Import State Spec Validate Conservation Invariant.

#[local] Open Scope N_scope.

(** ** The abstract machine *)

Definition is_maker (p : Party) : bool := match p with Maker => true | Taker => false end.

(** What never changes while a contest is open. *)
Definition same_contest (r r' : PendingPaymentClose) : Prop :=
  pending_payment_edge r' = pending_payment_edge r /\
  pending_opener_role r' = pending_opener_role r /\
  pending_start_id r' = pending_start_id r /\
  pending_response_deadline r' = pending_response_deadline r /\
  pending_start_cumulative r' = pending_start_cumulative r /\
  pending_penalty_amount r' = pending_penalty_amount r.

(** What a transaction asks of one edge's contest. *)
Inductive contest_label := L_idle | L_start | L_respond | L_adjudicate | L_freeze.

Inductive contest_step (height : N) : contest_label -> PendingSlot -> PendingSlot -> Prop :=
  | contest_idle p : contest_step height L_idle p p
  | contest_start r :
      height <= pending_response_deadline r ->
      pending_final_cumulative r = pending_start_cumulative r ->
      pending_responded r = false -> pending_penalty_due r = false ->
      contest_step height L_start Pending_Absent (Pending_Present r)
  | contest_respond r r' :
      height < pending_response_deadline r -> pending_responded r = false ->
      same_contest r r' -> pending_final_cumulative r < pending_final_cumulative r' ->
      pending_responded r' = true ->
      pending_penalty_due r' = pending_penalty_due r || is_maker (pending_opener_role r) ->
      contest_step height L_respond (Pending_Present r) (Pending_Present r')
  | contest_adjudicate r :
      pending_responded r = true \/ pending_response_deadline r <= height ->
      contest_step height L_adjudicate (Pending_Present r) Pending_Absent
  | contest_freeze p :
      (forall fault, p <> Pending_Faulty fault) -> contest_step height L_freeze p Pending_Absent.

(** Runs of the machine, at any heights. *)
Inductive contest_run : PendingSlot -> PendingSlot -> Prop :=
  | run_refl p : contest_run p p
  | run_step height l p q r : contest_run p q -> contest_step height l q r -> contest_run p r.

(** A record as the machine leaves it. *)
Record contest_inv (r : PendingPaymentClose) : Prop := {
  ci_start : pending_start_cumulative r <= pending_final_cumulative r;
  ci_waiting : pending_responded r = false ->
    pending_final_cumulative r = pending_start_cumulative r /\ pending_penalty_due r = false;
  ci_answered : pending_responded r = true ->
    pending_start_cumulative r < pending_final_cumulative r /\
    pending_penalty_due r = is_maker (pending_opener_role r);
}.

Definition slot_inv (p : PendingSlot) : Prop :=
  match p with Pending_Present r => contest_inv r | _ => True end.

Lemma contest_step_inv height l p q : contest_step height l p q -> slot_inv p -> slot_inv q.
Proof.
  intros [] Hi; simpl in *; [done| | |done|done].
  - split; intros; split_and?; try congruence. lia.
  - destruct Hi as [Hs Hw Ha]. destruct H1 as (_ & Hop & _ & _ & Hst & _).
    destruct (Hw H0) as [Hf Hd]. rewrite Hd in H4. simpl in H4.
    split; [rewrite Hst; lia|congruence|]. intros _. rewrite Hst, Hop. split; [lia|done].
Qed.

Lemma contest_run_inv p q : contest_run p q -> slot_inv p -> slot_inv q.
Proof. induction 1; eauto using contest_step_inv. Qed.

Lemma contest_step_idle height p q : contest_step height L_idle p q -> q = p.
Proof. by inversion 1. Qed.

(** ** The contest of an edge in a state *)

Section contest.
  Context `{Blake3}.
  Implicit Types (s : KState) (context : Context) (verifier : SigVerifier).

Definition contest_of (s : KState) (network : NetworkId) (e : EdgeId) : PendingSlot :=
  parse_pending_close (ks_registry s !! pending_payment_close_slot network e) e.

(** What [tx] asks of the contest of [e]. *)
Definition tx_label (e : EdgeId) (tx : Tx) : contest_label :=
  match tx with
  | Tx_Move (StartPaymentClose start) =>
      if bool_decide (start_payment_edge start = e) then L_start else L_idle
  | Tx_Move (RespondPaymentClose response) =>
      if bool_decide (resp_payment_edge response = e) then L_respond else L_idle
  | Tx_Close input (Proof_Adjudicated _) _ =>
      if bool_decide (input = e) then L_adjudicate else L_idle
  | Tx_Close input (Proof_Freeze _ _ _ _ _) _ =>
      if bool_decide (input = e) then L_freeze else L_idle
  | _ => L_idle
  end.

(** The edges whose registry records [tx] may write. *)
Definition tx_edges (tx : Tx) : list EdgeId :=
  match tx with
  | Tx_Open _ terms _ _ =>
      match Terms_profile terms with
      | Profile_WorkPayment payment => [wp_bond_edge payment]
      | _ => []
      end
  | Tx_Close input _ _ => [input]
  | Tx_Move (StartPaymentClose start) => [start_payment_edge start]
  | Tx_Move (RespondPaymentClose response) => [resp_payment_edge response]
  | Tx_Owner _ => []
  end.

(** No slot [tx] may write, other than the contest slot of [e] itself, is the
    contest slot of [e]: no collision among the few hashed ids involved. *)
Definition isolated (network : NetworkId) (e : EdgeId) (tx : Tx) : Prop :=
  Forall (fun e' =>
    (e' <> e -> pending_payment_close_slot network e' <> pending_payment_close_slot network e) /\
    bond_lease_slot network e' 0 <> pending_payment_close_slot network e /\
    bond_lease_slot network e' 1 <> pending_payment_close_slot network e) (tx_edges tx).

Lemma contest_of_read s network e r :
  read_pending_close s network e = Ok (Some r) <-> contest_of s network e = Pending_Present r.
Proof.
  unfold read_pending_close, contest_of. cbn [registry_chunk KState_ops].
  destruct (parse_pending_close _ _); split; congruence.
Qed.

Lemma contest_of_absent s network e :
  read_pending_close s network e = Ok None <-> contest_of s network e = Pending_Absent.
Proof.
  unfold read_pending_close, contest_of. cbn [registry_chunk KState_ops].
  destruct (parse_pending_close _ _); split; congruence.
Qed.

(** A written record reads back. *)
Lemma contest_of_write s network e r chunk :
  wf PendingPaymentClose_codec r = true -> pending_payment_edge r = e ->
  PendingPaymentClose_to_chunk r = Some chunk ->
  contest_of (Change_post (Change_Private [RegistryMutation_write
    (pending_payment_close_slot network e) chunk]) s) network e = Pending_Present r.
Proof.
  intros Hwf He Hc. unfold contest_of. cbn. rewrite lookup_insert_eq.
  cbn [parse_pending_close]. rewrite <- He. by rewrite (PendingPaymentClose_from_to_chunk r chunk).
Qed.

(** Writes to other slots leave the contest alone. *)
Lemma contest_of_diff_ne s s' network e d :
  ks_registry s' = diff_post d (ks_registry s) ->
  Forall (fun m => mutation_id m <> pending_payment_close_slot network e) d ->
  contest_of s' network e = contest_of s network e.
Proof. intros Hs Hd. unfold contest_of. by rewrite Hs, diff_post_lookup_ne. Qed.

Lemma contest_idle_diff height s s' network e d :
  ks_registry s' = diff_post d (ks_registry s) ->
  Forall (fun m => mutation_id m <> pending_payment_close_slot network e) d ->
  contest_step height L_idle (contest_of s network e) (contest_of s' network e).
Proof. intros Hs Hd. rewrite (contest_of_diff_ne s s' network e d Hs Hd). constructor. Qed.

Lemma contest_of_delete s s' network e :
  ks_registry s' = diff_post [RegistryMutation_delete (pending_payment_close_slot network e)]
                     (ks_registry s) ->
  contest_of s' network e = Pending_Absent.
Proof. intros Hs. unfold contest_of. rewrite Hs. cbn. by rewrite lookup_delete_eq. Qed.

(** ** Well-formed records *)

Lemma opened_wf e role id deadline claim bond owner :
  wf EdgeId_codec e = true -> wf StartId_codec id = true -> deadline <= U64_MAX ->
  claim <= U64_MAX -> bond <= U64_MAX ->
  wf PendingPaymentClose_codec (PendingPaymentClose_opened e role id deadline (claim, bond) owner)
    = true.
Proof.
  intros He Hid Hd Hc Hb. unfold PendingPaymentClose_opened.
  cbn [wf PendingPaymentClose_codec PendingPaymentClose_wf]. rewrite He, Hid.
  cbn [wf u64]. unfold u64_ok. apply N.leb_le in Hd, Hc, Hb. rewrite Hd, Hc, Hb. done.
Qed.

Lemma responded_wf r response :
  wf PendingPaymentClose_codec r = true ->
  wf EarnedCertificate_codec (resp_certificate response) = true ->
  wf PendingPaymentClose_codec (PendingPaymentClose_with_accepted_response r response) = true.
Proof.
  destruct r as [a b c d f g h i j k], response as [l m n [o p q] t u].
  unfold PendingPaymentClose_with_accepted_response, PendingPaymentClose_responded_at.
  cbn [wf PendingPaymentClose_codec PendingPaymentClose_wf EarnedCertificate_codec
       EarnedCertificate_wf resp_certificate cert_earned_cumulative].
  intros Hr Hc. bool_simpl. rewrite !andb_true_iff. by split_and!.
Qed.

(** The record an accepted start writes. *)
Definition started (start : PaymentCloseStart) context (payment : WorkPaymentTerms) (deadline : N)
    : PendingPaymentClose :=
  PendingPaymentClose_opened (start_payment_edge start) (start_opener_role start)
    (start_id (PaymentCloseStart_digest start (Context_network context))
       (Context_block_height context)) deadline
    (start_claim start, wp_omission_bond payment) (PartyAuth_is_owner (start_action start)).

Lemma started_wf start context verifier s e payment deadline chunk :
  StartAccepted start context verifier s e payment deadline chunk ->
  wf PaymentCloseStart_codec start = true ->
  wf PendingPaymentClose_codec (started start context payment deadline) = true.
Proof.
  intros [] Hwf. apply checked_add_Some in sa_deadline as [-> Hd].
  destruct start as [edge terms role from through certificate action].
  cbn [start_payment_edge start_terms] in *.
  cbn [wf PaymentCloseStart_codec PaymentCloseStart_wf] in Hwf. bool_simpl.
  unfold started, start_claim. cbn [start_certificate start_payment_edge]. apply opened_wf; [done| |done|..].
  - apply Nat.eqb_eq, xet_hash_length.
  - destruct certificate as [[[] ?]|]; [|done]. bool_simpl.
    cbn [wf EarnedCertificate_codec EarnedCertificate_wf] in *. bool_simpl. by apply N.leb_le.
  - destruct terms as [body h]. unfold Terms_profile in sa_profile. cbn [Terms_body] in *.
    destruct body as [|p|]; [done| |done]. injection sa_profile as ->. destruct payment.
    cbn [wf Terms_codec TermsBody_codec Terms_body TermsBody_wf WorkPaymentTerms_codec
         WorkPaymentTerms_wf] in *. bool_simpl. by apply N.leb_le.
Qed.

(** ** Refinement: every accepted transaction is a step of the machine *)

(** What an accepted move finds in its contest slot and what it leaves there. *)
Lemma start_writes start context verifier s e chunk payment deadline edge :
  StartAccepted start context verifier s edge payment deadline chunk ->
  wf PaymentCloseStart_codec start = true -> start_payment_edge start = e ->
  contest_of s (Context_network context) e = Pending_Absent /\
  contest_of (Change_post (Change_Private [RegistryMutation_write
       (pending_payment_close_slot (Context_network context) e) chunk]) s)
       (Context_network context) e = Pending_Present (started start context payment deadline).
Proof.
  intros Ha Hwf He. pose proof (started_wf _ _ _ _ _ _ _ _ Ha Hwf) as Hr. destruct Ha. subst e.
  split; [by apply contest_of_absent|]. exact (contest_of_write _ _ _ _ _ Hr eq_refl sa_chunk).
Qed.

Lemma respond_writes response context verifier s e chunk record edge :
  ResponseAccepted response context verifier s edge record ->
  PendingPaymentClose_to_chunk (PendingPaymentClose_with_accepted_response record response)
    = Some chunk ->
  wf PaymentCloseResponse_codec response = true -> resp_payment_edge response = e ->
  contest_of s (Context_network context) e = Pending_Present record /\
  contest_of (Change_post (Change_Private [RegistryMutation_write
       (pending_payment_close_slot (Context_network context) e) chunk]) s)
       (Context_network context) e =
    Pending_Present (PendingPaymentClose_with_accepted_response record response).
Proof.
  intros [] Hc Hwf He. subst e. pose proof pa_pending as Hp.
  split; [by apply contest_of_read|]. apply read_pending_close_Some in Hp as (stored & _ & Hf).
  apply PendingPaymentClose_from_chunk_Ok in Hf as (Hr & Hedge & _).
  apply contest_of_write; [apply responded_wf; [exact Hr|]|done|exact Hc].
  destruct response. cbn [wf PaymentCloseResponse_codec PaymentCloseResponse_wf] in Hwf. by bool_simpl.
Qed.

Lemma start_refines start context verifier s e chunk payment deadline edge :
  StartAccepted start context verifier s edge payment deadline chunk ->
  wf PaymentCloseStart_codec start = true -> start_payment_edge start = e ->
  contest_step (Context_block_height context) L_start
    (contest_of s (Context_network context) e)
    (contest_of (Change_post (Change_Private [RegistryMutation_write
       (pending_payment_close_slot (Context_network context) e) chunk]) s)
       (Context_network context) e).
Proof.
  intros Ha Hwf He. destruct (start_writes _ _ _ _ _ _ _ _ _ Ha Hwf He) as [-> ->]. destruct Ha.
  apply checked_add_Some in sa_deadline as [-> _].
  apply contest_start; unfold started; cbn; try done. lia.
Qed.

Lemma respond_refines response context verifier s e chunk record edge :
  ResponseAccepted response context verifier s edge record ->
  PendingPaymentClose_to_chunk (PendingPaymentClose_with_accepted_response record response)
    = Some chunk ->
  wf PaymentCloseResponse_codec response = true -> resp_payment_edge response = e ->
  contest_step (Context_block_height context) L_respond
    (contest_of s (Context_network context) e)
    (contest_of (Change_post (Change_Private [RegistryMutation_write
       (pending_payment_close_slot (Context_network context) e) chunk]) s)
       (Context_network context) e).
Proof.
  intros Ha Hc Hwf He. destruct (respond_writes _ _ _ _ _ _ _ _ Ha Hc Hwf He) as [-> ->].
  destruct Ha. by apply contest_respond.
Qed.

Lemma isolated_inv network e tx e' :
  isolated network e tx -> e' ∈ tx_edges tx ->
  (e' <> e -> pending_payment_close_slot network e' <> pending_payment_close_slot network e) /\
  bond_lease_slot network e' 0 <> pending_payment_close_slot network e /\
  bond_lease_slot network e' 1 <> pending_payment_close_slot network e.
Proof. intros Hi Hin. unfold isolated in Hi. rewrite Forall_forall in Hi. by apply Hi. Qed.

Lemma close_refines input proof outputs context verifier s e edge total staged s' :
  CloseAccepted input proof outputs context verifier s edge total staged ->
  ks_registry s' = diff_post (staged_mutations staged) (ks_registry s) ->
  isolated (Context_network context) e (Tx_Close input proof outputs) ->
  contest_step (Context_block_height context) (tx_label e (Tx_Close input proof outputs))
    (contest_of s (Context_network context) e) (contest_of s' (Context_network context) e).
Proof.
  intros [] Hs Hi. destruct (isolated_inv _ _ _ input Hi) as (Hpend & Hl0 & Hl1); [left|].
  destruct proof as [maker taker|terms owner|earned from through maker taker|commitment].
  - apply check_mutual_Ok in ca_proof as (_ & _ & _ & _ & ->). cbn in Hs.
    rewrite (contest_of_diff_ne s s' _ e []) by done. constructor.
  - cbn [check_proof] in ca_proof.
    apply check_timeout_Ok in ca_proof as (lease & committed & _ & _ & _ & _ & _ & _ & ->).
    eapply contest_idle_diff; [exact Hs|]. destruct lease; [|constructor].
    apply Forall_cons_2; [done|]. by apply Forall_singleton.
  - cbn [check_proof] in ca_proof. inv_ok.
    apply check_freeze_Ok in E as (pending & p & _ & Hp & _ & _ & _ & _ & ->). subst staged.
    cbn [tx_label]. case_bool_decide as He.
    + subst e. destruct pending as [r|].
      * rewrite (contest_of_delete s s') by exact Hs. apply contest_of_read in Hp. rewrite Hp.
        by constructor.
      * rewrite (contest_of_diff_ne s s' _ input []) by done. apply contest_of_absent in Hp. rewrite Hp.
        by constructor.
    + eapply contest_idle_diff; [exact Hs|].
      destruct pending; [|constructor]. apply Forall_singleton. by apply Hpend.
  - cbn [check_proof] in ca_proof. inv_ok.
    apply check_adjudicated_Ok in E as (r & p & Hp & Hw & _ & _ & _ & ->). subst staged.
    cbn [tx_label]. case_bool_decide as He.
    + subst e. rewrite (contest_of_delete s s') by exact Hs. apply contest_of_read in Hp. rewrite Hp.
      by constructor.
    + eapply contest_idle_diff; [exact Hs|].
      apply Forall_singleton. by apply Hpend.
Qed.

Lemma kapply_refines_contest context verifier tx s o s' e :
  kapply context verifier tx s = Ok (o, s') -> wf Tx_codec tx = true ->
  isolated (Context_network context) e tx ->
  contest_step (Context_block_height context) (tx_label e tx)
    (contest_of s (Context_network context) e) (contest_of s' (Context_network context) e).
Proof.
  intros (c & Hk & _ & _ & ->)%kapply_Ok Hwf Hi. unfold kcheck in Hk.
  destruct tx as [f t ma ta|input proof outputs|[start|response]|r]; cbn [Tx_apply Move_apply] in Hk.
  - apply apply_open_Ok in Hk as (coins & d & registry & [] & ->).
    eapply contest_idle_diff; [reflexivity|]. apply open_bond_lease_Ok in oa_lease.
    unfold isolated, tx_edges in Hi. destruct (Terms_profile t); [by subst| |by subst].
    destruct oa_lease as (? & m0 & m1 & _ & _ & _ & Hm & -> & _).
    apply create_mutations_writes in Hm as (c0 & c1 & _ & -> & ->).
    apply Forall_singleton in Hi as (_ & H0 & H1).
    apply Forall_cons_2; [done|]. by apply Forall_singleton.
  - apply apply_close_Ok in Hk as (e' & total & staged & Ha & ->).
    by eapply close_refines.
  - apply apply_start_Ok in Hk as (e' & p & dl & chunk & Ha & ->).
    destruct (isolated_inv _ _ _ (start_payment_edge start) Hi) as (Hpend & _); [left|].
    cbn [tx_label]. case_bool_decide as He.
    + subst e. by eapply start_refines.
    + eapply contest_idle_diff; [reflexivity|]. apply Forall_singleton. by apply Hpend.
  - apply apply_response_Ok in Hk as (e' & record & chunk & Ha & Hc & ->).
    destruct (isolated_inv _ _ _ (resp_payment_edge response) Hi) as (Hpend & _); [left|].
    cbn [tx_label]. case_bool_decide as He.
    + subst e. by eapply respond_refines.
    + eapply contest_idle_diff; [reflexivity|]. apply Forall_singleton. by apply Hpend.
  - apply Reshape_apply_Ok in Hk as (coins & owner & _ & ->). constructor.
Qed.
End contest.
