(* ===== verification/Kernel.v ===== *)
(** * The kernel over any host

    The guarantees of [State]'s entry points for every store that honours the
    [StoreLaws] contract: refinement of the abstract kernel, all-or-nothing
    batches, conservation of value and the type invariant from genesis on. *)

From S2P Require Import Prelude Xet Canonical Primitive Errors BoundedList Context Auth Objects.
From S2P Require Import Registry Store Event Terms Work Lease Tx WorkTx OpenTx CloseTx Apply.
From S2P Require Import State Spec Validate Conservation Invariant.

#[local] Open Scope N_scope.

(** What an attempted transaction takes out of circulation. *)
Definition burned_by (context : Context) (tx : Tx) (s : KState)
    (r : KernelResult ApplyOutcome) : N :=
  match r with Ok _ => burned context tx s | Err _ => 0 end.

Definition KState_empty : KState := mk_KState ∅ ∅ ∅.

Definition genesis_total (seeds : list Genesis) : N := sumN Genesis_value seeds.

Section kernel.
  Context `{Blake3} {S B : Type} `{StoreLaws S B}.
  Implicit Types (s : S) (b : B) (context : Context) (verifier : SigVerifier).

(** Histories of a store: transactions attempted one after the other, accepted
    or not, with the fees they burned. *)
Inductive history verifier : S -> N -> S -> Prop :=
  | history_refl s : history verifier s 0 s
  | history_step s fees s1 context tx r s2 :
      history verifier s fees s1 -> Context_wf context -> wf Tx_codec tx = true ->
      State_apply s1 context verifier tx = (r, s2) ->
      history verifier s (fees + burned_by context tx (sview s1) r) s2.

Lemma State_apply_kapply s context verifier tx o s' :
  State_apply s context verifier tx = (Ok o, s') ->
  kapply context verifier tx (sview s) = Ok (o, sview s').
Proof.
  unfold State_apply. destruct (fold_one _ _ _ _) as [[o1|] b] eqn:E; intros [= <- <-].
  apply fold_one_Ok in E. by rewrite begin_view, <- commit_view in E.
Qed.

Lemma kapply_State_apply `{!Accepting B} s context verifier tx o k :
  kapply context verifier tx (sview s) = Ok (o, k) ->
  exists s', State_apply s context verifier tx = (Ok o, s') /\ sview s' = k.
Proof.
  rewrite <- begin_view. intros Hk. destruct (fold_one_accepts _ _ _ _ _ _ Hk) as (b & Hf & Hb).
  exists (commit b). unfold State_apply. rewrite Hf. split; [done|]. by rewrite commit_view.
Qed.

Lemma State_apply_Err s context verifier tx e s' :
  State_apply s context verifier tx = (Err e, s') -> s' = s.
Proof.
  unfold State_apply. pose proof (fold_one_drop context verifier tx (begin s)) as Hd.
  destruct (fold_one _ _ _ _) as [[|] b]; intros [= -> <-]. simpl in Hd. by rewrite Hd, drop_begin.
Qed.

Lemma insert_seeds_drop b seeds : drop_batch (insert_seeds b seeds).2 = drop_batch b.
Proof.
  revert b. induction seeds as [|g seeds IH]; intros b; simpl; [done|]. unfold Genesis_insert.
  pose proof (drop_insert_coin b (Genesis_id g) (Genesis_coin g)) as Hd.
  destruct (insert_coin b _ _) as [[[]|] b1]; simpl in *; [|done]. by rewrite IH.
Qed.

Lemma insert_seeds_Ok seeds b b' :
  insert_seeds b seeds = (Ok tt, b') ->
  supply (bview b') = supply (bview b) + genesis_total seeds /\
  ks_edges (bview b') = ks_edges (bview b) /\ ks_registry (bview b') = ks_registry (bview b) /\
  (forall P, map_Forall P (ks_coins (bview b)) ->
     Forall (fun g => P (Genesis_id g) (Genesis_coin g)) seeds -> map_Forall P (ks_coins (bview b'))).
Proof.
  revert b. induction seeds as [|g seeds IH]; intros b; simpl.
  { intros [= <-]. split_and!; [unfold genesis_total; simpl; lia|done|done|done]. }
  unfold Genesis_insert. destruct (insert_coin b _ _) as [[[]|] b1] eqn:E; [|done].
  apply insert_coin_Ok in E as [Hn Hv]. intros (Hs & He & Hr & HP)%IH. rewrite Hv in *.
  split_and!; [|done|done|].
  - rewrite Hs. unfold supply, coins_total, edges_total, genesis_total. simpl.
    rewrite map_sum_insert by done. simpl. lia.
  - intros P Hm [Hg Hf]%Forall_cons. apply HP; [|done]. by apply map_Forall_insert_2.
Qed.

Lemma history_conserves verifier s fees s' :
  history verifier s fees s' -> supply (sview s) = supply (sview s') + fees.
Proof.
  induction 1 as [s|s fees s1 context tx r s2 _ IH _ _ Ha]; [lia|]. destruct r as [o|e]; simpl.
  - apply State_apply_kapply in Ha. apply kapply_supply in Ha. lia.
  - apply State_apply_Err in Ha as ->. lia.
Qed.

Lemma history_wf verifier s fees s' :
  history verifier s fees s' -> KState_wf (sview s) -> KState_wf (sview s').
Proof.
  induction 1 as [s|s fees s1 context tx [o|e] s2 _ IH Hc Ht Ha]; intros Hw; [done| |].
  - apply State_apply_kapply in Ha. exact (kapply_wf _ _ _ _ _ _ (IH Hw) Hc Ht Ha).
  - apply State_apply_Err in Ha as ->. auto.
Qed.

Lemma coins_sum_le coins (m : gmap CoinId Coin) :
  coins_present coins m -> sumN (fun c => Coin_value c.2) coins <= map_sum Coin_value m.
Proof.
  revert m. induction coins as [|[id c] coins IH]; intros m [Hnd Hall]; simpl; [lia|].
  apply NoDup_cons in Hnd as [Hni Hnd]. apply Forall_cons in Hall as [Hc Hall].
  rewrite (map_sum_delete Coin_value m id c Hc). simpl in *.
  enough (coins_present coins (delete id m)) as Hp by (specialize (IH _ Hp); lia).
  split; [done|].
  apply Forall_forall. intros [id' c'] Hin. rewrite Forall_forall in Hall.
  simpl. rewrite lookup_delete_ne; [by apply (Hall (id', c'))|].
  intros ->. apply Hni. apply list_elem_of_fmap. by exists (id', c').
Qed.

Definition indexed (i : nat) (outcomes : Diff) : list (nat * ApplyOutcome) :=
  imap (fun j o => ((i + j)%nat, o)) outcomes.

Lemma foldl_push i os diff :
  foldl (fun d p => Diff_push d p.2) diff (indexed i os) = diff ++ os.
Proof.
  unfold indexed. revert i diff. induction os as [|o os IH]; intros i diff; simpl; [by rewrite app_nil_r|].
  rewrite (imap_ext _ (fun j o => ((Datatypes.S i + j)%nat, o))) by (intros; simpl; f_equal; lia).
  rewrite IH. unfold Diff_push. by rewrite <- app_assoc.
Qed.

(** The loop's result and batch do not depend on the observer. *)
Lemma fold_ops_observe context verifier txs b i :
  exists r b' os, forall X (f : X -> nat -> ApplyOutcome -> X) x,
    fold_ops context verifier f b x i txs =
    (r, b', foldl (fun x p => f x p.1 p.2) x (indexed i os)).
Proof.
  revert b i. induction txs as [|tx txs IH]; intros b i; simpl.
  { by exists (Ok tt), b, []. }
  destruct (fold_one b context verifier tx) as [[o|e] b1].
  - destruct (IH b1 (Datatypes.S i)) as (r & b' & os & Hf). exists r, b', (o :: os).
    intros X f x. rewrite Hf. unfold indexed. simpl. rewrite Nat.add_0_r. do 2 f_equal.
    apply imap_ext. intros j y _. simpl. f_equal. lia.
  - by exists (Err (BatchError_new i e)), b1, [].
Qed.

Lemma fold_ops_accepts `{!Accepting B} {X} context verifier (f : X -> nat -> ApplyOutcome -> X)
    txs b x i os k :
  kapply_all context verifier txs (bview b) = Ok (os, k) ->
  exists b', fold_ops context verifier f b x i txs =
    (Ok tt, b', foldl (fun x p => f x p.1 p.2) x (indexed i os)) /\ bview b' = k.
Proof.
  revert b x i os. induction txs as [|tx txs IH]; intros b x i os Hk; simpl in Hk.
  { simplify_eq. by exists b. }
  apply rbind_Ok in Hk as ([o k1] & Hk1 & Hk). apply rbind_Ok in Hk as ([os2 k2] & Hk2 & Hk).
  simplify_eq. destruct (fold_one_accepts _ _ _ _ _ _ Hk1) as (b1 & Hf & <-).
  destruct (IH b1 (f x i o) (Datatypes.S i) os2 Hk2) as (b' & Hf' & Hv).
  exists b'. split; [|done]. simpl. rewrite Hf, Hf'. unfold indexed. simpl. rewrite Nat.add_0_r.
  do 2 f_equal. apply imap_ext. intros j y _. simpl. f_equal. lia.
Qed.

(** C3: every accepted transaction conserves value exactly: the coins and edge
    holdings before it are those after it plus the fees it pays (the open and
    lifetime fee of an open, the committed close fee of a close, nothing for
    moves and reshapes), on every store. *)
Theorem State_apply_conserves s context verifier tx o s' :
  State_apply s context verifier tx = (Ok o, s') ->
  supply (sview s) = supply (sview s') + burned context tx (sview s).
Proof. intros Ha%State_apply_kapply. by apply kapply_supply in Ha. Qed.

(** A rejected operation leaves the store untouched, for every entry point:
    one transaction, an ordered batch (however many of its operations had
    already succeeded), the streaming batch, a block and the genesis seeding. *)
Theorem State_rejection_atomic s context verifier :
  (forall tx e s', State_apply s context verifier tx = (Err e, s') -> s' = s) /\
  (forall txs e s', State_apply_all s context verifier txs = (Err e, s') -> s' = s) /\
  (forall X txs f (x : X) e s' x',
     State_apply_iter s context verifier txs f x = (Err e, s', x') -> s' = s) /\
  (forall block e s', State_apply_block s verifier block = (Err e, s') -> s' = s) /\
  (forall seeds e s', State_genesis s seeds = (Err e, s') -> s' = s).
Proof.
  assert (Hall : forall context txs e s', State_apply_all s context verifier txs = (Err e, s') -> s' = s).
  { intros c txs e s'. unfold State_apply_all.
    pose proof (fold_ops_drop c verifier (fun d _ o => Diff_push d o) txs (begin s) [] 0) as Hd.
    destruct (fold_ops _ _ _ _ _ _ _) as [[[|] b] x]; intros [= _ <-]. simpl in Hd. by rewrite Hd, drop_begin. }
  split_and!; [|by eauto| |by intros block e s'; apply Hall|].
  - intros tx e s'. apply State_apply_Err.
  - intros X txs f x e s' x'. unfold State_apply_iter.
    pose proof (fold_ops_drop context verifier f txs (begin s) x 0) as Hd.
    destruct (fold_ops _ _ _ _ _ _ _) as [[[|] b] y]; intros [= _ <- _]. simpl in Hd. by rewrite Hd, drop_begin.
  - intros seeds e s'. unfold State_genesis. pose proof (insert_seeds_drop (begin s) seeds) as Hd.
    destruct (insert_seeds _ _) as [[|] b]; intros [= _ <-]. simpl in Hd. by rewrite Hd, drop_begin.
Qed.

(** C2: the state machine refines the pure kernel on the abstract state: what a
    store accepts, the pure kernel accepts with the same outcome and the same
    next state; and a store that takes every slot accepts all the pure kernel
    accepts. *)
Theorem State_apply_refines s context verifier tx :
  (forall o s', State_apply s context verifier tx = (Ok o, s') ->
     kapply context verifier tx (sview s) = Ok (o, sview s')) /\
  (Accepting B -> forall o k, kapply context verifier tx (sview s) = Ok (o, k) ->
     exists s', State_apply s context verifier tx = (Ok o, s') /\ sview s' = k).
Proof.
  split; [intros o s'; apply State_apply_kapply|]. intros Ha o k. by apply kapply_State_apply.
Qed.

(** Validation is the only place a transaction fails on a store that takes
    every slot: what validates against the current state is applied, unless two
    of the coins it creates have the same id. *)
Theorem validated_applies `{!Accepting B} s context verifier tx c :
  Tx_apply tx context verifier (begin s) = Ok c -> NoDup (Change_created c) ->
  exists s', State_apply s context verifier tx = (Ok (Change_outcome c), s') /\
    sview s' = Change_post c (sview s).
Proof.
  rewrite Tx_apply_view, begin_view. intros Hc Hnd. apply kapply_State_apply.
  apply kapply_Ok. exists c. split_and!; [done| |done|done]. by apply (kcheck_pre _ _ _ _ _ Hc).
Qed.

(** An ordered batch is its transactions one after the other: it succeeds
    with one outcome per operation, in order, and the state they lead to; or it
    fails with the index of the first operation the state at that point rejects
    and that operation's own error, every earlier one having been accepted. *)
Theorem State_apply_all_sequential s context verifier txs :
  match State_apply_all s context verifier txs with
  | (Ok diff, s') => kapply_all context verifier txs (sview s) = Ok (diff, sview s') /\
                     length diff = length txs
  | (Err e, s') => exists outcomes b tx,
      txs !! BatchError_index e = Some tx /\
      kapply_all context verifier (take (BatchError_index e) txs) (sview s) = Ok (outcomes, bview b) /\
      fst (fold_one b context verifier tx) = Err (BatchError_source e)
  end.
Proof.
  unfold State_apply_all. destruct (fold_ops _ _ _ _ _ _ _) as [[[r|e] b] x] eqn:E.
  - apply fold_ops_Ok in E as (os & Hall & Hl & ->). rewrite commit_view, begin_view in *.
    pose proof (foldl_push 0 os []) as Hp. unfold indexed in Hp. by rewrite Hp.
  - apply fold_ops_Err in E as (k & os & b1 & tx & Hi & Htx & Hall & He). rewrite begin_view in Hall.
    simpl in Hi. subst k. by exists os, b1, tx.
Qed.

(** The streaming entry point is the collecting one: it succeeds, fails and
    commits as [State_apply_all] does, and on success its observer has seen the
    same outcomes, each with its index. *)
Theorem State_apply_iter_apply_all {X} s context verifier txs (f : X -> nat -> ApplyOutcome -> X) x :
  match State_apply_all s context verifier txs with
  | (Ok diff, s') => State_apply_iter s context verifier txs f x =
      (Ok tt, s', foldl (fun x p => f x p.1 p.2) x (imap pair diff))
  | (Err e, s') => exists x', State_apply_iter s context verifier txs f x = (Err e, s', x')
  end.
Proof.
  destruct (fold_ops_observe context verifier txs (begin s) 0) as (r & b & os & Hf).
  unfold State_apply_all, State_apply_iter. rewrite !Hf. destruct r as [[]|e]; [|by eauto].
  by rewrite foldl_push.
Qed.

(** C14: from genesis on, whatever is attempted: the seeded total is what the
    state holds plus the fees burned, and every stored object stays one its
    codec accepts (fixed-width ids, [u64] amounts, permitted close sets). *)
Theorem history_from_genesis s seeds s0 verifier fees s1 :
  sview s = KState_empty ->
  Forall (fun g => wf CoinId_codec (Genesis_id g) = true /\
                   wf Coin_codec (Genesis_coin g) = true) seeds ->
  State_genesis s seeds = (Ok tt, s0) -> history verifier s0 fees s1 ->
  genesis_total seeds = supply (sview s1) + fees /\ KState_wf (sview s1).
Proof.
  intros Hs Hseeds Hg Hh. unfold State_genesis in Hg.
  destruct (insert_seeds (begin s) seeds) as [[[]|] b] eqn:E; [|done].
  assert (s0 = commit b) as -> by congruence. apply insert_seeds_Ok in E as (Hsup & He & Hr & Hc). rewrite begin_view, Hs in *. split.
  - apply history_conserves in Hh. rewrite commit_view in Hh. rewrite <- Hh, Hsup. done.
  - eapply history_wf; [exact Hh|]. rewrite commit_view. split; [|rewrite He|rewrite Hr]; try done.
    by apply Hc.
Qed.

(** While the supply fits a [u64] (as it does from a genesis that does), the
    total of the coins an open or a reshape consumes never overflows: the sums
    guarded by the overflow rejections are always defined. *)
Theorem consumed_total_defined s ids coins :
  supply (sview s) <= U64_MAX -> duplicate ids = None ->
  lookup_coins (begin s) ids = Ok coins ->
  exists total, checked_sum (fun c => Coin_value c.2) coins = Some total /\
    total <= supply (sview s).
Proof.
  intros Hsup Hd%duplicate_None. rewrite lookup_coins_view, begin_view. intros Hl.
  apply lookup_coins_Ok in Hl as [Hids Hall]. subst ids.
  pose proof (coins_sum_le coins (ks_coins (sview s)) (conj Hd Hall)) as Hle.
  assert (sumN (fun c => Coin_value c.2) coins <= supply (sview s))
    by (unfold supply, coins_total; lia).
  eexists. split; [by apply checked_sum_Some; split; [|lia]|]. done.
Qed.
End kernel.

(** The chain's pre-declared working set executes a block as the growing
    map store does: with the same objects in both, a block the working set
    accepts gives the map store the same outcomes and the same next state. *)
Theorem working_set_agrees_with_map_store `{Blake3} (ws : BlockWorkingSet) (ms : MapStore)
    verifier block diff ws' :
  sview ws = sview ms -> State_apply_block ws verifier block = (Ok diff, ws') ->
  exists ms', State_apply_block ms verifier block = (Ok diff, ms') /\ sview ms' = sview ws'.
Proof.
  intros Hv. unfold State_apply_block, State_apply_all.
  destruct (fold_ops _ _ _ (begin ws) _ _ _) as [[[r|e] b] x] eqn:E; intros [= <- <-].
  apply fold_ops_Ok in E as (os & Hall & _ & ->). rewrite begin_view, Hv, <- (begin_view ms) in Hall.
  destruct (fold_ops_accepts (Block_context block) verifier (fun d _ o => Diff_push d o)
    _ _ [] 0 _ _ Hall) as (b' & Hf & Hb). rewrite Hf.
  eexists. split; [done|]. by rewrite !commit_view.
Qed.
