(* ===== verification/Settlement.v ===== *)
(** * Settling a payment channel

    What an adjudicated or a frozen close pays, and that a channel whose
    contest is over can always be settled without a signature. *)

From S2P Require Import Prelude Xet Canonical Primitive Errors BoundedList Context Auth Objects.
From S2P Require Import Registry Store Event Terms Work Lease Tx WorkTx OpenTx CloseTx Apply.
From S2P Require Import State Spec Validate Conservation Invariant Contest Kernel.

#[local] Open Scope N_scope.

(** The record's amount and its penalty fit every close route of the edge. *)
Definition contest_funded (e : Edge) (r : PendingPaymentClose) : Prop :=
  exists capacity, payment_capacity e (pending_penalty_amount r) = Some capacity /\
    pending_final_cumulative r <= capacity.

(** The adjudicated close of a contest: the one transaction that ends it. *)
Definition adjudicated_outputs (e : Edge) (r : PendingPaymentClose) (total : N) : list Payout :=
  let provider := pending_final_cumulative r + PendingPaymentClose_penalty r in
  [PartyKeys_payout (Parties_taker (Edge_parties e)) provider (pending_owner_signed r).2;
   PartyKeys_payout (Parties_maker (Edge_parties e)) (total - provider) (pending_owner_signed r).1].

Lemma payment_capacity_Some e bond capacity :
  payment_capacity e bond = Some capacity <->
  exists f a, Edge_close_value e (work_payment_close_cost Freeze) = Some f /\
    Edge_close_value e (work_payment_close_cost Adjudicated) = Some a /\
    bond <= N.min f a /\ capacity = N.min f a - bond.
Proof.
  unfold payment_capacity. rewrite fmap_Some. split.
  - intros (st & Hs & ->). apply work_payment_settlement_Some in Hs as (Hf & Ha & _ & Hc).
    exists (freeze_total st), (adjudicated_total st). split_and!; [done|done|lia|lia].
  - intros (f & a & Hf & Ha & Hle & ->). unfold Edge_close_value in *.
    assert (route_minimum (Edge_values e) = Some (N.min f a)) as Hm by (apply route_minimum_Some; eauto).
    exists (mk_WorkPaymentSettlement f a (N.min f a - bond) bond). split; [|done].
    unfold work_payment_settlement. rewrite Hf, Ha. bind_simpl. rewrite Hm. bind_simpl.
    unfold checked_sub. by destruct (N.leb_spec bond (N.min f a)); [|lia].
Qed.

(** The cooperative route is the dearer one: it fixes the capacity. *)
Lemma freeze_route_minimum e f a :
  Edge_close_value e (work_payment_close_cost Freeze) = Some f ->
  Edge_close_value e (work_payment_close_cost Adjudicated) = Some a -> f <= a.
Proof.
  intros (ff & Hf & _ & Hfv & _)%Edge_close_value_Some (fa & Ha & _ & Hav & _)%Edge_close_value_Some.
  destruct (Fees_charge_mono _ (work_payment_close_cost Adjudicated) _ _ Hf) as (u & Hu & Hle); [done|].
  rewrite Ha in Hu. injection Hu as ->. lia.
Qed.

Lemma penalty_le r : PendingPaymentClose_penalty r <= pending_penalty_amount r.
Proof. unfold PendingPaymentClose_penalty. case_match; lia. Qed.

Section settlement.
  Context `{Blake3}.
  Implicit Types (s : KState) (context : Context) (verifier : SigVerifier).

Lemma contest_funded_provider e r :
  contest_funded e r ->
  exists total, Edge_close_value e (work_payment_close_cost Adjudicated) = Some total /\
    pending_final_cumulative r + PendingPaymentClose_penalty r <= total /\ total <= U64_MAX.
Proof.
  intros (capacity & Hc & Hle). apply payment_capacity_Some in Hc as (f & a & _ & Ha & Hb & ->).
  pose proof (penalty_le r). exists a. split_and!; [done|lia|].
  by apply Edge_close_value_Some in Ha as (_ & _ & _ & _ & ?).
Qed.

(** Once the response is in or its window is over, the adjudicated close is
    accepted, whoever submits it and whatever the verifier. *)
Lemma adjudicated_accepted context verifier s e edge r :
  ks_edges s !! e = Some edge -> Edge_allows edge Adjudicated = true ->
  contest_of s (Context_network context) e = Pending_Present r -> contest_funded edge r ->
  pending_responded r = true \/ pending_response_deadline r <= Context_block_height context ->
  exists total,
    Edge_close_value edge (work_payment_close_cost Adjudicated) = Some total /\
    let outputs := adjudicated_outputs edge r total in
    (Forall (fun id => ks_coins s !! id = None) (Tx_close_output_ids e outputs) ->
     kcheck context verifier
       (Tx_Close e (Proof_Adjudicated (PendingPaymentClose_contest_commitment r
          (Context_network context) e (Edge_terms edge))) outputs) s =
     Ok (Change_Public (EdgeClosed e (Tx_close_output_ids e outputs))
           (Effect_Close (e, edge) (close_coins e outputs))
           [RegistryMutation_delete (pending_payment_close_slot (Context_network context) e)])).
Proof.
  intros He Hk Hr Hf Hw. destruct (contest_funded_provider edge r Hf) as (total & Ht & Hp & Hm).
  exists total. split; [done|]. cbn zeta. intros Hfresh. unfold kcheck. cbn [Tx_apply].
  apply (apply_close_accepts _ _ _ _ _ _ _ total (one_staged (Some _))). split; try done.
  - apply Edge_close_value_Some in Ht as (fee & Hfee & Hres & Hv & _).
    apply Edge_closes_Ok. rewrite sumN_close_coins. unfold adjudicated_outputs. simpl.
    split_and!; [lia|lia|]. exists fee. split_and!; [done|done|lia].
  - cbn [check_proof]. erewrite (proj2 (check_adjudicated_Ok e edge total _ _ context s (Some _))); [done|].
    exists r, (pending_final_cumulative r + PendingPaymentClose_penalty r).
    split_and!; try done; [by apply contest_of_read|apply checked_add_Some; lia|].
    by apply check_split_Ok.
  - apply NoDup_singleton.
Qed.

Lemma insert_all_lookup_ne coins (m : gmap CoinId Coin) id :
  id ∉ map fst coins -> insert_all coins m !! id = m !! id.
Proof.
  unfold insert_all. revert m. induction coins as [|c coins IH]; intros m Hni; simpl in *; [done|].
  apply not_elem_of_cons in Hni as [Hne Hni]. rewrite IH by done. by rewrite lookup_insert_ne.
Qed.

Lemma insert_all_lookup coins (m : gmap CoinId Coin) :
  NoDup (map fst coins) -> Forall (fun c => insert_all coins m !! c.1 = Some c.2) coins.
Proof.
  revert m. induction coins as [|c coins IH]; intros m Hnd; [constructor|].
  apply NoDup_cons in Hnd as [Hni Hnd]. apply Forall_cons. split; [|by apply IH].
  change (insert_all coins (<[c.1 := c.2]> m) !! c.1 = Some c.2).
  rewrite insert_all_lookup_ne by done. by rewrite lookup_insert_eq.
Qed.

(** A validated close whose coins have distinct ids is applied: the edge is
    gone and every payout is a coin. *)
Lemma validated_close_applies context verifier e edge proof outputs registry s :
  kcheck context verifier (Tx_Close e proof outputs) s =
    Ok (Change_Public (EdgeClosed e (Tx_close_output_ids e outputs))
          (Effect_Close (e, edge) (close_coins e outputs)) registry) ->
  NoDup (Tx_close_output_ids e outputs) ->
  exists o s', kapply context verifier (Tx_Close e proof outputs) s = Ok (o, s') /\
    ks_edges s' !! e = None /\ ks_registry s' = diff_post registry (ks_registry s) /\
    Forall (fun c => ks_coins s' !! c.1 = Some c.2) (close_coins e outputs).
Proof.
  intros Hc Hnd. rewrite <- close_coins_ids in Hnd. eexists _, _. split.
  - apply kapply_Ok. eexists. split_and!; [exact Hc| |reflexivity|reflexivity].
    by apply (kcheck_pre _ _ _ _ _ Hc).
  - split_and!; [apply lookup_delete_eq|done|]. by apply insert_all_lookup.
Qed.

(** ** The life of a channel *)

(** [tx] may happen while the channel [e], opened with [terms], is open: it is
    well formed, it does not close [e], it writes no slot that collides with the
    contest slot of [e], and a start that reveals terms under the hash of
    [terms] reveals [terms]. *)
Record during (network : NetworkId) (e : EdgeId) (terms : Terms) context (tx : Tx) : Prop := {
  du_network : Context_network context = network;
  du_wf : wf Tx_codec tx = true;
  du_isolated : isolated network e tx;
  du_open : match tx with Tx_Close input _ _ => input <> e | _ => True end;
  du_terms : match tx with
             | Tx_Move (StartPaymentClose start) =>
                 start_payment_edge start = e ->
                 Terms_hash (start_terms start) = Terms_hash terms -> start_terms start = terms
             | _ => True
             end;
}.

Inductive channel_run verifier (network : NetworkId) (e : EdgeId) (terms : Terms)
    : KState -> KState -> Prop :=
  | channel_refl s : channel_run verifier network e terms s s
  | channel_step s s1 context tx o s2 :
      channel_run verifier network e terms s s1 -> during network e terms context tx ->
      kapply context verifier tx s1 = Ok (o, s2) -> channel_run verifier network e terms s s2.

(** What holds of the channel while it is open. *)
Record channel_inv (network : NetworkId) (e : EdgeId) (terms : Terms) (edge : Edge)
    (payment : WorkPaymentTerms) s : Prop := {
  ch_edge : ks_edges s !! e = Some edge;
  ch_contest : match contest_of s network e with
               | Pending_Absent => True
               | Pending_Present r => contest_funded edge r /\ contest_inv r /\
                   pending_penalty_amount r = wp_omission_bond payment
               | Pending_Faulty _ => False
               end;
}.

(** An edge stays what it is until it is closed. *)
Lemma kapply_edge_kept context verifier tx s o s' e edge :
  kapply context verifier tx s = Ok (o, s') -> ks_edges s !! e = Some edge ->
  match tx with Tx_Close input _ _ => input <> e | _ => True end ->
  ks_edges s' !! e = Some edge.
Proof.
  intros (c & Hk & _ & _ & ->)%kapply_Ok He Hne. unfold kcheck in Hk.
  destruct tx as [f t ma ta|input proof outputs|[start|response]|r]; cbn [Tx_apply Move_apply] in Hk.
  - apply apply_open_Ok in Hk as (coins & d & registry & [] & ->). simpl.
    rewrite lookup_insert_ne; [done|]. congruence.
  - apply apply_close_Ok in Hk as (e' & total & staged & _ & ->). simpl. by rewrite lookup_delete_ne.
  - by apply apply_start_Ok in Hk as (? & ? & ? & ? & _ & ->).
  - by apply apply_response_Ok in Hk as (? & ? & ? & _ & _ & ->).
  - by apply Reshape_apply_Ok in Hk as (? & ? & _ & ->).
Qed.

Lemma channel_start network e terms edge payment start context verifier s p deadline chunk edge' :
  channel_inv network e terms edge payment s ->
  StartAccepted start context verifier s edge' p deadline chunk ->
  Terms_profile terms = Profile_WorkPayment payment -> Terms_hash terms = Edge_terms edge ->
  payment_capacity edge (wp_omission_bond payment) <> None ->
  start_payment_edge start = e ->
  (Terms_hash (start_terms start) = Terms_hash terms -> start_terms start = terms) ->
  contest_funded edge (started start context p deadline) /\ p = payment.
Proof.
  intros [He _] [] Hp Ht Hcap Hs Hreveal. subst e. rewrite He in sa_edge. injection sa_edge as <-.
  assert (p = payment) as -> by (rewrite Hreveal in sa_profile by congruence; congruence).
  split; [|done]. destruct (payment_capacity edge (wp_omission_bond payment)) as [cap|] eqn:E; [|done].
  exists cap. split; [exact E|]. unfold started, start_claim. cbn.
  destruct (start_certificate start) as [[certificate auth]|] eqn:Hc; [|lia].
  destruct (sa_certificate _ _ eq_refl) as (_ & _ & _ & (cap' & Hcap' & Hle) & _). congruence.
Qed.

(** The contest part of the invariant survives every transaction that leaves
    the channel open. *)
Lemma channel_inv_step network e terms edge payment context verifier tx s o s' :
  channel_inv network e terms edge payment s -> during network e terms context tx ->
  Terms_profile terms = Profile_WorkPayment payment -> Terms_hash terms = Edge_terms edge ->
  payment_capacity edge (wp_omission_bond payment) <> None ->
  kapply context verifier tx s = Ok (o, s') -> channel_inv network e terms edge payment s'.
Proof.
  intros Hi [Hn Hwf Hiso Ho Hr] Hp Ht Hcap Hk. subst network.
  split; [eapply kapply_edge_kept; [done|apply Hi|done]|].
  pose proof (kapply_refines_contest _ _ _ _ _ _ e Hk Hwf Hiso) as Hstep.
  assert (slot_inv (contest_of s' (Context_network context) e)) as Hslot.
  { eapply contest_step_inv; [exact Hstep|]. destruct Hi as [_ Hc].
    destruct (contest_of s _ e); [done|apply Hc|done]. }
  apply kapply_Ok in Hk as (c & Hk & _ & _ & ->). unfold kcheck in Hk.
  destruct tx as [f t ma ta|input proof outputs|[start|response]|r]; cbn [Tx_apply Move_apply] in Hk.
  1,5: rewrite (contest_step_idle _ _ _ Hstep); apply Hi.
  - assert (tx_label e (Tx_Close input proof outputs) = L_idle) as Hl
      by (destruct proof; cbn [tx_label]; try done; by rewrite bool_decide_eq_false_2).
    rewrite Hl in Hstep. rewrite (contest_step_idle _ _ _ Hstep). apply Hi.
  - apply apply_start_Ok in Hk as (e' & p & dl & chunk & Ha & ->).
    cbn [tx_label] in Hstep. case_bool_decide as He.
    + destruct (channel_start _ _ _ _ _ _ _ _ _ _ _ _ _ Hi Ha Hp Ht Hcap He (Hr He)) as [Hf ->].
      destruct (start_writes _ _ _ _ _ _ _ _ _ Ha Hwf He) as [_ Hw]. rewrite He, Hw in *. done.
    + rewrite (contest_step_idle _ _ _ Hstep). apply Hi.
  - apply apply_response_Ok in Hk as (e' & record & chunk & Ha & Hc & ->).
    cbn [tx_label] in Hstep. case_bool_decide as He.
    + destruct (respond_writes _ _ _ _ _ _ _ _ Ha Hc Hwf He) as [Hb Hw]. rewrite He, Hw in *.
      destruct Hi as [Hedge Hi]. rewrite Hb in Hi. destruct Hi as (_ & _ & Hpen), Ha.
      rewrite He, Hedge in pa_edge. injection pa_edge as ->. done.
    + rewrite (contest_step_idle _ _ _ Hstep). apply Hi.
Qed.

Lemma channel_run_inv verifier network e terms edge payment s s' :
  channel_run verifier network e terms s s' ->
  Terms_profile terms = Profile_WorkPayment payment -> Terms_hash terms = Edge_terms edge ->
  payment_capacity edge (wp_omission_bond payment) <> None ->
  channel_inv network e terms edge payment s -> channel_inv network e terms edge payment s'.
Proof. induction 1; eauto using channel_inv_step. Qed.

(** The edge an accepted open creates. *)
Lemma kapply_opened context verifier funding terms maker_auth taker_auth s o s' :
  kapply context verifier (Tx_Open funding terms maker_auth taker_auth) s = Ok (o, s') ->
  exists coins debits registry,
    OpenAccepted funding terms maker_auth taker_auth context verifier s coins debits registry /\
    ks_edges s' !! Tx_edge_id_of funding terms = Some (debits_edge debits) /\
    Edge_terms (debits_edge debits) = Terms_hash terms /\
    Edge_parties (debits_edge debits) = Terms_parties terms /\
    Edge_timeout (debits_edge debits) = Terms_timeout terms /\
    Edge_allowed (debits_edge debits) = Terms_allowed_closes terms /\
    ks_registry s' = diff_post registry (ks_registry s).
Proof.
  intros (c & Hk & _ & _ & ->)%kapply_Ok. unfold kcheck in Hk. cbn [Tx_apply] in Hk.
  apply apply_open_Ok in Hk as (coins & d & registry & Ha & ->). exists coins, d, registry.
  split; [done|]. destruct Ha. apply open_debits_Ok in oa_debits as
    (t & a & b & c & _ & _ & _ & _ & _ & payout & _ & ->).
  split_and!; try done. simpl. by rewrite lookup_insert_eq.
Qed.

(** A payment open leaves a channel with room for its omission bond. *)
Lemma opened_capacity edge shape terms payment :
  check_work_profile_open edge shape terms = Ok tt ->
  Terms_profile terms = Profile_WorkPayment payment ->
  exists capacity, payment_capacity edge (wp_omission_bond payment) = Some capacity /\ 0 < capacity.
Proof.
  intros Hc Hp. unfold check_work_profile_open in Hc. rewrite Hp in Hc. inv_ok. bool_simpl.
  unfold check_payment_capacity in Hc. inv_ok. bool_simpl. checked_simpl.
  unfold close_route_minimum in *.
  match goal with Hm : route_minimum _ = Some _ |- _ =>
    apply route_minimum_Some in Hm as (f & a & Hf & Ha & ->) end.
  eexists. split; [apply payment_capacity_Some; exists f, a; split_and!; [done|done|lia|reflexivity]|lia].
Qed.

(** C1: every payment channel can be settled without anyone's signature once
    its contest is over: whatever happened to the channel since its open, when a
    pending close has been answered or its response window has passed, the
    adjudicated close is accepted (by any verifier), removes the edge and the
    contest record, and pays the provider the settled amount plus the penalty
    due and the client the rest of what the edge holds less the close fee. *)
Theorem channel_settles context0 verifier funding terms maker_auth taker_auth payment s0 o0 s1 s2
    network r context verifier' :
  let e := Tx_edge_id_of funding terms in
  kapply context0 verifier (Tx_Open funding terms maker_auth taker_auth) s0 = Ok (o0, s1) ->
  Terms_profile terms = Profile_WorkPayment payment ->
  contest_of s1 network e = Pending_Absent ->
  channel_run verifier network e terms s1 s2 ->
  contest_of s2 network e = Pending_Present r -> Context_network context = network ->
  pending_responded r = true \/ pending_response_deadline r <= Context_block_height context ->
  exists edge total,
    ks_edges s2 !! e = Some edge /\
    let outputs := adjudicated_outputs edge r total in
    let commitment := PendingPaymentClose_contest_commitment r network e (Edge_terms edge) in
    total + Fees_price (Edge_close_fees edge) (work_payment_close_cost Adjudicated) =
      Edge_value edge + Edge_reserve edge /\
    pending_final_cumulative r + PendingPaymentClose_penalty r <= total /\
    (NoDup (Tx_close_output_ids e outputs) ->
     Forall (fun id => ks_coins s2 !! id = None) (Tx_close_output_ids e outputs) ->
     exists o s3,
       kapply context verifier' (Tx_Close e (Proof_Adjudicated commitment) outputs) s2 = Ok (o, s3) /\
       ks_edges s3 !! e = None /\ contest_of s3 network e = Pending_Absent /\
       Forall (fun c => ks_coins s3 !! c.1 = Some c.2) (close_coins e outputs)).
Proof.
  intros e Ho Hp Habs Hrun Hr <- Hw.
  destruct (kapply_opened _ _ _ _ _ _ _ _ _ Ho) as (coins & d & reg & Ha & He & Ht & _ & _ & Hal & _).
  destruct (opened_capacity _ _ _ _ (oa_profile _ _ _ _ _ _ _ _ _ _ Ha) Hp) as (cap & Hcap & _).
  assert (channel_inv (Context_network context) e terms (debits_edge d) payment s2) as [Hedge Hc].
  { eapply channel_run_inv; [done|done|done|congruence|]. split; [done|]. by rewrite Habs. }
  rewrite Hr in Hc. destruct Hc as (Hf & _ & _). exists (debits_edge d).
  assert (Edge_allows (debits_edge d) Adjudicated = true) as Hk.
  { unfold Edge_allows. rewrite Hal. unfold Terms_allowed_closes, Terms_profile in *.
    by destruct (Terms_body terms). }
  destruct (adjudicated_accepted context verifier' s2 e _ r Hedge Hk Hr Hf Hw) as (total & Htot & Hacc).
  exists total. split; [done|]. cbn zeta.
  destruct (contest_funded_provider _ _ Hf) as (total' & Htot' & Hle & _).
  rewrite Htot in Htot'. injection Htot' as <-.
  apply Edge_close_value_Some in Htot as (fee & Hfee & _ & Hv & _).
  apply Fees_charge_Some in Hfee as [-> _]. split_and!; [done|done|]. intros Hnd Hfresh.
  destruct (validated_close_applies _ _ _ _ _ _ _ _ (Hacc Hfresh) Hnd)
    as (o & s3 & Hk3 & He3 & Hr3 & Hc3).
  exists o, s3. split_and!; [done|done| |done]. by apply (contest_of_delete s2).
Qed.

(** C20: over any store, what an attempted transaction does to an edge's contest
    record is a step of the contest machine: nothing, one start from no record
    at all, one response strictly inside the window that raises the settled
    amount, or an end by adjudication (answered, or the window over) or by a
    freeze; a rejected transaction does nothing. *)
Theorem State_apply_refines_contest {S B} `{StoreLaws S B} (s s' : S) context verifier tx r e :
  State_apply s context verifier tx = (r, s') -> wf Tx_codec tx = true ->
  isolated (Context_network context) e tx ->
  contest_step (Context_block_height context)
    match r with Ok _ => tx_label e tx | Err _ => L_idle end
    (contest_of (sview s) (Context_network context) e)
    (contest_of (sview s') (Context_network context) e).
Proof.
  intros Ha Hwf Hi. destruct r as [o|err].
  - apply State_apply_kapply in Ha. by eapply kapply_refines_contest.
  - apply State_apply_Err in Ha as ->. constructor.
Qed.

(** The record of a channel never lies: at every point of a channel's life a
    pending record is readable, names the omission bond its terms committed,
    settles at least what its opener claimed and strictly more once answered,
    and marks the penalty due exactly when a close the client (maker) started
    was answered. *)
Theorem channel_record_faithful context0 verifier funding terms maker_auth taker_auth payment s0 o0
    s1 s2 network :
  let e := Tx_edge_id_of funding terms in
  kapply context0 verifier (Tx_Open funding terms maker_auth taker_auth) s0 = Ok (o0, s1) ->
  Terms_profile terms = Profile_WorkPayment payment ->
  contest_of s1 network e = Pending_Absent ->
  channel_run verifier network e terms s1 s2 ->
  contest_of s2 network e = Pending_Absent \/
  exists r, contest_of s2 network e = Pending_Present r /\
    pending_penalty_amount r = wp_omission_bond payment /\
    pending_start_cumulative r <= pending_final_cumulative r /\
    (pending_responded r = true <-> pending_start_cumulative r < pending_final_cumulative r) /\
    PendingPaymentClose_penalty r =
      (if pending_responded r && is_maker (pending_opener_role r)
       then wp_omission_bond payment else 0).
Proof.
  intros e Ho Hp Habs Hrun.
  destruct (kapply_opened _ _ _ _ _ _ _ _ _ Ho) as (coins & d & reg & Ha & He & Ht & _ & _ & Hal & _).
  destruct (opened_capacity _ _ _ _ (oa_profile _ _ _ _ _ _ _ _ _ _ Ha) Hp) as (cap & Hcap & _).
  assert (channel_inv network e terms (debits_edge d) payment s2) as [Hedge Hc].
  { eapply channel_run_inv; [done|done|done|congruence|]. split; [done|]. by rewrite Habs. }
  destruct (contest_of s2 network e) as [|r|]; [by left| |done]. right. exists r.
  destruct Hc as (_ & [Hs Hwait Hans] & Hb). split_and!; [done|done|done| |].
  - split; [apply Hans|]. intros Hlt. destruct (pending_responded r) eqn:E; [done|].
    destruct (Hwait eq_refl). lia.
  - unfold PendingPaymentClose_penalty. destruct (pending_responded r); simpl.
    + destruct (Hans eq_refl) as [_ ->]. by rewrite Hb.
    + by destruct (Hwait eq_refl) as [_ ->].
Qed.

(** C21: an accepted adjudicated close pays exactly what the contest settled: the
    provider gets the record's final amount plus the penalty due, the client the
    rest, the two together the edge's holdings less the close fee; it happens
    only after a response or at the deadline, and only under a commitment to
    the very record it settles. *)
Theorem adjudicated_pays context verifier e commitment outputs s o s' :
  kapply context verifier (Tx_Close e (Proof_Adjudicated commitment) outputs) s = Ok (o, s') ->
  exists edge r total,
    ks_edges s !! e = Some edge /\
    contest_of s (Context_network context) e = Pending_Present r /\
    (pending_responded r = true \/ pending_response_deadline r <= Context_block_height context) /\
    outputs = adjudicated_outputs edge r total /\
    total + Fees_price (Edge_close_fees edge) (work_payment_close_cost Adjudicated) =
      Edge_value edge + Edge_reserve edge /\
    pending_final_cumulative r + PendingPaymentClose_penalty r <= total /\
    commitment = PendingPaymentClose_contest_commitment r (Context_network context) e
                   (Edge_terms edge).
Proof.
  intros (c & Hk & _ & _ & ->)%kapply_Ok. unfold kcheck in Hk. cbn [Tx_apply] in Hk.
  apply apply_close_Ok in Hk as (edge & total & staged & [] & ->). cbn [check_proof] in ca_proof.
  inv_ok. apply check_adjudicated_Ok in E as (r & p & Hp & Hw & Ha & Hs & Hc & _).
  apply check_split_Ok in Hs as [Hle ->]. apply checked_add_Some in Ha as [-> _].
  apply Edge_closes_Ok in ca_total as (_ & _ & fee & Hf & _ & Hv).
  apply Fees_charge_Some in Hf as [-> _]. exists edge, r, total.
  split_and!; try done. by apply contest_of_read.
Qed.

(** An accepted freeze is signed by both parties over the amount it settles,
    inside its validity window, and never walks a contest back: with a contest
    pending the provider gets at least the amount already settled plus the
    penalty already due. *)
Theorem freeze_respects_contest context verifier e earned from through maker taker outputs s o s' :
  kapply context verifier (Tx_Close e (Proof_Freeze earned from through maker taker) outputs) s
    = Ok (o, s') ->
  exists edge total provider signed,
    ks_edges s !! e = Some edge /\
    verify_party verifier maker (Parties_maker (Edge_parties edge))
      (freeze_digest (Context_network context) e (Edge_terms edge) earned (from, through)) = true /\
    verify_party verifier taker (Parties_taker (Edge_parties edge))
      (freeze_digest (Context_network context) e (Edge_terms edge) earned (from, through)) = true /\
    from <= Context_block_height context <= through /\
    outputs = [PartyKeys_payout (Parties_taker (Edge_parties edge)) provider signed.2;
               PartyKeys_payout (Parties_maker (Edge_parties edge)) (total - provider) signed.1] /\
    total + Fees_price (Edge_close_fees edge) (work_payment_close_cost Freeze) =
      Edge_value edge + Edge_reserve edge /\
    earned <= provider <= total /\
    match contest_of s (Context_network context) e with
    | Pending_Absent => provider = earned
    | Pending_Present r =>
        pending_final_cumulative r + PendingPaymentClose_penalty r <= provider /\
        (is_maker (pending_opener_role r) = true -> pending_start_cumulative r < earned ->
         provider = earned + pending_penalty_amount r)
    | Pending_Faulty _ => False
    end.
Proof.
  intros (c & Hk & _ & _ & ->)%kapply_Ok. unfold kcheck in Hk. cbn [Tx_apply] in Hk.
  apply apply_close_Ok in Hk as (edge & total & staged & [] & ->). cbn [check_proof] in ca_proof.
  inv_ok. apply check_freeze_Ok in E as (pending & p & Hw & Hp & Hprov & Hs & Hm & Ht & _).
  apply check_split_Ok in Hs as [Hle ->]. apply Edge_closes_Ok in ca_total as (_ & _ & fee & Hf & _ & Hv).
  apply Fees_charge_Some in Hf as [-> _]. apply check_validity_window_Ok in Hw as (Hw1 & _).
  exists edge, total, p, (freeze_owner_signed maker taker pending).
  split_and!; try done; [lia|lia|..]; destruct pending as [r|]; try (subst p; lia).
  - destruct Hprov as [_ Ha]. apply checked_add_Some in Ha as [-> _]. lia.
  - apply contest_of_read in Hp. rewrite Hp. destruct Hprov as [Hle' Ha].
    apply checked_add_Some in Ha as [-> _]. unfold PendingPaymentClose_freeze_penalty,
      PendingPaymentClose_penalty. split.
    + destruct (pending_penalty_due r); simpl; [lia|]. case_match; lia.
    + intros Hmk Hlt. apply N.ltb_lt in Hlt. unfold is_maker in Hmk. by rewrite Hmk, Hlt, orb_true_r.
  - apply contest_of_absent in Hp. by rewrite Hp.
Qed.

(** The response window and the adjudication window never overlap: at a
    height where a response to a pending close is accepted, no adjudicated close
    of that channel is, whatever commitment and payouts it carries. *)
Theorem response_excludes_adjudication context context' verifier verifier' response o s' s
    commitment outputs :
  kapply context verifier (Tx_Move (RespondPaymentClose response)) s = Ok (o, s') ->
  Context_network context' = Context_network context ->
  Context_block_height context' = Context_block_height context ->
  forall c, kcheck context' verifier'
    (Tx_Close (resp_payment_edge response) (Proof_Adjudicated commitment) outputs) s <> Ok c.
Proof.
  intros (c & Hk & _)%kapply_Ok Hn Hh c' Hc. unfold kcheck in *. cbn [Tx_apply Move_apply] in *.
  apply apply_response_Ok in Hk as (edge & record & chunk & [] & _ & _).
  apply apply_close_Ok in Hc as (edge' & total & staged & [] & _). cbn [check_proof] in ca_proof.
  inv_ok. apply check_adjudicated_Ok in E as (r & p & Hp & Hw & _). rewrite Hn, Hh in *.
  rewrite pa_pending in Hp. injection Hp as <-. destruct Hw; [congruence|lia].
Qed.

(** The capacity of a channel is what the dearer route, the freeze, leaves
    over the omission bond: the amount a certificate may claim fits both routes
    with the bond on top. *)
Theorem capacity_fits_both_routes edge bond capacity :
  payment_capacity edge bond = Some capacity ->
  exists freeze adjudicated,
    Edge_close_value edge (work_payment_close_cost Freeze) = Some freeze /\
    Edge_close_value edge (work_payment_close_cost Adjudicated) = Some adjudicated /\
    freeze <= adjudicated /\ capacity + bond = freeze.
Proof.
  intros (f & a & Hf & Ha & Hb & ->)%payment_capacity_Some.
  pose proof (freeze_route_minimum _ _ _ Hf Ha). exists f, a. split_and!; [done|done|done|lia].
Qed.
End settlement.
