(* ===== verification/Bond.v ===== *)
(** * Bonds, leases and the committed exits

    A work-stake bond backs one payment channel at a time: the channel's open
    leases it, a live lease keeps it locked until its horizon, and its timeout
    retires the lease.  Every edge that commits timeout payouts can be closed by
    anyone once its timeout (or, for an unleased bond, nothing) is due. *)

From S2P Require Import Prelude Xet Canonical Primitive Errors BoundedList Context Auth Objects.
From S2P Require Import Registry Store Event Terms Work Lease Tx WorkTx OpenTx CloseTx Apply.
From S2P Require Import State Spec Validate Conservation Invariant Contest Kernel Settlement.

#[local] Open Scope N_scope.

(** The lease of [bond] is held by a payment edge that still exists. *)
Definition leased `{Blake3} (s : KState) (network : NetworkId) (bond : EdgeId) : Prop :=
  exists l, read_bond_lease s network bond = Ok (Some l) /\
    is_Some (ks_edges s !! lease_payment_edge l).

(** A timeout of [e] is due: its height has come, or it is a bond whose lease is
    absent or held by an edge that is gone. *)
Definition timeout_due `{Blake3} (s : KState) context (e : EdgeId) (edge : Edge) (terms : Terms)
    : Prop :=
  (is_work_bond terms = true ->
     exists lease, read_bond_lease s (Context_network context) e = Ok lease) /\
  (Edge_timeout edge <= Context_block_height context \/
   is_work_bond terms = true /\ ~ leased s (Context_network context) e).

Section bond.
  Context `{Blake3}.
  Implicit Types (s : KState) (context : Context) (verifier : SigVerifier).

Lemma zip_same_compare (outputs : list Payout) :
  (negb (length outputs =? length outputs)%nat
   || existsb (fun '(expected, actual) =>
        negb (bool_decide (timeout_expected None expected = actual))) (zip outputs outputs)) = false.
Proof.
  rewrite Nat.eqb_refl. simpl. induction outputs as [|p outputs IH]; simpl; [done|].
  by rewrite bool_decide_eq_true_2.
Qed.

(** The permissionless timeout of an edge whose timeout is due. *)
Lemma check_timeout_accepts input e total outputs terms context verifier s :
  Terms_hash terms = Edge_terms e -> timeout_due s context input e terms ->
  Terms_timeout_outputs terms = Some outputs ->
  exists staged,
    check_timeout (mk_CloseSubject input e total outputs) terms None context verifier s = Ok staged /\
    (staged = NO_STAGED_REGISTRY \/
     staged = (Some (delete_mutations (Context_network context) input).1,
               Some (delete_mutations (Context_network context) input).2)).
Proof.
  intros Ht [Hread Hdue] Ho. unfold check_timeout. rewrite bool_decide_eq_true_2 by done. cbn [negb].
  assert (exists lease, (if is_work_bond terms
            then map_err Proof_BondLeaseFault (read_bond_lease s (Context_network context) input)
            else Ok None) = Ok lease /\
          (is_work_bond terms = true ->
            read_bond_lease s (Context_network context) input = Ok lease)) as (lease & Hl & Hl').
  { destruct (is_work_bond terms); [|by exists None].
    destruct (Hread eq_refl) as [lease Hl]. exists lease. by rewrite Hl. }
  rewrite Hl. cbn [rbind]. destruct (negb _ && _) eqn:G.
  { exfalso. apply andb_true_iff in G as [G1 G2]. apply N.ltb_lt in G2.
    destruct Hdue as [|[Hb Hnl]]; [lia|]. rewrite Hb in G1. simpl in G1. apply Hnl.
    destruct lease as [l|]; [|done]. exists l. split; [by apply Hl'|].
    change (Store.edge s (lease_payment_edge l)) with (ks_edges s !! lease_payment_edge l) in G1.
    by destruct (ks_edges s !! lease_payment_edge l). }
  rewrite Ho. cbn [rbind]. rewrite zip_same_compare. destruct lease; eexists; split; eauto.
Qed.

(** What an open commits to its timeout is what a timeout will distribute. *)
Lemma opened_timeout_value funding terms maker_auth taker_auth context verifier s coins debits
    registry outputs :
  OpenAccepted funding terms maker_auth taker_auth context verifier s coins debits registry ->
  Terms_timeout_outputs terms = Some outputs ->
  Edge_close_value (debits_edge debits) (timeout_close_cost (length outputs) (is_work_bond terms))
    = Some (sumN Payout_value outputs).
Proof.
  intros [] Ho. by destruct (check_timeout_payout_Ok _ _ _ _ _ _ _ oa_debits oa_payout Ho) as (_ & ? & _).
Qed.

(** C30: every edge that commits timeout payouts has an exit nobody can withhold:
    as long as the edge an accepted open created is there, and its timeout has
    come (or it is a bond no live channel leases, at any height), the timeout
    close anyone can build from the revealed terms is accepted under any
    verifier, removes the edge and issues exactly the committed payouts. *)
Theorem timeout_exit context0 verifier funding terms maker_auth taker_auth s0 o0 s1 outputs
    context verifier' s edge :
  let e := Tx_edge_id_of funding terms in
  kapply context0 verifier (Tx_Open funding terms maker_auth taker_auth) s0 = Ok (o0, s1) ->
  Terms_timeout_outputs terms = Some outputs ->
  ks_edges s1 !! e = Some edge -> ks_edges s !! e = Some edge ->
  timeout_due s context e edge terms ->
  bond_lease_slot (Context_network context) e 0 <> bond_lease_slot (Context_network context) e 1 ->
  NoDup (Tx_close_output_ids e outputs) ->
  Forall (fun id => ks_coins s !! id = None) (Tx_close_output_ids e outputs) ->
  exists tx o s', Tx_timeout_close e terms = Some tx /\
    kapply context verifier' tx s = Ok (o, s') /\ ks_edges s' !! e = None /\
    Forall (fun c => ks_coins s' !! c.1 = Some c.2) (close_coins e outputs).
Proof.
  intros e Hk Hout He1 He Hdue Hslots Hnd Hfresh.
  destruct (kapply_opened _ _ _ _ _ _ _ _ _ Hk) as (coins & d & reg & Ha & He1' & Ht & _ & _ & Hal & _).
  change (ks_edges s1 !! e = Some (debits_edge d)) in He1'. rewrite He1 in He1'. injection He1' as ->.
  pose proof (opened_timeout_value _ _ _ _ _ _ _ _ _ _ _ Ha Hout) as Hval.
  pose proof Hval as Hcv. apply Edge_close_value_Some in Hcv as (fee & Hfee & Hres & Hv & Hmax).
  destruct (check_timeout_accepts e (debits_edge d) (sumN Payout_value outputs) outputs terms context
    verifier' s) as (staged & Hst & Hcase); [done|done|done|].
  assert (CloseAccepted e (Proof_Timeout terms None) outputs context verifier' s (debits_edge d)
    (sumN Payout_value outputs) staged) as Hca.
  { split; try done.
    - unfold Edge_allows. rewrite Hal. unfold Terms_allowed_closes, Terms_timeout_outputs in *.
      by destruct (Terms_body terms).
    - apply Edge_closes_Ok. rewrite sumN_close_coins. split_and!; [done|done|]. by exists fee.
    - destruct Hcase as [->| ->]; [constructor|]. apply NoDup_cons. split; [|apply NoDup_singleton].
      intros Hin%list_elem_of_singleton. done. }
  unfold Tx_timeout_close. rewrite Hout. eexists.
  destruct (validated_close_applies context verifier' e (debits_edge d) _ _ _ s
    (apply_close_accepts _ _ _ _ _ _ _ _ _ Hca) Hnd) as (o & s' & Hk' & He' & _ & Hc').
  exists o, s'. by split_and!.
Qed.

(** The lease an accepted payment open takes out is one its codec accepts. *)
Lemma opened_lease_wf funding terms payment :
  wf Terms_codec terms = true -> Terms_profile terms = Profile_WorkPayment payment ->
  wf BondLease_codec (BondLease_opened (wp_bond_edge payment) (Tx_edge_id_of funding terms)
    (Terms_hash terms) (wp_private_policy_commitment payment)
    (WorkPaymentTerms_admission_horizon payment)) = true.
Proof.
  intros Hw Hp. pose proof (Terms_hash_length _ Hw) as Hh.
  unfold BondLease_opened. cbn [wf BondLease_codec BondLease_wf].
  assert (wf EdgeId_codec (Tx_edge_id_of funding terms) = true) as -> by apply xet_hash_wf.
  assert (wf TermsHash_codec (Terms_hash terms) = true) as -> by done.
  assert (wf u64 (WorkPaymentTerms_admission_horizon payment) = true) as ->.
  { apply Terms_timeout_wf in Hw. unfold Terms_timeout, Terms_profile in *.
    destruct (Terms_body terms); [done| |done]. by injection Hp as ->. }
  cbn [wf Terms_codec TermsBody_codec] in Hw. unfold Terms_profile in Hp.
  destruct (Terms_body terms) as [|p|]; [done| |done]. injection Hp as ->. destruct payment as [be bt pp om va ob].
  cbn [TermsBody_wf wf WorkPaymentTerms_codec WorkPaymentTerms_wf wp_bond_edge
       wp_private_policy_commitment] in *. bool_simpl. rewrite !andb_true_iff. by split_and!.
Qed.

(** Two writes to distinct lease slots read back as the lease. *)
Lemma read_bond_lease_created network lease m0 m1 s s' :
  wf BondLease_codec lease = true -> create_mutations network lease = Some (m0, m1) ->
  mutation_id m0 <> mutation_id m1 -> ks_registry s' = diff_post [m0; m1] (ks_registry s) ->
  read_bond_lease s' network (lease_bond_edge lease) = Ok (Some lease).
Proof.
  intros Hwf Hm Hne Hs. apply create_mutations_writes in Hm as (c0 & c1 & Hc & -> & ->).
  apply read_bond_lease_Some. exists c0, c1. cbn [registry_chunk KState_ops]. rewrite Hs.
  cbn [diff_post foldl mutation_post mutation_chunk mutation_id RegistryMutation_write] in *.
  split_and!; [|by rewrite lookup_insert_eq|by apply BondLease_from_to_chunks].
  rewrite lookup_insert_ne by done. by rewrite lookup_insert_eq.
Qed.

(** A bond backs one channel at a time: an accepted payment open finds the
    bond it names alive, under the terms it embeds and unleased, and leaves it
    leased to the new channel's edge until the bond's horizon; and while a lease
    record is readable no further payment open that names the bond is accepted. *)
Theorem payment_open_leases_bond context verifier funding terms maker_auth taker_auth payment s o s' :
  let bond := wp_bond_edge payment in
  kapply context verifier (Tx_Open funding terms maker_auth taker_auth) s = Ok (o, s') ->
  wf Terms_codec terms = true -> Terms_profile terms = Profile_WorkPayment payment ->
  (exists edge, ks_edges s !! bond = Some edge /\
     Edge_terms edge = WorkPaymentTerms_bond_terms_hash payment) /\
  read_bond_lease s (Context_network context) bond = Ok None /\
  read_bond_lease s' (Context_network context) bond =
    Ok (Some (BondLease_opened bond (Tx_edge_id_of funding terms) (Terms_hash terms)
                (wp_private_policy_commitment payment)
                (WorkPaymentTerms_admission_horizon payment))) /\
  leased s' (Context_network context) bond /\
  (forall context' verifier' funding' terms' maker_auth' taker_auth' payment' c,
     Context_network context' = Context_network context ->
     Terms_profile terms' = Profile_WorkPayment payment' -> wp_bond_edge payment' = bond ->
     kcheck context' verifier' (Tx_Open funding' terms' maker_auth' taker_auth') s' <> Ok c).
Proof.
  intros bond Hk Hwf Hp.
  destruct (kapply_opened _ _ _ _ _ _ _ _ _ Hk) as (coins & d & reg & Ha & He & _ & _ & _ & _ & Hs).
  destruct Ha. apply open_bond_lease_Ok in oa_lease. rewrite Hp in oa_lease.
  destruct oa_lease as (edge & m0 & m1 & Hb & Hbt & Hnone & Hm & -> & Hne).
  pose proof (read_bond_lease_created _ _ _ _ _ _ (opened_lease_wf funding
    terms payment Hwf Hp) Hm Hne Hs) as Hread. cbn [lease_bond_edge BondLease_opened] in Hread.
  split_and!; [by eauto|done|exact Hread|eexists; split; [exact Hread|by eexists]|].
  intros context' verifier' f' t' ma' ta' payment' c Hn Hp' Hb' Hc. unfold kcheck in Hc.
  cbn [Tx_apply] in Hc. apply apply_open_Ok in Hc as (? & ? & ? & [] & _).
  match goal with Hl : open_bond_lease _ t' _ _ = Ok _ |- _ => apply open_bond_lease_Ok in Hl;
    rewrite Hp', Hb', Hn in Hl; destruct Hl as (? & ? & ? & _ & _ & Hl' & _) end.
  unfold bond in Hl'. by rewrite Hread in Hl'.
Qed.

(** A bond a live channel leases stays locked: until the bond's horizon no
    close of it is accepted, whatever the proof, the payouts and the signatures. *)
Theorem leased_bond_locked context verifier bond edge proof outputs s :
  ks_edges s !! bond = Some edge -> Edge_allowed edge = CloseKindSet_WORK_STAKE_BOND ->
  leased s (Context_network context) bond -> Context_block_height context < Edge_timeout edge ->
  forall c, kcheck context verifier (Tx_Close bond proof outputs) s <> Ok c.
Proof.
  intros He Hal (l & Hl & Hlive) Hh c Hc. unfold kcheck in Hc. cbn [Tx_apply] in Hc.
  apply apply_close_Ok in Hc as (edge' & total & staged & [] & _). rewrite He in ca_edge.
  injection ca_edge as <-. unfold Edge_allows in ca_kind. rewrite Hal in ca_kind.
  destruct proof as [| terms owner | |]; try done. cbn [check_proof] in ca_proof.
  apply check_timeout_Ok in ca_proof as (lease & committed & _ & Hread & [Hd|[Hb Hd]] & _); [lia|].
  rewrite Hb, Hl in Hread. injection Hread as <-. rewrite Hd in Hlive. by destruct Hlive.
Qed.

(** A bond's timeout retires its lease: after an accepted timeout close that
    reveals bond terms, the bond's lease slots are empty. *)
Theorem bond_timeout_retires_lease context verifier bond terms owner outputs s o s' :
  kapply context verifier (Tx_Close bond (Proof_Timeout terms owner) outputs) s = Ok (o, s') ->
  is_work_bond terms = true ->
  read_bond_lease s' (Context_network context) bond = Ok None /\ ks_edges s' !! bond = None.
Proof.
  intros (c & Hk & _ & _ & ->)%kapply_Ok Hb. unfold kcheck in Hk. cbn [Tx_apply] in Hk.
  apply apply_close_Ok in Hk as (edge & total & staged & [] & ->). cbn [check_proof] in ca_proof.
  apply check_timeout_Ok in ca_proof as (lease & committed & _ & Hread & _ & _ & _ & _ & ->).
  rewrite Hb in Hread. split; [|apply lookup_delete_eq]. apply read_bond_lease_None.
  destruct lease as [l|].
  - cbn. split; [apply lookup_delete_None; right|]; by rewrite lookup_delete_eq.
  - by apply read_bond_lease_None in Hread.
Qed.
End bond.
