(* ===== verification/Authority.v ===== *)
(** * Authority

    Who can move what: a coin leaves the state only by its owner's signature or
    an explicit delegation, an edge pays only its two parties, and no accepted
    transaction can be applied a second time. *)

From S2P Require Import Prelude Xet Canonical Primitive Errors BoundedList Context Auth Objects.
From S2P Require Import Registry Store Event Terms Work Lease Tx WorkTx OpenTx CloseTx Apply.
From S2P Require Import State Spec Validate Conservation Invariant Contest Kernel Settlement.

#[local] Open Scope N_scope.

Section authority.
  Context `{Blake3}.
  Implicit Types (s : KState) (context : Context) (verifier : SigVerifier).

(** [auth] speaks for a coin of [party] at an open: the party's key of the
    claimed authority signed the open, and it is the owner, or the coin is
    delegated to the party's signer and the open is not a basic one. *)
Definition party_consents context verifier (funding : Funding) (terms : Terms) (party : PartyKeys)
    (auth : PartyAuth) (c : Coin) : Prop :=
  Coin_owner c = PartyKeys_owner party /\
  verify_party verifier auth party (Tx_open_hash (Context_network context) funding terms) = true /\
  (PartyAuth_is_owner auth = true \/
   Coin_delegate c = Some (PartyKeys_signer party) /\ Terms_profile terms <> Profile_Basic).

(** [tx] carries the authority to spend the coin [c] held under [id]. *)
Definition spend_authorized context verifier (tx : Tx) (id : CoinId) (c : Coin) : Prop :=
  match tx with
  | Tx_Owner r =>
      id ∈ reshape_inputs r /\
      verify_auth verifier (reshape_auth r) (Coin_owner c)
        (Reshape_payload_hash (Context_network context) (reshape_inputs r) (reshape_outputs r)) = true
  | Tx_Open funding terms maker_auth taker_auth =>
      id ∈ Funding_iter funding /\
      (party_consents context verifier funding terms (Parties_maker (Terms_parties terms)) maker_auth c \/
       party_consents context verifier funding terms (Parties_taker (Terms_parties terms)) taker_auth c)
  | Tx_Close _ _ _ | Tx_Move _ => False
  end.

Lemma delete_all_lookup_ne {V} l (m : gmap CoinId V) id :
  id ∉ l -> delete_all l m !! id = m !! id.
Proof.
  unfold delete_all. revert m. induction l as [|x l IH]; intros m Hni; simpl; [done|].
  apply not_elem_of_cons in Hni as [Hne Hni]. rewrite IH by done. by rewrite lookup_delete_ne.
Qed.

Lemma delete_all_lookup_elem {V} l (m : gmap CoinId V) id :
  id ∈ l -> delete_all l m !! id = None.
Proof.
  unfold delete_all. revert m. induction l as [|x l IH]; intros m Hin; [by apply not_elem_of_nil in Hin|].
  simpl. destruct (decide (id ∈ l)); [by apply IH|]. apply elem_of_cons in Hin as [->|]; [|done].
  etransitivity; [by apply (delete_all_lookup_ne l)|]. by rewrite lookup_delete_eq.
Qed.

Lemma fresh_insert_kept coins (m : gmap CoinId Coin) id c :
  Forall (fun i => m !! i = None) (map fst coins) -> m !! id = Some c ->
  insert_all coins m !! id = Some c.
Proof.
  intros Hf Hc. rewrite insert_all_lookup_ne; [done|]. intros Hin.
  rewrite Forall_forall in Hf. by rewrite (Hf id Hin) in Hc.
Qed.

(** The coins of one side of an accepted open. *)
Lemma side_consents context verifier funding terms party auth coins c :
  check_party_authority party auth coins = Ok tt ->
  (Terms_profile terms = Profile_Basic -> PartyAuth_is_owner auth = true) ->
  verify_party verifier auth party (Tx_open_hash (Context_network context) funding terms) = true ->
  c ∈ coins -> Coin_owner c.2 = PartyKeys_owner party ->
  party_consents context verifier funding terms party auth c.2.
Proof.
  intros Ha%check_party_authority_Ok Hbasic Hv Hin Ho. split_and!; [done|done|].
  destruct Ha as [|[Hd _]]; [by left|]. destruct (PartyAuth_is_owner auth) eqn:E; [by left|right].
  rewrite Forall_forall in Hd. split; [by apply Hd|]. intros Hb. by specialize (Hbasic Hb).
Qed.

Lemma open_consents funding terms maker_auth taker_auth context verifier s coins debits registry i c :
  OpenAccepted funding terms maker_auth taker_auth context verifier s coins debits registry ->
  coins !! i = Some c ->
  party_consents context verifier funding terms (Parties_maker (Terms_parties terms)) maker_auth c.2 \/
  party_consents context verifier funding terms (Parties_taker (Terms_parties terms)) taker_auth c.2.
Proof.
  intros [] Hi. unfold check_open_authority in oa_authority. inv_ok_step.
  apply rbind_Ok in oa_authority as ([] & Hm & Ht).
  assert (Hb : Terms_profile terms = Profile_Basic ->
    PartyAuth_is_owner maker_auth = true /\ PartyAuth_is_owner taker_auth = true).
  { intros Hp. rewrite Hp in G. simpl in G. by apply negb_false_iff, andb_true_iff in G. }
  specialize (oa_owned _ _ Hi). pose proof (lookup_lt_Some _ _ _ Hi) as Hlt.
  destruct (Nat.ltb_spec i (Funding_maker_len funding)).
  - left. eapply side_consents; [exact Hm|by intros [? _]%Hb|done| |done].
    apply list_elem_of_lookup. exists i. rewrite lookup_take_lt; [done|lia].
  - right. eapply side_consents; [exact Ht|by intros [_ ?]%Hb|done| |done].
    apply list_elem_of_lookup. exists (i - Nat.min (Funding_maker_len funding) (length coins))%nat.
    rewrite lookup_drop. rewrite <- Hi. f_equal. lia.
Qed.

(** C15: no coin moves without its owner: whenever an accepted transaction changes
    or removes a coin, either it is a reshape signed by that coin's owner, or an
    open that lists the coin, whose owner is the party it funds, signed by that
    party's owner key or (never for a basic open) by the signer key the coin is
    explicitly delegated to. *)
Theorem coin_spend_authorized context verifier tx s o s' id c :
  kapply context verifier tx s = Ok (o, s') ->
  ks_coins s !! id = Some c -> ks_coins s' !! id <> Some c ->
  spend_authorized context verifier tx id c.
Proof.
  intros (ch & Hk & _ & _ & ->)%kapply_Ok Hc Hne. unfold kcheck in Hk.
  destruct tx as [f t ma ta|input proof outputs|[start|response]|r]; cbn [Tx_apply Move_apply] in Hk.
  - apply apply_open_Ok in Hk as (coins & d & registry & Ha & ->). simpl in Hne.
    pose proof Ha as []. rewrite oa_inputs in Hne.
    destruct (decide (id ∈ Funding_iter f)) as [Hin|Hni]; [|by rewrite delete_all_lookup_ne in Hne].
    split; [done|]. rewrite <- oa_inputs in Hin. apply list_elem_of_fmap in Hin as ([id' c'] & -> & Hin).
    rewrite Forall_forall in oa_present. pose proof (oa_present _ Hin) as Hp. simpl in *.
    rewrite Hp in Hc. injection Hc as <-. apply list_elem_of_lookup in Hin as [i Hi].
    exact (open_consents _ _ _ _ _ _ _ _ _ _ _ _ Ha Hi).
  - apply apply_close_Ok in Hk as (e & total & staged & [] & ->). destruct Hne. simpl.
    apply fresh_insert_kept; [by rewrite close_coins_ids|done].
  - apply apply_start_Ok in Hk as (? & ? & ? & ? & _ & ->). done.
  - apply apply_response_Ok in Hk as (? & ? & ? & _ & _ & ->). done.
  - apply Reshape_apply_Ok in Hk as (coins & owner & [] & ->). simpl in Hne. rewrite ra_inputs in Hne.
    assert (id ∈ reshape_inputs r) as Hin.
    { destruct (decide (id ∈ reshape_inputs r)) as [|Hni]; [done|]. destruct Hne.
      rewrite insert_all_lookup_ne; [by rewrite delete_all_lookup_ne|].
      intros Hin. rewrite reshape_coins_fst in Hin. rewrite Forall_forall in ra_fresh.
      by rewrite (ra_fresh _ Hin) in Hc. }
    split; [done|]. rewrite <- ra_inputs in Hin. apply list_elem_of_fmap in Hin as ([id' c'] & -> & Hin).
    rewrite Forall_forall in ra_present, ra_owner. pose proof (ra_present _ Hin) as Hp. simpl in Hp, Hc.
    rewrite Hp in Hc. injection Hc as <-. by rewrite (ra_owner _ Hin : Coin_owner c' = owner).
Qed.

(** [p] goes to one of the two parties, and carries no delegate but the one that
    party committed. *)
Definition pays_party (parties : Parties) (p : Payout) : Prop :=
  exists party, (party = Parties_maker parties \/ party = Parties_taker parties) /\
    Payout_owner p = PartyKeys_owner party /\
    (Payout_delegate p = None \/ Payout_delegate p = PartyKeys_payout_delegate party).

Lemma destination_pays_party parties party p owner :
  party = Parties_maker parties \/ party = Parties_taker parties ->
  PartyKeys_is_destination party p owner = true -> pays_party parties p.
Proof.
  intros Hp Hd. apply bool_decide_eq_true in Hd. exists party. rewrite Hd.
  unfold PartyKeys_payout. simpl. split_and!; [done|done|]. destruct owner; [by left|by right].
Qed.

Lemma party_payout_pays parties party value owner :
  party = Parties_maker parties \/ party = Parties_taker parties ->
  pays_party parties (PartyKeys_payout party value owner).
Proof.
  intros Hp. exists party. unfold PartyKeys_payout. simpl. split_and!; [done|done|].
  destruct owner; [by left|by right].
Qed.

Lemma check_split_pays parties total provider signed outputs :
  check_split parties (total, provider) signed outputs = Ok tt -> Forall (pays_party parties) outputs.
Proof.
  intros [_ ->]%check_split_Ok. apply Forall_cons_2; [|apply Forall_singleton];
    apply party_payout_pays; eauto.
Qed.

Lemma opened_timeout_pays funding terms maker_auth taker_auth context verifier s coins debits registry
    outputs :
  OpenAccepted funding terms maker_auth taker_auth context verifier s coins debits registry ->
  Terms_timeout_outputs terms = Some outputs ->
  Forall (pays_party (Terms_parties terms)) outputs.
Proof.
  intros [] Ho.
  destruct (check_timeout_payout_Ok _ _ _ _ _ _ _ oa_debits oa_payout Ho) as (_ & _ & Hall).
  eapply Forall_impl; [exact Hall|].
  simpl. intros p Hd. unfold Parties_is_destination in Hd.
  apply orb_true_iff in Hd as [Hd|Hd]; (eapply destination_pays_party; [|exact Hd]); eauto.
Qed.

Lemma timeout_expected_pays parties owner p :
  pays_party parties p -> pays_party parties (timeout_expected owner p).
Proof.
  intros (party & Hp & Ho & Hd). destruct owner; [|by exists party].
  exists party. simpl. split_and!; [done|done|by left].
Qed.

(** An edge pays only its two parties: every payout of an accepted close of an
    edge, by any of the four proofs, goes to the owner of one of the parties its
    open committed, with no delegate but the one that party committed (for a
    timeout, provided the revealed terms, which hash to the edge's, are those of
    the open). *)
Theorem close_pays_parties context0 verifier0 funding terms maker_auth taker_auth s0 o0 s1
    context verifier proof outputs s o s' edge :
  let e := Tx_edge_id_of funding terms in
  kapply context0 verifier0 (Tx_Open funding terms maker_auth taker_auth) s0 = Ok (o0, s1) ->
  ks_edges s1 !! e = Some edge -> ks_edges s !! e = Some edge ->
  match proof with
  | Proof_Timeout revealed _ => Terms_hash revealed = Terms_hash terms -> revealed = terms
  | _ => True
  end ->
  kapply context verifier (Tx_Close e proof outputs) s = Ok (o, s') ->
  Forall (pays_party (Terms_parties terms)) outputs.
Proof.
  intros e Ho He1 He Hrev (c & Hk & _ & _ & _)%kapply_Ok. unfold kcheck in Hk. cbn [Tx_apply] in Hk.
  destruct (kapply_opened _ _ _ _ _ _ _ _ _ Ho) as (coins & d & reg & Ha & He1' & Ht & Hpar & _).
  change (ks_edges s1 !! e = Some (debits_edge d)) in He1'. rewrite He1 in He1'. injection He1' as ->.
  apply apply_close_Ok in Hk as (edge' & total & staged & [] & _). rewrite He in ca_edge.
  injection ca_edge as <-. rewrite <- Hpar. destruct proof as [mk tk|revealed owner|? ? ? ? ?|?].
  - apply check_mutual_Ok in ca_proof as (_ & Hd & _). eapply Forall_impl; [exact Hd|].
    intros p [Hp|Hp]; (eapply destination_pays_party; [|exact Hp]); eauto.
  - cbn [check_proof] in ca_proof.
    apply check_timeout_Ok in ca_proof as (lease & committed & Hh & _ & _ & Hout & -> & _).
    rewrite (Hrev ltac:(congruence)) in Hout. rewrite Hpar.
    apply Forall_map. eapply Forall_impl; [by eapply opened_timeout_pays|].
    intros p. apply timeout_expected_pays.
  - cbn [check_proof] in ca_proof. inv_ok.
    match goal with E : check_freeze _ _ _ _ _ = Ok _ |- _ =>
      apply check_freeze_Ok in E as (? & ? & _ & _ & _ & Hs & _) end.
    by eapply check_split_pays.
  - cbn [check_proof] in ca_proof. inv_ok.
    match goal with E : check_adjudicated _ _ _ _ = Ok _ |- _ =>
      apply check_adjudicated_Ok in E as (? & ? & _ & _ & _ & Hs & _) end.
    by eapply check_split_pays.
Qed.

(** A mutual close is consent: it is accepted only before the edge's timeout
    and only with both parties' signatures over the network, the edge, its terms
    and every payout. *)
Theorem mutual_close_consent context verifier e maker taker outputs s o s' :
  kapply context verifier (Tx_Close e (Proof_Mutual maker taker) outputs) s = Ok (o, s') ->
  exists edge, ks_edges s !! e = Some edge /\
    Context_block_height context < Edge_timeout edge /\
    let hash := Tx_payload_hash (Context_network context) e Mutual (Edge_terms edge) outputs in
    verify_party verifier maker (Parties_maker (Edge_parties edge)) hash = true /\
    verify_party verifier taker (Parties_taker (Edge_parties edge)) hash = true.
Proof.
  intros (c & Hk & _ & _ & _)%kapply_Ok. unfold kcheck in Hk. cbn [Tx_apply] in Hk.
  apply apply_close_Ok in Hk as (edge & total & staged & [] & _). exists edge.
  apply check_mutual_Ok in ca_proof as (Hh & _ & Hm & Ht & _). by split_and!.
Qed.

(** C37: nothing is accepted twice: the state an accepted transaction of any kind
    leads to rejects that same transaction, at every height and fee schedule and
    under every verifier of the same network. *)
Theorem accepted_not_replayable context verifier tx s o s' context' verifier' :
  kapply context verifier tx s = Ok (o, s') -> wf Tx_codec tx = true ->
  Context_network context' = Context_network context ->
  forall c, kcheck context' verifier' tx s' <> Ok c.
Proof.
  intros (ch & Hk & _ & _ & ->)%kapply_Ok Hwf Hn c' Hc. unfold kcheck in Hk, Hc.
  destruct tx as [f t ma ta|input proof outputs|[start|response]|r];
    cbn [Tx_apply Move_apply] in Hk, Hc.
  - apply apply_open_Ok in Hk as (coins & d & registry & _ & ->).
    apply apply_open_Ok in Hc as (? & ? & ? & [] & _). simpl in oa_fresh.
    by rewrite lookup_insert_eq in oa_fresh.
  - apply apply_close_Ok in Hk as (e & total & staged & _ & ->).
    apply apply_close_Ok in Hc as (? & ? & ? & [] & _). simpl in ca_edge.
    by rewrite lookup_delete_eq in ca_edge.
  - apply apply_start_Ok in Hk as (? & ? & ? & chunk & Ha & ->).
    destruct (start_writes _ _ _ _ _ _ _ _ _ Ha Hwf eq_refl) as [_ Hw].
    apply apply_start_Ok in Hc as (? & ? & ? & ? & [] & _).
    rewrite Hn in sa_absent. apply contest_of_absent in sa_absent. by rewrite Hw in sa_absent.
  - apply apply_response_Ok in Hk as (? & record & chunk & Ha & Hch & ->).
    destruct (respond_writes _ _ _ _ _ _ _ _ Ha Hch Hwf eq_refl) as [_ Hw].
    apply apply_response_Ok in Hc as (? & ? & ? & [] & _).
    rewrite Hn in pa_pending. apply contest_of_read in pa_pending. rewrite Hw in pa_pending.
    injection pa_pending as <-. done.
  - apply Reshape_apply_Ok in Hk as (coins & owner & [_ Hne Hins Hpres _ _ _ Hfresh _] & ->).
    apply Reshape_apply_Ok in Hc as (coins' & owner' & Ha' & _).
    destruct (reshape_inputs r) as [|id ids] eqn:Hids; [done|].
    pose proof (ra_inputs _ _ _ _ _ _ Ha') as Hin. rewrite Hids in Hin.
    destruct coins' as [|[id' c] coins']; [done|]. simpl in Hin. injection Hin as -> _.
    pose proof (ra_present _ _ _ _ _ _ Ha') as Hp. apply Forall_cons in Hp as [Hp _]. simpl in Hp.
    rewrite insert_all_lookup_ne, delete_all_lookup_elem in Hp; [done|rewrite Hins; left|].
    intros Hout. rewrite reshape_coins_fst, Hids in Hout. rewrite Forall_forall in Hfresh.
    specialize (Hfresh _ Hout). rewrite Forall_forall in Hpres.
    assert (id ∈ map fst coins) as Hi by (rewrite Hins; left).
    apply list_elem_of_fmap in Hi as ([id2 c2] & -> & Hi). by rewrite (Hpres _ Hi) in Hfresh.
Qed.

(** [id] is a coin the event says was consumed or created. *)
Definition coin_reported (event : option EventKind) (id : CoinId) (before after : option Coin) : Prop :=
  match event with
  | Some (EdgeOpened inputs _) => id ∈ inputs /\ after = None
  | Some (EdgeClosed _ outputs) => id ∈ outputs /\ before = None
  | Some (CoinsReshaped inputs outputs) =>
      id ∈ inputs /\ after = None \/ id ∈ outputs /\ before = None
  | None => False
  end.

Definition edge_reported (event : option EventKind) (id : EdgeId) (before after : option Edge) : Prop :=
  match event with
  | Some (EdgeOpened _ output) => id = output /\ before = None
  | Some (EdgeClosed input _) => id = input /\ after = None
  | _ => False
  end.

(** The outcome tells all: every coin and edge an accepted transaction adds or
    removes is named by its event, as an input if it is gone and as an output if
    it is new, nothing else changes, and replaying the reported registry diff
    gives the new registry. *)
Theorem outcome_complete context verifier tx s o s' :
  kapply context verifier tx s = Ok (o, s') ->
  (forall id, ks_coins s' !! id <> ks_coins s !! id ->
     coin_reported (outcome_public_event o) id (ks_coins s !! id) (ks_coins s' !! id)) /\
  (forall id, ks_edges s' !! id <> ks_edges s !! id ->
     edge_reported (outcome_public_event o) id (ks_edges s !! id) (ks_edges s' !! id)) /\
  ks_registry s' = diff_post (outcome_registry o) (ks_registry s).
Proof.
  intros (c & Hk & _ & -> & ->)%kapply_Ok. unfold kcheck in Hk.
  destruct tx as [f t ma ta|input proof outputs|[start|response]|r]; cbn [Tx_apply Move_apply] in Hk.
  - apply apply_open_Ok in Hk as (coins & d & registry & [] & ->).
    split_and!; [intros id Hne..|done]; simpl in *.
    + rewrite oa_inputs in *. destruct (decide (id ∈ Funding_iter f)) as [Hin|Hni].
      * split; [done|]. by apply delete_all_lookup_elem.
      * by rewrite delete_all_lookup_ne in Hne.
    + destruct (decide (id = Tx_edge_id_of f t)) as [->|]; [done|]. by rewrite lookup_insert_ne in Hne.
  - apply apply_close_Ok in Hk as (e & total & staged & [] & ->).
    split_and!; [intros id Hne..|done]; simpl in *.
    + destruct (decide (id ∈ Tx_close_output_ids input outputs)) as [Hin|Hni].
      * split; [done|]. rewrite Forall_forall in ca_fresh. by apply ca_fresh.
      * by rewrite insert_all_lookup_ne in Hne by (by rewrite close_coins_ids).
    + destruct (decide (id = input)) as [->|]; [by rewrite lookup_delete_eq|].
      by rewrite lookup_delete_ne in Hne.
  - by apply apply_start_Ok in Hk as (? & ? & ? & ? & _ & ->).
  - by apply apply_response_Ok in Hk as (? & ? & ? & _ & _ & ->).
  - apply Reshape_apply_Ok in Hk as (coins & owner & [] & ->).
    split_and!; [intros id Hne; simpl in *|done|done]. rewrite ra_inputs in *.
    set (outs := Reshape_output_ids _ _ _) in *. pose proof (reshape_coins_fst (Context_network context) r) as Hfst.
    fold outs in Hfst. destruct (decide (id ∈ outs)) as [Hin|Hni].
    + right. split; [done|]. rewrite Forall_forall in ra_fresh. by apply ra_fresh.
    + rewrite insert_all_lookup_ne in * by (by rewrite Hfst). left.
      destruct (decide (id ∈ reshape_inputs r)) as [Hin|Hni']; [|by rewrite delete_all_lookup_ne in Hne].
      split; [done|]. by apply delete_all_lookup_elem.
Qed.
End authority.
