(* ===== verification/Opening.v ===== *)
(** * What an open commits

    The reserve an open locks prices every close its terms permit, and the
    projection an endpoint computes without a store is what the kernel does. *)

From S2P Require Import Prelude Xet Canonical Primitive Errors BoundedList Context Auth Objects.
From S2P Require Import Registry Store Event Terms Work Lease Tx WorkTx OpenTx CloseTx Apply.
From S2P Require Import State Spec Validate Conservation Invariant Contest Kernel Settlement.

#[local] Open Scope N_scope.

(** The funding of an open with the values a state holds for its coins. *)
Definition priced (s : KState) (funding : Funding) : OpenFunding :=
  let price id := (id, match ks_coins s !! id with Some c => Coin_value c | None => 0 end) in
  OpenFunding_new (map price (Funding_maker funding)) (map price (Funding_taker funding)).

Lemma priced_funding s funding : OpenFunding_funding (priced s funding) = funding.
Proof.
  destruct funding as [mk tk]. unfold OpenFunding_funding, priced, ids. simpl.
  by rewrite !map_map, !map_id.
Qed.

Lemma priced_shape s funding : OpenFunding_shape (priced s funding) = FundingShape_of funding.
Proof. by destruct funding as [[] []]. Qed.

Lemma priced_len s funding : OpenFunding_len (priced s funding) = Funding_len funding.
Proof. unfold OpenFunding_len, priced. simpl. by rewrite !length_map. Qed.

Lemma priced_total s funding coins :
  map fst coins = Funding_iter funding -> Forall (fun c => ks_coins s !! c.1 = Some c.2) coins ->
  OpenFunding_total (priced s funding) = checked_sum (fun c => Coin_value c.2) coins.
Proof.
  intros Hids Hall.
  assert (sumN snd (OpenFunding_maker (priced s funding) ++ OpenFunding_taker (priced s funding)) =
          sumN (fun c => Coin_value c.2) coins) as Hsum.
  { unfold priced. simpl. rewrite <- map_app. unfold Funding_iter in Hids. rewrite <- Hids.
    clear Hids. induction Hall as [|[id c] coins Hc _ IH]; simpl; [done|]. simpl in Hc.
    by rewrite Hc, <- IH. }
  rewrite sumN_app in Hsum. unfold OpenFunding_total. apply option_eq. intros t.
  rewrite checked_sum_Some, bind_Some. setoid_rewrite bind_Some.
  setoid_rewrite checked_sum_Some. setoid_rewrite checked_add_Some. rewrite <- Hsum. split.
  - intros (m & [-> Hm] & k & [-> Hk] & -> & Ht). done.
  - intros [-> Ht]. eexists. split; [split; [done|lia]|]. eexists. split; [split; [done|lia]|]. done.
Qed.

Section opening.
  Context `{Blake3}.
  Implicit Types (s : KState) (context : Context) (verifier : SigVerifier).

(** No permitted close costs more than the reserve was priced for. *)
Lemma close_cost_fits terms proof n :
  (n <= MAX_EDGE_OUTPUTS)%nat ->
  CloseKindSet_contains (Terms_allowed_closes terms) (CloseProof_kind proof) = true ->
  match proof with Proof_Timeout t _ => is_work_bond t = is_work_bond terms | _ => True end ->
  Cost_fits (close_cost n proof) (open_reserve_cost terms) = true.
Proof.
  intros Hn Hk Ht. unfold open_reserve_cost, Terms_allowed_closes, Terms_profile in *.
  assert (n = 0 \/ n = 1 \/ n = 2 \/ n = 3 \/ n = 4)%nat as Hn' by (unfold MAX_EDGE_OUTPUTS in Hn; lia).
  destruct proof as [|t o| |]; cbn [close_cost CloseProof_kind] in *;
    [|rewrite Ht; unfold is_work_bond, Terms_profile| |];
    destruct (Terms_body terms); try done; by destruct Hn' as [->|[->|[->|[->| ->]]]].
Qed.

(** C38: the reserve an open locks covers every exit of its edge: whatever close
    its terms permit, with any permitted number of payouts, the fees are within
    the reserve, so the close distributes at least the edge's whole value and no
    overflow or shortfall can strand it. *)
Theorem reserve_covers_every_close context verifier funding terms maker_auth taker_auth s o s' edge
    proof n :
  kapply context verifier (Tx_Open funding terms maker_auth taker_auth) s = Ok (o, s') ->
  ks_edges s' !! Tx_edge_id_of funding terms = Some edge ->
  (n <= MAX_EDGE_OUTPUTS)%nat -> Edge_allows edge (CloseProof_kind proof) = true ->
  match proof with Proof_Timeout t _ => is_work_bond t = is_work_bond terms | _ => True end ->
  exists total, Edge_close_value edge (close_cost n proof) = Some total /\ Edge_value edge <= total.
Proof.
  intros Hk He Hn Hal Ht.
  destruct (kapply_opened _ _ _ _ _ _ _ _ _ Hk) as (coins & d & reg & [] & He' & _ & _ & _ & Ha & _).
  rewrite He in He'. injection He' as ->. unfold Edge_allows in Hal. rewrite Ha in Hal.
  apply open_debits_Ok in oa_debits as (t & a & b & c & Hs & _ & _ & Hc & Hle & payout & _ & ->).
  apply checked_sum_Some in Hs as [-> Hm]. cbn [debits_edge] in *.
  destruct (Fees_charge_mono _ _ _ _ Hc (close_cost_fits terms proof n Hn Hal Ht)) as (fee & Hfee & Hfle).
  set (total := sumN _ coins) in *. exists (total - a - b - c + (c - fee)). split; [|simpl; lia].
  apply Edge_close_value_Some. exists fee. simpl. split_and!; [done|done|lia|lia].
Qed.

(** An endpoint's projection is exact: for an open the kernel accepts, the
    projection computed from the coin values alone, without a store, succeeds
    and names the edge id, the two fees, the reserve and value, and the timeout
    payout of the edge the kernel creates. *)
Theorem open_projection_exact context verifier funding terms maker_auth taker_auth s o s' edge :
  kapply context verifier (Tx_Open funding terms maker_auth taker_auth) s = Ok (o, s') ->
  ks_edges s' !! Tx_edge_id_of funding terms = Some edge ->
  exists projection,
    open_projection (Context_block_height context) (Context_fees context) (priced s funding) terms
      = Ok projection /\
    projection_edge projection = Tx_edge_id_of funding terms /\
    projection_values projection = Edge_values edge /\
    burned context (Tx_Open funding terms maker_auth taker_auth) s =
      projection_open_fee projection + projection_lifetime_fee projection /\
    (forall outputs, Terms_timeout_outputs terms = Some outputs ->
       projection_timeout_payout projection = Some (sumN Payout_value outputs)).
Proof.
  intros Hk He.
  destruct (kapply_opened _ _ _ _ _ _ _ _ _ Hk) as (coins & d & reg & Ha & He' & _).
  rewrite He in He'. injection He' as ->. pose proof Ha as [].
  unfold open_projection. rewrite priced_len, priced_shape, priced_funding.
  rewrite (priced_total s funding coins oa_inputs oa_present), oa_debits. cbn [rbind].
  rewrite oa_profile. cbn [rbind]. eexists. split; [done|]. split_and!; [done|done| |].
  - apply open_debits_Ok in oa_debits as (t & a & b & c & _ & Hof & Hlf & _ & _ & payout & _ & ->).
    simpl. apply Fees_charge_Some in Hof as [-> _]. by apply open_lifetime_fee_Ok in Hlf as (_ & -> & _).
  - intros outputs Hout.
    by destruct (check_timeout_payout_Ok _ _ _ _ _ _ _ oa_debits oa_payout Hout) as (? & _ & _).
Qed.
End opening.
