(* ===== verification/Digests.v ===== *)
(** * Everything the kernel hashes

    Every id, digest and commitment of the kernel is the Xet hash of a domain
    separator and canonical fields.  [message] lists them all; the preimages are
    injective across the whole list, so a signature over one kind of message on
    one network is never a signature over another, and every preimage fits the
    single-chunk hasher, so hashing never panics. *)

From S2P Require Import Prelude Xet Canonical Primitive Errors BoundedList Context Auth Objects.
From S2P Require Import Registry Store Event Terms Work Lease Tx.

#[local] Open Scope N_scope.

(** The fields of a contest an adjudicated close commits to. *)
Record contest_fields := mk_contest_fields {
  cf_start_id : StartId; cf_deadline : N; cf_start : N; cf_final : N; cf_due : bool;
  cf_amount : N; cf_signed : bool * bool;
}.

Inductive message :=
  | M_genesis (index : N)
  | M_payout (edge : EdgeId) (index : N) (owner : Key)
  | M_reshape_coin (network : NetworkId) (inputs : list CoinId) (index : N) (owner : Key)
  | M_edge (funding : Funding) (terms : TermsHash)
  | M_open (network : NetworkId) (edge : EdgeId)
  | M_close (network : NetworkId) (edge : EdgeId) (kind : CloseKind) (terms : TermsHash)
      (outputs : list Payout)
  | M_terms (body : TermsBody)
  | M_earned (network : NetworkId) (certificate : EarnedCertificate)
  | M_no_earned (edge : EdgeId) (terms : TermsHash)
  | M_settlement (network : NetworkId) (edge : EdgeId) (terms : TermsHash) (amount : N)
  | M_start (network : NetworkId) (edge : EdgeId) (terms : TermsHash) (role : Party)
      (from through : N) (earned : PayloadHash)
  | M_start_id (digest : PayloadHash) (height : N)
  | M_respond (network : NetworkId) (edge : EdgeId) (terms : TermsHash) (start : StartId)
      (role : Party) (earned : PayloadHash)
  | M_adjudicated (network : NetworkId) (edge : EdgeId) (terms : TermsHash) (c : contest_fields)
  | M_freeze (network : NetworkId) (edge : EdgeId) (terms : TermsHash) (settlement : bytes)
      (from through : N)
  | M_reshape (network : NetworkId) (inputs : list CoinId) (outputs : list Payout)
  | M_chunk_id (network : NetworkId) (namespace : RegistryNamespace) (key : bytes) (index : N).

(** What the source feeds its hasher for each message, in order. *)
Definition message_writes (m : message) : list bytes :=
  match m with
  | M_genesis index => [COIN_GENESIS; encode_to u32 index]
  | M_payout edge index owner => CoinId_payout_writes edge index owner
  | M_reshape_coin network inputs index owner => CoinId_reshape_writes network inputs index owner
  | M_edge funding terms => edge_id_writes funding terms
  | M_open network edge => open_hash_writes network edge
  | M_close network edge kind terms outputs => payload_hash_writes network edge kind terms outputs
  | M_terms body => [TermsBody_domain body; encode_to TermsBody_codec body]
  | M_earned network certificate => earned_preimage network certificate
  | M_no_earned edge terms => no_earned_preimage edge terms
  | M_settlement network edge terms amount => settlement_preimage network edge terms amount
  | M_start network edge terms role from through earned =>
      start_preimage network edge terms role (from, through) earned
  | M_start_id digest height => start_id_preimage digest height
  | M_respond network edge terms start role earned =>
      response_preimage network edge terms start role earned
  | M_adjudicated network edge terms c => adjudicated_preimage network edge terms
      (mk_PendingPaymentClose edge Maker (cf_start_id c) (cf_deadline c) (cf_start c) (cf_final c)
         false (cf_due c) (cf_amount c) (cf_signed c))
  | M_freeze network edge terms settlement from through =>
      [WORK_FREEZE_CLOSE; NetworkId_encode_to network; encode_to EdgeId_codec edge;
       encode_to TermsHash_codec terms; encode_to (array HASH_LENGTH) settlement;
       encode_to u64 from; encode_to u64 through]
  | M_reshape network inputs outputs => reshape_hash_writes network inputs outputs
  | M_chunk_id network namespace key index =>
      RegistryChunkId_derive_writes network namespace key index
  end.

(** The fields are values of their Rust types. *)
Definition message_wf (m : message) : Prop :=
  match m with
  | M_genesis index => wf u32 index = true
  | M_payout edge index owner =>
      wf EdgeId_codec edge = true /\ wf usize index = true /\ wf Key_codec owner = true
  | M_reshape_coin network inputs index owner =>
      NetworkId_wf network /\ wf Inputs_codec inputs = true /\ wf usize index = true /\
      wf Key_codec owner = true
  | M_edge funding terms => wf Funding_codec funding = true /\ wf TermsHash_codec terms = true
  | M_open network edge => NetworkId_wf network /\ wf EdgeId_codec edge = true
  | M_close network edge kind terms outputs =>
      NetworkId_wf network /\ wf EdgeId_codec edge = true /\ wf TermsHash_codec terms = true /\
      wf Payouts_codec outputs = true
  | M_terms body => wf TermsBody_codec body = true
  | M_earned network certificate =>
      NetworkId_wf network /\ wf EarnedCertificate_codec certificate = true
  | M_no_earned edge terms => wf EdgeId_codec edge = true /\ wf TermsHash_codec terms = true
  | M_settlement network edge terms amount =>
      NetworkId_wf network /\ wf EdgeId_codec edge = true /\ wf TermsHash_codec terms = true /\
      wf u64 amount = true
  | M_start network edge terms role from through earned =>
      NetworkId_wf network /\ wf EdgeId_codec edge = true /\ wf TermsHash_codec terms = true /\
      wf u64 from = true /\ wf u64 through = true /\ wf PayloadHash_codec earned = true
  | M_start_id digest height => wf PayloadHash_codec digest = true /\ wf u64 height = true
  | M_respond network edge terms start role earned =>
      NetworkId_wf network /\ wf EdgeId_codec edge = true /\ wf TermsHash_codec terms = true /\
      wf StartId_codec start = true /\ wf PayloadHash_codec earned = true
  | M_adjudicated network edge terms c =>
      NetworkId_wf network /\ wf EdgeId_codec edge = true /\ wf TermsHash_codec terms = true /\
      wf StartId_codec (cf_start_id c) = true /\ wf u64 (cf_deadline c) = true /\
      wf u64 (cf_start c) = true /\ wf u64 (cf_final c) = true /\ wf u64 (cf_amount c) = true
  | M_freeze network edge terms settlement from through =>
      NetworkId_wf network /\ wf EdgeId_codec edge = true /\ wf TermsHash_codec terms = true /\
      wf (array HASH_LENGTH) settlement = true /\ wf u64 from = true /\ wf u64 through = true
  | M_reshape network inputs outputs =>
      NetworkId_wf network /\ wf Inputs_codec inputs = true /\ wf Payouts_codec outputs = true
  | M_chunk_id network namespace key index =>
      NetworkId_wf network /\ wf (array ID_LENGTH) key = true /\ wf u8 index = true
  end.

Definition message_domain (m : message) : bytes :=
  match m with
  | M_genesis _ => COIN_GENESIS
  | M_payout _ _ _ => COIN_PAYOUT
  | M_reshape_coin _ _ _ _ => COIN_RESHAPE
  | M_edge _ _ => EDGE_OPEN
  | M_open _ _ => OPEN
  | M_close _ _ _ _ _ => CLOSE
  | M_terms body => TermsBody_domain body
  | M_earned _ _ => WORK_EARNED_CERTIFICATE
  | M_no_earned _ _ => WORK_NO_EARNED_CERTIFICATE
  | M_settlement _ _ _ _ => WORK_SETTLEMENT_STATE
  | M_start _ _ _ _ _ _ _ => WORK_START_PAYMENT_CLOSE
  | M_start_id _ _ => WORK_START_PAYMENT_CLOSE_ID
  | M_respond _ _ _ _ _ _ => WORK_RESPOND_PAYMENT_CLOSE
  | M_adjudicated _ _ _ _ => WORK_ADJUDICATED_PAYMENT_CLOSE
  | M_freeze _ _ _ _ _ _ => WORK_FREEZE_CLOSE
  | M_reshape _ _ _ => OWNER_RESHAPE
  | M_chunk_id _ _ _ _ => REGISTRY_CHUNK_ID
  end.

(** The rest of the preimage. *)
Definition message_body (m : message) : bytes := concat (drop 1 (message_writes m)).

Lemma message_split m : concat (message_writes m) = message_domain m ++ message_body m.
Proof. by destruct m. Qed.

(** ** Domain separation *)

(** Two domains that differ at a position both have. *)
Fixpoint diverge (d d' : bytes) : bool :=
  match d, d' with
  | x :: d, y :: d' => negb (bool_decide (x = y)) || diverge d d'
  | _, _ => false
  end.

Lemma diverge_app d d' r r' : diverge d d' = true -> d ++ r <> d' ++ r'.
Proof.
  revert d'. induction d as [|x d IH]; intros [|y d']; simpl; try done.
  intros [Hd|Hd]%orb_true_iff Heq; injection Heq as -> Heq; [|by eapply IH].
  by rewrite bool_decide_eq_true_2 in Hd.
Qed.

Definition DOMAINS : list bytes :=
  [COIN_GENESIS; COIN_PAYOUT; COIN_RESHAPE; EDGE_OPEN; OPEN; CLOSE; TERMS_BASIC; TERMS_WORK_PAYMENT;
   TERMS_WORK_STAKE_BOND; WORK_EARNED_CERTIFICATE; WORK_NO_EARNED_CERTIFICATE; WORK_SETTLEMENT_STATE;
   WORK_START_PAYMENT_CLOSE; WORK_START_PAYMENT_CLOSE_ID; WORK_RESPOND_PAYMENT_CLOSE;
   WORK_ADJUDICATED_PAYMENT_CLOSE; WORK_FREEZE_CLOSE; OWNER_RESHAPE; REGISTRY_CHUNK_ID].

Lemma domains_diverge :
  forallb (fun d => forallb (fun d' => bool_decide (d = d') || diverge d d') DOMAINS) DOMAINS = true.
Proof. vm_compute. reflexivity. Qed.

Lemma message_domain_listed m : message_domain m ∈ DOMAINS.
Proof. apply list_elem_of_In. destruct m as [| | | | | |[]| | | | | | | | | |]; simpl; tauto. Qed.

Lemma message_domain_eq m m' :
  concat (message_writes m) = concat (message_writes m') ->
  message_domain m = message_domain m' /\ message_body m = message_body m'.
Proof.
  rewrite !message_split. intros Heq. pose proof domains_diverge as Hall.
  rewrite forallb_forall in Hall.
  specialize (Hall _ (proj1 (list_elem_of_In _ _) (message_domain_listed m))).
  rewrite forallb_forall in Hall.
  specialize (Hall _ (proj1 (list_elem_of_In _ _) (message_domain_listed m'))).
  apply orb_true_iff in Hall as [Hd|Hd]; [|by destruct (diverge_app _ _ _ _ Hd Heq)].
  apply bool_decide_eq_true in Hd. split; [done|]. rewrite Hd in Heq. by apply app_inv_head in Heq.
Qed.

(** Messages with one domain are of one kind. *)
Definition message_kind (m : message) : nat :=
  match m with
  | M_genesis _ => 0 | M_payout _ _ _ => 1 | M_reshape_coin _ _ _ _ => 2 | M_edge _ _ => 3
  | M_open _ _ => 4 | M_close _ _ _ _ _ => 5 | M_terms _ => 6 | M_earned _ _ => 7
  | M_no_earned _ _ => 8 | M_settlement _ _ _ _ => 9 | M_start _ _ _ _ _ _ _ => 10
  | M_start_id _ _ => 11 | M_respond _ _ _ _ _ _ => 12 | M_adjudicated _ _ _ _ => 13
  | M_freeze _ _ _ _ _ _ => 14 | M_reshape _ _ _ => 15 | M_chunk_id _ _ _ _ => 16
  end.

(** The kind of a domain. *)
Definition domain_kind (d : bytes) : nat :=
  match list_find (fun d' => d = d') DOMAINS with
  | Some (i, _) => nth i [0; 1; 2; 3; 4; 5; 6; 6; 6; 7; 8; 9; 10; 11; 12; 13; 14; 15; 16]%nat 17%nat
  | None => 17
  end.

Lemma message_domain_kind m : domain_kind (message_domain m) = message_kind m.
Proof. by destruct m as [| | | | | |[]| | | | | | | | | |]; vm_compute. Qed.

(** ** Unambiguous preimages *)

(** The fields of a message's body, in order. *)
Ltac open_body H :=
  unfold message_body in H;
  cbn [message_writes drop concat CoinId_payout_writes CoinId_reshape_writes edge_id_writes
       open_hash_writes payload_hash_writes earned_preimage no_earned_preimage settlement_preimage
       start_preimage start_id_preimage response_preimage adjudicated_preimage reshape_hash_writes
       RegistryChunkId_derive_writes pending_start_id pending_response_deadline
       pending_start_cumulative pending_final_cumulative pending_penalty_due
       pending_penalty_amount pending_owner_signed fst snd] in H.

(** Peels the fields of two equal preimages of one kind. *)
Ltac peel H :=
  repeat first
    [ match type of H with NetworkId_encode_to _ ++ _ = NetworkId_encode_to _ ++ _ =>
        apply NetworkId_encode_app_inj in H as [? H]; [|done..] end
    | match type of H with encode_to ?cd _ ++ _ = encode_to ?cd _ ++ _ =>
        apply (encode_app_inj cd) in H as [? H]; [|done..] end ].

Lemma flag_inj a b : flag a = flag b -> a = b.
Proof. by destruct a, b. Qed.

Lemma flag_wf b : wf u8 (flag b) = true.
Proof. by destruct b. Qed.

Lemma kind_tag_wf k : wf u8 (CloseKind_tag k) = true.
Proof. by destruct k. Qed.

Lemma kind_tag_inj k k' : CloseKind_tag k = CloseKind_tag k' -> k = k'.
Proof. by destruct k, k'. Qed.

Lemma certificate_fields_wf c :
  wf EarnedCertificate_codec c = true ->
  wf EdgeId_codec (cert_payment_edge c) = true /\ wf TermsHash_codec (cert_payment_terms_hash c) = true.
Proof. destruct c. cbn [wf EarnedCertificate_codec EarnedCertificate_wf]. intros. by bool_simpl. Qed.

#[local] Hint Resolve flag_wf kind_tag_wf : core.

Lemma message_inj_kind m m' :
  message_kind m = message_kind m' -> message_wf m -> message_wf m' ->
  message_body m = message_body m' -> m = m'.
Proof.
  destruct m, m'; try done; intros _ Hw Hw' Hb; cbn [message_wf] in Hw, Hw'; open_body Hb.
  all: try (destruct_and?; peel Hb; by subst).
  - destruct funding as [mk tk], funding0 as [mk' tk']. cbn [wf Funding_codec Funding_wf] in Hw, Hw'.
    cbn [Funding_maker Funding_taker] in Hb. destruct_and?. bool_simpl. peel Hb. by subst.
  - destruct_and?. peel Hb. match goal with E : CloseKind_tag _ = CloseKind_tag _ |- _ =>
      apply kind_tag_inj in E end. by subst.
  - destruct Hw as [Hn Hc], Hw' as [Hn' Hc']. pose proof (certificate_fields_wf _ Hc) as [? ?].
    pose proof (certificate_fields_wf _ Hc') as [? ?]. peel Hb. by subst.
  - destruct c as [c1 c2 c3 c4 c5 c6 [c7 c8]], c0 as [d1 d2 d3 d4 d5 d6 [d7 d8]].
    cbn [cf_start_id cf_deadline cf_start cf_final cf_due cf_amount cf_signed fst snd] in *.
    destruct_and?. peel Hb. repeat match goal with E : flag _ = flag _ |- _ => apply flag_inj in E end.
    by subst.
Qed.

(** C39: nothing the kernel hashes can be mistaken for anything else it hashes: the
    preimages of all its ids, signed digests and commitments are pairwise
    distinct, across kinds, networks and every field.  In particular a signature
    over an action on one network says nothing about any other network. *)
Theorem preimage_injective m m' :
  message_wf m -> message_wf m' ->
  concat (message_writes m) = concat (message_writes m') -> m = m'.
Proof.
  intros Hw Hw' [Hd Hb]%message_domain_eq. apply message_inj_kind; [|done..].
  by rewrite <- !message_domain_kind, Hd.
Qed.

(** ** Hashing never panics *)

Section fits.
  Context `{Blake3}.

Lemma encoded_length_bound {A} (cd : Codec A) `{!Lawful cd} x k :
  N.of_nat (MAX_ENCODED_SIZE cd) = k -> wf cd x = true ->
  N.of_nat (length (encode_to cd x)) <= k.
Proof. intros <- Hx. pose proof (encoded_size_max x Hx). lia. Qed.

Lemma network_length_bound n : NetworkId_wf n -> N.of_nat (length (NetworkId_encode_to n)) <= 64.
Proof. intros Hn%NetworkId_encode_length. unfold MAX_NETWORK_ID_LENGTH in Hn. lia. Qed.

(** Bounds every field of a preimage by its codec's largest size. *)
Ltac bound_fields :=
  repeat match goal with
  | |- context [N.of_nat (length (encode_to ?cd ?x))] =>
      let k := eval vm_compute in (N.of_nat (MAX_ENCODED_SIZE cd)) in
      let E := fresh "E" in
      pose proof (encoded_length_bound cd x k eq_refl ltac:(auto)) as E; revert E;
      generalize (N.of_nat (length (encode_to cd x))); intros ? ?
  | |- context [N.of_nat (length (NetworkId_encode_to ?n))] =>
      let E := fresh "E" in
      pose proof (network_length_bound n ltac:(auto)) as E; revert E;
      generalize (N.of_nat (length (NetworkId_encode_to n))); intros ? ?
  end.

Lemma message_domain_length m : N.of_nat (length (message_domain m)) <= 48.
Proof. destruct m as [| | | | | |[]| | | | | | | | | |]; vm_compute; done. Qed.

Lemma message_body_length m : message_wf m -> N.of_nat (length (message_body m)) <= 4000.
Proof.
  destruct m; remember (message_body _) as preimage eqn:Hb; cbn [message_wf]; intros Hw; destruct_and?;
    open_body Hb; subst preimage;
    rewrite !length_app, !Nat2N.inj_add; change (N.of_nat (length [])) with 0.
  all: try (bound_fields; lia).
  - destruct funding as [mk tk]. cbn [wf Funding_codec Funding_wf Funding_maker Funding_taker] in *.
    bool_simpl. bound_fields. lia.
  - destruct (certificate_fields_wf _ H1). bound_fields. lia.
Qed.

(** The Xet hash the kernel takes of a message. *)
Definition message_hash (m : message) : bytes := xet_hash (concat (message_writes m)).

(** Every digest, id and commitment of the kernel is the hash of its message. *)
Lemma kernel_digests network edge terms outputs funding full kind inputs owner index role from through
    digest height sid certificate amount record namespace key :
  CoinId_genesis index = CoinId_from_bytes (message_hash (M_genesis index)) /\
  CoinId_payout edge index owner = CoinId_from_bytes (message_hash (M_payout edge index owner)) /\
  CoinId_reshape network inputs index owner =
    CoinId_from_bytes (message_hash (M_reshape_coin network inputs index owner)) /\
  edge_id funding terms = EdgeId_from_bytes (message_hash (M_edge funding terms)) /\
  Tx_open_hash network funding full =
    PayloadHash_from_bytes (message_hash (M_open network (Tx_edge_id_of funding full))) /\
  Tx_payload_hash network edge kind terms outputs =
    PayloadHash_from_bytes (message_hash (M_close network edge kind terms outputs)) /\
  TermsBody_compute_hash (Terms_body full) =
    TermsHash_from_bytes (message_hash (M_terms (Terms_body full))) /\
  EarnedCertificate_digest certificate network =
    PayloadHash_from_bytes (message_hash (M_earned network certificate)) /\
  no_earned_digest edge terms = PayloadHash_from_bytes (message_hash (M_no_earned edge terms)) /\
  start_digest network edge terms role (from, through) digest =
    PayloadHash_from_bytes (message_hash (M_start network edge terms role from through digest)) /\
  start_id digest height = StartId_from_bytes (message_hash (M_start_id digest height)) /\
  response_digest network edge terms sid role digest =
    PayloadHash_from_bytes (message_hash (M_respond network edge terms sid role digest)) /\
  PendingPaymentClose_contest_commitment record network edge terms =
    PaymentContestCommitment_from_bytes (message_hash (M_adjudicated network edge terms
      (mk_contest_fields (pending_start_id record) (pending_response_deadline record)
         (pending_start_cumulative record) (pending_final_cumulative record)
         (pending_penalty_due record) (pending_penalty_amount record) (pending_owner_signed record)))) /\
  freeze_digest network edge terms amount (from, through) =
    PayloadHash_from_bytes (message_hash (M_freeze network edge terms
      (message_hash (M_settlement network edge terms amount)) from through)) /\
  Reshape_payload_hash network inputs outputs =
    PayloadHash_from_bytes (message_hash (M_reshape network inputs outputs)) /\
  RegistryChunkId_derive network namespace key index =
    RegistryChunkId_from_bytes (message_hash (M_chunk_id network namespace key index)).
Proof.
  split_and!; try reflexivity; unfold CoinId_genesis, TermsBody_compute_hash, canonical_hash,
    message_hash; cbn [message_writes concat]; by rewrite app_nil_r.
Qed.

(** Hashing never panics: every preimage of well-typed fields stays below the
    single-chunk bound of the hasher, and feeding it write by write gives the
    hash of the whole. *)
Theorem message_hash_total m :
  message_wf m -> hash_writes (message_writes m) = Some (message_hash m).
Proof.
  intros Hw. apply hash_writes_xet. rewrite message_split, length_app.
  pose proof (message_domain_length m). pose proof (message_body_length m Hw).
  unfold MIN_CHUNK_SIZE. lia.
Qed.
End fits.
