(* ===== verification/Wire.v ===== *)
(** * What is written reads back

    The transaction wire format, the objects and registry records a host stores,
    the streaming hasher, and the arithmetic of fees and block budgets. *)

From S2P Require Import Prelude Xet Canonical Primitive Errors BoundedList Context Auth Objects.
From S2P Require Import Registry View Store Event Terms Work Lease Tx WorkTx OpenTx CloseTx.
From S2P Require Import Apply State Spec Validate Conservation Invariant.

#[local] Open Scope N_scope.

(** The sum of the costs of a list of operations. *)
Definition costs_total (costs : list Cost) : Cost :=
  Cost_new (sumN Cost_base costs) (sumN Cost_slots costs) (sumN Cost_proofs costs).

Definition cost_fits_u64 (c : Cost) : Prop :=
  Cost_base c <= U64_MAX /\ Cost_slots c <= U64_MAX /\ Cost_proofs c <= U64_MAX.

Lemma Cost_checked_add_Some a b c :
  Cost_checked_add a b = Some c <->
  c = Cost_new (Cost_base a + Cost_base b) (Cost_slots a + Cost_slots b) (Cost_proofs a + Cost_proofs b)
  /\ cost_fits_u64 c.
Proof.
  unfold Cost_checked_add, cost_fits_u64. split.
  - intros Hc. repeat (apply bind_Some in Hc as (? & [-> ?]%checked_add_Some & Hc)).
    injection Hc as <-. done.
  - intros [-> (H1 & H2 & H3)]. simpl in *.
    rewrite (proj2 (checked_add_Some _ _ _) (conj eq_refl H1)). simpl.
    rewrite (proj2 (checked_add_Some _ _ _) (conj eq_refl H2)). simpl.
    by rewrite (proj2 (checked_add_Some _ _ _) (conj eq_refl H3)).
Qed.

Lemma foldl_cost_None ops :
  foldl (fun acc op => cost ← acc; Cost_checked_add cost (Tx_cost op)) None ops = None.
Proof. induction ops; simpl; auto. Qed.

Lemma foldl_cost_Some ops a c :
  cost_fits_u64 a ->
  foldl (fun acc op => cost ← acc; Cost_checked_add cost (Tx_cost op)) (Some a) ops = Some c <->
  c = costs_total (a :: map Tx_cost ops) /\ cost_fits_u64 c.
Proof.
  revert a. induction ops as [|op ops IH]; intros a Ha; simpl.
  - unfold costs_total. simpl. rewrite !N.add_0_r. destruct a. split; [by intros [= <-]|]. by intros [-> _].
  - destruct (Cost_checked_add a (Tx_cost op)) as [b|] eqn:E.
    + apply Cost_checked_add_Some in E as [-> Hb]. rewrite IH by done. unfold costs_total. simpl.
      by rewrite !N.add_assoc.
    + rewrite foldl_cost_None. split; [done|]. intros [-> (H1 & H2 & H3)].
      assert (Cost_checked_add a (Tx_cost op) = Some (Cost_new (Cost_base a + Cost_base (Tx_cost op))
        (Cost_slots a + Cost_slots (Tx_cost op)) (Cost_proofs a + Cost_proofs (Tx_cost op)))) as Hs;
        [|congruence].
      apply Cost_checked_add_Some. unfold costs_total in *. simpl in *. split; [done|].
      unfold cost_fits_u64. simpl. lia.
Qed.

(** A block fits a budget exactly when the sum of its operations' costs does,
    with no component overflowing a [u64]. *)
Theorem Block_fits_exact block budget :
  let total := costs_total (map Tx_cost (Block_ops block)) in
  Block_fits block budget = true <->
  cost_fits_u64 total /\ Cost_fits total budget = true.
Proof.
  intros total. unfold Block_fits. destruct (Block_cost block) as [c|] eqn:E; unfold Block_cost in E.
  - apply foldl_cost_Some in E as [-> Hf]; [|done]. by split; [|intros [_ ?]].
  - split; [done|]. intros [Hf _]. assert (foldl (fun acc op => cost ← acc;
      Cost_checked_add cost (Tx_cost op)) (Some (Cost_new 0 0 0)) (Block_ops block) = Some total);
      [|congruence].
    apply foldl_cost_Some; [done|]. by split.
Qed.

(** A fee is exact or refused: the charge is the price per unit times the
    units, summed, and [None] exactly when that sum does not fit a [u64]. *)
Theorem Fees_charge_exact fees cost :
  let price := Fees_base fees * Cost_base cost + Fees_slot fees * Cost_slots cost
               + Fees_proof fees * Cost_proofs cost in
  Fees_charge fees cost = if price <=? U64_MAX then Some price else None.
Proof.
  intros price. change price with (Fees_price fees cost). clear price.
  destruct (N.leb_spec (Fees_price fees cost) U64_MAX).
  - by apply Fees_charge_Some.
  - destruct (Fees_charge fees cost) as [v|] eqn:E; [|done]. apply Fees_charge_Some in E. lia.
Qed.

(** The bounded lists behave as the lists they hold: of an array of the
    capacity, [new] is refused exactly when the length exceeds it, [take] never
    is, mapping maps the live entries, and equality ignores the dead tail. *)
Theorem List_refines_list {A B} `{EqDecision A} (cap : nat) (items : list A) (len : nat) (fill : B)
    (f : A -> B) (self other : List A) l k :
  length items = cap -> represents cap self l -> represents cap other k ->
  (List_new items len = None <-> (cap < len)%nat) /\
  (forall made, List_new items len = Some made -> represents cap made (take len items)) /\
  represents cap (List_take items len) (take len items) /\
  (exists mapped, List_map self fill f = Some mapped /\ represents cap mapped (map f l)) /\
  (List_eqb self other = true <-> l = k).
Proof.
  intros Hc Hs Ho. split_and!.
  - unfold List_new. rewrite Hc. destruct (Nat.ltb_spec cap len); split; try done. lia.
  - intros made Hm. by eapply List_new_represents.
  - by apply List_take_represents.
  - by apply List_map_represents.
  - by eapply List_eqb_represents.
Qed.

Section wire.
  Context `{Blake3}.

(** The streaming hasher is the hash of the concatenation, however the writes
    are cut, and refuses exactly the inputs that reach the single-chunk bound. *)
Theorem hasher_streams writes :
  hash_writes writes =
    if N.of_nat (length (concat writes)) <? MIN_CHUNK_SIZE
    then Some (xet_hash (concat writes)) else None.
Proof.
  destruct (N.ltb_spec (N.of_nat (length (concat writes))) MIN_CHUNK_SIZE) as [|Hge].
  - by apply hash_writes_xet.
  - unfold hash_writes. rewrite hasher_writes_spec by done. destruct (decide (writes = [])) as [->|].
    + by vm_compute in Hge.
    + destruct (N.ltb_spec (hasher_len SingleChunkHasher_new + N.of_nat (length (concat writes)))
        MIN_CHUNK_SIZE) as [Hlt|]; [simpl in Hlt; lia|done].
Qed.

(** C40: the transaction encoding is canonical: bytes decode to a transaction
    exactly when they are its one encoding, so every transaction reads back and
    no second encoding of it is accepted. *)
Theorem Tx_codec_exact buf tx :
  decode_exact Tx_codec buf = Ok tx <-> wf Tx_codec tx = true /\ buf = encode_to Tx_codec tx.
Proof. apply (decode_exact_iff Tx_codec). Qed.

(** Writing a transaction never panics: its size hint is its encoded length,
    within the published maximum, and [write_to] fills any buffer of that
    maximum with the encoding and leaves the rest. *)
Theorem Tx_write_exact tx buf :
  wf Tx_codec tx = true -> (MAX_ENCODED_SIZE Tx_codec <= length buf)%nat ->
  encoded_size Tx_codec tx = length (encode_to Tx_codec tx) /\
  (length (encode_to Tx_codec tx) <= MAX_ENCODED_SIZE Tx_codec)%nat /\
  write_to Tx_codec tx buf =
    Some (encode_to Tx_codec tx ++ drop (length (encode_to Tx_codec tx)) buf,
          length (encode_to Tx_codec tx)).
Proof.
  intros Hw Hb. pose proof (encoded_size_exact (cd := Tx_codec) tx Hw) as Hs. split_and!.
  - done.
  - by apply (encoded_size_max (cd := Tx_codec)).
  - rewrite <- Hs at 2. by apply (write_to_ok Tx_codec).
Qed.

(** Every object of a well-formed state survives storage: the id and the
    value of each coin, edge and registry chunk decode from their own encoding
    to themselves. *)
Theorem stored_objects_roundtrip s :
  KState_wf s ->
  (forall id c, ks_coins s !! id = Some c ->
     decode_exact CoinId_codec (encode_to CoinId_codec id) = Ok id /\
     decode_exact Coin_codec (encode_to Coin_codec c) = Ok c) /\
  (forall id e, ks_edges s !! id = Some e ->
     decode_exact EdgeId_codec (encode_to EdgeId_codec id) = Ok id /\
     decode_exact Edge_codec (encode_to Edge_codec e) = Ok e) /\
  (forall id c, ks_registry s !! id = Some c ->
     decode_exact RegistryChunkId_codec (encode_to RegistryChunkId_codec id) = Ok id /\
     decode_exact RegistryChunk_codec (encode_to RegistryChunk_codec c) = Ok c).
Proof.
  intros [Hc He Hr]. split_and!; intros id x Hx;
    [apply Hc in Hx as [Hi Hv]|apply He in Hx as [Hi Hv]|apply Hr in Hx as [Hi Hv]].
  - split; [by apply (decode_exact_encode CoinId_codec)|by apply (decode_exact_encode Coin_codec)].
  - split; [by apply (decode_exact_encode EdgeId_codec)|by apply (decode_exact_encode Edge_codec)].
  - split; [by apply (decode_exact_encode RegistryChunkId_codec)
           |by apply (decode_exact_encode RegistryChunk_codec)].
Qed.
End wire.

(** ** Registry records *)

Lemma full_slice value : (length value <= REGISTRY_CHUNK_DATA_CAPACITY)%nat -> value_slice value 0 = value.
Proof. intros Hl. unfold value_slice. rewrite drop_0. by apply take_ge. Qed.

(** A pending-close record reads back from a canonical chunk exactly when the
    chunk is the one the record is written to, under its own edge: one chunk per
    record and one record per chunk. *)
Theorem pending_record_exact chunk edge record :
  wf RegistryChunk_codec chunk = true ->
  PendingPaymentClose_from_chunk chunk edge = Ok record <->
  wf PendingPaymentClose_codec record = true /\ pending_payment_edge record = edge /\
  PendingPaymentClose_to_chunk record = Some chunk.
Proof.
  intros Hc. split.
  - intros Hf. pose proof (PendingPaymentClose_from_chunk_Ok _ _ _ Hf) as (Hw & He & Hd).
    split_and!; [done|done|]. rewrite PendingPaymentClose_to_chunk_split by done.
    unfold PendingPaymentClose_from_chunk in Hf. inv_ok_step. bool_simpl.
    match goal with Hn : chunk_namespace _ = _, Ht : chunk_record_tag _ = _, Hi : chunk_index _ = 0 |- _ =>
      rewrite <- Hn, <- Ht, <- Hi end.
    apply chunk_is_split; [done|by rewrite (fixed_size record Hw)|].
    rewrite Hd. match goal with Hi : chunk_index _ = 0 |- _ => rewrite Hi end.
    symmetry. apply full_slice. rewrite (fixed_size record Hw). vm_compute. lia.
  - intros (Hw & <- & Ht). by apply PendingPaymentClose_from_to_chunk.
Qed.

Lemma reassemble_step_shape state index chunk state' :
  (index < 2)%nat -> BondLease_reassemble_step state (index, chunk) = Ok state' ->
  lease_chunk_shape index chunk.
Proof.
  destruct state as [buf written]. intros Hi Hs. unfold BondLease_reassemble_step in Hs. inv_ok.
  bool_simpl. subst. by split_and!.
Qed.

Lemma chunk_data_expected c :
  wf RegistryChunk_codec c = true ->
  RegistryChunk_expected_data_len (chunk_value_len c) (chunk_index c) (chunk_count c)
    = Some (N.of_nat (length (RegistryChunk_data c))).
Proof.
  destruct c as [ns tag index count value_len data_len buf]. cbn [wf RegistryChunk_codec].
  unfold RegistryChunk_wf. intros Hw. bool_simpl. unfold RegistryChunk_data.
  cbn [chunk_data_len chunk_data_buf chunk_index chunk_count chunk_value_len] in *.
  destruct (Nat.leb_spec (N.to_nat data_len) (length buf)); [|lia].
  rewrite length_take, Nat.min_l, N2Nat.id by lia. done.
Qed.

Lemma lease_chunk_length i c :
  (i < 2)%nat -> wf RegistryChunk_codec c = true -> lease_chunk_shape i c ->
  length (RegistryChunk_data c) = (if (i =? 0)%nat then 120 else 19)%nat.
Proof.
  intros Hi Hw (_ & _ & Hn & Hix & Hv). apply chunk_data_expected in Hw. rewrite Hn, Hix, Hv in Hw.
  destruct i as [|[|]]; [| |lia]; simpl; vm_compute RegistryChunk_expected_data_len in Hw;
    injection Hw; lia.
Qed.

(** A bond lease reads back from two canonical chunks exactly when they are
    the two the lease is written to, in order, under its own bond. *)
Theorem lease_record_exact c0 c1 edge lease :
  wf RegistryChunk_codec c0 = true -> wf RegistryChunk_codec c1 = true ->
  BondLease_from_chunks (c0, c1) edge = Ok lease <->
  wf BondLease_codec lease = true /\ lease_bond_edge lease = edge /\
  BondLease_to_chunks lease = Some (c0, c1).
Proof.
  intros H0 H1. split; [|intros (Hw & <- & Ht); by apply BondLease_from_to_chunks].
  intros Hf. pose proof (BondLease_from_chunks_Ok _ _ _ _ Hf) as [Hw He]. split_and!; [done|done|].
  unfold BondLease_from_chunks in Hf. apply rbind_Ok in Hf as ([buf written] & Hr & Hf).
  pose proof Hr as Hr'. cbn [rfold] in Hr'. apply rbind_Ok in Hr' as (st1 & Hs0 & Hr').
  apply rbind_Ok in Hr' as (st2 & Hs1 & _). apply reassemble_step_shape in Hs0 as Sh0; [|lia].
  apply reassemble_step_shape in Hs1 as Sh1; [|lia]. cbn [fst snd] in *.
  pose proof (lease_chunk_length 0 c0 ltac:(lia) H0 Sh0) as L0.
  pose proof (lease_chunk_length 1 c1 ltac:(lia) H1 Sh1) as L1. simpl in L0, L1.
  rewrite (reassemble_pair c0 c1 Sh0 Sh1) in Hr by lia. injection Hr as <- <-. inv_ok. bool_simpl.
  match goal with Hd : decode_exact _ _ = Ok _ |- _ =>
    apply (decode_exact_sound BondLease_codec) in Hd as [_ Hd'] end.
  subst. rename Hd' into Hd. rewrite take_ge in Hd by (rewrite length_app; lia).
  destruct (BondLease_to_chunks_Some lease Hw) as (c0' & c1' & -> & Hc0 & Hc1). rewrite <- Hd in Hc0, Hc1.
  destruct Sh0 as (Hn0 & Ht0 & _ & Hi0 & Hv0), Sh1 as (Hn1 & Ht1 & _ & Hi1 & Hv1).
  change (chunk_index c0 = 0) in Hi0. change (chunk_index c1 = 1) in Hi1.
  assert (Hl : N.of_nat (length (RegistryChunk_data c0 ++ RegistryChunk_data c1)) = 139)
    by (rewrite length_app; lia).
  pose proof (chunk_is_split c0 (RegistryChunk_data c0 ++ RegistryChunk_data c1) H0) as Hs0'.
  rewrite Hn0, Ht0, Hi0, Hc0 in Hs0'.
  pose proof (chunk_is_split c1 (RegistryChunk_data c0 ++ RegistryChunk_data c1) H1) as Hs1'.
  rewrite Hn1, Ht1, Hi1, Hc1 in Hs1'.
  assert (Some c0' = Some c0) as [= ->].
  { apply Hs0'; [congruence|]. unfold value_slice. rewrite drop_0.
    by rewrite take_app_length' by (rewrite L0; done). }
  assert (Some c1' = Some c1) as [= ->]; [|done].
  apply Hs1'; [congruence|]. unfold value_slice.
  rewrite drop_app_length' by (rewrite L0; done). by rewrite take_ge by (rewrite L1; vm_compute; lia).
Qed.
