(* ===== verification/PaidWork.v ===== *)
(** * Paid-work records (crates/channel/src/model/work.rs)

    The private records two channel endpoints sign beside the kernel's
    certificates: the channel and its credit policy, the job authorization, the
    provider's result, the client's payment binding, their digests, the rule that
    builds the one payment a result may be settled by, and the ledger that
    credits it.  Commitments of the invocation protocol ([ContentId],
    [RequestCommitment], [EventCommitment]) are 32-byte digests. *)

From S2P Require Import Prelude Xet Canonical Primitive Errors Context Auth Objects Registry.
From S2P Require Import Store Terms Work.

#[local] Open Scope N_scope.

(** ** Digests and references *)

(* [crates/xet/src/lib.rs:75-75] XetHash *)
Record Digest := Digest_from_bytes { Digest_bytes : bytes }.

#[export] Instance Digest_eq_dec : EqDecision Digest.
Proof. solve_decision. Defined.
#[export] Program Instance Digest_countable : Countable Digest :=
  inj_countable' Digest_bytes Digest_from_bytes _.
Next Obligation. by intros []. Qed.

Definition Digest_wf (d : Digest) : bool := (length (Digest_bytes d) =? XetHash_LEN)%nat.

(* [crates/rpc/src/protocol/content.rs:10-13] ContentRef *)
Record ContentRef := ContentRef_new { ref_id : Digest; ref_bytes : N }.

(* [crates/rpc/src/protocol/retention.rs:6-10] Retention *)
Inductive Retention := Ephemeral | Retain.

#[export] Instance ContentRef_eq_dec : EqDecision ContentRef.
Proof. solve_decision. Defined.
#[export] Instance Retention_eq_dec : EqDecision Retention.
Proof. solve_decision. Defined.

(** ** Domains and tags *)

Definition CHANNEL : bytes := domain "hellas.work.channel.v2".
Definition PAID_CHANNEL_POLICY : bytes := domain "hellas.work.paid-channel-policy.v1".
Definition JOB_PAYMENT_POLICY : bytes := domain "hellas.work.job-payment-policy.v2".
Definition PAID_JOB_AUTHORIZE : bytes := domain "hellas.work.paid-job-authorize.v2".
Definition PAID_JOB_RESULT : bytes := domain "hellas.work.paid-job-result.v1".
Definition PAYMENT_BINDING : bytes := domain "hellas.work.payment-binding.v1".
Definition DELIVERY_REQUEST : bytes := domain "hellas.work.delivery-request.v1".

Definition RECORD_FORMAT_VERSION : N := 1.
Definition RECORD_ENVELOPE_SIZE : nat := 2.
Definition tag_PAID_CHANNEL_POLICY : N := 0.
Definition tag_PAID_JOB_RESULT : N := 3.
Definition tag_PAYMENT_BINDING : N := 4.
Definition tag_JOB_PAYMENT_POLICY_V2 : N := 8.
Definition tag_PAID_JOB_AUTHORIZATION_V2 : N := 9.

(* [crates/channel/src/model/work.rs:82-184] PaidWorkError *)
Inductive PaidWorkError :=
  | UnknownFormatVersion (actual : N)
  | WrongRecordTag (expected actual : N)
  | RecordLength (expected actual : nat)
  | Mismatch (field : string)
  | PriceOutOfRange (price max_job_price : N)
  | DeadlineOrder (acceptance terminal payment horizon : N)
  | AcceptanceExpired (height deadline : N)
  | PolicyZero (field : string)
  | OverEnvelope (field : string) (actual limit : N)
  | Body (reason : string)
  | Overflow (field : string)
  | OverCapacity (cumulative capacity : N)
  | Transcript (reason : string).

#[export] Instance PaidWorkError_eq_dec : EqDecision PaidWorkError.
Proof. solve_decision. Defined.

(** ** Reading and writing bodies *)

(* [crates/channel/src/model/work.rs:514-516] put_u64 *)
Definition put_u64 (value : N) : bytes := to_be_bytes 8 value.

(** The reader is the bytes left. *)
(* [crates/channel/src/model/work.rs:529-541] BodyReader::take *)
Definition BodyReader_take (n : nat) (reader : bytes) : result (bytes * bytes) PaidWorkError :=
  if (length reader <? n)%nat then Err (RecordLength n (length reader))
  else Ok (take n reader, drop n reader).

Definition BodyReader_bytes32 (reader : bytes) : result (bytes * bytes) PaidWorkError :=
  BodyReader_take 32 reader.

(* [crates/channel/src/model/work.rs:547-549] BodyReader::u64 *)
Definition BodyReader_u64 (reader : bytes) : result (N * bytes) PaidWorkError :=
  let? '(bs, reader) := BodyReader_take 8 reader in Ok (from_be_bytes bs, reader).

Definition BodyReader_digest (reader : bytes) : result (Digest * bytes) PaidWorkError :=
  let? '(bs, reader) := BodyReader_bytes32 reader in Ok (Digest_from_bytes bs, reader).

(* [crates/rpc/src/protocol/content_upload.rs:10-14] encode_reference *)
Definition encode_reference (reference : ContentRef) : bytes :=
  Digest_bytes (ref_id reference) ++ put_u64 (ref_bytes reference).

Definition ContentRef_wf (r : ContentRef) : bool := Digest_wf (ref_id r) && u64_ok (ref_bytes r).

(** ** The fixed records *)

(** The operations of [PrivateRecord]; [record_wf] is what the Rust type
    guarantees of a value (array lengths and integer widths). *)
Record PrivateRecord (R : Type) := mk_PrivateRecord {
  TAG : N;
  BODY_SIZE : nat;
  encode_body : R -> bytes;
  decode_body : bytes -> result (R * bytes) PaidWorkError;
  record_wf : R -> bool;
}.
Arguments mk_PrivateRecord {R}.
Arguments TAG {R}.
Arguments BODY_SIZE {R}.
Arguments encode_body {R}.
Arguments decode_body {R}.
Arguments record_wf {R}.

Definition ENCODED_SIZE {R} (pr : PrivateRecord R) : nat := RECORD_ENVELOPE_SIZE + BODY_SIZE pr.

(* [crates/channel/src/model/work.rs:209-216] PrivateRecord::encode *)
Definition record_encode {R} (pr : PrivateRecord R) (r : R) : bytes :=
  byte_of_N RECORD_FORMAT_VERSION :: byte_of_N (TAG pr) :: encode_body pr r.

(* [crates/channel/src/model/work.rs:223-266] PrivateRecord::decode *)
Definition record_decode {R} (pr : PrivateRecord R) (bs : bytes) : result R PaidWorkError :=
  if negb (length bs =? ENCODED_SIZE pr)%nat then Err (RecordLength (ENCODED_SIZE pr) (length bs))
  else
  match take RECORD_ENVELOPE_SIZE bs with
  | [version; tag] =>
      if Byte.to_N version =? RECORD_FORMAT_VERSION then
        if Byte.to_N tag =? TAG pr then
          let? '(record, rest) := decode_body pr (drop RECORD_ENVELOPE_SIZE bs) in
          match rest with
          | [] => Ok record
          | _ => Err (RecordLength (ENCODED_SIZE pr) (length bs))
          end
        else Err (WrongRecordTag (TAG pr) (Byte.to_N tag))
      else Err (UnknownFormatVersion (Byte.to_N version))
  | _ => Err (RecordLength (ENCODED_SIZE pr) (length bs))
  end.

(* [crates/channel/src/model/work.rs:278-285] PaidChannelPolicyV1 *)
Record PaidChannelPolicyV1 := mk_PaidChannelPolicyV1 {
  compute_credit_limit : N;
  delivery_credit_limit : N;
}.

(* [crates/channel/src/model/work.rs:287-302] PaidChannelPolicyV1 *)
Definition PaidChannelPolicyV1_record : PrivateRecord PaidChannelPolicyV1 := {|
  TAG := tag_PAID_CHANNEL_POLICY;
  BODY_SIZE := 2 * 8;
  encode_body := fun p => put_u64 (compute_credit_limit p) ++ put_u64 (delivery_credit_limit p);
  decode_body := fun reader =>
    let? '(compute, reader) := BodyReader_u64 reader in
    let? '(delivery, reader) := BodyReader_u64 reader in
    Ok (mk_PaidChannelPolicyV1 compute delivery, reader);
  record_wf := fun p => u64_ok (compute_credit_limit p) && u64_ok (delivery_credit_limit p) |}.

(* [crates/channel/src/model/work.rs:306-341] PaidJobAuthorizationV2 *)
Record PaidJobAuthorizationV2 := mk_PaidJobAuthorizationV2 {
  auth_channel_id : Digest;
  work_policy_digest : Digest;
  payment_policy_digest : Digest;
  input_content : ContentRef;
  prepared_input_digest : Digest;
  proposal_nonce : N;
  acceptance_deadline : N;
  request_commitment : Digest;
  environment_commitment : Digest;
  price : N;
  terminal_deadline : N;
  payment_deadline : N;
  retention : Retention;
}.

Definition PaidJobAuthorizationV2_wf (a : PaidJobAuthorizationV2) : bool :=
  Digest_wf (auth_channel_id a) && Digest_wf (work_policy_digest a) &&
  Digest_wf (payment_policy_digest a) && ContentRef_wf (input_content a) &&
  Digest_wf (prepared_input_digest a) && u64_ok (proposal_nonce a) &&
  u64_ok (acceptance_deadline a) && Digest_wf (request_commitment a) &&
  Digest_wf (environment_commitment a) && u64_ok (price a) && u64_ok (terminal_deadline a) &&
  u64_ok (payment_deadline a).

(* [crates/channel/src/model/work.rs:347-366] PaidJobAuthorizationV2::encode_body *)
Definition PaidJobAuthorizationV2_encode_body (a : PaidJobAuthorizationV2) : bytes :=
  Digest_bytes (auth_channel_id a) ++ Digest_bytes (work_policy_digest a) ++
  Digest_bytes (payment_policy_digest a) ++ encode_reference (input_content a) ++
  Digest_bytes (prepared_input_digest a) ++ put_u64 (proposal_nonce a) ++
  put_u64 (acceptance_deadline a) ++ Digest_bytes (request_commitment a) ++
  Digest_bytes (environment_commitment a) ++ put_u64 (price a) ++
  put_u64 (terminal_deadline a) ++ put_u64 (payment_deadline a) ++
  [match retention a with Ephemeral => x00 | Retain => x01 end].

(* [crates/channel/src/model/work.rs:368-393] PaidJobAuthorizationV2::decode_body *)
Definition PaidJobAuthorizationV2_decode_body (reader : bytes)
    : result (PaidJobAuthorizationV2 * bytes) PaidWorkError :=
  let? '(channel_id, reader) := BodyReader_digest reader in
  let? '(work_policy, reader) := BodyReader_digest reader in
  let? '(payment_policy, reader) := BodyReader_digest reader in
  let? '(content_id, reader) := BodyReader_digest reader in
  let? '(content_bytes, reader) := BodyReader_u64 reader in
  let? '(prepared, reader) := BodyReader_digest reader in
  let? '(nonce, reader) := BodyReader_u64 reader in
  let? '(acceptance, reader) := BodyReader_u64 reader in
  let? '(request, reader) := BodyReader_digest reader in
  let? '(environment, reader) := BodyReader_digest reader in
  let? '(price, reader) := BodyReader_u64 reader in
  let? '(terminal, reader) := BodyReader_u64 reader in
  let? '(payment, reader) := BodyReader_u64 reader in
  let? '(flag, reader) := BodyReader_take 1 reader in
  let? retention := match flag with
                    | [x00] => Ok Ephemeral
                    | [x01] => Ok Retain
                    | _ => Err (Mismatch "retention")
                    end in
  Ok (mk_PaidJobAuthorizationV2 channel_id work_policy payment_policy
        (ContentRef_new content_id content_bytes) prepared nonce acceptance request environment
        price terminal payment retention, reader).

(* [crates/channel/src/model/work.rs:343-345] PaidJobAuthorizationV2 *)
Definition PaidJobAuthorizationV2_record : PrivateRecord PaidJobAuthorizationV2 := {|
  TAG := tag_PAID_JOB_AUTHORIZATION_V2;
  BODY_SIZE := 6 * 32 + 5 * 8 + 40 + 1;
  encode_body := PaidJobAuthorizationV2_encode_body;
  decode_body := PaidJobAuthorizationV2_decode_body;
  record_wf := PaidJobAuthorizationV2_wf |}.

(* [crates/channel/src/model/work.rs:399-402] ResultOutcome *)
Inductive ResultOutcome := Finished | ResultFailed.

(* [crates/channel/src/model/work.rs:407-419] PaidJobResultV1 *)
Record PaidJobResultV1 := mk_PaidJobResultV1 {
  result_work_id : Digest;
  terminal_transcript_commitment : Digest;
  canonical_output_digest : Digest;
  result_outcome : ResultOutcome;
  transcript_content : ContentRef;
}.

(* [crates/channel/src/model/work.rs:421-460] PaidJobResultV1 *)
Definition PaidJobResultV1_record : PrivateRecord PaidJobResultV1 := {|
  TAG := tag_PAID_JOB_RESULT;
  BODY_SIZE := 3 * 32 + 1 + 40;
  encode_body := fun r =>
    Digest_bytes (result_work_id r) ++ Digest_bytes (terminal_transcript_commitment r) ++
    Digest_bytes (canonical_output_digest r) ++
    [match result_outcome r with Finished => x00 | ResultFailed => x01 end] ++
    encode_reference (transcript_content r);
  decode_body := fun reader =>
    let? '(work_id, reader) := BodyReader_digest reader in
    let? '(commitment, reader) := BodyReader_digest reader in
    let? '(output, reader) := BodyReader_digest reader in
    let? '(flag, reader) := BodyReader_take 1 reader in
    let? outcome := match flag with
                    | [x00] => Ok Finished
                    | [x01] => Ok ResultFailed
                    | _ => Err (Mismatch "result outcome")
                    end in
    let? '(content_id, reader) := BodyReader_digest reader in
    let? '(content_bytes, reader) := BodyReader_u64 reader in
    Ok (mk_PaidJobResultV1 work_id commitment output outcome
          (ContentRef_new content_id content_bytes), reader);
  record_wf := fun r =>
    Digest_wf (result_work_id r) && Digest_wf (terminal_transcript_commitment r) &&
    Digest_wf (canonical_output_digest r) && ContentRef_wf (transcript_content r) |}.

(* [crates/channel/src/model/work.rs:484-491] PaymentBindingV1 *)
Record PaymentBindingV1 := mk_PaymentBindingV1 {
  binding_work_id : Digest;
  binding_result_digest : Digest;
  certificate_digest : PayloadHash;
}.

(* [crates/channel/src/model/work.rs:493-510] PaymentBindingV1 *)
Definition PaymentBindingV1_record : PrivateRecord PaymentBindingV1 := {|
  TAG := tag_PAYMENT_BINDING;
  BODY_SIZE := 3 * 32;
  encode_body := fun b =>
    Digest_bytes (binding_work_id b) ++ Digest_bytes (binding_result_digest b) ++
    PayloadHash_bytes (certificate_digest b);
  decode_body := fun reader =>
    let? '(work_id, reader) := BodyReader_digest reader in
    let? '(result_digest, reader) := BodyReader_digest reader in
    let? '(certificate_digest, reader) := BodyReader_bytes32 reader in
    Ok (mk_PaymentBindingV1 work_id result_digest (PayloadHash_from_bytes certificate_digest),
        reader);
  record_wf := fun b =>
    Digest_wf (binding_work_id b) && Digest_wf (binding_result_digest b) &&
    wf PayloadHash_codec (certificate_digest b) |}.

(* [crates/channel/src/model/work.rs:1276-1285] JobPaymentPolicyV2 *)
Record JobPaymentPolicyV2 := mk_JobPaymentPolicyV2 {
  fixed_price : N;
  dispatch_margin_blocks : N;
  delivery_margin_blocks : N;
  oracle_grace_blocks : N;
}.

(* [crates/channel/src/model/work.rs:1286-1303] JobPaymentPolicyV2 *)
Definition JobPaymentPolicyV2_record : PrivateRecord JobPaymentPolicyV2 := {|
  TAG := tag_JOB_PAYMENT_POLICY_V2;
  BODY_SIZE := 4 * 8;
  encode_body := fun p =>
    put_u64 (fixed_price p) ++ put_u64 (dispatch_margin_blocks p) ++
    put_u64 (delivery_margin_blocks p) ++ put_u64 (oracle_grace_blocks p);
  decode_body := fun reader =>
    let? '(fixed, reader) := BodyReader_u64 reader in
    let? '(dispatch, reader) := BodyReader_u64 reader in
    let? '(delivery, reader) := BodyReader_u64 reader in
    let? '(oracle, reader) := BodyReader_u64 reader in
    Ok (mk_JobPaymentPolicyV2 fixed dispatch delivery oracle, reader);
  record_wf := fun p =>
    u64_ok (fixed_price p) && u64_ok (dispatch_margin_blocks p) &&
    u64_ok (delivery_margin_blocks p) && u64_ok (oracle_grace_blocks p) |}.

(* [crates/channel/src/model/work.rs:1306-1318] JobPaymentPolicyV2::check *)
Definition JobPaymentPolicyV2_check (self : JobPaymentPolicyV2) : result unit PaidWorkError :=
  if fixed_price self =? 0 then Err (PolicyZero "fixed_price") else
  if dispatch_margin_blocks self =? 0 then Err (PolicyZero "dispatch_margin_blocks") else
  if delivery_margin_blocks self =? 0 then Err (PolicyZero "delivery_margin_blocks") else
  if oracle_grace_blocks self =? 0 then Err (PolicyZero "oracle_grace_blocks") else Ok tt.

#[export] Instance PaidJobAuthorizationV2_eq_dec : EqDecision PaidJobAuthorizationV2.
Proof. solve_decision. Defined.
#[export] Instance ResultOutcome_eq_dec : EqDecision ResultOutcome.
Proof. solve_decision. Defined.
#[export] Instance PaidJobResultV1_eq_dec : EqDecision PaidJobResultV1.
Proof. solve_decision. Defined.
#[export] Instance PaymentBindingV1_eq_dec : EqDecision PaymentBindingV1.
Proof. solve_decision. Defined.

(** ** The channel *)

(** What [xh] feeds its hasher. *)
Definition xh_writes (dom : bytes) (fields : list bytes) : list bytes := dom :: fields.

Section channel.
  Context `{Blake3}.

(* [crates/channel/src/model/work.rs:595-602] xh *)
Definition xh (dom : bytes) (fields : list bytes) : Digest :=
  Digest_from_bytes (xet_hash (concat (xh_writes dom fields))).

(* [crates/channel/src/model/work.rs:1371-1385] versioned_record_digest *)
Definition versioned_record_digest (dom : bytes) (network : NetworkId) (channel : Digest)
    (bs : bytes) : Digest :=
  xh dom [NetworkId_encode_to network; Digest_bytes channel; bs].

(* [crates/channel/src/model/work.rs:810-821] private_policy_commitment *)
Definition private_policy_commitment (network : NetworkId) (salt : bytes)
    (policy : PaidChannelPolicyV1) : bytes :=
  Digest_bytes (xh PAID_CHANNEL_POLICY
    [NetworkId_encode_to network; salt; record_encode PaidChannelPolicyV1_record policy]).

(* [crates/channel/src/model/work.rs:692-699] PaidChannel *)
Record PaidChannel := mk_PaidChannel {
  channel_network : NetworkId;
  channel_payment_edge : EdgeId;
  channel_payment_terms : WorkPaymentTerms;
  channel_payment_terms_hash : TermsHash;
  channel_policy : PaidChannelPolicyV1;
  channel_id : Digest;
}.

(* [crates/channel/src/model/work.rs:717-752] PaidChannel::new *)
Definition PaidChannel_new (network : NetworkId) (payment_edge : EdgeId)
    (payment_terms : WorkPaymentTerms) (salt : bytes) (policy : PaidChannelPolicyV1)
    : result PaidChannel PaidWorkError :=
  if negb (bool_decide (private_policy_commitment network salt policy
                        = wp_private_policy_commitment payment_terms))
  then Err (Mismatch "private_policy_commitment") else
  let payment_terms_hash := Terms_hash (Terms_work_payment payment_terms) in
  let bond_terms_hash := WorkPaymentTerms_bond_terms_hash payment_terms in
  let id := xh CHANNEL [NetworkId_encode_to network; EdgeId_bytes payment_edge;
                        TermsHash_bytes payment_terms_hash;
                        EdgeId_bytes (wp_bond_edge payment_terms);
                        TermsHash_bytes bond_terms_hash] in
  Ok (mk_PaidChannel network payment_edge payment_terms payment_terms_hash policy id).

(* [crates/channel/src/model/work.rs:787-789] PaidChannel::client_key *)
Definition client_key (self : PaidChannel) : Key :=
  PartyKeys_signer (Parties_maker (WorkPaymentTerms_parties (channel_payment_terms self))).

(* [crates/channel/src/model/work.rs:793-795] PaidChannel::provider_key *)
Definition provider_key (self : PaidChannel) : Key :=
  PartyKeys_signer (Parties_taker (WorkPaymentTerms_parties (channel_payment_terms self))).

(** ** Digests *)

(* [crates/channel/src/model/work.rs:1359-1370] paid_work_v2_id *)
Definition paid_work_v2_id (network : NetworkId) (channel : Digest)
    (authorization : PaidJobAuthorizationV2) : Digest :=
  versioned_record_digest PAID_JOB_AUTHORIZE network channel
    (record_encode PaidJobAuthorizationV2_record authorization).

(* [crates/channel/src/model/work.rs:824-826] work_id *)
Definition work_id (channel : PaidChannel) (authorization : PaidJobAuthorizationV2) : Digest :=
  paid_work_v2_id (channel_network channel) (channel_id channel) authorization.

(* [crates/channel/src/model/work.rs:834-848] bound_result_digest *)
Definition bound_result_digest (network : NetworkId) (channel : Digest) (r : PaidJobResultV1)
    : Digest :=
  xh PAID_JOB_RESULT [NetworkId_encode_to network; Digest_bytes channel;
                      record_encode PaidJobResultV1_record r].

(* [crates/channel/src/model/work.rs:829-831] result_digest *)
Definition result_digest (channel : PaidChannel) (r : PaidJobResultV1) : Digest :=
  bound_result_digest (channel_network channel) (channel_id channel) r.

(* [crates/channel/src/model/work.rs:851-861] payment_binding_digest *)
Definition payment_binding_digest (channel : PaidChannel) (binding : PaymentBindingV1) : Digest :=
  xh PAYMENT_BINDING [NetworkId_encode_to (channel_network channel);
                      Digest_bytes (channel_id channel);
                      record_encode PaymentBindingV1_record binding].

(* [crates/channel/src/model/work.rs:888-904] bound_delivery_request_digest *)
Definition bound_delivery_request_digest (network : NetworkId) (channel work_id : Digest)
    (exporter : bytes) : Digest :=
  xh DELIVERY_REQUEST [NetworkId_encode_to network; Digest_bytes channel; Digest_bytes work_id;
                       exporter].

(* [crates/channel/src/model/work.rs:1330-1336] job_payment_policy_digest *)
Definition job_payment_policy_digest (network : NetworkId) (channel : Digest)
    (policy : JobPaymentPolicyV2) : Digest :=
  versioned_record_digest JOB_PAYMENT_POLICY network channel
    (record_encode JobPaymentPolicyV2_record policy).

(* [crates/channel/src/model/work.rs:936-938] signing_hash *)
Definition signing_hash (digest : Digest) : PayloadHash :=
  PayloadHash_from_bytes (Digest_bytes digest).

(** ** Checks *)

(** The first listed field that does not hold. *)
Fixpoint first_mismatch {E} (err : string -> E) (checks : list (string * bool)) : result unit E :=
  match checks with
  | [] => Ok tt
  | (field, holds) :: checks => if holds then first_mismatch err checks else Err (err field)
  end.

(* [crates/channel/src/model/work.rs:942-1031] check_authorization_core *)
Definition check_authorization_core (channel : PaidChannel) (a : PaidJobAuthorizationV2)
    (policy_digest : Digest) (payment : JobPaymentPolicyV2) (finalized_height : N)
    : result Digest PaidWorkError :=
  let? _ := JobPaymentPolicyV2_check payment in
  let terms := channel_payment_terms channel in
  let? _ := first_mismatch Mismatch
    [("channel_id"%string, bool_decide (auth_channel_id a = channel_id channel));
     ("work_policy_digest"%string, bool_decide (work_policy_digest a = policy_digest));
     ("payment_policy_digest"%string, bool_decide (payment_policy_digest a =
        job_payment_policy_digest (channel_network channel) (channel_id channel) payment))] in
  let max_job_price := bond_max_job_price (wp_bond_terms terms) in
  if (price a =? 0) || (max_job_price <? price a)
  then Err (PriceOutOfRange (price a) max_job_price) else
  if negb (price a =? fixed_price payment) then Err (Mismatch "price") else
  let credit := channel_policy channel in
  if compute_credit_limit credit <? price a
  then Err (OverEnvelope "price against compute_credit_limit" (price a)
              (compute_credit_limit credit)) else
  if delivery_credit_limit credit <? price a
  then Err (OverEnvelope "price against delivery_credit_limit" (price a)
              (delivery_credit_limit credit)) else
  if acceptance_deadline a <? finalized_height
  then Err (AcceptanceExpired finalized_height (acceptance_deadline a)) else
  let horizon := WorkPaymentTerms_admission_horizon terms in
  if negb ((acceptance_deadline a <? terminal_deadline a)
           && (terminal_deadline a <? payment_deadline a) && (payment_deadline a <? horizon))
  then Err (DeadlineOrder (acceptance_deadline a) (terminal_deadline a) (payment_deadline a)
              horizon) else
  Ok (work_id channel a).

(* [crates/channel/src/model/work.rs:1340-1357] check_payment_policy_binding *)
Definition check_payment_policy_binding (channel : PaidChannel) (a : PaidJobAuthorizationV2)
    (payment : JobPaymentPolicyV2) : result unit PaidWorkError :=
  let? _ := JobPaymentPolicyV2_check payment in
  if negb (bool_decide (payment_policy_digest a =
             job_payment_policy_digest (channel_network channel) (channel_id channel) payment))
  then Err (Mismatch "payment_policy_digest") else
  if negb (price a =? fixed_price payment) then Err (Mismatch "price") else Ok tt.

(* [crates/channel/src/model/work.rs:1073-1082] check_result *)
Definition check_result (channel : PaidChannel) (work : Digest) (r : PaidJobResultV1)
    : result Digest PaidWorkError :=
  if negb (bool_decide (result_work_id r = work)) then Err (Mismatch "work_id")
  else Ok (result_digest channel r).

(* [crates/channel/src/model/work.rs:1120-1154] next_payment *)
Definition next_payment (channel : PaidChannel) (a : PaidJobAuthorizationV2)
    (r : PaidJobResultV1) (credited : N) (settlement : WorkPaymentSettlement)
    : result (EarnedCertificate * PaymentBindingV1) PaidWorkError :=
  match result_outcome r with
  | ResultFailed => Err (Mismatch "failed result is not payable")
  | Finished =>
      let work := work_id channel a in
      let? result_digest := check_result channel work r in
      let? cumulative := ok_or (checked_add credited (price a)) (Overflow "earned cumulative") in
      if settlement_capacity settlement <? cumulative
      then Err (OverCapacity cumulative (settlement_capacity settlement)) else
      let certificate := EarnedCertificate_new (channel_payment_edge channel)
                           (channel_payment_terms_hash channel) cumulative in
      Ok (certificate, mk_PaymentBindingV1 work result_digest
                         (EarnedCertificate_digest certificate (channel_network channel)))
  end.

(** ** The ledger *)

(* [crates/channel/src/model/work.rs:1163-1165] CreditLedger *)
Record CreditLedger := CreditLedger_from_credited_cumulative { credited_cumulative : N }.

(* [crates/channel/src/model/work.rs:1170-1172] CreditLedger::new *)
Definition CreditLedger_new : CreditLedger := CreditLedger_from_credited_cumulative 0.

(* [crates/channel/src/model/work.rs:1211-1270] CreditLedger::credit_payment *)
Definition credit_payment (self : CreditLedger) (channel : PaidChannel)
    (a : PaidJobAuthorizationV2) (r : PaidJobResultV1) (binding : PaymentBindingV1)
    (certificate : EarnedCertificate) (settlement : WorkPaymentSettlement)
    : result CreditLedger PaidWorkError :=
  let? '(expected_certificate, expected_binding) :=
    next_payment channel a r (credited_cumulative self) settlement in
  let? _ := first_mismatch Mismatch
    [("certificate payment_edge"%string,
      bool_decide (cert_payment_edge certificate = cert_payment_edge expected_certificate));
     ("certificate payment_terms_hash"%string,
      bool_decide (cert_payment_terms_hash certificate
                   = cert_payment_terms_hash expected_certificate));
     ("certificate earned_cumulative"%string,
      cert_earned_cumulative certificate =? cert_earned_cumulative expected_certificate);
     ("binding work_id"%string,
      bool_decide (binding_work_id binding = binding_work_id expected_binding));
     ("binding result_digest"%string,
      bool_decide (binding_result_digest binding = binding_result_digest expected_binding));
     ("binding certificate_digest"%string,
      bool_decide (certificate_digest binding = certificate_digest expected_binding))] in
  Ok (CreditLedger_from_credited_cumulative (cert_earned_cumulative expected_certificate)).
End channel.

(** ** Laws of the records *)

Lemma BodyReader_take_app n bs rest :
  length bs = n -> BodyReader_take n (bs ++ rest) = Ok (bs, rest).
Proof.
  intros <-. unfold BodyReader_take. rewrite length_app.
  destruct (Nat.ltb_spec (length bs + length rest) (length bs)); [lia|].
  by rewrite take_app_length, drop_app_length.
Qed.

Lemma BodyReader_take_Ok n reader bs rest :
  BodyReader_take n reader = Ok (bs, rest) -> reader = bs ++ rest /\ length bs = n.
Proof.
  unfold BodyReader_take. intros Hr. inv_ok. bool_simpl. subst.
  rewrite take_drop, length_take. split; [done|lia].
Qed.

Lemma u64_ok_bound v : u64_ok v = true -> v < 256 ^ N.of_nat 8.
Proof. unfold u64_ok, U64_MAX. intros. bool_simpl. change (256 ^ N.of_nat 8) with 18446744073709551616. lia. Qed.

Lemma from_be_bytes_u64 bs : length bs = 8%nat -> u64_ok (from_be_bytes bs) = true.
Proof.
  intros Hl. pose proof (from_be_bytes_bound bs) as Hb. rewrite Hl in Hb.
  change (256 ^ N.of_nat 8) with 18446744073709551616 in Hb. unfold u64_ok, U64_MAX.
  apply N.leb_le. lia.
Qed.

Lemma put_u64_length v : length (put_u64 v) = 8%nat.
Proof. apply to_be_bytes_length. Qed.

Lemma BodyReader_u64_app v rest :
  u64_ok v = true -> BodyReader_u64 (put_u64 v ++ rest) = Ok (v, rest).
Proof.
  intros Hv. unfold BodyReader_u64. rewrite BodyReader_take_app by apply put_u64_length. simpl.
  unfold put_u64. by rewrite from_to_be_bytes by by apply u64_ok_bound.
Qed.

Lemma BodyReader_u64_Ok reader v rest :
  BodyReader_u64 reader = Ok (v, rest) -> reader = put_u64 v ++ rest /\ u64_ok v = true.
Proof.
  unfold BodyReader_u64. intros Hr. inv_ok. subst. apply BodyReader_take_Ok in E as [-> Hl].
  split; [|by apply from_be_bytes_u64]. unfold put_u64. rewrite <- Hl. by rewrite to_from_be_bytes.
Qed.

Lemma BodyReader_digest_app d rest :
  Digest_wf d = true -> BodyReader_digest (Digest_bytes d ++ rest) = Ok (d, rest).
Proof.
  intros Hd. unfold Digest_wf in Hd. bool_simpl. unfold BodyReader_digest, BodyReader_bytes32.
  rewrite BodyReader_take_app by done. by destruct d.
Qed.

Lemma BodyReader_digest_Ok reader d rest :
  BodyReader_digest reader = Ok (d, rest) -> reader = Digest_bytes d ++ rest /\ Digest_wf d = true.
Proof.
  unfold BodyReader_digest, BodyReader_bytes32. intros Hr. inv_ok. subst.
  apply BodyReader_take_Ok in E as [-> Hl]. split; [done|]. unfold Digest_wf. simpl. by rewrite Hl.
Qed.

Lemma Digest_wf_length d : Digest_wf d = true -> length (Digest_bytes d) = 32%nat.
Proof. unfold Digest_wf. intros. by bool_simpl. Qed.

#[global] Opaque put_u64 Digest_wf.

(** A record whose body reads back exactly. *)
Class LawfulRecord {R} (pr : PrivateRecord R) : Prop := {
  body_tag : TAG pr <= 255;
  body_length : forall r, record_wf pr r = true -> length (encode_body pr r) = BODY_SIZE pr;
  body_decode : forall r rest,
    record_wf pr r = true -> decode_body pr (encode_body pr r ++ rest) = Ok (r, rest);
  body_sound : forall reader r rest,
    decode_body pr reader = Ok (r, rest) ->
    record_wf pr r = true /\ reader = encode_body pr r ++ rest;
}.

Ltac read_bodies :=
  repeat match goal with
  | H : BodyReader_u64 _ = Ok (_, _) |- _ => apply BodyReader_u64_Ok in H as [? ?]
  | H : BodyReader_digest _ = Ok (_, _) |- _ => apply BodyReader_digest_Ok in H as [? ?]
  | H : BodyReader_bytes32 _ = Ok (_, _) |- _ => apply BodyReader_take_Ok in H as [? ?]
  | H : BodyReader_take _ _ = Ok (_, _) |- _ => apply BodyReader_take_Ok in H as [? ?]
  end.

Ltac write_bodies :=
  repeat (first
    [ rewrite BodyReader_u64_app by done | rewrite BodyReader_digest_app by done
    | rewrite BodyReader_take_app by done ]; cbn [rbind]).

Ltac body_lengths :=
  rewrite ?length_app, ?put_u64_length;
  repeat match goal with H : Digest_wf ?d = true |- _ => rewrite (Digest_wf_length d H); clear H end.

#[export] Instance PaidChannelPolicyV1_lawful : LawfulRecord PaidChannelPolicyV1_record.
Proof.
  split; cbn [TAG BODY_SIZE encode_body decode_body record_wf PaidChannelPolicyV1_record].
  - by vm_compute.
  - intros r Hr. by rewrite length_app, !put_u64_length.
  - intros [c d] rest Hr. bool_simpl. simpl in *.
    rewrite <- app_assoc. by write_bodies.
  - intros reader r rest Hr. inv_ok. subst. read_bodies. subst. simpl. rewrite <- app_assoc.
    split; [by apply andb_true_intro|done].
Qed.

#[export] Instance JobPaymentPolicyV2_lawful : LawfulRecord JobPaymentPolicyV2_record.
Proof.
  split; cbn [TAG BODY_SIZE encode_body decode_body record_wf JobPaymentPolicyV2_record].
  - by vm_compute.
  - intros r Hr. by rewrite !length_app, !put_u64_length.
  - intros [] rest Hr. bool_simpl. simpl in *. rewrite <- !app_assoc. by write_bodies.
  - intros reader r rest Hr. inv_ok. subst. read_bodies. subst. simpl. rewrite <- !app_assoc.
    split; [by rewrite !andb_true_iff|done].
Qed.

#[export] Instance PaymentBindingV1_lawful : LawfulRecord PaymentBindingV1_record.
Proof.
  split; cbn [TAG BODY_SIZE encode_body decode_body record_wf PaymentBindingV1_record].
  - by vm_compute.
  - intros [w r [c]] Hr. bool_simpl. simpl in *. bool_simpl. by body_lengths; rewrite H0.
  - intros [w r [c]] rest Hr. bool_simpl. simpl in *. bool_simpl. rewrite <- !app_assoc.
    write_bodies. unfold BodyReader_bytes32. by rewrite BodyReader_take_app.
  - intros reader r rest Hr. inv_ok. subst. read_bodies. subst. simpl. rewrite <- !app_assoc.
    split; [|done]. rewrite !andb_true_iff. split_and!; try done. by apply Nat.eqb_eq.
Qed.

Lemma flag_byte (b : byte) (rest : bytes) : BodyReader_take 1 (b :: rest) = Ok ([b], rest).
Proof. by apply (BodyReader_take_app 1 [b]). Qed.

#[export] Instance PaidJobResultV1_lawful : LawfulRecord PaidJobResultV1_record.
Proof.
  split; cbn [TAG BODY_SIZE encode_body decode_body record_wf PaidJobResultV1_record];
    unfold encode_reference, ContentRef_wf.
  - by vm_compute.
  - intros [w t o f [i n]] Hr. bool_simpl. simpl in *. by repeat (body_lengths; simpl).
  - intros [w t o f [i n]] rest Hr. bool_simpl. simpl in *. rewrite <- !app_assoc.
    destruct f; write_bodies; cbn [app]; rewrite flag_byte; cbn [rbind]; rewrite <- ?app_assoc; by write_bodies.
  - intros reader r rest Hr. inv_ok. subst. read_bodies. subst.
    match goal with H : match ?f with _ => _ end = Ok ?o |- _ =>
      assert (f = [match o with Finished => x00 | ResultFailed => x01 end]) as ->
        by (destruct f as [|[] []]; simpl in H; simplify_eq; done); clear H end.
    rewrite <- !app_assoc. split; [simpl; by rewrite !andb_true_iff|done].
Qed.

#[export] Instance PaidJobAuthorizationV2_lawful : LawfulRecord PaidJobAuthorizationV2_record.
Proof.
  split; cbn [TAG BODY_SIZE encode_body decode_body record_wf PaidJobAuthorizationV2_record];
    unfold PaidJobAuthorizationV2_encode_body, PaidJobAuthorizationV2_decode_body,
      PaidJobAuthorizationV2_wf, encode_reference, ContentRef_wf.
  - by vm_compute.
  - intros [? ? ? [] ? ? ? ? ? ? ? ? ?] Hr. bool_simpl. simpl in *. by repeat (body_lengths; simpl).
  - intros [? ? ? [] ? ? ? ? ? ? ? ? f] rest Hr. bool_simpl. simpl in *. rewrite <- !app_assoc.
    destruct f; by write_bodies.
  - intros reader r rest Hr. inv_ok. subst. read_bodies. subst.
    match goal with H : match ?f with _ => _ end = Ok ?o |- _ =>
      assert (f = [match o with Ephemeral => x00 | Retain => x01 end]) as ->
        by (destruct f as [|[] []]; simpl in H; simplify_eq; done); clear H end.
    rewrite <- !app_assoc. split; [simpl; by rewrite !andb_true_iff|done].
Qed.

(** The records have one encoding each. *)
Lemma record_decode_iff {R} (pr : PrivateRecord R) `{!LawfulRecord pr} bs r :
  record_decode pr bs = Ok r <-> record_wf pr r = true /\ bs = record_encode pr r.
Proof.
  pose proof (body_tag (pr := pr)) as Ht. split.
  - unfold record_decode. intros Hr. inv_ok_step. bool_simpl.
    destruct bs as [|version [|tag bs]]; simpl in Hr; try done.
    inv_ok_step. inv_ok_step. inv_ok_step. bool_simpl.
    destruct v as [record [|? ?]]; inv_ok; subst. rewrite drop_0 in E. apply body_sound in E as [Hw ->]. split; [done|].
    rewrite app_nil_r. unfold record_encode.
    by rewrite <- (byte_of_to_N version), <- (byte_of_to_N tag), G0, G1.
  - intros [Hw ->]. unfold record_decode, record_encode, ENCODED_SIZE. simpl.
    rewrite (body_length r Hw), Nat.eqb_refl. simpl. rewrite drop_0.
    rewrite byte_to_of_N, N.mod_small, N.eqb_refl by lia.
    rewrite <- (app_nil_r (encode_body pr r)). by rewrite body_decode.
Qed.

Lemma record_encode_length {R} (pr : PrivateRecord R) `{!LawfulRecord pr} r :
  record_wf pr r = true -> length (record_encode pr r) = ENCODED_SIZE pr.
Proof. intros Hw. unfold record_encode, ENCODED_SIZE. simpl. by rewrite body_length. Qed.

(** ** What a payment is *)

Section payment.
  Context `{Blake3}.

Lemma first_mismatch_Ok {E} (err : string -> E) checks u :
  first_mismatch err checks = Ok u <-> Forall (fun c => c.2 = true) checks.
Proof.
  destruct u. induction checks as [|[f []] l IH]; simpl; rewrite ?Forall_cons; [done| |].
  - rewrite IH. split; [done|]. by intros [].
  - split; [done|]. by intros [].
Qed.

(** The certificate a payment must carry settles exactly the credited total plus
    one price, within the capacity. *)
Lemma next_payment_Ok channel a r credited settlement cert binding :
  next_payment channel a r credited settlement = Ok (cert, binding) <->
  result_outcome r = Finished /\ result_work_id r = work_id channel a /\
  credited + price a <= U64_MAX /\ credited + price a <= settlement_capacity settlement /\
  cert = EarnedCertificate_new (channel_payment_edge channel) (channel_payment_terms_hash channel)
           (credited + price a) /\
  binding = mk_PaymentBindingV1 (work_id channel a) (result_digest channel r)
              (EarnedCertificate_digest cert (channel_network channel)).
Proof.
  unfold next_payment, check_result. split.
  - intros Hn. destruct (result_outcome r); [|done]. inv_ok. bool_simpl. checked_simpl. by subst.
  - intros (-> & Hw & Hu & Hc & -> & ->). rewrite (bool_decide_eq_true_2 _ Hw). simpl.
    rewrite (proj2 (checked_add_Some _ _ _) (conj eq_refl Hu)). simpl.
    by rewrite (proj2 (N.ltb_ge _ _) Hc).
Qed.

Lemma credit_payment_Ok self channel a r binding cert settlement ledger :
  credit_payment self channel a r binding cert settlement = Ok ledger <->
  next_payment channel a r (credited_cumulative self) settlement = Ok (cert, binding) /\
  credited_cumulative ledger = cert_earned_cumulative cert.
Proof.
  unfold credit_payment. split.
  - intros Hc. inv_ok. apply first_mismatch_Ok in E0. repeat (apply Forall_cons in E0 as [? E0]).
    cbn [snd] in *. bool_simpl. subst ledger. rewrite E. simpl.
    destruct a0, b, cert, binding; simpl in *. by subst.
  - intros [Hn Hl]. rewrite Hn. cbn [rbind]. rewrite (proj2 (first_mismatch_Ok Mismatch _ tt)).
    + destruct ledger. simpl in *. by subst.
    + repeat constructor; simpl; by rewrite ?bool_decide_eq_true_2, ?N.eqb_refl.
Qed.

Lemma credit_payment_total self channel a r binding cert settlement ledger :
  credit_payment self channel a r binding cert settlement = Ok ledger ->
  credited_cumulative ledger = credited_cumulative self + price a /\
  cert_earned_cumulative cert = credited_cumulative ledger /\
  credited_cumulative ledger <= settlement_capacity settlement.
Proof.
  intros [Hn Hl]%credit_payment_Ok. apply next_payment_Ok in Hn as (_ & _ & _ & ? & -> & _).
  simpl in *. split_and!; lia.
Qed.
End payment.
