(* ===== verification/JobBook.v ===== *)
(** * The job book (crates/channel/src/work_store/channel/book.rs, funding.rs)

    The lifecycle of the jobs of one channel, for any funding model: the phases a
    job passes through, the terminals that end it for good, the proposal nonce
    and the one unanswered proposal.  [Funding] is the trait; a mutating method
    returns what it reports and the book after it, and a refusal returns before
    the book is touched. *)

From S2P Require Import Prelude Xet Canonical Primitive Errors Context Auth Objects Registry.
From S2P Require Import View Store Terms Work PaidWork.

#[local] Open Scope N_scope.

(** ** Vocabulary *)

(* [crates/channel/src/work_store/journal.rs:73-78] Role *)
Inductive Role := Client | Provider.

#[export] Instance Role_eq_dec : EqDecision Role.
Proof. solve_decision. Defined.

(* [crates/channel/src/work_store/mod.rs:47-53] Applied *)
Inductive Applied := Changed | Redundant.

(* [crates/channel/src/work_store/channel/funding.rs:31-34] ClockReading *)
Record ClockReading := mk_ClockReading { reading_value : N; reading_unit : string }.

(* [crates/channel/src/work_store/channel.rs:50-194] ChannelStateError *)
Inductive ChannelStateError :=
  | Record_error (e : PaidWorkError)
  | BadSignature (slot party : string)
  | WrongPhase (step phase : string)
  | WrongRole (step expected : string)
  | WrongChannel (field : string)
  | Terminated (step outcome : string)
  | OverCredit (ledger : string) (used reserved price limit : N)
  | IndeterminateJob
  | AcceptanceLate (now deadline : ClockReading)
  | DispatchLate (now deadline : ClockReading)
  | ReceiptLate (height deadline : N)
  | PaymentLate (height deadline : N)
  | CursorNotNext (held actual : N)
  | CursorNotContiguous (height : N)
  | Closing (step : string)
  | Conflict (what : string)
  | Malformed.

(* [crates/channel/src/work_store/channel.rs:198-214] JobPhase *)
Inductive JobPhase := HalfSigned | Accepted | Running | Streaming | Ready | Verified | Delivered.

#[export] Instance JobPhase_eq_dec : EqDecision JobPhase.
Proof. solve_decision. Defined.

(* [crates/channel/src/work_store/channel.rs:223-233] JobPhase::name *)
Definition JobPhase_name (self : JobPhase) : string :=
  match self with
  | HalfSigned => "half-signed"
  | Accepted => "accepted"
  | Running => "running"
  | Streaming => "streaming"
  | Ready => "ready"
  | Verified => "verified"
  | Delivered => "delivered"
  end.

(* [crates/channel/src/work_store/channel.rs:236-238] JobPhase::delivered *)
Definition delivered (self : JobPhase) : bool :=
  match self with Delivered | Streaming => true | _ => false end.

(* [crates/channel/src/work_store/channel.rs:267-273] JobPhase::only_role *)
Definition only_role (self : JobPhase) : option Role :=
  match self with
  | Running | Streaming | Delivered => Some Provider
  | Verified => Some Client
  | _ => None
  end.

(* [crates/channel/src/work_store/channel.rs:276-278] JobPhase::has_result *)
Definition has_result (self : JobPhase) : bool :=
  match self with Ready | Verified | Delivered => true | _ => false end.

(** ** Funding *)

(** The trait with its sealed companions: the lifecycle fields of an
    authorization, a clock whose readings are compared by value and shown with a
    unit, and the diagnostic name of a terminal. *)
(* [crates/channel/src/work_store/channel/funding.rs:90-105] Funding *)
Class Funding := {
  Authorization : Type;
  JobResult : Type;
  Signature : Type;
  Terminal : Type;
  Authorization_eq_dec :: EqDecision Authorization;
  JobResult_eq_dec :: EqDecision JobResult;
  Signature_eq_dec :: EqDecision Signature;
  Terminal_eq_dec :: EqDecision Terminal;
  job_proposal_nonce : Authorization -> N;
  job_acceptance_deadline : Authorization -> N;
  job_terminal_deadline : Authorization -> N;
  clock_unit : string;
  outcome_name : Terminal -> string;
}.

Definition diagnostic `{Funding} (value : N) : ClockReading := mk_ClockReading value clock_unit.

Section book.
  Context `{Funding}.

(* [crates/channel/src/work_store/channel.rs:599-608] JobState *)
Record JobState := mk_JobState {
  job_authorization : Authorization;
  job_work_id : Digest;
  prepared_input : bytes;
  client_signature : Signature;
  provider_signature : option Signature;
  job_phase : JobPhase;
  job_result : option (JobResult * Signature);
  job_transcript : bytes;
}.

(* [crates/channel/src/work_store/channel.rs:359-366] JobTerminal *)
Record JobTerminal := mk_JobTerminal {
  terminal_work_id : Digest;
  terminal_phase : JobPhase;
  terminal_outcome : Terminal;
}.

#[export] Instance JobState_eq_dec : EqDecision JobState.
Proof. solve_decision. Defined.

(* [crates/channel/src/work_store/channel/book.rs:8-14] JobBook *)
Record JobBook := mk_JobBook {
  pending_proposal : option Digest;
  book_jobs : gmap Digest JobState;
  book_terminals : gmap Digest JobTerminal;
  proposal_nonce_high_water : N;
  indeterminate : gset Digest;
}.

(* [crates/channel/src/work_store/channel/book.rs:17-25] JobBook::default *)
Definition JobBook_default : JobBook := mk_JobBook None ∅ ∅ 0 ∅.

(** The entries of a [BTreeMap], in key order. *)
Definition btree_items {A} (m : gmap Digest A) : list (Digest * A) :=
  sort_by_id Digest_bytes (map_to_list m).
Definition btree_values {A} (m : gmap Digest A) : list A := map snd (btree_items m).

Definition with_jobs (f : gmap Digest JobState -> gmap Digest JobState) (b : JobBook) : JobBook :=
  mk_JobBook (pending_proposal b) (f (book_jobs b)) (book_terminals b)
    (proposal_nonce_high_water b) (indeterminate b).
Definition with_pending (p : option Digest) (b : JobBook) : JobBook :=
  mk_JobBook p (book_jobs b) (book_terminals b) (proposal_nonce_high_water b) (indeterminate b).
Definition with_phase (phase : JobPhase) (j : JobState) : JobState :=
  mk_JobState (job_authorization j) (job_work_id j) (prepared_input j) (client_signature j)
    (provider_signature j) phase (job_result j) (job_transcript j).

(* [crates/channel/src/work_store/channel/book.rs:132-144] JobBook::refuse_if_terminated *)
Definition refuse_if_terminated (self : JobBook) (id : Digest) (step : string)
    : result unit ChannelStateError :=
  match book_terminals self !! id with
  | Some t => Err (Terminated step (outcome_name (terminal_outcome t)))
  | None => Ok tt
  end.

(** [open_job] and [open_job_mut] refuse alike. *)
(* [crates/channel/src/work_store/channel/book.rs:99-112] JobBook::open_job *)
Definition open_job (self : JobBook) (id : Digest) (step : string)
    : result JobState ChannelStateError :=
  match book_jobs self !! id with
  | Some job => Ok job
  | None => let? _ := refuse_if_terminated self id step in Err (WrongPhase step "none")
  end.

(* [crates/channel/src/work_store/channel/book.rs:55-78] JobBook::proposal_exchange *)
Definition proposal_exchange (self : JobBook) (id : Digest) (pending : bool)
    : result (Applied * JobBook) ChannelStateError :=
  let? job := open_job self id "recording proposal exchange" in
  if negb (bool_decide (job_phase job = HalfSigned))
  then Err (WrongPhase "recording proposal exchange" (JobPhase_name (job_phase job))) else
  if match pending_proposal self with
     | Some held => negb (bool_decide (held = id))
     | None => false
     end
  then Err (Conflict "unanswered proposal") else
  let next := if pending then Some id else None in
  if bool_decide (pending_proposal self = next) then Ok (Redundant, self)
  else Ok (Changed, with_pending next self).

(* [crates/channel/src/work_store/channel/book.rs:80-97] JobBook::revalidate_exchange *)
Definition revalidate_exchange (self : JobBook) (role : Role) : result unit ChannelStateError :=
  match pending_proposal self with
  | None => Ok tt
  | Some id =>
      if negb (bool_decide (role = Client)) then Err (WrongRole "pending proposal" "client") else
      let? job := open_job self id "replaying pending proposal" in
      if negb (bool_decide (job_phase job = HalfSigned))
      then Err (WrongPhase "replaying pending proposal" (JobPhase_name (job_phase job)))
      else Ok tt
  end.

(* [crates/channel/src/work_store/channel/book.rs:145-173] JobBook::propose *)
Definition book_propose (self : JobBook) (job : JobState) (role : Role)
    : result (Applied * JobBook) ChannelStateError :=
  match book_jobs self !! job_work_id job with
  | Some held => if bool_decide (held = job) then Ok (Redundant, self)
                 else Err (Conflict "job proposal")
  | None =>
      let? _ := refuse_if_terminated self (job_work_id job) "proposing a job" in
      let nonce := job_proposal_nonce (job_authorization job) in
      if nonce <=? proposal_nonce_high_water self then Err (WrongChannel "proposal_nonce") else
      let? pending := match role with
                      | Client => match pending_proposal self with
                                  | Some _ => Err (Conflict "unanswered proposal")
                                  | None => Ok (Some (job_work_id job))
                                  end
                      | Provider => Ok (pending_proposal self)
                      end in
      Ok (Changed, mk_JobBook pending (<[job_work_id job := job]> (book_jobs self))
                     (book_terminals self) nonce (indeterminate self))
  end.

(* [crates/channel/src/work_store/channel/book.rs:174-203] JobBook::accept *)
Definition book_accept (self : JobBook) (id : Digest) (signature : Signature) (now : N)
    (role : Role) : result (Applied * JobBook) ChannelStateError :=
  let? job := open_job self id "co-signing a job" in
  if bool_decide (provider_signature job = Some signature) then Ok (Redundant, self) else
  if negb (bool_decide (job_phase job = HalfSigned))
  then Err (WrongPhase "co-signing a job" (JobPhase_name (job_phase job))) else
  let deadline := job_acceptance_deadline (job_authorization job) in
  if bool_decide (role = Provider) && (deadline <? now)
  then Err (AcceptanceLate (diagnostic now) (diagnostic deadline)) else
  let job := mk_JobState (job_authorization job) (job_work_id job) (prepared_input job)
               (client_signature job) (Some signature) Accepted (job_result job)
               (job_transcript job) in
  let self := with_jobs <[id := job]> self in
  Ok (Changed, if bool_decide (pending_proposal self = Some id) then with_pending None self
               else self).

(* [crates/channel/src/work_store/channel/book.rs:204-224] JobBook::run *)
Definition book_run (self : JobBook) (id : Digest) (now : N)
    : result (Applied * JobBook) ChannelStateError :=
  let? job := open_job self id "a running marker" in
  match job_phase job with
  | Running | Streaming => Ok (Redundant, self)
  | Accepted =>
      let deadline := job_terminal_deadline (job_authorization job) in
      if deadline <? now then Err (DispatchLate (diagnostic now) (diagnostic deadline)) else
      Ok (Changed, with_jobs <[id := with_phase Running job]> self)
  | phase => Err (WrongPhase "a running marker" (JobPhase_name phase))
  end.

(* [crates/channel/src/work_store/channel/book.rs:225-253] JobBook::record_result *)
Definition record_result (self : JobBook) (id : Digest) (r : JobResult) (signature : Signature)
    (transcript : bytes) : result (Applied * JobBook) ChannelStateError :=
  if bool_decide (id ∈ indeterminate self) then Err IndeterminateJob else
  let? job := open_job self id "recording a result" in
  match job_phase job with
  | Accepted | Running | Streaming =>
      let phase := match job_phase job with Streaming => Delivered | _ => Ready end in
      Ok (Changed, with_jobs <[id := mk_JobState (job_authorization job) (job_work_id job)
             (prepared_input job) (client_signature job) (provider_signature job) phase
             (Some (r, signature)) transcript]> self)
  | phase => Err (WrongPhase "recording a result" (JobPhase_name phase))
  end.

(* [crates/channel/src/work_store/channel/book.rs:254-271] JobBook::mark_verified *)
Definition mark_verified (self : JobBook) (id : Digest)
    : result (Applied * JobBook) ChannelStateError :=
  let? job := open_job self id "recording a verified result" in
  match job_phase job with
  | Verified => Ok (Redundant, self)
  | Ready => Ok (Changed, with_jobs <[id := with_phase Verified job]> self)
  | phase => Err (WrongPhase "recording a verified result" (JobPhase_name phase))
  end.

(* [crates/channel/src/work_store/channel/book.rs:272-291] JobBook::release *)
Definition book_release (self : JobBook) (id : Digest)
    : result (Applied * JobBook) ChannelStateError :=
  let? job := open_job self id "releasing plaintext" in
  match job_phase job with
  | Delivered | Streaming => Ok (Redundant, self)
  | Running => Ok (Changed, with_jobs <[id := with_phase Streaming job]> self)
  | Ready => Ok (Changed, with_jobs <[id := with_phase Delivered job]> self)
  | phase => Err (WrongPhase "releasing plaintext" (JobPhase_name phase))
  end.

(* [crates/channel/src/work_store/channel/book.rs:292-299] JobBook::rest_at *)
Definition rest_at (self : JobBook) (terminal : JobTerminal) : JobBook :=
  let id := terminal_work_id terminal in
  mk_JobBook (if bool_decide (pending_proposal self = Some id) then None else pending_proposal self)
    (delete id (book_jobs self)) (<[id := terminal]> (book_terminals self))
    (proposal_nonce_high_water self) (indeterminate self ∖ {[id]}).

(** ** Bodies *)

(** A journal keeps no bodies: what replay holds of a job and of a book, with
    the interruption marks [ind]. *)
Definition strip_job (j : JobState) : JobState :=
  mk_JobState (job_authorization j) (job_work_id j) [] (client_signature j)
    (provider_signature j) (job_phase j) (job_result j) [].
Definition strip_book (b : JobBook) (ind : gset Digest) : JobBook :=
  mk_JobBook (pending_proposal b) (strip_job <$> book_jobs b) (book_terminals b)
    (proposal_nonce_high_water b) ind.

Lemma open_job_Ok b id what job : open_job b id what = Ok job <-> book_jobs b !! id = Some job.
Proof.
  unfold open_job, refuse_if_terminated. destruct (book_jobs b !! id) as [j|]; [split; congruence|].
  destruct (book_terminals b !! id); simpl; split; done.
Qed.

Section strip.
  Context (b : JobBook) (ind : gset Digest).

Lemma strip_lookup id : book_jobs (strip_book b ind) !! id = strip_job <$> book_jobs b !! id.
Proof. apply lookup_fmap. Qed.

Lemma open_job_strip id what job :
  open_job b id what = Ok job -> open_job (strip_book b ind) id what = Ok (strip_job job).
Proof. rewrite !open_job_Ok, strip_lookup. by intros ->. Qed.

(** Every operation of the book accepted on the live book is accepted on the
    stripped one, with the stripped result. *)
Ltac on_strip :=
  match goal with
  | E : open_job b ?id ?w = Ok _ |- context [open_job (strip_book b ind) ?id ?w] =>
      rewrite (open_job_strip id w _ E); cbn [rbind strip_job job_phase job_authorization job_work_id
        provider_signature client_signature job_result]
  end.

Lemma proposal_exchange_strip id pending a b' :
  proposal_exchange b id pending = Ok (a, b') ->
  proposal_exchange (strip_book b ind) id pending = Ok (a, strip_book b' ind).
Proof.
  unfold proposal_exchange. intros Hr. inv_ok_step. on_strip. inv_ok_step.
  cbn [strip_book pending_proposal]. inv_ok_step.
  destruct (bool_decide (pending_proposal b = _)); inv_ok; by subst.
Qed.

Lemma book_propose_strip job role a b' :
  book_jobs b !! job_work_id job = None ->
  book_propose b job role = Ok (a, b') ->
  book_propose (strip_book b ind) (strip_job job) role = Ok (a, strip_book b' ind).
Proof.
  intros Hnone. unfold book_propose.
  cbn [strip_job job_work_id job_authorization].
  change (refuse_if_terminated (strip_book b ind)) with (refuse_if_terminated b).
  change (proposal_nonce_high_water (strip_book b ind)) with (proposal_nonce_high_water b).
  change (pending_proposal (strip_book b ind)) with (pending_proposal b).
  rewrite strip_lookup, Hnone. cbn [fmap option_fmap option_map]. intros Hr.
  inv_ok_step. rewrite E. cbn [rbind]. inv_ok_step. inv_ok_step. rewrite E0. cbn [rbind].
  inv_ok. subst. unfold strip_book; cbn. by rewrite fmap_insert.
Qed.

Lemma book_accept_strip id sig now role a b' :
  book_accept b id sig now role = Ok (a, b') ->
  book_accept (strip_book b ind) id sig now role = Ok (a, strip_book b' ind).
Proof.
  unfold book_accept. intros Hr. inv_ok_step. on_strip.
  destruct (bool_decide (provider_signature v = Some sig)); [inv_ok; by subst|].
  inv_ok_step. inv_ok_step. inv_ok. subst.
  change (pending_proposal (with_jobs ?f b)) with (pending_proposal b).
  change (pending_proposal (with_jobs ?f (strip_book b ind))) with (pending_proposal b).
  destruct (bool_decide (pending_proposal b = Some id)); unfold strip_book, with_jobs, with_pending;
    cbn; by rewrite fmap_insert.
Qed.

Lemma book_run_strip id now a b' :
  book_run b id now = Ok (a, b') -> book_run (strip_book b ind) id now = Ok (a, strip_book b' ind).
Proof.
  unfold book_run. intros Hr. inv_ok_step. on_strip.
  destruct (job_phase v); try done; inv_ok; subst; [|done..].
  unfold strip_book, with_jobs; cbn. by rewrite fmap_insert.
Qed.

Lemma record_result_strip id r sig transcript a b' :
  ind ⊆ indeterminate b -> record_result b id r sig transcript = Ok (a, b') ->
  record_result (strip_book b ind) id r sig [] = Ok (a, strip_book b' ind).
Proof.
  unfold record_result. intros Hind Hr. inv_ok_step. bool_simpl. cbn [strip_book indeterminate].
  rewrite bool_decide_eq_false_2 by set_solver. inv_ok_step. on_strip.
  destruct (job_phase v); try done; inv_ok; subst; unfold strip_book, with_jobs; cbn;
    by rewrite fmap_insert.
Qed.

Lemma mark_verified_strip id a b' :
  mark_verified b id = Ok (a, b') -> mark_verified (strip_book b ind) id = Ok (a, strip_book b' ind).
Proof.
  unfold mark_verified. intros Hr. inv_ok_step. on_strip.
  destruct (job_phase v); try done; inv_ok; subst; [|done].
  unfold strip_book, with_jobs; cbn. by rewrite fmap_insert.
Qed.

Lemma book_release_strip id a b' :
  book_release b id = Ok (a, b') -> book_release (strip_book b ind) id = Ok (a, strip_book b' ind).
Proof.
  unfold book_release. intros Hr. inv_ok_step. on_strip.
  destruct (job_phase v); try done; inv_ok; subst; try done;
    unfold strip_book, with_jobs; cbn; by rewrite fmap_insert.
Qed.

Lemma rest_at_strip t :
  rest_at (strip_book b ind) t = strip_book (rest_at b t) (ind ∖ {[terminal_work_id t]}).
Proof. unfold rest_at, strip_book; cbn. by rewrite fmap_delete. Qed.
End strip.
End book.
