(* ===== verification/JobInput.v ===== *)
(** * Invocation binding (crates/channel/src/job.rs)

    How a paid job is bound to the invocation it pays for: the proposal derived
    from an input, the checks that authenticate every input byte, identity,
    policy and retention rule before the application admits it, and the one
    conversion of a verified transcript into a result.  The invocation protocol
    (crates/rpc) is the interface [Invocations]: canonical encodings, admission,
    output verification and transcript decoding. *)

From S2P Require Import Prelude Xet XetChunk Canonical Primitive Errors Context Auth Objects Registry.
From S2P Require Import View Store Terms Work PaidWork JobBook.

#[local] Open Scope N_scope.

(* [crates/auth/src/signature.rs:55-59] PublicKey *)
Inductive PublicKey :=
  | PublicKey_Secp256k1 (key : bytes)
  | PublicKey_Ed25519 (key : bytes)
  | PublicKey_P256 (key : bytes).

#[export] Instance PublicKey_eq_dec : EqDecision PublicKey.
Proof. solve_decision. Defined.

(** The facts of an admission the channel reads. *)
Record AdmissionFacts := mk_AdmissionFacts {
  facts_retention : Retention;
  max_spool_bytes : N;
  max_encoded_result_frame : N;
  max_output_events : N;
}.

Record VerifiedOutput := mk_VerifiedOutput {
  output_success : bool;
  output_id : Digest;
  output_transcript : ContentRef;
}.

Class Invocations := {
  PreparedInvocation : Type;
  InvocationPolicy : Type;
  ProgramManifest : Type;
  OutputEventEnvelope : Type;
  prepared_from_canonical_bytes : bytes -> result PreparedInvocation PaidWorkError;
  prepared_canonical_bytes : PreparedInvocation -> result bytes PaidWorkError;
  application_policy : PreparedInvocation -> bytes;
  request_commitment_of : PreparedInvocation -> result Digest PaidWorkError;
  execution_environment : PreparedInvocation -> Digest;
  runner_public_key : PreparedInvocation -> PublicKey;
  request_retain : PreparedInvocation -> bool;
  policy_from_canonical_bytes : bytes -> result InvocationPolicy PaidWorkError;
  policy_canonical_bytes : InvocationPolicy -> result bytes PaidWorkError;
  policy_validate : InvocationPolicy -> result unit PaidWorkError;
  policy_eq_dec :: EqDecision InvocationPolicy;
  invocation_admit : InvocationPolicy -> PreparedInvocation -> PublicKey -> result AdmissionFacts PaidWorkError;
  verify_output : PreparedInvocation -> InvocationPolicy -> PublicKey -> PublicKey ->
    list OutputEventEnvelope -> result VerifiedOutput PaidWorkError;
  event_commitment : OutputEventEnvelope -> Digest;
  event_terminal : OutputEventEnvelope -> bool;
  event_dag_cbor : OutputEventEnvelope -> result bytes PaidWorkError;
  encode_dag_cbor : list OutputEventEnvelope -> result bytes PaidWorkError;
  decode_dag_cbor : bytes -> result (list OutputEventEnvelope) PaidWorkError;
  manifest : PreparedInvocation -> result ProgramManifest PaidWorkError;
  manifest_root : ProgramManifest -> Digest;
  policy_max_upload_bytes : InvocationPolicy -> N;
  policy_content_closure : InvocationPolicy -> ProgramManifest -> bytes ->
    result (list ContentRef) PaidWorkError;
}.

Definition POLICY : bytes := domain "hellas.work.invocation-policy.v1".
Definition INPUT : bytes := domain "hellas.work.prepared-input.v1".

(* [crates/channel/src/job.rs:17-22] WorkContext *)
Record WorkContext := mk_WorkContext {
  context_network : NetworkId;
  context_channel : Digest;
  context_client : Key;
  context_provider : Key;
}.

(* [crates/channel/src/job.rs:36-43] JobInputBinding *)
Record JobInputBinding := mk_JobInputBinding {
  bound_work_policy_digest : Digest;
  bound_input_content : ContentRef;
  bound_prepared_input : Digest;
  bound_request_commitment : Digest;
  bound_environment_commitment : Digest;
  bound_retention : Retention;
}.

(* [crates/rpc/src/protocol/retention.rs:21-23] Retention::should_retain *)
Definition should_retain (r : Retention) : bool :=
  match r with Retain => true | Ephemeral => false end.

(* [crates/channel/src/job.rs:44-55] JobInputBinding::from *)
Definition binding_of_authorization (a : PaidJobAuthorizationV2) : JobInputBinding :=
  mk_JobInputBinding (work_policy_digest a) (input_content a) (prepared_input_digest a)
    (request_commitment a) (environment_commitment a) (retention a).

(* [crates/channel/src/model/work.rs:920-927] JobDeadlines *)
Record JobDeadlines := mk_JobDeadlines {
  deadline_acceptance : N;
  deadline_terminal : N;
  deadline_payment : N;
}.

Section job.
  Context `{Blake3} `{Gearhash} `{Invocations}.

(* [crates/channel/src/job.rs:23-32] WorkContext::from *)
Definition context_of_channel (channel : PaidChannel) : WorkContext :=
  mk_WorkContext (channel_network channel) (channel_id channel) (client_key channel)
    (provider_key channel).

(** The streaming hasher never runs dry (see [streaming_chunks_exact]); the
    default stands for a run that cannot happen. *)
(* [crates/channel/src/model/work.rs:610-617] xfh *)
Definition xfh (dom : bytes) (fields : list bytes) : Digest :=
  Digest_from_bytes (default XetHash_ZERO
    (update_all XetFileHasher_new (dom :: fields) ≫= XetFileHasher_finalize)).

(* [crates/rpc/src/protocol/content.rs:23-25] ContentRef::for_bytes *)
Definition ContentRef_for_bytes (bs : bytes) : ContentRef :=
  ContentRef_new (Digest_from_bytes (default XetHash_ZERO (XetHash_hash bs))) (lenN bs).

(* [crates/channel/src/job.rs:69-82] policy_digest *)
Definition policy_digest (network : NetworkId) (channel : Digest) (policy : InvocationPolicy)
    : result Digest PaidWorkError :=
  let? bs := policy_canonical_bytes policy in
  Ok (xfh POLICY [NetworkId_encode_to network; Digest_bytes channel; bs]).

(* [crates/channel/src/job.rs:84-97] bound_prepared_input_digest *)
Definition bound_prepared_input_digest (network : NetworkId) (channel : Digest)
    (input : PreparedInvocation) : result Digest PaidWorkError :=
  let? bs := prepared_canonical_bytes input in
  Ok (xfh INPUT [NetworkId_encode_to network; Digest_bytes channel; bs]).

(* [crates/channel/src/job.rs:107-134] propose *)
Definition propose (channel : PaidChannel) (policy : InvocationPolicy)
    (payment : JobPaymentPolicyV2) (input : PreparedInvocation) (proposal_nonce : N)
    (deadlines : JobDeadlines) : result PaidJobAuthorizationV2 PaidWorkError :=
  let network := channel_network channel in
  let id := channel_id channel in
  let? work_policy := policy_digest network id policy in
  let payment_policy := job_payment_policy_digest network id payment in
  let? bs := prepared_canonical_bytes input in
  let? prepared := bound_prepared_input_digest network id input in
  let? request := request_commitment_of input in
  Ok (mk_PaidJobAuthorizationV2 id work_policy payment_policy (ContentRef_for_bytes bs) prepared
        proposal_nonce (deadline_acceptance deadlines) request (execution_environment input)
        (fixed_price payment) (deadline_terminal deadlines) (deadline_payment deadlines)
        (if request_retain input then Retain else Ephemeral)).

(* [crates/channel/src/job.rs:136-150] check_authorization *)
Definition check_authorization (channel : PaidChannel) (a : PaidJobAuthorizationV2)
    (policy : InvocationPolicy) (payment : JobPaymentPolicyV2) (height : N)
    : result Digest PaidWorkError :=
  let? digest := policy_digest (channel_network channel) (channel_id channel) policy in
  check_authorization_core channel a digest payment height.

(* [crates/channel/src/job.rs:154-202] check_input *)
Definition check_input (context : WorkContext) (binding : JobInputBinding)
    (policy : InvocationPolicy) (input : PreparedInvocation)
    : result AdmissionFacts PaidWorkError :=
  let network := context_network context in
  let channel := context_channel context in
  let? bs := prepared_canonical_bytes input in
  let? work_policy := policy_digest network channel policy in
  let? prepared := bound_prepared_input_digest network channel input in
  let? request := request_commitment_of input in
  let? policy_bytes := policy_canonical_bytes policy in
  let? _ := first_mismatch Mismatch
    [("work_policy_digest"%string, bool_decide (bound_work_policy_digest binding = work_policy));
     ("input_content"%string,
      bool_decide (bound_input_content binding = ContentRef_for_bytes bs));
     ("prepared_input_digest"%string, bool_decide (bound_prepared_input binding = prepared));
     ("request_commitment"%string, bool_decide (bound_request_commitment binding = request));
     ("environment_commitment"%string,
      bool_decide (bound_environment_commitment binding = execution_environment input));
     ("runner_public_key"%string,
      bool_decide (runner_public_key input
                   = PublicKey_Secp256k1 (Key_bytes (context_provider context))));
     ("retention"%string,
      Bool.eqb (request_retain input) (should_retain (bound_retention binding)));
     ("application_policy"%string, bool_decide (application_policy input = policy_bytes))] in
  invocation_admit policy input (PublicKey_Secp256k1 (Key_bytes (context_client context))).

(* [crates/channel/src/job.rs:205-218] check_paid_input *)
Definition check_paid_input (channel : PaidChannel) (a : PaidJobAuthorizationV2)
    (policy : InvocationPolicy) (input : PreparedInvocation)
    : result AdmissionFacts PaidWorkError :=
  let? facts := check_input (context_of_channel channel) (binding_of_authorization a) policy input in
  if negb (bool_decide (retention a = facts_retention facts))
  then Err (Mismatch "paid content retention") else Ok facts.

(* [crates/channel/src/job.rs:221-250] terminal_result *)
Definition terminal_result (context : WorkContext) (work : Digest) (binding : JobInputBinding)
    (policy : InvocationPolicy) (input : PreparedInvocation) (events : list OutputEventEnvelope)
    : result PaidJobResultV1 PaidWorkError :=
  let? _ := check_input context binding policy input in
  let? verified := verify_output input policy
                     (PublicKey_Secp256k1 (Key_bytes (context_client context)))
                     (PublicKey_Secp256k1 (Key_bytes (context_provider context))) events in
  let? terminal := ok_or (last events) (Transcript "missing terminal") in
  Ok (mk_PaidJobResultV1 work (event_commitment terminal) (output_id verified)
        (if output_success verified then Finished else ResultFailed)
        (output_transcript verified)).

(* [crates/channel/src/job.rs:252-268] paid_terminal_result *)
Definition paid_terminal_result (channel : PaidChannel) (a : PaidJobAuthorizationV2)
    (policy : InvocationPolicy) (input : PreparedInvocation) (events : list OutputEventEnvelope)
    : result PaidJobResultV1 PaidWorkError :=
  let? _ := check_paid_input channel a policy input in
  terminal_result (context_of_channel channel) (work_id channel a) (binding_of_authorization a)
    policy input events.

(* [crates/channel/src/job.rs:270-285] check_result *)
Definition check_result_against (context : WorkContext) (work : Digest)
    (binding : JobInputBinding) (policy : InvocationPolicy) (input : PreparedInvocation)
    (events : list OutputEventEnvelope) (r : PaidJobResultV1) : result unit PaidWorkError :=
  let? expected := terminal_result context work binding policy input events in
  if negb (bool_decide (expected = r)) then Err (Mismatch "result against its transcript")
  else Ok tt.

(* [crates/channel/src/model/work.rs:1036-1038] encode_transcript *)
Definition encode_transcript (transcript : list OutputEventEnvelope) : result bytes PaidWorkError :=
  encode_dag_cbor transcript.

(* [crates/channel/src/model/work.rs:1051-1069] decode_transcript *)
Definition decode_transcript (bs : bytes) (budget : N)
    : result (list OutputEventEnvelope) PaidWorkError :=
  let actual := lenN bs in
  if budget <? actual then Err (OverEnvelope "transcript length" actual budget)
  else decode_dag_cbor bs.

(* [crates/channel/src/job.rs:291-316] content_closure *)
Definition content_closure (policy : InvocationPolicy) (manifest : ProgramManifest)
    (program_root : bytes) (prepared : ContentRef) : result (list ContentRef) PaidWorkError :=
  let? closure := policy_content_closure policy manifest program_root in
  let? objects := rfold (fun (objects : gmap Digest N) object =>
      match objects !! ref_id object with
      | Some length =>
          if negb (length =? ref_bytes object) then Err (Mismatch "content closure length")
          else Ok (<[ref_id object := ref_bytes object]> objects)
      | None => Ok (<[ref_id object := ref_bytes object]> objects)
      end) ∅ (closure ++ [prepared]) in
  Ok (map (fun '(id, length) => ContentRef_new id length) (btree_items objects)).
End job.
