(* ===== verification/ChannelState.v ===== *)
(** * Channel state (crates/channel/src/work_store/channel.rs, channel/state.rs)

    What one endpoint durably knows of one paid channel, and every rule by which
    a journal record moves it.  [apply] is the dispatcher; commit runs it on a
    clone and keeps the result only when it succeeds, replay runs it again with
    bodies stripped ([metadata_only]).  A method that mutates returns what it
    reports with the state after it. *)

From S2P Require Import Prelude Xet XetChunk Canonical Primitive Errors Context Auth Objects Registry.
From S2P Require Import View Store Terms Work PaidWork JobBook JobInput.

#[local] Open Scope N_scope.

(** ** Payment funding *)

(* [crates/channel/src/work_store/channel.rs:286-338] TerminalOutcome *)
Inductive TerminalOutcome :=
  | Certified (signed_result : PaidJobResultV1 * Sig) (certificate : EarnedCertificate)
      (binding : PaymentBindingV1) (binding_signature certificate_signature : Sig)
  | Rejected (result_digest evidence_digest : Digest)
  | Expired (deadline height : N) (payload : bytes)
  | Failed (code : N)
  | Indeterminate.

#[export] Instance TerminalOutcome_eq_dec : EqDecision TerminalOutcome.
Proof. solve_decision. Defined.

(* [crates/channel/src/work_store/channel.rs:340-352] TerminalOutcome::name *)
Definition TerminalOutcome_name (self : TerminalOutcome) : string :=
  match self with
  | Certified _ _ _ _ _ => "certified"
  | Rejected _ _ => "rejected"
  | Expired _ _ _ => "expired"
  | Failed _ => "failed"
  | Indeterminate => "indeterminate"
  end.

(* [crates/channel/src/work_store/channel/funding.rs:111-119] PaymentFunding *)
#[export] Instance PaymentFunding : Funding := {|
  Authorization := PaidJobAuthorizationV2;
  JobResult := PaidJobResultV1;
  Signature := Sig;
  Terminal := TerminalOutcome;
  job_proposal_nonce := proposal_nonce;
  job_acceptance_deadline := acceptance_deadline;
  job_terminal_deadline := terminal_deadline;
  clock_unit := "finalized height";
  outcome_name := TerminalOutcome_name |}.

(** ** State *)

#[export] Instance PaymentCloseStart_eq_dec : EqDecision PaymentCloseStart.
Proof. solve_decision. Defined.

(* [crates/channel/src/work_store/channel.rs:735-744] OpenContest *)
Record OpenContest := mk_OpenContest {
  contest_start_id : StartId;
  contest_opener : Party;
  contest_response_deadline : N;
  contest_claimed : N;
}.

(* [crates/channel/src/work_store/channel.rs:748-755] CloseHistory *)
Record CloseHistory := mk_CloseHistory {
  history_height : N;
  history_payload : bytes;
  history_pending : PendingPaymentClose;
}.

(* [crates/channel/src/work_store/channel.rs:770-775] RespondedContest *)
Record RespondedContest := mk_RespondedContest {
  answer_start_id : StartId;
  answer_response_digest : PayloadHash;
}.

(* [crates/channel/src/work_store/channel.rs:785-792] CloseSettlement *)
Record CloseSettlement := mk_CloseSettlement {
  settled_height : N;
  settled_payload : bytes;
  provider_payout : N;
}.

#[export] Instance OpenContest_eq_dec : EqDecision OpenContest.
Proof. solve_decision. Defined.
#[export] Instance CloseHistory_eq_dec : EqDecision CloseHistory.
Proof. solve_decision. Defined.
#[export] Instance RespondedContest_eq_dec : EqDecision RespondedContest.
Proof. solve_decision. Defined.
#[export] Instance CloseSettlement_eq_dec : EqDecision CloseSettlement.
Proof. solve_decision. Defined.

(* [crates/channel/src/work_store/channel.rs:380-562] ChannelRecord *)
Inductive ChannelRecord :=
  | OriginObserved
  | ProposalExchange (work_id : Digest) (pending : bool)
  | CursorAdvanced (height : N) (parent payload : bytes)
  | JobProposed (authorization : PaidJobAuthorizationV2) (client_signature : Sig)
      (prepared_input : bytes)
  | JobAccepted (work_id : Digest) (provider_signature : Sig)
  | JobRunning (work_id : Digest)
  | JobResultRecord (work_id : Digest) (result : PaidJobResultV1) (provider_signature : Sig)
      (transcript : bytes)
  | PlaintextReleased (work_id : Digest)
  | ResultVerified (work_id : Digest)
  | JobTerminated (work_id : Digest) (outcome : TerminalOutcome)
  | ClosePrepared (start : PaymentCloseStart)
  | CloseOpened (contest : OpenContest)
  | CloseResponded (answer : RespondedContest)
  | CloseSettled (settlement : CloseSettlement)
  | CloseHistoryAdvanced (parent : bytes) (history : CloseHistory).

(* [crates/channel/src/work_store/channel.rs:711-722] PaymentState *)
Record PaymentState := mk_PaymentState {
  ps_channel : PaidChannel;
  ps_settlement : WorkPaymentSettlement;
  ps_cursor : N * bytes;
  ps_origin_observed : bool;
  close_prepared : option PaymentCloseStart;
  close_opened : option OpenContest;
  close_history : option CloseHistory;
  close_responded : option RespondedContest;
  close_settled : option CloseSettlement;
}.

(* [crates/channel/src/work_store/channel.rs:695-700] Channel *)
Record Channel := mk_Channel {
  ch_funding : PaymentState;
  ch_ledger : CreditLedger;
  ch_role : Role;
  ch_book : JobBook;
}.

(* [crates/channel/src/work_store/channel.rs:676-691] PaidCertificate *)
Record PaidCertificate := mk_PaidCertificate {
  paid_work_id : Digest;
  paid_certificate : EarnedCertificate;
  paid_binding : PaymentBindingV1;
  paid_binding_signature : Sig;
  paid_certificate_signature : Sig;
}.

Definition map_funding (f : PaymentState -> PaymentState) (c : Channel) : Channel :=
  mk_Channel (f (ch_funding c)) (ch_ledger c) (ch_role c) (ch_book c).
Definition map_book (f : JobBook -> JobBook) (c : Channel) : Channel :=
  mk_Channel (ch_funding c) (ch_ledger c) (ch_role c) (f (ch_book c)).

Definition with_cursor (cursor : N * bytes) (s : PaymentState) : PaymentState :=
  mk_PaymentState (ps_channel s) (ps_settlement s) cursor (ps_origin_observed s)
    (close_prepared s) (close_opened s) (close_history s) (close_responded s) (close_settled s).
Definition with_origin_observed (s : PaymentState) : PaymentState :=
  mk_PaymentState (ps_channel s) (ps_settlement s) (ps_cursor s) true
    (close_prepared s) (close_opened s) (close_history s) (close_responded s) (close_settled s).
Definition with_close_prepared (start : PaymentCloseStart) (s : PaymentState) : PaymentState :=
  mk_PaymentState (ps_channel s) (ps_settlement s) (ps_cursor s) (ps_origin_observed s)
    (Some start) (close_opened s) (close_history s) (close_responded s) (close_settled s).
Definition with_close_opened (contest : OpenContest) (s : PaymentState) : PaymentState :=
  mk_PaymentState (ps_channel s) (ps_settlement s) (ps_cursor s) (ps_origin_observed s)
    (close_prepared s) (Some contest) (close_history s) (close_responded s) (close_settled s).
Definition with_close_history (history : CloseHistory) (s : PaymentState) : PaymentState :=
  mk_PaymentState (ps_channel s) (ps_settlement s) (ps_cursor s) (ps_origin_observed s)
    (close_prepared s) (close_opened s) (Some history) (close_responded s) (close_settled s).
Definition with_close_responded (answer : RespondedContest) (s : PaymentState) : PaymentState :=
  mk_PaymentState (ps_channel s) (ps_settlement s) (ps_cursor s) (ps_origin_observed s)
    (close_prepared s) (close_opened s) (close_history s) (Some answer) (close_settled s).
Definition with_close_settled (settlement : CloseSettlement) (s : PaymentState) : PaymentState :=
  mk_PaymentState (ps_channel s) (ps_settlement s) (ps_cursor s) (ps_origin_observed s)
    (close_prepared s) (close_opened s) (close_history s) (close_responded s) (Some settlement).

Section channel_state.
  Context `{Blake3} `{Gearhash} `{Invocations}.

(** ** Queries *)

(* [crates/channel/src/work_store/channel/state.rs:72-94] Channel::new *)
Definition Channel_new (channel : PaidChannel) (settlement : WorkPaymentSettlement) (role : Role)
    (origin_height : N) (origin_payload : bytes) : Channel :=
  mk_Channel (mk_PaymentState channel settlement (origin_height, origin_payload) false
                None None None None None)
    CreditLedger_new role JobBook_default.

(* [crates/channel/src/work_store/channel/state.rs:374-392] Channel::payment_from_terminal *)
Definition payment_from_terminal (terminal : JobTerminal) : option PaidCertificate :=
  match terminal_outcome terminal with
  | Certified _ certificate binding binding_signature certificate_signature =>
      Some (mk_PaidCertificate (terminal_work_id terminal) certificate binding binding_signature
              certificate_signature)
  | _ => None
  end.

(** [Iterator::max_by_key]: the last of the largest. *)
Definition max_by_key {A} (key : A -> N) (l : list A) : option A :=
  foldl (fun best a => match best with
                       | Some b => if key a <? key b then Some b else Some a
                       | None => Some a
                       end) None l.

Definition paid_cumulative (p : PaidCertificate) : N :=
  cert_earned_cumulative (paid_certificate p).

(* [crates/channel/src/work_store/channel/state.rs:357-363] Channel::last_payment *)
Definition last_payment (self : Channel) : option PaidCertificate :=
  max_by_key paid_cumulative
    (omap payment_from_terminal (btree_values (book_terminals (ch_book self)))).

(* [crates/channel/src/work_store/channel/state.rs:367-372] Channel::payment *)
Definition payment (self : Channel) (work_id : Digest) : option PaidCertificate :=
  book_terminals (ch_book self) !! work_id ≫= payment_from_terminal.

(* [crates/channel/src/work_store/channel/state.rs:422-425] Channel::max_executable_certificate *)
Definition max_executable_certificate (self : Channel) : N :=
  match last_payment self with Some p => paid_cumulative p | None => 0 end.

(* [crates/channel/src/work_store/channel/state.rs:573-576] Channel::executable_certificate *)
Definition executable_certificate (self : Channel) : option (EarnedCertificate * Sig) :=
  (fun p => (paid_certificate p, paid_certificate_signature p)) <$> last_payment self.

(* [crates/channel/src/work_store/channel/state.rs:475-480] Channel::includable_close_start *)
Definition includable_close_start (self : Channel) (height : N) : option PaymentCloseStart :=
  match close_prepared (ch_funding self) with
  | Some start => if height <=? start_valid_through_height start then Some start else None
  | None => None
  end.

Definition is_some {A} (o : option A) : bool := match o with Some _ => true | None => false end.

(* [crates/channel/src/work_store/channel/state.rs:596-600] Channel::is_closing *)
Definition is_closing (self : Channel) : bool :=
  is_some (close_opened (ch_funding self)) || is_some (close_settled (ch_funding self))
  || is_some (includable_close_start self (ps_cursor (ch_funding self)).1).

(* [crates/channel/src/work_store/channel/state.rs:540-558] Channel::answerable_contest *)
Definition answerable_contest (self : Channel)
    : option (OpenContest * (EarnedCertificate * Sig)) :=
  if negb (bool_decide (ch_role self = Provider))
     || is_some (close_settled (ch_funding self))
     || match close_history (ch_funding self) with
        | Some history => pending_responded (history_pending history)
        | None => false
        end
  then None else
  contest ← close_opened (ch_funding self);
  if negb (bool_decide (contest_opener contest = Maker))
     || (contest_response_deadline contest <=? (ps_cursor (ch_funding self)).1)
  then None else
  certificate ← executable_certificate self;
  if contest_claimed contest <? cert_earned_cumulative certificate.1
  then Some (contest, certificate) else None.

(* [crates/channel/src/work_store/channel/state.rs:402-404] Channel::is_indeterminate *)
Definition is_indeterminate (self : Channel) : bool :=
  negb (bool_decide (indeterminate (ch_book self) = ∅)).

(* [crates/channel/src/work_store/channel/state.rs:602-607] Channel::refuse_if_closing *)
Definition refuse_if_closing (self : Channel) (step : string) : result unit ChannelStateError :=
  if is_closing self then Err (Closing step) else Ok tt.

(* [crates/channel/src/work_store/channel/state.rs:621-633] Channel::require_role *)
Definition require_role (self : Channel) (step : string) (role : Role)
    : result unit ChannelStateError :=
  if bool_decide (ch_role self = role) then Ok tt
  else Err (WrongRole step match role with Client => "client" | Provider => "provider" end).

(* [crates/channel/src/work_store/channel/state.rs:639-656] Channel::is_redundant *)
Definition is_redundant (self : Channel) (record : ChannelRecord) : bool :=
  match record with
  | PlaintextReleased work_id =>
      bool_decide (ch_role self = Provider)
      && match book_jobs (ch_book self) !! work_id with
         | Some job => delivered (job_phase job)
         | None => false
         end
  | _ => false
  end.

(* [crates/channel/src/work_store/channel/state.rs:1063-1071] Channel::refuse_open_job *)
Definition refuse_open_job (self : Channel) (step : string) : result unit ChannelStateError :=
  match btree_values (book_jobs (ch_book self)) with
  | job :: _ => Err (WrongPhase step (JobPhase_name (job_phase job)))
  | [] => Ok tt
  end.

(** ** Checks *)

(** [?] on a paid-work error. *)
Definition paid {A} (r : result A PaidWorkError) : result A ChannelStateError :=
  map_err Record_error r.

(* [crates/channel/src/work_store/channel/state.rs:1082-1109] Channel::check_authorization *)
Definition check_job_authorization (self : Channel) (authorization : PaidJobAuthorizationV2)
    (prepared_input : bytes) (replaying : bool) : result unit ChannelStateError :=
  let channel := ps_channel (ch_funding self) in
  if negb (bool_decide (auth_channel_id authorization = channel_id channel))
  then Err (WrongChannel "channel_id") else
  if replaying then
    match prepared_input with [] => Ok tt | _ => Err Malformed end
  else
  let? input := paid (prepared_from_canonical_bytes prepared_input) in
  let? policy := paid (policy_from_canonical_bytes (application_policy input)) in
  let? _ := paid (check_paid_input channel authorization policy input) in
  Ok tt.

(* [crates/channel/src/work_store/channel/state.rs:21-70] Channel::check_result_payload *)
Definition check_result_payload (self : Channel) (job : JobState) (r : PaidJobResultV1)
    (transcript : bytes) (replaying : bool) : result unit ChannelStateError :=
  let channel := ps_channel (ch_funding self) in
  if negb (bool_decide (result_work_id r = job_work_id job))
  then Err (WrongChannel "result work_id") else
  if replaying then
    match transcript with [] => Ok tt | _ => Err Malformed end
  else
  let? input := paid (prepared_from_canonical_bytes (prepared_input job)) in
  let? policy := paid (policy_from_canonical_bytes (application_policy input)) in
  let? facts := paid (check_paid_input channel (job_authorization job) policy input) in
  let? events := paid (decode_transcript transcript (max_spool_bytes facts)) in
  let? expected := paid (paid_terminal_result channel (job_authorization job) policy input events) in
  if negb (bool_decide (expected = r)) then Err (WrongChannel "result against its transcript")
  else Ok tt.

(* [crates/channel/src/work_store/channel/state.rs:1119-1162] Channel::check_close_start *)
Definition check_close_start (self : Channel) (start : PaymentCloseStart)
    : result unit ChannelStateError :=
  let channel := ps_channel (ch_funding self) in
  let? certificate :=
    match executable_certificate self with
    | None => Ok None
    | Some (certificate, sig) =>
        let? authority := ok_or (PartyKeys_authority_of
            (Parties_maker (WorkPaymentTerms_parties (channel_payment_terms channel)))
            (client_key channel)) (WrongChannel "close start certificate signer") in
        Ok (Some (certificate, PartyAuth_new authority (Native sig)))
    end in
  first_mismatch WrongChannel
    [("close start payment_edge"%string,
      bool_decide (start_payment_edge start = channel_payment_edge channel));
     ("close start payment_terms_hash"%string,
      bool_decide (Terms_hash (start_terms start) = channel_payment_terms_hash channel));
     ("close start opener_role"%string,
      bool_decide (start_opener_role start
                   = match ch_role self with Client => Maker | Provider => Taker end));
     ("close start certificate"%string, bool_decide (start_certificate start = certificate))].

(* [crates/channel/src/work_store/channel/state.rs:756-786] Channel::check_close_history *)
Definition check_close_history (self : Channel) (history : CloseHistory)
    : result unit ChannelStateError :=
  let terms := channel_payment_terms (ps_channel (ch_funding self)) in
  let? contest := ok_or (close_opened (ch_funding self)) Malformed in
  let pending := history_pending history in
  let? inclusion := ok_or (checked_sub (contest_response_deadline contest)
                             (wp_omit_response_blocks terms)) Malformed in
  if (history_height history <? inclusion)
     || (contest_response_deadline contest <? history_height history)
     || (saturating_add (ps_cursor (ch_funding self)).1 1 <? history_height history)
     || negb (bool_decide (pending_payment_edge pending
                           = channel_payment_edge (ps_channel (ch_funding self))))
     || negb (bool_decide (pending_start_id pending = contest_start_id contest))
     || negb (bool_decide (pending_opener_role pending = contest_opener contest))
     || negb (pending_response_deadline pending =? contest_response_deadline contest)
     || negb (pending_start_cumulative pending =? contest_claimed contest)
     || (pending_final_cumulative pending <? contest_claimed contest)
     || (settlement_capacity (ps_settlement (ch_funding self)) <? pending_final_cumulative pending)
     || negb (pending_penalty_amount pending =? wp_omission_bond terms)
     || (negb (pending_responded pending)
         && (negb (pending_final_cumulative pending =? contest_claimed contest)
             || pending_penalty_due pending))
     || (pending_responded pending
         && ((pending_final_cumulative pending <=? contest_claimed contest)
             || negb (Bool.eqb (pending_penalty_due pending)
                        (bool_decide (contest_opener contest = Maker)))))
  then Err Malformed else Ok tt.

(** The prices of the jobs in [phases], summed as the code sums them. *)
Definition reserved_prices (phases : JobPhase -> bool) (self : Channel) : N :=
  foldl saturating_add 0
    (map (fun job => price (job_authorization job))
       (filter (fun job => phases (job_phase job) = true)
          (btree_values (book_jobs (ch_book self))))).

(* [crates/channel/src/work_store/channel/state.rs:1631-1649] Channel::check_compute_limit *)
Definition check_compute_limit (self : Channel) (price : N) : result unit ChannelStateError :=
  let limit := compute_credit_limit (channel_policy (ps_channel (ch_funding self))) in
  let reserved := reserved_prices (fun _ => true) self in
  if limit <? saturating_add reserved price then Err (OverCredit "compute" 0 reserved price limit)
  else Ok tt.

(* [crates/channel/src/work_store/channel/state.rs:1652-1671] Channel::check_delivery_limit *)
Definition check_delivery_limit (self : Channel) (price : N) : result unit ChannelStateError :=
  let limit := delivery_credit_limit (channel_policy (ps_channel (ch_funding self))) in
  let reserved := reserved_prices delivered self in
  if limit <? saturating_add reserved price then Err (OverCredit "delivery" 0 reserved price limit)
  else Ok tt.

(* [crates/channel/src/work_close.rs:421-434] response_body_digest *)
Definition response_body_digest (channel : PaidChannel) (start_id : StartId)
    (certificate : EarnedCertificate) : PayloadHash :=
  response_digest (channel_network channel) (channel_payment_edge channel)
    (channel_payment_terms_hash channel) start_id Taker
    (EarnedCertificate_digest certificate (channel_network channel)).

(* [crates/channel/src/work_store/channel/state.rs:874-894] Channel::reading *)
Definition reading (self : Channel) (height : N) (parent payload : bytes)
    : result Applied ChannelStateError :=
  let '(held_height, held_payload) := ps_cursor (ch_funding self) in
  if (height =? held_height) && bool_decide (payload = held_payload) then Ok Redundant else
  if negb (height =? saturating_add held_height 1) then Err (CursorNotNext held_height height) else
  if negb (bool_decide (parent = held_payload)) then Err (CursorNotContiguous height) else
  Ok Changed.

(** ** Records *)

Definition on_book (self : Channel) (r : result (Applied * JobBook) ChannelStateError)
    : result (Applied * Channel) ChannelStateError :=
  let? '(applied, book) := r in Ok (applied, map_book (fun _ => book) self).

(* [crates/channel/src/work_store/channel/state.rs:840-853] Channel::apply_cursor *)
Definition apply_cursor (self : Channel) (height : N) (parent payload : bytes)
    : result (Applied * Channel) ChannelStateError :=
  let? applied := reading self height parent payload in
  match applied with
  | Redundant => Ok (Redundant, self)
  | Changed => Ok (Changed, map_funding (with_cursor (height, payload)) self)
  end.

(* [crates/channel/src/work_store/channel/state.rs:909-940] Channel::apply_close_prepared *)
Definition apply_close_prepared (self : Channel) (start : PaymentCloseStart)
    : result (Applied * Channel) ChannelStateError :=
  if bool_decide (close_prepared (ch_funding self) = Some start) then Ok (Redundant, self) else
  if is_some (close_opened (ch_funding self)) || is_some (close_settled (ch_funding self))
  then Err (Closing "signing a close start") else
  let? _ := refuse_open_job self "signing a close start" in
  let? _ := check_close_start self start in
  if is_some (includable_close_start self (ps_cursor (ch_funding self)).1)
  then Err (Conflict "a close start that can still be included") else
  Ok (Changed, map_funding (with_close_prepared start) self).

(* [crates/channel/src/work_store/channel/state.rs:958-975] Channel::apply_close_opened *)
Definition apply_close_opened (self : Channel) (contest : OpenContest)
    : result (Applied * Channel) ChannelStateError :=
  if bool_decide (close_opened (ch_funding self) = Some contest) then Ok (Redundant, self) else
  if is_some (close_settled (ch_funding self)) then Err (Closing "opening a close contest") else
  if is_some (close_opened (ch_funding self)) then Err (Conflict "this edge's close contest") else
  let? _ := refuse_open_job self "opening a close contest" in
  Ok (Changed, map_funding (with_close_opened contest) self).

(* [crates/channel/src/work_store/channel/state.rs:996-1038] Channel::apply_close_responded *)
Definition apply_close_responded (self : Channel) (answer : RespondedContest)
    : result (Applied * Channel) ChannelStateError :=
  if bool_decide (close_responded (ch_funding self) = Some answer) then Ok (Redundant, self) else
  if is_some (close_responded (ch_funding self)) then Err (Conflict "this contest's answer") else
  let? _ := require_role self "answering a close contest" Provider in
  if is_some (close_settled (ch_funding self)) then Err (Closing "answering a close contest") else
  match answerable_contest self with
  | None => Err (WrongPhase "answering a close contest" "owed no answer")
  | Some (contest, certificate) =>
      if negb (bool_decide (contest_start_id contest = answer_start_id answer))
      then Err (WrongChannel "close response start_id") else
      if negb (bool_decide (answer_response_digest answer =
                 response_body_digest (ps_channel (ch_funding self)) (answer_start_id answer)
                   certificate.1))
      then Err (WrongChannel "close response digest") else
      Ok (Changed, map_funding (with_close_responded answer) self)
  end.

(* [crates/channel/src/work_store/channel/state.rs:1046-1061] Channel::apply_close_settled *)
Definition apply_close_settled (self : Channel) (settlement : CloseSettlement)
    : result (Applied * Channel) ChannelStateError :=
  if bool_decide (close_settled (ch_funding self) = Some settlement) then Ok (Redundant, self) else
  if is_some (close_settled (ch_funding self)) then Err (Conflict "this edge's close") else
  let? _ := refuse_open_job self "closing the payment edge" in
  Ok (Changed, map_funding (with_close_settled settlement) self).

(* [crates/channel/src/work_store/channel/state.rs:788-831] Channel::apply_close_history *)
Definition apply_close_history (self : Channel) (parent : bytes) (history : CloseHistory)
    : result (Applied * Channel) ChannelStateError :=
  let? _ := check_close_history self history in
  if bool_decide (close_history (ch_funding self) = Some history) then Ok (Redundant, self) else
  let pending := history_pending history in
  let? _ :=
    match close_history (ch_funding self) with
    | Some previous =>
        let before := history_pending previous in
        let? next := ok_or (checked_add (history_height previous) 1) Malformed in
        if negb (history_height history =? next)
           || negb (bool_decide (parent = history_payload previous))
           || (pending_responded pending && negb (pending_responded before)
               && (pending_response_deadline pending <=? history_height history))
           || negb (Bool.eqb (pending_owner_signed pending).1 (pending_owner_signed before).1)
           || ((pending_responded before || negb (pending_responded pending))
               && negb (bool_decide (pending = before)))
           || (pending_final_cumulative pending <? pending_final_cumulative before)
           || ((pending_owner_signed before).1 && negb (pending_owner_signed pending).1)
           || ((pending_owner_signed before).2 && negb (pending_owner_signed pending).2)
        then Err Malformed else Ok tt
    | None =>
        let? first := ok_or (checked_sub (pending_response_deadline pending)
             (wp_omit_response_blocks (channel_payment_terms (ps_channel (ch_funding self)))))
             Malformed in
        if negb (history_height history =? first) then Err Malformed else Ok tt
    end in
  Ok (Changed, map_funding (with_close_history history) self).

(* [crates/channel/src/work_store/channel/state.rs:1164-1224] Channel::apply_proposed *)
Definition apply_proposed (self : Channel) (verifier : SigVerifier)
    (authorization : PaidJobAuthorizationV2) (client_signature : Sig) (input : bytes)
    (metadata_only : bool) : result (Applied * Channel) ChannelStateError :=
  let channel := ps_channel (ch_funding self) in
  let id := work_id channel authorization in
  match book_jobs (ch_book self) !! id with
  | Some job =>
      if bool_decide (job_authorization job = authorization)
         && bool_decide (JobBook.client_signature job = client_signature)
         && bool_decide (prepared_input job = input)
      then Ok (Redundant, self)
      else Err (WrongPhase "proposing a job" (JobPhase_name (job_phase job)))
  | None =>
      let? _ := refuse_if_terminated (ch_book self) id "proposing a job" in
      let? _ := refuse_if_closing self "proposing a job" in
      let? _ := check_job_authorization self authorization input metadata_only in
      if proposal_nonce authorization <=? proposal_nonce_high_water (ch_book self)
      then Err (WrongChannel "proposal_nonce") else
      if negb (verify_sig verifier client_signature (client_key channel) (signing_hash id))
      then Err (BadSignature "authorization" "the client") else
      let? _ := if bool_decide (ch_role self = Provider)
                then check_compute_limit self (price authorization) else Ok tt in
      on_book self (book_propose (ch_book self)
        (mk_JobState authorization id input client_signature None HalfSigned None []) (ch_role self))
  end.

(* [crates/channel/src/work_store/channel/state.rs:1226-1268] Channel::apply_accepted *)
Definition apply_accepted (self : Channel) (verifier : SigVerifier) (id : Digest)
    (provider_signature : Sig) : result (Applied * Channel) ChannelStateError :=
  let? job := open_job (ch_book self) id "co-signing a job" in
  if bool_decide (JobBook.provider_signature job = Some provider_signature)
  then Ok (Redundant, self) else
  if negb (bool_decide (job_phase job = HalfSigned))
  then Err (WrongPhase "co-signing a job" (JobPhase_name (job_phase job))) else
  let height := (ps_cursor (ch_funding self)).1 in
  let deadline := acceptance_deadline (job_authorization job) in
  if bool_decide (ch_role self = Provider) && (deadline <? height)
  then Err (AcceptanceLate (diagnostic height) (diagnostic deadline)) else
  if negb (verify_sig verifier provider_signature (provider_key (ps_channel (ch_funding self)))
             (signing_hash (job_work_id job)))
  then Err (BadSignature "authorization" "the provider") else
  on_book self (book_accept (ch_book self) id provider_signature height (ch_role self)).

(* [crates/channel/src/work_store/channel/state.rs:1270-1274] Channel::apply_running *)
Definition apply_running (self : Channel) (id : Digest)
    : result (Applied * Channel) ChannelStateError :=
  let? _ := require_role self "a running marker" Provider in
  on_book self (book_run (ch_book self) id (ps_cursor (ch_funding self)).1).

Definition with_transcript (transcript : bytes) (j : JobState) : JobState :=
  mk_JobState (job_authorization j) (job_work_id j) (prepared_input j)
    (JobBook.client_signature j) (JobBook.provider_signature j) (job_phase j) (job_result j)
    transcript.

(* [crates/channel/src/work_store/channel/state.rs:1291-1379] Channel::apply_result *)
Definition apply_result (self : Channel) (verifier : SigVerifier) (id : Digest)
    (r : PaidJobResultV1) (provider_signature : Sig) (transcript : bytes) (metadata_only : bool)
    : result (Applied * Channel) ChannelStateError :=
  let channel := ps_channel (ch_funding self) in
  let? job := open_job (ch_book self) id "recording a result" in
  match job_result job with
  | Some (held, signature) =>
      let same := bool_decide (held = r) && bool_decide (signature = provider_signature) in
      if same && bool_decide (job_transcript job = transcript) then Ok (Redundant, self) else
      if bool_decide (ch_role self = Client) && negb metadata_only && same
         && bool_decide (job_transcript job = [])
      then
        let? _ := check_result_payload self job r transcript false in
        Ok (Changed, map_book (with_jobs (alter (with_transcript transcript) id)) self)
      else Err (Conflict "this job's result")
  | None =>
      if bool_decide (id ∈ indeterminate (ch_book self)) then Err IndeterminateJob else
      let expected := match ch_role self with Provider => Running | Client => Accepted end in
      if negb (bool_decide (job_phase job = expected))
         && negb (bool_decide (ch_role self = Provider) && bool_decide (job_phase job = Streaming))
      then Err (WrongPhase "recording a result" (JobPhase_name (job_phase job))) else
      let height := (ps_cursor (ch_funding self)).1 in
      let deadline := terminal_deadline (job_authorization job) in
      if deadline <? height then Err (ReceiptLate height deadline) else
      let? _ := check_result_payload self job r transcript metadata_only in
      if negb (verify_sig verifier provider_signature (provider_key channel)
                 (signing_hash (result_digest channel r)))
      then Err (BadSignature "result" "the provider") else
      on_book self (record_result (ch_book self) id r provider_signature transcript)
  end.

(* [crates/channel/src/work_store/channel/state.rs:1382-1407] Channel::apply_verified *)
Definition apply_verified (self : Channel) (id : Digest) (replaying : bool)
    : result (Applied * Channel) ChannelStateError :=
  let? _ := require_role self "recording a verified result" Client in
  let? job := open_job (ch_book self) id "recording a verified result" in
  match job_result job with
  | None => Err (WrongPhase "recording a verified result" (JobPhase_name (job_phase job)))
  | Some (r, _) =>
      if negb (bool_decide (result_outcome r = Finished))
      then Err (WrongChannel "verified failed result") else
      if bool_decide (job_phase job = Verified) then Ok (Redundant, self) else
      let? _ := if negb replaying then check_result_payload self job r (job_transcript job) false
                else Ok tt in
      on_book self (mark_verified (ch_book self) id)
  end.

(* [crates/channel/src/work_store/channel/state.rs:1409-1423] Channel::apply_plaintext *)
Definition apply_plaintext (self : Channel) (id : Digest)
    : result (Applied * Channel) ChannelStateError :=
  let? _ := require_role self "releasing plaintext" Provider in
  let? job := open_job (ch_book self) id "releasing plaintext" in
  if delivered (job_phase job) then Ok (Redundant, self) else
  if match job_phase job with Ready | Running => false | _ => true end
  then Err (WrongPhase "releasing plaintext" (JobPhase_name (job_phase job))) else
  let? _ := check_delivery_limit self (price (job_authorization job)) in
  on_book self (book_release (ch_book self) id).

(* [crates/channel/src/work_store/channel/state.rs:1530-1628] Channel::terminate_certified *)
Definition terminate_certified (self : Channel) (verifier : SigVerifier) (job : JobState)
    (signed_result : PaidJobResultV1 * Sig) (certificate : EarnedCertificate)
    (binding : PaymentBindingV1) (binding_signature certificate_signature : Sig)
    : result (Applied * Channel) ChannelStateError :=
  let channel := ps_channel (ch_funding self) in
  let payable := match ch_role self with
                 | Provider => bool_decide (job_phase job = Delivered)
                 | Client => bool_decide (job_phase job = Verified)
                 end in
  if negb payable then Err (WrongPhase "crediting a payment" (JobPhase_name (job_phase job))) else
  match job_result job with
  | None => Err (WrongPhase "crediting a payment" (JobPhase_name (job_phase job)))
  | Some held =>
      if negb (bool_decide (signed_result = held)) then Err (WrongChannel "certified receipt") else
      let height := (ps_cursor (ch_funding self)).1 in
      let deadline := payment_deadline (job_authorization job) in
      if bool_decide (ch_role self = Client) && (deadline <? height)
      then Err (PaymentLate height deadline) else
      if negb (verify_sig verifier binding_signature (client_key channel)
                 (signing_hash (payment_binding_digest channel binding)))
      then Err (BadSignature "binding" "the client") else
      if negb (verify_sig verifier certificate_signature (client_key channel)
                 (EarnedCertificate_digest certificate (channel_network channel)))
      then Err (BadSignature "certificate" "the client") else
      let? ledger := paid (credit_payment (ch_ledger self) channel (job_authorization job)
                             held.1 binding certificate (ps_settlement (ch_funding self))) in
      let terminal := mk_JobTerminal (job_work_id job) (job_phase job)
                        (Certified signed_result certificate binding binding_signature
                           certificate_signature) in
      Ok (Changed, mk_Channel (ch_funding self) ledger (ch_role self)
                     (rest_at (ch_book self) terminal))
  end.

(* [crates/channel/src/work_store/channel/state.rs:1433-1522] Channel::apply_terminated *)
Definition apply_terminated (self : Channel) (verifier : SigVerifier) (id : Digest)
    (outcome : TerminalOutcome) : result (Applied * Channel) ChannelStateError :=
  match book_terminals (ch_book self) !! id with
  | Some held =>
      if bool_decide (terminal_outcome held = outcome) then Ok (Redundant, self)
      else Err (Terminated "terminating the job" (outcome_name (terminal_outcome held)))
  | None =>
      if match outcome with Certified _ _ _ _ _ => true | _ => false end
         && negb (is_some (book_jobs (ch_book self) !! id))
      then Err (WrongChannel "binding work_id") else
      let? job := open_job (ch_book self) id "terminating the job" in
      let rest := map_book (fun book =>
                    rest_at book (mk_JobTerminal (job_work_id job) (job_phase job) outcome)) self in
      match outcome with
      | Certified signed_result certificate binding binding_signature certificate_signature =>
          terminate_certified self verifier job signed_result certificate binding
            binding_signature certificate_signature
      | Rejected named _ =>
          let? _ := require_role self "refuting a result" Client in
          if negb (bool_decide (job_phase job = Ready))
          then Err (WrongPhase "refuting a result" (JobPhase_name (job_phase job))) else
          match job_result job with
          | None => Err (WrongPhase "refuting a result" (JobPhase_name (job_phase job)))
          | Some (r, _) =>
              if negb (bool_decide (named = result_digest (ps_channel (ch_funding self)) r))
              then Err (WrongChannel "rejected result_digest") else Ok (Changed, rest)
          end
      | Expired _ _ _ | Failed _ | Indeterminate => Ok (Changed, rest)
      end
  end.

(* [crates/channel/src/work_store/channel/state.rs:663-754] Channel::apply *)
Definition apply (self : Channel) (verifier : SigVerifier) (record : ChannelRecord)
    (metadata_only : bool) : result (Applied * Channel) ChannelStateError :=
  match record with
  | OriginObserved =>
      if ps_origin_observed (ch_funding self) then Ok (Redundant, self)
      else Ok (Changed, map_funding with_origin_observed self)
  | ProposalExchange id pending =>
      let? _ := require_role self "recording proposal exchange" Client in
      on_book self (proposal_exchange (ch_book self) id pending)
  | CursorAdvanced height parent payload => apply_cursor self height parent payload
  | JobProposed authorization client_signature input =>
      apply_proposed self verifier authorization client_signature input metadata_only
  | JobAccepted id provider_signature => apply_accepted self verifier id provider_signature
  | JobRunning id => apply_running self id
  | JobResultRecord id r provider_signature transcript =>
      apply_result self verifier id r provider_signature transcript metadata_only
  | PlaintextReleased id => apply_plaintext self id
  | ResultVerified id => apply_verified self id metadata_only
  | JobTerminated id outcome => apply_terminated self verifier id outcome
  | CloseHistoryAdvanced parent history => apply_close_history self parent history
  | ClosePrepared start => apply_close_prepared self start
  | CloseOpened contest => apply_close_opened self contest
  | CloseResponded answer => apply_close_responded self answer
  | CloseSettled settlement => apply_close_settled self settlement
  end.

(* [crates/channel/src/work_store/channel/state.rs:5-19] Channel::restore_client_input *)
Definition restore_client_input (self : Channel) (id : Digest) (input : bytes)
    : result Channel ChannelStateError :=
  let? _ := require_role self "restoring caller input" Client in
  let? job := open_job (ch_book self) id "restoring caller input" in
  let? _ := check_job_authorization self (job_authorization job) input false in
  Ok (map_book (with_jobs (alter (fun j =>
        mk_JobState (job_authorization j) (job_work_id j) input (JobBook.client_signature j)
          (JobBook.provider_signature j) (job_phase j) (job_result j) (job_transcript j)) id)) self).

(** ** Revalidating a checkpoint *)

(** The [for] loops of [revalidate]: the first element refused stops it. *)
Definition for_each {A} (f : A -> result unit ChannelStateError) (l : list A)
    : result unit ChannelStateError :=
  rfold (fun _ a => f a) tt l.

(* [crates/channel/src/work_store/channel/state.rs:153-207] Channel::revalidate *)
Definition revalidate_job (self : Channel) (verifier : SigVerifier) (metadata_only : bool)
    (job : JobState) : result unit ChannelStateError :=
  let channel := ps_channel (ch_funding self) in
  if negb (bool_decide (job_work_id job = work_id channel (job_authorization job)))
  then Err (WrongChannel "work_id") else
  let? _ := check_job_authorization self (job_authorization job) (prepared_input job)
              metadata_only in
  if match only_role (job_phase job) with
     | Some role => negb (bool_decide (role = ch_role self))
     | None => false
     end
     || negb (Bool.eqb (is_some (JobBook.provider_signature job))
                (negb (bool_decide (job_phase job = HalfSigned))))
     || negb (Bool.eqb (is_some (job_result job)) (has_result (job_phase job)))
  then Err (WrongPhase "replaying a checkpoint" (JobPhase_name (job_phase job))) else
  if negb (verify_sig verifier (JobBook.client_signature job) (client_key channel)
             (signing_hash (job_work_id job)))
  then Err (BadSignature "authorization" "the client") else
  if match JobBook.provider_signature job with
     | Some sig => negb (verify_sig verifier sig (provider_key channel)
                           (signing_hash (job_work_id job)))
     | None => false
     end
  then Err (BadSignature "authorization" "the provider") else
  match job_result job with
  | None => Ok tt
  | Some (r, provider_signature) =>
      if bool_decide (job_phase job = Verified) && negb (bool_decide (result_outcome r = Finished))
      then Err (WrongChannel "verified failed result") else
      let? _ := check_result_payload self job r (job_transcript job) metadata_only in
      if negb (verify_sig verifier provider_signature (provider_key channel)
                 (signing_hash (result_digest channel r)))
      then Err (BadSignature "result" "the provider") else Ok tt
  end.

(* [crates/channel/src/work_store/channel/state.rs:208-258] Channel::revalidate *)
Definition revalidate_terminal (self : Channel) (verifier : SigVerifier) (terminal : JobTerminal)
    : result unit ChannelStateError :=
  let channel := ps_channel (ch_funding self) in
  if is_some (book_jobs (ch_book self) !! terminal_work_id terminal)
  then Err (Terminated "replaying a checkpoint with a job still open"
              (outcome_name (terminal_outcome terminal))) else
  match terminal_outcome terminal with
  | Certified (r, signature) certificate binding binding_signature certificate_signature =>
      if negb (bool_decide (result_outcome r = Finished))
         || negb (bool_decide (result_work_id r = terminal_work_id terminal))
         || negb (bool_decide (binding_work_id binding = terminal_work_id terminal))
         || negb (bool_decide (binding_result_digest binding = result_digest channel r))
         || negb (verify_sig verifier signature (provider_key channel)
                    (signing_hash (result_digest channel r)))
      then Err (WrongChannel "certified success receipt") else
      if negb (verify_sig verifier binding_signature (client_key channel)
                 (signing_hash (payment_binding_digest channel binding)))
      then Err (BadSignature "binding" "the client") else
      if negb (verify_sig verifier certificate_signature (client_key channel)
                 (EarnedCertificate_digest certificate (channel_network channel)))
      then Err (BadSignature "certificate" "the client") else Ok tt
  | _ => Ok tt
  end.

(* [crates/channel/src/work_store/channel/state.rs:259-290] Channel::revalidate *)
Definition revalidate_close (self : Channel) : result unit ChannelStateError :=
  let? _ := match close_prepared (ch_funding self) with
            | Some start => check_close_start self start
            | None => Ok tt
            end in
  match close_responded (ch_funding self) with
  | None => Ok tt
  | Some answer =>
      let? contest :=
        match close_opened (ch_funding self) with
        | Some contest => if bool_decide (contest_start_id contest = answer_start_id answer)
                          then Ok contest else Err (WrongChannel "close response start_id")
        | None => Err (WrongChannel "close response start_id")
        end in
      match executable_certificate self with
      | None => Err (WrongPhase "replaying a fixed contest answer" "owed no answer")
      | Some (certificate, _) =>
          if negb (bool_decide (answer_response_digest answer =
                     response_body_digest (ps_channel (ch_funding self))
                       (contest_start_id contest) certificate))
          then Err (WrongChannel "close response digest") else Ok tt
      end
  end.

(* [crates/channel/src/work_store/channel/state.rs:136-152] Channel::revalidate *)
Definition revalidate (self : Channel) (verifier : SigVerifier) (metadata_only : bool)
    : result unit ChannelStateError :=
  let? _ := revalidate_exchange (ch_book self) (ch_role self) in
  let? _ := match close_history (ch_funding self) with
            | Some history => check_close_history self history
            | None => Ok tt
            end in
  if negb (credited_cumulative (ch_ledger self) =? max_executable_certificate self)
  then Err (WrongChannel "credited cumulative against the terminal") else
  let? _ := for_each (revalidate_job self verifier metadata_only)
              (btree_values (book_jobs (ch_book self))) in
  let? _ := for_each (revalidate_terminal self verifier)
              (btree_values (book_terminals (ch_book self))) in
  revalidate_close self.
End channel_state.
