(* ===== verification/ChannelSteps.v ===== *)
(** * The channel as a transition system

    [step] lists the ways a record can move a channel, each with what its guards
    establish; [apply_step] shows that [apply] makes no other move, so that the
    invariants of ChannelInvariant.v are proved by cases on [step].  [reachable]
    is every state an endpoint's journal can hold: it starts at the block that
    opened the channel and takes accepted records, and a restart marks the
    invocations that were left running. *)

From S2P Require Import Prelude Xet XetChunk Canonical Primitive Errors Context Auth Objects Registry.
From S2P Require Import View Store Terms Work PaidWork JobBook JobInput ChannelState.

#[local] Open Scope N_scope.

(** ** Maps in key order *)

Lemma elem_of_btree_items {A} (m : gmap Digest A) k x : (k, x) ∈ btree_items m <-> m !! k = Some x.
Proof. unfold btree_items. rewrite sort_by_id_perm. apply elem_of_map_to_list. Qed.

Lemma elem_of_btree_values {A} (m : gmap Digest A) x :
  x ∈ btree_values m <-> exists k, m !! k = Some x.
Proof.
  unfold btree_values. rewrite list_elem_of_fmap. split.
  - intros ([k y] & -> & Hy). exists k. by apply elem_of_btree_items.
  - intros [k Hk]. exists (k, x). split; [done|]. by apply elem_of_btree_items.
Qed.

Lemma btree_values_perm {A} (m : gmap Digest A) : btree_values m ≡ₚ map snd (map_to_list m).
Proof. unfold btree_values, btree_items. by rewrite sort_by_id_perm. Qed.

Lemma btree_values_nil {A} (m : gmap Digest A) : btree_values m = [] <-> m = ∅.
Proof.
  split.
  - intros Hnil. apply map_empty. intros k. destruct (m !! k) as [x|] eqn:Hk; [|done].
    assert (x ∈ btree_values m) as Hx by (apply elem_of_btree_values; eauto).
    rewrite Hnil in Hx. by apply not_elem_of_nil in Hx.
  - intros ->. done.
Qed.

Notation chan s := (ps_channel (ch_funding s)).
Notation jobs s := (book_jobs (ch_book s)).
Notation terminals s := (book_terminals (ch_book s)).
Notation height s := (ps_cursor (ch_funding s)).1.

(** ** Inverting guards *)

Lemma refuse_if_terminated_Ok b id what :
  refuse_if_terminated b id what = Ok tt <-> book_terminals b !! id = None.
Proof. unfold refuse_if_terminated. destruct (book_terminals b !! id); done. Qed.

Lemma require_role_Ok s what role : require_role s what role = Ok tt <-> ch_role s = role.
Proof. unfold require_role. case_bool_decide; done. Qed.

Lemma refuse_open_job_Ok s what : refuse_open_job s what = Ok tt <-> jobs s = ∅.
Proof.
  unfold refuse_open_job. rewrite <- btree_values_nil. by destruct (btree_values (jobs s)).
Qed.

Lemma is_some_false {A} (o : option A) : is_some o = false <-> o = None.
Proof. by destruct o. Qed.

Lemma on_book_Ok s r a s' :
  on_book s r = Ok (a, s') <-> exists b, r = Ok (a, b) /\ s' = map_book (fun _ => b) s.
Proof.
  unfold on_book. destruct r as [[a' b]|e]; simpl; split.
  - intros [= -> <-]. eauto.
  - intros (? & [= -> ->] & ->). done.
  - done.
  - by intros (? & ? & _).
Qed.

Lemma map_book_id s : map_book (fun _ => ch_book s) s = s.
Proof. by destruct s. Qed.

Lemma unit_eq (u : unit) : u = tt.
Proof. by destruct u. Qed.

(** Invert a successful guard chain of this file. *)
Ltac guards :=
  repeat (first [inv_ok_step | match goal with
    | u : unit |- _ => rewrite (unit_eq u) in *; clear u
    | H : open_job _ _ _ = Ok _ |- _ => apply open_job_Ok in H
    | H : refuse_if_terminated _ _ _ = Ok _ |- _ => apply refuse_if_terminated_Ok in H
    | H : require_role _ _ _ = Ok _ |- _ => apply require_role_Ok in H
    | H : refuse_open_job _ _ = Ok _ |- _ => apply refuse_open_job_Ok in H
    | H : is_some _ = false |- _ => apply is_some_false in H
    | H : on_book _ _ = Ok _ |- _ =>
        apply on_book_Ok in H; let b := fresh "b" in let E := fresh "B" in
        destruct H as (b & E & H)
    end]; cbn beta iota in *); bool_simpl;
  repeat match goal with H : is_some _ = false |- _ => apply is_some_false in H end.

Section steps.
  Context `{Blake3} `{Gearhash} `{Invocations} (v : SigVerifier).


(** The refusals a closing channel makes: what a step under them may rely on. *)
Inductive step (s : Channel) : Channel -> Prop :=
  | step_redundant : step s s
  | step_origin : step s (map_funding with_origin_observed s)
  | step_exchange id job p :
      ch_role s = Client -> jobs s !! id = Some job -> job_phase job = HalfSigned ->
      p = Some id \/ p = None ->
      step s (map_book (with_pending p) s)
  | step_cursor h parent payload :
      reading s h parent payload = Ok Changed ->
      step s (map_funding (with_cursor (h, payload)) s)
  | step_proposed a sig input :
      let id := work_id (chan s) a in
      jobs s !! id = None -> terminals s !! id = None -> is_closing s = false ->
      auth_channel_id a = channel_id (chan s) ->
      proposal_nonce_high_water (ch_book s) < proposal_nonce a ->
      verify_sig v sig (client_key (chan s)) (signing_hash id) = true ->
      (ch_role s = Provider -> check_compute_limit s (price a) = Ok tt) ->
      (ch_role s = Client -> pending_proposal (ch_book s) = None) ->
      step s (map_book (fun b =>
        mk_JobBook match ch_role s with Client => Some id | Provider => pending_proposal b end
          (<[id := mk_JobState a id input sig None HalfSigned None []]> (book_jobs b))
          (book_terminals b) (proposal_nonce a) (indeterminate b)) s)
  | step_accepted id job sig :
      jobs s !! id = Some job -> job_phase job = HalfSigned ->
      (ch_role s = Provider -> height s <= acceptance_deadline (job_authorization job)) ->
      verify_sig v sig (provider_key (chan s)) (signing_hash (job_work_id job)) = true ->
      step s (map_book (fun b =>
        with_pending (if bool_decide (pending_proposal b = Some id) then None
                      else pending_proposal b)
          (with_jobs <[id := mk_JobState (job_authorization job) (job_work_id job)
             (prepared_input job) (client_signature job) (Some sig) Accepted (job_result job)
             (job_transcript job)]> b)) s)
  | step_phase id job phase :
      jobs s !! id = Some job ->
      (job_phase job = Accepted /\ phase = Running /\ ch_role s = Provider /\
       height s <= terminal_deadline (job_authorization job)) \/
      (((job_phase job = Running /\ phase = Streaming) \/
        (job_phase job = Ready /\ phase = Delivered)) /\ ch_role s = Provider /\
       check_delivery_limit s (price (job_authorization job)) = Ok tt) \/
      (job_phase job = Ready /\ phase = Verified /\ ch_role s = Client /\
       exists r sig, job_result job = Some (r, sig) /\ result_outcome r = Finished) ->
      step s (map_book (with_jobs <[id := with_phase phase job]>) s)
  | step_result id job r sig transcript :
      jobs s !! id = Some job -> job_result job = None -> id ∉ indeterminate (ch_book s) ->
      (job_phase job = Accepted /\ ch_role s = Client) \/
      (job_phase job = Running /\ ch_role s = Provider) \/
      (job_phase job = Streaming /\ ch_role s = Provider) ->
      height s <= terminal_deadline (job_authorization job) ->
      result_work_id r = job_work_id job ->
      verify_sig v sig (provider_key (chan s)) (signing_hash (result_digest (chan s) r)) = true ->
      step s (map_book (with_jobs <[id := mk_JobState (job_authorization job) (job_work_id job)
             (prepared_input job) (client_signature job) (provider_signature job)
             match job_phase job with Streaming => Delivered | _ => Ready end
             (Some (r, sig)) transcript]>) s)
  | step_transcript id job transcript :
      jobs s !! id = Some job -> ch_role s = Client -> job_transcript job = [] ->
      step s (map_book (with_jobs (alter (with_transcript transcript) id)) s)
  | step_certified id job r sig certificate binding binding_signature certificate_signature ledger :
      jobs s !! id = Some job -> terminals s !! id = None ->
      (job_phase job = Delivered /\ ch_role s = Provider) \/
      (job_phase job = Verified /\ ch_role s = Client /\
       height s <= payment_deadline (job_authorization job)) ->
      job_result job = Some (r, sig) ->
      verify_sig v binding_signature (client_key (chan s))
        (signing_hash (payment_binding_digest (chan s) binding)) = true ->
      verify_sig v certificate_signature (client_key (chan s))
        (EarnedCertificate_digest certificate (channel_network (chan s))) = true ->
      credit_payment (ch_ledger s) (chan s) (job_authorization job) r binding certificate
        (ps_settlement (ch_funding s)) = Ok ledger ->
      step s (mk_Channel (ch_funding s) ledger (ch_role s)
        (rest_at (ch_book s) (mk_JobTerminal (job_work_id job) (job_phase job)
           (Certified (r, sig) certificate binding binding_signature certificate_signature))))
  | step_ended id job outcome :
      jobs s !! id = Some job -> terminals s !! id = None ->
      match outcome with Certified _ _ _ _ _ => False | _ => True end ->
      step s (map_book (fun b => rest_at b (mk_JobTerminal (job_work_id job) (job_phase job) outcome)) s)
  | step_prepared start :
      close_opened (ch_funding s) = None -> close_settled (ch_funding s) = None ->
      jobs s = ∅ -> check_close_start s start = Ok tt ->
      includable_close_start s (height s) = None ->
      step s (map_funding (with_close_prepared start) s)
  | step_opened contest :
      close_settled (ch_funding s) = None -> close_opened (ch_funding s) = None -> jobs s = ∅ ->
      step s (map_funding (with_close_opened contest) s)
  | step_responded contest certificate sig answer :
      close_responded (ch_funding s) = None ->
      answerable_contest s = Some (contest, (certificate, sig)) ->
      contest_start_id contest = answer_start_id answer ->
      answer_response_digest answer
        = response_body_digest (chan s) (answer_start_id answer) certificate ->
      step s (map_funding (with_close_responded answer) s)
  | step_settled settlement :
      close_settled (ch_funding s) = None -> jobs s = ∅ ->
      step s (map_funding (with_close_settled settlement) s)
  | step_history hist :
      check_close_history s hist = Ok tt ->
      step s (map_funding (with_close_history hist) s).

(** ** [apply] makes only these steps *)

Lemma proposal_exchange_step s id pending a s' :
  ch_role s = Client -> on_book s (proposal_exchange (ch_book s) id pending) = Ok (a, s') -> step s s'.
Proof.
  unfold proposal_exchange. intros Hrole Hr. guards. subst.
  destruct (bool_decide (pending_proposal _ = _)); guards; subst.
  - rewrite map_book_id. constructor.
  - eapply step_exchange; [done..|]. destruct pending; auto.
Qed.

Lemma apply_cursor_step s h parent payload a s' :
  apply_cursor s h parent payload = Ok (a, s') -> step s s'.
Proof.
  unfold apply_cursor. intros Hr. guards. destruct v0; guards; subst; [|constructor].
  by eapply step_cursor.
Qed.

Lemma apply_proposed_step s authorization sig input meta a s' :
  apply_proposed s v authorization sig input meta = Ok (a, s') -> step s s'.
Proof.
  unfold apply_proposed. intros Hr. destruct (jobs s !! _) as [job|] eqn:Hjob.
  { guards. subst. constructor. }
  guards. subst. unfold book_propose in B. cbn [job_work_id job_authorization] in B.
  rewrite Hjob in B. guards. subst.
  assert (auth_channel_id authorization = channel_id (chan s)) as Hid.
  { unfold check_job_authorization in E1. by guards. }
  assert (ch_role s = Provider -> check_compute_limit s (price authorization) = Ok tt) as Hlimit.
  { intros Hrole. rewrite Hrole, bool_decide_eq_true_2 in E2 by done. done. }
  unfold refuse_if_closing in E0. guards.
  pose proof (step_proposed s authorization sig input) as Hstep. cbv zeta in Hstep.
  destruct (ch_role s); [destruct (pending_proposal (ch_book s)) eqn:Hpending|]; guards; subst;
    apply Hstep; auto; done.
Qed.

Lemma apply_accepted_step s id sig a s' : apply_accepted s v id sig = Ok (a, s') -> step s s'.
Proof.
  unfold apply_accepted. intros Hr. guards.
  destruct (bool_decide (provider_signature _ = _)) eqn:Hsame; guards; subst; [constructor|].
  unfold book_accept in B. guards. rewrite E0 in E. injection E as ->.
  rewrite bool_decide_eq_false_2 in B by done. guards. subst.
  match goal with |- step s (map_book (fun _ => ?bk) _) =>
    assert (bk = (fun b => with_pending (if bool_decide (pending_proposal b = Some id) then None
      else pending_proposal b) (with_jobs <[id := mk_JobState (job_authorization v0) (job_work_id v0)
             (prepared_input v0) (client_signature v0) (Some sig) Accepted (job_result v0)
             (job_transcript v0)]> b)) (ch_book s)) as -> end.
  { clear. destruct (ch_book s); simpl. by case_bool_decide. }
  eapply step_accepted; [done..| |done].
  intros Hrole. rewrite Hrole, bool_decide_eq_true_2 in * by done. cbn [andb] in *. by bool_simpl.
Qed.

Lemma apply_running_step s id a s' : apply_running s id = Ok (a, s') -> step s s'.
Proof.
  unfold apply_running, book_run. intros Hr. guards.
  destruct (job_phase v0) eqn:Hphase; guards; subst; rewrite ?map_book_id; try constructor 1.
  eapply step_phase; [done|]. left. done.
Qed.

Lemma check_result_payload_work_id s job r transcript meta :
  check_result_payload s job r transcript meta = Ok tt -> result_work_id r = job_work_id job.
Proof. unfold check_result_payload. intros Hr. by guards. Qed.

Lemma apply_result_step s id r sig transcript meta a s' :
  apply_result s v id r sig transcript meta = Ok (a, s') -> step s s'.
Proof.
  unfold apply_result. intros Hr. guards. destruct (job_result v0) as [[held sg]|] eqn:Hres.
  - destruct (_ && bool_decide (job_transcript v0 = transcript)); guards; subst; [constructor|].
    eapply step_transcript; done.
  - guards. subst. unfold record_result in B. guards. rewrite E1 in E. injection E as ->.
    apply check_result_payload_work_id in E0.
    pose proof (step_result s id v0 r sig transcript) as Hstep.
    assert ((job_phase v0 = Accepted /\ ch_role s = Client) \/
      (job_phase v0 = Running /\ ch_role s = Provider) \/
      (job_phase v0 = Streaming /\ ch_role s = Provider)) as Hphase.
    { clear - G0. destruct (job_phase v0), (ch_role s); simpl in G0; auto; discriminate G0. }
    specialize (Hstep E1 Hres ltac:(done) Hphase ltac:(done) E0 ltac:(done)).
    destruct Hphase as [[Hp _]|[[Hp _]|[Hp _]]]; rewrite Hp in *; guards; subst; exact Hstep.
Qed.

Lemma apply_verified_step s id replaying a s' :
  apply_verified s id replaying = Ok (a, s') -> step s s'.
Proof.
  unfold apply_verified. intros Hr. guards.
  destruct (job_result v1) as [[r sig]|] eqn:Hres; guards.
  destruct (bool_decide (job_phase v1 = Verified)); guards; subst; [constructor|].
  unfold mark_verified in B. guards. rewrite E2 in E0. injection E0 as ->.
  destruct (job_phase v1) eqn:Hphase; guards; subst; rewrite ?map_book_id; try constructor 1.
  eapply step_phase; [done|]. right; right. eauto 10.
Qed.

Lemma apply_plaintext_step s id a s' : apply_plaintext s id = Ok (a, s') -> step s s'.
Proof.
  unfold apply_plaintext. intros Hr. guards.
  destruct (delivered (job_phase v1)) eqn:Hdel; guards; subst; [constructor|].
  unfold book_release in B. guards. rewrite E2 in E0. injection E0 as ->.
  destruct (job_phase v1) eqn:Hphase; guards; subst; rewrite ?map_book_id; try constructor 1;
    (eapply step_phase; [done|]); right; left; auto 10.
Qed.

Lemma apply_terminated_step s id outcome a s' :
  apply_terminated s v id outcome = Ok (a, s') -> step s s'.
Proof.
  unfold apply_terminated. intros Hr. destruct (terminals s !! id) eqn:Hterm.
  { guards. subst. constructor. }
  guards. destruct outcome as [[r sig] certificate binding bsig csig| | | |];
    try (guards; subst; by eapply step_ended).
  - unfold terminate_certified in Hr. guards.
    destruct (job_result v0) as [[r' sig']|] eqn:Hres; [|done]. guards. simplify_eq.
    unfold paid in *. guards. eapply step_certified; try done.
    destruct (ch_role s); bool_simpl; [right|by left]. split_and!; [done..|].
    rewrite bool_decide_eq_true_2 in * by done. cbn [andb] in *. by bool_simpl.
  - guards. destruct (job_result v0) as [[r sig]|]; [|done]. guards. subst. by eapply step_ended.
Qed.

Lemma apply_close_prepared_step s start a s' :
  apply_close_prepared s start = Ok (a, s') -> step s s'.
Proof.
  unfold apply_close_prepared. intros Hr.
  destruct (bool_decide (close_prepared _ = _)); guards; subst; [constructor|].
  by apply step_prepared.
Qed.

Lemma apply_close_opened_step s contest a s' :
  apply_close_opened s contest = Ok (a, s') -> step s s'.
Proof.
  unfold apply_close_opened. intros Hr.
  destruct (bool_decide (close_opened _ = _)); guards; subst; [constructor|].
  by apply step_opened.
Qed.

Lemma apply_close_responded_step s answer a s' :
  apply_close_responded s answer = Ok (a, s') -> step s s'.
Proof.
  unfold apply_close_responded. intros Hr.
  destruct (bool_decide (close_responded _ = _)); guards; subst; [constructor|].
  destruct (answerable_contest s) as [[contest [certificate sig]]|] eqn:Hans; [|done].
  guards. subst. by eapply step_responded.
Qed.

Lemma apply_close_settled_step s settlement a s' :
  apply_close_settled s settlement = Ok (a, s') -> step s s'.
Proof.
  unfold apply_close_settled. intros Hr.
  destruct (bool_decide (close_settled _ = _)); guards; subst; [constructor|].
  by apply step_settled.
Qed.

Lemma apply_close_history_step s parent hist a s' :
  apply_close_history s parent hist = Ok (a, s') -> step s s'.
Proof.
  unfold apply_close_history. intros Hr. inv_ok_step. rewrite (unit_eq v0) in *.
  destruct (bool_decide (close_history _ = _)); guards; subst; [constructor|].
  by apply step_history.
Qed.

Lemma apply_step s record meta a s' : apply s v record meta = Ok (a, s') -> step s s'.
Proof.
  destruct record; cbn [apply]; intros Hr;
    eauto using apply_cursor_step, apply_proposed_step, apply_accepted_step, apply_running_step,
      apply_result_step, apply_verified_step, apply_plaintext_step, apply_terminated_step,
      apply_close_prepared_step, apply_close_opened_step, apply_close_responded_step,
      apply_close_settled_step, apply_close_history_step.
  - destruct (ps_origin_observed _); guards; subst; constructor.
  - apply rbind_Ok in Hr as (u & Hrole & Hr). rewrite (unit_eq u) in *.
    apply require_role_Ok in Hrole. by eapply proposal_exchange_step.
Qed.

(** ** Reachable states *)

(** What opening does to the state it replayed: invocations left running by a
    process that did not come back are marked.  The bodies of retained jobs are
    read back from the content store, so a restart keeps everything but bodies. *)
Definition interrupted (j : JobState) : bool :=
  match job_phase j with Running | Streaming => true | _ => false end.

(* [crates/channel/src/work_store/channel/store.rs:142-148] ChannelStore::open_inner *)
Definition mark_interrupted (s : Channel) : Channel :=
  map_book (fun b => mk_JobBook (pending_proposal b) (book_jobs b) (book_terminals b)
    (proposal_nonce_high_water b)
    (dom (filter (fun '(_, j) => interrupted j = true) (book_jobs b)))) s.

Definition strip (s : Channel) : Channel := map_book (with_jobs (fmap strip_job)) s.

Inductive reachable (c : PaidChannel) (settlement : WorkPaymentSettlement) (role : Role)
    : Channel -> Prop :=
  | reachable_new h payload : u64_ok h = true ->
      reachable c settlement role (Channel_new c settlement role h payload)
  | reachable_apply s record meta a s' :
      reachable c settlement role s -> apply s v record meta = Ok (a, s') ->
      reachable c settlement role s'
  | reachable_restore s id input s' :
      reachable c settlement role s -> restore_client_input s id input = Ok s' ->
      reachable c settlement role s'
  | reachable_restart s s' :
      reachable c settlement role s -> strip s' = mark_interrupted (strip s) ->
      reachable c settlement role s'.
End steps.
