(* ===== verification/ChannelInvariant.v ===== *)
(** * Invariants of a channel

    What holds in every state an endpoint's journal can hold: jobs and terminals
    are well-formed and disjoint, every signature retained verifies, the ledger
    is the largest certificate held and within the settlement's capacity, credit
    stays under the channel's policy, and a closing channel has no job open. *)

From S2P Require Import Prelude Xet XetChunk Canonical Primitive Errors Context Auth Objects Registry.
From S2P Require Import View Store Terms Work PaidWork JobBook JobInput ChannelState ChannelSteps.

#[local] Open Scope N_scope.


(** ** The largest of a list *)

Section max.
  Context {A : Type} (key : A -> N).

Lemma max_by_key_foldl (l : list A) best :
  match foldl (fun best a => match best with
                | Some b => if key a <? key b then Some b else Some a
                | None => Some a end) best l with
  | None => best = None /\ l = []
  | Some b => (best = Some b \/ b ∈ l) /\
      (forall a, best = Some a \/ a ∈ l -> key a <= key b)
  end.
Proof.
  revert best. induction l as [|x l IH]; intros best; simpl.
  { destruct best as [b|]; [|done]. split; [by left|]. intros a [[= ->]|Ha]; [done|].
    by apply not_elem_of_nil in Ha. }
  specialize (IH match best with
    | Some b => if key x <? key b then Some b else Some x | None => Some x end).
  destruct (foldl _ _ l) as [b|].
  - destruct IH as [Hb Hmax]. split.
    + destruct best as [b0|]; [destruct (key x <? key b0)|]; destruct Hb as [[= ->]|Hb];
        rewrite ?elem_of_cons; auto.
    + intros a Ha. destruct best as [b0|].
      * destruct (N.ltb_spec (key x) (key b0)).
        -- destruct Ha as [[= ->]|[->|Ha]%elem_of_cons]; [auto| |auto].
           specialize (Hmax b0 (or_introl eq_refl)). lia.
        -- destruct Ha as [[= ->]|[->|Ha]%elem_of_cons]; [|auto|auto].
           specialize (Hmax x (or_introl eq_refl)). lia.
      * destruct Ha as [?|[->|Ha]%elem_of_cons]; [done|auto|auto].
  - destruct IH as [IH _]. destruct best as [b0|]; [destruct (key x <? key b0)|]; done.
Qed.

Lemma max_by_key_spec (l : list A) :
  match max_by_key key l with
  | None => l = []
  | Some b => b ∈ l /\ forall a, a ∈ l -> key a <= key b
  end.
Proof.
  pose proof (max_by_key_foldl l None) as Hm. unfold max_by_key.
  destruct (foldl _ None l) as [b|]; [|by destruct Hm].
  destruct Hm as [[?|Hb] Hmax]; [done|]. auto.
Qed.
End max.

Section invariant.
  Context `{Blake3} `{Gearhash} `{Invocations} (v : SigVerifier).

(** ** Well-formed jobs and terminals *)

Record job_ok (c : PaidChannel) (role : Role) (id : Digest) (job : JobState) : Prop := {
  job_named : job_work_id job = id;
  job_identity : id = work_id c (job_authorization job);
  job_channel : auth_channel_id (job_authorization job) = channel_id c;
  job_phase_role : forall r, only_role (job_phase job) = Some r -> r = role;
  job_cosigned : is_some (provider_signature job) = negb (bool_decide (job_phase job = HalfSigned));
  job_resulted : is_some (job_result job) = has_result (job_phase job);
  job_client_signed :
    verify_sig v (client_signature job) (client_key c) (signing_hash id) = true;
  job_provider_signed sig :
    provider_signature job = Some sig ->
    verify_sig v sig (provider_key c) (signing_hash id) = true;
  job_result_signed r sig :
    job_result job = Some (r, sig) ->
    result_work_id r = id /\
    verify_sig v sig (provider_key c) (signing_hash (result_digest c r)) = true;
  job_verified_finished r sig :
    job_phase job = Verified -> job_result job = Some (r, sig) -> result_outcome r = Finished;
}.

Record terminal_ok (c : PaidChannel) (settlement : WorkPaymentSettlement) (id : Digest)
    (t : JobTerminal) : Prop := {
  terminal_named : terminal_work_id t = id;
  terminal_paid r sig certificate binding bsig csig :
    terminal_outcome t = Certified (r, sig) certificate binding bsig csig ->
    result_outcome r = Finished /\ result_work_id r = id /\
    binding = mk_PaymentBindingV1 id (result_digest c r)
      (EarnedCertificate_digest certificate (channel_network c)) /\
    cert_payment_edge certificate = channel_payment_edge c /\
    cert_payment_terms_hash certificate = channel_payment_terms_hash c /\
    cert_earned_cumulative certificate <= settlement_capacity settlement /\
    verify_sig v sig (provider_key c) (signing_hash (result_digest c r)) = true /\
    verify_sig v bsig (client_key c) (signing_hash (payment_binding_digest c binding)) = true /\
    verify_sig v csig (client_key c)
      (EarnedCertificate_digest certificate (channel_network c)) = true;
}.

(** ** Credit *)

Definition priced (phases : JobPhase -> bool) (j : JobState) : N :=
  if phases (job_phase j) then price (job_authorization j) else 0.

(** The prices outstanding on a channel, before saturation. *)
Definition outstanding (phases : JobPhase -> bool) (s : Channel) : N :=
  map_sum (priced phases) (jobs s).

Lemma foldl_saturating l acc :
  acc <= U64_MAX -> foldl saturating_add acc l = N.min (acc + sumN id l) U64_MAX.
Proof.
  revert acc. induction l as [|x l IH]; intros acc Hacc.
  - unfold sumN; simpl. lia.
  - cbn [foldl]. rewrite IH by (unfold saturating_add; lia). rewrite sumN_cons.
    unfold saturating_add, id. lia.
Qed.

Lemma sumN_perm {A} (f : A -> N) l k : l ≡ₚ k -> sumN f l = sumN f k.
Proof. induction 1; rewrite ?sumN_cons; lia. Qed.

Lemma map_sum_list {A} (f : A -> N) (m : gmap Digest A) :
  map_sum f m = sumN f (map snd (map_to_list m)).
Proof.
  induction m as [|k a m Hk IH] using map_ind.
  - by rewrite map_sum_empty, map_to_list_empty.
  - rewrite map_sum_insert, IH by done.
    assert (map snd (map_to_list (<[k:=a]> m)) ≡ₚ a :: map snd (map_to_list m)) as Hp
      by (rewrite map_to_list_insert by done; done).
    by rewrite (sumN_perm f _ _ Hp), sumN_cons.
Qed.

Lemma sumN_filter (phases : JobPhase -> bool) (l : list JobState) :
  sumN id (map (fun job => price (job_authorization job))
    (filter (fun job => phases (job_phase job) = true) l)) = sumN (priced phases) l.
Proof.
  induction l as [|j l IH]; [done|]. rewrite filter_cons, sumN_cons. unfold priced at 1.
  destruct (phases (job_phase j)) eqn:Hp; [rewrite decide_True by done|rewrite decide_False by done].
  - cbn [map]. rewrite sumN_cons, IH. done.
  - by rewrite IH.
Qed.

Lemma reserved_prices_outstanding phases s :
  reserved_prices phases s = N.min (outstanding phases s) U64_MAX.
Proof.
  unfold reserved_prices, outstanding.
  rewrite foldl_saturating by (unfold U64_MAX; lia).
  rewrite sumN_filter, (sumN_perm _ _ _ (btree_values_perm _)), <- map_sum_list. done.
Qed.

Lemma check_compute_limit_Ok s p :
  check_compute_limit s p = Ok tt <->
  N.min (outstanding (fun _ => true) s + p) U64_MAX
    <= compute_credit_limit (channel_policy (chan s)).
Proof.
  unfold check_compute_limit. rewrite reserved_prices_outstanding. unfold saturating_add.
  case_match eqn:Hlt; bool_simpl; split; intros; try done; lia.
Qed.

Lemma check_delivery_limit_Ok s p :
  check_delivery_limit s p = Ok tt <->
  N.min (outstanding delivered s + p) U64_MAX
    <= delivery_credit_limit (channel_policy (chan s)).
Proof.
  unfold check_delivery_limit. rewrite reserved_prices_outstanding. unfold saturating_add.
  case_match eqn:Hlt; bool_simpl; split; intros; try done; lia.
Qed.

(** ** The certificate held *)

Definition certified_for (s : Channel) (p : PaidCertificate) : Prop :=
  exists t, terminals s !! paid_work_id p = Some t /\ payment_from_terminal t = Some p.

(** The terminals a channel holds are named by their keys. *)
Definition terminals_named (s : Channel) : Prop :=
  forall id t, terminals s !! id = Some t -> terminal_work_id t = id.

Lemma payment_from_terminal_named t p :
  payment_from_terminal t = Some p -> paid_work_id p = terminal_work_id t.
Proof. unfold payment_from_terminal. destruct (terminal_outcome t); by intros [= <-]. Qed.

Lemma last_payment_spec s :
  terminals_named s ->
  match last_payment s with
  | Some p => certified_for s p /\ forall q, certified_for s q -> paid_cumulative q <= paid_cumulative p
  | None => forall q, ~ certified_for s q
  end.
Proof.
  intros Hn. pose proof (max_by_key_spec paid_cumulative
    (omap payment_from_terminal (btree_values (terminals s)))) as Hm.
  assert (forall q, certified_for s q <->
    q ∈ omap payment_from_terminal (btree_values (terminals s))) as Hiff.
  { intros q. rewrite list_elem_of_omap. split.
    - intros (t & Ht & Hq). exists t. split; [|done]. apply elem_of_btree_values. eauto.
    - intros (t & [k Hk]%elem_of_btree_values & Hq). exists t. split; [|done].
      by rewrite (payment_from_terminal_named _ _ Hq), (Hn _ _ Hk). }
  unfold last_payment. destruct (max_by_key _ _) as [p|].
  - destruct Hm as [Hp Hmax]. split; [by apply Hiff|]. intros q Hq. by apply Hmax, Hiff.
  - intros q Hq%Hiff. rewrite Hm in Hq. by apply not_elem_of_nil in Hq.
Qed.

(** The largest certificate is the amount that bounds every one held and is
    attained when there is one. *)
Lemma max_executable_certificate_spec s (x : N) :
  terminals_named s ->
  (max_executable_certificate s = x <->
   (forall q, certified_for s q -> paid_cumulative q <= x) /\
   (x = 0 \/ exists q, certified_for s q /\ paid_cumulative q = x)).
Proof.
  intros Hn. pose proof (last_payment_spec s Hn) as Hl. unfold max_executable_certificate.
  destruct (last_payment s) as [p|].
  - destruct Hl as [Hp Hmax]. split.
    + intros <-. split; [done|]. right. eauto.
    + intros [Hub [->|(q & Hq & <-)]].
      * specialize (Hub p Hp). lia.
      * specialize (Hub p Hp). specialize (Hmax q Hq). lia.
  - split.
    + intros <-. split; [by intros q Hq%Hl|by left].
    + intros [_ [->|(q & Hq%Hl & _)]]; done.
Qed.

(** ** The invariant *)

Record channel_inv (c : PaidChannel) (settlement : WorkPaymentSettlement) (role : Role)
    (s : Channel) : Prop := {
  inv_channel : chan s = c;
  inv_settlement : ps_settlement (ch_funding s) = settlement;
  inv_role : ch_role s = role;
  inv_height : height s <= U64_MAX;
  inv_jobs id job : jobs s !! id = Some job -> job_ok c role id job;
  inv_terminals id t : terminals s !! id = Some t -> terminal_ok c settlement id t;
  inv_disjoint id job : jobs s !! id = Some job -> terminals s !! id = None;
  inv_nonce id job :
    jobs s !! id = Some job ->
    proposal_nonce (job_authorization job) <= proposal_nonce_high_water (ch_book s);
  inv_pending id :
    pending_proposal (ch_book s) = Some id ->
    role = Client /\ exists job, jobs s !! id = Some job /\ job_phase job = HalfSigned;
  inv_ledger : credited_cumulative (ch_ledger s) = max_executable_certificate s;
  inv_closing : is_closing s = true -> jobs s = ∅;
  inv_compute :
    role = Provider -> N.min (outstanding (fun _ => true) s) U64_MAX
      <= compute_credit_limit (channel_policy c);
  inv_delivery :
    role = Provider -> N.min (outstanding delivered s) U64_MAX
      <= delivery_credit_limit (channel_policy c);
  inv_history hist :
    close_history (ch_funding s) = Some hist -> check_close_history s hist = Ok tt;
  inv_responded answer :
    close_responded (ch_funding s) = Some answer ->
    exists contest certificate sig, close_opened (ch_funding s) = Some contest /\
      contest_start_id contest = answer_start_id answer /\
      executable_certificate s = Some (certificate, sig) /\
      answer_response_digest answer = response_body_digest c (answer_start_id answer) certificate;
}.

Lemma terminals_named_inv c settlement role s : channel_inv c settlement role s -> terminals_named s.
Proof. intros Hinv id t Ht. by apply (inv_terminals _ _ _ _ Hinv) in Ht as [? _]. Qed.

Lemma channel_inv_new c settlement role h payload :
  u64_ok h = true -> channel_inv c settlement role (Channel_new c settlement role h payload).
Proof.
  intros Hh. unfold u64_ok in Hh. bool_simpl.
  split; try done; cbn [Channel_new ch_book JobBook_default book_jobs book_terminals].
  - intros _. unfold outstanding. cbn [Channel_new ch_book JobBook_default book_jobs].
    rewrite map_sum_empty. lia.
  - intros _. unfold outstanding. cbn [Channel_new ch_book JobBook_default book_jobs].
    rewrite map_sum_empty. lia.
Qed.

(** Which of the maps a step touches. *)
Inductive book_effect (s s' : Channel) : Prop :=
  | effect_same : jobs s' = jobs s -> terminals s' = terminals s ->
      ch_ledger s' = ch_ledger s ->
      proposal_nonce_high_water (ch_book s') = proposal_nonce_high_water (ch_book s) ->
      book_effect s s'
  | effect_new id job : jobs s !! id = None -> terminals s !! id = None ->
      jobs s' = <[id := job]> (jobs s) -> terminals s' = terminals s ->
      ch_ledger s' = ch_ledger s -> ch_funding s' = ch_funding s -> is_closing s = false ->
      (ch_role s = Provider -> check_compute_limit s (price (job_authorization job)) = Ok tt) ->
      job_phase job = HalfSigned ->
      proposal_nonce_high_water (ch_book s) < proposal_nonce (job_authorization job) ->
      proposal_nonce_high_water (ch_book s') = proposal_nonce (job_authorization job) ->
      (forall c, chan s = c -> job_ok c (ch_role s) id job) ->
      book_effect s s'
  | effect_update id job job' : jobs s !! id = Some job ->
      jobs s' = <[id := job']> (jobs s) -> terminals s' = terminals s ->
      ch_ledger s' = ch_ledger s -> ch_funding s' = ch_funding s ->
      job_authorization job' = job_authorization job ->
      proposal_nonce_high_water (ch_book s') = proposal_nonce_high_water (ch_book s) ->
      (ch_role s = Provider -> delivered (job_phase job') = true ->
       delivered (job_phase job) = true \/
       check_delivery_limit s (price (job_authorization job)) = Ok tt) ->
      (delivered (job_phase job) = true -> delivered (job_phase job') = true) ->
      (forall c, job_ok c (ch_role s) id job -> chan s = c -> job_ok c (ch_role s) id job') ->
      book_effect s s'
  | effect_rest id job t : jobs s !! id = Some job -> terminals s !! id = None ->
      jobs s' = delete (job_work_id job) (jobs s) ->
      terminals s' = <[job_work_id job := t]> (terminals s) ->
      ch_funding s' = ch_funding s ->
      proposal_nonce_high_water (ch_book s') = proposal_nonce_high_water (ch_book s) ->
      (forall c settlement, job_ok c (ch_role s) id job -> chan s = c ->
         ps_settlement (ch_funding s) = settlement -> terminal_ok c settlement id t) ->
      (payment_from_terminal t = None /\ ch_ledger s' = ch_ledger s) \/
      (exists p, payment_from_terminal t = Some p /\
         credited_cumulative (ch_ledger s') = paid_cumulative p /\
         credited_cumulative (ch_ledger s) <= paid_cumulative p) ->
      book_effect s s'.

Ltac field_eqs := cbn [map_book map_funding ch_book ch_funding ch_ledger ch_role book_jobs book_terminals
    with_jobs with_pending pending_proposal proposal_nonce_high_water indeterminate rest_at
    terminal_work_id].

Lemma with_phase_ok c role id job phase :
  job_ok c role id job ->
  (forall r, only_role phase = Some r -> r = role) ->
  job_phase job <> HalfSigned -> phase <> HalfSigned ->
  has_result phase = has_result (job_phase job) ->
  (phase = Verified -> exists r sig, job_result job = Some (r, sig) /\ result_outcome r = Finished) ->
  job_ok c role id (with_phase phase job).
Proof.
  intros [] Hrole Hnh Hnh' Hres Hver. split; cbn [with_phase job_work_id job_authorization job_phase
    provider_signature job_result client_signature]; try done.
  - rewrite job_cosigned0. by rewrite !bool_decide_eq_false_2.
  - by rewrite Hres.
  - intros r sig Hphase Hr. destruct (Hver Hphase) as (r' & sig' & Hr' & Hf).
    rewrite Hr in Hr'. by simplify_eq.
Qed.

Lemma accepted_ok c role id job sig :
  job_ok c role id job -> job_phase job = HalfSigned ->
  verify_sig v sig (provider_key c) (signing_hash (job_work_id job)) = true ->
  job_ok c role id (mk_JobState (job_authorization job) (job_work_id job) (prepared_input job)
    (client_signature job) (Some sig) Accepted (job_result job) (job_transcript job)).
Proof.
  intros [] Hphase Hsig. split; simpl; try done.
  - change (is_some (job_result job) = false). by rewrite job_resulted0, Hphase.
  - intros sig' [= <-]. by rewrite <- job_named0.
Qed.

Lemma resulted_ok c role id job r sig transcript :
  job_ok c role id job -> job_phase job <> HalfSigned ->
  (job_phase job = Streaming -> role = Provider) ->
  result_work_id r = job_work_id job ->
  verify_sig v sig (provider_key c) (signing_hash (result_digest c r)) = true ->
  job_ok c role id (mk_JobState (job_authorization job) (job_work_id job) (prepared_input job)
    (client_signature job) (provider_signature job)
    match job_phase job with Streaming => Delivered | _ => Ready end (Some (r, sig)) transcript).
Proof.
  intros [] Hnh Hrole Hid Hsig. split; simpl; try done.
  - intros r'. destruct (job_phase job); simpl; try done. intros [= <-]. symmetry. auto.
  - change (is_some (provider_signature job) = negb (bool_decide
      (match job_phase job with Streaming => Delivered | _ => Ready end = HalfSigned))).
    rewrite job_cosigned0, bool_decide_eq_false_2 by done. by destruct (job_phase job).
  - by destruct (job_phase job).
  - intros r' sig' [= <- <-]. split; [congruence|done].
  - intros r' sig' Hv. by destruct (job_phase job).
Qed.

Lemma transcript_ok c role id job transcript :
  job_ok c role id job -> job_ok c role id (with_transcript transcript job).
Proof. intros []. by split. Qed.

Lemma proposed_ok c role a sig input :
  auth_channel_id a = channel_id c ->
  verify_sig v sig (client_key c) (signing_hash (work_id c a)) = true ->
  job_ok c role (work_id c a) (mk_JobState a (work_id c a) input sig None HalfSigned None []).
Proof. intros. by split. Qed.

Lemma certified_ok c settlement role id job r sig certificate binding bsig csig phase ledger ledger' :
  job_ok c role id job -> job_result job = Some (r, sig) ->
  verify_sig v bsig (client_key c) (signing_hash (payment_binding_digest c binding)) = true ->
  verify_sig v csig (client_key c) (EarnedCertificate_digest certificate (channel_network c)) = true ->
  credit_payment ledger c (job_authorization job) r binding certificate settlement = Ok ledger' ->
  terminal_ok c settlement id
    (mk_JobTerminal (job_work_id job) phase (Certified (r, sig) certificate binding bsig csig)).
Proof.
  intros Hjob Hr Hb Hc [Hn Hl]%credit_payment_Ok.
  apply next_payment_Ok in Hn as (Hf & Hid & _ & Hcap & -> & ->).
  destruct (job_result_signed _ _ _ _ Hjob _ _ Hr) as [Hrid Hrs].
  split; [by apply (job_named _ _ _ _ Hjob)|].
  intros r' sig' cert' bind' bsig' csig' [= <- <- <- <- <- <-]. cbn [cert_payment_edge
    cert_payment_terms_hash cert_earned_cumulative] in *. rewrite <- Hid, Hrid in *. by split_and!.
Qed.

Lemma step_effect s s' :
  (forall id job, jobs s !! id = Some job -> job_work_id job = id) ->
  step v s s' -> book_effect s s'.
Proof.
  intros Hnamed Hstep. destruct Hstep; try (by apply effect_same).
  - eapply (effect_new _ _ id); try done. intros c <-. by apply proposed_ok.
  - eapply (effect_update _ _ id job); try done.
    + by rewrite H3.
    + intros c Hok <-. by apply accepted_ok.
  - eapply (effect_update _ _ id job); try done.
    + intros Hrole Hdel. destruct H3 as [(Hp & -> & _)|[([[Hp ->]|[Hp ->]] & _ & Hlim)|(_ & -> & _)]];
        simpl in *; auto; done.
    + destruct H3 as [(Hp & -> & _)|[([[Hp ->]|[Hp ->]] & _)|(Hp & -> & _)]]; by rewrite Hp.
    + intros c Hok <-. apply with_phase_ok; [done|..];
        destruct H3 as [(Hp & -> & Hr & _)|[([[Hp ->]|[Hp ->]] & Hr & _)|(Hp & -> & Hr & r & sig & Hres & Hf)]];
        rewrite ?Hp; simpl; try done; try (intros ? [= <-]; done); eauto.
  - eapply (effect_update _ _ id job); try done.
    + intros _. destruct H5 as [[Hp _]|[[Hp _]|[Hp _]]]; rewrite Hp; simpl; auto.
    + destruct H5 as [[Hp _]|[[Hp _]|[Hp _]]]; by rewrite Hp.
    + intros c Hok <-. apply resulted_ok; try done;
        destruct H5 as [[Hp ?]|[[Hp ?]|[Hp ?]]]; by rewrite Hp.
  - eapply (effect_update _ _ id job (with_transcript transcript job)); try done; try (by auto).
    + field_eqs. by apply map_eq; intros i; destruct (decide (i = id)) as [->|];
        rewrite ?lookup_insert_eq, ?lookup_alter_eq, ?lookup_insert_ne, ?lookup_alter_ne, ?H2 by done.
    + intros c Hok _. by apply transcript_ok.
  - eapply (effect_rest _ _ id job); try done.
    + intros c st Hok <- <-. by eapply certified_ok.
    + right. eexists. split; [done|]. apply credit_payment_total in H8 as (? & ? & _).
      unfold paid_cumulative. simpl. lia.
  - eapply (effect_rest _ _ id job); try done.
    + intros c st Hok _ _. split; [by apply (job_named _ _ _ _ Hok)|]. intros. simpl in *. by subst.
    + left. split; [|done]. unfold payment_from_terminal. simpl. by destruct outcome.
Qed.

(** ** Preservation *)

Lemma step_config s s' :
  step v s s' ->
  chan s' = chan s /\ ps_settlement (ch_funding s') = ps_settlement (ch_funding s) /\
  ch_role s' = ch_role s.
Proof. by destruct 1. Qed.

Lemma reading_Changed s h parent payload :
  height s <= U64_MAX -> reading s h parent payload = Ok Changed -> height s <= h <= U64_MAX.
Proof.
  unfold reading. destruct (ps_cursor (ch_funding s)) as [held held_payload]. simpl. intros Hmax.
  destruct (_ && _); [done|]. intros Hr. inv_ok. bool_simpl. subst. unfold saturating_add, U64_MAX in *.
  lia.
Qed.

Lemma step_height s s' : height s <= U64_MAX -> step v s s' -> height s <= height s' <= U64_MAX.
Proof. intros Hmax. destruct 1; try done. simpl. by eapply reading_Changed. Qed.

Lemma check_close_history_mono s s' hist :
  close_opened (ch_funding s') = close_opened (ch_funding s) -> chan s' = chan s ->
  ps_settlement (ch_funding s') = ps_settlement (ch_funding s) -> height s <= height s' ->
  check_close_history s hist = Ok tt -> check_close_history s' hist = Ok tt.
Proof.
  intros Ho Hc Hs Hh. unfold check_close_history. rewrite Ho, Hc, Hs. intros Hr.
  inv_ok_step. inv_ok_step. cbn [ok_or rbind]. apply ok_or_Ok in E, E0. rewrite E. cbn [ok_or rbind].
  rewrite E0. cbn [ok_or rbind]. inv_ok_step.
  destruct (N.ltb_spec (saturating_add (height s') 1) (history_height hist)) as [Hlt|_].
  - exfalso. rewrite !orb_false_iff in G. destruct_and?.
    repeat match goal with H : _ && _ = false |- _ => clear H end. bool_simpl.
    unfold saturating_add in *. lia.
  - rewrite !orb_false_iff in G. destruct_and?.
    repeat match goal with H : _ = false |- _ => rewrite H; clear H end. done.
Qed.

Lemma max_executable_same s s' : terminals s' = terminals s ->
  last_payment s' = last_payment s.
Proof. intros Ht. unfold last_payment. by rewrite Ht. Qed.

Lemma is_closing_funding s s' : ch_funding s' = ch_funding s -> is_closing s' = is_closing s.
Proof. intros Hf. unfold is_closing, includable_close_start. by rewrite Hf. Qed.

(** What an owed answer comes with. *)
Lemma answerable_contest_Some s contest certificate sig :
  answerable_contest s = Some (contest, (certificate, sig)) <->
  ch_role s = Provider /\ close_settled (ch_funding s) = None /\
  close_opened (ch_funding s) = Some contest /\ contest_opener contest = Maker /\
  height s < contest_response_deadline contest /\
  executable_certificate s = Some (certificate, sig) /\
  contest_claimed contest < cert_earned_cumulative certificate /\
  (forall hist, close_history (ch_funding s) = Some hist ->
    pending_responded (history_pending hist) = false).
Proof.
  unfold answerable_contest. split.
  - intros Ha. inv_ok. simplify_eq. bool_simpl. cbn [fst] in *.
    split_and!; try done; [by apply is_some_false|]. intros hist Hh. by rewrite Hh in *.
  - intros (Hr & Hs & Ho & Hm & Hd & Hc & Hcl & Hh). rewrite Hr, Hs, Ho, Hc. simpl.
    rewrite bool_decide_eq_true_2 by done. destruct (N.leb_spec (contest_response_deadline contest) (height s)); [lia|].
    destruct (N.ltb_spec (contest_claimed contest) (cert_earned_cumulative certificate)); [|lia].
    destruct (close_history _) as [hist|]; [by rewrite Hh|done].
Qed.

Section preservation.
  Context (c : PaidChannel) (settlement : WorkPaymentSettlement) (role : Role) (s s' : Channel).
  Context (Hinv : channel_inv c settlement role s) (Hstep : step v s s').

Lemma inv_effect : book_effect s s'.
Proof.
  apply step_effect; [|done]. intros id job Hj.
  by apply (job_named c role), (inv_jobs _ _ _ _ Hinv).
Qed.

Lemma job_id id job : jobs s !! id = Some job -> job_work_id job = id.
Proof. intros Hj. by apply (job_named c role), (inv_jobs _ _ _ _ Hinv). Qed.

Lemma preserve_jobs id job : jobs s' !! id = Some job -> job_ok c role id job.
Proof.
  destruct Hinv. destruct inv_effect as [Hj _ _ _|i j _ _ Hj _ _ _ _ _ _ _ _ Hok|
    i j j' Hi Hj _ _ _ _ _ _ _ Hok|i j t Hi _ Hj _ _ _ _ _]; rewrite Hj.
  - eauto.
  - intros [[-> <-]|[_ Hl]]%lookup_insert_Some; [|eauto]. rewrite <- inv_role0. by apply Hok.
  - intros [[-> <-]|[_ Hl]]%lookup_insert_Some; [|eauto]. rewrite <- inv_role0 in *. apply Hok; eauto.
  - intros [_ Hl]%lookup_delete_Some. eauto.
Qed.

Lemma preserve_terminals id t : terminals s' !! id = Some t -> terminal_ok c settlement id t.
Proof.
  destruct Hinv. destruct inv_effect as [_ Ht _ _|i j _ _ _ Ht _ _ _ _ _ _ _ _|
    i j j' Hi _ Ht _ _ _ _ _ _ _|i j t' Hi _ _ Ht _ _ Hok _]; rewrite Ht; try (by eauto).
  rewrite (job_id _ _ Hi). intros [[-> <-]|[_ Hl]]%lookup_insert_Some; [|eauto].
  apply Hok; [|done..]. rewrite inv_role0. eauto.
Qed.

Lemma preserve_disjoint id job : jobs s' !! id = Some job -> terminals s' !! id = None.
Proof.
  destruct Hinv. destruct inv_effect as [Hj Ht _ _|i j Hn1 Hn2 Hj Ht _ _ _ _ _ _ _ _|
    i j j' Hi Hj Ht _ _ _ _ _ _ _|i j t' Hi Hn Hj Ht _ _ _ _]; rewrite Hj, Ht.
  - eauto.
  - intros [[-> _]|[_ Hl]]%lookup_insert_Some; eauto.
  - intros [[-> _]|[_ Hl]]%lookup_insert_Some; eauto.
  - intros [Hne Hl]%lookup_delete_Some. rewrite lookup_insert_ne by done. eauto.
Qed.

Lemma preserve_nonce id job :
  jobs s' !! id = Some job ->
  proposal_nonce (job_authorization job) <= proposal_nonce_high_water (ch_book s').
Proof.
  destruct Hinv. destruct inv_effect as [Hj _ _ Hw|i j _ _ Hj _ _ _ _ _ _ Hlt Hw _|
    i j j' Hi Hj _ _ _ Ha Hw _ _ _|i j t' Hi _ Hj _ _ Hw _ _]; rewrite Hj, Hw.
  - eauto.
  - intros [[-> <-]|[_ Hl]]%lookup_insert_Some; [lia|]. etrans; [by eapply inv_nonce0|]. lia.
  - intros [[-> <-]|[_ Hl]]%lookup_insert_Some; [rewrite Ha|]; eauto.
  - intros [_ Hl]%lookup_delete_Some. eauto.
Qed.

Lemma preserve_pending i :
  pending_proposal (ch_book s') = Some i ->
  role = Client /\ exists job, jobs s' !! i = Some job /\ job_phase job = HalfSigned.
Proof.
  pose proof (inv_pending _ _ _ _ Hinv) as Hpend. pose proof job_id as Hid.
  destruct Hinv. destruct Hstep; field_eqs; try (by apply Hpend).
  - destruct H5 as [-> | ->]; [|done]. intros [= <-]. split; [congruence|eauto].
  - destruct (ch_role s) eqn:Hrole; [|intros Hp%Hpend; destruct Hp; congruence].
    intros [= <-]. split; [congruence|]. eexists. by rewrite lookup_insert_eq.
  - case_bool_decide as Hsame; [done|]. intros Hp. destruct (Hpend i Hp) as (? & j & Hj & Hphase).
    split; [done|]. exists j. rewrite lookup_insert_ne by congruence. done.
  - intros Hp. destruct (Hpend i Hp) as (? & j & Hj & Hphase). split; [done|].
    exists j. split; [|done]. rewrite lookup_insert_ne; [done|]. intros ->.
    rewrite H2 in Hj. injection Hj as ->.
    destruct H3 as [(Hp' & _)|[([[Hp' _]|[Hp' _]] & _)|(Hp' & _)]]; congruence.
  - intros Hp. destruct (Hpend i Hp) as (? & j & Hj & Hphase). split; [done|].
    exists j. split; [|done]. rewrite lookup_insert_ne; [done|]. intros ->.
    rewrite H2 in Hj. injection Hj as ->. destruct H5 as [[Hp' _]|[[Hp' _]|[Hp' _]]]; congruence.
  - intros Hp. destruct (Hpend i Hp) as (? & j & Hj & Hphase). split; [done|].
    destruct (decide (i = id)) as [->|Hne].
    + exists (with_transcript transcript job). rewrite lookup_alter_eq, H2. rewrite H2 in Hj.
      by simplify_eq.
    + exists j. by rewrite lookup_alter_ne.
  - rewrite (Hid _ _ H2). case_bool_decide as Hsame; [done|]. intros Hp.
    destruct (Hpend i Hp) as (? & j & Hj & Hphase). split; [done|]. exists j.
    rewrite lookup_delete_ne by congruence. done.
  - rewrite (Hid _ _ H2). case_bool_decide as Hsame; [done|]. intros Hp.
    destruct (Hpend i Hp) as (? & j & Hj & Hphase). split; [done|]. exists j.
    rewrite lookup_delete_ne by congruence. done.
Qed.

Lemma preserve_ledger : credited_cumulative (ch_ledger s') = max_executable_certificate s'.
Proof.
  pose proof (terminals_named_inv _ _ _ _ Hinv) as Hnamed.
  assert (terminals_named s') as Hnamed'.
  { intros id t Ht. by apply preserve_terminals in Ht as [? _]. }
  pose proof (inv_ledger _ _ _ _ Hinv) as Hled. symmetry in Hled |- *.
  assert (terminals s' = terminals s -> ch_ledger s' = ch_ledger s ->
    max_executable_certificate s' = credited_cumulative (ch_ledger s')) as Hsame.
  { intros Ht Hl. unfold max_executable_certificate. rewrite (max_executable_same _ _ Ht), Hl.
    exact Hled. }
  destruct inv_effect as [_ Ht Hl _|i j _ _ _ Ht Hl _ _ _ _ _ _ _|i j j' Hi _ Ht Hl _ _ _ _ _ _|
    i j t Hi Hn _ Ht _ _ Hok Hpay]; auto.
  rewrite (job_id _ _ Hi) in Ht.
  assert (forall q, certified_for s' q <->
    certified_for s q \/ payment_from_terminal t = Some q) as Hcert.
  { assert (terminal_work_id t = i) as Hti
      by (apply (Hnamed' i t); rewrite Ht; apply lookup_insert_eq).
    intros q. unfold certified_for. rewrite Ht. split.
    - intros (t' & [[Hi' <-]|[_ Hl]]%lookup_insert_Some & Hq); eauto.
    - intros [(t' & Hl & Hq)|Hq].
      + exists t'. split; [|done]. rewrite lookup_insert_ne; [done|]. congruence.
      + exists t. split; [|done]. rewrite (payment_from_terminal_named _ _ Hq), Hti.
        apply lookup_insert_eq. }
  apply max_executable_certificate_spec in Hled as [Hub Hatt]; [|done].
  apply max_executable_certificate_spec; [done|]. split.
  - intros q [Hq|Hq]%Hcert.
    + specialize (Hub q Hq). destruct Hpay as [[_ ->]|(p & _ & Hp1 & Hp2)]; [done|]. lia.
    + destruct Hpay as [[Hnone _]|(p & Hp & Hp1 & Hp2)]; simplify_eq. lia.
  - destruct Hpay as [[_ Hl]|(p & Hp & Hp1 & Hp2)].
    + rewrite Hl. destruct Hatt as [?|(q & Hq & ?)]; [by left|]. right. exists q.
      split; [apply Hcert; by left|done].
    + right. exists p. split; [apply Hcert; by right|done].
Qed.

Lemma preserve_closing : is_closing s' = true -> jobs s' = ∅.
Proof.
  pose proof (inv_closing _ _ _ _ Hinv) as Hclosing. pose proof (inv_height _ _ _ _ Hinv) as Hmax.
  assert (forall id job, jobs s !! id = Some job -> is_closing s = false) as Hopen.
  { intros id job Hj. destruct (is_closing s); [|done]. by rewrite Hclosing in Hj. }
  destruct inv_effect as [Hj _ _ _|i j _ _ _ _ _ Hf Hnc _ _ _ _ _|i j j' Hi _ _ _ Hf _ _ _ _ _|
    i j t Hi Hn _ _ Hf _ _ _].
  2-4: rewrite (is_closing_funding _ _ Hf), ?Hnc; try done; by rewrite (Hopen _ _ Hi).
  rewrite Hj. destruct Hstep; try (by apply Hclosing); try done.
  - intros Hc. apply Hclosing. revert Hc. unfold is_closing, includable_close_start; simpl.
    apply reading_Changed in H2; [|done].
    destruct (close_opened _), (close_settled _); simpl; try done.
    destruct (close_prepared _) as [start|]; [|done].
    destruct (N.leb_spec h (start_valid_through_height start)); [|done].
    destruct (N.leb_spec (height s) (start_valid_through_height start)); [done|lia].
Qed.

Lemma preserve_compute :
  role = Provider ->
  N.min (outstanding (fun _ => true) s') U64_MAX <= compute_credit_limit (channel_policy c).
Proof.
  intros Hrole. pose proof (inv_compute _ _ _ _ Hinv Hrole) as Hlim. destruct Hinv.
  unfold outstanding in *. destruct inv_effect as [Hj _ _ _|i j Hn _ Hj _ _ _ _ Hl _ _ _ _|
    i j j' Hi Hj _ _ _ Ha _ _ _ _|i j t Hi Hn Hj _ _ _ _ _]; rewrite Hj.
  - done.
  - specialize (Hl ltac:(congruence)). apply check_compute_limit_Ok in Hl. rewrite inv_channel0 in Hl.
    unfold outstanding in Hl. rewrite map_sum_insert by done. unfold priced at 1. lia.
  - rewrite <- insert_delete_eq, map_sum_insert by apply lookup_delete_eq.
    rewrite (map_sum_delete _ _ _ _ Hi) in Hlim. unfold priced at 1 in Hlim. unfold priced at 1.
    by rewrite Ha.
  - rewrite (job_id _ _ Hi). rewrite (map_sum_delete _ _ _ _ Hi) in Hlim. lia.
Qed.

Lemma preserve_delivery :
  role = Provider ->
  N.min (outstanding delivered s') U64_MAX <= delivery_credit_limit (channel_policy c).
Proof.
  intros Hrole. pose proof (inv_delivery _ _ _ _ Hinv Hrole) as Hlim. destruct Hinv.
  unfold outstanding in *. destruct inv_effect as [Hj _ _ _|i j Hn _ Hj _ _ _ _ _ Hp _ _ _|
    i j j' Hi Hj _ _ _ Ha _ Hd _ _|i j t Hi Hn Hj _ _ _ _ _]; rewrite Hj.
  - done.
  - rewrite map_sum_insert by done. unfold priced at 1. rewrite Hp. simpl. lia.
  - rewrite <- insert_delete_eq, map_sum_insert by apply lookup_delete_eq.
    specialize (Hd ltac:(congruence)). unfold priced at 1. rewrite Ha.
    destruct (delivered (job_phase j')).
    + destruct (Hd eq_refl) as [Hdel|Hl].
      * rewrite (map_sum_delete _ _ _ _ Hi) in Hlim. unfold priced at 1 in Hlim.
        by rewrite Hdel in Hlim.
      * apply check_delivery_limit_Ok in Hl. rewrite inv_channel0 in Hl. unfold outstanding in Hl.
        rewrite (map_sum_delete _ _ _ _ Hi) in Hl. lia.
    + rewrite (map_sum_delete _ _ _ _ Hi) in Hlim. lia.
  - rewrite (job_id _ _ Hi). rewrite (map_sum_delete _ _ _ _ Hi) in Hlim. lia.
Qed.

Lemma preserve_history hist :
  close_history (ch_funding s') = Some hist -> check_close_history s' hist = Ok tt.
Proof.
  pose proof (step_height _ _ (inv_height _ _ _ _ Hinv) Hstep) as [Hh _].
  pose proof (step_config _ _ Hstep) as (Hc & Hs & _).
  destruct Hinv. destruct Hstep; intros Hhist;
    try (by eapply (check_close_history_mono s); [done|done|done|done|apply inv_history0]).
  - apply inv_history0 in Hhist. unfold check_close_history in Hhist. by rewrite H3 in Hhist.
  - simpl in Hhist. injection Hhist as <-. by eapply (check_close_history_mono s).
Qed.

Lemma preserve_responded answer :
  close_responded (ch_funding s') = Some answer ->
  exists contest certificate sig, close_opened (ch_funding s') = Some contest /\
    contest_start_id contest = answer_start_id answer /\
    executable_certificate s' = Some (certificate, sig) /\
    answer_response_digest answer = response_body_digest c (answer_start_id answer) certificate.
Proof.
  pose proof (inv_closing _ _ _ _ Hinv) as Hclosing.
  pose proof (inv_responded _ _ _ _ Hinv) as Hresp.
  destruct inv_effect as [_ Ht _ _|i j _ _ _ Ht _ Hf _ _ _ _ _ _|i j j' Hi _ Ht _ Hf _ _ _ _ _|
    i j t Hi Hn _ _ Hf _ _ _].
  - unfold executable_certificate. rewrite (max_executable_same _ _ Ht).
    destruct Hinv. destruct Hstep; try apply Hresp.
    + intros Ha. apply Hresp in Ha as (contest0 & cert & sig & Ho & _). congruence.
    + intros [= <-]. apply answerable_contest_Some in H3 as (_ & _ & Ho & _ & _ & Hcert & _).
      exists contest, certificate, sig. rewrite inv_channel0 in *. done.
  - unfold executable_certificate. rewrite (max_executable_same _ _ Ht), Hf. apply Hresp.
  - unfold executable_certificate. rewrite (max_executable_same _ _ Ht), Hf. apply Hresp.
  - rewrite Hf. intros Ha. destruct (Hresp _ Ha) as (contest & _ & _ & Ho & _).
    unfold is_closing in Hclosing. rewrite Ho in Hclosing. by rewrite Hclosing in Hi.
Qed.

Lemma step_preserves : channel_inv c settlement role s'.
Proof.
  destruct (step_config _ _ Hstep) as (Hc & Hs & Hr).
  pose proof (inv_channel _ _ _ _ Hinv). pose proof (inv_settlement _ _ _ _ Hinv).
  pose proof (inv_role _ _ _ _ Hinv).
  split; [congruence..|exact (proj2 (step_height s s' (inv_height _ _ _ _ Hinv) Hstep))|eauto using preserve_jobs|
    eauto using preserve_terminals|apply preserve_disjoint|apply preserve_nonce|
    apply preserve_pending|apply preserve_ledger|apply preserve_closing|apply preserve_compute|
    apply preserve_delivery|apply preserve_history|apply preserve_responded].
Qed.
End preservation.

(** ** Bodies do not matter *)

(** Two states that differ only in bodies and interruption marks. *)
Definition same_meta (s s' : Channel) : Prop :=
  ch_funding s' = ch_funding s /\ ch_ledger s' = ch_ledger s /\ ch_role s' = ch_role s /\
  strip_job <$> jobs s' = strip_job <$> jobs s /\ terminals s' = terminals s /\
  proposal_nonce_high_water (ch_book s') = proposal_nonce_high_water (ch_book s) /\
  pending_proposal (ch_book s') = pending_proposal (ch_book s).

Lemma same_meta_job s s' id job' :
  same_meta s s' -> jobs s' !! id = Some job' ->
  exists job, jobs s !! id = Some job /\ strip_job job = strip_job job'.
Proof.
  intros (_ & _ & _ & Hj & _) Hl. apply (f_equal (fun m => m !! id)) in Hj.
  rewrite !lookup_fmap, Hl in Hj. symmetry in Hj. apply fmap_Some in Hj as (job & ? & ?). eauto.
Qed.

Lemma strip_job_ok c role id job job' :
  strip_job job = strip_job job' -> job_ok c role id job -> job_ok c role id job'.
Proof.
  destruct job, job'. unfold strip_job; simpl. intros [= -> -> -> -> -> ->] []. by split.
Qed.

Lemma map_sum_fmap {A B} (f : B -> N) (g : A -> B) (m : gmap Digest A) :
  map_sum f (g <$> m) = map_sum (fun a => f (g a)) m.
Proof.
  induction m as [|k a m Hk IH] using map_ind; [by rewrite fmap_empty, !map_sum_empty|].
  rewrite fmap_insert, !map_sum_insert; [by rewrite IH|done|]. by rewrite lookup_fmap, Hk.
Qed.

Lemma outstanding_meta phases s s' :
  same_meta s s' -> outstanding phases s' = outstanding phases s.
Proof.
  intros (_ & _ & _ & Hj & _). unfold outstanding.
  assert (forall m : gmap Digest JobState,
    map_sum (priced phases) m = map_sum (priced phases) (strip_job <$> m)) as Hs.
  { intros m. by rewrite map_sum_fmap. }
  by rewrite Hs, Hj, <- Hs.
Qed.

Lemma same_meta_inv c settlement role s s' :
  same_meta s s' -> channel_inv c settlement role s -> channel_inv c settlement role s'.
Proof.
  intros Hm Hinv. pose proof (fun id job => same_meta_job s s' id job Hm) as Hjob.
  pose proof (fun phases => outstanding_meta phases s s' Hm) as Hout.
  destruct Hm as (Hf & Hl & Hr & Hj & Ht & Hw & Hp). destruct Hinv.
  assert (last_payment s' = last_payment s) as Hlast by (by apply max_executable_same).
  split; rewrite ?Hf, ?Hl, ?Hr, ?Ht, ?Hw, ?Hp, ?Hout; try done.
  - intros id job (j & Hjl & Hs)%Hjob. by eapply strip_job_ok; [|apply inv_jobs0].
  - intros id job (j & Hjl & Hs)%Hjob. eauto.
  - intros id job (j & Hjl & Hs)%Hjob. apply inv_nonce0 in Hjl. by destruct j, job; simplify_eq/=.
  - intros id Hpend. destruct (inv_pending0 id Hpend) as (? & j & Hjl & Hphase). split; [done|].
    apply (f_equal (fun m => m !! id)) in Hj. rewrite !lookup_fmap, Hjl in Hj.
    apply fmap_Some in Hj as (job & ? & Hs). exists job. split; [done|].
    destruct j, job. unfold strip_job in Hs. simpl in *. congruence.
  - unfold max_executable_certificate. by rewrite Hlast.
  - rewrite (is_closing_funding _ _ Hf). intros Hc%inv_closing0. rewrite Hc, fmap_empty in Hj.
    by apply fmap_empty_inv in Hj.
  - intros hist Hh. apply inv_history0 in Hh. unfold check_close_history in *. by rewrite Hf.
  - unfold executable_certificate. rewrite Hlast. apply inv_responded0.
Qed.

Lemma restore_same_meta s id input s' : restore_client_input s id input = Ok s' -> same_meta s s'.
Proof.
  unfold restore_client_input. intros Hr. inv_ok. subst. split_and!; try done.
  apply map_eq. intros i. simpl. rewrite !lookup_fmap.
  destruct (decide (i = id)) as [->|]; [rewrite lookup_alter_eq|by rewrite lookup_alter_ne].
  by destruct (jobs s !! id).
Qed.

Lemma restart_same_meta s s' : strip s' = mark_interrupted (strip s) -> same_meta s s'.
Proof.
  intros Heq. split_and!;
    [apply (f_equal ch_funding) in Heq|apply (f_equal ch_ledger) in Heq
    |apply (f_equal ch_role) in Heq|apply (f_equal (fun s => jobs s)) in Heq
    |apply (f_equal (fun s => terminals s)) in Heq
    |apply (f_equal (fun s => proposal_nonce_high_water (ch_book s))) in Heq
    |apply (f_equal (fun s => pending_proposal (ch_book s))) in Heq]; exact Heq.
Qed.

(** Every state a journal can hold satisfies the invariant. *)
Lemma reachable_inv c settlement role s :
  reachable v c settlement role s -> channel_inv c settlement role s.
Proof.
  induction 1; eauto using channel_inv_new, step_preserves, apply_step, same_meta_inv,
    restore_same_meta, restart_same_meta.
Qed.
End invariant.
