(* ===== verification/ChannelLedger.v ===== *)
(** * What a channel's journal guarantees

    Theorems over every state a journal can hold: each job is paid at most once
    and the ledger is the sum of what was paid, terminals are permanent, a
    closing channel is frozen, a provider's exposure stays within the channel's
    credit policy, and the one answer owed to a contest is determined. *)

From S2P Require Import Prelude Xet XetChunk Canonical Primitive Errors Context Auth Objects Registry.
From S2P Require Import View Store Terms Work PaidWork JobBook JobInput ChannelState ChannelSteps.
From S2P Require Import ChannelInvariant.

#[local] Open Scope N_scope.

Section ledger.
  Context `{Blake3} `{Gearhash} `{Invocations} (v : SigVerifier).

(** ** Payments made *)

(** The payment a record makes when it is applied: the certified job and the
    price its authorization fixes. *)
Definition payment_of (s : Channel) (record : ChannelRecord) (a : Applied) : list (Digest * N) :=
  match record, a with
  | JobTerminated id (Certified _ _ _ _ _), Changed =>
      match jobs s !! id with
      | Some job => [(id, price (job_authorization job))]
      | None => []
      end
  | _, _ => []
  end.

(** The states of a journal with the payments made on the way. *)
Inductive paid_run (c : PaidChannel) (settlement : WorkPaymentSettlement) (role : Role)
    : list (Digest * N) -> Channel -> Prop :=
  | paid_new h payload : u64_ok h = true ->
      paid_run c settlement role [] (Channel_new c settlement role h payload)
  | paid_apply l s record meta a s' :
      paid_run c settlement role l s -> apply s v record meta = Ok (a, s') ->
      paid_run c settlement role (payment_of s record a ++ l) s'
  | paid_restore l s id input s' :
      paid_run c settlement role l s -> restore_client_input s id input = Ok s' ->
      paid_run c settlement role l s'
  | paid_restart l s s' :
      paid_run c settlement role l s -> strip s' = mark_interrupted (strip s) ->
      paid_run c settlement role l s'.

Lemma paid_run_reachable c settlement role l s :
  paid_run c settlement role l s -> reachable v c settlement role s.
Proof. induction 1; eauto using reachable. Qed.

Lemma reachable_paid_run c settlement role s :
  reachable v c settlement role s -> exists l, paid_run c settlement role l s.
Proof. induction 1 as [| |? ? ? ? _ [l Hl]|? ? _ [l Hl]]; [| |eauto using paid_run..].
  - eauto using paid_run.
  - destruct IHreachable as [l Hl]. eauto using paid_run.
Qed.

(** Only a terminal touches the ledger and the archive. *)
Lemma apply_keeps_archive s record meta a s' :
  apply s v record meta = Ok (a, s') ->
  match record with JobTerminated _ _ => True | _ => terminals s' = terminals s /\ ch_ledger s' = ch_ledger s end.
Proof.
  destruct record; cbn [apply]; intros Hr; try exact I;
    unfold apply_cursor, apply_proposed, apply_accepted, apply_running, apply_result, apply_verified,
      apply_plaintext, apply_close_prepared, apply_close_opened, apply_close_responded,
      apply_close_settled, apply_close_history, on_book, proposal_exchange, book_propose,
      book_accept, book_run, record_result, mark_verified, book_release in Hr;
    repeat (inv_ok_step || case_match); subst; done.
Qed.

Lemma payment_lookup s id : payment s id = terminals s !! id ≫= payment_from_terminal.
Proof. done. Qed.

Lemma payment_rest s f l r (t : JobTerminal) id :
  payment (mk_Channel f l r (rest_at (ch_book s) t)) id =
    if decide (id = terminal_work_id t) then payment_from_terminal t else payment s id.
Proof.
  rewrite !payment_lookup. cbn [ch_book rest_at book_terminals].
  destruct (decide _) as [->|]; by rewrite ?lookup_insert_eq, ?lookup_insert_ne.
Qed.

(** A record either makes no payment, or makes one for a job that was open. *)
Lemma apply_payment c settlement role s record meta a s' :
  channel_inv v c settlement role s -> apply s v record meta = Ok (a, s') ->
  match payment_of s record a with
  | [] => ch_ledger s' = ch_ledger s /\ forall id, payment s' id = payment s id
  | (id, p) :: rest =>
      rest = [] /\ payment s id = None /\
      credited_cumulative (ch_ledger s') = credited_cumulative (ch_ledger s) + p /\
      is_Some (payment s' id) /\ forall id', id' <> id -> payment s' id' = payment s id'
  end.
Proof.
  intros Hinv Hr. destruct record; try (simpl; apply apply_keeps_archive in Hr as [Ht Hl];
    split; [done|]; intros; by rewrite !payment_lookup, Ht).
  cbn [apply] in Hr. unfold apply_terminated in Hr. cbn [payment_of].
  destruct (terminals s !! work_id) as [t|] eqn:Hterm.
  { inv_ok. subst. by destruct outcome. }
  inv_ok_step. inv_ok_step. apply open_job_Ok in E. rewrite E.
  assert (job_work_id v0 = work_id) as Hid
    by (by apply (job_named v c role), (inv_jobs _ _ _ _ _ Hinv)).
  assert (payment s work_id = None) as Hnone by (by rewrite payment_lookup, Hterm).
  assert (forall id, (if decide (id = work_id) then None else payment s id) = payment s id) as Hsame
    by (intros id; by destruct (decide (id = work_id)) as [->|]).
  destruct outcome as [[r sig] certificate binding bsig csig| | | |].
  - unfold terminate_certified in Hr. inv_ok_step. case_match; [|done]. inv_ok.
    unfold paid in *. inv_ok. simplify_eq. apply credit_payment_total in E0 as (Hc & _ & _).
    split; [done|]. split; [done|]. split; [done|].
    split; [|intros id' Hne]; rewrite payment_rest; cbn [terminal_work_id].
    + by rewrite decide_True.
    + by rewrite decide_False.
  - destruct a; inv_ok; (case_match; [|done]); case_match; inv_ok; simplify_eq; (split; [done|]);
      intros id; unfold map_book; rewrite payment_rest; cbn [terminal_work_id];
      destruct (decide _) as [->|]; done.
  - destruct a; inv_ok; simplify_eq; (split; [done|]); intros id; unfold map_book;
      rewrite payment_rest; cbn [terminal_work_id]; destruct (decide _) as [->|]; done.
  - destruct a; inv_ok; simplify_eq; (split; [done|]); intros id; unfold map_book;
      rewrite payment_rest; cbn [terminal_work_id]; destruct (decide _) as [->|]; done.
  - destruct a; inv_ok; simplify_eq; (split; [done|]); intros id; unfold map_book;
      rewrite payment_rest; cbn [terminal_work_id]; destruct (decide _) as [->|]; done.
Qed.

Lemma same_meta_payment s s' id : same_meta s s' -> payment s' id = payment s id.
Proof. intros (_ & _ & _ & _ & Ht & _). by rewrite !payment_lookup, Ht. Qed.

(** C13: Each job is paid at most once and the ledger is what was paid: over any
    journal, restarts included, the payments made name distinct jobs, they are
    exactly the jobs whose terminal holds a certificate, the credited total is
    the sum of their authorized prices, and it equals the largest certificate
    held. *)
Theorem paid_once c settlement role l s :
  paid_run c settlement role l s ->
  NoDup (map fst l) /\
  (forall id, id ∈ map fst l <-> is_Some (payment s id)) /\
  credited_cumulative (ch_ledger s) = sumN snd l /\
  max_executable_certificate s = sumN snd l.
Proof.
  intros Hrun. pose proof (reachable_inv v _ _ _ _ (paid_run_reachable _ _ _ _ _ Hrun)) as Hinv.
  rewrite <- (inv_ledger _ _ _ _ _ Hinv). clear Hinv.
  enough (NoDup (map fst l) /\ (forall id, id ∈ map fst l <-> is_Some (payment s id)) /\
    credited_cumulative (ch_ledger s) = sumN snd l) by naive_solver.
  induction Hrun as [h payload Hh|l s record meta a s' Hrun IH Hr|l s id input s' Hrun IH Hr|
    l s s' Hrun IH Hr].
  - split; [constructor|]. split; [|done]. intros id. rewrite payment_lookup. simpl.
    rewrite lookup_empty. split; [by intros ?%not_elem_of_nil|by intros []].
  - destruct IH as (Hnd & Hiff & Hsum).
    pose proof (reachable_inv v _ _ _ _ (paid_run_reachable _ _ _ _ _ Hrun)) as Hinv.
    pose proof (apply_payment _ _ _ _ _ _ _ _ Hinv Hr) as Hpay.
    destruct (payment_of s record a) as [|[id p] rest].
    + destruct Hpay as [Hl Hp]. rewrite Hl. split; [done|]. split; [|done]. intros id. by rewrite Hp.
    + destruct Hpay as (-> & Hnone & Hc & Hsome & Hne). cbn [map app fst]. split_and!.
      * constructor; [|done]. rewrite Hiff, Hnone. by intros [].
      * intros id'. rewrite elem_of_cons, Hiff. destruct (decide (id' = id)) as [->|Hd]; [naive_solver|].
        rewrite Hne by done. naive_solver.
      * rewrite sumN_cons. simpl. lia.
  - apply restore_same_meta in Hr as Hm. pose proof Hm as (_ & -> & _).
    setoid_rewrite (same_meta_payment s s' _ Hm). done.
  - apply restart_same_meta in Hr as Hm. pose proof Hm as (_ & -> & _).
    setoid_rewrite (same_meta_payment s s' _ Hm). done.
Qed.

(** ** Permanence *)

(** One thing that can happen to a journal's state. *)
Inductive evolve (s s' : Channel) : Prop :=
  | evolve_apply record meta a : apply s v record meta = Ok (a, s') -> evolve s s'
  | evolve_restore id input : restore_client_input s id input = Ok s' -> evolve s s'
  | evolve_restart : strip s' = mark_interrupted (strip s) -> evolve s s'.

Lemma evolve_reachable c settlement role s s' :
  reachable v c settlement role s -> evolve s s' -> reachable v c settlement role s'.
Proof. intros Hr []; eauto using reachable. Qed.

Lemma evolve_effect c settlement role s s' :
  channel_inv v c settlement role s -> evolve s s' -> book_effect v s s' \/ same_meta s s'.
Proof.
  intros Hinv [record meta a Hr|id input Hr|Hr].
  - left. eapply inv_effect; [done|]. by eapply apply_step.
  - right. by eapply restore_same_meta.
  - right. by apply restart_same_meta.
Qed.

Lemma evolve_terminal c settlement role s s' id t :
  channel_inv v c settlement role s -> evolve s s' ->
  terminals s !! id = Some t -> terminals s' !! id = Some t.
Proof.
  intros Hinv Hev Ht.
  destruct (evolve_effect _ _ _ _ _ Hinv Hev) as [Heff|(_ & _ & _ & _ & -> & _)]; [|done].
  destruct Heff as [_ -> _ _|i j _ _ _ -> _ _ _ _ _ _ _ _|i j j' Hi _ -> _ _ _ _ _ _ _|
    i j t' Hi Hn _ -> _ _ _ _]; try done.
  rewrite (job_id _ _ _ _ _ Hinv _ _ Hi), lookup_insert_ne; congruence.
Qed.

Lemma evolve_nonce c settlement role s s' :
  channel_inv v c settlement role s -> evolve s s' ->
  proposal_nonce_high_water (ch_book s) <= proposal_nonce_high_water (ch_book s').
Proof.
  intros Hinv Hev.
  destruct (evolve_effect _ _ _ _ _ Hinv Hev) as [Heff|(_ & _ & _ & _ & _ & -> & _)]; [|lia].
  destruct Heff as [_ _ _ ->|i j _ _ _ _ _ _ _ _ _ Hlt -> _|i j j' Hi _ _ _ _ _ -> _ _ _|
    i j t' Hi Hn _ _ _ -> _ _]; lia.
Qed.

(** An ended job stays ended: whatever records, restarts and restored inputs
    follow, its terminal is unchanged and the job is not open again; the nonce
    every later proposal must exceed never falls. *)
Theorem terminal_permanent c settlement role s s' id t :
  reachable v c settlement role s -> rtc evolve s s' -> terminals s !! id = Some t ->
  terminals s' !! id = Some t /\ jobs s' !! id = None /\
  proposal_nonce_high_water (ch_book s) <= proposal_nonce_high_water (ch_book s').
Proof.
  intros Hr Hev Ht. induction Hev as [s|s s1 s' Hev _ IH].
  - split; [done|]. split; [|lia]. apply reachable_inv in Hr as Hinv.
    destruct (jobs s !! id) as [job|] eqn:Hj; [|done].
    apply (inv_disjoint _ _ _ _ _ Hinv) in Hj. congruence.
  - apply reachable_inv in Hr as Hinv. pose proof (evolve_nonce _ _ _ _ _ Hinv Hev) as Hn.
    destruct IH as (? & ? & ?); [by eapply evolve_reachable|by eapply evolve_terminal|].
    split_and!; [done..|]. lia.
Qed.

(** ** The cutoff *)

(** A closing channel is frozen: while its own close start can still be
    included, a contest is open on its edge or the edge has settled, no job is
    open, and no record it accepts opens one, ends one, credits a payment or
    changes the certificate a close would spend. *)
Theorem closing_frozen c settlement role s record meta a s' :
  reachable v c settlement role s -> is_closing s = true -> apply s v record meta = Ok (a, s') ->
  jobs s = ∅ /\ jobs s' = ∅ /\ terminals s' = terminals s /\ ch_ledger s' = ch_ledger s /\
  executable_certificate s' = executable_certificate s.
Proof.
  intros Hreach Hc Hr. apply reachable_inv in Hreach as Hinv.
  pose proof (inv_closing _ _ _ _ _ Hinv Hc) as Hj. split; [done|].
  apply apply_step in Hr as Hstep. pose proof (inv_effect _ _ _ _ _ _ Hinv Hstep) as Heff.
  destruct Heff as [Hj' Ht Hl _|i j _ _ _ _ _ _ Hnc _ _ _ _ _|i j j' Hi _ _ _ _ _ _ _ _ _|
    i j t Hi _ _ _ _ _ _ _]; [|congruence|by rewrite Hj in Hi..].
  rewrite Hj', Ht. unfold executable_certificate. rewrite (max_executable_same _ _ Ht). done.
Qed.

(** ** Exposure *)

(** C31: A provider's exposure stays within the channel's credit policy: the
    prices of its open jobs against the compute limit, and of the jobs whose
    plaintext was released unpaid against the delivery limit (sums saturate at
    the largest [u64], as the code's do). *)
Theorem exposure_bounded c settlement s :
  reachable v c settlement Provider s ->
  N.min (outstanding (fun _ => true) s) U64_MAX <= compute_credit_limit (channel_policy c) /\
  N.min (outstanding delivered s) U64_MAX <= delivery_credit_limit (channel_policy c).
Proof.
  intros Hr%reachable_inv. split; [by apply (inv_compute _ _ _ _ _ Hr)|].
  by apply (inv_delivery _ _ _ _ _ Hr).
Qed.

(** ** Evidence *)

Lemma payment_terminal s id p :
  payment s id = Some p ->
  exists t r sig, terminals s !! id = Some t /\
    terminal_outcome t = Certified (r, sig) (paid_certificate p) (paid_binding p)
      (paid_binding_signature p) (paid_certificate_signature p).
Proof.
  unfold payment. intros Hp. inv_ok. unfold payment_from_terminal in Hp.
  destruct (terminal_outcome v0) as [[r sig] cert bind bs cs| | | |] eqn:Ho; simplify_eq.
  eauto 10.
Qed.

(** Every payment retained is spendable evidence: its certificate names the
    channel's payment edge and terms, claims no more than the settlement's
    capacity, and carries the client's verified signature over the kernel's
    digest of it; its binding ties it to that job and to a finished result the
    provider signed. *)
Theorem payment_evidence c settlement role s id p :
  reachable v c settlement role s -> payment s id = Some p ->
  cert_payment_edge (paid_certificate p) = channel_payment_edge c /\
  cert_payment_terms_hash (paid_certificate p) = channel_payment_terms_hash c /\
  cert_earned_cumulative (paid_certificate p) <= settlement_capacity settlement /\
  verify_sig v (paid_certificate_signature p) (client_key c)
    (EarnedCertificate_digest (paid_certificate p) (channel_network c)) = true /\
  exists r sig, result_outcome r = Finished /\ result_work_id r = id /\
    verify_sig v sig (provider_key c) (signing_hash (result_digest c r)) = true /\
    paid_binding p = mk_PaymentBindingV1 id (result_digest c r)
      (EarnedCertificate_digest (paid_certificate p) (channel_network c)).
Proof.
  intros Hr%reachable_inv (t & r & sig & Ht & Ho)%payment_terminal.
  destruct (inv_terminals _ _ _ _ _ Hr _ _ Ht) as [_ Hpaid].
  apply Hpaid in Ho as (? & ? & ? & ? & ? & ? & ? & ? & ?). split_and!; try done. eauto 10.
Qed.
End ledger.
