(* ===== verification/ChannelReplay.v ===== *)
(** * Replay

    A journal keeps records without their bodies, and replay applies them in the
    metadata-only mode.  Commit applies them at full strength to the live state;
    the theorem here is that the two agree: whatever record commit accepted,
    replay accepts, and the state it reaches is the live state without bodies.
    Interruption marks are set only by a restart, so replay may hold fewer. *)

From S2P Require Import Prelude Xet XetChunk Canonical Primitive Errors Context Auth Objects Registry.
From S2P Require Import View Store Terms Work PaidWork JobBook JobInput ChannelState ChannelSteps.
From S2P Require Import ChannelInvariant.

#[local] Open Scope N_scope.

(** What [encode_for_storage] leaves out. *)
(* [crates/channel/src/work_store/channel/codec.rs:49-51] ChannelRecord::encode_for_storage *)
Definition strip_record (record : ChannelRecord) : ChannelRecord :=
  match record with
  | JobProposed authorization client_signature _ => JobProposed authorization client_signature []
  | JobResultRecord id r provider_signature _ => JobResultRecord id r provider_signature []
  | record => record
  end.

(** The live state without bodies, holding the marks [ind]. *)
Definition replayed (s : Channel) (ind : gset Digest) : Channel :=
  mk_Channel (ch_funding s) (ch_ledger s) (ch_role s) (strip_book (ch_book s) ind).

Section replay.
  Context `{Blake3} `{Gearhash} `{Invocations} (v : SigVerifier).

Lemma replayed_empty s ind : jobs s = ∅ -> jobs (replayed s ind) = ∅.
Proof. intros Hj. cbn [replayed ch_book strip_book book_jobs]. by rewrite Hj, fmap_empty. Qed.

Lemma refuse_open_job_replayed s ind what :
  refuse_open_job s what = Ok tt -> refuse_open_job (replayed s ind) what = Ok tt.
Proof. rewrite !refuse_open_job_Ok. apply replayed_empty. Qed.

Lemma replayed_same_meta s ind : same_meta s (replayed s ind).
Proof.
  split_and!; try done. cbn [replayed ch_book strip_book book_jobs]. rewrite <- map_fmap_compose.
  by apply map_fmap_ext.
Qed.

Lemma limits_replayed s ind p :
  (check_compute_limit s p = Ok tt -> check_compute_limit (replayed s ind) p = Ok tt) /\
  (check_delivery_limit s p = Ok tt -> check_delivery_limit (replayed s ind) p = Ok tt).
Proof.
  rewrite !check_compute_limit_Ok, !check_delivery_limit_Ok.
  by rewrite !(outstanding_meta _ _ _ (replayed_same_meta s ind)).
Qed.

Lemma check_job_authorization_replayed s ind a input meta u :
  check_job_authorization s a input meta = Ok u ->
  check_job_authorization (replayed s ind) a [] true = Ok tt.
Proof. unfold check_job_authorization. intros Hr. cbn [replayed ch_funding]. by inv_ok_step. Qed.

Lemma check_result_payload_replayed s ind job r transcript meta u :
  check_result_payload s job r transcript meta = Ok u ->
  check_result_payload (replayed s ind) (strip_job job) r [] true = Ok tt.
Proof.
  unfold check_result_payload. intros Hr. cbn [replayed ch_funding strip_job job_work_id].
  by inv_ok_step.
Qed.

(** The queries that read no body answer alike on the replayed state. *)
Ltac same_queries s ind :=
  change (ch_funding (replayed s ind)) with (ch_funding s) in *;
  change (ch_role (replayed s ind)) with (ch_role s) in *;
  change (ch_ledger (replayed s ind)) with (ch_ledger s) in *;
  change (ch_book (replayed s ind)) with (strip_book (ch_book s) ind) in *;
  change (require_role (replayed s ind)) with (require_role s) in *;
  change (reading (replayed s ind)) with (reading s) in *;
  change (refuse_if_closing (replayed s ind)) with (refuse_if_closing s) in *;
  change (answerable_contest (replayed s ind)) with (answerable_contest s) in *;
  change (check_close_start (replayed s ind)) with (check_close_start s) in *;
  change (check_close_history (replayed s ind)) with (check_close_history s) in *;
  change (includable_close_start (replayed s ind)) with (includable_close_start s) in *.

Ltac reopen :=
  match goal with
  | E : open_job (ch_book ?s) ?id ?w = Ok _ |- context [open_job (strip_book (ch_book ?s) ?ind) ?id ?w] =>
      rewrite (open_job_strip (ch_book s) ind id w _ E);
      cbn [rbind strip_job job_phase job_authorization job_work_id provider_signature
        client_signature job_result job_transcript prepared_input]
  end.

(** Replaying the stored form of [record] from the live state's shadow reaches
    the shadow of the state it reached live. *)
Definition replays (s : Channel) (record : ChannelRecord) (s' : Channel) : Prop :=
  forall ind, ind ⊆ indeterminate (ch_book s) ->
  exists a ind', ind' ⊆ indeterminate (ch_book s') /\
    apply (replayed s ind) v (strip_record record) true = Ok (a, replayed s' ind').

Lemma on_book_replays s ind b r a :
  r = Ok (a, strip_book b ind) -> ind ⊆ indeterminate b ->
  exists a' ind', ind' ⊆ indeterminate (ch_book (map_book (fun _ => b) s)) /\
    on_book (replayed s ind) r = Ok (a', replayed (map_book (fun _ => b) s) ind').
Proof. intros -> Hind. by exists a, ind. Qed.

(** The book keeps its marks until a job is put to rest. *)
Ltac marks_kept := intros Hr;
  repeat (inv_ok_step || case_match); subst; try done.

Lemma exchange_marks b id pending a b' :
  proposal_exchange b id pending = Ok (a, b') -> indeterminate b' = indeterminate b.
Proof. unfold proposal_exchange. marks_kept. Qed.
Lemma propose_marks b job role a b' :
  book_propose b job role = Ok (a, b') -> indeterminate b' = indeterminate b.
Proof. unfold book_propose. marks_kept. Qed.
Lemma accept_marks b id sig now role a b' :
  book_accept b id sig now role = Ok (a, b') -> indeterminate b' = indeterminate b.
Proof. unfold book_accept. marks_kept. Qed.
Lemma run_marks b id now a b' :
  book_run b id now = Ok (a, b') -> indeterminate b' = indeterminate b.
Proof. unfold book_run. marks_kept. Qed.
Lemma result_marks b id r sig transcript a b' :
  record_result b id r sig transcript = Ok (a, b') -> indeterminate b' = indeterminate b.
Proof. unfold record_result. marks_kept. Qed.
Lemma verified_marks b id a b' :
  mark_verified b id = Ok (a, b') -> indeterminate b' = indeterminate b.
Proof. unfold mark_verified. marks_kept. Qed.
Lemma release_marks b id a b' :
  book_release b id = Ok (a, b') -> indeterminate b' = indeterminate b.
Proof. unfold book_release. marks_kept. Qed.

Lemma replay_proposed s authorization sig input a s' :
  apply s v (JobProposed authorization sig input) false = Ok (a, s') ->
  replays s (JobProposed authorization sig input) s'.
Proof.
  cbn [apply]. intros Hr ind Hind. cbn [strip_record apply]. unfold apply_proposed in *.
  same_queries s ind. set (id := work_id (chan s) authorization) in *.
  rewrite strip_lookup. destruct (jobs s !! id) as [job|] eqn:Hjob.
  { cbn [fmap option_fmap option_map strip_job job_authorization client_signature prepared_input].
    inv_ok. subst. bool_simpl. exists Redundant, ind. split; [done|]. by rewrite !bool_decide_eq_true_2. }
  cbn [fmap option_fmap option_map].
  change (refuse_if_terminated (strip_book (ch_book s) ind)) with (refuse_if_terminated (ch_book s)).
  inv_ok_step. rewrite E. cbn [rbind]. inv_ok_step. rewrite E0. cbn [rbind]. inv_ok_step.
  rewrite (check_job_authorization_replayed _ _ _ _ _ _ E1). cbn [rbind].
  cbn [strip_book proposal_nonce_high_water]. inv_ok_step. inv_ok_step. inv_ok_step.
  assert ((if bool_decide (ch_role s = Provider) then
    check_compute_limit (replayed s ind) (price authorization) else Ok tt) = Ok tt) as ->.
  { case_bool_decide; [|done]. apply limits_replayed. by destruct v3. }
  cbn [rbind]. apply on_book_Ok in Hr as (b & Hb & ->). pose proof (propose_marks _ _ _ _ _ Hb) as Hm.
  apply (book_propose_strip _ ind) in Hb; [|done]. eapply on_book_replays; [exact Hb|by rewrite Hm].
Qed.

Lemma replay_accepted s id sig a s' :
  apply s v (JobAccepted id sig) false = Ok (a, s') -> replays s (JobAccepted id sig) s'.
Proof.
  cbn [apply]. intros Hr ind Hind. cbn [strip_record apply]. unfold apply_accepted in *.
  same_queries s ind. inv_ok_step. reopen.
  destruct (bool_decide (provider_signature v0 = Some sig)).
  { inv_ok. subst. by exists Redundant, ind. }
  inv_ok_step. inv_ok_step. inv_ok_step. apply on_book_Ok in Hr as (b & Hb & ->).
  pose proof (accept_marks _ _ _ _ _ _ _ Hb) as Hm. apply (book_accept_strip _ ind) in Hb.
  eapply on_book_replays; [exact Hb|by rewrite Hm].
Qed.

Lemma replay_running s id a s' :
  apply s v (JobRunning id) false = Ok (a, s') -> replays s (JobRunning id) s'.
Proof.
  cbn [apply]. intros Hr ind Hind. cbn [strip_record apply]. unfold apply_running in *.
  same_queries s ind. inv_ok_step. rewrite E. cbn [rbind].
  apply on_book_Ok in Hr as (b & Hb & ->). pose proof (run_marks _ _ _ _ _ Hb) as Hm.
  apply (book_run_strip _ ind) in Hb. eapply on_book_replays; [exact Hb|by rewrite Hm].
Qed.

Lemma replay_plaintext s id a s' :
  apply s v (PlaintextReleased id) false = Ok (a, s') -> replays s (PlaintextReleased id) s'.
Proof.
  cbn [apply]. intros Hr ind Hind. cbn [strip_record apply]. unfold apply_plaintext in *.
  same_queries s ind. inv_ok_step. rewrite E. cbn [rbind]. inv_ok_step. reopen.
  destruct (delivered (job_phase v1)) eqn:Hdel; [inv_ok; subst; by exists Redundant, ind|].
  inv_ok_step. inv_ok_step. destruct v2. rewrite (proj2 (limits_replayed s ind _) E1). cbn [rbind].
  apply on_book_Ok in Hr as (b & Hb & ->). pose proof (release_marks _ _ _ _ Hb) as Hm.
  apply (book_release_strip _ ind) in Hb. eapply on_book_replays; [exact Hb|by rewrite Hm].
Qed.

Lemma replay_verified s id a s' :
  apply s v (ResultVerified id) false = Ok (a, s') -> replays s (ResultVerified id) s'.
Proof.
  cbn [apply]. intros Hr ind Hind. cbn [strip_record apply]. unfold apply_verified in *.
  same_queries s ind. inv_ok_step. rewrite E. cbn [rbind]. inv_ok_step. reopen.
  destruct (job_result v1) as [[r sig]|]; [|done]. inv_ok_step.
  destruct (bool_decide (job_phase v1 = Verified)); [inv_ok; subst; by exists Redundant, ind|].
  cbn [negb] in *. inv_ok_step. cbn [rbind]. apply on_book_Ok in Hr as (b & Hb & ->).
  pose proof (verified_marks _ _ _ _ Hb) as Hm.
  apply (mark_verified_strip _ ind) in Hb. eapply on_book_replays; [exact Hb|by rewrite Hm].
Qed.

Lemma replayed_transcript s ind id transcript :
  replayed (map_book (with_jobs (alter (with_transcript transcript) id)) s) ind = replayed s ind.
Proof.
  unfold replayed, map_book, with_jobs, strip_book; cbn. f_equal. f_equal. apply map_eq. intros i.
  rewrite !lookup_fmap. destruct (decide (i = id)) as [->|]; [|by rewrite lookup_alter_ne].
  rewrite lookup_alter_eq. by destruct (jobs s !! id).
Qed.

Lemma replay_result s id r sig transcript a s' :
  apply s v (JobResultRecord id r sig transcript) false = Ok (a, s') ->
  replays s (JobResultRecord id r sig transcript) s'.
Proof.
  cbn [apply]. intros Hr ind Hind. cbn [strip_record apply]. unfold apply_result in *.
  same_queries s ind. inv_ok_step. reopen. cbn [strip_book indeterminate].
  destruct (job_result v0) as [[held sg]|] eqn:Hres.
  - exists Redundant, ind. destruct (bool_decide (held = r) && bool_decide (sg = sig)); cbn [andb] in *;
      [|by rewrite andb_false_r in Hr].
    destruct (bool_decide (job_transcript v0 = transcript)); [inv_ok; by subst|].
    inv_ok. subst. split; [done|]. by rewrite replayed_transcript.
  - inv_ok_step. assert (id ∉ ind) as Hni by (bool_simpl; set_solver).
    rewrite bool_decide_eq_false_2 by done. inv_ok_step. inv_ok_step. inv_ok_step.
    rewrite (check_result_payload_replayed _ ind _ _ _ _ _ E0). cbn [rbind]. inv_ok_step.
    apply on_book_Ok in Hr as (b & Hb & ->). pose proof (result_marks _ _ _ _ _ _ _ Hb) as Hm.
    apply (record_result_strip _ ind) in Hb; [|done]. eapply on_book_replays; [exact Hb|by rewrite Hm].
Qed.

Lemma replayed_rest s ind t ledger :
  mk_Channel (ch_funding s) ledger (ch_role s) (rest_at (strip_book (ch_book s) ind) t) =
  replayed (mk_Channel (ch_funding s) ledger (ch_role s) (rest_at (ch_book s) t))
    (ind ∖ {[terminal_work_id t]}).
Proof. by rewrite rest_at_strip. Qed.

Lemma rest_marks s ind (t : JobTerminal) :
  ind ⊆ indeterminate (ch_book s) ->
  ind ∖ {[terminal_work_id t]} ⊆ indeterminate (rest_at (ch_book s) t).
Proof. cbn [rest_at indeterminate]. set_solver. Qed.

Lemma replay_terminated s id outcome a s' :
  apply s v (JobTerminated id outcome) false = Ok (a, s') -> replays s (JobTerminated id outcome) s'.
Proof.
  cbn [apply]. intros Hr ind Hind. cbn [strip_record apply]. unfold apply_terminated in *.
  same_queries s ind. cbn [strip_book book_terminals].
  destruct (terminals s !! id) as [t|]; [inv_ok; subst; by exists Redundant, ind|].
  fold (strip_book (ch_book s) ind). rewrite strip_lookup.
  assert (is_some (strip_job <$> jobs s !! id) = is_some (jobs s !! id)) as -> by (by destruct (jobs s !! id)).
  inv_ok_step. inv_ok_step. reopen.
  destruct outcome as [[r sig] certificate binding bsig csig| | | |].
  - unfold terminate_certified in *. same_queries s ind. cbn [strip_job job_phase job_result
      job_authorization job_work_id]. inv_ok_step. destruct (job_result v0) as [held|]; [|done].
    inv_ok_step. inv_ok_step. inv_ok_step. inv_ok_step. inv_ok_step. rewrite E0. cbn [rbind].
    inv_ok. subst. eexists Changed, _. rewrite replayed_rest. split; [|done]. by apply rest_marks.
  - inv_ok_step. rewrite E0. cbn [rbind]. inv_ok_step. destruct (job_result v0) as [[r sig]|]; [|done].
    inv_ok_step. inv_ok. subst. eexists Changed, _. unfold map_book. same_queries s ind.
    rewrite replayed_rest. split; [|done]. by apply rest_marks.
  - inv_ok. subst. eexists Changed, _. unfold map_book. same_queries s ind.
    rewrite replayed_rest. split; [|done]. by apply rest_marks.
  - inv_ok. subst. eexists Changed, _. unfold map_book. same_queries s ind.
    rewrite replayed_rest. split; [|done]. by apply rest_marks.
  - inv_ok. subst. eexists Changed, _. unfold map_book. same_queries s ind.
    rewrite replayed_rest. split; [|done]. by apply rest_marks.
Qed.

Lemma replay_close s record a s' :
  match record with
  | ClosePrepared _ | CloseOpened _ | CloseResponded _ | CloseSettled _
  | CloseHistoryAdvanced _ _ | OriginObserved | CursorAdvanced _ _ _ => True
  | _ => False
  end ->
  apply s v record false = Ok (a, s') -> replays s record s'.
Proof.
  intros Hkind Hr ind Hind. exists a, ind.
  assert (indeterminate (ch_book s') = indeterminate (ch_book s)) as Hm.
  { destruct record; try done; cbn [apply] in Hr;
      unfold apply_close_prepared, apply_close_opened, apply_close_responded, apply_close_settled,
        apply_close_history, apply_cursor in Hr;
      repeat (inv_ok_step || case_match); subst; done. }
  split; [by rewrite Hm|].
  pose proof (refuse_open_job_replayed s ind) as Hopen.
  destruct record; try done; cbn [strip_record apply] in *.
  - same_queries s ind. case_match; inv_ok; by subst.
  - unfold apply_cursor in *. same_queries s ind. inv_ok_step. rewrite E. cbn [rbind].
    destruct v0; inv_ok; by subst.
  - unfold apply_close_prepared in *. same_queries s ind. destruct (bool_decide _); [inv_ok; by subst|].
    inv_ok_step. inv_ok_step. destruct v0. rewrite (Hopen _ E). cbn [rbind]. inv_ok_step. rewrite E0.
    cbn [rbind]. inv_ok_step. inv_ok. by subst.
  - unfold apply_close_opened in *. same_queries s ind. destruct (bool_decide _); [inv_ok; by subst|].
    inv_ok_step. inv_ok_step. inv_ok_step. destruct v0. rewrite (Hopen _ E). cbn [rbind]. inv_ok. by subst.
  - unfold apply_close_responded in *. same_queries s ind. destruct (bool_decide _); [inv_ok; by subst|].
    inv_ok_step. inv_ok_step. rewrite E. cbn [rbind]. inv_ok_step.
    destruct (answerable_contest s) as [[contest cert]|]; [|done]. inv_ok_step. inv_ok_step. inv_ok.
    by subst.
  - unfold apply_close_settled in *. same_queries s ind. destruct (bool_decide _); [inv_ok; by subst|].
    inv_ok_step. inv_ok_step. destruct v0. rewrite (Hopen _ E). cbn [rbind]. inv_ok. by subst.
  - unfold apply_close_history in *. same_queries s ind. inv_ok_step. rewrite E. cbn [rbind].
    destruct (bool_decide (close_history _ = _)); [inv_ok; by subst|]. inv_ok_step. rewrite E0. cbn [rbind].
    inv_ok. by subst.
Qed.

(** What commit accepts, replay accepts, to the same state without bodies. *)
Lemma replay_record s record a s' :
  apply s v record false = Ok (a, s') -> replays s record s'.
Proof.
  intros Hr. destruct record;
    eauto using replay_proposed, replay_accepted, replay_running, replay_result, replay_plaintext,
      replay_verified, replay_terminated, replay_close.
  cbn [apply] in Hr. intros ind Hind. cbn [strip_record apply]. same_queries s ind.
  inv_ok_step. rewrite E. cbn [rbind]. apply on_book_Ok in Hr as (b & Hb & ->).
  pose proof (exchange_marks _ _ _ _ _ Hb) as Hm.
  apply (proposal_exchange_strip _ ind) in Hb. eapply on_book_replays; [exact Hb|by rewrite Hm].
Qed.
End replay.
