(* ===== verification/ChannelCodec.v ===== *)
(** * Journal encodings (crates/channel/src/work_store/channel/codec.rs)

    The canonical bytes of a channel record and of a checkpoint.  A reader is the
    cursor over the bytes left; [Field] pairs what writes a value with what reads
    it back, and [FieldLaw] says that reading accepts exactly what writing
    produces.  Records are read exactly; a checkpoint's maps are written in key
    order and read into maps, duplicates refused. *)

From S2P Require Import Prelude Xet XetChunk Canonical Primitive Errors Context Auth Objects Registry.
From S2P Require Import View Store Terms Work PaidWork JobBook JobInput ChannelState ChannelSteps.
From S2P Require Import ChannelInvariant ChannelReplay.

#[local] Open Scope N_scope.

(** ** The cursor *)

Notation reader A := (bytes -> result (A * bytes) ChannelStateError).

(* [canonical.rs:639-643] Cursor::byte *)
Definition Cursor_byte (cursor : bytes) : option (byte * bytes) :=
  match cursor with head :: rest => Some (head, rest) | [] => None end.

(* [canonical.rs:646-650] Cursor::take *)
Definition Cursor_take (len : nat) (cursor : bytes) : option (bytes * bytes) :=
  if (length cursor <? len)%nat then None else Some (take len cursor, drop len cursor).

(* [canonical.rs:661-663] Cursor::u64 *)
Definition Cursor_u64 (cursor : bytes) : option (N * bytes) :=
  '(head, rest) ← Cursor_take 8 cursor; Some (from_be_bytes head, rest).

Definition malformed {A} (o : option A) : result A ChannelStateError := ok_or o Malformed.

(** ** Fields *)

Record Field (A : Type) := mk_Field {
  put : A -> bytes;
  read : reader A;
  fits : A -> bool;
}.
Arguments mk_Field {A}.
Arguments put {A}.
Arguments read {A}.
Arguments fits {A}.

Class FieldLaw {A} (f : Field A) : Prop := {
  read_put a rest : fits f a = true -> read f (put f a ++ rest) = Ok (a, rest);
  read_sound bs a rest : read f bs = Ok (a, rest) -> fits f a = true /\ bs = put f a ++ rest;
}.

Definition u64_field : Field N := {|
  put := put_u64;
  read := fun cursor => malformed (Cursor_u64 cursor);
  fits := u64_ok |}.

Definition u32_field : Field N := {|
  put := to_be_bytes 4;
  read := fun cursor =>
    let? '(head, rest) := malformed (Cursor_take 4 cursor) in Ok (from_be_bytes head, rest);
  fits := u32_ok |}.

(** A fixed-width array behind a newtype. *)
Definition array_field {A} (n : nat) (of_bytes : bytes -> A) (to_bytes : A -> bytes) : Field A := {|
  put := to_bytes;
  read := fun cursor =>
    let? '(head, rest) := malformed (Cursor_take n cursor) in Ok (of_bytes head, rest);
  fits := fun a => (length (to_bytes a) =? n)%nat |}.

Definition payload_field : Field bytes := array_field 32 id id.
(* [crates/channel/src/work_store/channel/codec.rs:391-395] digest *)
Definition digest_field : Field Digest := array_field 32 Digest_from_bytes Digest_bytes.
(* [crates/channel/src/work_store/channel/codec.rs:384-389] signature *)
Definition signature_field : Field Sig := array_field 64 Sig_from_bytes Sig_bytes.
Definition start_id_field : Field StartId := array_field 32 StartId_from_bytes StartId_bytes.
Definition payload_hash_field : Field PayloadHash :=
  array_field 32 PayloadHash_from_bytes PayloadHash_bytes.

(** A value written as one byte. *)
Definition code_field {A} (code : A -> N) (of_code : N -> option A) : Field A := {|
  put := fun a => [byte_of_N (code a)];
  read := fun cursor =>
    let? '(b, rest) := malformed (Cursor_byte cursor) in
    let? a := malformed (of_code (Byte.to_N b)) in Ok (a, rest);
  fits := fun _ => true |}.

(* [crates/channel/src/work_store/mod.rs:102-108] take_bool *)
Definition bool_field : Field bool :=
  code_field (fun b : bool => if b then 1 else 0)
    (fun c => if c =? 0 then Some false else if c =? 1 then Some true else None).

(* [crates/channel/src/work_store/channel/codec.rs:361-367] party *)
Definition party_field : Field Party :=
  code_field (fun p => match p with Maker => 0 | Taker => 1 end)
    (fun c => if c =? 0 then Some Maker else if c =? 1 then Some Taker else None).

(* [crates/channel/src/work_store/channel/codec.rs:376-382] role_from_code *)
Definition role_field : Field Role :=
  code_field (fun r => match r with Client => 1 | Provider => 2 end)
    (fun c => if c =? 1 then Some Client else if c =? 2 then Some Provider else None).

(* [crates/channel/src/work_store/channel.rs:240-250] JobPhase::code *)
Definition JobPhase_code (p : JobPhase) : N :=
  match p with
  | HalfSigned => 0 | Accepted => 1 | Running => 2 | Ready => 3 | Verified => 4
  | Delivered => 5 | Streaming => 6
  end.

(* [crates/channel/src/work_store/channel.rs:252-263] JobPhase::from_code *)
Definition JobPhase_from_code (c : N) : option JobPhase :=
  match c with
  | 0 => Some HalfSigned | 1 => Some Accepted | 2 => Some Running | 3 => Some Ready
  | 4 => Some Verified | 5 => Some Delivered | 6 => Some Streaming
  | _ => None
  end.

Definition phase_field : Field JobPhase := code_field JobPhase_code JobPhase_from_code.

(* [crates/channel/src/work_store/channel/codec.rs:344-351] private_record *)
Definition record_field {R} (pr : PrivateRecord R) : Field R := {|
  put := record_encode pr;
  read := fun cursor =>
    let? '(head, rest) := malformed (Cursor_take (ENCODED_SIZE pr) cursor) in
    let? r := paid (record_decode pr head) in Ok (r, rest);
  fits := record_wf pr |}.

(* [crates/channel/src/work_store/channel/codec.rs:397-408] certificate *)
Definition certificate_field : Field EarnedCertificate := {|
  put := encode_to EarnedCertificate_codec;
  read := fun cursor =>
    let? '(head, rest) := malformed (Cursor_take EarnedCertificate_ENCODED_SIZE cursor) in
    let? '(certificate, consumed) :=
      map_err (fun _ => Malformed) (decode EarnedCertificate_codec head) in
    if (consumed =? length head)%nat then Ok (certificate, rest) else Err Malformed;
  fits := wf EarnedCertificate_codec |}.

(* [crates/channel/src/work_store/mod.rs:60-72] put_option *)
Definition put_option {A} (f : A -> bytes) (o : option A) : bytes :=
  match o with None => [byte_of_N 0] | Some a => byte_of_N 1 :: f a end.

(* [crates/channel/src/work_store/mod.rs:75-85] take_option *)
Definition take_option {A} (body : reader A) : reader (option A) := fun cursor =>
  match Cursor_byte cursor with
  | Some (b, rest) =>
      if Byte.to_N b =? 0 then Ok (None, rest)
      else if Byte.to_N b =? 1 then let? '(a, rest) := body rest in Ok (Some a, rest)
      else Err Malformed
  | None => Err Malformed
  end.

Definition option_field {A} (f : Field A) : Field (option A) := {|
  put := put_option (put f);
  read := take_option (read f);
  fits := fun o => match o with Some a => fits f a | None => true end |}.

(* [crates/channel/src/work_store/mod.rs:88-91] put_bytes *)
Definition put_bytes (bs : bytes) : bytes := put_u64 (lenN bs) ++ bs.

(* [crates/channel/src/work_store/mod.rs:94-99] take_bytes *)
Definition take_bytes : reader bytes := fun cursor =>
  let? '(len, cursor) := malformed (Cursor_u64 cursor) in
  if lenN cursor <? len then Err Malformed
  else Ok (takeN len cursor, dropN len cursor).

Definition bytes_field : Field bytes := {|
  put := put_bytes; read := take_bytes; fits := fun bs => u64_ok (lenN bs) |}.

(** A kernel value behind its own length. *)
(* [crates/channel/src/work_store/channel/codec.rs:410-412] decode_kernel *)
Definition decode_kernel {A} (cd : Codec A) (bs : bytes) : result A ChannelStateError :=
  map_err (fun _ => Malformed) (decode_exact cd bs).

Definition kernel_field {A} (cd : Codec A) : Field A := {|
  put := fun a => put_bytes (encode_to cd a);
  read := fun cursor =>
    let? '(bs, rest) := take_bytes cursor in
    let? a := decode_kernel cd bs in Ok (a, rest);
  fits := fun a => wf cd a && u64_ok (lenN (encode_to cd a)) |}.

(** Two fields in sequence. *)
Definition pair_field {A B} (f : Field A) (g : Field B) : Field (A * B) := {|
  put := fun '(a, b) => put f a ++ put g b;
  read := fun cursor =>
    let? '(a, cursor) := read f cursor in
    let? '(b, cursor) := read g cursor in Ok ((a, b), cursor);
  fits := fun '(a, b) => fits f a && fits g b |}.

(** ** Records *)

(* [crates/channel/src/work_store/channel/codec.rs:274-315] put_outcome *)
Definition put_outcome (outcome : TerminalOutcome) : bytes :=
  match outcome with
  | Certified (r, sig) certificate binding binding_signature certificate_signature =>
      byte_of_N 0 :: put (record_field PaidJobResultV1_record) r ++ put signature_field sig ++
      put certificate_field certificate ++
      put (record_field PaymentBindingV1_record) binding ++ put signature_field binding_signature ++
      put signature_field certificate_signature
  | Rejected result_digest evidence_digest =>
      byte_of_N 1 :: put digest_field result_digest ++ put digest_field evidence_digest
  | Expired deadline height payload =>
      byte_of_N 2 :: put u64_field deadline ++ put u64_field height ++ put payload_field payload
  | Failed code => byte_of_N 3 :: put u32_field code
  | Indeterminate => [byte_of_N 4]
  end.

(* [crates/channel/src/work_store/channel/codec.rs:318-342] take_outcome *)
Definition take_outcome : reader TerminalOutcome := fun cursor =>
  let? '(b, cursor) := malformed (Cursor_byte cursor) in
  match Byte.to_N b with
  | 0 =>
      let? '(r, cursor) := read (record_field PaidJobResultV1_record) cursor in
      let? '(sig, cursor) := read signature_field cursor in
      let? '(certificate, cursor) := read certificate_field cursor in
      let? '(binding, cursor) := read (record_field PaymentBindingV1_record) cursor in
      let? '(binding_signature, cursor) := read signature_field cursor in
      let? '(certificate_signature, cursor) := read signature_field cursor in
      Ok (Certified (r, sig) certificate binding binding_signature certificate_signature, cursor)
  | 1 =>
      let? '(result_digest, cursor) := read digest_field cursor in
      let? '(evidence_digest, cursor) := read digest_field cursor in
      Ok (Rejected result_digest evidence_digest, cursor)
  | 2 =>
      let? '(deadline, cursor) := read u64_field cursor in
      let? '(height, cursor) := read u64_field cursor in
      let? '(payload, cursor) := read payload_field cursor in
      Ok (Expired deadline height payload, cursor)
  | 3 => let? '(code, cursor) := read u32_field cursor in Ok (Failed code, cursor)
  | 4 => Ok (Indeterminate, cursor)
  | _ => Err Malformed
  end.

Definition outcome_fits (outcome : TerminalOutcome) : bool :=
  match outcome with
  | Certified (r, sig) certificate binding binding_signature certificate_signature =>
      record_wf PaidJobResultV1_record r && fits signature_field sig &&
      wf EarnedCertificate_codec certificate && record_wf PaymentBindingV1_record binding &&
      fits signature_field binding_signature && fits signature_field certificate_signature
  | Rejected result_digest evidence_digest =>
      fits digest_field result_digest && fits digest_field evidence_digest
  | Expired deadline height payload => u64_ok deadline && u64_ok height && fits payload_field payload
  | Failed code => u32_ok code
  | Indeterminate => true
  end.

Definition outcome_field : Field TerminalOutcome := {|
  put := put_outcome; read := take_outcome; fits := outcome_fits |}.

(** A field read through a one-to-one change of shape. *)
Definition iso_field {A B} (f : Field A) (to : A -> B) (from : B -> A) : Field B := {|
  put := fun b => put f (from b);
  read := fun cursor => let? '(a, cursor) := read f cursor in Ok (to a, cursor);
  fits := fun b => fits f (from b) |}.

Definition contest_field : Field OpenContest :=
  iso_field (pair_field start_id_field (pair_field party_field (pair_field u64_field u64_field)))
    (fun '(start_id, (opener, (deadline, claimed))) => mk_OpenContest start_id opener deadline claimed)
    (fun c => (contest_start_id c, (contest_opener c, (contest_response_deadline c, contest_claimed c)))).

Definition answer_field : Field RespondedContest :=
  iso_field (pair_field start_id_field payload_hash_field)
    (fun '(start_id, response_digest) => mk_RespondedContest start_id response_digest)
    (fun a => (answer_start_id a, answer_response_digest a)).

Definition settlement_field : Field CloseSettlement :=
  iso_field (pair_field u64_field (pair_field payload_field u64_field))
    (fun '(height, (payload, payout)) => mk_CloseSettlement height payload payout)
    (fun s => (settled_height s, (settled_payload s, provider_payout s))).

(* [crates/channel/src/work_store/channel/codec.rs:721-734] put_close_history, take_close_history *)
Definition history_field : Field CloseHistory :=
  iso_field (pair_field u64_field (pair_field payload_field (kernel_field PendingPaymentClose_codec)))
    (fun '(height, (payload, pending)) => mk_CloseHistory height payload pending)
    (fun h => (history_height h, (history_payload h, history_pending h))).

Section records.
  Context `{Blake3}.

(* [crates/channel/src/work_store/channel/codec.rs:53-174] ChannelRecord::encode_inner *)
Definition encode_inner (record : ChannelRecord) (metadata_only : bool) : bytes :=
  match record with
  | OriginObserved => [byte_of_N 13]
  | ProposalExchange work_id pending => byte_of_N 12 :: put digest_field work_id ++ put bool_field pending
  | CursorAdvanced height parent payload => byte_of_N 0 :: put u64_field height ++ put payload_field parent ++ put payload_field payload
  | JobProposed authorization client_signature prepared_input =>
      byte_of_N 1 :: put (record_field PaidJobAuthorizationV2_record) authorization ++
      put signature_field client_signature ++ (if metadata_only then [] else prepared_input)
  | JobAccepted work_id provider_signature =>
      byte_of_N 2 :: put digest_field work_id ++ put signature_field provider_signature
  | JobRunning work_id => byte_of_N 3 :: put digest_field work_id
  | JobResultRecord work_id r provider_signature transcript =>
      byte_of_N 4 :: put digest_field work_id ++ put (record_field PaidJobResultV1_record) r ++
      put signature_field provider_signature ++ (if metadata_only then [] else transcript)
  | PlaintextReleased work_id => byte_of_N 5 :: put digest_field work_id
  | ResultVerified work_id => byte_of_N 6 :: put digest_field work_id
  | JobTerminated work_id outcome => byte_of_N 7 :: put digest_field work_id ++ put outcome_field outcome
  | ClosePrepared start => byte_of_N 8 :: encode_to PaymentCloseStart_codec start
  | CloseHistoryAdvanced parent history => byte_of_N 14 :: put payload_field parent ++ put history_field history
  | CloseOpened contest => byte_of_N 9 :: put contest_field contest
  | CloseResponded answer => byte_of_N 11 :: put answer_field answer
  | CloseSettled settlement => byte_of_N 10 :: put settlement_field settlement
  end.

(* [crates/channel/src/work_store/channel/codec.rs:183-265] ChannelRecord::decode *)
Definition ChannelRecord_decode (bs : bytes) : result ChannelRecord ChannelStateError :=
  let? '(tag, cursor) := malformed (Cursor_byte bs) in
  let? '(record, cursor) :=
    match Byte.to_N tag with
    | 12 =>
        let? '(work_id, cursor) := read digest_field cursor in
        let? '(pending, cursor) := read bool_field cursor in
        Ok (ProposalExchange work_id pending, cursor)
    | 13 => Ok (OriginObserved, cursor)
    | 0 =>
        let? '(height, cursor) := read u64_field cursor in
        let? '(parent, cursor) := read payload_field cursor in
        let? '(payload, cursor) := read payload_field cursor in
        Ok (CursorAdvanced height parent payload, cursor)
    | 1 =>
        let? '(authorization, cursor) := read (record_field PaidJobAuthorizationV2_record) cursor in
        let? '(client_signature, cursor) := read signature_field cursor in
        Ok (JobProposed authorization client_signature cursor, [])
    | 2 =>
        let? '(work_id, cursor) := read digest_field cursor in
        let? '(provider_signature, cursor) := read signature_field cursor in
        Ok (JobAccepted work_id provider_signature, cursor)
    | 3 => let? '(work_id, cursor) := read digest_field cursor in Ok (JobRunning work_id, cursor)
    | 4 =>
        let? '(work_id, cursor) := read digest_field cursor in
        let? '(r, cursor) := read (record_field PaidJobResultV1_record) cursor in
        let? '(provider_signature, cursor) := read signature_field cursor in
        Ok (JobResultRecord work_id r provider_signature cursor, [])
    | 5 =>
        let? '(work_id, cursor) := read digest_field cursor in Ok (PlaintextReleased work_id, cursor)
    | 6 => let? '(work_id, cursor) := read digest_field cursor in Ok (ResultVerified work_id, cursor)
    | 7 =>
        let? '(work_id, cursor) := read digest_field cursor in
        let? '(outcome, cursor) := read outcome_field cursor in
        Ok (JobTerminated work_id outcome, cursor)
    | 8 => let? start := decode_kernel PaymentCloseStart_codec cursor in Ok (ClosePrepared start, [])
    | 14 =>
        let? '(parent, cursor) := read payload_field cursor in
        let? '(history, cursor) := read history_field cursor in
        Ok (CloseHistoryAdvanced parent history, cursor)
    | 9 => let? '(contest, cursor) := read contest_field cursor in Ok (CloseOpened contest, cursor)
    | 11 => let? '(answer, cursor) := read answer_field cursor in Ok (CloseResponded answer, cursor)
    | 10 =>
        let? '(settlement, cursor) := read settlement_field cursor in
        Ok (CloseSettled settlement, cursor)
    | _ => Err Malformed
    end in
  match cursor with [] => Ok record | _ :: _ => Err Malformed end.

(** The widths a record's fields have in memory. *)
Definition record_fits (record : ChannelRecord) : bool :=
  match record with
  | OriginObserved => true
  | ProposalExchange work_id _ => fits digest_field work_id
  | CursorAdvanced height parent payload =>
      u64_ok height && fits payload_field parent && fits payload_field payload
  | JobProposed authorization client_signature _ =>
      record_wf PaidJobAuthorizationV2_record authorization && fits signature_field client_signature
  | JobAccepted work_id provider_signature =>
      fits digest_field work_id && fits signature_field provider_signature
  | JobRunning work_id | PlaintextReleased work_id | ResultVerified work_id =>
      fits digest_field work_id
  | JobResultRecord work_id r provider_signature _ =>
      fits digest_field work_id && record_wf PaidJobResultV1_record r &&
      fits signature_field provider_signature
  | JobTerminated work_id outcome => fits digest_field work_id && outcome_fits outcome
  | ClosePrepared start => wf PaymentCloseStart_codec start
  | CloseHistoryAdvanced parent history => fits payload_field parent && fits history_field history
  | CloseOpened contest => fits contest_field contest
  | CloseResponded answer => fits answer_field answer
  | CloseSettled settlement => fits settlement_field settlement
  end.

End records.

(** ** Field laws *)

#[local] Transparent put_u64.

Lemma Cursor_take_app n (a rest : bytes) : length a = n -> Cursor_take n (a ++ rest) = Some (a, rest).
Proof.
  intros <-. unfold Cursor_take. rewrite length_app, (proj2 (Nat.ltb_ge _ _)) by lia.
  by rewrite take_app_length, drop_app_length.
Qed.

Lemma Cursor_take_Some n bs a rest :
  Cursor_take n bs = Some (a, rest) -> length a = n /\ bs = a ++ rest.
Proof.
  unfold Cursor_take. destruct (_ <? _)%nat eqn:E; [done|]. apply Nat.ltb_ge in E.
  intros. simplify_eq. by rewrite length_take, take_drop, Nat.min_l.
Qed.

Lemma malformed_Ok {A} (o : option A) a : malformed o = Ok a <-> o = Some a.
Proof. destruct o; simpl; split; intros; by simplify_eq. Qed.

Lemma be_field_app w v rest :
  v < 256 ^ N.of_nat w ->
  Cursor_take w (to_be_bytes w v ++ rest) = Some (to_be_bytes w v, rest) /\
  from_be_bytes (to_be_bytes w v) = v.
Proof.
  intros. split; [apply Cursor_take_app, to_be_bytes_length|by apply from_to_be_bytes].
Qed.

Lemma be_field_Some w bs a rest :
  Cursor_take w bs = Some (a, rest) ->
  from_be_bytes a < 256 ^ N.of_nat w /\ bs = to_be_bytes w (from_be_bytes a) ++ rest.
Proof.
  intros [<- ->]%Cursor_take_Some. split; [apply from_be_bytes_bound|by rewrite to_from_be_bytes].
Qed.

#[export] Instance u64_field_law : FieldLaw u64_field.
Proof.
  split; cbn [put read fits u64_field]; unfold u64_ok, Cursor_u64, put_u64.
  - intros v rest Hv. bool_simpl. destruct (be_field_app 8 v rest) as [E1 E2];
      [unfold U64_MAX in *; lia|]. rewrite E1.
    revert E2. generalize (to_be_bytes 8 v). simpl. by intros ? ->.
  - intros bs v rest [[a r] [E Hr]]%malformed_Ok%bind_Some. simplify_eq.
    apply be_field_Some in E as [Hb ->]. split; [|done]. apply N.leb_le. unfold U64_MAX. simpl in Hb. lia.
Qed.

#[export] Instance u32_field_law : FieldLaw u32_field.
Proof.
  split; cbn [put read fits u32_field]; unfold u32_ok.
  - intros v rest Hv. bool_simpl. destruct (be_field_app 4 v rest) as [E1 E2]; [simpl; lia|]. rewrite E1.
    revert E2. generalize (to_be_bytes 4 v). simpl. by intros ? ->.
  - intros bs v rest Hr. inv_ok_step. apply malformed_Ok in E.
    match type of E with _ = Some ?p => destruct p as [a r] end. simplify_eq/=.
    apply be_field_Some in E as [Hb ->]. split; [|done]. apply N.leb_le. simpl in Hb. lia.
Qed.

Lemma array_field_law {A} n (of_bytes : bytes -> A) to_bytes :
  (forall a, of_bytes (to_bytes a) = a) -> (forall bs, to_bytes (of_bytes bs) = bs) ->
  FieldLaw (array_field n of_bytes to_bytes).
Proof.
  intros H1 H2. split; cbn [put read fits array_field].
  - intros a rest Ha. bool_simpl. rewrite Cursor_take_app by done. simpl. by rewrite H1.
  - intros bs a rest Hr. inv_ok_step. apply malformed_Ok in E.
    match type of E with _ = Some ?p => destruct p as [x r] end. simplify_eq/=.
    apply Cursor_take_Some in E as [Hl ->]. rewrite H2. split; [by apply Nat.eqb_eq|done].
Qed.

#[export] Instance payload_field_law : FieldLaw payload_field.
Proof. by apply array_field_law. Qed.
#[export] Instance digest_field_law : FieldLaw digest_field.
Proof. by apply array_field_law; [intros []|]. Qed.
#[export] Instance signature_field_law : FieldLaw signature_field.
Proof. by apply array_field_law; [intros []|]. Qed.
#[export] Instance start_id_field_law : FieldLaw start_id_field.
Proof. by apply array_field_law; [intros []|]. Qed.
#[export] Instance payload_hash_field_law : FieldLaw payload_hash_field.
Proof. by apply array_field_law; [intros []|]. Qed.

Lemma code_field_law {A} (code : A -> N) of_code :
  (forall a, code a < 256 /\ of_code (code a) = Some a) ->
  (forall c a, of_code c = Some a -> code a = c) ->
  FieldLaw (code_field code of_code).
Proof.
  intros H1 H2. split; cbn [put read fits code_field].
  - intros a rest _. destruct (H1 a) as [Hb Ha]. simpl.
    rewrite byte_to_of_N, N.mod_small by done. by rewrite Ha.
  - intros [|b bs] a rest Hr; [done|]. simpl in Hr. inv_ok_step. simplify_eq.
    apply malformed_Ok in E. split; [done|]. by rewrite (H2 _ _ E), byte_of_to_N.
Qed.

#[export] Instance bool_field_law : FieldLaw bool_field.
Proof.
  apply code_field_law; [by intros []|]. intros c a. simpl.
  destruct (c =? 0) eqn:E0; [|destruct (c =? 1) eqn:E1]; intros; simplify_eq; by bool_simpl.
Qed.
#[export] Instance party_field_law : FieldLaw party_field.
Proof.
  apply code_field_law; [by intros []|]. intros c a. simpl.
  destruct (c =? 0) eqn:E0; [|destruct (c =? 1) eqn:E1]; intros; simplify_eq; by bool_simpl.
Qed.
#[export] Instance role_field_law : FieldLaw role_field.
Proof.
  apply code_field_law; [by intros []|]. intros c a. simpl.
  destruct (c =? 1) eqn:E0; [|destruct (c =? 2) eqn:E1]; intros; simplify_eq; by bool_simpl.
Qed.
#[export] Instance phase_field_law : FieldLaw phase_field.
Proof.
  apply code_field_law; [by intros []|]. intros c a. unfold JobPhase_from_code, JobPhase_code.
  repeat case_match; intros; by simplify_eq.
Qed.

#[export] Instance record_field_law {R} (pr : PrivateRecord R) `{!LawfulRecord pr} :
  FieldLaw (record_field pr).
Proof.
  split; cbn [put read fits record_field].
  - intros r rest Hr. rewrite Cursor_take_app by by apply record_encode_length. simpl.
    by rewrite (proj2 (record_decode_iff pr _ _) (conj Hr eq_refl)).
  - intros bs r rest Hr. do 2 inv_ok_step. apply malformed_Ok in E.
    unfold paid in *. inv_ok. subst. apply Cursor_take_Some in E as [_ ->].
    by apply record_decode_iff in E0 as [? ->].
Qed.

Lemma EarnedCertificate_length c :
  wf EarnedCertificate_codec c = true ->
  length (encode_to EarnedCertificate_codec c) = EarnedCertificate_ENCODED_SIZE.
Proof. intros Hc. by rewrite (fixed_size c Hc). Qed.

#[export] Instance certificate_field_law : FieldLaw certificate_field.
Proof.
  split; cbn [put read fits certificate_field].
  - intros c rest Hc. rewrite Cursor_take_app by by apply EarnedCertificate_length.
    cbn [malformed ok_or rbind]. rewrite <- (app_nil_r (encode_to _ c)) at 1.
    rewrite decode_encode by done. cbn [map_err rbind]. by rewrite Nat.eqb_refl.
  - intros bs c rest Hr. do 2 inv_ok_step. apply malformed_Ok in E.
    apply Cursor_take_Some in E as [Hl ->]. inv_ok. bool_simpl. subst.
    match goal with H : decode _ _ = Ok _ |- _ =>
      apply decode_sound in H as (Hw & [tail ->] & Hn) end.
    split; [done|]. rewrite length_app in Hl. pose proof (EarnedCertificate_length _ Hw).
    destruct tail; simpl in *; [by rewrite app_nil_r|lia].
Qed.

#[export] Instance option_field_law {A} (f : Field A) `{!FieldLaw f} : FieldLaw (option_field f).
Proof.
  split; cbn [put read fits option_field].
  - unfold take_option, put_option. intros [a|] rest Ha; [|done]. cbn [app Cursor_byte].
    change (Byte.to_N (byte_of_N 1) =? 0) with false. cbn [app].
    change (Byte.to_N (byte_of_N 1) =? 1) with true. cbv iota. by rewrite read_put.
  - unfold take_option, put_option. intros [|b bs] o rest Hr; [done|]. simpl in Hr.
    destruct (Byte.to_N b =? 0) eqn:E0; [|destruct (Byte.to_N b =? 1) eqn:E1; [|done]]; bool_simpl.
    + simplify_eq. split; [done|]. by rewrite <- (byte_of_to_N b), E0.
    + inv_ok. subst. apply read_sound in E as [? ->]. split; [done|].
      by rewrite <- (byte_of_to_N b), E1.
Qed.

#[local] Opaque put_u64.

#[export] Instance bytes_field_law : FieldLaw bytes_field.
Proof.
  split; cbn [put read fits bytes_field]; unfold take_bytes, put_bytes.
  - intros bs rest Hb. rewrite <- app_assoc.
    pose proof (read_put (f := u64_field) (lenN bs) (bs ++ rest) Hb) as E.
    cbn [read put u64_field] in E. rewrite E.
    cbn [rbind]. rewrite length_app. rewrite (proj2 (N.ltb_ge _ _)) by lia.
    by rewrite Nat2N.id, take_app_length, drop_app_length.
  - intros cursor bs rest Hr. inv_ok_step. destruct v as [n r].
    pose proof (read_sound (f := u64_field) cursor n r E) as [Hn ->].
    cbn [fits put u64_field] in *. inv_ok. subst. bool_simpl.
    match goal with H : _ <= lenN _ |- _ => rename H into Hle end.
    rewrite length_take, Nat.min_l by lia. rewrite N2Nat.id. split; [done|].
    by rewrite <- app_assoc, take_drop.
Qed.

#[export] Instance kernel_field_law {A} (cd : Codec A) `{!Lawful cd} : FieldLaw (kernel_field cd).
Proof.
  split; cbn [put read fits kernel_field].
  - intros a rest Ha. bool_simpl. rewrite (read_put (f := bytes_field)) by done. cbn [rbind].
    unfold decode_kernel. by rewrite (proj2 (decode_exact_iff cd _ _) (conj H eq_refl)).
  - intros bs a rest Hr. do 2 inv_ok_step. unfold decode_kernel in *. inv_ok. subst.
    apply (decode_exact_iff cd) in E0 as [Hw ->].
    apply (read_sound (f := bytes_field)) in E as [Hf ->]. split; [|done].
    apply andb_true_intro. done.
Qed.

#[export] Instance pair_field_law {A B} (f : Field A) (g : Field B) `{!FieldLaw f, !FieldLaw g} :
  FieldLaw (pair_field f g).
Proof.
  split; cbn [put read fits pair_field].
  - intros [a b] rest Hf. bool_simpl. rewrite <- app_assoc, read_put by done. cbn [rbind].
    by rewrite read_put.
  - intros bs [a b] rest Hr. inv_ok. simplify_eq.
    apply read_sound in E as [? ->], E0 as [? ->]. rewrite <- app_assoc.
    split; [by apply andb_true_intro|done].
Qed.

Lemma iso_field_law {A B} (f : Field A) `{!FieldLaw f} (to : A -> B) from :
  (forall a, from (to a) = a) -> (forall b, to (from b) = b) -> FieldLaw (iso_field f to from).
Proof.
  intros H1 H2. split; cbn [put read fits iso_field].
  - intros b rest Hb. rewrite read_put by done. cbn [rbind]. by rewrite H2.
  - intros bs b rest Hr. inv_ok. simplify_eq. apply read_sound in E as [? ->]. by rewrite H1.
Qed.

#[export] Instance contest_field_law : FieldLaw contest_field.
Proof. apply (iso_field_law _); [by intros (? & ? & ? & ?)|by intros []]. Qed.
#[export] Instance answer_field_law : FieldLaw answer_field.
Proof. apply (iso_field_law _); [by intros []|by intros []]. Qed.
#[export] Instance settlement_field_law : FieldLaw settlement_field.
Proof. apply (iso_field_law _); [by intros (? & ? & ?)|by intros []]. Qed.
#[export] Instance history_field_law : FieldLaw history_field.
Proof. apply (iso_field_law _); [by intros (? & ? & ?)|by intros []]. Qed.

(** Reads are rewritten forwards with [read_fields] and inverted with [unread]. *)
Ltac read_fields :=
  repeat (first [rewrite <- app_assoc | rewrite read_put by done]; cbn [rbind]).

Ltac unread :=
  repeat match goal with
  | H : read ?f _ = Ok (_, _) |- _ => apply (read_sound (f := f)) in H as [? ?]
  end; subst.

Lemma tag_cases (b : byte) n : Byte.to_N b = n -> b = byte_of_N n.
Proof. intros <-. by rewrite byte_of_to_N. Qed.

#[export] Instance outcome_field_law : FieldLaw outcome_field.
Proof.
  split; cbn [put read fits outcome_field].
  - intros [[r sig] c bi bs cs|rd ed|d h p|code|] rest Hf; cbn [outcome_fits put_outcome] in *;
      bool_simpl; unfold take_outcome; cbn [app Cursor_byte malformed ok_or rbind];
      match goal with |- context [Byte.to_N (byte_of_N ?n)] =>
        change (Byte.to_N (byte_of_N n)) with n end; cbv iota; by read_fields.
  - unfold take_outcome. intros [|b bs] o rest Hr; [done|].
    cbn [Cursor_byte malformed ok_or rbind] in Hr.
    repeat case_match; try done;
      match goal with E : Byte.to_N b = _ |- _ => apply tag_cases in E; subst b end;
      inv_ok; subst; unread; cbn [outcome_fits put_outcome];
      (split; [rewrite ?andb_true_iff; by split_and?|]); cbn [app]; by rewrite <- ?app_assoc.
Qed.

(** ** Records *)

Section record_laws.
  Context `{Blake3}.

Lemma encode_for_storage record : encode_inner record true = encode_inner (strip_record record) false.
Proof. by destruct record. Qed.

Lemma ChannelRecord_decode_encode record :
  record_fits record = true -> ChannelRecord_decode (encode_inner record false) = Ok record.
Proof.
  intros Hf. destruct record; cbn [record_fits] in *; bool_simpl;
    unfold ChannelRecord_decode; cbn [encode_inner app Cursor_byte malformed ok_or rbind];
    match goal with |- context [Byte.to_N (byte_of_N ?n)] =>
      change (Byte.to_N (byte_of_N n)) with n end; cbv iota.
  all: match goal with
       | |- context [decode_kernel PaymentCloseStart_codec] =>
           unfold decode_kernel; rewrite (proj2 (decode_exact_iff _ _ _)) by done; done
       | |- _ => idtac
       end.
  all: cbn [rbind]; repeat (first [done | progress read_fields |
         match goal with |- context [read ?f (put ?f ?a)] => rewrite <- (app_nil_r (put f a)) end]).
Qed.

Lemma ChannelRecord_decode_sound bs record :
  ChannelRecord_decode bs = Ok record ->
  record_fits record = true /\ bs = encode_inner record false.
Proof.
  unfold ChannelRecord_decode. destruct bs as [|b bs]; [done|].
  cbn [Cursor_byte malformed ok_or rbind]. intros Hr. inv_ok_step. destruct v as [r [|? ?]]; [|done].
  simplify_eq. repeat (case_match; try done);
    match goal with E : Byte.to_N b = _ |- _ => apply tag_cases in E; subst b end;
    unfold decode_kernel in *; inv_ok; subst; unread; cbn [record_fits encode_inner];
    repeat match goal with E : decode_exact PaymentCloseStart_codec _ = Ok _ |- _ =>
      apply (decode_exact_iff PaymentCloseStart_codec) in E as [? ->] end;
    (split; [rewrite ?andb_true_iff; by split_and?|]); by rewrite ?app_nil_r, <- ?app_assoc.
Qed.

(** A channel record has exactly one encoding: decoding accepts precisely the
    bytes [encode] writes for a record whose fields have their declared widths,
    and returns that record; an unknown tag, a bad body, a truncation or a
    trailing byte is refused. *)
Theorem channel_record_codec_exact bs record :
  ChannelRecord_decode bs = Ok record <->
  record_fits record = true /\ bs = encode_inner record false.
Proof.
  split; [apply ChannelRecord_decode_sound|]. intros [? ->]. by apply ChannelRecord_decode_encode.
Qed.

(** What is stored reads back as the record without its bodies. *)
Lemma stored_record_decodes record :
  record_fits record = true ->
  ChannelRecord_decode (encode_inner record true) = Ok (strip_record record).
Proof.
  intros Hf. rewrite encode_for_storage. apply ChannelRecord_decode_encode. by destruct record.
Qed.
End record_laws.
