(* ===== verification/Cbor.v ===== *)
(** * Canonical DAG-CBOR (crates/rpc/src/protocol/value.rs, manifest.rs)

    The minimal encoder of commitment bodies and its strict reader, and the
    program manifest written with them.  The reader accepts a header only in the
    one width the encoder writes, so that a body that reads back has one
    spelling.  A refused body is [None]: the error carries a message only. *)

From S2P Require Import Prelude Xet XetChunk Canonical Primitive Errors Context Auth Objects Registry.
From S2P Require Import View Store Terms Work PaidWork JobBook JobInput.

#[local] Open Scope N_scope.

(** [core::str::from_utf8]: the well-formed byte sequences of Unicode 3.9,
    table 3-7. *)
Definition byte_in (lo hi : N) (b : byte) : bool := (lo <=? Byte.to_N b) && (Byte.to_N b <=? hi).
Definition continuation : byte -> bool := byte_in 0x80 0xBF.

Fixpoint utf8 (bs : bytes) : bool :=
  match bs with
  | [] => true
  | a :: rest =>
      if byte_in 0 0x7F a then utf8 rest else
      match rest with
      | [] => false
      | b :: rest =>
          if byte_in 0xC2 0xDF a then continuation b && utf8 rest else
          match rest with
          | [] => false
          | c :: rest =>
              if byte_in 0xE0 0xEF a then
                (if Byte.to_N a =? 0xE0 then byte_in 0xA0 0xBF b
                 else if Byte.to_N a =? 0xED then byte_in 0x80 0x9F b else continuation b)
                && continuation c && utf8 rest
              else
              match rest with
              | [] => false
              | d :: rest =>
                  byte_in 0xF0 0xF4 a
                  && (if Byte.to_N a =? 0xF0 then byte_in 0x90 0xBF b
                      else if Byte.to_N a =? 0xF4 then byte_in 0x80 0x8F b else continuation b)
                  && continuation c && continuation d && utf8 rest
              end
          end
      end
  end.


(** ** The encoder *)

(* [crates/rpc/src/protocol/value.rs:149-167] DagCborEncoder::header *)
Definition cbor_header (major value : N) : bytes :=
  let major := N.shiftl major 5 in
  if value <=? 23 then [byte_of_N (N.lor major value)]
  else if value <=? 0xff then [byte_of_N (N.lor major 24); byte_of_N value]
  else if value <=? 0xffff then byte_of_N (N.lor major 25) :: to_be_bytes 2 value
  else if value <=? 0xffffffff then byte_of_N (N.lor major 26) :: to_be_bytes 4 value
  else byte_of_N (N.lor major 27) :: to_be_bytes 8 value.

(* [crates/rpc/src/protocol/value.rs:123-125] DagCborEncoder::array *)
Definition cbor_array (len : N) : bytes := cbor_header 4 len.
(* [crates/rpc/src/protocol/value.rs:127-130] DagCborEncoder::bytes *)
Definition cbor_bytes (value : bytes) : bytes := cbor_header 2 (lenN value) ++ value.
(* [crates/rpc/src/protocol/value.rs:132-135] DagCborEncoder::str *)
Definition cbor_str (value : bytes) : bytes := cbor_header 3 (lenN value) ++ value.
(* [crates/rpc/src/protocol/value.rs:137-139] DagCborEncoder::u64 *)
Definition cbor_u64 (value : N) : bytes := cbor_header 0 value.
(* [crates/rpc/src/protocol/value.rs:141-147] DagCborEncoder::i64 *)
Definition cbor_i64 (value : Z) : bytes :=
  if (0 <=? value)%Z then cbor_header 0 (Z.to_N value) else cbor_header 1 (Z.to_N (-1 - value)).

(** ** The strict reader *)

(** The reader is the bytes left; [read_exact] at a length known to be small. *)
(* [crates/rpc/src/protocol/value.rs:366-377] CanonicalDecoder::read_exact *)
Definition cbor_read_exact (len : N) (cursor : bytes) : option (bytes * bytes) :=
  if lenN cursor <? len then None else Some (takeN len cursor, dropN len cursor).

(* [crates/rpc/src/protocol/value.rs:379-381] CanonicalDecoder::read_u8 *)
Definition cbor_read_u8 (cursor : bytes) : option (N * bytes) :=
  match cursor with [] => None | b :: cursor => Some (Byte.to_N b, cursor) end.

(** A big-endian integer of [n] bytes that no narrower header could carry. *)
Definition cbor_read_wide (n : nat) (least : N) (cursor : bytes) : option (N * bytes) :=
  '(bs, cursor) ← cbor_read_exact (N.of_nat n) cursor;
  let value := from_be_bytes bs in
  if value <=? least then None else Some (value, cursor).

(* [crates/rpc/src/protocol/value.rs:312-357] CanonicalDecoder::read_len *)
Definition cbor_read_len (expected_major : N) (cursor : bytes) : option (N * bytes) :=
  '(first, cursor) ← cbor_read_u8 cursor;
  if negb (N.shiftr first 5 =? expected_major) then None else
  let additional := N.land first 0x1f in
  if additional <=? 23 then Some (additional, cursor)
  else if additional =? 24 then cbor_read_wide 1 23 cursor
  else if additional =? 25 then cbor_read_wide 2 0xff cursor
  else if additional =? 26 then cbor_read_wide 4 0xffff cursor
  else if additional =? 27 then cbor_read_wide 8 0xffffffff cursor
  else None.

(* [crates/rpc/src/protocol/value.rs:222-231] CanonicalDecoder::finish *)
Definition cbor_finish (cursor : bytes) : option unit :=
  match cursor with [] => Some tt | _ => None end.

(* [crates/rpc/src/protocol/value.rs:233-242] CanonicalDecoder::array_exact *)
Definition cbor_array_exact (expected : N) (cursor : bytes) : option bytes :=
  '(actual, cursor) ← cbor_read_len 4 cursor;
  if actual =? expected then Some cursor else None.

(* [crates/rpc/src/protocol/value.rs:255-269] CanonicalDecoder::array_len *)
Definition cbor_array_len (cursor : bytes) : option (N * bytes) :=
  '(len, cursor) ← cbor_read_len 4 cursor;
  if lenN cursor <? len then None else Some (len, cursor).

(* [crates/rpc/src/protocol/value.rs:278-282] CanonicalDecoder::bytes *)
Definition cbor_read_bytes (cursor : bytes) : option (bytes * bytes) :=
  '(len, cursor) ← cbor_read_len 2 cursor; cbor_read_exact len cursor.

(* [crates/rpc/src/protocol/value.rs:271-276] CanonicalDecoder::bytes_32 *)
Definition cbor_bytes_32 (cursor : bytes) : option (bytes * bytes) :=
  '(bs, cursor) ← cbor_read_bytes cursor;
  if (length bs =? 32)%nat then Some (bs, cursor) else None.

(* [crates/rpc/src/protocol/value.rs:295-301] CanonicalDecoder::str *)
Definition cbor_read_str (cursor : bytes) : option (bytes * bytes) :=
  '(len, cursor) ← cbor_read_len 3 cursor;
  '(bs, cursor) ← cbor_read_exact len cursor;
  if utf8 bs then Some (bs, cursor) else None.

(* [crates/rpc/src/protocol/value.rs:284-293] CanonicalDecoder::expect_str *)
Definition cbor_expect_str (expected : bytes) (cursor : bytes) : option bytes :=
  '(actual, cursor) ← cbor_read_str cursor;
  if bool_decide (actual = expected) then Some cursor else None.

(* [crates/rpc/src/protocol/value.rs:303-306] CanonicalDecoder::u32 *)
Definition cbor_read_u32 (cursor : bytes) : option (N * bytes) :=
  '(value, cursor) ← cbor_read_len 0 cursor;
  if value <=? 0xffffffff then Some (value, cursor) else None.

(** ** The program manifest *)

Definition PROGRAM_MANIFEST_DOMAIN : bytes := domain "hellas.program.manifest.v4".
Definition MAX_PROGRAM_MANIFEST_BYTES : N := 4 * 1024.
Definition MAX_APPLICATION_ID_BYTES : N := 1024.

(* [crates/rpc/src/protocol/manifest.rs:16-19] Application *)
Record Application := mk_Application {
  application_evaluator : bytes;
  application_adaptor : bytes;
}.

(* [crates/rpc/src/protocol/manifest.rs:65-88] ApplicationError *)
Inductive ApplicationError :=
  | EmptyEvaluator
  | EmptyAdaptor
  | EvaluatorTooLong (bytes limit : N)
  | AdaptorTooLong (bytes limit : N).

(* [crates/rpc/src/protocol/manifest.rs:23-51] Application::new *)
Definition Application_new (evaluator adaptor : bytes) : result Application ApplicationError :=
  if lenN evaluator =? 0 then Err EmptyEvaluator else
  if MAX_APPLICATION_ID_BYTES <? lenN evaluator
  then Err (EvaluatorTooLong (lenN evaluator) MAX_APPLICATION_ID_BYTES) else
  if lenN adaptor =? 0 then Err EmptyAdaptor else
  if MAX_APPLICATION_ID_BYTES <? lenN adaptor
  then Err (AdaptorTooLong (lenN adaptor) MAX_APPLICATION_ID_BYTES) else
  Ok (mk_Application evaluator adaptor).

(* [crates/rpc/src/protocol/manifest.rs:98-101] ProgramManifest *)
Record Manifest := mk_Manifest {
  manifest_application : Application;
  manifest_root_id : Digest;
}.

(* [crates/rpc/src/protocol/manifest.rs:126-135] ProgramManifest::canonical_bytes *)
Definition Manifest_canonical_bytes (self : Manifest) : bytes :=
  cbor_array 3 ++ cbor_str PROGRAM_MANIFEST_DOMAIN ++ cbor_array 2 ++
  cbor_str (application_evaluator (manifest_application self)) ++
  cbor_str (application_adaptor (manifest_application self)) ++
  cbor_bytes (Digest_bytes (manifest_root_id self)).

(* [crates/rpc/src/protocol/manifest.rs:141-167] ProgramManifest::from_canonical_bytes *)
Definition Manifest_from_canonical_bytes (bs : bytes) : option Manifest :=
  if MAX_PROGRAM_MANIFEST_BYTES <? lenN bs then None else
  cursor ← cbor_array_exact 3 bs;
  cursor ← cbor_expect_str PROGRAM_MANIFEST_DOMAIN cursor;
  cursor ← cbor_array_exact 2 cursor;
  '(evaluator, cursor) ← cbor_read_str cursor;
  '(adaptor, cursor) ← cbor_read_str cursor;
  '(root, cursor) ← cbor_bytes_32 cursor;
  _ ← cbor_finish cursor;
  match Application_new evaluator adaptor with
  | Err _ => None
  | Ok application =>
      let manifest := mk_Manifest application (Digest_from_bytes root) in
      if bool_decide (Manifest_canonical_bytes manifest = bs) then Some manifest else None
  end.

(** ** One spelling per value *)

Lemma cbor_initial major k :
  major < 8 -> k < 32 ->
  exists b, byte_of_N (N.lor (N.shiftl major 5) k) = b /\
    N.shiftr (Byte.to_N b) 5 = major /\ N.land (Byte.to_N b) 0x1f = k.
Proof.
  intros Hm Hk. eexists. split; [done|]. rewrite byte_to_of_N.
  assert (N.lor (N.shiftl major 5) k = major * 32 + k) as ->.
  { rewrite N.shiftl_mul_pow2. change (2 ^ 5) with 32. symmetry. rewrite N.add_comm.
    rewrite <- N.lxor_lor, N.add_nocarry_lxor; [apply N.lxor_comm|..];
      apply N.bits_inj; intros i; rewrite N.land_spec, N.bits_0;
      change 32 with (2 ^ 5); rewrite <- N.shiftl_mul_pow2;
      (destruct (N.lt_ge_cases i 5); [rewrite N.shiftl_spec_low by done; by rewrite ?andb_false_r|]);
      (assert (N.testbit k i = false) as -> by
        (destruct (N.eq_dec k 0) as [->|]; [apply N.bits_0|]; apply N.bits_above_log2;
         apply N.lt_le_trans with 5; [apply N.log2_lt_pow2; [lia|by change (2 ^ 5) with 32]|done]));
      by rewrite ?andb_false_r. }
  rewrite N.mod_small by lia. change 0x1f with (N.ones 5).
  rewrite N.shiftr_div_pow2, N.land_ones. change (2 ^ 5) with 32.
  rewrite N.add_comm, N.div_add, N.Div0.mod_add by done. by rewrite N.div_small, N.mod_small.
Qed.

Lemma cbor_initial_inv b :
  b = byte_of_N (N.lor (N.shiftl (N.shiftr (Byte.to_N b) 5) 5) (N.land (Byte.to_N b) 0x1f)).
Proof. destruct b; vm_compute; done. Qed.

Lemma cbor_major_bound b : N.shiftr (Byte.to_N b) 5 < 8 /\ N.land (Byte.to_N b) 0x1f < 32.
Proof. destruct b; vm_compute; done. Qed.

Lemma cbor_read_exact_app (bs rest : bytes) : cbor_read_exact (lenN bs) (bs ++ rest) = Some (bs, rest).
Proof.
  unfold cbor_read_exact. rewrite length_app.
  destruct (N.ltb_spec (N.of_nat (length bs + length rest)) (N.of_nat (length bs))); [lia|].
  by rewrite Nat2N.id, take_app_length, drop_app_length.
Qed.

Lemma cbor_read_exact_Some len cursor bs rest :
  cbor_read_exact len cursor = Some (bs, rest) -> cursor = bs ++ rest /\ len = lenN bs.
Proof.
  unfold cbor_read_exact. destruct (N.ltb_spec (N.of_nat (length cursor)) len); [done|].
  intros [= <- <-]. rewrite take_drop, length_take. split; [done|lia].
Qed.

(** A wide integer reads back exactly when it needs its width. *)
Lemma cbor_read_wide_iff n least cursor v rest :
  cbor_read_wide n least cursor = Some (v, rest) <->
  least < v < 256 ^ N.of_nat n /\ cursor = to_be_bytes n v ++ rest.
Proof.
  unfold cbor_read_wide. split.
  - destruct (cbor_read_exact _ cursor) as [[bs cursor']|] eqn:E; [|done].
    apply cbor_read_exact_Some in E as [-> Hl]. cbn. destruct (N.leb_spec (from_be_bytes bs) least); [done|].
    intros [= <- <-]. pose proof (from_be_bytes_bound bs).
    assert (n = length bs) as -> by lia. by rewrite to_from_be_bytes.
  - intros [[Hlo Hhi] ->].
    assert (N.of_nat n = lenN (to_be_bytes n v)) as Hn by (by rewrite to_be_bytes_length).
    rewrite Hn at 1. rewrite cbor_read_exact_app. cbn.
    rewrite from_to_be_bytes by done. by destruct (N.leb_spec v least); [lia|].
Qed.

(** The one reading of a header: each length has exactly one encoding. *)
Lemma cbor_read_len_iff major cursor v rest :
  major < 8 ->
  cbor_read_len major cursor = Some (v, rest) <->
  u64_ok v = true /\ cursor = cbor_header major v ++ rest.
Proof.
  intros Hm. unfold u64_ok, U64_MAX. split.
  - unfold cbor_read_len. destruct cursor as [|b cursor]; [done|]. cbn [cbor_read_u8 mbind option_bind].
    destruct (N.eqb_spec (N.shiftr (Byte.to_N b) 5) major) as [Hmaj|]; [|done]. cbn [negb].
    pose proof (cbor_initial_inv b) as Hb. rewrite Hmaj in Hb.
    pose proof (cbor_major_bound b) as [_ Hk]. revert Hb Hk.
    generalize (N.land (Byte.to_N b) 0x1f). intros k Hb Hk Hr.
    unfold cbor_header. rewrite N.leb_le.
    destruct (N.leb_spec k 23); [simplify_eq; destruct (N.leb_spec v 23); [|lia]; split; [lia|done]|].
    repeat (match type of Hr with context [k =? ?n] => destruct (N.eqb_spec k n) as [->|] end; [|]);
      try done; apply cbor_read_wide_iff in Hr as [[? Hw] ->];
      match type of Hw with _ < 256 ^ ?e => let x := eval vm_compute in (256 ^ e) in change (256 ^ e) with x in Hw end;
      repeat match goal with |- context [v <=? ?n] => destruct (N.leb_spec v n); [try lia|try lia] end;
      (split; [lia|]); cbn [app]; f_equal; by rewrite Hb.
  - intros [Hv ->]. apply N.leb_le in Hv. unfold cbor_read_len, cbor_header.
    repeat match goal with |- context [v <=? ?n] => destruct (N.leb_spec v n) end;
      cbn [app cbor_read_u8 mbind option_bind];
      match goal with |- context [byte_of_N (N.lor _ ?k)] =>
        destruct (cbor_initial major k) as (b & -> & Hmaj & Hk); [done|lia|] end;
      cbn [cbor_read_u8 mbind option_bind]; rewrite Hmaj, N.eqb_refl, Hk; cbn [negb].
    + by destruct (N.leb_spec v 23); [|lia].
    + apply cbor_read_wide_iff. split; [change (256 ^ N.of_nat 1) with 256; lia|done].
    + apply cbor_read_wide_iff. split; [change (256 ^ N.of_nat 2) with 65536; lia|done].
    + apply cbor_read_wide_iff. split; [change (256 ^ N.of_nat 4) with 4294967296; lia|done].
    + apply cbor_read_wide_iff. split; [change (256 ^ N.of_nat 8) with 18446744073709551616; lia|done].
Qed.

Lemma cbor_header_length major v : lenN (cbor_header major v) <= 9.
Proof. unfold cbor_header. repeat case_match; cbn [length]; rewrite ?to_be_bytes_length; done. Qed.

Lemma cbor_read_bytes_iff cursor bs rest :
  cbor_read_bytes cursor = Some (bs, rest) <->
  u64_ok (lenN bs) = true /\ cursor = cbor_bytes bs ++ rest.
Proof.
  unfold cbor_read_bytes, cbor_bytes. split.
  - destruct (cbor_read_len 2 cursor) as [[len c]|] eqn:E; [|done]. cbn.
    apply cbor_read_len_iff in E as [Hl ->]; [|done].
    intros [-> ->]%cbor_read_exact_Some. by rewrite <- app_assoc.
  - intros [Hl ->]. rewrite <- app_assoc.
    rewrite (proj2 (cbor_read_len_iff 2 _ (lenN bs) (bs ++ rest) eq_refl)) by done.
    apply cbor_read_exact_app.
Qed.

Lemma cbor_read_str_iff cursor bs rest :
  cbor_read_str cursor = Some (bs, rest) <->
  utf8 bs = true /\ u64_ok (lenN bs) = true /\ cursor = cbor_str bs ++ rest.
Proof.
  unfold cbor_read_str, cbor_str. split.
  - destruct (cbor_read_len 3 cursor) as [[len c]|] eqn:E; [|done]. cbn.
    apply cbor_read_len_iff in E as [Hl ->]; [|done].
    destruct (cbor_read_exact len c) as [[bs' c']|] eqn:E; [|done]. cbn.
    apply cbor_read_exact_Some in E as [-> ->]. destruct (utf8 bs') eqn:Hu; [|done].
    intros [= -> ->]. by rewrite <- app_assoc.
  - intros (Hu & Hl & ->). rewrite <- app_assoc.
    rewrite (proj2 (cbor_read_len_iff 3 _ (lenN bs) (bs ++ rest) eq_refl)) by done.
    cbn. rewrite cbor_read_exact_app. cbn. by rewrite Hu.
Qed.

Lemma cbor_array_exact_iff n cursor rest :
  u64_ok n = true -> cbor_array_exact n cursor = Some rest <-> cursor = cbor_array n ++ rest.
Proof.
  intros Hn. unfold cbor_array_exact, cbor_array. split.
  - destruct (cbor_read_len 4 cursor) as [[v c]|] eqn:E; [|done]. cbn.
    apply cbor_read_len_iff in E as [_ ->]; [|done]. by destruct (N.eqb_spec v n) as [->|]; [intros [= ->]|].
  - intros ->. rewrite (proj2 (cbor_read_len_iff 4 _ n rest eq_refl)) by done. cbn. by rewrite N.eqb_refl.
Qed.

Lemma cbor_expect_str_iff bs cursor rest :
  utf8 bs = true -> u64_ok (lenN bs) = true ->
  cbor_expect_str bs cursor = Some rest <-> cursor = cbor_str bs ++ rest.
Proof.
  intros Hu Hl. unfold cbor_expect_str. split.
  - destruct (cbor_read_str cursor) as [[v c]|] eqn:E; [|done]. cbn.
    apply cbor_read_str_iff in E as (_ & _ & ->). by case_bool_decide as Hv; [subst; intros [= ->]|].
  - intros ->. rewrite (proj2 (cbor_read_str_iff _ bs rest)) by done. cbn. by rewrite bool_decide_eq_true_2.
Qed.

Lemma cbor_bytes_32_Some cursor bs rest :
  cbor_bytes_32 cursor = Some (bs, rest) -> length bs = 32%nat /\ cursor = cbor_bytes bs ++ rest.
Proof.
  unfold cbor_bytes_32. intros ([b c] & E & Hr)%bind_Some. destruct (Nat.eqb_spec (length b) 32); [|done].
  injection Hr as -> ->. apply cbor_read_bytes_iff in E as [_ ->]. done.
Qed.

Lemma cbor_bytes_32_app bs rest :
  length bs = 32%nat -> cbor_bytes_32 (cbor_bytes bs ++ rest) = Some (bs, rest).
Proof.
  intros Hl. unfold cbor_bytes_32. rewrite (proj2 (cbor_read_bytes_iff _ bs rest)) by (split; [by rewrite Hl|done]).
  cbn. by rewrite Hl.
Qed.

Lemma Digest_wf_of_length bs : length bs = 32%nat -> Digest_wf (Digest_from_bytes bs) = true.
Proof. with_strategy transparent [Digest_wf] (unfold Digest_wf). cbn. by intros ->. Qed.

Definition Manifest_wf (m : Manifest) : bool :=
  let application := manifest_application m in
  utf8 (application_evaluator application) && utf8 (application_adaptor application) &&
  bool_decide (0 < lenN (application_evaluator application) <= MAX_APPLICATION_ID_BYTES) &&
  bool_decide (0 < lenN (application_adaptor application) <= MAX_APPLICATION_ID_BYTES) &&
  Digest_wf (manifest_root_id m).

Lemma Application_new_Ok evaluator adaptor application :
  Application_new evaluator adaptor = Ok application <->
  application = mk_Application evaluator adaptor /\
  0 < lenN evaluator <= MAX_APPLICATION_ID_BYTES /\ 0 < lenN adaptor <= MAX_APPLICATION_ID_BYTES.
Proof.
  unfold Application_new. split.
  - intros Hr. inv_ok. bool_simpl. subst. split_and!; [done|lia..].
  - intros (-> & ? & ?).
    repeat match goal with |- context [?a =? ?b] => destruct (N.eqb_spec a b); [lia|]
           | |- context [?a <? ?b] => destruct (N.ltb_spec a b); [lia|] end. done.
Qed.

Lemma Manifest_length m : Manifest_wf m = true -> lenN (Manifest_canonical_bytes m) <= MAX_PROGRAM_MANIFEST_BYTES.
Proof.
  unfold Manifest_wf, Manifest_canonical_bytes, cbor_str, cbor_bytes, cbor_array, MAX_APPLICATION_ID_BYTES,
    MAX_PROGRAM_MANIFEST_BYTES. intros Hm. bool_simpl.
  rewrite !length_app, !Nat2N.inj_add, (Digest_wf_length _ H0).
  pose proof (cbor_header_length 4 3). pose proof (cbor_header_length 4 2).
  pose proof (cbor_header_length 3 (lenN PROGRAM_MANIFEST_DOMAIN)).
  pose proof (cbor_header_length 3 (lenN (application_evaluator (manifest_application m)))).
  pose proof (cbor_header_length 3 (lenN (application_adaptor (manifest_application m)))).
  pose proof (cbor_header_length 2 (N.of_nat 32)).
  assert (lenN PROGRAM_MANIFEST_DOMAIN = 26) by reflexivity. lia.
Qed.

(** A program manifest has exactly one encoding: the strict reader accepts
    precisely the bytes [canonical_bytes] writes for a manifest whose identifiers
    are UTF-8 of one to 1024 bytes, and returns that manifest; every other
    integer width, length, trailing byte or oversized body is refused, so the
    content identifier of the bytes identifies the manifest. *)
Theorem manifest_codec_exact bs m :
  Manifest_from_canonical_bytes bs = Some m <->
  Manifest_wf m = true /\ bs = Manifest_canonical_bytes m.
Proof.
  unfold Manifest_from_canonical_bytes. split.
  - destruct (N.ltb_spec MAX_PROGRAM_MANIFEST_BYTES (lenN bs)); [done|]. intros Hr.
    apply bind_Some in Hr as (c1 & E1 & Hr). apply bind_Some in Hr as (c2 & E2 & Hr).
    apply bind_Some in Hr as (c3 & E3 & Hr). apply bind_Some in Hr as ([ev c4] & E4 & Hr).
    apply bind_Some in Hr as ([ad c5] & E5 & Hr). apply bind_Some in Hr as ([root c6] & E6 & Hr).
    apply bind_Some in Hr as (u & E7 & Hr).
    destruct (Application_new ev ad) as [application|] eqn:E8; [|done].
    apply Application_new_Ok in E8 as (-> & Hev & Had). case_bool_decide as Hbs; [|done].
    injection Hr as <-. split; [|done].
    apply cbor_read_str_iff in E4 as (He & _ & _), E5 as (Ha & _ & _).
    apply cbor_bytes_32_Some in E6 as [H32 _]. unfold Manifest_wf. cbn.
    rewrite He, Ha, !bool_decide_eq_true_2 by done. by rewrite Digest_wf_of_length.
  - intros [Hm ->]. pose proof (Manifest_length m Hm) as Hlen.
    destruct (N.ltb_spec MAX_PROGRAM_MANIFEST_BYTES (lenN (Manifest_canonical_bytes m))); [lia|].
    destruct m as [[ev ad] root]. unfold Manifest_wf in Hm. cbn [manifest_application application_evaluator
      application_adaptor manifest_root_id] in Hm. bool_simpl. apply Digest_wf_length in H1 as Hroot.
    assert (forall bs : bytes, 0 < lenN bs <= MAX_APPLICATION_ID_BYTES -> u64_ok (lenN bs) = true) as Hu.
    { unfold MAX_APPLICATION_ID_BYTES, u64_ok, U64_MAX. intros bs ?. apply N.leb_le. lia. }
    remember (Manifest_canonical_bytes (mk_Manifest (mk_Application ev ad) root)) as bs eqn:Hbs.
    assert (bs = cbor_array 3 ++ cbor_str PROGRAM_MANIFEST_DOMAIN ++ cbor_array 2 ++ cbor_str ev ++
      cbor_str ad ++ cbor_bytes (Digest_bytes root) ++ []) as Hb by (by rewrite app_nil_r).
    rewrite (proj2 (cbor_array_exact_iff 3 _ _ eq_refl) Hb). cbn [mbind option_bind].
    rewrite (proj2 (cbor_expect_str_iff PROGRAM_MANIFEST_DOMAIN _ _ eq_refl eq_refl) eq_refl). cbn [mbind option_bind].
    rewrite (proj2 (cbor_array_exact_iff 2 _ _ eq_refl) eq_refl). cbn [mbind option_bind].
    rewrite (proj2 (cbor_read_str_iff _ ev _)) by eauto. cbn [mbind option_bind].
    rewrite (proj2 (cbor_read_str_iff _ ad _)) by eauto. cbn [mbind option_bind].
    rewrite cbor_bytes_32_app by done. cbn [mbind option_bind cbor_finish].
    rewrite (proj2 (Application_new_Ok ev ad _)) by eauto. destruct root as [root]. cbn [Digest_bytes].
    by rewrite bool_decide_eq_true_2.
Qed.
