(* ===== verification/Stream.v ===== *)
(** * Streaming a result (crates/channel/src/work/stream.rs)

    How a result's transcript is cut into frames: prefix frames that carry the
    events before the terminal, as many to a frame as its limit allows, then one
    terminal frame.  Also the live progress a running job may publish.  The
    protobuf lengths of a frame (prost) are parameters. *)

From S2P Require Import Prelude Xet XetChunk Canonical Primitive Errors Context Auth Objects Registry.
From S2P Require Import View Store Terms Work PaidWork JobBook JobInput Cbor.

#[local] Open Scope N_scope.

Record WorkStreamTerminal := mk_WorkStreamTerminal {
  terminal_result_bytes : bytes;
  terminal_provider_signature : bytes;
  terminal_transcript : bytes;
}.

Inductive WorkStreamEvent :=
  | Stream_Prefix (transcript : bytes)
  | Stream_Refused (code : Z)
  | Stream_Terminal (terminal : WorkStreamTerminal).

(** The lengths prost reports. *)
Class Protobuf := {
  encoded_len_varint : N -> N;
  stream_encoded_len : WorkStreamEvent -> N;
}.

(** A delivery as it travels. *)
Record ResultTranscript := mk_ResultTranscript {
  transcript_result : bytes;
  transcript_provider_signature : bytes;
  transcript_bytes : bytes;
}.

Section stream.
  Context `{Invocations} `{Protobuf}.

(* [crates/channel/src/work/stream.rs:28-31] TranscriptSize *)
Record TranscriptSize := mk_TranscriptSize {
  size_events : N;
  size_members : N;
}.

Definition TranscriptSize_default : TranscriptSize := mk_TranscriptSize 0 0.

(* [crates/channel/src/work/stream.rs:34-44] TranscriptSize::appended *)
Definition size_appended (self : TranscriptSize) (event : OutputEventEnvelope)
    : result TranscriptSize PaidWorkError :=
  let? bs := event_dag_cbor event in
  let? events := ok_or (checked_add (size_events self) 1) (Overflow "transcript length") in
  let? members := ok_or (checked_add (size_members self) (lenN bs)) (Overflow "transcript length") in
  Ok (mk_TranscriptSize events members).

(* [crates/channel/src/work/stream.rs:46-54] TranscriptSize::encoded_len *)
Definition size_encoded_len (self : TranscriptSize) : result N PaidWorkError :=
  ok_or (checked_add (size_members self) (lenN (cbor_array (size_events self))))
    (Overflow "transcript length").

(** How many events the next frame takes: the [for] loop, stopping at the first
    event that cannot be encoded or does not fit. *)
(* [crates/channel/src/work/stream.rs:92-110] prefix_batches *)
Fixpoint batch_count (frame_limit : N) (size : TranscriptSize) (events : list OutputEventEnvelope)
    : nat :=
  match events with
  | [] => O
  | event :: events =>
      match size_appended size event with
      | Err _ => O
      | Ok next =>
          match size_encoded_len next with
          | Err _ => O
          | Ok bs =>
              let frame_bytes := 1 + encoded_len_varint bs + bs in
              if N.min frame_limit (64 * 1024) <? frame_bytes then O
              else S (batch_count frame_limit next events)
          end
      end
  end.

(** Each frame takes at least one event, so [length events] rounds are enough. *)
(* [crates/channel/src/work/stream.rs:88-117] prefix_batches *)
Fixpoint batches_from (fuel : nat) (frame_limit : N) (events : list OutputEventEnvelope)
    : list (list OutputEventEnvelope) :=
  match fuel, events with
  | S fuel, _ :: _ =>
      let count := Nat.max (batch_count frame_limit TranscriptSize_default events) 1 in
      take count events :: batches_from fuel frame_limit (drop count events)
  | _, _ => []
  end.

(* [crates/channel/src/work/stream.rs:84-118] prefix_batches *)
Definition prefix_batches (events : list OutputEventEnvelope) (frame_limit : N)
    : list (list OutputEventEnvelope) :=
  batches_from (length events) frame_limit events.

(* [crates/channel/src/work/stream.rs:58-83] result_frames *)
Definition result_frames (delivered : ResultTranscript) (events : list OutputEventEnvelope)
    (frame_limit : N) : list (result WorkStreamEvent PaidWorkError) :=
  let prefixes := take (length events - 1) events in
  map (fun batch => let? bs := encode_transcript batch in Ok (Stream_Prefix bs))
    (prefix_batches prefixes frame_limit) ++
  match last events with
  | None => []
  | Some event =>
      [let? bs := encode_transcript [event] in
       Ok (Stream_Terminal (mk_WorkStreamTerminal (transcript_result delivered)
             (transcript_provider_signature delivered) bs))]
  end.

(** ** Every event, once and in order *)

Lemma batches_concat fuel limit events :
  (length events <= fuel)%nat -> concat (batches_from fuel limit events) = events.
Proof.
  revert events. induction fuel as [|fuel IH]; intros [|e events] Hl; try done; [simpl in Hl; lia|].
  cbn [batches_from concat]. rewrite IH; [apply take_drop|]. rewrite length_drop. simpl in Hl |- *. lia.
Qed.

Lemma batches_nonempty fuel limit events batch :
  batch ∈ batches_from fuel limit events -> batch <> [].
Proof.
  revert events. induction fuel as [|fuel IH]; intros [|e events]; cbn [batches_from];
    try (by intros ?%not_elem_of_nil).
  intros [->|Hin]%elem_of_cons; [|by eapply IH].
  by destruct (Nat.max _ 1) as [|n] eqn:E; [lia|].
Qed.

(** The bytes a prefix frame of these events takes, when they can be counted. *)
Fixpoint batch_size (size : TranscriptSize) (events : list OutputEventEnvelope)
    : result TranscriptSize PaidWorkError :=
  match events with
  | [] => Ok size
  | event :: events => let? size := size_appended size event in batch_size size events
  end.
Definition frame_fits (limit : N) (events : list OutputEventEnvelope) : Prop :=
  exists size bs, batch_size TranscriptSize_default events = Ok size /\
    size_encoded_len size = Ok bs /\ 1 + encoded_len_varint bs + bs <= N.min limit (64 * 1024).

Lemma batch_count_fits limit size events n :
  batch_count limit size events = S n ->
  exists size' bs, batch_size size (take (S n) events) = Ok size' /\
    size_encoded_len size' = Ok bs /\ 1 + encoded_len_varint bs + bs <= N.min limit (64 * 1024).
Proof.
  revert size n. induction events as [|e events IH]; intros size n; [done|]. cbn [batch_count].
  destruct (size_appended size e) as [next|] eqn:E1; [|done].
  destruct (size_encoded_len next) as [bs|] eqn:E2; [|done].
  destruct (N.ltb_spec (N.min limit (64 * 1024)) (1 + encoded_len_varint bs + bs)); [done|].
  intros [= Hn]. cbn [take batch_size]. rewrite E1. cbn [rbind]. destruct n as [|n].
  - exists next, bs. by rewrite take_0.
  - by apply IH.
Qed.

Lemma batches_fit fuel limit events batch :
  batch ∈ batches_from fuel limit events -> length batch = 1%nat \/ frame_fits limit batch.
Proof.
  revert events. induction fuel as [|fuel IH]; intros [|e events]; cbn [batches_from];
    try (by intros ?%not_elem_of_nil).
  intros [->|Hin]%elem_of_cons; [|by eapply IH].
  destruct (batch_count limit TranscriptSize_default (e :: events)) as [|n] eqn:E; [by left|right].
  apply batch_count_fits in E. rewrite Nat.max_l by lia. exact E.
Qed.

(** A result streams whole: the prefix frames hold every event before the last
    exactly once and in order, none of them is empty, and each is within the
    frame limit unless it is a single event that does not fit by itself; one
    terminal frame carries the last event with the signed result.  So what the
    receiver assembles is the transcript the provider signed. *)
Theorem result_frames_exact delivered events limit terminal :
  last events = Some terminal ->
  let batches := prefix_batches (take (length events - 1) events) limit in
  concat batches ++ [terminal] = events /\
  (forall batch, batch ∈ batches -> batch <> [] /\ (length batch = 1%nat \/ frame_fits limit batch)) /\
  result_frames delivered events limit =
    map (fun batch => let? bs := encode_transcript batch in Ok (Stream_Prefix bs)) batches ++
    [let? bs := encode_transcript [terminal] in
     Ok (Stream_Terminal (mk_WorkStreamTerminal (transcript_result delivered)
           (transcript_provider_signature delivered) bs))].
Proof.
  intros Hlast. cbv zeta. split_and!.
  - unfold prefix_batches. rewrite batches_concat by done. apply last_Some in Hlast as [l ->].
    rewrite length_app. cbn [length]. by rewrite Nat.add_sub, take_app_length.
  - intros batch Hin. split; [by eapply batches_nonempty|by eapply batches_fit].
  - unfold result_frames. by rewrite Hlast.
Qed.

(** ** Live progress *)

Inductive ProgressFault := Progress_Record (e : PaidWorkError) | SpoolBound.

(* [crates/channel/src/work/stream.rs:19-22] Progress *)
Record Progress := mk_Progress {
  progress_events : list OutputEventEnvelope;
  progress_size : TranscriptSize;
}.

Definition Progress_default : Progress := mk_Progress [] TranscriptSize_default.

(** One event of the job's own entry; the terminal travels with the result. *)
(* [crates/channel/src/work/stream.rs:241-272] WorkService::publish_progress *)
Definition publish_progress (facts : AdmissionFacts) (event : OutputEventEnvelope)
    (progress : Progress) : result Progress ProgressFault :=
  if event_terminal event then Ok progress else
  let? size := map_err Progress_Record (size_appended (progress_size progress) event) in
  let? len := map_err Progress_Record (size_encoded_len size) in
  if (max_spool_bytes facts <? len) || (max_output_events facts <=? size_events size)
  then Err SpoolBound
  else Ok (mk_Progress (progress_events progress ++ [event]) size).
End stream.
