(* ===== verification/Setup.v ===== *)
(** * Channel setup and readiness (crates/channel/src/model/setup.rs)

    What an operator configures for a paid channel, the static gates that open it
    as a descriptor, the decision that the configured channel is the one on
    chain, the deadline margins every signature is checked against, and the
    journal encoding of what recovery needs. *)

From S2P Require Import Prelude Xet XetChunk Canonical Primitive Errors Context Auth Objects Registry.
From S2P Require Import Cbor View Store Terms Work Lease PaidWork JobBook JobInput ChannelState ChannelCodec.

#[local] Open Scope N_scope.

(* [crates/channel/src/model/setup.rs:172-179] LeaseState *)
Inductive LeaseState := LeaseState_Absent | LeaseState_AnotherChannel | LeaseState_Faulty.

(* [crates/channel/src/model/setup.rs:193-198] PendingState *)
Inductive PendingState := PendingState_Live | PendingState_Faulty.

(* [crates/channel/src/model/setup.rs:26-164] WorkSetupError *)
Inductive WorkSetupError :=
  | Setup_Record (e : PaidWorkError)
  | NotLive (object : string)
  | TermsMismatch (object : string)
  | PartiesMismatch (object : string)
  | Setup_Lease (found : LeaseState)
  | Setup_PendingClose (found : PendingState)
  | Unsettleable
  | Undercollateralised (bond capacity : N)
  | HorizonPassed (height horizon : N)
  | CursorBehind (cursor height : N)
  | TerminalUnreachable (height dispatch delivery terminal : N)
  | DeliveryUnreachable (height delivery terminal : N)
  | OracleGraceTooShort (terminal payment actual grace : N)
  | DescriptorMalformed
  | StartSpanNotFixed (span fixed : N)
  | ResponseWindowBelowMinimum (window minimum : N).

Definition setup_record {A} (r : result A PaidWorkError) : result A WorkSetupError :=
  map_err Setup_Record r.

(** ** Network names *)

(* [canonical.rs:686-690] Cursor::network *)
Definition Cursor_network (cursor : bytes) : option (NetworkId * bytes) :=
  '(len, cursor) ← Cursor_byte cursor;
  '(name, cursor) ← Cursor_take (N.to_nat (Byte.to_N len)) cursor;
  if utf8 name then network ← NetworkId_new name; Some (network, cursor) else None.

(* [canonical.rs:679-683] Cursor::field *)
Definition Cursor_field {A} (cd : Codec A) (cursor : bytes) : option (A * bytes) :=
  match decode cd cursor with
  | Ok (value, consumed) =>
      if (length cursor <? consumed)%nat then None else Some (value, drop consumed cursor)
  | Err _ => None
  end.

(** [take] at a length read from the bytes. *)
Definition Cursor_takeN (len : N) (cursor : bytes) : option (bytes * bytes) :=
  if lenN cursor <? len then None else Some (takeN len cursor, dropN len cursor).

(** ** Configuration *)

(* [crates/channel/src/model/setup.rs:1079-1090] check_collateral *)
Definition check_collateral (omission_bond payment_capacity : N) : result unit WorkSetupError :=
  if payment_capacity <? omission_bond then Ok tt
  else Err (Undercollateralised omission_bond payment_capacity).

Section setup.
  Context `{Blake3} `{Invocations}.

(* [crates/channel/src/model/setup.rs:217-235] WorkChannelConfig *)
Record WorkChannelConfig := mk_WorkChannelConfig {
  config_network : NetworkId;
  config_payment_edge : EdgeId;
  config_payment_terms : WorkPaymentTerms;
  config_policy_salt : bytes;
  config_channel_policy : PaidChannelPolicyV1;
  config_invocation_policy : InvocationPolicy;
  config_payment_policy : JobPaymentPolicyV2;
  config_expected_values : EdgeValues;
}.

(* [crates/channel/src/model/setup.rs:250-278] ProviderChannelPolicy *)
Record ProviderChannelPolicy := mk_ProviderChannelPolicy {
  policy_network : NetworkId;
  policy_salt : bytes;
  policy_channel_policy : PaidChannelPolicyV1;
  policy_invocation_policy : InvocationPolicy;
  policy_payment_policy : JobPaymentPolicyV2;
  policy_expected_values : EdgeValues;
  min_omit_response_blocks : N;
}.

(* [crates/channel/src/model/setup.rs:632-640] CloseDescriptor *)
Record CloseDescriptor := mk_CloseDescriptor {
  close_channel : PaidChannel;
  close_bond_edge : EdgeId;
  close_policy_salt : bytes;
  close_invocation_policy : InvocationPolicy;
  close_payment_policy : JobPaymentPolicyV2;
  close_expected_values : EdgeValues;
}.

(* [crates/channel/src/model/setup.rs:390-399] WorkChannelDescriptor *)
Record WorkChannelDescriptor := mk_WorkChannelDescriptor {
  desc_channel : PaidChannel;
  desc_bond_edge : EdgeId;
  desc_bond_terms_hash : TermsHash;
  desc_policy_salt : bytes;
  desc_invocation_policy : InvocationPolicy;
  desc_payment_policy : JobPaymentPolicyV2;
  desc_expected_values : EdgeValues;
}.

(* [crates/channel/src/model/setup.rs:424-454] WorkChannelDescriptor::open *)
Definition WorkChannelDescriptor_open (config : WorkChannelConfig)
    : result WorkChannelDescriptor WorkSetupError :=
  let terms := config_payment_terms config in
  let? channel := setup_record (PaidChannel_new (config_network config) (config_payment_edge config)
                    terms (config_policy_salt config) (config_channel_policy config)) in
  let? _ := setup_record (policy_validate (config_invocation_policy config)) in
  let? _ := setup_record (JobPaymentPolicyV2_check (config_payment_policy config)) in
  let? settlement := ok_or (work_payment_settlement (config_expected_values config)
                              (wp_omission_bond terms)) Unsettleable in
  let? _ := check_collateral (wp_omission_bond terms) (settlement_capacity settlement) in
  Ok (mk_WorkChannelDescriptor channel (wp_bond_edge terms) (WorkPaymentTerms_bond_terms_hash terms)
        (config_policy_salt config) (config_invocation_policy config)
        (config_payment_policy config) (config_expected_values config)).

(* [crates/channel/src/model/setup.rs:290-323] ProviderChannelPolicy::describe_close *)
Definition describe_close (self : ProviderChannelPolicy) (payment_edge : EdgeId)
    (payment_terms : WorkPaymentTerms) : result CloseDescriptor WorkSetupError :=
  let? channel := setup_record (PaidChannel_new (policy_network self) payment_edge payment_terms
                    (policy_salt self) (policy_channel_policy self)) in
  let? _ := setup_record (policy_validate (policy_invocation_policy self)) in
  let? _ := setup_record (JobPaymentPolicyV2_check (policy_payment_policy self)) in
  match work_payment_settlement (policy_expected_values self) (wp_omission_bond payment_terms) with
  | None => Err Unsettleable
  | Some _ => Ok (mk_CloseDescriptor channel (wp_bond_edge payment_terms) (policy_salt self)
                    (policy_invocation_policy self) (policy_payment_policy self)
                    (policy_expected_values self))
  end.

(* [crates/channel/src/model/setup.rs:349-379] ProviderChannelPolicy::admit *)
Definition ProviderChannelPolicy_admit (self : ProviderChannelPolicy) (payment_edge : EdgeId)
    (payment_terms : WorkPaymentTerms) : result WorkChannelDescriptor WorkSetupError :=
  if negb (wp_start_validity_blocks payment_terms =? MAX_START_VALIDITY_BLOCKS)
  then Err (StartSpanNotFixed (wp_start_validity_blocks payment_terms) MAX_START_VALIDITY_BLOCKS)
  else if wp_omit_response_blocks payment_terms <? min_omit_response_blocks self
  then Err (ResponseWindowBelowMinimum (wp_omit_response_blocks payment_terms)
              (min_omit_response_blocks self))
  else WorkChannelDescriptor_open (mk_WorkChannelConfig (policy_network self) payment_edge
         payment_terms (policy_salt self) (policy_channel_policy self)
         (policy_invocation_policy self) (policy_payment_policy self)
         (policy_expected_values self)).

(* [crates/channel/src/model/setup.rs:484-493] WorkChannelDescriptor::close_descriptor *)
Definition close_descriptor (self : WorkChannelDescriptor) : CloseDescriptor :=
  mk_CloseDescriptor (desc_channel self) (desc_bond_edge self) (desc_policy_salt self)
    (desc_invocation_policy self) (desc_payment_policy self) (desc_expected_values self).

(** ** Readiness *)

(* [crates/channel/src/model/setup.rs:838-849] ObservedChannel *)
Record ObservedChannel := mk_ObservedChannel {
  observed_height : N;
  observed_bond : option Edge;
  observed_payment : option Edge;
  observed_lease : LeaseSlots;
  observed_pending : PendingSlot;
}.

(* [crates/channel/src/model/setup.rs:869-877] ReadyChannel *)
Record ReadyChannel := mk_ReadyChannel {
  ready_channel : PaidChannel;
  ready_invocation_policy : InvocationPolicy;
  ready_payment_policy : JobPaymentPolicyV2;
  ready_settlement : WorkPaymentSettlement;
  ready_finalized_height : N;
  ready_admission_horizon : N;
}.

(* [crates/channel/src/model/setup.rs:511-612] WorkChannelDescriptor::check_ready *)
Definition check_ready (self : WorkChannelDescriptor) (observed : ObservedChannel)
    : result ReadyChannel WorkSetupError :=
  let terms := channel_payment_terms (desc_channel self) in
  let? bond := ok_or (observed_bond observed) (NotLive "the bond edge") in
  let? payment := ok_or (observed_payment observed) (NotLive "the payment edge") in
  if negb (bool_decide (Edge_terms bond = desc_bond_terms_hash self))
  then Err (TermsMismatch "the bond edge") else
  if negb (bool_decide (Edge_terms payment = channel_payment_terms_hash (desc_channel self)))
  then Err (TermsMismatch "the payment edge") else
  if negb (bool_decide (Edge_parties bond = bond_parties (wp_bond_terms terms)))
  then Err (PartiesMismatch "the bond edge") else
  if negb (bool_decide (Edge_parties payment = WorkPaymentTerms_parties terms))
  then Err (PartiesMismatch "the payment edge") else
  let? _ := match observed_lease observed with
            | Lease_Present lease =>
                if bool_decide (lease_payment_edge lease
                                = channel_payment_edge (desc_channel self))
                then Ok tt else Err (Setup_Lease LeaseState_AnotherChannel)
            | Lease_Absent => Err (Setup_Lease LeaseState_Absent)
            | Lease_Faulty _ => Err (Setup_Lease LeaseState_Faulty)
            end in
  let? _ := match observed_pending observed with
            | Pending_Absent => Ok tt
            | Pending_Present _ => Err (Setup_PendingClose PendingState_Live)
            | Pending_Faulty _ => Err (Setup_PendingClose PendingState_Faulty)
            end in
  let? settlement := ok_or (work_payment_settlement (Edge_values payment) (wp_omission_bond terms))
                       Unsettleable in
  let? _ := check_collateral (wp_omission_bond terms) (settlement_capacity settlement) in
  let horizon := WorkPaymentTerms_admission_horizon terms in
  if horizon <=? observed_height observed
  then Err (HorizonPassed (observed_height observed) horizon) else
  Ok (mk_ReadyChannel (desc_channel self) (desc_invocation_policy self) (desc_payment_policy self)
        settlement (observed_height observed) horizon).

(* [crates/channel/src/model/setup.rs:1008-1016] ReadyChannel::check_caught_up *)
Definition check_caught_up (self : ReadyChannel) (cursor_height : N) : result unit WorkSetupError :=
  if cursor_height <? ready_finalized_height self
  then Err (CursorBehind cursor_height (ready_finalized_height self)) else Ok tt.

(* [crates/channel/src/model/setup.rs:949-994] ReadyChannel::check_signable *)
Definition check_signable (self : ReadyChannel) (cursor_height terminal_deadline payment_deadline : N)
    : result unit WorkSetupError :=
  let? _ := check_caught_up self cursor_height in
  if ready_admission_horizon self <=? cursor_height
  then Err (HorizonPassed cursor_height (ready_admission_horizon self)) else
  let policy := ready_payment_policy self in
  let dispatch := dispatch_margin_blocks policy in
  let delivery := delivery_margin_blocks policy in
  let? reachable := ok_or (sum ← checked_add cursor_height dispatch; checked_add sum delivery)
                      (Setup_Record (Overflow "dispatch and delivery margins")) in
  if terminal_deadline <? reachable
  then Err (TerminalUnreachable cursor_height dispatch delivery terminal_deadline) else
  let? grace := ok_or (checked_sub payment_deadline terminal_deadline)
                  (Setup_Record (Overflow "oracle grace interval")) in
  if grace <? oracle_grace_blocks policy
  then Err (OracleGraceTooShort terminal_deadline payment_deadline grace
              (oracle_grace_blocks policy)) else Ok tt.

(* [crates/channel/src/model/setup.rs:1039-1059] ReadyChannel::check_releasable *)
Definition check_releasable (self : ReadyChannel) (cursor_height terminal_deadline : N)
    : result unit WorkSetupError :=
  let? _ := check_caught_up self cursor_height in
  let delivery := delivery_margin_blocks (ready_payment_policy self) in
  let? arrives := ok_or (checked_add cursor_height delivery)
                    (Setup_Record (Overflow "delivery margin")) in
  if terminal_deadline <? arrives
  then Err (DeliveryUnreachable cursor_height delivery terminal_deadline) else Ok tt.

(** ** The close descriptor *)

(* [crates/channel/src/model/setup.rs:643-643] CLOSE_DESCRIPTOR_VERSION *)
Definition CLOSE_DESCRIPTOR_VERSION : N := 4.

(* [crates/channel/src/model/setup.rs:672-678] CloseDescriptor::expected_settlement *)
Definition expected_settlement (self : CloseDescriptor)
    : result WorkPaymentSettlement WorkSetupError :=
  ok_or (work_payment_settlement (close_expected_values self)
           (wp_omission_bond (channel_payment_terms (close_channel self)))) Unsettleable.

(* [crates/channel/src/model/setup.rs:688-704] CloseDescriptor::funded_settlement *)
Definition funded_settlement (self : CloseDescriptor) (payment : Edge)
    : result WorkPaymentSettlement WorkSetupError :=
  let channel := close_channel self in
  if negb (bool_decide (Edge_terms payment = channel_payment_terms_hash channel))
  then Err (TermsMismatch "the armed payment edge") else
  if negb (bool_decide (Edge_parties payment
                        = WorkPaymentTerms_parties (channel_payment_terms channel)))
  then Err (PartiesMismatch "the armed payment edge") else
  ok_or (work_payment_settlement (Edge_values payment)
           (wp_omission_bond (channel_payment_terms channel))) Unsettleable.

(* [crates/channel/src/model/setup.rs:707-730] CloseDescriptor::encode *)
Definition CloseDescriptor_encode (self : CloseDescriptor) : result bytes WorkSetupError :=
  let channel := close_channel self in
  let? policy_bytes := setup_record (policy_canonical_bytes (close_invocation_policy self)) in
  let payment_bytes := record_encode JobPaymentPolicyV2_record (close_payment_policy self) in
  let values := close_expected_values self in
  Ok (byte_of_N CLOSE_DESCRIPTOR_VERSION :: NetworkId_encode_to (channel_network channel) ++
      encode_to EdgeId_codec (channel_payment_edge channel) ++
      encode_to Terms_codec (Terms_work_payment (channel_payment_terms channel)) ++
      close_policy_salt self ++
      record_encode PaidChannelPolicyV1_record (channel_policy channel) ++
      put_u64 (lenN policy_bytes) ++ policy_bytes ++
      put_u64 (lenN payment_bytes) ++ payment_bytes ++
      put_u64 (EdgeValues_value values) ++ put_u64 (EdgeValues_reserve values) ++
      encode_to Fees_codec (EdgeValues_close_fees values)).

(** [ok_or(DescriptorMalformed)?] on every read. *)
Definition described {A} (o : option A) : result A WorkSetupError := ok_or o DescriptorMalformed.

(* [crates/channel/src/model/setup.rs:738-817] CloseDescriptor::decode *)
Definition CloseDescriptor_decode (bs : bytes) : result CloseDescriptor WorkSetupError :=
  let? '(version, cursor) := described (Cursor_byte bs) in
  if negb (Byte.to_N version =? CLOSE_DESCRIPTOR_VERSION) then Err DescriptorMalformed else
  let? '(network, cursor) := described (Cursor_network cursor) in
  let? '(payment_edge, cursor) := described (Cursor_field EdgeId_codec cursor) in
  let? '(terms, cursor) := described (Cursor_field Terms_codec cursor) in
  match Terms_profile terms with
  | Profile_WorkPayment payment_terms =>
      let? '(salt, cursor) := described (Cursor_take 32 cursor) in
      let? '(head, cursor) := described (Cursor_take (ENCODED_SIZE PaidChannelPolicyV1_record)
                                           cursor) in
      let? channel_policy := map_err (fun _ => DescriptorMalformed)
                               (record_decode PaidChannelPolicyV1_record head) in
      let? '(policy_len, cursor) := described (Cursor_u64 cursor) in
      let? '(head, cursor) := described (Cursor_takeN policy_len cursor) in
      let? invocation_policy := map_err (fun _ => DescriptorMalformed)
                                  (policy_from_canonical_bytes head) in
      let? '(payment_len, cursor) := described (Cursor_u64 cursor) in
      let? '(head, cursor) := described (Cursor_takeN payment_len cursor) in
      let? payment_policy := map_err (fun _ => DescriptorMalformed)
                               (record_decode JobPaymentPolicyV2_record head) in
      let? _ := setup_record (JobPaymentPolicyV2_check payment_policy) in
      let? '(value, cursor) := described (Cursor_u64 cursor) in
      let? '(reserve, cursor) := described (Cursor_u64 cursor) in
      let? '(close_fees, cursor) := described (Cursor_field Fees_codec cursor) in
      match cursor with
      | _ :: _ => Err DescriptorMalformed
      | [] =>
          let values := EdgeValues_new value reserve close_fees in
          let? channel := setup_record (PaidChannel_new network payment_edge payment_terms salt
                                          channel_policy) in
          let? _ := setup_record (policy_validate invocation_policy) in
          match work_payment_settlement values (wp_omission_bond payment_terms) with
          | None => Err Unsettleable
          | Some _ => Ok (mk_CloseDescriptor channel (wp_bond_edge payment_terms) salt
                            invocation_policy payment_policy values)
          end
      end
  | _ => Err DescriptorMalformed
  end.
End setup.
