(* ===== verification/ChannelCheckpoint.v ===== *)
(** * Checkpoints (crates/channel/src/work_store/channel/codec.rs)

    The whole state as one record: [checkpoint_inner] writes it, leaving out the
    bodies when it is for storage, and [decode_checkpoint] reads it back under the
    opener's channel, settlement and role.  [from_checkpoint] also rechecks the
    state it read. *)

From S2P Require Import Prelude Xet XetChunk Canonical Primitive Errors Context Auth Objects Registry.
From S2P Require Import View Store Terms Work PaidWork JobBook JobInput ChannelState ChannelSteps.
From S2P Require Import ChannelInvariant ChannelReplay ChannelCodec.

#[local] Open Scope N_scope.

(** ** Definitions *)

(** The keys of a [BTreeSet], in order. *)
Definition btree_keys (X : gset Digest) : list Digest :=
  (sort_by_id Digest_bytes (map (fun d => (d, tt)) (elements X))).*1.

Definition job_field : Field JobState :=
  iso_field
    (pair_field (record_field PaidJobAuthorizationV2_record) (pair_field digest_field
      (pair_field signature_field (pair_field (option_field signature_field)
        (pair_field phase_field (pair_field
          (option_field (pair_field (record_field PaidJobResultV1_record) signature_field))
            (pair_field bytes_field bytes_field)))))))
    (fun '(a, (id, (cs, (ps, (phase, (r, (input, transcript))))))) =>
       mk_JobState a id input cs ps phase r transcript)
    (fun j => (job_authorization j, (job_work_id j, (JobBook.client_signature j,
       (JobBook.provider_signature j, (job_phase j, (job_result j,
         (prepared_input j, job_transcript j)))))))).

Definition terminal_field : Field JobTerminal :=
  iso_field (pair_field digest_field (pair_field phase_field outcome_field))
    (fun '(id, (phase, outcome)) => mk_JobTerminal id phase outcome)
    (fun t => (terminal_work_id t, (terminal_phase t, terminal_outcome t))).

(** A counted sequence. *)
Definition put_items {A} (f : Field A) (l : list A) : bytes :=
  put u64_field (lenN l) ++ concat (map (put f) l).

Fixpoint read_items {A S} (f : Field A) (add : A -> S -> option S) (count : nat) (acc : S)
    (cursor : bytes) : result (S * bytes) ChannelStateError :=
  match count with
  | O => Ok (acc, cursor)
  | Datatypes.S count =>
      let? '(item, cursor) := read f cursor in
      match add item acc with
      | Some acc => read_items f add count acc cursor
      | None => Err Malformed
      end
  end.

Definition read_counted {A S} (f : Field A) (add : A -> S -> option S) (empty : S) : reader S :=
  fun cursor =>
    let? '(count, cursor) := read u64_field cursor in
    read_items f add (N.to_nat count) empty cursor.

(** [BTreeMap::insert] and [BTreeSet::insert], refused where the key was held. *)
Definition insert_new {A} (key : A -> Digest) (a : A) (m : gmap Digest A) : option (gmap Digest A) :=
  match m !! key a with Some _ => None | None => Some (<[key a := a]> m) end.
Definition insert_key (d : Digest) (X : gset Digest) : option (gset Digest) :=
  if decide (d ∈ X) then None else Some ({[d]} ∪ X).

Section checkpoint.
  Context `{Blake3}.

(* [crates/channel/src/work_store/channel/codec.rs:441-547] Channel::checkpoint_inner *)
Definition checkpoint_inner (self : Channel) (metadata_only : bool) : bytes :=
  let funding := ch_funding self in
  let settlement := ps_settlement funding in
  let book := ch_book self in
  put digest_field (channel_id (ps_channel funding)) ++
  put u64_field (freeze_total settlement) ++
  put u64_field (adjudicated_total settlement) ++
  put u64_field (settlement_capacity settlement) ++
  put u64_field (settlement_omission_bond settlement) ++
  put role_field (ch_role self) ++
  put u64_field (credited_cumulative (ch_ledger self)) ++
  put_items job_field
    (map (fun job => if metadata_only then strip_job job else job) (btree_values (book_jobs book))) ++
  put_items terminal_field (btree_values (book_terminals book)) ++
  put u64_field (proposal_nonce_high_water book) ++
  put bool_field (ps_origin_observed funding) ++
  put u64_field (ps_cursor funding).1 ++
  put payload_field (ps_cursor funding).2 ++
  put_items digest_field (btree_keys (indeterminate book)) ++
  put (option_field (kernel_field PaymentCloseStart_codec)) (close_prepared funding) ++
  put (option_field contest_field) (close_opened funding) ++
  put (option_field answer_field) (close_responded funding) ++
  put (option_field settlement_field) (close_settled funding) ++
  put (option_field digest_field) (pending_proposal book) ++
  (if is_some (close_history funding)
   then put (option_field history_field) (close_history funding) else []).

(** The settlement values a checkpoint pins, each against the opener's. *)
Fixpoint check_pinned (pinned : list (string * N)) (cursor : bytes)
    : result bytes ChannelStateError :=
  match pinned with
  | [] => Ok cursor
  | (field, held) :: pinned =>
      let? '(value, cursor) := read u64_field cursor in
      if negb (value =? held) then Err (WrongChannel field) else check_pinned pinned cursor
  end.

(* [crates/channel/src/work_store/channel/codec.rs:555-719] Channel::decode_checkpoint *)
Definition decode_checkpoint (bs : bytes) (channel : PaidChannel)
    (settlement : WorkPaymentSettlement) (role : Role) : result Channel ChannelStateError :=
  let? '(id, cursor) := read digest_field bs in
  if negb (bool_decide (id = channel_id channel))
  then Err (WrongChannel "checkpoint channel_id") else
  let? cursor := check_pinned
    [("freeze_total"%string, freeze_total settlement);
     ("adjudicated_total"%string, adjudicated_total settlement);
     ("capacity"%string, settlement_capacity settlement);
     ("omission_bond"%string, settlement_omission_bond settlement)] cursor in
  let? '(held_role, cursor) := read role_field cursor in
  if negb (bool_decide (held_role = role))
  then Err (WrongRole "replaying a checkpoint"
              (match role with Client => "client" | Provider => "provider" end)) else
  let? '(credited, cursor) := read u64_field cursor in
  let? '(jobs, cursor) := read_counted job_field (insert_new job_work_id) ∅ cursor in
  let? '(terminals, cursor) := read_counted terminal_field (insert_new terminal_work_id) ∅ cursor in
  let? '(nonce_high_water, cursor) := read u64_field cursor in
  let? '(origin_observed, cursor) := read bool_field cursor in
  let? '(height, cursor) := read u64_field cursor in
  let? '(payload, cursor) := read payload_field cursor in
  let? '(held, cursor) := read_counted digest_field insert_key ∅ cursor in
  let? '(close_prepared, cursor) :=
    read (option_field (kernel_field PaymentCloseStart_codec)) cursor in
  let? '(close_opened, cursor) := read (option_field contest_field) cursor in
  let? '(close_responded, cursor) := read (option_field answer_field) cursor in
  let? '(close_settled, cursor) := read (option_field settlement_field) cursor in
  let? '(pending_proposal, cursor) := read (option_field digest_field) cursor in
  let? '(close_history, cursor) :=
    match cursor with
    | [] => Ok (None, [])
    | _ :: _ =>
        let? '(history, cursor) := read (option_field history_field) cursor in
        let? history := malformed history in Ok (Some history, cursor)
    end in
  match cursor with
  | [] => Ok (mk_Channel
      (mk_PaymentState channel settlement (height, payload) origin_observed close_prepared
         close_opened close_history close_responded close_settled)
      (CreditLedger_from_credited_cumulative credited) role
      (mk_JobBook pending_proposal jobs terminals nonce_high_water held))
  | _ :: _ => Err Malformed
  end.

(** The widths a state's fields have in memory; bodies count where they are written. *)
Record state_fits (metadata_only : bool) (s : Channel) : Prop := {
  fits_channel : fits digest_field (channel_id (ps_channel (ch_funding s))) = true;
  fits_pinned : forallb u64_ok
    [freeze_total (ps_settlement (ch_funding s)); adjudicated_total (ps_settlement (ch_funding s));
     settlement_capacity (ps_settlement (ch_funding s));
     settlement_omission_bond (ps_settlement (ch_funding s));
     credited_cumulative (ch_ledger s); proposal_nonce_high_water (ch_book s);
     N.of_nat (size (jobs s)); N.of_nat (size (terminals s));
     N.of_nat (size (indeterminate (ch_book s)))] = true;
  fits_jobs id job : jobs s !! id = Some job ->
    fits job_field (if metadata_only then strip_job job else job) = true;
  fits_terminals id t : terminals s !! id = Some t -> fits terminal_field t = true;
  fits_marks id : id ∈ indeterminate (ch_book s) -> fits digest_field id = true;
  fits_cursor : fits (pair_field u64_field payload_field) (ps_cursor (ch_funding s)) = true;
  fits_prepared :
    fits (option_field (kernel_field PaymentCloseStart_codec)) (close_prepared (ch_funding s)) = true;
  fits_opened : fits (option_field contest_field) (close_opened (ch_funding s)) = true;
  fits_responded : fits (option_field answer_field) (close_responded (ch_funding s)) = true;
  fits_settled : fits (option_field settlement_field) (close_settled (ch_funding s)) = true;
  fits_pending : fits (option_field digest_field) (pending_proposal (ch_book s)) = true;
  fits_history : fits (option_field history_field) (close_history (ch_funding s)) = true;
}.
End checkpoint.

Section from_checkpoint.
  Context `{Blake3} `{Gearhash} `{Invocations}.

(* [crates/channel/src/work_store/channel/state.rs:103-113] Channel::from_checkpoint *)
Definition from_checkpoint (bs : bytes) (channel : PaidChannel)
    (settlement : WorkPaymentSettlement) (role : Role) (verifier : SigVerifier)
    : result Channel ChannelStateError :=
  let? state := decode_checkpoint bs channel settlement role in
  let? _ := revalidate state verifier true in
  Ok state.
End from_checkpoint.

(** ** Round trip *)

#[export] Instance job_field_law : FieldLaw job_field.
Proof. apply (iso_field_law _); [by intros (? & ? & ? & ? & ? & ? & ? & ?)|by intros []]. Qed.
#[export] Instance terminal_field_law : FieldLaw terminal_field.
Proof. apply (iso_field_law _); [by intros (? & ? & ?)|by intros []]. Qed.

Definition add_all {A S} (add : A -> S -> option S) (l : list A) (acc : S) : option S :=
  foldl (fun acc a => acc ≫= add a) (Some acc) l.

Lemma add_all_cons {A S} (add : A -> S -> option S) a l acc :
  add_all add (a :: l) acc = (acc' ← add a acc; add_all add l acc').
Proof.
  unfold add_all. simpl. destruct (add a acc); [done|]. simpl. by induction l.
Qed.

Lemma read_items_put {A S} (f : Field A) `{!FieldLaw f} (add : A -> S -> option S) l acc acc' rest :
  (forall a, a ∈ l -> fits f a = true) -> add_all add l acc = Some acc' ->
  read_items f add (length l) acc (concat (map (put f) l) ++ rest) = Ok (acc', rest).
Proof.
  revert acc. induction l as [|a l IH]; intros acc Hf Hadd; [by injection Hadd as ->|].
  cbn [length map concat read_items]. rewrite <- app_assoc, read_put by (apply Hf; left).
  cbn [rbind]. rewrite add_all_cons in Hadd. destruct (add a acc) as [x|]; [|done]. simpl in Hadd.
  apply IH; [|done]. intros b Hb. apply Hf. by right.
Qed.

Lemma read_counted_put {A S} (f : Field A) `{!FieldLaw f} (add : A -> S -> option S) l empty acc rest :
  (forall a, a ∈ l -> fits f a = true) -> u64_ok (lenN l) = true ->
  add_all add l empty = Some acc ->
  read_counted f add empty (put_items f l ++ rest) = Ok (acc, rest).
Proof.
  intros Hf Hl Hadd. unfold read_counted, put_items. rewrite <- app_assoc, read_put by done.
  cbn [rbind]. rewrite Nat2N.id. by apply read_items_put.
Qed.

Lemma insert_new_all {A} (key : A -> Digest) (l : list A) acc :
  NoDup (map key l) -> (forall a, a ∈ l -> acc !! key a = None) ->
  add_all (insert_new key) l acc = Some (list_to_map (map (fun a => (key a, a)) l) ∪ acc).
Proof.
  revert acc. induction l as [|a l IH]; intros acc Hnd Hfresh; simpl.
  - by rewrite map_empty_union.
  - assert (insert_new key a acc = Some (<[key a := a]> acc)) as E
      by (unfold insert_new; by rewrite Hfresh by left).
    rewrite add_all_cons, E. apply NoDup_cons in Hnd as [Hni Hnd]. cbn [mbind option_bind]. rewrite IH; [|done|].
    + f_equal. rewrite <- insert_union_r, insert_union_l; [done|].
      apply not_elem_of_list_to_map_1. by rewrite map_map.
    + intros b Hb. rewrite lookup_insert_ne; [apply Hfresh; by right|].
      intros Ek. apply Hni. rewrite Ek. by apply list_elem_of_fmap_2.
Qed.

Lemma btree_values_items {A} (m : gmap Digest A) (key : A -> Digest) (g : A -> A) :
  (forall k a, m !! k = Some a -> key (g a) = k) ->
  map (fun a => (key a, a)) (map g (btree_values m)) = prod_map id g <$> btree_items m.
Proof.
  intros Hkey. unfold btree_values. rewrite !map_map. apply map_ext_in.
  intros [k a] Hk. simpl. f_equal. apply Hkey. apply elem_of_btree_items. by apply list_elem_of_In.
Qed.

Lemma keyed_fst {A} (key : A -> Digest) l : (map (fun a => (key a, a)) l).*1 = map key l.
Proof. induction l; simpl; by f_equal. Qed.

(** The values of a map, changed without changing their keys, rebuild the map. *)
Lemma btree_values_insert_all {A} (m : gmap Digest A) (key : A -> Digest) (g : A -> A) :
  (forall k a, m !! k = Some a -> key (g a) = k) ->
  add_all (insert_new key) (map g (btree_values m)) ∅ = Some (g <$> m).
Proof.
  intros Hkey.
  assert (NoDup (btree_items m).*1) as Hnd
    by (unfold btree_items; rewrite sort_by_id_perm; apply NoDup_fst_map_to_list).
  pose proof (btree_values_items m key g Hkey) as Hi. rewrite insert_new_all.
  - rewrite map_union_empty, Hi, list_to_map_fmap. do 2 f_equal.
    rewrite <- (list_to_map_to_list m) at 2. apply list_to_map_proper; [done|apply sort_by_id_perm].
  - rewrite <- keyed_fst, Hi, <- list_fmap_compose. exact Hnd.
  - intros. apply lookup_empty.
Qed.

Lemma btree_values_length {A} (m : gmap Digest A) : length (btree_values m) = size m.
Proof. rewrite btree_values_perm, length_map. apply length_map_to_list. Qed.

Lemma btree_keys_perm X : btree_keys X ≡ₚ elements X.
Proof.
  unfold btree_keys. rewrite sort_by_id_perm. induction (elements X); simpl; by f_equiv.
Qed.

Lemma insert_key_all (l : list Digest) X :
  NoDup l -> (forall d, d ∈ l -> d ∉ X) ->
  add_all insert_key l X = Some (list_to_set l ∪ X).
Proof.
  revert X. induction l as [|d l IH]; intros X Hnd Hfresh; [simpl; f_equal; set_solver|].
  apply NoDup_cons in Hnd as [Hni Hnd].
  assert (insert_key d X = Some ({[d]} ∪ X)) as E
    by (unfold insert_key; rewrite decide_False; [done|apply Hfresh; left]).
  rewrite add_all_cons, E. cbn [mbind option_bind]. rewrite IH; [f_equal; set_solver|done|].
  intros e He. apply not_elem_of_union. split; [set_solver|apply Hfresh; by right].
Qed.

Lemma btree_keys_insert_all X : add_all insert_key (btree_keys X) ∅ = Some X.
Proof.
  rewrite insert_key_all; [|rewrite btree_keys_perm; apply NoDup_elements|set_solver].
  f_equal. apply set_eq. intros d.
  rewrite elem_of_union, elem_of_list_to_set, btree_keys_perm. set_solver.
Qed.

Section roundtrip.
  Context `{Blake3}.

Lemma read_items_map {A} (f : Field A) `{!FieldLaw f} (key : A -> Digest) (g : A -> A)
    (m : gmap Digest A) rest :
  (forall k a, m !! k = Some a -> key (g a) = k /\ fits f (g a) = true) ->
  u64_ok (N.of_nat (size m)) = true ->
  read_counted f (insert_new key) ∅ (put_items f (map g (btree_values m)) ++ rest) =
  Ok (g <$> m, rest).
Proof.
  intros Hm Hs. apply (read_counted_put _).
  - intros a (b & -> & [k Hk]%elem_of_btree_values)%list_elem_of_fmap. by apply (Hm k).
  - by rewrite length_map, btree_values_length.
  - apply btree_values_insert_all. intros k a Hk. by apply Hm.
Qed.

Lemma read_items_set (X : gset Digest) rest :
  (forall d, d ∈ X -> fits digest_field d = true) -> u64_ok (N.of_nat (size X)) = true ->
  read_counted digest_field insert_key ∅ (put_items digest_field (btree_keys X) ++ rest) =
  Ok (X, rest).
Proof.
  intros HX Hs. apply (read_counted_put _); [|by rewrite btree_keys_perm|apply btree_keys_insert_all].
  intros d Hd. apply HX. rewrite btree_keys_perm in Hd. set_solver.
Qed.

Lemma fmap_same {A} (m : gmap Digest A) : (fun a => a) <$> m = m.
Proof. apply map_fmap_id. Qed.

(** A checkpoint is the whole state: read back under the channel, settlement
    and role it was written from, its bytes give the state they were written
    from, and the bytes written for storage give that state without the job
    bodies. *)
Lemma checkpoint_roundtrip s metadata_only :
  state_fits metadata_only s ->
  (forall id job, jobs s !! id = Some job -> job_work_id job = id) ->
  (forall id t, terminals s !! id = Some t -> terminal_work_id t = id) ->
  decode_checkpoint (checkpoint_inner s metadata_only) (chan s) (ps_settlement (ch_funding s))
    (ch_role s) = Ok (if metadata_only then strip s else s).
Proof.
  intros Hs Hjobs Hterms. destruct Hs. destruct s as [[c st [h p] oo cp co chh cr cs] [cred] role [pp js ts hw ind]].
  cbn [ch_funding ch_ledger ch_role ch_book ps_channel ps_settlement ps_cursor close_prepared
       close_opened close_history close_responded close_settled pending_proposal book_jobs
       book_terminals proposal_nonce_high_water indeterminate credited_cumulative forallb] in *.
  cbn [pair_field fits] in fits_cursor0. bool_simpl. unfold decode_checkpoint, checkpoint_inner.
  cbn [ch_funding ch_ledger ch_role ch_book ps_channel ps_settlement ps_cursor ps_origin_observed
       close_prepared close_opened close_history close_responded close_settled pending_proposal
       book_jobs book_terminals proposal_nonce_high_water indeterminate credited_cumulative fst snd].
  read_fields. rewrite bool_decide_true by done. cbn [negb check_pinned].
  do 4 (rewrite read_put by done; cbn [rbind]; rewrite N.eqb_refl; cbn [negb]). cbn [rbind].
  rewrite read_put by done. cbn [rbind]. rewrite bool_decide_true by done. cbn [negb].
  rewrite read_put by done. cbn [rbind].
  rewrite (read_items_map job_field);
    [|intros k a Hk; split; [destruct metadata_only; exact (Hjobs _ _ Hk)|exact (fits_jobs0 _ _ Hk)]
     |done].
  cbn [rbind]. rewrite <- (map_id (btree_values ts)).
  rewrite (read_items_map terminal_field _ (fun t => t)) by (done || eauto). cbn [rbind]. read_fields.
  rewrite read_items_set by done. cbn [rbind]. rewrite fmap_same.
  destruct chh as [hist|]; cbn [is_some]; read_fields.
  2:{ by destruct metadata_only; [|rewrite fmap_same]. }
  pose proof (read_put (f := option_field history_field) (Some hist) [] fits_history0) as Hh.
  rewrite app_nil_r in Hh.
  change (put (option_field history_field) (Some hist)) with (byte_of_N 1 :: put history_field hist) in *.
  rewrite Hh. cbn [rbind malformed ok_or].
  by destruct metadata_only; [|rewrite fmap_same].
Qed.
End roundtrip.
