(* ===== verification/ChannelReopen.v ===== *)
(** * Reopening a checkpoint

    [from_checkpoint] rechecks everything the state it read claims.  Every state a
    channel reaches passes, with one exception: a retained close start is compared
    with the certificate the journal holds now, and a start that expired before
    another job was paid for names an older one. *)

From S2P Require Import Prelude Xet XetChunk Canonical Primitive Errors Context Auth Objects Registry.
From S2P Require Import View Store Terms Work PaidWork JobBook JobInput ChannelState ChannelSteps.
From S2P Require Import ChannelInvariant ChannelReplay ChannelCodec ChannelCheckpoint.

#[local] Open Scope N_scope.

Section reopen.
  Context `{Blake3} `{Gearhash} `{Invocations} (v : SigVerifier).

Lemma for_each_Ok {A} (f : A -> result unit ChannelStateError) l :
  (forall a, a ∈ l -> f a = Ok tt) -> for_each f l = Ok tt.
Proof.
  unfold for_each. induction l as [|a l IH]; intros Hf; [done|].
  cbn [rfold]. rewrite Hf by left. cbn [rbind]. apply IH. intros b Hb. apply Hf. by right.
Qed.

(** A job without bodies is what a metadata replay rechecks. *)
Lemma revalidate_job_Ok c role s id job :
  chan s = c -> ch_role s = role -> job_ok v c role id job ->
  revalidate_job s v true (strip_job job) = Ok tt.
Proof.
  intros <- <- []. unfold revalidate_job, check_job_authorization, check_result_payload.
  cbn [strip_job job_authorization job_work_id prepared_input JobBook.client_signature
       JobBook.provider_signature job_phase job_result job_transcript].
  rewrite !bool_decide_true by congruence. cbn [negb rbind].
  rewrite job_cosigned, job_resulted, !Bool.eqb_reflx, job_named, job_client_signed.
  assert (match only_role (job_phase job) with
          | Some r => negb (bool_decide (r = ch_role s)) | None => false end = false) as ->.
  { destruct (only_role _) as [r|]; [|done]. rewrite (job_phase_role r eq_refl).
    by rewrite bool_decide_true. }
  cbn [negb orb].
  destruct (JobBook.provider_signature job) as [sig|]; [rewrite job_provider_signed by done|]; cbn [negb].
  all: destruct (job_result job) as [[r sig']|] eqn:Hr; [|done].
  all: destruct (job_result_signed r sig' eq_refl) as [-> ->].
  all: assert (bool_decide (job_phase job = Verified)
         && negb (bool_decide (result_outcome r = Finished)) = false) as ->
         by (destruct (decide (job_phase job = Verified));
             [by rewrite (job_verified_finished r sig'), andb_false_r by done
             |by rewrite bool_decide_false]).
  all: by rewrite bool_decide_true.
Qed.

Lemma revalidate_terminal_Ok c settlement s id t :
  chan s = c -> jobs s !! id = None -> terminal_ok v c settlement id t ->
  revalidate_terminal s v t = Ok tt.
Proof.
  intros <- Hj [Hn Hp]. unfold revalidate_terminal. rewrite Hn, Hj. cbn [is_some].
  destruct (terminal_outcome t) as [[r sig] c bi bs cs| | | |]; try done.
  destruct (Hp _ _ _ _ _ _ eq_refl) as (-> & -> & -> & _ & _ & _ & -> & Hb & ->).
  rewrite Hb. cbn [binding_work_id binding_result_digest]. by rewrite !bool_decide_true.
Qed.

Lemma executable_certificate_strip s : executable_certificate (strip s) = executable_certificate s.
Proof. done. Qed.

Lemma revalidate_exchange_strip c settlement role s :
  channel_inv v c settlement role s ->
  revalidate_exchange (ch_book (strip s)) (ch_role (strip s)) = Ok tt.
Proof.
  intros Hinv. unfold revalidate_exchange. cbn [strip map_book ch_book with_jobs pending_proposal ch_role].
  destruct (pending_proposal (ch_book s)) as [id|] eqn:Hp; [|done].
  destruct (inv_pending _ _ _ _ _ Hinv id Hp) as (-> & job & Hj & Hph).
  rewrite (inv_role _ _ _ _ _ Hinv), bool_decide_true by done. cbn [negb].
  assert (book_jobs (with_jobs (fmap strip_job) (ch_book s)) !! id = Some (strip_job job)) as E
    by (cbn [with_jobs book_jobs]; by rewrite lookup_fmap, Hj).
  rewrite (proj2 (open_job_Ok _ _ _ _) E). cbn [rbind strip_job job_phase]. by rewrite Hph.
Qed.

Lemma revalidate_strip c settlement role s :
  channel_inv v c settlement role s ->
  revalidate (strip s) v true =
  match close_prepared (ch_funding s) with Some start => check_close_start s start | None => Ok tt end.
Proof.
  intros Hinv. unfold revalidate.
  rewrite (revalidate_exchange_strip c settlement role) by done.
  cbn [rbind].
  assert (match close_history (ch_funding (strip s)) with
          | Some history => check_close_history (strip s) history | None => Ok tt end = Ok tt) as ->.
  { cbn [strip map_book ch_funding]. destruct (close_history (ch_funding s)) as [h|] eqn:Hh; [|done].
    by apply (inv_history _ _ _ _ _ Hinv). }
  cbn [rbind]. change (max_executable_certificate (strip s)) with (max_executable_certificate s).
  change (ch_ledger (strip s)) with (ch_ledger s).
  rewrite (inv_ledger _ _ _ _ _ Hinv), N.eqb_refl. cbn [negb].
  rewrite for_each_Ok; cbn [rbind].
  2:{ intros job [id Hj]%elem_of_btree_values. cbn [strip map_book ch_book with_jobs book_jobs] in Hj.
      apply lookup_fmap_Some in Hj as (j & <- & Hj).
      eapply revalidate_job_Ok; [|apply (inv_role _ _ _ _ _ Hinv)|by apply (inv_jobs _ _ _ _ _ Hinv)].
      apply (inv_channel _ _ _ _ _ Hinv). }
  rewrite for_each_Ok; cbn [rbind].
  2:{ intros t [id Ht]%elem_of_btree_values.
      eapply revalidate_terminal_Ok; [apply (inv_channel _ _ _ _ _ Hinv)| |by apply (inv_terminals _ _ _ _ _ Hinv)].
      cbn [strip map_book ch_book with_jobs book_jobs book_terminals] in *. rewrite lookup_fmap.
      destruct (jobs s !! id) eqn:Hj; [|done].
      apply (inv_disjoint _ _ _ _ _ Hinv) in Hj. congruence. }
  unfold revalidate_close. cbn [strip map_book ch_funding].
  set (prepared := match close_prepared (ch_funding s) with Some _ => _ | None => _ end).
  replace (match close_prepared (ch_funding s) with
           | Some start => check_close_start s start | None => Ok tt end) with prepared by done.
  destruct prepared as [[]|]; [|done]. cbn [rbind].
  destruct (close_responded (ch_funding s)) as [answer|] eqn:Ha; [|done].
  destruct (inv_responded _ _ _ _ _ Hinv _ Ha) as (contest & cert & sig & -> & Hid & Hc & Hd).
  rewrite bool_decide_true by done. cbn [rbind].
  rewrite executable_certificate_strip, Hc, Hid, Hd, (inv_channel _ _ _ _ _ Hinv).
  by rewrite bool_decide_true.
Qed.
Lemma checkpoint_reopens_eq c settlement role s :
  reachable v c settlement role s -> state_fits true s ->
  from_checkpoint (checkpoint_inner s true) c settlement role v =
  let? _ := match close_prepared (ch_funding s) with
            | Some start => check_close_start s start
            | None => Ok tt
            end in
  Ok (strip s).
Proof.
  intros Hinv%reachable_inv Hf. unfold from_checkpoint.
  pose proof (checkpoint_roundtrip s true Hf) as Hrt.
  rewrite (inv_channel _ _ _ _ _ Hinv), (inv_settlement _ _ _ _ _ Hinv),
    (inv_role _ _ _ _ _ Hinv) in Hrt.
  rewrite Hrt; cbn [rbind].
  - by rewrite (revalidate_strip _ _ _ _ Hinv).
  - intros id job Hj. by apply (inv_jobs _ _ _ _ _ Hinv) in Hj as [].
  - intros id t Ht. by apply (inv_terminals _ _ _ _ _ Hinv) in Ht as [].
Qed.

(** C35: a state the channel reached, written as a checkpoint for storage and
    opened again, is accepted and is that state without its job bodies, provided
    a retained close start still names the certificate the journal holds.  When
    it does not, the checkpoint is refused with the error [check_close_start]
    gives, and that is the only way a reached state fails to reopen. *)
Theorem checkpoint_reopens c settlement role s :
  reachable v c settlement role s -> state_fits true s ->
  from_checkpoint (checkpoint_inner s true) c settlement role v =
  let? _ := match close_prepared (ch_funding s) with
            | Some start => check_close_start s start
            | None => Ok tt
            end in
  Ok (strip s).
Proof. apply checkpoint_reopens_eq. Qed.
End reopen.
