(* ===== verification/ChannelFits.v ===== *)
(** * Widths of a live state

    A channel built from records whose fields have their declared widths has
    fields of their declared widths, and the sizes of its maps are bounded by the
    nonces it burned; so its checkpoint can be written and read back. *)

From S2P Require Import Prelude Xet XetChunk Canonical Primitive Errors Context Auth Objects Registry.
From S2P Require Import View Store Terms Work PaidWork JobBook JobInput ChannelState ChannelSteps.
From S2P Require Import ChannelInvariant ChannelReplay ChannelCodec ChannelCheckpoint.

#[local] Open Scope N_scope.

Record book_typed (b : JobBook) : Prop := {
  bt_jobs id job : book_jobs b !! id = Some job ->
    fits job_field (strip_job job) = true /\ job_work_id job = id;
  bt_terminals id t : book_terminals b !! id = Some t -> fits terminal_field t = true;
  bt_marks : indeterminate b ⊆ dom (book_jobs b);
  bt_count : N.of_nat (size (book_jobs b)) + N.of_nat (size (book_terminals b))
    <= proposal_nonce_high_water b;
  bt_nonce : u64_ok (proposal_nonce_high_water b) = true;
  bt_pending : fits (option_field digest_field) (pending_proposal b) = true;
}.

Section fits.
  Context `{Blake3} `{Gearhash} `{Invocations} (v : SigVerifier).

Record funding_typed (f : PaymentState) : Prop := {
  ft_channel : fits digest_field (channel_id (ps_channel f)) = true;
  ft_pinned : forallb u64_ok
    [freeze_total (ps_settlement f); adjudicated_total (ps_settlement f);
     settlement_capacity (ps_settlement f); settlement_omission_bond (ps_settlement f)] = true;
  ft_cursor : fits (pair_field u64_field payload_field) (ps_cursor f) = true;
  ft_prepared : fits (option_field (kernel_field PaymentCloseStart_codec)) (close_prepared f) = true;
  ft_opened : fits (option_field contest_field) (close_opened f) = true;
  ft_responded : fits (option_field answer_field) (close_responded f) = true;
  ft_settled : fits (option_field settlement_field) (close_settled f) = true;
  ft_history : fits (option_field history_field) (close_history f) = true;
}.

Record state_typed (s : Channel) : Prop := {
  st_funding : funding_typed (ch_funding s);
  st_ledger : u64_ok (credited_cumulative (ch_ledger s)) = true;
  st_book : book_typed (ch_book s);
}.

Lemma u64_ok_le a b : a <= b -> u64_ok b = true -> u64_ok a = true.
Proof. unfold u64_ok. intros. bool_simpl. apply N.leb_le. lia. Qed.

Lemma state_typed_fits s : state_typed s -> state_fits true s.
Proof.
  intros [[] Hl []]. split; try done.
  - cbn [forallb] in *. bool_simpl. rewrite !andb_true_iff. split_and!; try done.
    1-2: eapply u64_ok_le; [|exact bt_nonce0]; lia.
    eapply u64_ok_le; [|exact bt_nonce0].
    apply subseteq_size in bt_marks0. rewrite size_dom in bt_marks0. lia.
  - intros id job Hj. by apply (bt_jobs0 id).
  - intros id Hid%bt_marks0. apply elem_of_dom in Hid as [job Hj].
    destruct (bt_jobs0 id job Hj) as [Hf <-]. clear - Hf.
    destruct job as [a i inp cs ps ph r t]. cbn [job_field iso_field pair_field fits strip_job job_authorization job_work_id
      prepared_input JobBook.client_signature JobBook.provider_signature job_phase job_result
      job_transcript] in *. by bool_simpl.
Qed.

Lemma state_typed_new c settlement role h payload :
  fits digest_field (channel_id c) = true ->
  forallb u64_ok [freeze_total settlement; adjudicated_total settlement;
    settlement_capacity settlement; settlement_omission_bond settlement] = true ->
  u64_ok h = true -> fits payload_field payload = true ->
  state_typed (Channel_new c settlement role h payload).
Proof.
  intros. split; [split|done|split]; try done; cbn [Channel_new ch_funding ch_book JobBook_default].
  - cbn [ps_cursor pair_field fits]. by apply andb_true_intro.
Qed.

(** ** The book *)

Lemma typed_with_book s b : state_typed s -> book_typed b -> state_typed (map_book (fun _ => b) s).
Proof. intros [] Hb. by split. Qed.

Lemma typed_with_funding s (f : PaymentState -> PaymentState) :
  state_typed s -> funding_typed (f (ch_funding s)) -> state_typed (map_funding f s).
Proof. intros [] Hf. by split. Qed.

Lemma typed_pending b p :
  book_typed b -> fits (option_field digest_field) p = true -> book_typed (with_pending p b).
Proof. intros [] Hp. by split. Qed.

(** An open job replaced by one that fits. *)
Lemma typed_replace b id job job' :
  book_typed b -> book_jobs b !! id = Some job -> fits job_field (strip_job job') = true ->
  job_work_id job' = id -> book_typed (with_jobs <[id := job']> b).
Proof.
  intros [] Hj Hf Hid. assert (is_Some (book_jobs b !! id)) as Hs by eauto.
  split; cbn [with_jobs book_jobs book_terminals indeterminate proposal_nonce_high_water
    pending_proposal]; try done.
  - intros i j [[-> <-]|[_ Hi]]%lookup_insert_Some; [done|by apply bt_jobs0].
  - rewrite dom_insert_lookup_L; done.
  - rewrite map_size_insert_Some by done. done.
Qed.

Lemma typed_rest b id job t :
  book_typed b -> book_jobs b !! id = Some job -> book_terminals b !! id = None ->
  terminal_work_id t = id -> fits terminal_field t = true -> book_typed (rest_at b t).
Proof.
  intros [] Hj Ht Hid Hf. unfold rest_at. rewrite Hid.
  split; cbn [book_jobs book_terminals indeterminate proposal_nonce_high_water pending_proposal]; try done.
  - intros i j [_ Hi]%lookup_delete_Some. by apply bt_jobs0.
  - intros i t' [[-> <-]|[_ Hi]]%lookup_insert_Some; [done|by eapply bt_terminals0].
  - rewrite dom_delete_L. set_solver.
  - rewrite map_size_insert_None by done. rewrite map_size_delete_Some by eauto.
    assert (0 < size (book_jobs b))%nat; [|lia].
    apply Nat.neq_0_lt_0, map_size_ne_0_lookup. eauto.
  - by case_bool_decide.
Qed.

Lemma typed_propose b job pending :
  book_typed b -> book_jobs b !! job_work_id job = None ->
  fits job_field (strip_job job) = true ->
  proposal_nonce_high_water b < proposal_nonce (job_authorization job) ->
  u64_ok (proposal_nonce (job_authorization job)) = true ->
  fits (option_field digest_field) pending = true ->
  book_typed (mk_JobBook pending (<[job_work_id job := job]> (book_jobs b)) (book_terminals b)
    (proposal_nonce (job_authorization job)) (indeterminate b)).
Proof.
  intros [] Hn Hf Hlt Hu Hp.
  split; cbn [book_jobs book_terminals indeterminate proposal_nonce_high_water pending_proposal]; try done.
  - intros i j [[<- <-]|[_ Hi]]%lookup_insert_Some; [done|by apply bt_jobs0].
  - rewrite dom_insert_L. set_solver.
  - rewrite map_size_insert_None by done. lia.
Qed.

(** ** Records *)

(** The fields of a job that fits. *)
Lemma job_fields job :
  fits job_field (strip_job job) = true <->
  record_wf PaidJobAuthorizationV2_record (job_authorization job) = true /\
  fits digest_field (job_work_id job) = true /\
  fits signature_field (JobBook.client_signature job) = true /\
  fits (option_field signature_field) (JobBook.provider_signature job) = true /\
  fits (option_field (pair_field (record_field PaidJobResultV1_record) signature_field))
    (job_result job) = true.
Proof.
  destruct job as [a i inp cs ps ph r t]. cbn [job_field iso_field pair_field fits strip_job
    job_authorization job_work_id prepared_input JobBook.client_signature
    JobBook.provider_signature job_phase job_result job_transcript]. rewrite !andb_true_iff. tauto.
Qed.

Lemma work_id_fits c a : fits digest_field (work_id c a) = true.
Proof. apply Nat.eqb_eq, xet_hash_length. Qed.

Lemma exchange_typed s id pending a b :
  book_typed (ch_book s) -> fits digest_field id = true ->
  proposal_exchange (ch_book s) id pending = Ok (a, b) -> book_typed b.
Proof.
  unfold proposal_exchange. intros Hb Hid Hr. guards.
  destruct (bool_decide (pending_proposal _ = _)); guards; subst; [done|].
  apply typed_pending; [done|]. by destruct pending.
Qed.

Lemma proposed_typed s a0 sig input meta a s' :
  record_fits (JobProposed a0 sig input) = true -> state_typed s ->
  apply_proposed s v a0 sig input meta = Ok (a, s') -> state_typed s'.
Proof.
  intros Hf Hs. cbn [record_fits] in Hf. bool_simpl. unfold apply_proposed. intros Hr.
  destruct (jobs s !! _) as [job|] eqn:Hjob. { guards. by subst. }
  guards. subst. unfold book_propose in B. cbn [job_work_id job_authorization] in B.
  rewrite Hjob in B. guards. subst. apply typed_with_book; [done|].
  match goal with |- book_typed (mk_JobBook ?p (<[_ := ?j]> _) _ _ _) =>
    apply (typed_propose (ch_book s) j p) end; cbn [job_work_id job_authorization]; try done.
  - by apply st_book.
  - apply job_fields. split_and!; try done. apply work_id_fits.
  - cbn [record_wf PaidJobAuthorizationV2_record] in *. unfold PaidJobAuthorizationV2_wf in *. by bool_simpl.
  - destruct (ch_role s); [destruct (pending_proposal (ch_book s)); [done|]|]; guards; simplify_eq.
    + apply work_id_fits.
    + by apply (st_book _ Hs).
Qed.

Lemma typed_job s id job :
  state_typed s -> jobs s !! id = Some job ->
  fits job_field (strip_job job) = true /\ job_work_id job = id.
Proof. intros Hs. apply (bt_jobs _ (st_book _ Hs)). Qed.

(** Replacing an open job keeps its identity and its signatures' widths. *)
Lemma typed_update s id job job' :
  state_typed s -> jobs s !! id = Some job -> job_authorization job' = job_authorization job ->
  job_work_id job' = job_work_id job ->
  JobBook.client_signature job' = JobBook.client_signature job ->
  fits (option_field signature_field) (JobBook.provider_signature job') = true ->
  fits (option_field (pair_field (record_field PaidJobResultV1_record) signature_field))
    (job_result job') = true ->
  book_typed (with_jobs <[id := job']> (ch_book s)).
Proof.
  intros Hs Hj Ha Hi Hc Hp Hr. destruct (typed_job _ _ _ Hs Hj) as [Hf Hid].
  apply job_fields in Hf as (? & ? & ? & _ & _).
  apply (typed_replace _ id job); [apply (st_book _ Hs)|done| |by rewrite Hi].
  apply job_fields. rewrite Ha, Hi, Hc. done.
Qed.

Lemma typed_phase s id job phase :
  state_typed s -> jobs s !! id = Some job -> book_typed (with_jobs <[id := with_phase phase job]> (ch_book s)).
Proof.
  intros Hs Hj. destruct (typed_job _ _ _ Hs Hj) as [(_ & _ & _ & ? & ?)%job_fields _].
  by apply (typed_update s id job).
Qed.

Lemma accepted_typed s id sig a s' :
  record_fits (JobAccepted id sig) = true -> state_typed s ->
  apply_accepted s v id sig = Ok (a, s') -> state_typed s'.
Proof.
  intros Hf Hs. cbn [record_fits] in Hf. bool_simpl. unfold apply_accepted. intros Hr. guards.
  destruct (bool_decide (JobBook.provider_signature _ = _)) eqn:Hsame; guards; subst; [done|].
  unfold book_accept in B. guards. rewrite E0 in E. injection E as ->.
  rewrite bool_decide_eq_false_2 in B by done. guards. subst.
  destruct (typed_job _ _ _ Hs E0) as [(_ & _ & _ & _ & Hres)%job_fields _].
  apply typed_with_book; [done|].
  match goal with |- context [with_jobs <[_ := ?j]> _] =>
    pose proof (typed_update s id v0 j Hs E0 eq_refl eq_refl eq_refl) as Hb end.
  cbn [JobBook.provider_signature job_result] in Hb. specialize (Hb ltac:(done) Hres).
  case_match; [by apply typed_pending|done].
Qed.

Lemma phased_typed s s' :
  state_typed s ->
  (forall id job phase, jobs s !! id = Some job ->
     s' = map_book (with_jobs <[id := with_phase phase job]>) s -> state_typed s').
Proof. intros Hs id job phase Hj ->. by apply (typed_with_book s), typed_phase. Qed.

Lemma running_typed s id a s' : state_typed s -> apply_running s id = Ok (a, s') -> state_typed s'.
Proof.
  unfold apply_running, book_run. intros Hs Hr. guards.
  destruct (job_phase v0) eqn:Hphase; guards; subst; rewrite ?map_book_id; try done.
  by apply (phased_typed s _ Hs id v0 Running).
Qed.

Lemma verified_typed s id replaying a s' :
  state_typed s -> apply_verified s id replaying = Ok (a, s') -> state_typed s'.
Proof.
  unfold apply_verified. intros Hs Hr. guards.
  destruct (job_result v1) as [[r sig]|] eqn:Hres; guards.
  destruct (bool_decide (job_phase v1 = Verified)); guards; subst; [done|].
  unfold mark_verified in B. guards. rewrite E2 in E0. injection E0 as ->.
  destruct (job_phase v1) eqn:Hphase; guards; subst; rewrite ?map_book_id; try done.
  by apply (phased_typed s _ Hs id v1 Verified).
Qed.

Lemma plaintext_typed s id a s' : state_typed s -> apply_plaintext s id = Ok (a, s') -> state_typed s'.
Proof.
  unfold apply_plaintext. intros Hs Hr. guards.
  destruct (delivered (job_phase v1)) eqn:Hdel; guards; subst; [done|].
  unfold book_release in B. guards. rewrite E2 in E0. injection E0 as ->.
  destruct (job_phase v1) eqn:Hphase; guards; subst; rewrite ?map_book_id; try done;
    by eapply (phased_typed s _ Hs id v1).
Qed.

Lemma alter_as_insert {A} (f : A -> A) (m : gmap Digest A) id a :
  m !! id = Some a -> alter f id m = <[id := f a]> m.
Proof.
  intros Hm. apply map_eq. intros k. destruct (decide (k = id)) as [->|Hk].
  - by rewrite lookup_alter_eq, lookup_insert_eq, Hm.
  - by rewrite lookup_alter_ne, lookup_insert_ne.
Qed.

Lemma result_typed s id r sig transcript meta a s' :
  record_fits (JobResultRecord id r sig transcript) = true -> state_typed s ->
  apply_result s v id r sig transcript meta = Ok (a, s') -> state_typed s'.
Proof.
  intros Hf Hs. cbn [record_fits] in Hf. bool_simpl. unfold apply_result. intros Hr. guards.
  destruct (typed_job _ _ _ Hs E) as [(_ & _ & _ & Hps & Hres0)%job_fields _].
  destruct (job_result v0) as [[held sg]|] eqn:Hres.
  - destruct (_ && bool_decide (job_transcript v0 = transcript)); guards; subst; [done|].
    apply (typed_with_book s); [done|]. unfold with_jobs. rewrite (alter_as_insert _ _ _ _ E).
    apply (typed_update s id v0); try done. cbn [with_transcript job_result]. by rewrite Hres.
  - guards. subst. unfold record_result in B. guards. rewrite E1 in E. injection E as ->.
    assert (forall phase, book_typed (with_jobs <[id := mk_JobState (job_authorization v0)
      (job_work_id v0) (prepared_input v0) (JobBook.client_signature v0)
      (JobBook.provider_signature v0) phase (Some (r, sig)) transcript]> (ch_book s))) as Hb.
    { intros phase. apply (typed_update s id v0); try done. cbn [job_result option_field pair_field fits].
      by apply andb_true_intro. }
    destruct (job_phase v0); guards; subst; by apply (typed_with_book s).
Qed.

Lemma outcome_terminal_fits id phase outcome :
  fits digest_field id = true -> outcome_fits outcome = true ->
  fits terminal_field (mk_JobTerminal id phase outcome) = true.
Proof.
  intros Hid Ho. cbn [terminal_field iso_field pair_field fits terminal_work_id terminal_phase
    terminal_outcome]. rewrite !andb_true_iff. done.
Qed.

Lemma typed_ended s id job phase outcome :
  state_typed s -> jobs s !! id = Some job -> terminals s !! id = None ->
  outcome_fits outcome = true ->
  book_typed (rest_at (ch_book s) (mk_JobTerminal (job_work_id job) phase outcome)).
Proof.
  intros Hs Hj Ht Ho. destruct (typed_job _ _ _ Hs Hj) as [Hf Hid].
  apply (typed_rest _ id job); [apply (st_book _ Hs)|done..|].
  apply outcome_terminal_fits; [|done]. by apply job_fields in Hf as (_ & ? & _).
Qed.

Lemma terminated_typed s id outcome a s' :
  record_fits (JobTerminated id outcome) = true -> state_typed s ->
  apply_terminated s v id outcome = Ok (a, s') -> state_typed s'.
Proof.
  intros Hf Hs. cbn [record_fits] in Hf. apply andb_true_iff in Hf as [_ Ho].
  unfold apply_terminated. intros Hr. destruct (terminals s !! id) eqn:Hterm.
  { guards. by subst. }
  guards. assert (forall phase, book_typed (rest_at (ch_book s)
    (mk_JobTerminal (job_work_id v0) phase outcome))) as Hb by (intros; by eapply typed_ended).
  destruct outcome as [[r sig] certificate binding bsig csig| | | |];
    try (guards; subst; by apply (typed_with_book s)).
  - unfold terminate_certified in Hr. guards.
    destruct (job_result v0) as [[r' sig']|] eqn:Hres; [|done]. guards. simplify_eq.
    unfold paid in *. guards. split; [apply (st_funding _ Hs)| |apply Hb].
    cbn [ch_ledger]. apply credit_payment_total in E0 as (_ & _ & Hcap).
    pose proof (ft_pinned _ (st_funding _ Hs)) as Hp. cbn [forallb] in Hp. bool_simpl.
    by eapply u64_ok_le.
  - guards. destruct (job_result v0) as [[r sig]|]; [|done]. guards. subst. by apply (typed_with_book s).
Qed.

Ltac funding_case Hs :=
  apply (typed_with_funding _ _ Hs); destruct (st_funding _ Hs); split; try done.

Lemma cursor_typed s h parent payload a s' :
  record_fits (CursorAdvanced h parent payload) = true -> state_typed s ->
  apply_cursor s h parent payload = Ok (a, s') -> state_typed s'.
Proof.
  intros Hf Hs. cbn [record_fits] in Hf. bool_simpl. unfold apply_cursor. intros Hr. guards.
  destruct v0; guards; subst; [|done]. funding_case Hs.
  cbn [with_cursor ps_cursor pair_field fits]. by apply andb_true_intro.
Qed.

Lemma start_length_fits start :
  wf PaymentCloseStart_codec start = true ->
  u64_ok (lenN (encode_to PaymentCloseStart_codec start)) = true.
Proof.
  intros Hw. apply encoded_size_max in Hw.
  assert (N.of_nat (MAX_ENCODED_SIZE PaymentCloseStart_codec) <= U64_MAX) by by vm_compute.
  unfold u64_ok. apply N.leb_le. lia.
Qed.

Lemma close_typed s record meta a s' :
  match record with
  | ClosePrepared _ | CloseOpened _ | CloseResponded _ | CloseSettled _ | CloseHistoryAdvanced _ _ => True
  | _ => False
  end ->
  record_fits record = true -> state_typed s -> apply s v record meta = Ok (a, s') -> state_typed s'.
Proof.
  intros Hk Hf Hs Hr. destruct record; try done; cbn [apply record_fits] in *.
  - unfold apply_close_prepared in Hr. destruct (bool_decide _); guards; subst; [done|].
    funding_case Hs. cbn [with_close_prepared close_prepared option_field kernel_field fits].
    apply andb_true_intro. split; [done|]. by apply start_length_fits.
  - unfold apply_close_opened in Hr. destruct (bool_decide _); guards; subst; [done|]. funding_case Hs.
  - unfold apply_close_responded in Hr. destruct (bool_decide _); guards; subst; [done|].
    destruct (answerable_contest s) as [[? ?]|]; [|done]. guards. subst. funding_case Hs.
  - unfold apply_close_settled in Hr. destruct (bool_decide _); guards; subst; [done|]. funding_case Hs.
  - unfold apply_close_history in Hr. inv_ok_step. rewrite (unit_eq v0) in *.
    destruct (bool_decide _); guards; subst; [done|]. funding_case Hs.
Qed.

(** Bodies and marks do not matter to the widths. *)
Lemma restart_typed s s' :
  state_typed s -> strip s' = mark_interrupted (strip s) -> state_typed s'.
Proof.
  intros Hs Heq. pose proof (restart_same_meta s s' Heq) as Hm.
  pose proof (fun id job => same_meta_job s s' id job Hm) as Hjob.
  destruct Hm as (Hf & Hl & _ & Hj & Ht & Hw & Hp).
  apply (f_equal (fun s => indeterminate (ch_book s))) in Heq as Hi.
  cbn [strip mark_interrupted map_book ch_book with_jobs indeterminate book_jobs] in Hi.
  destruct Hs as [Hfu Hle []]. split; [by rewrite Hf|by rewrite Hl|]. split.
  - intros id job' Hj'. destruct (Hjob id job' Hj') as (job & Hl' & Heqj).
    destruct (bt_jobs0 id job Hl') as [Hfit Hid]. rewrite <- Heqj. split; [done|].
    apply (f_equal job_work_id) in Heqj. cbn [strip_job job_work_id] in Heqj. congruence.
  - rewrite Ht. apply bt_terminals0.
  - rewrite Hi. apply (f_equal dom) in Hj. rewrite !dom_fmap_L in Hj. rewrite Hj.
    rewrite <- (dom_fmap_L strip_job (jobs s)). apply dom_filter_subseteq.
  - rewrite Ht, Hw. apply (f_equal size) in Hj. rewrite !map_size_fmap in Hj. by rewrite Hj.
  - by rewrite Hw.
  - by rewrite Hp.
Qed.

Lemma apply_typed s record meta a s' :
  record_fits record = true -> state_typed s -> apply s v record meta = Ok (a, s') -> state_typed s'.
Proof.
  intros Hf Hs Hr. destruct record; try (refine (close_typed s _ meta a s' _ Hf Hs Hr); exact I);
    try (cbn [apply] in Hr; eauto using cursor_typed, proposed_typed, accepted_typed, running_typed,
           result_typed, plaintext_typed, verified_typed, terminated_typed).
  - destruct (ps_origin_observed _); guards; subst; [done|]. funding_case Hs.
  - cbn [record_fits] in Hf. apply rbind_Ok in Hr as (u & _ & Hr).
    apply on_book_Ok in Hr as (b & Hb & ->). apply typed_with_book; [done|].
    eapply exchange_typed; [apply (st_book _ Hs)|done|exact Hb].
Qed.
End fits.
