(* ===== verification/Journal.v ===== *)
(** * The durable journal (crates/channel/src/work_store/journal.rs)

    An append-only journal in one SQLite database: the head row with the identity,
    the generation and the last checkpoint, and the records appended since.  A
    write is one SQLite transaction, and SQLite promises that it commits whole or
    not at all; what a process can see of that is its [Fate].  A cancelled or
    failed write may have committed, so the handle refuses everything until the
    journal is reopened and read again. *)

From S2P Require Import Prelude Xet XetChunk JobBook.

#[local] Open Scope N_scope.

(** ** Data *)

(* [crates/channel/src/work_store/journal.rs:61-68] JournalKind *)
Inductive JournalKind := Journal_Setup | Journal_Channel | Journal_Grant.

(* [crates/channel/src/work_store/journal.rs:84-92] JournalId *)
Record JournalId := mk_JournalId {
  journal_kind : JournalKind;
  journal_role : Role;
  journal_key : bytes;
}.

#[export] Instance JournalKind_eq_dec : EqDecision JournalKind.
Proof. solve_decision. Defined.
#[export] Instance JournalId_eq_dec : EqDecision JournalId.
Proof. solve_decision. Defined.

(** The errors a write or an open decides by itself; [Sqlx] is a statement that
    failed or was cancelled. *)
(* [crates/channel/src/work_store/journal.rs:96-131] JournalError *)
Inductive JournalError :=
  | Missing
  | Sqlx
  | GenerationExhausted
  | HeaderMismatch (kind : JournalKind)
  | RecordTooLarge (len : N)
  | Poisoned
  | CheckpointTooLarge (len : N)
  | JournalFull (frames bytes : N).

Definition MAX_RECORD_BYTES : N := N.shiftl 4 20.
Definition MAX_ACTIVE_JOURNAL_BYTES : N := N.shiftl 64 20.
Definition MAX_ACTIVE_FRAMES : N := 4096.
Definition DUTY_RESERVE_BYTES : N := N.shiftl 16 20.
Definition DUTY_RESERVE_FRAMES : N := 16.
Definition MAX_CHECKPOINT_BYTES : N := MAX_RECORD_BYTES.
Definition I64_MAX : N := 9223372036854775807.

(* [crates/channel/src/work_store/journal.rs:148-153] Replay *)
Record Replay := mk_Replay {
  replay_checkpoint : option bytes;
  replay_records : list bytes;
}.

(** The tables [journal] (one row) and [record]. *)
Record Database := mk_Database {
  db_head : option (JournalId * N);
  db_log : Replay;
}.

(** What becomes of a write: it commits and is reported, it does not commit, or
    it commits and the report is lost. *)
Inductive Fate := Commits | Fails | CommitsUnseen.

(** The database and the fates of the writes to come; past them writes commit. *)
Record Disk := mk_Disk {
  disk_db : Database;
  disk_fates : list Fate;
}.

(* [crates/channel/src/work_store/journal.rs:161-173] Journal *)
Record Journal := mk_Journal {
  connected : bool;
  journal_id : JournalId;
  generation : N;
  record_count : N;
  byte_count : N;
  poisoned : bool;
}.

(** ** Operations *)

Definition write (disk : Disk) (db : Database) : bool * Disk :=
  match disk_fates disk with
  | [] => (true, mk_Disk db [])
  | Commits :: fates => (true, mk_Disk db fates)
  | Fails :: fates => (false, mk_Disk (disk_db disk) fates)
  | CommitsUnseen :: fates => (false, mk_Disk db fates)
  end.

Definition replay_bytes (r : Replay) : N :=
  foldl (fun n bs => n + lenN bs) (match replay_checkpoint r with Some c => lenN c | None => 0 end)
    (replay_records r).

(** Opening takes the lock, connects and migrates; the head row is inserted where
    there is none and the journal may be created. *)
(* [crates/channel/src/work_store/journal.rs:314-373] Journal::open_owned *)
Definition open_owned (disk : Disk) (id : JournalId) (create : bool)
    : result (Journal * Replay) JournalError * Disk :=
  let opened generation (disk : Disk) :=
    let log := db_log (disk_db disk) in
    (Ok (mk_Journal true id generation (lenN (replay_records log)) (replay_bytes log) false, log),
     disk) in
  match db_head (disk_db disk) with
  | Some (found, generation) =>
      if negb (bool_decide (found = id)) then (Err (HeaderMismatch (journal_kind id)), disk)
      else opened generation disk
  | None =>
      if negb create then (Err Missing, disk) else
      let '(committed, disk) := write disk (mk_Database (Some (id, 0)) (db_log (disk_db disk))) in
      if committed then opened 0 disk else (Err Sqlx, disk)
  end.

(* [crates/channel/src/work_store/journal.rs:440-445] Journal::check_authority *)
Definition check_authority (self : Journal) : result unit JournalError :=
  if poisoned self || negb (connected self) then Err Poisoned else Ok tt.

(* [crates/channel/src/work_store/journal.rs:450-455] Journal::close *)
Definition Journal_close (self : Journal) : Journal :=
  mk_Journal false (journal_id self) (generation self) (record_count self) (byte_count self)
    (poisoned self).

(* [crates/channel/src/work_store/journal.rs:470-473] Journal::at_soft_limit_with_frames *)
Definition at_soft_limit_with_frames (self : Journal) (duty_frames : N) : bool :=
  (saturating_sub MAX_ACTIVE_FRAMES duty_frames <=? record_count self)
  || (saturating_sub MAX_ACTIVE_JOURNAL_BYTES DUTY_RESERVE_BYTES <=? byte_count self).

(* [crates/channel/src/work_store/journal.rs:462-464] Journal::at_soft_limit *)
Definition at_soft_limit (self : Journal) : bool :=
  at_soft_limit_with_frames self DUTY_RESERVE_FRAMES.

Definition set_poisoned (self : Journal) : Journal :=
  mk_Journal (connected self) (journal_id self) (generation self) (record_count self)
    (byte_count self) true.

(* [crates/channel/src/work_store/journal.rs:478-525] Journal::rotate *)
Definition Journal_rotate (self : Journal) (checkpoint : bytes) (disk : Disk)
    : result unit JournalError * Journal * Disk :=
  match check_authority self with
  | Err e => (Err e, self, disk)
  | Ok _ =>
      if MAX_CHECKPOINT_BYTES <? lenN checkpoint
      then (Err (CheckpointTooLarge (lenN checkpoint)), self, disk) else
      if I64_MAX <? generation self + 1 then (Err GenerationExhausted, self, disk) else
      let next := generation self + 1 in
      let '(committed, disk) :=
        write disk (mk_Database ((fun '(id, _) => (id, next)) <$> db_head (disk_db disk))
                      (mk_Replay (Some checkpoint) [])) in
      if committed
      then (Ok tt, mk_Journal (connected self) (journal_id self) next 0 (lenN checkpoint) false, disk)
      else (Err Sqlx, set_poisoned self, disk)
  end.

(* [crates/channel/src/work_store/journal.rs:534-565] Journal::append *)
Definition Journal_append (self : Journal) (payload : bytes) (disk : Disk)
    : result unit JournalError * Journal * Disk :=
  match check_authority self with
  | Err e => (Err e, self, disk)
  | Ok _ =>
      let len := lenN payload in
      if MAX_RECORD_BYTES <? len then (Err (RecordTooLarge len), self, disk) else
      if (MAX_ACTIVE_FRAMES <=? record_count self)
         || (MAX_ACTIVE_JOURNAL_BYTES <? saturating_add (byte_count self) len)
      then (Err (JournalFull (record_count self) (byte_count self)), self, disk) else
      let log := db_log (disk_db disk) in
      let '(committed, disk) :=
        write disk (mk_Database (db_head (disk_db disk))
                      (mk_Replay (replay_checkpoint log) (replay_records log ++ [payload]))) in
      if committed
      then (Ok tt, mk_Journal (connected self) (journal_id self) (generation self)
                     (record_count self + 1) (byte_count self + len) false, disk)
      else (Err Sqlx, set_poisoned self, disk)
  end.

(** ** A log with lost acknowledgements *)

Inductive JournalOp := Append (payload : bytes) | Rotate (checkpoint : bytes).

Definition run_op (op : JournalOp) (j : Journal) (disk : Disk)
    : result unit JournalError * Journal * Disk :=
  match op with
  | Append payload => Journal_append j payload disk
  | Rotate checkpoint => Journal_rotate j checkpoint disk
  end.

Definition log_op (op : JournalOp) (log : Replay) : Replay :=
  match op with
  | Append payload => mk_Replay (replay_checkpoint log) (replay_records log ++ [payload])
  | Rotate checkpoint => mk_Replay (Some checkpoint) []
  end.

(** The operations that were acknowledged, as a log. *)
Fixpoint run_ops (ops : list JournalOp) (j : Journal) (disk : Disk) (log : Replay)
    : Journal * Disk * Replay :=
  match ops with
  | [] => (j, disk, log)
  | op :: ops =>
      let '(r, j, disk) := run_op op j disk in
      run_ops ops j disk (match r with Ok _ => log_op op log | Err _ => log end)
  end.

Definition bounded (log : Replay) : Prop :=
  lenN (replay_records log) <= MAX_ACTIVE_FRAMES /\ replay_bytes log <= MAX_ACTIVE_JOURNAL_BYTES.

(** A handle that may write describes its database exactly. *)
Record journal_ok (id : JournalId) (j : Journal) (db : Database) : Prop := {
  ok_head : exists g, db_head db = Some (id, g) /\ (poisoned j = false -> g = generation j);
  ok_bounded : bounded (db_log db);
  ok_count : poisoned j = false ->
    record_count j = lenN (replay_records (db_log db)) /\ byte_count j = replay_bytes (db_log db);
}.

Lemma replay_bytes_snoc c records payload :
  replay_bytes (mk_Replay c (records ++ [payload])) = replay_bytes (mk_Replay c records) + lenN payload.
Proof. unfold replay_bytes. cbn [replay_records replay_checkpoint]. by rewrite foldl_app. Qed.

(** What an operation leaves: it happened, nothing happened, or the handle is
    poisoned and it may have. *)
Definition op_outcome (op : JournalOp) (j j' : Journal) (disk disk' : Disk)
    (r : result unit JournalError) : Prop :=
  match r with
  | Ok _ => poisoned j' = false /\ db_log (disk_db disk') = log_op op (db_log (disk_db disk))
  | Err _ => (j' = j /\ disk' = disk) \/
      (poisoned j = false /\ poisoned j' = true /\
       (db_log (disk_db disk') = db_log (disk_db disk) \/
        db_log (disk_db disk') = log_op op (db_log (disk_db disk))))
  end.

Lemma write_cases disk db ok disk' :
  write disk db = (ok, disk') ->
  (disk_db disk' = db) \/ (ok = false /\ disk_db disk' = disk_db disk).
Proof. unfold write. intros Hw. destruct (disk_fates disk) as [|[] ?]; simplify_eq; eauto. Qed.

Lemma check_authority_Ok j u : check_authority j = Ok u -> poisoned j = false.
Proof. unfold check_authority. by destruct (poisoned j). Qed.

Lemma append_outcome id payload j disk r j' disk' :
  journal_ok id j (disk_db disk) -> Journal_append j payload disk = (r, j', disk') ->
  journal_ok id j' (disk_db disk') /\ op_outcome (Append payload) j j' disk disk' r.
Proof.
  intros Hok. unfold Journal_append.
  destruct (check_authority j) as [u|] eqn:Ha; [|intros; simplify_eq; split; [done|by left]].
  apply check_authority_Ok in Ha as Hp.
  destruct (MAX_RECORD_BYTES <? lenN payload); [intros; simplify_eq; split; [done|by left]|].
  destruct (_ || _) eqn:Hfull; [intros; simplify_eq; split; [done|by left]|].
  destruct Hok as [(g & Hg & Hgen) [Hb1 Hb2] Hc]. destruct (Hc Hp) as [Hc1 Hc2].
  apply orb_false_iff in Hfull as [Hf1 Hf2]. bool_simpl. unfold saturating_add in Hf2.
  destruct (db_log (disk_db disk)) as [c records] eqn:Hlog.
  assert (bounded (mk_Replay c (records ++ [payload]))) as Hb.
  { split; cbn [replay_records]; [rewrite length_app; simpl in *; lia|].
    rewrite replay_bytes_snoc, <- Hc2. assert (MAX_ACTIVE_JOURNAL_BYTES < U64_MAX) by done. lia. }
  destruct (write _ _) as [[] disk1] eqn:Hw; intros; simplify_eq/=;
    apply write_cases in Hw as [Hdb|[? Hdb]]; try done; rewrite Hdb; simpl.
  - split; [|by rewrite Hlog]. split; [eauto|done|]. intros _. simpl.
    rewrite length_app, replay_bytes_snoc, Hc1, Hc2. simpl. split; [lia|done].
  - split; [split; [exists g; by split|done|done]|]. right. rewrite Hlog. eauto.
  - split; [split; [exists g; by split|by rewrite Hlog|done]|]. right. eauto.
Qed.

Lemma rotate_outcome id checkpoint j disk r j' disk' :
  journal_ok id j (disk_db disk) -> Journal_rotate j checkpoint disk = (r, j', disk') ->
  journal_ok id j' (disk_db disk') /\ op_outcome (Rotate checkpoint) j j' disk disk' r.
Proof.
  intros Hok. unfold Journal_rotate.
  destruct (check_authority j) as [u|] eqn:Ha; [|intros; simplify_eq; split; [done|by left]].
  apply check_authority_Ok in Ha as Hp.
  destruct (MAX_CHECKPOINT_BYTES <? lenN checkpoint) eqn:Hlen; [intros; simplify_eq; split; [done|by left]|].
  destruct (I64_MAX <? _); [intros; simplify_eq; split; [done|by left]|].
  destruct Hok as [(g & Hg & Hgen) Hb Hc]. bool_simpl.
  assert (bounded (mk_Replay (Some checkpoint) [])) as Hb'.
  { split; [done|]. unfold replay_bytes. simpl.
    assert (MAX_CHECKPOINT_BYTES < MAX_ACTIVE_JOURNAL_BYTES) by done. lia. }
  destruct (write _ _) as [[] disk1] eqn:Hw; intros; simplify_eq/=;
    apply write_cases in Hw as [Hdb|[? Hdb]]; try done; rewrite Hdb; simpl; rewrite ?Hg; simpl.
  - split; [|done]. split; [eauto|done|done].
  - split; [split; [eexists; by split|done|done]|]. right. eauto.
  - split; [split; [exists g; by split|done|done]|]. right. eauto.
Qed.

Lemma run_op_outcome id op j disk r j' disk' :
  journal_ok id j (disk_db disk) -> run_op op j disk = (r, j', disk') ->
  journal_ok id j' (disk_db disk') /\ op_outcome op j j' disk disk' r.
Proof. destruct op; [apply append_outcome|apply rotate_outcome]. Qed.

(** A poisoned handle writes nothing. *)
Lemma run_ops_poisoned ops j disk log :
  poisoned j = true -> run_ops ops j disk log = (j, disk, log).
Proof.
  intros Hp. revert log. induction ops as [|op ops IH]; intros log; [done|]. cbn [run_ops].
  assert (run_op op j disk = (Err Poisoned, j, disk)) as ->; [|apply IH].
  destruct op; cbn [run_op]; unfold Journal_append, Journal_rotate, check_authority; by rewrite Hp.
Qed.

Lemma run_ops_log id ops j disk log j' disk' log' :
  journal_ok id j (disk_db disk) -> db_log (disk_db disk) = log -> poisoned j = false ->
  run_ops ops j disk log = (j', disk', log') ->
  journal_ok id j' (disk_db disk') /\
  (db_log (disk_db disk') = log' \/
   poisoned j' = true /\ exists op, op ∈ ops /\ db_log (disk_db disk') = log_op op log').
Proof.
  revert j disk log. induction ops as [|op ops IH]; intros j disk log Hok Hlog Hp Hrun; cbn [run_ops] in Hrun.
  { simplify_eq. eauto. }
  destruct (run_op op j disk) as [[r j1] disk1] eqn:Hop.
  destruct (run_op_outcome id op j disk r j1 disk1 Hok Hop) as [Hok1 Hout].
  destruct r as [u|e]; cbn [op_outcome] in Hout.
  - destruct Hout as [Hp1 Hl1]. subst log.
    destruct (IH _ _ _ Hok1 Hl1 Hp1 Hrun) as [? [?|(? & op' & ? & ?)]]; split; eauto.
    right. split; [done|]. exists op'. by split; [right|].
  - destruct Hout as [[-> ->]|(_ & Hp1 & Hcase)].
    + destruct (IH _ _ _ Hok1 Hlog Hp Hrun) as [? [?|(? & op' & ? & ?)]]; split; eauto.
      right. split; [done|]. exists op'. by split; [right|].
    + rewrite run_ops_poisoned in Hrun by done. simplify_eq. split; [done|].
      destruct Hcase as [?|?]; [by left|]. right. split; [done|]. exists op. by split; [left|].
Qed.

(** C34: The journal is a log that may lose one acknowledgement: whatever the fates
    of its writes, a journal created empty and used by one owner replays, when it
    is opened again, exactly the acknowledged appends since the last acknowledged
    rotation, or that and the one write whose report was lost; in the second case
    the handle has refused every write since.  What it replays is within the
    replay bounds. *)
Theorem journal_refines_log id fates ops j replay disk j' disk' log :
  open_owned (mk_Disk (mk_Database None (mk_Replay None [])) fates) id true = (Ok (j, replay), disk) ->
  run_ops ops j disk replay = (j', disk', log) ->
  exists j2 replay', open_owned disk' id false = (Ok (j2, replay'), disk') /\ bounded replay' /\
    (replay' = log \/ poisoned j' = true /\ exists op, op ∈ ops /\ replay' = log_op op log).
Proof.
  unfold open_owned. cbn [db_head disk_db negb db_log]. intros Hopen Hrun.
  destruct (write _ _) as [[] disk0] eqn:Hw; [|done]. simplify_eq.
  apply write_cases in Hw as [Hdb|[? _]]; [|done].
  assert (journal_ok id (mk_Journal true id 0 (lenN (replay_records (db_log (disk_db disk))))
    (replay_bytes (db_log (disk_db disk))) false) (disk_db disk)) as Hok.
  { rewrite Hdb. split; [by eexists|split; done|done]. }
  destruct (run_ops_log _ _ _ _ _ _ _ _ Hok eq_refl eq_refl Hrun) as [[(g & Hg & _) Hb _] Hlog].
  rewrite Hg, bool_decide_true by done. cbn [negb]. eauto 10.
Qed.
