(* ===== verification/ChannelStore.v ===== *)
(** * The channel store (crates/channel/src/work_store/channel/store.rs)

    The durable channel: the live state, the journal it is replayed from, and the
    content a retained job needs.  [commit] checks a record at full strength,
    makes it durable without its bodies, and only then moves the state; [open]
    replays the journal and ends what a deadline already ended.  The upload store
    (crates/channel/src/content.rs) is the interface [Uploads]. *)

From S2P Require Import Prelude Xet XetChunk Canonical Primitive Errors Context Auth Objects Registry.
From S2P Require Import View Store Terms Work PaidWork JobBook JobInput ChannelState ChannelSteps.
From S2P Require Import ChannelInvariant ChannelReplay ChannelCodec ChannelCheckpoint ChannelReopen.
From S2P Require Import Journal ChannelLedger.

#[local] Open Scope N_scope.

(** ** The content a store keeps *)

(* [crates/channel/src/content.rs:25-40] ContentError *)
Inductive ContentError :=
  | ContentInvalid
  | ProposalLimit
  | UploadLimit (limit : N)
  | StagingLimit (limit : N)
  | ContentHash
  | ContentMissing
  | ContentStorage.

Class Uploads := {
  UploadStore : Type;
  InvocationContent : Type;
  uploads_read : UploadStore -> Digest -> ContentRef -> Retention -> result bytes ContentError;
  uploads_root : UploadStore -> Digest -> Digest -> Retention -> result bytes ContentError;
  uploads_retained : UploadStore -> ContentRef -> result bytes ContentError;
  uploads_retained_closure : UploadStore -> Digest -> option (list ContentRef);
  uploads_invocation_content :
    UploadStore -> Digest -> list ContentRef -> Retention -> result InvocationContent ContentError;
  uploads_has_stage : UploadStore -> Digest -> bool;
  uploads_retain : UploadStore -> bytes -> result ContentRef ContentError * UploadStore;
  uploads_publish_accepted :
    UploadStore -> Digest -> bytes -> Retention -> result unit ContentError * UploadStore;
  uploads_stage_complete : UploadStore -> Digest -> ContentRef -> N -> Retention -> N -> bytes ->
    result unit ContentError * UploadStore;
  uploads_gc : UploadStore -> N -> bool -> result unit ContentError * UploadStore;
}.

(* [crates/channel/src/work_store/mod.rs:31-43] WorkStoreError *)
Inductive WorkStoreError :=
  | Content_error (e : ContentError)
  | Journal_error (e : JournalError)
  | Channel_error (e : ChannelStateError).

(** What a record adds to the checkpoint of a state it is committed to. *)
Definition JOB_TAIL_BYTES : N :=
  N.of_nat (2 * (ENCODED_SIZE PaidJobResultV1_record + 64) + ENCODED_SIZE PaymentBindingV1_record
            + EarnedCertificate_ENCODED_SIZE + 4 * 64 + 64 + 33).

(* [crates/channel/src/work_store/channel/codec.rs:13-24] ChannelRecord::checkpoint_tail *)
Definition checkpoint_tail (record : ChannelRecord) : option N :=
  match record with
  | JobProposed _ _ _ => Some JOB_TAIL_BYTES
  | ProposalExchange _ _ | JobAccepted _ _ | JobResultRecord _ _ _ _ | JobTerminated _ _
  | ClosePrepared _ | CloseResponded _ => Some 0
  | _ => None
  end.

(* [crates/channel/src/work_store/channel/codec.rs:35-37] ChannelRecord::is_new_work *)
Definition is_new_work (record : ChannelRecord) : bool :=
  match record with JobProposed _ _ _ => true | _ => false end.

(* [crates/channel/src/work_close.rs:937-1010] expiry_at *)
Definition expiry_of (state : Channel) (height : N) (job : JobState) : option N :=
  let a := job_authorization job in
  match ch_role state with
  | Provider =>
      if payment_deadline a <? height then Some (payment_deadline a)
      else if (terminal_deadline a <? height) && negb (is_some (job_result job))
      then Some (terminal_deadline a)
      else if (acceptance_deadline a <? height) && bool_decide (job_phase job = HalfSigned)
      then Some (acceptance_deadline a) else None
  | Client =>
      if (terminal_deadline a <? height) && negb (is_some (job_result job))
         && match job_phase job with
            | HalfSigned | Accepted | Running | Streaming => true
            | _ => false
            end
      then Some (terminal_deadline a)
      else if (acceptance_deadline a <? height) && bool_decide (job_phase job = HalfSigned)
              && match prepared_input job with [] => true | _ => false end
      then Some (acceptance_deadline a)
      else if (payment_deadline a <? height) && is_some (job_result job)
              && negb (is_some (payment state (job_work_id job)))
      then Some (payment_deadline a) else None
  end.

Definition expiry_at (state : Channel) (height : N) (payload : bytes)
    : list (Digest * TerminalOutcome) :=
  omap (fun job => deadline ← expiry_of state height job;
                   Some (job_work_id job, Expired deadline height payload))
    (btree_values (book_jobs (ch_book state))).

Section store.
  Context `{Blake3} `{Gearhash} `{Invocations} `{Uploads} (verifier : SigVerifier).

(* [crates/channel/src/work_store/channel/store.rs:7-12] ChannelStore *)
Record ChannelStore := mk_ChannelStore {
  st_journal : Journal;
  st_state : Channel;
  st_contents : gmap Digest InvocationContent;
  st_uploads : UploadStore;
  st_disk : Disk;
}.

(** ** Effects *)

Definition Act (A : Type) : Type := ChannelStore -> result A WorkStoreError * ChannelStore.

Definition act_ret {A} (a : A) : Act A := fun st => (Ok a, st).
Definition act_bind {A B} (m : Act A) (k : A -> Act B) : Act B := fun st =>
  match m st with (Ok a, st) => k a st | (Err e, st) => (Err e, st) end.
Definition act_get {A} (f : ChannelStore -> A) : Act A := fun st => (Ok (f st), st).
Definition act_lift {A E} (err : E -> WorkStoreError) (r : result A E) : Act A := fun st =>
  (map_err err r, st).
#[local] Notation "'do!' x := m 'in' k" := (act_bind m (fun x => k))
  (at level 10, x name, m at level 100, k at level 200).
#[local] Notation "'do!' ' x := m 'in' k" := (act_bind m (fun x => k))
  (at level 10, x strict pattern, m at level 100, k at level 200).

(** A fallible step of the upload store. *)
Definition act_uploads {A} (f : UploadStore -> result A ContentError * UploadStore) : Act A := fun st =>
  let '(r, uploads) := f (st_uploads st) in
  (map_err Content_error r,
   mk_ChannelStore (st_journal st) (st_state st) (st_contents st) uploads (st_disk st)).

Definition act_journal (f : Journal -> Disk -> result unit JournalError * Journal * Disk)
    : Act (result unit JournalError) := fun st =>
  let '(r, journal, disk) := f (st_journal st) (st_disk st) in
  (Ok r, mk_ChannelStore journal (st_state st) (st_contents st) (st_uploads st) disk).

Fixpoint act_each {A} (f : A -> Act unit) (l : list A) : Act unit :=
  match l with
  | [] => act_ret tt
  | a :: l => do! _ := f a in act_each f l
  end.

(** ** Commit *)

(* [crates/channel/src/work_store/channel/store.rs:531-550] ChannelStore::promote_accepted_content *)
Definition promote_accepted_content : Act unit :=
  do! state := act_get st_state in
  act_each (fun job =>
    do! uploads := act_get st_uploads in
    if bool_decide (retention (job_authorization job) = Retain)
       && is_some (JobBook.provider_signature job) && uploads_has_stage uploads (job_work_id job)
    then
      do! bs := act_lift Content_error
        (uploads_read uploads (job_work_id job) (input_content (job_authorization job)) Retain) in
      act_uploads (fun u => uploads_publish_accepted u (job_work_id job) bs Retain)
    else act_ret tt) (btree_values (book_jobs (ch_book state))).

(* [crates/channel/src/work_store/channel/store.rs:552-561] ChannelStore::gc_uploads *)
Definition gc_uploads : Act unit :=
  do! _ := promote_accepted_content in
  do! state := act_get st_state in
  let funding := ch_funding state in
  act_uploads (fun u => uploads_gc u (ps_cursor funding).1
    (is_some (close_prepared funding) || is_some (close_opened funding)
     || is_some (close_settled funding))).

(* [crates/channel/src/work_store/channel/store.rs:576-581] ChannelStore::rotate *)
Definition rotate : Act unit :=
  do! state := act_get st_state in
  do! r := act_journal (fun j => Journal_rotate j (checkpoint_inner state true)) in
  act_lift Journal_error r.

(* [crates/channel/src/work_store/channel/store.rs:590-603] ChannelStore::rotate_if_full *)
Definition rotate_if_full (new_work : bool) : Act unit :=
  do! journal := act_get st_journal in
  if negb (at_soft_limit journal) then act_ret tt else
  do! state := act_get st_state in
  do! r := act_journal (fun j => Journal_rotate j (checkpoint_inner state true)) in
  match r with
  | Ok _ => act_ret tt
  | Err e => if new_work then act_lift Journal_error (Err e) else act_ret tt
  end.

(** A proposal's input is kept where a restart finds it. *)
(* [crates/channel/src/work_store/channel/store.rs:461-491] ChannelStore::commit *)
Definition retain_input (next : Channel) (record : ChannelRecord) : Act unit :=
  match record with
  | JobProposed authorization _ prepared_input =>
      if bool_decide (retention authorization = Retain) then
        if bool_decide (ch_role next = Client) then
          do! _ := act_uploads (fun u => uploads_retain u prepared_input) in act_ret tt
        else
        do! input := act_lift Channel_error (paid (prepared_from_canonical_bytes prepared_input)) in
        do! policy := act_lift Channel_error
                        (paid (policy_from_canonical_bytes (application_policy input))) in
        act_uploads (fun u => uploads_stage_complete u
          (work_id (ps_channel (ch_funding next)) authorization) (input_content authorization)
          (acceptance_deadline authorization) (retention authorization)
          (policy_max_upload_bytes policy) prepared_input)
      else act_ret tt
  | _ => act_ret tt
  end.

(** The exact signed transcript, before its reference becomes durable. *)
(* [crates/channel/src/work_store/channel/store.rs:492-507] ChannelStore::commit *)
Definition retain_transcript (next : Channel) (record : ChannelRecord) : Act unit :=
  match record with
  | JobResultRecord id r _ transcript =>
      do! job := act_lift Channel_error (ok_or (book_jobs (ch_book next) !! id) Malformed) in
      if bool_decide (retention (job_authorization job) = Retain) then
        do! kept := act_uploads (fun u => uploads_retain u transcript) in
        if negb (bool_decide (kept = transcript_content r))
        then act_lift Content_error (Err ContentHash) else act_ret tt
      else act_ret tt
  | _ => act_ret tt
  end.

(** The new state, with the content of the jobs still open. *)
Definition install (next : Channel) : Act unit := fun st =>
  (Ok tt, mk_ChannelStore (st_journal st) next
            (filter (fun '(id, _) => is_Some (book_jobs (ch_book next) !! id)) (st_contents st))
            (st_uploads st) (st_disk st)).

(* [crates/channel/src/work_store/channel/store.rs:511-521] ChannelStore::commit *)
Definition publish_accepted (next : Channel) (record : ChannelRecord) : Act unit :=
  match record with
  | JobAccepted id _ =>
      do! job := act_lift Channel_error (ok_or (book_jobs (ch_book next) !! id) Malformed) in
      act_uploads (fun u => uploads_publish_accepted u id (prepared_input job)
                              (retention (job_authorization job)))
  | _ => act_ret tt
  end.

(** The state a rotation would have to carry, the fixed tail of a new job included. *)
Definition checkpoint_fits (next : Channel) (record : ChannelRecord) : Act unit :=
  match checkpoint_tail record with
  | None => act_ret tt
  | Some tail =>
      let len := saturating_add (lenN (checkpoint_inner next true)) tail in
      if MAX_CHECKPOINT_BYTES <? len then act_lift Journal_error (Err (CheckpointTooLarge len))
      else act_ret tt
  end.

(* [crates/channel/src/work_store/channel/store.rs:427-529] ChannelStore::commit *)
Definition commit (record : ChannelRecord) : Act unit :=
  do! _ := promote_accepted_content in
  do! state := act_get st_state in
  if is_redundant state record then act_ret tt else
  let previous_jobs := length (btree_values (book_jobs (ch_book state))) in
  do! '(applied, next) := act_lift Channel_error (apply state verifier record false) in
  do! _ :=
    match applied with
    | Redundant => act_ret tt
    | Changed =>
        do! _ := checkpoint_fits next record in
        do! _ := rotate_if_full (is_new_work record) in
        do! _ := retain_input next record in
        do! _ := retain_transcript next record in
        do! r := act_journal (fun j => Journal_append j (encode_inner record true)) in
        do! _ := act_lift Journal_error r in
        do! _ := install next in
        do! _ := publish_accepted next record in
        if (length (btree_values (book_jobs (ch_book next))) <? previous_jobs)%nat then rotate
        else act_ret tt
    end in
  gc_uploads.

(** ** Open *)

(** The state a journal replays to. *)
(* [crates/channel/src/work_store/channel/store.rs:112-119] ChannelStore::open_inner *)
Definition replay_log (channel : PaidChannel) (settlement : WorkPaymentSettlement) (role : Role)
    (origin : N * bytes) (replay : Replay) : result Channel ChannelStateError :=
  let? state :=
    match replay_checkpoint replay with
    | Some bs => from_checkpoint bs channel settlement role verifier
    | None => Ok (Channel_new channel settlement role origin.1 origin.2)
    end in
  rfold (fun state bs =>
    let? record := ChannelRecord_decode bs in
    let? '(_, state) := apply state verifier record true in
    Ok state) state (replay_records replay).

(** The bodies a retained job had are read back from the upload store. *)
(* [crates/channel/src/work_store/channel/store.rs:121-141] ChannelStore::open_inner *)
Definition recover_job (job : JobState) (uploads : UploadStore)
    : result JobState ContentError * UploadStore :=
  let a := job_authorization job in
  if negb (bool_decide (retention a = Retain)) then (Ok job, uploads) else
  match uploads_read uploads (job_work_id job) (input_content a) Retain with
  | Err ContentMissing =>
      if bool_decide (job_phase job = HalfSigned) then (Ok job, uploads)
      else (Err ContentMissing, uploads)
  | Err e => (Err e, uploads)
  | Ok input =>
      let '(published, uploads) :=
        if is_some (JobBook.provider_signature job)
        then uploads_publish_accepted uploads (job_work_id job) input Retain
        else (Ok tt, uploads) in
      match published with
      | Err e => (Err e, uploads)
      | Ok _ =>
          match job_result job with
          | None => (Ok (mk_JobState a (job_work_id job) input (JobBook.client_signature job)
                           (JobBook.provider_signature job) (job_phase job) (job_result job)
                           (job_transcript job)), uploads)
          | Some (r, _) =>
              match uploads_retained uploads (transcript_content r) with
              | Err e => (Err e, uploads)
              | Ok transcript =>
                  (Ok (mk_JobState a (job_work_id job) input (JobBook.client_signature job)
                         (JobBook.provider_signature job) (job_phase job) (job_result job)
                         transcript), uploads)
              end
          end
      end
  end.

Fixpoint recover_jobs (l : list (Digest * JobState)) (jobs : gmap Digest JobState)
    (uploads : UploadStore) : result (gmap Digest JobState) ContentError * UploadStore :=
  match l with
  | [] => (Ok jobs, uploads)
  | (id, job) :: l =>
      match recover_job job uploads with
      | (Ok job, uploads) => recover_jobs l (<[id := job]> jobs) uploads
      | (Err e, uploads) => (Err e, uploads)
      end
  end.

(* [crates/channel/src/work_store/channel/store.rs:236-304] ChannelStore::recoverable_content *)
Definition recoverable_content (state : Channel) (uploads : UploadStore) (work : Digest)
    : result (option InvocationContent) WorkStoreError :=
  match book_jobs (ch_book state) !! work with
  | None => Ok None
  | Some job =>
      if negb (bool_decide (retention (job_authorization job) = Retain))
         || match prepared_input job with [] => true | _ => false end
      then Ok None else
      let? input := map_err Channel_error (paid (prepared_from_canonical_bytes (prepared_input job))) in
      let? manifest := map_err Channel_error (paid (manifest input)) in
      let? policy := map_err Channel_error
                       (paid (policy_from_canonical_bytes (application_policy input))) in
      match uploads_retained_closure uploads work with
      | None => Ok None
      | Some retained =>
          let? root :=
            match policy_content_closure policy manifest [] with
            | Ok _ => Ok (Some [])
            | Err _ =>
                match uploads_root uploads work (manifest_root manifest) Retain with
                | Ok [] | Err ContentMissing => Ok None
                | Ok root => Ok (Some root)
                | Err e => Err (Content_error e)
                end
            end in
          match root with
          | None => Ok None
          | Some root =>
              match content_closure policy manifest root (input_content (job_authorization job)) with
              | Err _ => Ok None
              | Ok objects =>
                  if existsb (fun object => negb (bool_decide (object ∈ objects))) retained
                  then Ok None else
                  match uploads_invocation_content uploads work retained Retain with
                  | Ok content => Ok (Some content)
                  | Err ContentMissing => Ok None
                  | Err e => Err (Content_error e)
                  end
              end
          end
      end
  end.

(* [crates/channel/src/work_store/channel/store.rs:352-379] ChannelStore::release_unresumable_proposal *)
Definition release_unresumable_proposal : Act unit :=
  do! state := act_get st_state in
  do! uploads := act_get st_uploads in
  if negb (bool_decide (ch_role state = Client)) then act_ret tt else
  match pending_proposal (ch_book state) with
  | None => act_ret tt
  | Some work =>
      match book_jobs (ch_book state) !! work with
      | None => act_ret tt
      | Some job =>
          if negb (bool_decide (job_phase job = HalfSigned)) then act_ret tt else
          do! resumable :=
            match prepared_input job with
            | [] => act_ret false
            | _ :: _ =>
                do! content := act_lift id (recoverable_content state uploads work) in
                act_ret (is_some content)
            end in
          if (resumable : bool) then act_ret tt else commit (ProposalExchange work false)
      end
  end.

(* [crates/channel/src/work_store/channel/store.rs:624-629] channel_key *)
Definition channel_key (channel : PaidChannel) : Digest :=
  xfh (domain "hellas.work.channel-journal-key.v1") [Digest_bytes (channel_id channel)].

(* [crates/channel/src/work_store/setup.rs:341-350] SetupOrigin *)
Record SetupOrigin := mk_SetupOrigin {
  origin_payment_edge : EdgeId;
  origin_height : N;
  origin_payload : bytes;
  origin_parent : bytes;
}.

(** The store a journal replays to, before the deadlines it slept through. *)
(* [crates/channel/src/work_store/channel/store.rs:93-155] ChannelStore::open_inner *)
Definition recover (disk : Disk) (uploads : UploadStore) (channel : PaidChannel)
    (settlement : WorkPaymentSettlement) (role : Role) (origin : SetupOrigin) (existing : bool)
    : result ChannelStore WorkStoreError * Disk :=
  if negb (bool_decide (origin_payment_edge origin = channel_payment_edge channel))
  then (Err (Channel_error (WrongChannel "setup origin payment_edge")), disk) else
  let id := mk_JournalId Journal_Channel role (Digest_bytes (channel_key channel)) in
  match open_owned disk id (negb existing) with
  | (Err e, disk) => (Err (Journal_error e), disk)
  | (Ok (journal, replay), disk) =>
      match replay_log channel settlement role (origin_height origin, origin_payload origin) replay with
      | Err e => (Err (Channel_error e), disk)
      | Ok state =>
          match recover_jobs (btree_items (book_jobs (ch_book state))) (book_jobs (ch_book state))
                  uploads with
          | (Err e, _) => (Err (Content_error e), disk)
          | (Ok jobs, uploads) =>
              (Ok (mk_ChannelStore journal
                     (mark_interrupted (map_book (with_jobs (fun _ => jobs)) state)) ∅ uploads disk),
               disk)
          end
      end
  end.

(* [crates/channel/src/work_store/channel/store.rs:156-174] ChannelStore::open_inner *)
Definition resume : Act unit :=
  do! state := act_get st_state in
  let '(height, payload) := ps_cursor (ch_funding state) in
  do! _ := act_each (fun '(work_id, outcome) => commit (JobTerminated work_id outcome))
             (expiry_at state height payload) in
  do! _ := release_unresumable_proposal in
  gc_uploads.

(* [crates/channel/src/work_store/channel/store.rs:82-92] ChannelStore::open_inner *)
Definition open_inner (disk : Disk) (uploads : UploadStore) (channel : PaidChannel)
    (settlement : WorkPaymentSettlement) (role : Role) (origin : SetupOrigin) (existing : bool)
    : result ChannelStore WorkStoreError * Disk :=
  match recover disk uploads channel settlement role origin existing with
  | (Err e, disk) => (Err e, disk)
  | (Ok st, _) =>
      match resume st with
      | (Ok _, st) => (Ok st, st_disk st)
      | (Err e, st) => (Err e, st_disk st)
      end
  end.
End store.
