(* ===== verification/ChannelDurable.v ===== *)
(** * Durability of the channel store

    The journal a store writes always replays to the state the store holds, or,
    after a write whose outcome the store could not see, to that state or the one
    the record led to.  So a store that opens again holds one of the two, with its
    interrupted invocations marked and the deadlines it slept through applied. *)

From stdpp Require Import sorting.
From S2P Require Import Prelude Xet XetChunk Canonical Primitive Errors Context Auth Objects Registry.
From S2P Require Import View Store Terms Work PaidWork JobBook JobInput ChannelState ChannelSteps.
From S2P Require Import ChannelInvariant ChannelReplay ChannelCodec ChannelCheckpoint ChannelReopen.
From S2P Require Import Journal ChannelLedger ChannelFits ChannelStore.

#[local] Open Scope N_scope.

Lemma rfold_app {A S E} (f : S -> A -> result S E) s l1 l2 :
  rfold f s (l1 ++ l2) = let? s := rfold f s l1 in rfold f s l2.
Proof.
  revert s. induction l1 as [|a l1 IH]; intros s; [done|]. cbn [rfold app].
  destruct (f s a) as [s'|]; [apply IH|done].
Qed.

(** ** Values a query ignores *)

Lemma StronglySorted_filter {A} (R : relation A) (P : A -> Prop) `{!forall x, Decision (P x)} l :
  StronglySorted R l -> StronglySorted R (filter P l).
Proof.
  induction 1 as [|a l Hs IH Hall]; [constructor|]. rewrite filter_cons. case_decide; [|done].
  constructor; [done|]. rewrite Forall_forall in *. intros x [_ Hx]%list_elem_of_filter. by apply Hall.
Qed.

(** A new entry that a query drops does not change what the query lists. *)
Lemma btree_omap_insert {A B} (f : A -> option B) (m : gmap Digest A) k a :
  m !! k = None -> f a = None -> omap f (btree_values (<[k := a]> m)) = omap f (btree_values m).
Proof.
  intros Hk Ha. set (P := fun x : Digest * A => is_Some (f x.2)).
  assert (forall l : list (Digest * A), omap f l.*2 = omap f (filter P l).*2) as Hf.
  { intros l. induction l as [|[i x] l IH]; [done|]. rewrite filter_cons. unfold P. cbn [snd].
    case_decide as Hd; cbn [fmap list_fmap omap list_omap snd]; rewrite IH; [done|].
    by apply eq_None_not_Some in Hd as ->. }
  unfold btree_values. change (map snd) with (fmap (M := list) (snd (A := Digest) (B := A))).
  rewrite (Hf (btree_items (<[k := a]> m))), (Hf (btree_items m)). do 2 f_equal.
  assert (filter P (btree_items (<[k := a]> m)) ≡ₚ filter P (btree_items m)) as Hp.
  { unfold btree_items. rewrite !sort_by_id_perm, map_to_list_insert by done.
    rewrite filter_cons_False; [done|]. unfold P. cbn [snd]. rewrite Ha. by intros []. }
  apply (StronglySorted_unique_strong (id_le Digest_bytes));
    [|apply StronglySorted_filter, sort_by_id_sorted..|done].
  intros [i x] [j y] Hx Hy Hxy Hyx. rewrite <- Hp in Hy. apply list_elem_of_filter in Hx as [_ Hx], Hy as [_ Hy].
  unfold id_le in *. cbn [fst] in *. assert (i = j) as -> by (destruct i, j; f_equal; by apply bytes_le_antisym).
  apply elem_of_btree_items in Hx, Hy. congruence.
Qed.

(** A retained close start names the certificate the journal holds, so a
    checkpoint of the state can be opened. *)
Definition rotatable (s : Channel) : Prop :=
  forall start, close_prepared (ch_funding s) = Some start -> check_close_start s start = Ok tt.

Section durable.
  Context `{Blake3} `{Gearhash} `{Invocations} `{Uploads} (v : SigVerifier).
  Context (c : PaidChannel) (settlement : WorkPaymentSettlement) (role : Role) (origin : N * bytes).

(** ** Interruption marks *)

(** A marked job is one an earlier process left running. *)
Definition marks_ok (s : Channel) : Prop :=
  forall id, id ∈ indeterminate (ch_book s) ->
  exists job, jobs s !! id = Some job /\ interrupted job = true.

Lemma marks_insert (s : Channel) id (job' : JobState) (m : gmap Digest JobState) :
  marks_ok s -> m = <[id := job']> (jobs s) ->
  (id ∈ indeterminate (ch_book s) -> interrupted job' = true) ->
  forall i, i ∈ indeterminate (ch_book s) -> exists job, m !! i = Some job /\ interrupted job = true.
Proof.
  intros Hm -> Hj i Hi. destruct (decide (i = id)) as [->|Hne].
  - exists job'. rewrite lookup_insert_eq. auto.
  - rewrite lookup_insert_ne by done. by apply Hm.
Qed.

Lemma marked_interrupted s id job :
  marks_ok s -> jobs s !! id = Some job -> id ∈ indeterminate (ch_book s) -> interrupted job = true.
Proof. intros Hm Hj (j & Hj' & Hi)%Hm. congruence. Qed.

Lemma marks_rest s t :
  marks_ok s -> forall i, i ∈ indeterminate (rest_at (ch_book s) t) ->
  exists job, book_jobs (rest_at (ch_book s) t) !! i = Some job /\ interrupted job = true.
Proof.
  intros Hm i. unfold rest_at. cbn [indeterminate book_jobs].
  intros [Hi Hne%not_elem_of_singleton]%elem_of_difference. rewrite lookup_delete_ne by done. by apply Hm.
Qed.

Lemma step_marks s s' : step v s s' -> marks_ok s -> marks_ok s'.
Proof.
  intros Hstep Hm. pose proof (marked_interrupted s) as Hint.
  destruct Hstep; try done; intros i Hi;
    cbn [map_book ch_book with_jobs with_pending indeterminate book_jobs] in *.
  - eapply (marks_insert s); [done|done| |done]. intros Hmark.
    destruct (Hm _ Hmark) as (j & Hj & _). congruence.
  - eapply (marks_insert s); [done|done| |done]. intros Hmark.
    specialize (Hint _ _ Hm ltac:(done) Hmark). unfold interrupted in Hint. by destruct (job_phase job).
  - eapply (marks_insert s); [done|done| |done]. intros Hmark.
    specialize (Hint _ _ Hm ltac:(done) Hmark). unfold interrupted in *.
    cbn [with_phase job_phase].
    by destruct H4 as [(Hp & -> & _)|[([[Hp ->]|[Hp ->]] & _)|(Hp & -> & _)]]; rewrite Hp in Hint.
  - eapply (marks_insert s); done.
  - destruct (Hm i Hi) as (j & Hj & Hij). destruct (decide (i = id)) as [->|Hne].
    + rewrite lookup_alter_eq, Hj. eauto.
    + rewrite lookup_alter_ne by done. eauto.
  - by apply (marks_rest s _ Hm).
  - by apply (marks_rest s _ Hm).
Qed.

Lemma reachable_marks s : reachable v c settlement role s -> marks_ok s.
Proof.
  induction 1 as [h payload _|s record meta a s' _ IH Hr|s id input s' _ IH Hr|s s' _ _ Heq].
  - intros id Hid. set_solver.
  - eauto using step_marks, apply_step.
  - unfold restore_client_input in Hr. inv_ok. subst. intros i Hi.
    cbn [map_book ch_book with_jobs indeterminate book_jobs] in *.
    destruct (IH i Hi) as (j & Hj & Hij). destruct (decide (i = id)) as [->|Hne].
    + rewrite lookup_alter_eq, Hj. eauto.
    + rewrite lookup_alter_ne by done. eauto.
  - pose proof (restart_same_meta s s' Heq) as (_ & _ & _ & Hj & _).
    apply (f_equal (fun s => indeterminate (ch_book s))) in Heq.
    cbn [strip mark_interrupted map_book ch_book with_jobs indeterminate book_jobs] in Heq.
    intros i Hi. rewrite Heq, <- Hj in Hi. apply elem_of_dom in Hi as [j [Hl Hint]%map_lookup_filter_Some].
    rewrite lookup_fmap in Hl. apply fmap_Some in Hl as (j' & Hl & ->). eauto.
Qed.

(** ** What a log replays to *)

Definition holds (log : Replay) (s : Channel) : Prop :=
  exists ind, ind ⊆ indeterminate (ch_book s) /\
    replay_log v c settlement role origin log = Ok (replayed s ind).

Lemma holds_new : holds (mk_Replay None []) (Channel_new c settlement role origin.1 origin.2).
Proof. by exists ∅. Qed.

Lemma holds_append log s record a s' :
  holds log s -> record_fits record = true -> apply s v record false = Ok (a, s') ->
  holds (log_op (Append (encode_inner record true)) log) s'.
Proof.
  intros (ind & Hind & Hl) Hf Hr. destruct (replay_record v _ _ _ _ Hr ind Hind) as (a' & ind' & Hind' & Hr').
  exists ind'. split; [done|]. cbn [log_op]. unfold replay_log in *. cbn [replay_checkpoint replay_records].
  destruct (match replay_checkpoint log with Some _ => _ | None => _ end) as [s0|]; [|done].
  cbn [rbind] in *. rewrite rfold_app, Hl. cbn [rbind rfold].
  rewrite (stored_record_decodes _ Hf). cbn [rbind]. by rewrite Hr'.
Qed.

Lemma strip_replayed s : strip s = replayed s (indeterminate (ch_book s)).
Proof. done. Qed.

Lemma holds_rotate log s :
  reachable v c settlement role s -> state_typed s -> rotatable s ->
  holds (log_op (Rotate (checkpoint_inner s true)) log) s.
Proof.
  intros Hr Ht Hrot. exists (indeterminate (ch_book s)). split; [done|].
  unfold replay_log. cbn [log_op replay_checkpoint replay_records].
  rewrite (checkpoint_reopens_eq v _ _ _ _ Hr (state_typed_fits _ Ht)).
  assert (match close_prepared (ch_funding s) with
          | Some start => check_close_start s start | None => Ok tt end = Ok tt) as ->.
  { destruct (close_prepared (ch_funding s)) eqn:E; [by apply Hrot|done]. }
  cbn [rbind rfold]. by rewrite strip_replayed.
Qed.

(** ** Steps that leave the journal alone *)

Definition same_store (st st' : ChannelStore) : Prop :=
  st_journal st' = st_journal st /\ st_state st' = st_state st /\ st_disk st' = st_disk st.

Definition content_only {A} (m : Act A) : Prop :=
  forall st r st', m st = (r, st') -> same_store st st'.

Lemma content_ret {A} (a : A) : content_only (act_ret a).
Proof. intros st r st' [= <- <-]. done. Qed.
Lemma content_get {A} (f : ChannelStore -> A) : content_only (act_get f).
Proof. intros st r st' [= <- <-]. done. Qed.
Lemma content_lift {A E} (err : E -> WorkStoreError) (r : result A E) : content_only (act_lift err r).
Proof. intros st r' st' [= <- <-]. done. Qed.
Lemma content_uploads {A} (f : UploadStore -> result A ContentError * UploadStore) :
  content_only (act_uploads f).
Proof. intros st r st' Hm. unfold act_uploads in Hm. destruct (f _). by simplify_eq. Qed.
Lemma content_bind {A B} (m : Act A) (k : A -> Act B) :
  content_only m -> (forall a, content_only (k a)) -> content_only (act_bind m k).
Proof.
  intros Hm Hk st r st'. unfold act_bind. destruct (m st) as [[a|e] st1] eqn:E.
  - intros Hr. apply Hm in E as (E1 & E2 & E3). apply Hk in Hr as (F1 & F2 & F3).
    unfold same_store. by rewrite F1, F2, F3, E1, E2, E3.
  - intros [= <- <-]. by apply Hm in E.
Qed.
Lemma content_each {A} (f : A -> Act unit) l :
  (forall a, content_only (f a)) -> content_only (act_each f l).
Proof.
  intros Hf. induction l as [|a l IH]; [apply content_ret|]. cbn [act_each]. by apply content_bind.
Qed.

Create HintDb content.
#[local] Hint Resolve content_ret content_get content_lift content_uploads content_bind content_each
  : content.

Ltac content :=
  repeat first [ done | solve [eauto with content] | apply content_bind; [|intros ?]
               | apply content_each; intros ? | case_match | progress cbv zeta ].

Lemma content_promote : content_only promote_accepted_content.
Proof. unfold promote_accepted_content. content. Qed.
Lemma content_gc : content_only gc_uploads.
Proof. unfold gc_uploads. content. Qed.
Lemma content_fits next record : content_only (checkpoint_fits next record).
Proof. unfold checkpoint_fits. content. Qed.
Lemma content_input next record : content_only (retain_input next record).
Proof. unfold retain_input. content. Qed.
Lemma content_transcript next record : content_only (retain_transcript next record).
Proof. unfold retain_transcript. content. Qed.
Lemma content_publish next record : content_only (publish_accepted next record).
Proof. unfold publish_accepted. content. Qed.

(** ** The store invariant *)

(** The state on disk is the one held, or one record ahead of it. *)
Definition near (s sd : Channel) : Prop :=
  sd = s \/ exists record, record_fits record = true /\ apply s v record false = Ok (Changed, sd).

Definition store_log (st : ChannelStore) : Replay := db_log (disk_db (st_disk st)).
Definition store_poisoned (st : ChannelStore) : bool := poisoned (st_journal st).
Definition store_id : JournalId :=
  mk_JournalId Journal_Channel role (Digest_bytes (channel_key c)).

Record store_ok (st : ChannelStore) : Prop := {
  so_reach : reachable v c settlement role (st_state st);
  so_typed : state_typed (st_state st);
  so_journal : journal_ok store_id (st_journal st) (disk_db (st_disk st));
  so_live : store_poisoned st = false -> holds (store_log st) (st_state st);
  so_disk : exists sd, holds (store_log st) sd /\ near (st_state st) sd;
}.

Lemma same_store_ok st st' : same_store st st' -> store_ok st -> store_ok st'.
Proof.
  intros (Hj & Hs & Hd) []. split; unfold store_log, store_poisoned in *; by rewrite ?Hj, ?Hs, ?Hd.
Qed.

(** What holds after a step, whether it succeeded or not. *)
Definition hoare {A} (P : ChannelStore -> Prop) (m : Act A) (Q : A -> ChannelStore -> Prop)
    (E : ChannelStore -> Prop) : Prop :=
  forall st r st', P st -> m st = (r, st') -> match r with Ok a => Q a st' | Err _ => E st' end.

Lemma hoare_bind {A B} P (m : Act A) Q (k : A -> Act B) R E :
  hoare P m Q E -> (forall a, hoare (Q a) (k a) R E) -> hoare P (act_bind m k) R E.
Proof.
  intros Hm Hk st r st' HP. unfold act_bind. destruct (m st) as [[a|e] st1] eqn:Em.
  - apply (Hm _ _ _ HP) in Em. by apply (Hk a).
  - intros [= <- <-]. by apply (Hm _ _ _ HP) in Em.
Qed.

Lemma hoare_ret {A} P (a : A) (Q : A -> ChannelStore -> Prop) (E : ChannelStore -> Prop) :
  (forall st, P st -> Q a st) -> hoare P (act_ret a) Q E.
Proof. intros HQ st r st' HP [= <- <-]. by apply HQ. Qed.

(** The store holds [s], and is sound. *)
Definition at_state (s : Channel) (st : ChannelStore) : Prop := store_ok st /\ st_state st = s.

Lemma hoare_content {A} (m : Act A) (P E : ChannelStore -> Prop) :
  content_only m -> (forall st st', same_store st st' -> P st -> P st') ->
  (forall st, P st -> E st) -> hoare P m (fun _ => P) E.
Proof.
  intros Hm HP HE st r st' Hst Hr. apply Hm in Hr. destruct r; [by eapply HP|]. by eapply HE, HP.
Qed.

Lemma at_state_same s st st' : same_store st st' -> at_state s st -> at_state s st'.
Proof.
  intros Hs [Hok Heq]. split; [by eapply same_store_ok|]. destruct Hs as (_ & -> & _). done.
Qed.

(** ** Journal steps *)

(** A rotation of the state held. *)
Lemma hoare_rotate s :
  rotatable s ->
  hoare (at_state s) (act_journal (fun j => Journal_rotate j (checkpoint_inner s true)))
    (fun r st => at_state s st /\ (forall u, r = Ok u -> store_poisoned st = false)) (at_state s).
Proof.
  intros Hrot st r st' [Hok Heq] Hr. unfold act_journal in Hr.
  destruct (Journal_rotate _ _ _) as [[jr j'] disk'] eqn:Hj. simplify_eq.
  destruct Hok. destruct (rotate_outcome _ _ _ _ _ _ _ so_journal0 Hj) as [Hjok Hout].
  assert (holds (log_op (Rotate (checkpoint_inner (st_state st) true)) (store_log st)) (st_state st))
    as Hh by by apply holds_rotate.
  split; [|intros u ->; unfold store_poisoned; by destruct Hout].
  split; [|done]. split; try done; unfold store_log, store_poisoned in *; cbn [st_journal st_state st_disk];
    destruct jr as [u|e]; cbn [op_outcome] in Hout.
  - destruct Hout as [_ ->]. done.
  - destruct Hout as [[-> ->]|(_ & Hp & _)]; [done|]. by rewrite Hp.
  - destruct Hout as [_ ->]. exists (st_state st). split; [done|by left].
  - destruct Hout as [[-> ->]|(Hp & _ & [-> | ->])]; [done| |].
    + exists (st_state st). split; [by apply so_live0|by left].
    + exists (st_state st). split; [done|by left].
Qed.

(** Appending the record that leads from the state held to [next]. *)
Lemma hoare_append s record next :
  record_fits record = true -> apply s v record false = Ok (Changed, next) ->
  hoare (at_state s) (act_journal (fun j => Journal_append j (encode_inner record true)))
    (fun r st => match r with
                 | Ok _ => store_poisoned st = false /\ holds (store_log st) next /\
                     reachable v c settlement role next /\ state_typed next /\
                     journal_ok store_id (st_journal st) (disk_db (st_disk st))
                 | Err _ => at_state s st
                 end) (at_state s).
Proof.
  intros Hf Ha st r st' [Hok Heq] Hr. unfold act_journal in Hr.
  destruct (Journal_append _ _ _) as [[jr j'] disk'] eqn:Hj. simplify_eq.
  destruct Hok. destruct (append_outcome _ _ _ _ _ _ _ so_journal0 Hj) as [Hjok Hout].
  assert (store_poisoned st = false ->
    holds (log_op (Append (encode_inner record true)) (store_log st)) next) as Hh
    by (intros; eapply holds_append; eauto).
  unfold at_state, store_log, store_poisoned in *. destruct jr as [u|e]; cbn [op_outcome] in Hout.
  - destruct Hout as [Hp Hl]. cbn [st_journal st_disk]. rewrite Hl. split; [done|]. split.
    + apply Hh. destruct (poisoned (st_journal st)) eqn:Hp0; [|done].
      unfold Journal_append, check_authority in Hj. rewrite Hp0 in Hj. done.
    + split_and!; [by eapply reachable_apply|by eapply apply_typed|done].
  - split; [|done]. split; try done; unfold store_log, store_poisoned; cbn [st_journal st_state st_disk].
    + destruct Hout as [[-> ->]|(_ & Hp & _)]; [done|]. by rewrite Hp.
    + destruct Hout as [[-> ->]|(Hp & _ & [-> | ->])]; [done| |].
      * exists (st_state st). split; [by apply so_live0|by left].
      * exists next. split; [by apply Hh|]. right. eauto.
Qed.

(** ** Commit *)

Lemma hoare_install s next :
  hoare (fun st => store_poisoned st = false /\ holds (store_log st) next /\
           reachable v c settlement role next /\ state_typed next /\
           journal_ok store_id (st_journal st) (disk_db (st_disk st)))
    (install next) (fun _ st => at_state next st /\ store_poisoned st = false) (at_state s).
Proof.
  intros st r st' (Hp & Hh & Hr & Ht & Hj) [= <- <-]. unfold store_poisoned, store_log in *.
  split; [|done]. split; [|done]. split; try done. exists next. split; [done|by left].
Qed.

Lemma hoare_rotate_if_full s new_work :
  rotatable s -> hoare (at_state s) (rotate_if_full new_work) (fun _ => at_state s) (at_state s).
Proof.
  intros Hrot st r st' Hst. unfold rotate_if_full, act_bind, act_get.
  destruct (at_soft_limit _); cbn [negb]; [|by intros [= <- <-]].
  destruct (act_journal _ st) as [[jr|e] st1] eqn:Hj; destruct Hst as [Hok <-].
  - destruct (hoare_rotate (st_state st) Hrot _ _ _ (conj Hok eq_refl) Hj) as [Hat _].
    destruct jr as [u|e]; [by intros [= <- <-]|]. by destruct new_work; intros [= <- <-].
  - intros [= <- <-]. exact (hoare_rotate (st_state st) Hrot _ _ _ (conj Hok eq_refl) Hj).
Qed.

Lemma hoare_rotate_op s :
  rotatable s ->
  hoare (at_state s) rotate (fun _ st => at_state s st /\ store_poisoned st = false) (at_state s).
Proof.
  intros Hrot st r st' Hst. unfold rotate, act_bind, act_get, act_lift.
  destruct (act_journal _ st) as [[jr|e] st1] eqn:Hj; destruct Hst as [Hok <-].
  - destruct (hoare_rotate (st_state st) Hrot _ _ _ (conj Hok eq_refl) Hj) as [Hat Hp].
    destruct jr as [u|e]; intros [= <- <-]; [split; [done|by eapply Hp]|done].
  - intros [= <- <-]. exact (hoare_rotate (st_state st) Hrot _ _ _ (conj Hok eq_refl) Hj).
Qed.

Lemma hoare_content_at {A} (m : Act A) s :
  content_only m -> hoare (at_state s) m (fun _ => at_state s) (at_state s).
Proof. intros Hm. apply hoare_content; [done|apply at_state_same|done]. Qed.

Lemma hoare_weaken {A} (m : Act A) (P : ChannelStore -> Prop) Q Q' (E E' : ChannelStore -> Prop) :
  hoare P m Q E -> (forall a st, Q a st -> Q' a st) -> (forall st, E st -> E' st) -> hoare P m Q' E'.
Proof.
  intros Hm HQ HE st r st' HP Hr. specialize (Hm _ _ _ HP Hr). destruct r; auto.
Qed.

(** Where a record that changes the state leaves the store. *)
Definition settled (s next : Channel) (st : ChannelStore) : Prop := at_state s st \/ at_state next st.

(** The part of [commit] after the record was accepted. *)
Definition commit_changed (state next : Channel) (record : ChannelRecord) : Act unit :=
  act_bind (checkpoint_fits next record) (fun _ =>
  act_bind (rotate_if_full (is_new_work record)) (fun _ =>
  act_bind (retain_input next record) (fun _ =>
  act_bind (retain_transcript next record) (fun _ =>
  act_bind (act_journal (fun j => Journal_append j (encode_inner record true))) (fun r =>
  act_bind (act_lift Journal_error r) (fun _ =>
  act_bind (install next) (fun _ =>
  act_bind (publish_accepted next record) (fun _ =>
  if (length (btree_values (jobs next)) <? length (btree_values (jobs state)))%nat then rotate
  else act_ret tt)))))))).

Lemma hoare_commit_changed s record next :
  record_fits record = true -> apply s v record false = Ok (Changed, next) ->
  rotatable s -> rotatable next ->
  hoare (at_state s) (commit_changed s next record)
    (fun _ st => at_state next st /\ store_poisoned st = false) (settled s next).
Proof.
  intros Hf Ha Hs Hn. unfold commit_changed.
  assert (forall A (m : Act A), content_only m ->
    hoare (at_state s) m (fun _ => at_state s) (settled s next)) as Hc.
  { intros A m Hm. eapply hoare_weaken; [by apply hoare_content_at|done|by left]. }
  eapply hoare_bind; [apply Hc, content_fits|intros ?; cbn beta].
  eapply hoare_bind; [eapply hoare_weaken; [by apply hoare_rotate_if_full|done|by left]|intros ?; cbn beta].
  eapply hoare_bind; [apply Hc, content_input|intros ?; cbn beta].
  eapply hoare_bind; [apply Hc, content_transcript|intros ?; cbn beta].
  eapply hoare_bind; [eapply hoare_weaken; [by eapply hoare_append|done|by left]|intros r; cbn beta].
  eapply (hoare_bind _ _ (fun _ st => store_poisoned st = false /\ holds (store_log st) next /\
    reachable v c settlement role next /\ state_typed next /\
    journal_ok store_id (st_journal st) (disk_db (st_disk st)))).
  { intros st r' st' HP [= <- <-]. destruct r; [done|by left]. }
  intros ?; cbn beta. eapply hoare_bind; [eapply hoare_weaken; [apply (hoare_install s)|done|by left]|intros ?; cbn beta].
  eapply hoare_bind.
  { eapply (hoare_content _ (fun st => at_state next st /\ store_poisoned st = false));
      [apply content_publish| |by intros st [? _]; right].
    intros st st' Hsame [Hat Hp]. split; [by eapply at_state_same|].
    unfold store_poisoned in *. by destruct Hsame as (-> & _). }
  intros ?; cbn beta. case_match.
  - intros st r' st' [Hat _] Hr. pose proof (hoare_rotate_op next Hn _ _ _ Hat Hr) as Hrot.
    destruct r'; [done|by right].
  - apply hoare_ret. done.
Qed.

Lemma commit_eq record st :
  commit v record st =
  act_bind promote_accepted_content (fun _ =>
  act_bind (act_get st_state) (fun state =>
    if is_redundant state record then act_ret tt else
    act_bind (act_lift Channel_error (apply state v record false)) (fun '(applied, next) =>
    act_bind (match applied with
              | Redundant => act_ret tt
              | Changed => commit_changed state next record
              end) (fun _ => gc_uploads)))) st.
Proof. done. Qed.

(** Every way a commit can end. *)
Definition commit_ends (s : Channel) (record : ChannelRecord) (r : result unit WorkStoreError)
    (st' : ChannelStore) : Prop :=
  (at_state s st' /\
   (r = Ok tt -> is_redundant s record = true \/ exists s', apply s v record false = Ok (Redundant, s'))) \/
  (exists next, apply s v record false = Ok (Changed, next) /\ at_state next st' /\
   (r = Ok tt -> store_poisoned st' = false)).

Lemma is_redundant_apply s record :
  is_redundant s record = true -> apply s v record false = Ok (Redundant, s).
Proof.
  destruct record; try done. cbn [is_redundant apply]. intros Hr. apply andb_true_iff in Hr as [Hrole Hj].
  bool_simpl. unfold apply_plaintext. rewrite (proj2 (require_role_Ok s _ Provider) Hrole). cbn [rbind].
  destruct (jobs s !! work_id) as [job|] eqn:Hl; [|done].
  rewrite (proj2 (open_job_Ok _ _ _ _) Hl). cbn [rbind]. by rewrite Hj.
Qed.

Lemma commit_spec s record st r st' :
  at_state s st -> record_fits record = true -> rotatable s ->
  (forall next, apply s v record false = Ok (Changed, next) -> rotatable next) ->
  commit v record st = (r, st') -> commit_ends s record r st'.
Proof.
  intros Hat Hf Hs Hn. rewrite commit_eq. unfold act_bind at 1.
  destruct (promote_accepted_content st) as [[u|e] st1] eqn:Hp;
    pose proof (at_state_same _ _ _ (content_promote _ _ _ Hp) Hat) as Hat1.
  2:{ intros [= <- <-]. left. split; [done|by intros]. }
  unfold act_bind at 1, act_get. destruct Hat1 as [Hok1 <-]. set (s := st_state st1) in *.
  destruct (is_redundant s record) eqn:Hred.
  { intros [= <- <-]. left. split; [done|by left]. }
  unfold act_bind at 1, act_lift.
  destruct (apply s v record false) as [[[] next]|e] eqn:Ha; cbn [map_err].
  - unfold act_bind. destruct (commit_changed s next record st1) as [r2 st2] eqn:Hc.
    pose proof (hoare_commit_changed s record next Hf Ha Hs (Hn next eq_refl) st1 r2 st2
      (conj Hok1 eq_refl) Hc) as Hout.
    destruct r2 as [u2|e2]; intros Hr.
    + destruct Hout as [Hat2 Hp2]. pose proof (content_gc _ _ _ Hr) as Hgc. right. exists next.
      split; [done|]. split; [by eapply at_state_same|]. intros _.
      unfold store_poisoned in *. by destruct Hgc as (-> & _).
    + injection Hr as <- <-. destruct Hout as [Hat2|Hat2]; [left|right].
      * split; [done|by intros].
      * exists next. split; [done|]. by split.
  - unfold act_bind. intros Hr. apply content_gc in Hr. left.
    split; [by eapply at_state_same|]. intros _. right. eauto.
  - intros [= <- <-]. left. split; [done|by intros].
Qed.

(** ** Opening *)

Lemma recover_job_strip job u job' u' :
  recover_job job u = (Ok job', u') -> strip_job job' = strip_job job.
Proof.
  unfold recover_job. intros Hr. destruct (negb _); [by simplify_eq|].
  destruct (uploads_read _ _ _ _) as [input|[]]; simplify_eq; try (case_match; by simplify_eq).
  destruct (if is_some _ then _ else _) as [[?|?] u1]; [|done].
  destruct (job_result job) as [[r sig]|] eqn:Hres.
  - destruct (uploads_retained _ _); [|done]. simplify_eq. unfold strip_job. simpl. by rewrite Hres.
  - simplify_eq. unfold strip_job. simpl. by rewrite Hres.
Qed.

Lemma recover_jobs_strip l (m acc : gmap Digest JobState) u m' u' :
  (forall id job, (id, job) ∈ l -> m !! id = Some job) ->
  strip_job <$> acc = strip_job <$> m ->
  recover_jobs l acc u = (Ok m', u') -> strip_job <$> m' = strip_job <$> m.
Proof.
  revert acc u. induction l as [|[id job] l IH]; intros acc u Hl Hacc Hr; cbn [recover_jobs] in Hr.
  { by simplify_eq. }
  destruct (recover_job job u) as [[job'|e] u1] eqn:Hj; [|done].
  apply recover_job_strip in Hj. eapply IH; [|  |exact Hr].
  - intros i j Hij. apply Hl. by right.
  - rewrite fmap_insert, Hacc, Hj, <- fmap_insert. f_equal. apply insert_id, Hl. left.
Qed.

Lemma interrupted_dom (m : gmap Digest JobState) :
  dom (filter (fun '(_, j) => interrupted j = true) m) =
  dom (filter (fun '(_, j) => interrupted j = true) (strip_job <$> m)).
Proof.
  apply set_eq. intros i. rewrite !elem_of_dom. split; intros [j [Hl Hi]%map_lookup_filter_Some].
  - exists (strip_job j). apply map_lookup_filter_Some. by rewrite lookup_fmap, Hl.
  - rewrite lookup_fmap in Hl. apply fmap_Some in Hl as (j' & Hl & ->).
    exists j'. by apply map_lookup_filter_Some.
Qed.

(** The state recovered from a log that replays to [s]. *)
Lemma recovered_state s ind (m : gmap Digest JobState) :
  strip_job <$> m = strip_job <$> jobs (replayed s ind) ->
  strip (mark_interrupted (map_book (with_jobs (fun _ => m)) (replayed s ind))) =
  mark_interrupted (strip s).
Proof.
  intros Hm. assert (strip_job <$> m = strip_job <$> jobs s) as Hm'.
  { rewrite Hm. cbn [replayed ch_book strip_book book_jobs]. rewrite <- map_fmap_compose.
    by apply map_fmap_ext. }
  unfold strip, mark_interrupted, map_book, with_jobs, replayed, strip_book.
  cbn [ch_book ch_funding ch_ledger ch_role book_jobs pending_proposal book_terminals
    proposal_nonce_high_water indeterminate].
  by rewrite (interrupted_dom m), Hm'.
Qed.

(** A store recovered from a disk that holds [s] is sound and holds [s] as a
    restart leaves it. *)
Lemma recover_spec disk u o existing j s r disk' :
  origin = (origin_height o, origin_payload o) ->
  journal_ok store_id j (disk_db disk) -> holds (db_log (disk_db disk)) s ->
  reachable v c settlement role s -> state_typed s ->
  recover v disk u c settlement role o existing = (r, disk') ->
  disk' = disk /\
  match r with
  | Ok st => store_ok st /\ st_disk st = disk /\ strip (st_state st) = mark_interrupted (strip s)
  | Err e => (exists ce, e = Content_error ce) \/
      (origin_payment_edge o <> channel_payment_edge c /\
       e = Channel_error (WrongChannel "setup origin payment_edge"))
  end.
Proof.
  intros Ho Hj (ind & Hind & Hlog) Hs Ht. unfold recover. case_bool_decide as He; cbn [negb].
  2:{ intros [= <- <-]. split; [done|by right]. }
  destruct (ok_head _ _ _ Hj) as (g & Hg & _). unfold open_owned. fold store_id. rewrite Hg.
  rewrite bool_decide_true by done. cbn [negb]. rewrite <- Ho, Hlog.
  destruct (recover_jobs _ _ u) as [[m|e] u'] eqn:Hm.
  2:{ intros [= <- <-]. split; [done|left; eauto]. }
  intros [= <- <-]. split; [done|].
  apply (recover_jobs_strip _ (jobs (replayed s ind))) in Hm; [|by intros i jb ?%elem_of_btree_items|done].
  pose proof (recovered_state s ind m Hm) as Hst.
  set (s2 := mark_interrupted _) in *.
  assert (holds (db_log (disk_db disk)) s2) as Hh.
  { exists ind. split.
    - subst s2. cbn [mark_interrupted map_book ch_book with_jobs indeterminate book_jobs].
      intros i Hi%Hind. destruct (reachable_marks s Hs i Hi) as (jb & Hl & Hin).
      rewrite interrupted_dom, Hm. cbn [replayed ch_book strip_book book_jobs].
      apply elem_of_dom. exists (strip_job (strip_job jb)). apply map_lookup_filter_Some.
      by rewrite !lookup_fmap, Hl.
    - rewrite Hlog. f_equal. subst s2. unfold replayed, mark_interrupted, map_book, with_jobs, strip_book.
      cbn [ch_book ch_funding ch_ledger ch_role book_jobs pending_proposal book_terminals
        proposal_nonce_high_water indeterminate].
      cbn [replayed ch_book strip_book book_jobs] in Hm. rewrite Hm, <- !map_fmap_compose.
      do 2 f_equal. }
  split; [|done]. split; [by eapply reachable_restart|by eapply restart_typed| | |].
  - destruct Hj as [_ Hb _]. split; [exists g; done|done|done].
  - by intros _.
  - exists s2. split; [done|by left].
Qed.

(** ** Resuming *)

Lemma rotatable_same s s' :
  ch_funding s' = ch_funding s -> ch_role s' = ch_role s ->
  executable_certificate s' = executable_certificate s -> rotatable s -> rotatable s'.
Proof.
  intros Hf Hr He Hrot start. unfold check_close_start. rewrite Hf, Hr, He. apply Hrot.
Qed.

Lemma rotatable_restart s s' :
  strip s' = mark_interrupted (strip s) -> rotatable s -> rotatable s'.
Proof.
  intros (Hf & _ & Hr & _ & Ht & _)%restart_same_meta. apply rotatable_same; [done..|].
  unfold executable_certificate. by rewrite (max_executable_same _ _ Ht).
Qed.

(** Before a close start is signed there is nothing to go stale. *)
Lemma unclosed_rotatable s record meta a next :
  close_prepared (ch_funding s) = None -> apply s v record meta = Ok (a, next) -> rotatable next.
Proof.
  intros Hc Hr%apply_step start. destruct Hr; cbn; rewrite ?Hc; try done; try congruence.
  intros [= <-]. done.
Qed.

(** A record that keeps the close start and the certificate. *)
Definition quiet (record : ChannelRecord) : Prop :=
  match record with
  | JobTerminated _ (Expired _ _ _) | ProposalExchange _ _ => True
  | _ => False
  end.

Lemma quiet_rotatable s record a next :
  reachable v c settlement role s -> quiet record -> apply s v record false = Ok (a, next) ->
  rotatable s -> rotatable next.
Proof.
  intros Hs Hq Hr. destruct record as [|id pending| | | | | | | |id outcome| | | | |]; try done.
  - cbn [apply] in Hr. apply rbind_Ok in Hr as (u & _ & Hr). apply on_book_Ok in Hr as (b & Hb & ->).
    apply rotatable_same; [done..|]. unfold executable_certificate.
    rewrite (max_executable_same s); [done|]. cbn [map_book ch_book].
    unfold proposal_exchange in Hb. guards. destruct (bool_decide (pending_proposal _ = _)); guards; by subst.
  - destruct outcome; try done. cbn [apply] in Hr. unfold apply_terminated in Hr.
    destruct (terminals s !! id) eqn:Hterm; [guards; by subst|]. guards. subst.
    apply rotatable_same; [done..|]. unfold executable_certificate, last_payment. f_equal.
    cbn [map_book ch_book rest_at book_terminals terminal_work_id].
    rewrite (btree_omap_insert payment_from_terminal); [done| |done].
    apply reachable_inv in Hs. by rewrite (job_named _ _ _ _ _ (inv_jobs _ _ _ _ _ Hs _ _ E)).
Qed.

(** Sound, rotatable, and reached from [s0]. *)
Definition resumed (s0 : Channel) (st : ChannelStore) : Prop :=
  store_ok st /\ rotatable (st_state st) /\ rtc (evolve v) s0 (st_state st).

Lemma resumed_commit s0 record :
  record_fits record = true -> quiet record ->
  hoare (resumed s0) (commit v record) (fun _ => resumed s0) (resumed s0).
Proof.
  intros Hf Hq st r st' (Hok & Hrot & Hev) Hr.
  assert (forall a next, apply (st_state st) v record false = Ok (a, next) -> rotatable next) as Hn
    by (intros; eapply quiet_rotatable; eauto using so_reach).
  assert (resumed s0 st') as Hres; [|by destruct r].
  destruct (commit_spec (st_state st) record st r st' (conj Hok eq_refl) Hf Hrot (Hn Changed) Hr)
    as [[[Hok' Heq] _]|(next & Ha & [Hok' Heq] & _)].
  - split_and!; [done|by rewrite Heq..].
  - split_and!; [done|rewrite Heq; by eapply Hn|]. rewrite Heq. eapply rtc_r; [done|].
    by eapply evolve_apply.
Qed.

Lemma resumed_same s0 st st' : same_store st st' -> resumed s0 st -> resumed s0 st'.
Proof.
  intros Hs (Hok & Hrot & Hev). unfold resumed. pose proof (same_store_ok _ _ Hs Hok).
  destruct Hs as (_ & -> & _). done.
Qed.

Lemma resumed_content {A} (m : Act A) s0 :
  content_only m -> hoare (resumed s0) m (fun _ => resumed s0) (resumed s0).
Proof. intros Hm. apply hoare_content; [done|apply resumed_same|done]. Qed.

Lemma resumed_each {A} (f : A -> Act unit) l s0 :
  (forall a, a ∈ l -> hoare (resumed s0) (f a) (fun _ => resumed s0) (resumed s0)) ->
  hoare (resumed s0) (act_each f l) (fun _ => resumed s0) (resumed s0).
Proof.
  induction l as [|a l IH]; intros Hf; [by apply hoare_ret|]. cbn [act_each].
  eapply hoare_bind; [apply Hf; left|]. intros ?. apply IH. intros b Hb. apply Hf. by right.
Qed.

Lemma expiry_fits s id outcome :
  state_typed s -> (id, outcome) ∈ expiry_at s (ps_cursor (ch_funding s)).1 (ps_cursor (ch_funding s)).2 ->
  record_fits (JobTerminated id outcome) = true /\ quiet (JobTerminated id outcome).
Proof.
  intros Hs (job & [k Hk]%elem_of_btree_values & He)%list_elem_of_omap.
  destruct (expiry_of s _ job) as [d|] eqn:Hd; [|done]. simplify_eq/=. split; [|done].
  destruct (typed_job _ _ _ Hs Hk) as [(Ha & Hid & _)%job_fields _].
  pose proof (ft_cursor _ (st_funding _ Hs)) as Hc. destruct (ps_cursor (ch_funding s)) as [h p].
  cbn [pair_field fits] in Hc. cbn [record_wf PaidJobAuthorizationV2_record] in Ha.
  unfold PaidJobAuthorizationV2_wf in Ha. bool_simpl. rewrite !andb_true_iff. split_and!; try done.
  unfold expiry_of in Hd. by destruct (ch_role s); repeat case_match; simplify_eq.
Qed.

Lemma resumed_release s0 :
  hoare (resumed s0) (release_unresumable_proposal v) (fun _ => resumed s0) (resumed s0).
Proof.
  intros st r st' Hst. unfold release_unresumable_proposal, act_bind, act_get.
  destruct (negb _); [by intros [= <- <-]|].
  destruct (pending_proposal (ch_book (st_state st))) as [work|] eqn:Hp; [|by intros [= <- <-]].
  destruct (jobs (st_state st) !! work) as [job|]; [|by intros [= <- <-]].
  destruct (negb _); [by intros [= <- <-]|].
  assert (record_fits (ProposalExchange work false) = true) as Hf.
  { destruct Hst as (Hok & _). pose proof (bt_pending _ (st_book _ (so_typed _ Hok))) as Hpf.
    by rewrite Hp in Hpf. }
  pose proof (resumed_commit s0 _ Hf I) as Hc.
  destruct (prepared_input job) as [|b bs]; [by apply Hc|]. unfold act_lift.
  destruct (recoverable_content _ _ _) as [[content|]|e]; cbn [map_err act_ret is_some].
  - by intros [= <- <-].
  - by apply Hc.
  - by intros [= <- <-].
Qed.

Lemma resume_spec st r st' :
  store_ok st -> rotatable (st_state st) -> resume v st = (r, st') -> resumed (st_state st) st'.
Proof.
  intros Hok Hrot Hr. assert (resumed (st_state st) st) as Hst by (by split_and!).
  unfold resume, act_bind at 1, act_get in Hr. cbv beta in Hr.
  destruct (ps_cursor (ch_funding (st_state st))) as [h p] eqn:Hc.
  assert (hoare (resumed (st_state st)) (act_bind (act_each (fun '(work_id, outcome) =>
    commit v (JobTerminated work_id outcome)) (expiry_at (st_state st) h p)) (fun _ =>
    act_bind (release_unresumable_proposal v) (fun _ => gc_uploads)))
    (fun _ => resumed (st_state st)) (resumed (st_state st))) as Hh.
  { eapply hoare_bind; [|intros ?; eapply hoare_bind; [apply resumed_release|intros ?]].
    - apply resumed_each. intros [id outcome] Hin.
      pose proof (expiry_fits (st_state st) id outcome (so_typed _ Hok)) as He.
      rewrite Hc in He. apply He in Hin as [Hf Hq]. by apply resumed_commit.
    - apply resumed_content, content_gc. }
  specialize (Hh st r st' Hst Hr). by destruct r.
Qed.


Lemma reopen_spec st fates u o existing r disk :
  store_ok st -> origin = (origin_height o, origin_payload o) ->
  origin_payment_edge o = channel_payment_edge c ->
  (forall sd, near (st_state st) sd -> rotatable sd) ->
  open_inner v (mk_Disk (disk_db (st_disk st)) fates) u c settlement role o existing = (r, disk) ->
  exists sd, near (st_state st) sd /\ (store_poisoned st = false -> sd = st_state st) /\
    match recover v (mk_Disk (disk_db (st_disk st)) fates) u c settlement role o existing with
    | (Ok st1, _) => strip (st_state st1) = mark_interrupted (strip sd) /\
        (forall st2, r = Ok st2 -> store_ok st2 /\ rtc (evolve v) sd (st_state st2))
    | (Err e, _) => r = Err e /\ exists ce, e = Content_error ce
    end.
Proof.
  intros Hok Ho He Hrot Hopen.
  assert (exists sd, holds (store_log st) sd /\ near (st_state st) sd /\
    (store_poisoned st = false -> sd = st_state st)) as (sd & Hh & Hn & Hp).
  { destruct (store_poisoned st) eqn:Hp.
    - destruct (so_disk _ Hok) as (sd & ? & ?). by exists sd.
    - exists (st_state st). split; [by apply (so_live _ Hok)|]. split; [by left|done]. }
  exists sd. split; [done|]. split; [done|]. unfold open_inner in Hopen.
  destruct (recover v _ u c settlement role o existing) as [r1 disk1] eqn:Hrec.
  assert (reachable v c settlement role sd /\ state_typed sd) as [Hreach Htyped].
  { destruct Hn as [->|(record & Hf & Ha)]; [split; apply Hok|].
    split; [eapply reachable_apply; [apply Hok|done]|eapply apply_typed; [done|apply Hok|done]]. }
  destruct (recover_spec (mk_Disk (disk_db (st_disk st)) fates) u o existing (st_journal st) sd r1
    disk1 Ho (so_journal _ Hok) Hh Hreach Htyped Hrec) as [-> Hr1].
  destruct r1 as [st1|e].
  - destruct Hr1 as (Hok1 & _ & Hstrip). split; [done|]. intros st2 ->.
    destruct (resume v st1) as [[u2|e2] st3] eqn:Hres; [|done]. simplify_eq.
    destruct (resume_spec st1 (Ok u2) st2 Hok1) as (Hok2 & _ & Hev); [|done|].
    { eapply rotatable_restart; [done|by apply Hrot]. }
    split; [done|]. eapply rtc_l; [|done]. by apply evolve_restart.
  - simplify_eq. split; [done|]. destruct Hr1 as [?|[? _]]; done.
Qed.

Lemma reopen_evolves st fates u o existing st' disk :
  store_ok st -> origin = (origin_height o, origin_payload o) ->
  origin_payment_edge o = channel_payment_edge c ->
  (forall sd, near (st_state st) sd -> rotatable sd) ->
  open_inner v (mk_Disk (disk_db (st_disk st)) fates) u c settlement role o existing = (Ok st', disk) ->
  rtc (evolve v) (st_state st) (st_state st').
Proof.
  intros Hok Ho He Hrot Hopen.
  destruct (reopen_spec _ _ _ _ _ _ _ Hok Ho He Hrot Hopen) as (sd & Hn & _ & Hrec).
  destruct (recover _ _ _ _ _ _ _ _) as [[st1|e] d1]; [|by destruct Hrec].
  destruct Hrec as [_ Hrec]. destruct (Hrec st' eq_refl) as [_ Hev].
  destruct Hn as [->|(record & _ & Ha)]; [done|]. eapply rtc_l; [|done]. by eapply evolve_apply.
Qed.


(** The store of a channel just opened. *)
Lemma store_ok_fresh st :
  st_state st = Channel_new c settlement role origin.1 origin.2 ->
  st_journal st = mk_Journal true store_id 0 0 0 false ->
  disk_db (st_disk st) = mk_Database (Some (store_id, 0)) (mk_Replay None []) ->
  u64_ok origin.1 = true -> state_typed (st_state st) -> store_ok st.
Proof.
  intros Hs Hj Hd Ho Ht. pose proof holds_new as Hnew.
  split; unfold store_log, store_poisoned; rewrite ?Hj, ?Hd; [|done| |by rewrite Hs|].
  - rewrite Hs. by constructor.
  - split; [by eexists|split; done|done].
  - rewrite Hs. eexists. split; [exact Hnew|by left].
Qed.
End durable.
