(* ===== verification/CloseWatch.v ===== *)
(** * Watching and closing a channel (crates/channel/src/work_close.rs, work.rs)

    What an endpoint makes of finalized blocks: [observe] ends jobs, records
    contests and settlements and advances the cursor, one record at a time;
    [catch_up] and [advance_close] drive it from a block source.  The close
    transactions an endpoint signs or rebuilds, and the provider's close half
    ([CloseEndpoint]).  The block source, the transaction sink and the signing
    key are parameters; what a read or a submission answers is any function. *)

From S2P Require Import Prelude Xet XetChunk Canonical Primitive Errors BoundedList Context Auth.
From S2P Require Import Objects Registry View Store Event Terms Work Lease Tx.
From S2P Require Import PaidWork JobBook JobInput ChannelState ChannelSteps.
From S2P Require Import ChannelInvariant ChannelReplay ChannelCodec ChannelCheckpoint ChannelReopen.
From S2P Require Import Journal ChannelLedger ChannelStore Setup.

#[local] Open Scope N_scope.

(** ** Errors and answers *)

(* [crates/channel/src/work_close.rs:96-105] FinalizedWork *)
Record FinalizedWork := mk_FinalizedWork {
  block_height : N;
  block_parent : bytes;
  block_payload : bytes;
  block_txs : list Tx;
}.

(* [crates/channel/src/work_close.rs:112-120] BlockSourceError *)
Inductive BlockSourceError := Source_Failed (reason : string) | ReadUnavailableTimeout.

(* [crates/channel/src/work.rs:394-431] EndpointError *)
Inductive EndpointError :=
  | ObservationStale
  | Endpoint_WrongChannel
  | WrongSettlement
  | Endpoint_WrongRole (expected found : string)
  | WrongKey (party : string)
  | NotAdmitting
  | Poisoned
  | CatchingUp.

(* [crates/channel/src/work_close.rs:182-248] CloseError *)
Inductive CloseError :=
  | UnauthorizedSigner
  | NoValidityWindow
  | WindowOverflow (height : N)
  | OtherContest
  | NoContest
  | Close_ResponseWindowOpen (height deadline : N)
  | Close_AlreadyResponded
  | Close_ResponseWindowClosed (height deadline : N)
  | NothingToAdd (held settled : N)
  | Unpayable
  | Close_Store (e : WorkStoreError)
  | Close_Endpoint (e : EndpointError).

(* [crates/rpc/src/lib.rs:20-29] SubmitTxOutcome *)
Inductive SubmitTxOutcome := Enqueued | Duplicate | Full | ValidationRejected.

(* [crates/channel/src/work_close.rs:252-282] CloseProgress *)
Inductive CloseProgress :=
  | Progress_Settled (provider_payout : N)
  | Progress_Opened (start_id : StartId)
  | AdjudicationSubmitted (start_id : StartId) (outcome : SubmitTxOutcome)
  | Submitted (valid_through : N) (outcome : SubmitTxOutcome)
  | Progress_Nothing.

(* [crates/channel/src/work_close.rs:286-321] CatchUpError *)
Inductive CatchUpError :=
  | Busy
  | OtherJob
  | CloseDuty (height : N)
  | Source_error (e : BlockSourceError)
  | Missing (height : N)
  | CatchUp_Store (e : WorkStoreError)
  | CatchUp_Close (e : CloseError).

(* [crates/channel/src/work.rs:554-568] Handoff *)
Inductive Handoff := Offered | Taken.

#[export] Instance Handoff_eq_dec : EqDecision Handoff.
Proof. solve_decision. Defined.

(** The key an endpoint signs with (crates/kernel/src/secp256k1.rs over k256). *)
Record Secp256k1Signer := mk_Secp256k1Signer {
  party_key : Key;
  sign : PayloadHash -> Sig;
}.

(* [crates/channel/src/work_close.rs:162-178] FinalizedBlocks *)
Record FinalizedBlocks := mk_FinalizedBlocks {
  latest_height : result (option N) BlockSourceError;
  block_at : N -> result (option FinalizedWork) BlockSourceError;
}.

Section close.
  Context `{Blake3}.

(** ** The transactions of a close *)

(* [crates/channel/src/work_close.rs:331-333] start_body_digest *)
Definition start_body_digest (channel : PaidChannel) (start : PaymentCloseStart) : PayloadHash :=
  PaymentCloseStart_digest start (channel_network channel).

(* [crates/channel/src/work_close.rs:355-411] close_start *)
Definition close_start (channel : PaidChannel) (opener_role : Party) (height : N)
    (certificate : option (EarnedCertificate * Sig)) (signer : Secp256k1Signer)
    : result PaymentCloseStart CloseError :=
  let terms := channel_payment_terms channel in
  let parties := WorkPaymentTerms_parties terms in
  let party := match opener_role with
               | Maker => Parties_maker parties
               | Taker => Parties_taker parties
               end in
  let? authority := ok_or (PartyKeys_authority_of party (party_key signer)) UnauthorizedSigner in
  let? certificate_authority :=
    ok_or (PartyKeys_authority_of (Parties_maker parties) (client_key channel))
      UnauthorizedSigner in
  let span := wp_start_validity_blocks terms in
  if span =? 0 then Err NoValidityWindow else
  let? valid_from := ok_or (checked_add height 1) (WindowOverflow height) in
  let? valid_through := ok_or (checked_add valid_from (span - 1)) (WindowOverflow height) in
  let certificate := (fun '(certificate, sig) =>
    (certificate, PartyAuth_new certificate_authority (Native sig))) <$> certificate in
  let start action_sig :=
    mk_PaymentCloseStart (channel_payment_edge channel) (Terms_work_payment terms) opener_role
      valid_from valid_through certificate (PartyAuth_new authority (Native action_sig)) in
  let unsigned := start (Sig_from_bytes (repeat "000"%byte SIG_LENGTH)) in
  Ok (start (sign signer (start_body_digest channel unsigned))).

(* [crates/channel/src/work_close.rs:453-496] close_response *)
Definition close_response (channel : PaidChannel) (start_id : StartId)
    (certificate : EarnedCertificate * Sig) (signer : Secp256k1Signer)
    : result PaymentCloseResponse CloseError :=
  let parties := WorkPaymentTerms_parties (channel_payment_terms channel) in
  let? authority := ok_or (PartyKeys_authority_of (Parties_taker parties) (party_key signer))
                      UnauthorizedSigner in
  let? certificate_authority :=
    ok_or (PartyKeys_authority_of (Parties_maker parties) (client_key channel))
      UnauthorizedSigner in
  let digest := response_body_digest channel start_id certificate.1 in
  Ok (mk_PaymentCloseResponse (channel_payment_edge channel) start_id Taker certificate.1
        (PartyAuth_new certificate_authority (Native certificate.2))
        (PartyAuth_new authority (Native (sign signer digest)))).

(* [crates/channel/src/work_close.rs:519-545] adjudicated_close *)
Definition adjudicated_close (channel : PaidChannel) (settlement : WorkPaymentSettlement)
    (pending : PendingPaymentClose) : result Tx CloseError :=
  let? '(provider, client) := map_err (fun _ => Unpayable)
    (adjudicated_payouts settlement (WorkPaymentTerms_parties (channel_payment_terms channel))
       (pending_final_cumulative pending) (pending_penalty_due pending)
       (pending_owner_signed pending)) in
  Ok (Tx_Close (channel_payment_edge channel)
        (Proof_Adjudicated (PendingPaymentClose_contest_commitment pending
           (channel_network channel) (channel_payment_edge channel)
           (channel_payment_terms_hash channel))) [provider; client]).

(** ** The contest after a block *)

(* [crates/channel/src/work_close.rs:550-598] contest_after_block *)
Definition contest_tx (channel : PaidChannel) (height : N) (contest : OpenContest)
    (pending : option PendingPaymentClose) (tx : Tx)
    : result (option PendingPaymentClose) ChannelStateError :=
  let edge := channel_payment_edge channel in
  match tx with
  | Tx_Move (StartPaymentClose start) =>
      if negb (bool_decide (start_payment_edge start = edge)) then Ok pending else
      if is_some pending || negb (bool_decide (Terms_hash (start_terms start)
                                               = channel_payment_terms_hash channel))
      then Err Malformed else
      let? opened := ok_or (PendingPaymentClose_from_accepted_start (channel_network channel)
                              height start) Malformed in
      if negb (bool_decide (pending_start_id opened = contest_start_id contest))
         || negb (bool_decide (pending_opener_role opened = contest_opener contest))
         || negb (pending_response_deadline opened =? contest_response_deadline contest)
         || negb (pending_start_cumulative opened =? contest_claimed contest)
      then Err Malformed else Ok (Some opened)
  | Tx_Move (RespondPaymentClose response) =>
      if negb (bool_decide (resp_payment_edge response = edge)) then Ok pending else
      let? opened := ok_or pending Malformed in
      if negb (bool_decide (pending_start_id opened = resp_start_id response))
         || pending_responded opened || (pending_response_deadline opened <=? height)
      then Err Malformed
      else Ok (Some (PendingPaymentClose_with_accepted_response opened response))
  | Tx_Close input _ _ => if bool_decide (input = edge) then Err Malformed else Ok pending
  | _ => Ok pending
  end.

Definition contest_after_block (channel : PaidChannel) (previous : option PendingPaymentClose)
    (block : FinalizedWork) (contest : OpenContest)
    : result PendingPaymentClose ChannelStateError :=
  let? pending := rfold (contest_tx channel (block_height block) contest) previous
                    (block_txs block) in
  ok_or pending Malformed.
End close.

Section watch.
  Context `{Blake3} `{Gearhash} `{Invocations} `{Uploads} (verifier : SigVerifier).

#[local] Notation "'do!' x := m 'in' k" := (act_bind m (fun x => k))
  (at level 10, x name, m at level 100, k at level 200).

(** ** Reading one block *)

(** Every open job rests at an expired terminal: no payment is credited after
    the cutoff. *)
Definition expire_open_jobs (height : N) (payload : bytes) : Act unit :=
  do! state := act_get st_state in
  act_each (fun job =>
    commit verifier (JobTerminated (job_work_id job)
      (Expired (payment_deadline (job_authorization job)) height payload)))
    (btree_values (book_jobs (ch_book state))).

Definition start_claimed (start : PaymentCloseStart) : N :=
  match start_certificate start with
  | Some (certificate, _) => cert_earned_cumulative certificate
  | None => 0
  end.

(* [crates/channel/src/work_close.rs:768-868] apply_finalized_txs *)
Definition apply_finalized_tx (channel : PaidChannel) (height : N) (payload : bytes) (tx : Tx)
    : Act unit :=
  let edge := channel_payment_edge channel in
  match tx with
  | Tx_Move (StartPaymentClose start) =>
      if negb (bool_decide (start_payment_edge start = edge)) then act_ret tt else
      do! _ := expire_open_jobs height payload in
      commit verifier (CloseOpened (mk_OpenContest
        (start_id (start_body_digest channel start) height) (start_opener_role start)
        (saturating_add height (wp_omit_response_blocks (channel_payment_terms channel)))
        (start_claimed start)))
  | Tx_Close input _ outputs =>
      if negb (bool_decide (input = edge)) then act_ret tt else
      let provider := PartyKeys_owner (Parties_taker
                        (WorkPaymentTerms_parties (channel_payment_terms channel))) in
      let provider_payout := match List.find (fun payout =>
                                 bool_decide (Payout_owner payout = provider)) outputs with
                             | Some payout => Payout_value payout
                             | None => 0
                             end in
      do! _ := expire_open_jobs height payload in
      commit verifier (CloseSettled (mk_CloseSettlement height payload provider_payout))
  | _ => act_ret tt
  end.

(** Each canonical contest block is retained before the cursor advances. *)
(* [crates/channel/src/work_close.rs:869-901] apply_finalized_txs *)
Definition retain_contest_block (channel : PaidChannel) (block : FinalizedWork) : Act unit :=
  do! state := act_get st_state in
  let funding := ch_funding state in
  match close_settled funding, close_opened funding with
  | None, Some contest =>
      if negb (block_height block <=? contest_response_deadline contest) then act_ret tt else
      let next := match close_history funding with
                  | None => checked_sub (contest_response_deadline contest)
                              (wp_omit_response_blocks (channel_payment_terms channel))
                  | Some history => checked_add (history_height history) 1
                  end in
      if negb (bool_decide (next = Some (block_height block))) then act_ret tt else
      do! pending := act_lift Channel_error
        (contest_after_block channel (history_pending <$> close_history funding) block contest) in
      commit verifier (CloseHistoryAdvanced (block_parent block)
        (mk_CloseHistory (block_height block) (block_payload block) pending))
  | _, _ => act_ret tt
  end.

(* [crates/channel/src/work_close.rs:754-904] apply_finalized_txs *)
Definition apply_finalized_txs (block : FinalizedWork) : Act unit :=
  do! state := act_get st_state in
  let channel := ps_channel (ch_funding state) in
  do! _ := act_each (apply_finalized_tx channel (block_height block) (block_payload block))
             (block_txs block) in
  retain_contest_block channel block.

(* [crates/channel/src/work_close.rs:710-741] observe *)
Definition observe (block : FinalizedWork) : Act unit :=
  do! state := act_get st_state in
  do! applied := act_lift Channel_error
    (reading state (block_height block) (block_parent block) (block_payload block)) in
  match applied with
  | Redundant => act_ret tt
  | Changed =>
      do! _ := act_each (fun '(work_id, outcome) => commit verifier (JobTerminated work_id outcome))
                 (expiry_at state (block_height block) (block_payload block)) in
      do! _ := apply_finalized_txs block in
      commit verifier (CursorAdvanced (block_height block) (block_parent block)
                         (block_payload block))
  end.

(** ** Reading to the tip *)

(** The heights [from], [from + 1], ... of a range of length [n]. *)
Fixpoint heights (from : N) (n : nat) : list N :=
  match n with O => [] | S n => from :: heights (from + 1) n end.

(** A store action inside a catch-up. *)
Definition caught {A} (m : Act A) (st : ChannelStore) : result A CatchUpError * ChannelStore :=
  let '(r, st) := m st in (map_err CatchUp_Store r, st).

Fixpoint observe_each (source : FinalizedBlocks) (l : list N) (st : ChannelStore)
    : result unit CatchUpError * ChannelStore :=
  match l with
  | [] => (Ok tt, st)
  | h :: l =>
      match block_at source h with
      | Err e => (Err (Source_error e), st)
      | Ok None => (Err (Missing h), st)
      | Ok (Some block) =>
          match caught (observe block) st with
          | (Ok _, st) => observe_each source l st
          | (Err e, st) => (Err e, st)
          end
      end
  end.

(* [crates/channel/src/work_close.rs:1351-1382] catch_up *)
Definition catch_up (source : FinalizedBlocks) (st : ChannelStore)
    : result N CatchUpError * ChannelStore :=
  let cursor st := (ps_cursor (ch_funding (st_state st))).1 in
  match latest_height source with
  | Err e => (Err (Source_error e), st)
  | Ok None => (Ok (cursor st), st)
  | Ok (Some latest) =>
      let next := saturating_add (cursor st) 1 in
      match observe_each source (heights next (N.to_nat (latest + 1 - next))) st with
      | (Ok _, st) => (Ok (cursor st), st)
      | (Err e, st) => (Err e, st)
      end
  end.

(* [crates/channel/src/work_close.rs:1341-1349] close_duty_present *)
Definition close_duty_present (state : Channel) (suppressed : option StartId) : bool :=
  is_some (close_settled (ch_funding state))
  || match answerable_contest state with
     | Some (contest, _) => negb (bool_decide (Some (contest_start_id contest) = suppressed))
     | None => false
     end.

(** ** A channel that can be closed *)

(* [crates/channel/src/work_close.rs:1189-1235] CloseChannel *)
Class CloseChannel (C : Type) := {
  channel_store : C -> ChannelStore;
  set_store : ChannelStore -> C -> C;
  channel_handoff : C -> option (StartId * Handoff);
  fix_answer : StartId -> C -> result (option Tx) WorkStoreError * C;
  record_handoff : StartId -> SubmitTxOutcome -> C -> C;
}.

(** A client lends its journal and nothing else. *)
(* [crates/channel/src/work_close.rs:1237-1243] CloseChannel for ChannelStore *)
#[export] Instance store_channel : CloseChannel ChannelStore := {
  channel_store st := st;
  set_store st _ := st;
  channel_handoff _ := None;
  fix_answer _ st := (Ok None, st);
  record_handoff _ _ st := st;
}.

(* [crates/channel/src/work.rs:519-523] CloseEndpoint *)
Record CloseEndpoint := mk_CloseEndpoint {
  close_store : ChannelStore;
  close_signer : Secp256k1Signer;
  close_handoff : option (StartId * Handoff);
}.

Definition close_state (self : CloseEndpoint) : Channel := st_state (close_store self).
Definition with_store (st : ChannelStore) (self : CloseEndpoint) : CloseEndpoint :=
  mk_CloseEndpoint st (close_signer self) (close_handoff self).

(* [crates/channel/src/work.rs:1475-1481] CloseEndpoint::record_close_handoff *)
Definition record_close_handoff (start_id : StartId) (outcome : SubmitTxOutcome)
    (self : CloseEndpoint) : CloseEndpoint :=
  let handoff := match outcome with
                 | Enqueued | Duplicate => Taken
                 | Full | ValidationRejected => Offered
                 end in
  mk_CloseEndpoint (close_store self) (close_signer self) (Some (start_id, handoff)).

(* [crates/channel/src/work.rs:1490-1495] CloseEndpoint::accepted_contest *)
Definition accepted_contest (self : CloseEndpoint) : option StartId :=
  match close_handoff self with Some (start_id, Taken) => Some start_id | _ => None end.

(* [crates/channel/src/work.rs:1517-1541] CloseEndpoint::close_duty *)
Definition close_duty (self : CloseEndpoint) (start_id : StartId)
    : result (option (ChannelRecord * Tx)) WorkStoreError :=
  if bool_decide (accepted_contest self = Some start_id) then Ok None else
  match answerable_contest (close_state self) with
  | None => Ok None
  | Some (contest, certificate) =>
      if negb (bool_decide (contest_start_id contest = start_id)) then Ok None else
      let channel := ps_channel (ch_funding (close_state self)) in
      let? response := map_err (fun _ => Channel_error (WrongChannel "close response signer"))
                         (close_response channel start_id certificate (close_signer self)) in
      Ok (Some (CloseResponded (mk_RespondedContest start_id
                  (response_body_digest channel start_id certificate.1)),
                Tx_Move (RespondPaymentClose response)))
  end.

(* [crates/channel/src/work.rs:1461-1469] CloseEndpoint::fix_close_answer *)
Definition fix_close_answer (start_id : StartId) (self : CloseEndpoint)
    : result (option Tx) WorkStoreError * CloseEndpoint :=
  match close_duty self start_id with
  | Err e => (Err e, self)
  | Ok None => (Ok None, self)
  | Ok (Some (responded, response)) =>
      let '(r, st) := commit verifier responded (close_store self) in
      ((let? _ := r in Ok (Some response)), with_store st self)
  end.

(* [crates/channel/src/work.rs:1733-1754] CloseChannel for CloseEndpoint *)
#[export] Instance endpoint_channel : CloseChannel CloseEndpoint := {
  channel_store := close_store;
  set_store := with_store;
  channel_handoff := close_handoff;
  fix_answer := fix_close_answer;
  record_handoff := record_close_handoff;
}.

(* [crates/channel/src/work_close.rs:602-623] finalized_contest *)
Definition finalized_contest (state : Channel) : result PendingPaymentClose CatchUpError :=
  let funding := ch_funding state in
  let? contest := ok_or (close_opened funding) (CatchUp_Close NoContest) in
  let ends := N.min (ps_cursor funding).1 (contest_response_deadline contest) in
  match close_history funding with
  | Some held =>
      if (ends <=? history_height held) || pending_responded (history_pending held)
      then Ok (history_pending held)
      else Err (Source_error (Source_Failed
             "finalized contest history disagrees with the retained cursor"))
  | None => Err (Source_error (Source_Failed
             "finalized contest history disagrees with the retained cursor"))
  end.

Section drive.
  Context {C : Type} `{CloseChannel C} (source : FinalizedBlocks)
    (sink : Tx -> result SubmitTxOutcome BlockSourceError).

Definition drive_state (c : C) : Channel := st_state (channel_store c).
Definition drive_cursor (c : C) : N := (ps_cursor (ch_funding (drive_state c))).1.

(** The [while] loop: [None] when the fuel runs out. *)
Fixpoint duty_loop (fuel : nat) (handoff : option (StartId * Handoff)) (latest next : N)
    (suppressed : option StartId) (c : C) : option (result N CatchUpError * C) :=
  if negb (next <=? latest) then Some (Ok (drive_cursor c), c) else
  match fuel with
  | O => None
  | S fuel =>
      match block_at source next with
      | Err e => Some (Err (Source_error e), c)
      | Ok None => Some (Err (Missing next), c)
      | Ok (Some block) =>
          let '(r, st) := caught (observe block) (channel_store c) in
          let c := set_store st c in
          match r with
          | Err e => Some (Err e, c)
          | Ok _ =>
              let suppressed := match handoff with
                                | Some (_, Offered) => None
                                | _ => suppressed
                                end in
              if close_duty_present (drive_state c) suppressed then Some (Ok (drive_cursor c), c)
              else duty_loop fuel handoff latest (saturating_add next 1) suppressed c
          end
      end
  end.

(* [crates/channel/src/work_close.rs:1267-1307] catch_up_until_duty *)
Definition catch_up_until_duty (handoff : option (StartId * Handoff)) (c : C)
    : option (result N CatchUpError * C) :=
  let suppressed := fst <$> handoff in
  if close_duty_present (drive_state c) suppressed then Some (Ok (drive_cursor c), c) else
  match latest_height source with
  | Err e => Some (Err (Source_error e), c)
  | Ok None => Some (Ok (drive_cursor c), c)
  | Ok (Some latest) =>
      let next := saturating_add (drive_cursor c) 1 in
      duty_loop (N.to_nat (latest + 1 - next)) handoff latest next suppressed c
  end.

(** A contest is open: the answer first, then adjudication when it is due. *)
(* [crates/channel/src/work_close.rs:1112-1155] advance_close_inner *)
Definition advance_contest (start_id : StartId) (c : C) : result CloseProgress CatchUpError * C :=
  let '(r, c) := fix_answer start_id c in
  match r with
  | Err e => (Err (CatchUp_Store e), c)
  | Ok (Some response) =>
      match sink response with
      | Err e => (Err (Source_error e), c)
      | Ok outcome => (Ok (Progress_Opened start_id), record_handoff start_id outcome c)
      end
  | Ok None =>
      let state := drive_state c in
      let funding := ch_funding state in
      let channel := ps_channel funding in
      ((let? contest := ok_or (close_opened funding) (CatchUp_Close NoContest) in
        let inclusion := checked_sub (contest_response_deadline contest)
                           (wp_omit_response_blocks (channel_payment_terms channel)) in
        if is_some inclusion
           && bool_decide (inclusion = checked_add (ps_cursor funding).1 1)
        then Ok (Progress_Opened start_id) else
        let? pending := finalized_contest state in
        if pending_responded pending || (pending_response_deadline pending <=? (ps_cursor funding).1)
        then
          let? tx := map_err CatchUp_Close
                       (adjudicated_close channel (ps_settlement funding) pending) in
          let? outcome := map_err Source_error (sink tx) in
          Ok (AdjudicationSubmitted start_id outcome)
        else Ok (Progress_Opened start_id)), c)
  end.

(* [crates/channel/src/work_close.rs:1076-1165] advance_close_inner *)
Definition advance_close (c : C) : option (result CloseProgress CatchUpError * C) :=
  match catch_up_until_duty (channel_handoff c) c with
  | None => None
  | Some (Err e, c) => Some (Err e, c)
  | Some (Ok height, c) =>
      let state := drive_state c in
      Some match close_settled (ch_funding state) with
      | Some settled => (Ok (Progress_Settled (provider_payout settled)), c)
      | None =>
          match close_opened (ch_funding state) with
          | Some contest => advance_contest (contest_start_id contest) c
          | None =>
              match includable_close_start state height with
              | None => (Ok Progress_Nothing, c)
              | Some start =>
                  ((let? outcome := map_err Source_error
                                      (sink (Tx_Move (StartPaymentClose start))) in
                    Ok (Submitted (start_valid_through_height start) outcome)), c)
              end
          end
      end
  end.
End drive.

(** ** The provider's close half *)

Definition role_name (role : Role) : string :=
  match role with Client => "client" | Provider => "provider" end.

(* [crates/channel/src/work.rs:470-492] bind_store *)
Definition bind_store (state : Channel) (signer : Secp256k1Signer) (role : Role)
    : result unit EndpointError :=
  if negb (bool_decide (ch_role state = role))
  then Err (Endpoint_WrongRole (role_name role) (role_name (ch_role state))) else
  let channel := ps_channel (ch_funding state) in
  let party := match role with Client => client_key channel | Provider => provider_key channel end in
  if negb (bool_decide (party_key signer = party)) then Err (WrongKey (role_name role)) else Ok tt.

(* [crates/channel/src/work.rs:581-588] CloseEndpoint::new *)
Definition CloseEndpoint_new (store : ChannelStore) (signer : Secp256k1Signer)
    : result CloseEndpoint EndpointError :=
  let? _ := bind_store (st_state store) signer Provider in
  Ok (mk_CloseEndpoint store signer None).

(** [prepare_close] of either endpoint: a start that can still be included is
    returned again, and a new one is durable before it is. *)
(* [crates/channel/src/work.rs:1405-1420] CloseEndpoint::prepare_close *)
Definition prepare_close (opener : Party) (signer : Secp256k1Signer) (st : ChannelStore)
    : result PaymentCloseStart CloseError * ChannelStore :=
  let state := st_state st in
  let height := (ps_cursor (ch_funding state)).1 in
  match includable_close_start state height with
  | Some retained => (Ok retained, st)
  | None =>
      match close_start (ps_channel (ch_funding state)) opener height
              (executable_certificate state) signer with
      | Err e => (Err e, st)
      | Ok start =>
          let '(r, st) := commit verifier (ClosePrepared start) st in
          ((let? _ := map_err Close_Store r in Ok start), st)
      end
  end.

(* [crates/channel/src/work.rs:1563-1578] CloseEndpoint::adjudicated_close *)
Definition endpoint_adjudicated_close (state : Channel) (observed : ObservedChannel)
    : result Tx CloseError :=
  let? held := ok_or (close_opened (ch_funding state)) NoContest in
  match observed_pending observed with
  | Pending_Present record =>
      if negb (bool_decide (pending_start_id record = contest_start_id held))
      then Err OtherContest else
      if negb (pending_responded record)
         && (observed_height observed <? pending_response_deadline record)
      then Err (Close_ResponseWindowOpen (observed_height observed)
                  (pending_response_deadline record)) else
      adjudicated_close (ps_channel (ch_funding state)) (ps_settlement (ch_funding state)) record
  | _ => Err NoContest
  end.

(* [crates/channel/src/work.rs:1606-1648] CloseEndpoint::respond_to_close *)
Definition respond_to_close (observed : ObservedChannel) (self : CloseEndpoint)
    : result Tx CloseError * CloseEndpoint :=
  let state := close_state self in
  let channel := ps_channel (ch_funding state) in
  match
    let? contest := ok_or (close_opened (ch_funding state)) NoContest in
    let held := contest_start_id contest in
    match observed_pending observed with
    | Pending_Present record =>
        if negb (bool_decide (pending_start_id record = held)) then Err OtherContest else
        if pending_responded record then Err Close_AlreadyResponded else
        if pending_response_deadline record <=? observed_height observed
        then Err (Close_ResponseWindowClosed (observed_height observed)
                    (pending_response_deadline record)) else
        let? certificate :=
          match executable_certificate state with
          | Some certificate =>
              if pending_final_cumulative record <? cert_earned_cumulative certificate.1
              then Ok certificate
              else Err (NothingToAdd (max_executable_certificate state)
                          (pending_final_cumulative record))
          | None => Err (NothingToAdd (max_executable_certificate state)
                           (pending_final_cumulative record))
          end in
        let? response := close_response channel held certificate (close_signer self) in
        Ok (mk_RespondedContest held (response_body_digest channel held certificate.1), response)
    | _ => Err NoContest
    end
  with
  | Err e => (Err e, self)
  | Ok (answer, response) =>
      let '(r, st) := commit verifier (CloseResponded answer) (close_store self) in
      ((let? _ := map_err Close_Store r in Ok (Tx_Move (RespondPaymentClose response))),
       with_store st self)
  end.
End watch.
