(* ===== verification/Mirror.v ===== *)
(** * The chain as a watcher reads it

    What the kernel holds of a channel's payment edge, told in the terms an
    endpoint's journal uses: the contest opened, the settlement, the contest's
    record. Each transaction the kernel accepts moves this view exactly as the
    endpoint's own reading of that transaction does. *)

From S2P Require Import Prelude Xet XetChunk Canonical Primitive Errors BoundedList Context Auth.
From S2P Require Import Objects Registry View Store Event Terms Work Lease Tx WorkTx OpenTx CloseTx.
From S2P Require Import Apply State Spec Validate Conservation Invariant Contest Kernel Settlement.
From S2P Require Import PaidWork JobBook JobInput ChannelState ChannelSteps.
From S2P Require Import ChannelInvariant ChannelReplay ChannelCodec ChannelCheckpoint ChannelReopen.
From S2P Require Import ChannelFits Journal ChannelLedger ChannelStore ChannelDurable Setup CloseWatch.

#[local] Open Scope N_scope.

(** The newer of two values, if there is one. *)
Definition over {A} (new old : option A) : option A :=
  match new with Some a => Some a | None => old end.

(** ** The kernel's side *)

Section chain.
  Context `{Blake3} (kv : SigVerifier) (c : PaidChannel) (settlement : WorkPaymentSettlement)
    (edge : Edge).

Let e : EdgeId := channel_payment_edge c.
Let terms : WorkPaymentTerms := channel_payment_terms c.

(** The funded payment edge of the channel, as the kernel holds it. *)
Record funded_edge : Prop := {
  fe_hash : channel_payment_terms_hash c = Terms_hash (Terms_work_payment terms);
  fe_terms : Edge_terms edge = channel_payment_terms_hash c;
  fe_parties : Edge_parties edge = WorkPaymentTerms_parties terms;
  fe_settlement : work_payment_settlement (Edge_values edge) (wp_omission_bond terms) = Some settlement;
  fe_adjudicated : Edge_allows edge Adjudicated = true;
}.

(** A transaction of the chain: well formed, colliding with no slot of the
    channel, revealing the channel's terms where it reveals terms under their
    hash, and not opening the channel's edge again. *)
Record usual (tx : Tx) : Prop := {
  us_wf : wf Tx_codec tx = true;
  us_isolated : isolated (channel_network c) e tx;
  us_terms : match tx with
             | Tx_Move (StartPaymentClose start) =>
                 start_payment_edge start = e ->
                 Terms_hash (start_terms start) = channel_payment_terms_hash c ->
                 start_terms start = Terms_work_payment terms
             | _ => True
             end;
  us_fresh : match tx with
             | Tx_Open funding t _ _ => Tx_edge_id_of funding t <> e
             | _ => True
             end;
}.

(** What one transaction of a block says about the channel. *)
Definition tx_contest (height : N) (tx : Tx) : option OpenContest :=
  match tx with
  | Tx_Move (StartPaymentClose start) =>
      if bool_decide (start_payment_edge start = e) then
        Some (mk_OpenContest (start_id (start_body_digest c start) height) (start_opener_role start)
                (saturating_add height (wp_omit_response_blocks terms)) (start_claimed start))
      else None
  | _ => None
  end.

Definition provider_paid (outputs : list Payout) : N :=
  match List.find (fun payout => bool_decide (Payout_owner payout
          = PartyKeys_owner (Parties_taker (WorkPaymentTerms_parties terms)))) outputs with
  | Some payout => Payout_value payout
  | None => 0
  end.

Definition tx_settlement (height : N) (payload : bytes) (tx : Tx) : option CloseSettlement :=
  match tx with
  | Tx_Close input _ outputs =>
      if bool_decide (input = e)
      then Some (mk_CloseSettlement height payload (provider_paid outputs)) else None
  | _ => None
  end.

Definition contest_of_record (r : PendingPaymentClose) : OpenContest :=
  mk_OpenContest (pending_start_id r) (pending_opener_role r) (pending_response_deadline r)
    (pending_start_cumulative r).

(** A record of the channel's contest: funded by the edge, shaped by the machine,
    and opened between [lo] and [height]. *)
Record record_ok (lo height : N) (r : PendingPaymentClose) : Prop := {
  ro_edge : pending_payment_edge r = e;
  ro_funded : pending_final_cumulative r <= settlement_capacity settlement;
  ro_bond : pending_penalty_amount r = wp_omission_bond terms;
  ro_inv : contest_inv r;
  ro_opened : exists h0, lo <= h0 <= height /\
    pending_response_deadline r = h0 + wp_omit_response_blocks terms;
  ro_deadline : pending_response_deadline r <= U64_MAX;
}.

(** What the kernel holds of the channel at [height], told as what an endpoint
    that read everything so far has opened [o], settled [t] and retained [p]. *)
Definition kernel_view (lo height : N) (o : option OpenContest) (t : option CloseSettlement)
    (p : option PendingPaymentClose) (k : KState) : Prop :=
  match t with
  | Some _ => ks_edges k !! e = None
  | None =>
      ks_edges k !! e = Some edge /\
      match contest_of k (channel_network c) e with
      | Pending_Absent => o = None /\ p = None
      | Pending_Present r => o = Some (contest_of_record r) /\ p = Some r /\ record_ok lo height r
      | Pending_Faulty _ => False
      end
  end.

(** What a block leaves opened and settled. *)
Definition opened_after (height : N) (o : option OpenContest) (txs : list Tx) : option OpenContest :=
  foldl (fun o tx => over (tx_contest height tx) o) o txs.
Definition settled_after (height : N) (payload : bytes) (t : option CloseSettlement) (txs : list Tx)
    : option CloseSettlement :=
  foldl (fun t tx => over (tx_settlement height payload tx) t) t txs.

(** A block the kernel accepted. *)
Inductive block_run (height : N) : list Tx -> KState -> KState -> Prop :=
  | block_nil k : block_run height [] k k
  | block_cons tx txs context o k k1 k2 :
      Context_network context = channel_network c -> Context_block_height context = height ->
      usual tx -> kapply context kv tx k = Ok (o, k1) -> block_run height txs k1 k2 ->
      block_run height (tx :: txs) k k2.

Hypothesis Hedge : funded_edge.

Lemma settlement_capacity_edge :
  payment_capacity edge (wp_omission_bond terms) = Some (settlement_capacity settlement).
Proof. unfold payment_capacity. by rewrite (fe_settlement Hedge). Qed.

(** An absent edge stays absent until it is opened. *)
Lemma kapply_edge_absent context tx k o k' :
  kapply context kv tx k = Ok (o, k') -> ks_edges k !! e = None -> usual tx ->
  ks_edges k' !! e = None /\ tx_contest (Context_block_height context) tx = None /\
  (forall payload, tx_settlement (Context_block_height context) payload tx = None).
Proof.
  intros (ch & Hk & _ & _ & ->)%kapply_Ok He Hu. unfold kcheck in Hk.
  destruct tx as [f t ma ta|input proof outputs|[start|response]|r]; cbn [Tx_apply Move_apply] in Hk.
  - apply apply_open_Ok in Hk as (coins & d & registry & _ & ->). split; [|done].
    cbn. rewrite lookup_insert_ne; [done|]. apply (us_fresh _ Hu).
  - apply apply_close_Ok in Hk as (e' & total & staged & [] & ->). cbn.
    assert (input <> e) by congruence. rewrite lookup_delete_ne by done.
    by rewrite bool_decide_eq_false_2.
  - apply apply_start_Ok in Hk as (? & ? & ? & ? & [] & ->). cbn.
    assert (start_payment_edge start <> e) by congruence. by rewrite bool_decide_eq_false_2.
  - by apply apply_response_Ok in Hk as (? & ? & ? & _ & _ & ->).
  - by apply Reshape_apply_Ok in Hk as (? & ? & _ & ->).
Qed.

Lemma record_ok_later lo h h' r : h <= h' -> record_ok lo h r -> record_ok lo h' r.
Proof. intros Hle [? ? ? ? (h0 & ? & ?) ?]. split; try done. exists h0. split; [lia|done]. Qed.

Lemma kernel_view_later lo h h' o t p k :
  h <= h' -> kernel_view lo h o t p k -> kernel_view lo h' o t p k.
Proof.
  unfold kernel_view. intros Hle. destruct t; [done|]. intros [? Hc]. split; [done|].
  destruct (contest_of _ _ _); try done. destruct Hc as (? & ? & ?).
  split_and!; try done. by eapply record_ok_later.
Qed.

(** The record an accepted start of the channel writes. *)
Lemma start_view lo context start k payment deadline chunk edge' :
  Context_network context = channel_network c -> usual (Tx_Move (StartPaymentClose start)) ->
  ks_edges k !! e = Some edge -> start_payment_edge start = e ->
  StartAccepted start context kv k edge' payment deadline chunk ->
  let r := started start context payment deadline in
  (lo <= Context_block_height context -> record_ok lo (Context_block_height context) r) /\
  tx_contest (Context_block_height context) (Tx_Move (StartPaymentClose start))
    = Some (contest_of_record r) /\
  Terms_hash (start_terms start) = channel_payment_terms_hash c /\
  PendingPaymentClose_from_accepted_start (channel_network c) (Context_block_height context) start
    = Some r /\ pending_response_deadline r = Context_block_height context + wp_omit_response_blocks terms.
Proof.
  intros Hn Hu He Hs [] r. rewrite Hs, He in sa_edge. injection sa_edge as <-.
  rewrite (fe_terms Hedge) in *. pose proof (us_terms _ Hu Hs sa_terms) as Ht.
  rewrite Ht in sa_profile. injection sa_profile as <-.
  pose proof sa_deadline as Hd. apply checked_add_Some in Hd as [-> Hd].
  assert (start_claim start <= settlement_capacity settlement) as Hc.
  { unfold start_claim. destruct (start_certificate start) as [[cert auth]|]; [|lia].
    destruct (sa_certificate _ _ eq_refl) as (_ & _ & _ & (cap & Hcap & Hle) & _).
    rewrite settlement_capacity_edge in Hcap. by injection Hcap as <-. }
  split_and!; try done.
  - intros Hlo. split; try done; [split; cbn; by try intros; lia..|]. exists (Context_block_height context). split; [lia|done].
  - cbn [tx_contest]. rewrite bool_decide_eq_true_2 by done. unfold contest_of_record, r, started.
    unfold start_body_digest. rewrite Hn. unfold saturating_add, PendingPaymentClose_opened.
    cbn. rewrite N.min_l by done. done.
  - unfold PendingPaymentClose_from_accepted_start. rewrite Ht. cbn [Terms_work_payment Terms_profile].
    unfold r, started. rewrite Hn in *. unfold start_claim.
    change (Terms_profile (Terms_work_payment terms)) with (Profile_WorkPayment terms). cbn iota.
    rewrite sa_deadline. done.
Qed.

(** A transaction that asks nothing of the contest and leaves the edge. *)
Lemma idle_view lo context tx k out k' h o p :
  Context_network context = channel_network c -> usual tx -> kapply context kv tx k = Ok (out, k') ->
  tx_label e tx = L_idle -> match tx with Tx_Close input _ _ => input <> e | _ => True end ->
  kernel_view lo h o None p k -> kernel_view lo h o None p k'.
Proof.
  intros Hn [Hwf Hi _ _] Hk Hl Ho [He Hc]. split; [by eapply kapply_edge_kept|].
  rewrite <- Hn in *. pose proof (kapply_refines_contest _ _ _ _ _ _ e Hk Hwf Hi) as Hstep.
  rewrite Hl in Hstep. by rewrite (contest_step_idle _ _ _ Hstep).
Qed.

(** An accepted response of the channel. *)
Lemma response_view lo context response k out k' h o p contest :
  Context_network context = channel_network c -> Context_block_height context = h ->
  usual (Tx_Move (RespondPaymentClose response)) -> resp_payment_edge response = e ->
  kapply context kv (Tx_Move (RespondPaymentClose response)) k = Ok (out, k') ->
  kernel_view lo h o None p k ->
  exists p', contest_tx c h contest p (Tx_Move (RespondPaymentClose response)) = Ok p' /\
    kernel_view lo h o None p' k'.
Proof.
  intros Hn Hh Hu Hr Hk [He Hc].
  pose proof (kapply_edge_kept _ _ _ _ _ _ _ _ Hk He I) as He'.
  pose proof (kapply_refines_contest _ _ _ _ _ _ e Hk (us_wf _ Hu)) as Hstep.
  rewrite Hn in Hstep. specialize (Hstep (us_isolated _ Hu)).
  apply kapply_Ok in Hk as (ch & Hk & _ & _ & ->). unfold kcheck in Hk. cbn [Tx_apply Move_apply] in Hk.
  apply apply_response_Ok in Hk as (e' & record & chunk & Ha & Hch & ->).
  destruct (respond_writes _ _ _ _ _ _ _ _ Ha Hch (us_wf _ Hu) Hr) as [Hb Hw].
  rewrite Hr in *. rewrite Hn in *. rewrite Hb in *. rewrite Hw in Hstep.
  destruct Hc as (-> & -> & Hrec). destruct Ha. rewrite Hr in *. rewrite He in pa_edge. injection pa_edge as <-.
  exists (Some (PendingPaymentClose_with_accepted_response record response)). split.
  - cbn [contest_tx]. fold e. rewrite (bool_decide_eq_true_2 (resp_payment_edge response = e)) by done.
    cbn [negb ok_or rbind]. rewrite bool_decide_eq_true_2, pa_first by done. cbn.
    rewrite (proj2 (N.leb_gt _ _)) by lia. done.
  - unfold kernel_view. split; [done|]. rewrite Hw. split_and!; try done. destruct Hrec.
    apply contest_step_inv in Hstep; [|done]. split; try done.
    destruct pa_capacity as (cap & Hcap & Hle). rewrite ro_bond0, settlement_capacity_edge in Hcap.
    by injection Hcap as <-.
Qed.

(** Each accepted transaction moves the view as the watcher's reading of it does. *)
Lemma kernel_view_step lo context tx k out k' h payload o t p contest :
  Context_network context = channel_network c -> Context_block_height context = h -> usual tx ->
  kapply context kv tx k = Ok (out, k') -> lo <= h -> kernel_view lo h o t p k ->
  (forall x, tx_contest h tx = Some x -> contest = x) ->
  match over (tx_settlement h payload tx) t with
  | Some _ => ks_edges k' !! e = None
  | None => exists p', contest_tx c h contest p tx = Ok p' /\
      kernel_view lo h (over (tx_contest h tx) o) None p' k'
  end.
Proof.
  intros Hn Hh Hu Hk Hlo Hv Hx. destruct t as [t|].
  { subst h. destruct (kapply_edge_absent _ _ _ _ _ Hk Hv Hu) as (He & _ & ->). done. }
  destruct tx as [f tm ma ta|input proof outputs|[start|response]|r]; cbn [tx_settlement over].
  - exists p. split; [done|]. by eapply idle_view.
  - case_bool_decide as Hi; cbn [over].
    + apply kapply_Ok in Hk as (ch & Hk & _ & _ & ->). unfold kcheck in Hk. cbn [Tx_apply] in Hk.
      apply apply_close_Ok in Hk as (? & ? & ? & _ & ->). cbn. subst input. by rewrite lookup_delete_eq.
    + exists p. cbn [contest_tx tx_contest over]. fold e. rewrite bool_decide_eq_false_2 by done. split; [done|].
      eapply idle_view; try done. destruct proof; cbn [tx_label]; try done; by rewrite bool_decide_eq_false_2.
  - destruct (decide (start_payment_edge start = e)) as [Hs|Hs].
    + destruct Hv as [He Hc]. pose proof (kapply_edge_kept _ _ _ _ _ _ _ _ Hk He I) as He'.
      apply kapply_Ok in Hk as (ch & Hk & _ & _ & ->). unfold kcheck in Hk. cbn [Tx_apply Move_apply] in Hk.
      apply apply_start_Ok in Hk as (e' & pay & dl & chunk & Ha & ->).
      destruct (start_view lo _ _ _ _ _ _ _ Hn Hu He Hs Ha) as (Hr & Htx & Ht & Hf & _).
      destruct (start_writes _ _ _ _ _ _ _ _ _ Ha (us_wf _ Hu) Hs) as [Hb Hw].
      rewrite Hh in *. rewrite Htx in *. rewrite (Hx _ eq_refl). rewrite Hn in *. rewrite Hs in *. rewrite Hb in Hc.
      destruct Hc as [-> ->]. exists (Some (started start context pay dl)). split.
      * cbn [contest_tx]. fold e. rewrite (bool_decide_eq_true_2 (start_payment_edge start = e)) by done.
        cbn [negb is_some orb]. rewrite bool_decide_eq_true_2 by done. cbn [negb].
        rewrite Hf. cbn [ok_or rbind contest_of_record contest_start_id contest_opener
          contest_response_deadline contest_claimed]. rewrite !bool_decide_eq_true_2, !N.eqb_refl by done. done.
      * unfold kernel_view. split; [done|]. rewrite Hw. split_and!; try done. by apply Hr.
    + exists p. cbn [contest_tx tx_contest over]. fold e. rewrite bool_decide_eq_false_2 by done. split; [done|].
      eapply idle_view; try done. cbn [tx_label]. by rewrite bool_decide_eq_false_2.
  - destruct (decide (resp_payment_edge response = e)) as [Hr|Hr]; [by eapply response_view|].
    exists p. cbn [contest_tx tx_contest over]. fold e. rewrite bool_decide_eq_false_2 by done. split; [done|].
    eapply idle_view; try done. cbn [tx_label]. by rewrite bool_decide_eq_false_2.
  - exists p. split; [done|]. by eapply idle_view.
Qed.

(** One step, whatever the watcher retained. *)
Lemma kernel_view_next lo context tx k out k' h payload o t p :
  Context_network context = channel_network c -> Context_block_height context = h -> usual tx ->
  kapply context kv tx k = Ok (out, k') -> lo <= h -> kernel_view lo h o t p k ->
  exists p', kernel_view lo h (over (tx_contest h tx) o) (over (tx_settlement h payload tx) t) p' k' /\
    (forall x y, tx_contest h tx = Some x -> o = Some y -> False).
Proof.
  intros Hn Hh Hu Hk Hlo Hv.
  set (contest := default (mk_OpenContest (StartId_from_bytes []) Maker 0 0) (tx_contest h tx)).
  assert (forall x y, tx_contest h tx = Some x -> o = Some y -> False) as Hone.
  { intros x y Hx ->. destruct t as [t|].
    { subst h. destruct (kapply_edge_absent _ _ _ _ _ Hk Hv Hu) as (_ & Hnone & _). congruence. }
    destruct Hv as [He Hc]. destruct tx as [| |[start|]|]; try done. cbn [tx_contest] in Hx.
    case_bool_decide as Hs; [|done].
    apply kapply_Ok in Hk as (ch & Hk & _ & _ & ->). unfold kcheck in Hk. cbn [Tx_apply Move_apply] in Hk.
    apply apply_start_Ok in Hk as (e' & pay & dl & chunk & [] & _).
    rewrite Hs, Hn in sa_absent. apply contest_of_absent in sa_absent. rewrite sa_absent in Hc. by destruct Hc. }
  pose proof (kernel_view_step lo context tx k out k' h payload o t p contest Hn Hh Hu Hk Hlo Hv) as Hstep.
  destruct (over (tx_settlement h payload tx) t) as [t'|] eqn:Ht.
  - exists p. split; [|done]. apply Hstep. intros x Hx. unfold contest. by rewrite Hx.
  - destruct Hstep as (p' & _ & Hv'); [intros x Hx; unfold contest; by rewrite Hx|]. by exists p'.
Qed.

Lemma opened_stable lo h txs k k' x t p :
  lo <= h -> block_run h txs k k' -> kernel_view lo h (Some x) t p k -> opened_after h (Some x) txs = Some x.
Proof.
  intros Hlo Hr. revert t p. induction Hr as [|tx txs context out k k1 k2 Hn Hh Hu Hk _ IH]; intros t p Hv; [done|].
  destruct (kernel_view_next lo _ _ _ _ _ _ [] _ _ _ Hn Hh Hu Hk Hlo Hv) as (p' & Hv' & Hone).
  unfold opened_after in *. cbn [foldl]. destruct (tx_contest h tx) as [y|] eqn:Hy; [by destruct (Hone y x)|].
  by eapply IH.
Qed.

Lemma settled_stable h payload txs t :
  settled_after h payload (Some t) txs <> None.
Proof.
  unfold settled_after. revert t. induction txs as [|tx txs IH]; intros t; [done|]. cbn [foldl].
  destruct (tx_settlement h payload tx); apply IH.
Qed.

(** Each accepted block moves the view as the watcher's reading of it does. *)
Lemma kernel_view_block lo h payload txs k k' o t p contest :
  lo <= h -> block_run h txs k k' -> kernel_view lo h o t p k ->
  (forall x, opened_after h o txs = Some x -> contest = x) ->
  match settled_after h payload t txs with
  | Some _ => ks_edges k' !! e = None
  | None => exists p', rfold (contest_tx c h contest) p txs = Ok p' /\
      kernel_view lo h (opened_after h o txs) None p' k'
  end.
Proof.
  intros Hlo Hr. revert o t p. induction Hr as [|tx txs context out k k1 k2 Hn Hh Hu Hk Hrun IH];
    intros o t p Hv Hx.
  - cbn. destruct t; [done|]. by exists p.
  - destruct (kernel_view_next lo _ _ _ _ _ _ payload _ _ _ Hn Hh Hu Hk Hlo Hv) as (p1 & Hv1 & Hone).
    assert (forall x, tx_contest h tx = Some x -> contest = x) as Hx1.
    { intros x Htx. apply Hx. unfold opened_after. cbn [foldl]. rewrite Htx in *. by eapply opened_stable. }
    pose proof (kernel_view_step lo context tx k out k1 h payload o t p contest Hn Hh Hu Hk Hlo Hv Hx1) as Hstep.
    unfold opened_after, settled_after in *. cbn [foldl rfold] in *.
    destruct (over (tx_settlement h payload tx) t) as [t1|] eqn:Ht1.
    + specialize (IH _ (Some t1) p Hstep Hx). destruct (foldl _ (Some t1) txs) eqn:E; [done|].
      by apply settled_stable in E.
    + destruct Hstep as (p' & -> & Hv'). cbn [rbind]. by apply IH.
Qed.

Lemma block_run_app h a b k k' :
  block_run h (a ++ b) k k' -> exists k1, block_run h a k k1 /\ block_run h b k1 k'.
Proof.
  revert k. induction a as [|tx a IH]; intros k Hr; [exists k; split; [constructor|done]|].
  cbn [app] in Hr. inversion_clear Hr as [|? ? context o ? k1 ? Hn Hh Hu Hk Hrun].
  destruct (IH _ Hrun) as (k2 & ? & ?). exists k2. split; [by econstructor|done].
Qed.

Lemma kernel_view_prefix lo h payload txs k k' o t p :
  lo <= h -> block_run h txs k k' -> kernel_view lo h o t p k ->
  exists p', kernel_view lo h (opened_after h o txs) (settled_after h payload t txs) p' k'.
Proof.
  intros Hlo Hr. revert o t p. induction Hr as [|tx txs context out k k1 k2 Hn Hh Hu Hk Hrun IH];
    intros o t p Hv; [by exists p|].
  destruct (kernel_view_next lo _ _ _ _ _ _ payload _ _ _ Hn Hh Hu Hk Hlo Hv) as (p1 & Hv1 & _).
  by apply IH in Hv1.
Qed.

(** Once the edge is gone, the rest of the chain says nothing of it. *)
Lemma absent_quiet h payload txs k k' o t :
  block_run h txs k k' -> ks_edges k !! e = None ->
  ks_edges k' !! e = None /\ opened_after h o txs = o /\ settled_after h payload t txs = t.
Proof.
  intros Hr. induction Hr as [|tx txs context out k k1 k2 Hn Hh Hu Hk Hrun IH]; intros He; [done|].
  destruct (kapply_edge_absent _ _ _ _ _ Hk He Hu) as (He1 & Ho & Ht). rewrite Hh in *.
  unfold opened_after, settled_after in *. cbn [foldl]. rewrite Ho, Ht. by apply IH.
Qed.

Lemma opened_after_app h o a b : opened_after h o (a ++ b) = opened_after h (opened_after h o a) b.
Proof. apply foldl_app. Qed.
Lemma settled_after_app h payload t a b :
  settled_after h payload t (a ++ b) = settled_after h payload (settled_after h payload t a) b.
Proof. apply foldl_app. Qed.

(** The contest a block opens is the first and the last of the edge. *)
Lemma contest_once h payload a tx b k k' o t p x :
  block_run h (a ++ tx :: b) k k' -> kernel_view 0 h o t p k -> tx_contest h tx = Some x ->
  opened_after h o a = None /\ settled_after h payload t a = None /\
  forall b1 b2, b = b1 ++ b2 -> opened_after h o (a ++ tx :: b1) = Some x.
Proof.
  intros Hr Hv Hx. apply block_run_app in Hr as (k1 & Ha & Hb).
  destruct (kernel_view_prefix 0 h payload a k k1 o t p) as (p1 & Hv1); [lia|done..|].
  inversion_clear Hb as [|? ? context out ? k2 ? Hn Hh Hu Hk Hrun].
  destruct (kernel_view_next 0 _ _ _ _ _ _ payload _ _ _ Hn Hh Hu Hk (N.le_0_l _) Hv1) as (p2 & Hv2 & Hone).
  split_and!.
  - destruct (opened_after h o a) as [y|]; [by destruct (Hone x y)|done].
  - destruct (settled_after h payload t a) as [y|]; [|done].
    destruct (kapply_edge_absent _ _ _ _ _ Hk Hv1 Hu) as (_ & Hno & _). congruence.
  - intros b1 b2 ->. apply block_run_app in Hrun as (k3 & Hb1 & _). rewrite opened_after_app.
    unfold opened_after at 1. cbn [foldl]. rewrite Hx in *. eapply (opened_stable 0); [lia|done|]. exact Hv2.
Qed.

(** So is the settlement. *)
Lemma settlement_once h payload a tx b k k' o t p y :
  block_run h (a ++ tx :: b) k k' -> kernel_view 0 h o t p k -> tx_settlement h payload tx = Some y ->
  settled_after h payload t a = None /\
  forall b1 b2, b = b1 ++ b2 -> settled_after h payload t (a ++ tx :: b1) = Some y.
Proof.
  intros Hr Hv Hy. apply block_run_app in Hr as (k1 & Ha & Hb).
  destruct (kernel_view_prefix 0 h payload a k k1 o t p) as (p1 & Hv1); [lia|done..|].
  inversion_clear Hb as [|? ? context out ? k2 ? Hn Hh Hu Hk Hrun].
  destruct (kernel_view_next 0 _ _ _ _ _ _ payload _ _ _ Hn Hh Hu Hk (N.le_0_l _) Hv1) as (p2 & Hv2 & Hone).
  rewrite Hy in Hv2. cbn [over kernel_view] in Hv2. split.
  - destruct (settled_after h payload t a) as [z|]; [|done].
    destruct (kapply_edge_absent _ _ _ _ _ Hk Hv1 Hu) as (_ & _ & Hno). rewrite Hh in Hno. by rewrite Hno in Hy.
  - intros b1 b2 ->. apply block_run_app in Hrun as (k3 & Hb1 & _). rewrite settled_after_app.
    unfold settled_after at 1. cbn [foldl]. rewrite Hy. cbn [over].
    by apply (absent_quiet h payload b1 k2 k3 o (Some y)).
Qed.

(** A record only gains an answer before its deadline. *)
Lemma contest_fold h contest txs r p :
  rfold (contest_tx c h contest) (Some r) txs = Ok p ->
  exists r', p = Some r' /\ (r' = r \/ pending_responded r = false /\ h < pending_response_deadline r /\
    exists response, r' = PendingPaymentClose_with_accepted_response r response).
Proof.
  revert r. induction txs as [|tx txs IH]; intros r; cbn [rfold].
  { intros [= <-]. exists r. auto. }
  intros Hf. apply rbind_Ok in Hf as (q & Hq & Hf).
  assert (q = Some r \/ pending_responded r = false /\ h < pending_response_deadline r /\
    exists response, q = Some (PendingPaymentClose_with_accepted_response r response)) as [->|(Hr & Hd & resp & ->)].
  { destruct tx as [| |[start|response]|]; cbn [contest_tx is_some orb] in Hq; repeat case_match; try by simplify_eq; auto.
    all: guards; simplify_eq; eauto 10. }
  - by apply IH.
  - apply IH in Hf as (r' & -> & [->|(Hr' & _)]); [|done]. exists (PendingPaymentClose_with_accepted_response r resp).
    split; [done|]. right. eauto.
Qed.

End chain.
