(* ===== verification/Watch.v ===== *)
(** * The watcher mirrors the chain

    An endpoint that reads the finalized blocks of a chain whose transactions the
    kernel accepted holds, after each block, exactly what the kernel holds of its
    payment edge: whether it is open, the contest on it, and the contest's record.
    A block interrupted by a storage fault is read again to the same end. *)

From S2P Require Import Prelude Xet XetChunk Canonical Primitive Errors BoundedList Context Auth.
From S2P Require Import Objects Registry View Store Event Terms Work Lease Tx WorkTx OpenTx CloseTx.
From S2P Require Import Apply State Spec Validate Conservation Invariant Contest Kernel Settlement.
From S2P Require Import PaidWork JobBook JobInput ChannelState ChannelSteps.
From S2P Require Import ChannelInvariant ChannelReplay ChannelCodec ChannelCheckpoint ChannelReopen.
From S2P Require Import ChannelFits Journal ChannelLedger ChannelStore ChannelDurable Setup CloseWatch.
From S2P Require Import Mirror.

#[local] Open Scope N_scope.

(** ** Commits of a watcher *)

Section commits.
  Context `{Blake3} `{Gearhash} `{Invocations} `{Uploads} (v : SigVerifier).

(** An action that leaves the channel's state and fails only on storage. *)
Definition keeps {A} (m : Act A) : Prop :=
  forall st r st', m st = (r, st') ->
  st_state st' = st_state st /\ forall e, r <> Err (Channel_error e).

Lemma keeps_ret {A} (a : A) : keeps (act_ret a).
Proof. by intros st r st' [= <- <-]. Qed.
Lemma keeps_get {A} (f : ChannelStore -> A) : keeps (act_get f).
Proof. by intros st r st' [= <- <-]. Qed.
Lemma keeps_content {A} (r : result A ContentError) : keeps (act_lift Content_error r).
Proof. intros st r' st' [= <- <-]. by destruct r. Qed.
Lemma keeps_journal_error {A} (r : result A JournalError) : keeps (act_lift Journal_error r).
Proof. intros st r' st' [= <- <-]. by destruct r. Qed.
Lemma keeps_uploads {A} (f : UploadStore -> result A ContentError * UploadStore) : keeps (act_uploads f).
Proof. intros st r st' Hm. unfold act_uploads in Hm. destruct (f _) as [[] ?]; by simplify_eq. Qed.
Lemma keeps_journal f : keeps (act_journal f).
Proof. intros st r st' Hm. unfold act_journal in Hm. destruct (f _ _) as [[? ?] ?]. by simplify_eq. Qed.
Lemma keeps_bind {A B} (m : Act A) (k : A -> Act B) :
  keeps m -> (forall a, keeps (k a)) -> keeps (act_bind m k).
Proof.
  intros Hm Hk st r st'. unfold act_bind. destruct (m st) as [[a|e] st1] eqn:E; apply Hm in E as [E1 E2].
  - intros Hr. apply Hk in Hr as [-> ?]. done.
  - intros [= <- <-]. split; [done|]. intros e' [= ->]. by eapply E2.
Qed.
Lemma keeps_each {A} (f : A -> Act unit) l : (forall a, keeps (f a)) -> keeps (act_each f l).
Proof. intros Hf. induction l as [|a l IH]; [apply keeps_ret|]. cbn [act_each]. by apply keeps_bind. Qed.

Create HintDb keeps.
#[local] Hint Resolve keeps_ret keeps_get keeps_content keeps_journal_error keeps_uploads keeps_journal
  keeps_bind keeps_each : keeps.
#[local] Ltac keeps :=
  repeat first [ done | solve [eauto with keeps] | apply keeps_bind; [|intros ?]
               | apply keeps_each; intros ? | case_match | progress cbv zeta ].

Lemma keeps_promote : keeps promote_accepted_content.
Proof. unfold promote_accepted_content. keeps. Qed.
Lemma keeps_gc : keeps gc_uploads.
Proof. unfold gc_uploads. apply keeps_bind; [apply keeps_promote|]. keeps. Qed.
Lemma keeps_rotate : keeps rotate.
Proof. unfold rotate. keeps. Qed.
Lemma keeps_rotate_if_full b : keeps (rotate_if_full b).
Proof. unfold rotate_if_full. keeps. Qed.
Lemma keeps_fits next record : keeps (checkpoint_fits next record).
Proof. unfold checkpoint_fits. keeps. Qed.

(** The store holds [s]; a step that leaves the state. *)
Definition holding (s : Channel) (st : ChannelStore) : Prop := st_state st = s.
Definition still {A} (m : Act A) : Prop := forall st r st', m st = (r, st') -> st_state st' = st_state st.

Lemma still_content {A} (m : Act A) : content_only m -> still m.
Proof. intros Hm st r st' Hr. apply Hm in Hr. by destruct Hr as (_ & ? & _). Qed.
Lemma still_keeps {A} (m : Act A) : keeps m -> still m.
Proof. intros Hm st r st' Hr. by apply Hm in Hr as [? _]. Qed.
Create HintDb still.
#[local] Hint Resolve still_content still_keeps content_fits content_input content_transcript content_publish
  content_promote content_gc keeps_rotate keeps_rotate_if_full keeps_journal keeps_journal_error keeps_ret : still.

Lemma hoare_still {A} (m : Act A) s (E : ChannelStore -> Prop) :
  still m -> (forall st, holding s st -> E st) -> hoare (holding s) m (fun _ => holding s) E.
Proof. intros Hm HE st r st' Hs Hr. apply Hm in Hr. unfold holding in *. destruct r; [congruence|]. apply HE. congruence. Qed.

Lemma commit_changed_moves s next record :
  hoare (holding s) (commit_changed s next record) (fun _ => holding next)
    (fun st => holding s st \/ holding next st).
Proof.
  set (E := fun st => holding s st \/ holding next st).
  assert (forall A (m : Act A) k, still m -> (forall x, hoare (holding s) (k x) (fun _ : unit => holding next) E) ->
    hoare (holding s) (act_bind m k) (fun _ => holding next) E) as Hb.
  { intros A m k Hm Hk. eapply hoare_bind; [apply hoare_still; [done|by left]|done]. }
  unfold commit_changed. do 6 (apply Hb; [eauto with still|intros ?]).
  intros st1 r1 st2 Hst1. unfold act_bind at 1, install. intros Hr.
  assert (hoare (holding next) (act_bind (publish_accepted next record) (fun _ =>
    if (length (btree_values (book_jobs (ch_book next))) <? length (btree_values (book_jobs (ch_book s))))%nat
    then rotate else act_ret tt)) (fun _ => holding next) E) as Hp.
  { eapply hoare_bind; [apply hoare_still; [eauto with still|by right]|intros ?].
    apply hoare_still; [case_match; eauto with still|by right]. }
  by apply Hp in Hr.
Qed.

(** Whatever it records and however it ends, a commit moves the state by the
    record or not at all, and it has moved when it succeeds. *)
Lemma commit_moves record st r st' :
  commit v record st = (r, st') ->
  (st_state st' = st_state st \/ apply (st_state st) v record false = Ok (Changed, st_state st')) /\
  (forall next, r = Ok tt -> apply (st_state st) v record false = Ok (Changed, next) -> st_state st' = next).
Proof.
  rewrite commit_eq. unfold act_bind at 1. destruct (promote_accepted_content st) as [[u|e] st1] eqn:Hp;
    apply (still_content _ content_promote) in Hp; [|intros [= <- <-]; split; [by left|done]].
  unfold act_bind at 1, act_get. rewrite Hp. destruct (is_redundant _ record) eqn:Hred.
  { intros [= <- <-]. split; [by left|]. intros next _. by rewrite (is_redundant_apply v _ _ Hred). }
  unfold act_bind at 1, act_lift.
  destruct (apply (st_state st) v record false) as [[a next]|e] eqn:Ha; cbn [map_err];
    [|intros [= <- <-]; split; [by left|done]].
  unfold act_bind. destruct a.
  2:{ intros Hg. split; [left; rewrite <- Hp; by eapply still_content, Hg; apply content_gc|done]. }
  destruct (commit_changed (st_state st) next record st1) as [[u1|e1] st2] eqn:Hc;
    apply commit_changed_moves in Hc; try done; unfold holding in Hc.
  - intros Hg. apply (still_content _ content_gc) in Hg. split; [right; congruence|]. intros next' _ [= <-]. congruence.
  - intros [= <- <-]. split; [|done]. destruct Hc as [Hc|Hc]; [by left|right; congruence].
Qed.

(** ** Commits that are never refused *)

(** A record that carries no job body. *)
Definition plain (record : ChannelRecord) : bool :=
  match record with
  | JobProposed _ _ _ | JobAccepted _ _ | JobResultRecord _ _ _ _ => false
  | _ => true
  end.

Definition unrefusing {A} (m : Act A) : Prop := forall st r st' e, m st = (r, st') -> r <> Err (Channel_error e).

Lemma unrefusing_keeps {A} (m : Act A) : keeps m -> unrefusing m.
Proof. intros Hm st r st' e Hr. by apply Hm in Hr as [_ ?]. Qed.
Lemma unrefusing_bind {A B} (m : Act A) (k : A -> Act B) :
  unrefusing m -> (forall a, unrefusing (k a)) -> unrefusing (act_bind m k).
Proof.
  intros Hm Hk st r st' e. unfold act_bind. destruct (m st) as [[a|e1] st1] eqn:E; [by apply Hk|].
  intros [= <- <-]. intros [= ->]. by eapply Hm.
Qed.

Lemma unrefusing_changed s next record : plain record = true -> unrefusing (commit_changed s next record).
Proof.
  intros Hp. assert (forall A (m : Act A) k, keeps m -> (forall x, unrefusing (k x)) -> unrefusing (act_bind m k : Act unit)) as Hb
    by eauto using unrefusing_bind, unrefusing_keeps.
  unfold commit_changed. apply Hb; [apply keeps_fits|intros _]. apply Hb; [apply keeps_rotate_if_full|intros _].
  apply Hb; [destruct record; try done; apply keeps_ret|intros _].
  apply Hb; [destruct record; try done; apply keeps_ret|intros _].
  apply Hb; [apply keeps_journal|intros ?]. apply Hb; [apply keeps_journal_error|intros _].
  apply unrefusing_bind; [by intros st r st' e [= <- <-]|intros _].
  apply Hb; [destruct record; try done; apply keeps_ret|intros _].
  apply unrefusing_keeps. case_match; [apply keeps_rotate|apply keeps_ret].
Qed.

(** Committing an accepted plain record moves to what it leads to or fails on
    storage, where it may have moved already. *)
Lemma commit_plain record st r st' a next :
  plain record = true -> apply (st_state st) v record false = Ok (a, next) ->
  (a = Redundant -> next = st_state st) -> commit v record st = (r, st') ->
  (st_state st' = st_state st \/ st_state st' = next) /\
  match r with
  | Ok _ => st_state st' = next
  | Err (Channel_error _) => False
  | Err _ => True
  end.
Proof.
  intros Hp Ha Hred Hr. destruct (commit_moves _ _ _ _ Hr) as [Hmove Hok]. rewrite Ha in *.
  split; [destruct Hmove as [?|[= _ ->]]; auto|]. destruct r as [[]|e].
  - destruct a; [by apply Hok|]. destruct Hmove as [->|?]; [symmetry; auto|done].
  - assert (forall ce, e <> Channel_error ce) as He; [|destruct e; try done; by eapply He].
    intros ce ->. revert Hr. rewrite commit_eq. unfold act_bind at 1.
    destruct (promote_accepted_content st) as [[u|e] st1] eqn:Hpr; apply keeps_promote in Hpr as [Hs1 He1];
      [|by intros [= -> _]; eapply He1].
    unfold act_bind at 1, act_get. rewrite Hs1. destruct (is_redundant _ record); [done|].
    unfold act_bind at 1, act_lift. rewrite Ha. cbn [map_err]. intros Hr. revert Hr.
    enough (forall st r st' e, act_bind match a with Redundant => act_ret tt
      | Changed => commit_changed (st_state st1) next record end (fun _ => gc_uploads) st = (r, st') ->
      r <> Err (Channel_error e)) as Hu by (rewrite Hs1 in Hu; intros Hr; by eapply Hu).
    apply unrefusing_bind; [destruct a; [by apply unrefusing_changed|apply unrefusing_keeps, keeps_ret]|].
    intros _. apply unrefusing_keeps, keeps_gc.
Qed.
End commits.

Section watch.
  Context `{Blake3} `{Gearhash} `{Invocations} `{Uploads} (v kv : SigVerifier).
  Context (c : PaidChannel) (settlement : WorkPaymentSettlement) (role : Role) (edge : Edge).

(** A step over the channel's state: what holds when it succeeds, and what when
    storage fails. It never refuses its input. *)
Definition watches {A} (W P : Channel -> Prop) (m : Act A) (Q : A -> Channel -> Prop) : Prop :=
  forall st r st', P (st_state st) -> m st = (r, st') ->
  match r with
  | Ok a => Q a (st_state st')
  | Err (Channel_error _) => False
  | Err _ => W (st_state st')
  end.

Lemma watches_bind {A B} W P (m : Act A) Q (k : A -> Act B) R :
  watches W P m Q -> (forall a, watches W (Q a) (k a) R) -> watches W P (act_bind m k) R.
Proof.
  intros Hm Hk st r st' HP. unfold act_bind. destruct (m st) as [[a|e] st1] eqn:Em; apply (Hm _ _ _ HP) in Em.
  - by apply Hk.
  - by intros [= <- <-].
Qed.

Lemma watches_ret {A} W (P : Channel -> Prop) (a : A) : watches W P (act_ret a) (fun _ => P).
Proof. by intros st r st' HP [= <- <-]. Qed.

Lemma watches_weaken {A} W (P P' : Channel -> Prop) (m : Act A) (Q Q' : A -> Channel -> Prop) :
  watches W P' m Q -> (forall s, P s -> P' s) -> (forall a s, Q a s -> Q' a s) -> watches W P m Q'.
Proof. intros Hm HP HQ st r st' Hst Hr. apply Hm in Hr; [|by apply HP]. destruct r as [|[]]; auto. Qed.

Lemma watches_point {A} W (P : Channel -> Prop) (m : Act A) (Q : A -> Channel -> Prop) :
  (forall s, P s -> watches W (eq s) m Q) -> watches W P m Q.
Proof. intros Hm st r st' HP. by apply (Hm _ HP). Qed.

Lemma watches_error {A} (W W' P : Channel -> Prop) (m : Act A) (Q : A -> Channel -> Prop) :
  watches W P m Q -> (forall s, W s -> W' s) -> watches W' P m Q.
Proof. intros Hm HW st r st' Hst Hr. apply (Hm _ _ _ Hst) in Hr. destruct r as [|[]]; auto. Qed.

(** Reading the state: the rest may depend on it. *)
Lemma watches_get {A B} W (P : Channel -> Prop) (f : Channel -> A) (k : A -> Act B) Q :
  (forall s, P s -> watches W (eq s) (k (f s)) Q) ->
  watches W P (act_bind (act_get (fun st => f (st_state st))) k) Q.
Proof. intros Hk st r st' HP Hr. by apply (Hk _ HP st). Qed.

Lemma watches_lift {A B E} W (P : Channel -> Prop) (err : E -> WorkStoreError) (a : A) (k : A -> Act B) Q :
  watches W P (k a) Q -> watches W P (act_bind (act_lift err (Ok a)) k) Q.
Proof. intros Hk st r st' HP Hr. by apply (Hk st). Qed.

(** Committing a plain record the state accepts. *)
Lemma watches_commit (W P : Channel -> Prop) record (Q : Channel -> Prop) :
  plain record = true -> (forall s, P s -> W s /\ exists a next, apply s v record false = Ok (a, next) /\
    (a = Redundant -> next = s) /\ W next /\ Q next) ->
  watches W P (commit v record) (fun _ => Q).
Proof.
  intros Hp HP st r st' Hst Hr. destruct (HP _ Hst) as (Hw & a & next & Ha & Hred & Hn & Hq).
  destruct (commit_plain v _ _ _ _ _ _ Hp Ha Hred Hr) as [Hs Hm]. destruct r as [u|e].
  - by rewrite Hm.
  - destruct e; try done; by destruct Hs as [->| ->].
Qed.

(** ** Ending jobs *)

(** Ending jobs leaves the funding, and jobs other than those ended. *)
Record ended (s0 s : Channel) (ids : list Digest) : Prop := {
  en_reach : reachable v c settlement role s;
  en_funding : ch_funding s = ch_funding s0;
  en_jobs id : jobs s !! id = if decide (id ∈ ids) then None else jobs s0 !! id;
}.

Lemma ended_one s0 s ids id outcome :
  ended s0 s ids -> id ∉ ids -> is_Some (jobs s0 !! id) ->
  match outcome with Expired _ _ _ => True | _ => False end ->
  exists next, apply s v (JobTerminated id outcome) false = Ok (Changed, next) /\ ended s0 next (id :: ids).
Proof.
  intros [Hr Hf Hj] Hid [job Hjob] Ho. pose proof (reachable_inv _ _ _ _ _ Hr) as Hinv.
  assert (jobs s !! id = Some job) as Hjs by (by rewrite Hj, decide_False).
  pose proof (inv_disjoint _ _ _ _ _ Hinv _ _ Hjs) as Ht.
  pose proof (job_named _ _ _ _ _ (inv_jobs _ _ _ _ _ Hinv _ _ Hjs)) as Hn.
  assert (apply s v (JobTerminated id outcome) false = Ok (Changed, map_book (fun book =>
    rest_at book (mk_JobTerminal (job_work_id job) (job_phase job) outcome)) s)) as Ha.
  { cbn [apply]. unfold apply_terminated, open_job. rewrite Ht. destruct outcome; try done.
    cbn [andb]. unfold refuse_if_terminated. rewrite Ht, Hjs. done. }
  eexists. split; [exact Ha|]. split; [by eapply reachable_apply|done|].
  intros i. cbn [map_book ch_book rest_at book_jobs terminal_work_id]. rewrite Hn.
  destruct (decide (i = id)) as [->|Hne].
  - rewrite lookup_delete_eq, decide_True by left. done.
  - rewrite lookup_delete_ne, Hj by done. destruct (decide (i ∈ ids)).
    + rewrite decide_True by (by right). done.
    + rewrite decide_False; [done|]. intros [?|?]%elem_of_cons; done.
Qed.

Lemma ended_each {A} (W : Channel -> Prop) (key : A -> Digest) (outcome : A -> TerminalOutcome) s0 l ids :
  NoDup (map key l) -> (forall a, a ∈ l -> key a ∉ ids /\ is_Some ((jobs s0) !! (key a)) /\
    match outcome a with Expired _ _ _ => True | _ => False end) ->
  (forall s ids, ended s0 s ids -> W s) ->
  watches W (fun s => ended s0 s ids)
    (act_each (fun a => commit v (JobTerminated (key a) (outcome a))) l)
    (fun _ s => ended s0 s (rev (map key l) ++ ids)).
Proof.
  intros Hnd Hl HW. revert ids Hnd Hl. induction l as [|a l IH]; intros ids Hnd Hl; [apply watches_ret|].
  cbn [act_each map rev]. apply NoDup_cons in Hnd as [Hna Hnd]. destruct (Hl a) as (Ha & Hj & Ho); [left|].
  eapply watches_bind.
  - apply (watches_commit _ _ _ (fun s => ended s0 s (key a :: ids))); [done|]. intros s Hs.
    split; [by eapply HW|]. destruct (ended_one _ _ _ _ (outcome a) Hs Ha Hj Ho) as (next & Hap & Hn).
    exists Changed, next. split_and!; try done. by eapply HW.
  - intros u. rewrite <- app_assoc. cbn [app]. apply IH; [done|]. intros b Hb.
    destruct (Hl b) as (Hb1 & Hb2); [by right|]. split; [|done].
    intros [E|?]%elem_of_cons; [|done]. apply Hna. rewrite <- E. by apply list_elem_of_fmap_2.
Qed.

Lemma act_each_ext {A} (f g : A -> Act unit) l st :
  (forall a st, f a st = g a st) -> act_each f l st = act_each g l st.
Proof.
  intros Hfg. revert st. induction l as [|a l IH]; intros st; [done|]. cbn [act_each]. unfold act_bind.
  rewrite Hfg. destruct (g a st) as [[]]; [apply IH|done].
Qed.

(** The open jobs of a channel, in order, are named apart. *)
Lemma open_ids s :
  reachable v c settlement role s ->
  NoDup (map job_work_id (btree_values (jobs s))) /\
  forall id, id ∈ map job_work_id (btree_values (jobs s)) <-> is_Some (jobs s !! id).
Proof.
  intros Hr%reachable_inv.
  assert (forall id job, jobs s !! id = Some job -> job_work_id job = id) as Hn
    by (intros; eapply job_named, inv_jobs; eauto). split.
  - rewrite (btree_values_perm (jobs s)). unfold map at 2.
    change (NoDup (job_work_id <$> (snd <$> map_to_list (jobs s)))).
    rewrite <- list_fmap_compose. erewrite Forall_fmap_ext_1; [apply NoDup_fst_map_to_list|].
    apply Forall_forall. intros [id job] Hin%elem_of_map_to_list. cbn. by apply Hn.
  - intros id. rewrite list_elem_of_fmap. split.
    + intros (job & -> & [k Hk]%elem_of_btree_values). rewrite (Hn _ _ Hk). eauto.
    + intros [job Hj]. exists job. split; [by rewrite (Hn _ _ Hj)|]. apply elem_of_btree_values. eauto.
Qed.

Lemma ended_refl s : reachable v c settlement role s -> ended s s [].
Proof. intros Hr. split; [done..|]. intros id. by rewrite decide_False by apply not_elem_of_nil. Qed.

Lemma NoDup_sublist {A} (k l : list A) : NoDup k -> l `sublist_of` k -> NoDup l.
Proof.
  intros Hk Hs. induction Hs as [|x l k Hs IH|x l k Hs IH]; [done|..]; apply NoDup_cons in Hk as [Hx Hk]; [|auto].
  apply NoDup_cons. split; [|auto]. intros Hin. apply Hx.
  eapply elem_of_submseteq; [exact Hin|by apply sublist_submseteq].
Qed.

(** A sweep of the open jobs leaves none, and the funding as it was. *)
Lemma watches_expire W h payload (s0 : Channel) :
  reachable v c settlement role s0 ->
  (forall s, reachable v c settlement role s -> ch_funding s = ch_funding s0 -> W s) ->
  watches W (eq s0) (expire_open_jobs v h payload)
    (fun _ s => reachable v c settlement role s /\ ch_funding s = ch_funding s0 /\ jobs s = ∅).
Proof.
  intros Hr HW. apply (watches_get _ _ (fun s => s)). intros s <-. destruct (open_ids _ Hr) as [Hnd Hids].
  eapply watches_weaken.
  - apply (ended_each W job_work_id (fun job : @JobState PaymentFunding => Expired (payment_deadline (job_authorization job)) h payload)
      s0 _ [] Hnd); [|by intros s ids []; eauto].
    intros job Hj. split_and!; [apply not_elem_of_nil| |done]. apply Hids. by apply list_elem_of_fmap_2.
  - intros s ->. by apply ended_refl.
  - intros _ s [Hrs Hf Hj]. split_and!; try done. apply map_empty. intros id. rewrite Hj.
    destruct (decide _) as [|Hni]; [done|]. apply eq_None_not_Some. intros Hs. apply Hni.
    rewrite app_nil_r, rev_alt. apply elem_of_reverse, Hids, Hs.
Qed.

(** Ending what a block's height expires. *)
Lemma watches_expiry W h payload (s0 : Channel) :
  reachable v c settlement role s0 ->
  (forall s, reachable v c settlement role s -> ch_funding s = ch_funding s0 -> W s) ->
  watches W (eq s0) (act_each (fun '(work_id, outcome) => commit v (JobTerminated work_id outcome))
      (expiry_at s0 h payload))
    (fun _ s => reachable v c settlement role s /\ ch_funding s = ch_funding s0).
Proof.
  intros Hr HW st r st' Hst Hrun. destruct (open_ids _ Hr) as [Hnd Hids].
  rewrite (act_each_ext _ (fun a => commit v (JobTerminated a.1 a.2))) in Hrun by (by intros []).
  refine (watches_weaken W (eq s0) (fun s => ended s0 s []) _
    (fun _ s => ended s0 s (rev (map fst (expiry_at s0 h payload)) ++ []))
    (fun _ s => reachable v c settlement role s /\ ch_funding s = ch_funding s0) _ _ _ st r st' Hst Hrun).
  - apply ended_each; [| |by intros s ids []; eauto].
    + apply (NoDup_sublist (map job_work_id (btree_values (jobs s0)))); [done|].
      clear. unfold expiry_at. induction (btree_values _) as [|job l IH]; [done|]. cbn [omap list_omap map].
      destruct (expiry_of _ h job); cbn [mbind option_bind map fst]; by constructor.
    + intros [id out] (job & [k Hk]%elem_of_btree_values & He)%list_elem_of_omap.
      destruct (expiry_of _ h job); [|done]. simplify_eq/=. split_and!; [apply not_elem_of_nil| |done].
      apply Hids, list_elem_of_fmap_2, elem_of_btree_values. eauto.
  - intros s <-. by apply ended_refl.
  - by intros _ s [].
Qed.

(** ** Mirroring *)

(** What the endpoint opened, settled and retained at a cursor is what the kernel
    holds; the retained record is of the last block at or before the deadline. *)
Definition current (cursor : N * bytes) (o : option OpenContest) (t : option CloseSettlement)
    (hist : option CloseHistory) (k : KState) : Prop :=
  kernel_view c settlement edge 0 cursor.1 o t (history_pending <$> hist) k /\
  (t = None -> forall x, hist = Some x ->
    history_height x = N.min cursor.1 (pending_response_deadline (history_pending x)) /\
    (history_height x = cursor.1 -> history_payload x = cursor.2)).

(** An endpoint's state mirrors a kernel's. *)
Definition mirror (k : KState) (s : Channel) : Prop :=
  reachable v c settlement role s /\
  current (ps_cursor (ch_funding s)) (close_opened (ch_funding s)) (close_settled (ch_funding s))
    (close_history (ch_funding s)) k.

(** The block is the next one. *)
Record next_block (block : FinalizedWork) (s : Channel) : Prop := {
  nb_height : block_height block = height s + 1;
  nb_u64 : block_height block <= U64_MAX;
  nb_parent : block_parent block = (ps_cursor (ch_funding s)).2;
}.

(** What a block leaves retained: the record after its transactions. *)
Record retained (block : FinalizedWork) (h0 : option CloseHistory) (s : Channel) (hist : CloseHistory)
    (contest : OpenContest) : Prop := {
  re_opened : close_opened (ch_funding s) = Some contest;
  re_live : close_settled (ch_funding s) = None;
  re_held : close_history (ch_funding s) = Some hist;
  re_height : history_height hist = block_height block;
  re_payload : history_payload hist = block_payload block;
  re_before : block_height block <= contest_response_deadline contest;
  re_fold : rfold (contest_tx c (block_height block) contest) (history_pending <$> h0) (block_txs block)
    = Ok (Some (history_pending hist));
}.

(** The endpoint mirrored [k] with [o], [t] and [h0], and has since recorded what the
    transactions [a] of the block say, with [b] to go. *)
Record at_point (k : KState) (block : FinalizedWork) (o : option OpenContest)
    (t : option CloseSettlement) (h0 : option CloseHistory) (a b : list Tx) (s : Channel) : Prop := {
  ap_reach : reachable v c settlement role s;
  ap_next : next_block block s;
  ap_split : block_txs block = a ++ b;
  ap_current : current (ps_cursor (ch_funding s)) o t h0 k;
  ap_opened : close_opened (ch_funding s) = opened_after c (block_height block) o a;
  ap_settled : close_settled (ch_funding s)
    = settled_after c (block_height block) (block_payload block) t a;
  ap_history : close_history (ch_funding s) = h0 \/
    b = [] /\ exists hist contest, retained block h0 s hist contest;
}.

(** A state in the middle of a block: what a fault leaves. *)
Definition following (k : KState) (block : FinalizedWork) (s : Channel) : Prop :=
  exists o t h0 a b, at_point k block o t h0 a b s.

Lemma mirror_following k block s : mirror k s -> next_block block s -> following k block s.
Proof. intros [Hr Hc] Hn. do 3 eexists. exists [], (block_txs block). split; try done. by left. Qed.

Context (Hedge : funded_edge c settlement edge).

Lemma next_reading block s :
  next_block block s ->
  reading s (block_height block) (block_parent block) (block_payload block) = Ok Changed.
Proof.
  intros [Hh Hu Hp]. unfold reading. destruct (ps_cursor (ch_funding s)) as [h pl]. cbn [fst snd] in *.
  destruct (N.eqb_spec (block_height block) h); [lia|]. cbn [andb]. unfold saturating_add.
  rewrite N.min_l by lia. rewrite Hh, N.eqb_refl, bool_decide_eq_true_2 by done. done.
Qed.

(** A state that differs in its jobs only. *)
Lemma at_point_jobs k block o t h0 a b s s' :
  at_point k block o t h0 a b s -> reachable v c settlement role s' -> ch_funding s' = ch_funding s ->
  at_point k block o t h0 a b s'.
Proof.
  intros [Hr [] Hs Hc Ho Ht Hh] Hr' Hf. split; try done; rewrite ?Hf; try done.
  - split; by rewrite ?Hf.
  - destruct Hh as [?|(-> & hist & contest & [])]; [by left|right]. split; [done|]. exists hist, contest.
    split; by rewrite ?Hf.
Qed.

Section block.
  Context (k k' : KState) (block : FinalizedWork).
  Context (o : option OpenContest) (t : option CloseSettlement) (h0 : option CloseHistory).
  Context (Hrun : block_run kv c (block_height block) (block_txs block) k k').

Notation h := (block_height block).
Notation pl := (block_payload block).

(** At least the transactions [a] are recorded. *)
Definition beyond (a : list Tx) (s : Channel) : Prop :=
  exists d b, at_point k block o t h0 (a ++ d) b s.

Lemma beyond_following a s : beyond a s -> following k block s.
Proof. intros (d & b & Hs). by exists o, t, h0, (a ++ d), b. Qed.

Lemma view_now a b s : at_point k block o t h0 a b s ->
  kernel_view c settlement edge 0 h o t (history_pending <$> h0) k.
Proof.
  intros [_ [Hn _ _] _ [Hv _] _ _ _]. eapply kernel_view_later; [|done]. lia.
Qed.

Lemma at_point_next a tx b s s' :
  at_point k block o t h0 a (tx :: b) s -> reachable v c settlement role s' ->
  ps_cursor (ch_funding s') = ps_cursor (ch_funding s) ->
  close_history (ch_funding s') = close_history (ch_funding s) ->
  close_opened (ch_funding s') = over (tx_contest c h tx) (close_opened (ch_funding s)) ->
  close_settled (ch_funding s') = over (tx_settlement c h pl tx) (close_settled (ch_funding s)) ->
  beyond (a ++ [tx]) s'.
Proof.
  intros [Hr [] Hs Hc Ho Ht Hh] Hr' Hcur Hhist Ho' Ht'. exists [], b. rewrite app_nil_r.
  split; try done; rewrite ?Hcur; try done.
  - split; by rewrite ?Hcur.
  - by rewrite <- app_assoc.
  - rewrite Ho', Ho, opened_after_app. done.
  - rewrite Ht', Ht, settled_after_app. done.
  - left. destruct Hh as [?|[? _]]; [congruence|done].
Qed.

Lemma beyond_split a tx b s :
  block_txs block = a ++ tx :: b -> beyond a s ->
  at_point k block o t h0 a (tx :: b) s \/
  exists d b', b = d ++ b' /\ at_point k block o t h0 (a ++ tx :: d) b' s.
Proof.
  intros Hs (d & b' & Hp). pose proof (ap_split _ _ _ _ _ _ _ _ Hp) as Hs'. rewrite Hs, <- app_assoc in Hs'.
  apply app_inv_head in Hs'. destruct d as [|tx' d]; cbn [app] in Hs'.
  - left. rewrite app_nil_r in Hp. by rewrite Hs'.
  - injection Hs' as <- ->. right. by exists d, b'.
Qed.

Lemma beyond_quiet a tx b s :
  block_txs block = a ++ tx :: b -> beyond a s -> tx_contest c h tx = None -> tx_settlement c h pl tx = None ->
  beyond (a ++ [tx]) s.
Proof.
  intros Hs Hb Hno Hns. destruct (beyond_split _ _ _ _ Hs Hb) as [Hp|(d & b' & -> & Hp)].
  - eapply at_point_next; eauto using ap_reach; by rewrite ?Hno, ?Hns.
  - exists d, b'. rewrite <- app_assoc. done.
Qed.

(** Recording the contest a transaction opens. *)
Lemma beyond_opened a tx b x s :
  block_txs block = a ++ tx :: b -> beyond a s -> jobs s = ∅ ->
  tx_contest c h tx = Some x -> tx_settlement c h pl tx = None ->
  exists ap next, apply s v (CloseOpened x) false = Ok (ap, next) /\ (ap = Redundant -> next = s) /\
    beyond (a ++ [tx]) next.
Proof.
  intros Hs Hb Hj Hx Hy. rewrite Hs in Hrun. destruct (beyond_split _ _ _ _ Hs Hb) as [Hp|(d & b' & -> & Hp)];
    destruct (contest_once _ _ _ _ Hedge _ pl _ _ _ _ _ _ _ _ _ Hrun (view_now _ _ _ Hp) Hx) as (Ho & Ht & Hst).
  - exists Changed, (map_funding (with_close_opened x) s).
    assert (apply s v (CloseOpened x) false = Ok (Changed, map_funding (with_close_opened x) s)) as Ha.
    { cbn [apply]. unfold apply_close_opened. rewrite (ap_opened _ _ _ _ _ _ _ _ Hp), (ap_settled _ _ _ _ _ _ _ _ Hp), Ho, Ht.
      rewrite bool_decide_eq_false_2 by done. cbn [is_some]. by rewrite (proj2 (refuse_open_job_Ok s _) Hj). }
    split; [done|]. split; [done|]. eapply at_point_next; [exact Hp|eapply reachable_apply; [apply Hp|exact Ha]|done..| |].
    + by rewrite Hx.
    + by rewrite Hy.
  - exists Redundant, s. split; [|split; [done|]].
    + cbn [apply]. unfold apply_close_opened. rewrite (ap_opened _ _ _ _ _ _ _ _ Hp), (Hst d b' eq_refl).
      by rewrite bool_decide_eq_true_2.
    + exists d, b'. by rewrite <- app_assoc.
Qed.

(** Recording the settlement a transaction makes. *)
Lemma beyond_settled a tx b y s :
  block_txs block = a ++ tx :: b -> beyond a s -> jobs s = ∅ ->
  tx_settlement c h pl tx = Some y -> tx_contest c h tx = None ->
  exists ap next, apply s v (CloseSettled y) false = Ok (ap, next) /\ (ap = Redundant -> next = s) /\
    beyond (a ++ [tx]) next.
Proof.
  intros Hs Hb Hj Hy Hx. rewrite Hs in Hrun. destruct (beyond_split _ _ _ _ Hs Hb) as [Hp|(d & b' & -> & Hp)];
    destruct (settlement_once _ _ _ _ Hedge _ pl _ _ _ _ _ _ _ _ _ Hrun (view_now _ _ _ Hp) Hy) as (Ht & Hst).
  - exists Changed, (map_funding (with_close_settled y) s).
    assert (apply s v (CloseSettled y) false = Ok (Changed, map_funding (with_close_settled y) s)) as Ha.
    { cbn [apply]. unfold apply_close_settled. rewrite (ap_settled _ _ _ _ _ _ _ _ Hp), Ht.
      rewrite bool_decide_eq_false_2 by done. cbn [is_some]. by rewrite (proj2 (refuse_open_job_Ok s _) Hj). }
    split; [done|]. split; [done|]. eapply at_point_next; [exact Hp|eapply reachable_apply; [apply Hp|exact Ha]|done..| |].
    + by rewrite Hx.
    + by rewrite Hy.
  - exists Redundant, s. split; [|split; [done|]].
    + cbn [apply]. unfold apply_close_settled. rewrite (ap_settled _ _ _ _ _ _ _ _ Hp), (Hst d b' eq_refl).
      by rewrite bool_decide_eq_true_2.
    + exists d, b'. by rewrite <- app_assoc.
Qed.

Lemma beyond_jobs a s s' :
  beyond a s -> reachable v c settlement role s' -> ch_funding s' = ch_funding s -> beyond a s'.
Proof. intros (d & b & Hp) Hr Hf. exists d, b. by eapply at_point_jobs. Qed.

(** Sweeping the jobs and recording what a transaction says. *)
Lemma watches_sweep a record (Q : Channel -> Prop) :
  plain record = true ->
  (forall s, beyond a s -> jobs s = ∅ -> exists ap next, apply s v record false = Ok (ap, next) /\
    (ap = Redundant -> next = s) /\ Q next) ->
  (forall s, Q s -> following k block s) ->
  watches (following k block) (beyond a)
    (act_bind (expire_open_jobs v h pl) (fun _ => commit v record)) (fun _ => Q).
Proof.
  intros Hp Hap HQ. apply watches_point. intros s Hs.
  assert (reachable v c settlement role s) as Hr by (by destruct Hs as (d & b & [])).
  eapply watches_bind; [apply watches_expire; [done|]|].
  - intros s' Hr' Hf. by eapply beyond_following, beyond_jobs.
  - intros u. apply watches_commit; [done|]. intros s' (Hr' & Hf & Hj).
    pose proof (beyond_jobs _ _ _ Hs Hr' Hf) as Hb. split; [by eapply beyond_following|].
    destruct (Hap _ Hb Hj) as (ap & next & Ha & Hred & Hq). exists ap, next. split_and!; auto.
Qed.

Lemma watches_tx a tx b :
  block_txs block = a ++ tx :: b ->
  watches (following k block) (beyond a) (apply_finalized_tx v c h pl tx) (fun _ => beyond (a ++ [tx])).
Proof.
  intros Hs.
  assert (tx_contest c h tx = None -> tx_settlement c h pl tx = None ->
    watches (following k block) (beyond a) (act_ret tt) (fun _ => beyond (a ++ [tx]))) as Hquiet.
  { intros Hx Hy st r st' Hb [= <- <-]. by eapply beyond_quiet. }
  destruct tx as [f tm ma ta|input proof outputs|[start|response]|r]; try by apply Hquiet.
  - cbn [apply_finalized_tx]. destruct (bool_decide (input = channel_payment_edge c)) eqn:Hi; cbn [negb].
    + apply watches_sweep; [done| |by intros; eapply beyond_following]. intros s Hb Hj.
      eapply beyond_settled; [done..| |done]. cbn [tx_settlement]. by rewrite Hi.
    + apply Hquiet; [done|]. cbn [tx_settlement]. by rewrite Hi.
  - cbn [apply_finalized_tx]. destruct (bool_decide (start_payment_edge start = channel_payment_edge c)) eqn:Hi; cbn [negb].
    + apply watches_sweep; [done| |by intros; eapply beyond_following]. intros s Hb Hj.
      eapply beyond_opened; [done..| |done]. cbn [tx_contest]. by rewrite Hi.
    + apply Hquiet; [|done]. cbn [tx_contest]. by rewrite Hi.
Qed.

Lemma watches_txs a b :
  block_txs block = a ++ b ->
  watches (following k block) (beyond a) (act_each (apply_finalized_tx v c h pl) b)
    (fun _ => beyond (block_txs block)).
Proof.
  revert a. induction b as [|tx b IH]; intros a Hs.
  - rewrite Hs, app_nil_r. apply watches_ret.
  - cbn [act_each]. eapply watches_bind; [by eapply watches_tx|]. intros u. apply IH. by rewrite <- app_assoc.
Qed.

Lemma beyond_all s : beyond (block_txs block) s -> at_point k block o t h0 (block_txs block) [] s.
Proof.
  intros (d & b & Hp). pose proof (ap_split _ _ _ _ _ _ _ _ Hp) as Hs. rewrite <- app_assoc in Hs.
  rewrite <- (app_nil_r (block_txs block)) in Hs at 1. apply app_inv_head in Hs.
  symmetry in Hs. apply app_nil in Hs as [-> ->]. by rewrite app_nil_r in Hp.
Qed.

(** What the kernel's record is after a block that leaves the contest open. *)
Record live (s : Channel) (contest : OpenContest) (r : PendingPaymentClose) : Prop := {
  li_fold : rfold (contest_tx c h contest) (history_pending <$> h0) (block_txs block) = Ok (Some r);
  li_contest : contest = contest_of_record r;
  li_ok : record_ok c settlement 0 h r;
  li_view : kernel_view c settlement edge 0 h (Some contest) None (Some r) k';
  li_first : h0 = None -> pending_response_deadline r
    = h + wp_omit_response_blocks (channel_payment_terms c);
  li_held x : h0 = Some x -> contest = contest_of_record (history_pending x) /\
    contest_inv (history_pending x) /\ (r = history_pending x \/
      pending_responded (history_pending x) = false /\ h < pending_response_deadline (history_pending x) /\
      exists response, r = PendingPaymentClose_with_accepted_response (history_pending x) response);
}.

Lemma live_block s contest :
  at_point k block o t h0 (block_txs block) [] s -> close_settled (ch_funding s) = None ->
  close_opened (ch_funding s) = Some contest -> exists r, live s contest r.
Proof.
  intros Hp Hset Hop. pose proof (view_now _ _ _ Hp) as Hv.
  rewrite (ap_settled _ _ _ _ _ _ _ _ Hp) in Hset. rewrite (ap_opened _ _ _ _ _ _ _ _ Hp) in Hop.
  assert (t = None) as Ht.
  { destruct t as [y|]; [|done]. by apply settled_stable in Hset. }
  assert (forall x, opened_after c h o (block_txs block) = Some x -> contest = x) as Hx by congruence.
  pose proof (kernel_view_block _ _ _ _ Hedge 0 h pl _ _ _ _ _ _ contest (N.le_0_l _) Hrun Hv Hx) as Hb.
  rewrite Hset, Hop in Hb. destruct Hb as (p' & Hf & Hv'). pose proof Hv' as [_ Hc].
  destruct (contest_of k' _ _) as [|r|] eqn:Hk'; [by destruct Hc| |done]. destruct Hc as ([= ->] & -> & Hok).
  exists r. split; try done.
  - intros ->. rewrite Ht in Hv. cbn [fmap option_fmap option_map] in *.
    assert (kernel_view c settlement edge h h o None None k) as Hvh.
    { destruct Hv as [? Hc]. split; [done|]. destruct (contest_of k _ _); [done| |done]. by destruct Hc as (_ & ? & _). }
    pose proof (kernel_view_block _ _ _ _ Hedge h h pl _ _ _ _ _ _ _ (N.le_refl _) Hrun Hvh Hx) as Hb.
    rewrite Ht in Hset. rewrite Hset in Hb. destruct Hb as (p' & Hf' & _ & Hc'). rewrite Hk' in Hc'.
    destruct Hc' as (_ & _ & Hok'). destruct (ro_opened _ _ _ _ _ Hok') as (i & Hi & ->). lia.
  - intros x ->. rewrite Ht in Hv. cbn [fmap option_fmap option_map] in *. pose proof Hv as [_ Hc].
    destruct (contest_of k _ _) as [|r0|]; [by destruct Hc| |done]. destruct Hc as (Ho & [= <-] & Hok0).
    rewrite Ho in *. rewrite (opened_stable _ _ _ _ Hedge 0 h _ _ _ _ _ _ (N.le_0_l _) Hrun Hv) in Hop.
    split; [congruence|]. split; [apply Hok0|].
    by apply contest_fold in Hf as (r' & [= <-] & ?).
Qed.

(** Everything the block says is recorded, and it is what the kernel holds. *)
Definition settled_point (s : Channel) : Prop :=
  at_point k block o t h0 (block_txs block) [] s /\
  current (h, pl) (close_opened (ch_funding s)) (close_settled (ch_funding s)) (close_history (ch_funding s)) k'.

Lemma final_settled s y :
  at_point k block o t h0 (block_txs block) [] s -> close_settled (ch_funding s) = Some y -> settled_point s.
Proof.
  intros Hp Hy. split; [done|]. rewrite Hy. split; [|done]. rewrite (ap_settled _ _ _ _ _ _ _ _ Hp) in Hy.
  destruct (kernel_view_prefix _ _ _ _ Hedge 0 h pl _ _ _ _ _ _ (N.le_0_l _) Hrun (view_now _ _ _ Hp)) as (p & Hv).
  by rewrite Hy in Hv.
Qed.

Lemma final_unopened s :
  at_point k block o t h0 (block_txs block) [] s -> close_settled (ch_funding s) = None ->
  close_opened (ch_funding s) = None -> settled_point s.
Proof.
  intros Hp Ht Ho. split; [done|].
  destruct (kernel_view_prefix _ _ _ _ Hedge 0 h pl _ _ _ _ _ _ (N.le_0_l _) Hrun (view_now _ _ _ Hp)) as (p & Hv).
  rewrite <- (ap_settled _ _ _ _ _ _ _ _ Hp), <- (ap_opened _ _ _ _ _ _ _ _ Hp), Ht, Ho in Hv.
  assert (close_history (ch_funding s) = None) as ->.
  { destruct (close_history (ch_funding s)) as [hist|] eqn:Hh; [|done].
    pose proof (inv_history _ _ _ _ _ (reachable_inv _ _ _ _ _ (ap_reach _ _ _ _ _ _ _ _ Hp)) _ Hh) as Hck.
    unfold check_close_history in Hck. by rewrite Ho in Hck. }
  rewrite Ht, Ho. split; [|done]. destruct Hv as [He Hc]. split; [done|].
  destruct (contest_of k' _ _); [done| |done]. by destruct Hc.
Qed.

Lemma final_retained s hist contest :
  at_point k block o t h0 (block_txs block) [] s -> retained block h0 s hist contest -> settled_point s.
Proof.
  intros Hp [Ho Ht Hh Hhh Hpl Hd Hf]. destruct (live_block _ _ Hp Ht Ho) as [r [Hf' -> Hok Hv _ _]].
  rewrite Hf in Hf'. injection Hf' as Hr. split; [done|]. rewrite Ho, Ht, Hh. split; [cbn; by rewrite Hr|].
  intros _ x [= <-]. rewrite Hr, Hhh, Hpl. cbn in *. split; [lia|done].
Qed.

Lemma final_kept s contest :
  at_point k block o t h0 (block_txs block) [] s -> close_settled (ch_funding s) = None ->
  close_opened (ch_funding s) = Some contest -> contest_response_deadline contest < h -> settled_point s.
Proof.
  intros Hp Ht Ho Hd. destruct (live_block _ _ Hp Ht Ho) as [r [Hf Hct Hok Hv Hfirst Hheld]].
  assert (close_history (ch_funding s) = h0) as Hh.
  { destruct (ap_history _ _ _ _ _ _ _ _ Hp) as [?|(_ & hist & ct & [])]; [done|]. assert (ct = contest) as -> by congruence. lia. }
  assert (contest_response_deadline contest = pending_response_deadline r) as Hdr by (by rewrite Hct).
  assert (exists x, h0 = Some x) as [x Hx].
  { destruct h0 as [x|]; [by exists x|]. specialize (Hfirst eq_refl). lia. }
  destruct (Hheld _ Hx) as (Hcx & _ & [->|(_ & Hlt & _)]); [|rewrite Hcx in Hd; cbn in Hd; lia].
  split; [done|]. rewrite Ho, Ht, Hh, Hx. split; [done|]. intros _ y [= <-].
  destruct (ap_current _ _ _ _ _ _ _ _ Hp) as [_ Hcur].
  assert (t = None) as Hset.
  { pose proof (ap_settled _ _ _ _ _ _ _ _ Hp) as Hset. rewrite Ht in Hset. destruct t as [z|]; [|done].
    symmetry in Hset. by apply settled_stable in Hset. }
  destruct (Hcur Hset _ Hx) as [Hhx _]. pose proof (nb_height _ _ (ap_next _ _ _ _ _ _ _ _ Hp)) as Hn.
  cbn [fst snd]. split; lia.
Qed.

Lemma history_checks s r :
  at_point k block o t h0 (block_txs block) [] s -> close_opened (ch_funding s) = Some (contest_of_record r) ->
  record_ok c settlement 0 h r -> h <= pending_response_deadline r ->
  check_close_history s (mk_CloseHistory h pl r) = Ok tt.
Proof.
  intros Hp Ho [Hedge' Hfund Hbond [Hst Hw Ha] (i & Hi & Hdl) Hmax] Hd.
  pose proof (reachable_inv _ _ _ _ _ (ap_reach _ _ _ _ _ _ _ _ Hp)) as Hinv.
  unfold check_close_history. rewrite Ho, (inv_channel _ _ _ _ _ Hinv), (inv_settlement _ _ _ _ _ Hinv).
  cbn [ok_or rbind contest_of_record contest_response_deadline contest_claimed contest_opener contest_start_id
       history_height history_pending]. rewrite Hdl in *.
  unfold checked_sub. rewrite (proj2 (N.leb_le _ _)) by lia. cbn [ok_or rbind].
  pose proof (ap_next _ _ _ _ _ _ _ _ Hp) as [Hn Hu _]. unfold saturating_add.
  rewrite !bool_decide_eq_true_2, Hbond, !N.eqb_refl by done. cbn [negb].
  repeat match goal with |- context [?a <? ?b] => rewrite (proj2 (N.ltb_ge a b)) by lia end. cbn [orb].
  destruct (pending_responded r); cbn [negb andb orb].
  - destruct (Ha eq_refl) as [Hlt ->]. rewrite (proj2 (N.leb_gt _ _)) by lia. by destruct (pending_opener_role r).
  - destruct (Hw eq_refl) as [-> ->]. by rewrite N.eqb_refl.
Qed.

(** The block's history is the next one, and is accepted. *)
Lemma history_accepted s contest r :
  at_point k block o t h0 (block_txs block) [] s -> close_settled (ch_funding s) = None ->
  close_opened (ch_funding s) = Some contest -> close_history (ch_funding s) = h0 ->
  h <= contest_response_deadline contest -> live s contest r ->
  match h0 with
  | None => checked_sub (contest_response_deadline contest)
              (wp_omit_response_blocks (channel_payment_terms c))
  | Some history => checked_add (history_height history) 1
  end = Some h /\
  apply s v (CloseHistoryAdvanced (block_parent block) (mk_CloseHistory h pl r)) false
    = Ok (Changed, map_funding (with_close_history (mk_CloseHistory h pl r)) s).
Proof.
  intros Hp Ht Ho Hh Hd [Hf -> Hok Hv Hfirst Hheld]. pose proof (ap_next _ _ _ _ _ _ _ _ Hp) as [Hn Hu Hpar].
  pose proof (history_checks _ _ Hp Ho Hok Hd) as Hck. cbn [apply]. unfold apply_close_history. rewrite Hck, Hh.
  pose proof (reachable_inv _ _ _ _ _ (ap_reach _ _ _ _ _ _ _ _ Hp)) as Hinv. rewrite (inv_channel _ _ _ _ _ Hinv).
  cbn [rbind contest_of_record contest_response_deadline history_height history_pending history_payload] in *.
  destruct h0 as [x|] eqn:Hx.
  - destruct (Hheld _ eq_refl) as (Hcx & Hix & Hr).
    assert (history_height x = height s /\ history_payload x = (ps_cursor (ch_funding s)).2) as [Hhx Hpx].
    { destruct (ap_current _ _ _ _ _ _ _ _ Hp) as [_ Hcur].
      assert (t = None) as Hset.
      { pose proof (ap_settled _ _ _ _ _ _ _ _ Hp) as Hset. rewrite Ht in Hset. destruct t as [z|]; [|done].
        symmetry in Hset. by apply settled_stable in Hset. }
      destruct (Hcur Hset _ eq_refl) as [Hhx Hpx]. injection Hcx as _ _ Hdx _. split; [lia|]. apply Hpx. lia. }
    rewrite bool_decide_eq_false_2 by (intros E; simplify_eq/=; lia).
    assert (checked_add (history_height x) 1 = Some h) as -> by (apply checked_add_Some; lia).
    split; [done|]. cbn [ok_or rbind]. rewrite N.eqb_refl, bool_decide_eq_true_2 by congruence. cbn [negb orb].
    assert (pending_final_cumulative (history_pending x) <= pending_final_cumulative r) as Hmono.
    { destruct Hr as [->|(Hnr & _ & _)]; [lia|]. rewrite (proj1 (ci_waiting _ Hix Hnr)).
      injection Hcx as _ _ _ <-. apply (ro_inv _ _ _ _ _ Hok). }
    rewrite (proj2 (N.ltb_ge _ _) Hmono).
    destruct Hr as [->|(Hnr & Hlt & resp & ->)].
    + rewrite eqb_reflx, bool_decide_eq_true_2, !andb_negb_r by done. cbn [negb orb].
      rewrite andb_false_r. by destruct (pending_responded (history_pending x)).
    + rewrite Hnr, (proj2 (N.leb_gt _ _)) by done. cbn. rewrite eqb_reflx. cbn.
      destruct (pending_owner_signed _) as [[] []]; done.
  - rewrite bool_decide_eq_false_2 by done. rewrite (Hfirst eq_refl) in *.
    assert (checked_sub (h + wp_omit_response_blocks (channel_payment_terms c))
      (wp_omit_response_blocks (channel_payment_terms c)) = Some h) as -> by (apply checked_sub_Some; lia).
    split; [done|]. cbn [ok_or rbind]. by rewrite N.eqb_refl.
Qed.

Lemma settled_following s : settled_point s -> following k block s.
Proof. intros [Hp _]. by exists o, t, h0, (block_txs block), []. Qed.

Lemma watches_retain :
  watches (following k block) (at_point k block o t h0 (block_txs block) [])
    (retain_contest_block v c block) (fun _ => settled_point).
Proof.
  apply (watches_get _ _ (fun s => s)). intros s Hp.
  assert (settled_point s -> watches (following k block) (eq s) (act_ret tt) (fun _ => settled_point)) as Hidle.
  { intros Hs st r st' Hst [= <- <-]. by rewrite <- Hst. }
  cbv zeta. destruct (close_settled (ch_funding s)) as [y|] eqn:Ht; [by eapply Hidle, final_settled|].
  destruct (close_opened (ch_funding s)) as [contest|] eqn:Ho; [|by apply Hidle, final_unopened].
  destruct (N.leb_spec h (contest_response_deadline contest)) as [Hd|Hd]; cbn [negb];
    [|by eapply Hidle, final_kept].
  destruct (ap_history _ _ _ _ _ _ _ _ Hp) as [Hh|(_ & hist & ct & Hre)].
  2:{ rewrite (re_held _ _ _ _ _ Hre), bool_decide_eq_false_2; [by eapply Hidle, final_retained|].
      rewrite (re_height _ _ _ _ _ Hre). intros (E & _)%checked_add_Some. lia. }
  destruct (live_block _ _ Hp Ht Ho) as [r Hlive].
  destruct (history_accepted _ _ _ Hp Ht Ho Hh Hd Hlive) as [Hnext Ha]. pose proof Hlive as [Hf _ _ _ _ _].
  rewrite Hh, Hnext, bool_decide_eq_true_2 by done. cbn [negb]. unfold contest_after_block. rewrite Hf. cbn [rbind ok_or].
  apply watches_lift, watches_commit; [done|]. intros s' <-. split; [by exists o, t, h0, (block_txs block), []|].
  do 2 eexists. split; [exact Ha|]. split; [done|].
  assert (settled_point (map_funding (with_close_history (mk_CloseHistory h pl r)) s)) as Hs;
    [|split; [by apply settled_following|done]].
  assert (retained block h0 (map_funding (with_close_history (mk_CloseHistory h pl r)) s)
    (mk_CloseHistory h pl r) contest) as Hre by (by split).
  assert (at_point k block o t h0 (block_txs block) []
    (map_funding (with_close_history (mk_CloseHistory h pl r)) s)) as Hp'; [|by eapply final_retained].
  destruct Hp as [Hr [] Hsp Hc Hop Hset _]. split; try done; [by eapply reachable_apply|].
  right. split; [done|]. eauto.
Qed.

(** The block read to its end, if only by the commit that moves the cursor past it. *)
Definition read_through (s : Channel) : Prop := mirror k' s /\ ps_cursor (ch_funding s) = (h, pl).

Lemma watches_observe :
  watches (fun s => following k block s \/ read_through s) (beyond []) (observe v block)
    (fun _ => read_through).
Proof.
  apply (watches_get _ _ (fun s => s)). intros s Hs. pose proof Hs as (d & b & Hp). cbn [app] in Hp.
  rewrite (next_reading _ _ (ap_next _ _ _ _ _ _ _ _ Hp)). apply watches_lift.
  eapply watches_bind; [eapply (watches_error (following k block)); [apply watches_expiry; [by apply Hp|]|auto]|].
  { intros s' Hr Hf. by eapply beyond_following, beyond_jobs. }
  intros u. eapply watches_bind.
  - eapply (watches_error (following k block)); [|auto].
    unfold apply_finalized_txs. apply (watches_get _ _ (fun s => s)). intros s1 [Hr1 Hf1].
    rewrite (inv_channel _ _ _ _ _ (reachable_inv _ _ _ _ _ Hr1)).
    eapply watches_bind; [|intros ?; apply watches_retain].
    eapply watches_weaken; [by apply (watches_txs [])| |].
    + intros s2 <-. by eapply beyond_jobs.
    + intros ? s2 Hs2. by apply beyond_all.
  - intros u'. apply watches_commit; [done|]. intros s1 Hs1. split; [left; by apply settled_following|].
    destruct Hs1 as [Hp1 Hc1].
    assert (apply s1 v (CursorAdvanced h (block_parent block) pl) false
      = Ok (Changed, map_funding (with_cursor (h, pl)) s1)) as Ha.
    { cbn [apply]. unfold apply_cursor. by rewrite (next_reading _ _ (ap_next _ _ _ _ _ _ _ _ Hp1)). }
    do 2 eexists. split; [exact Ha|]. split; [done|].
    assert (read_through (map_funding (with_cursor (h, pl)) s1)) as Hr; [|split; [by right|done]].
    split; [|done]. split; [|done]. eapply reachable_apply; [apply Hp1|exact Ha].
Qed.
End block.

(** Reading a block, from the state before it or from where a fault stopped. *)
Lemma observe_mirrors k k' block st r st' :
  block_run kv c (block_height block) (block_txs block) k k' ->
  following k block (st_state st) \/ read_through k' block (st_state st) ->
  observe v block st = (r, st') ->
  match r with
  | Ok _ => read_through k' block (st_state st')
  | Err (Channel_error _) => False
  | Err _ => following k block (st_state st') \/ read_through k' block (st_state st')
  end.
Proof.
  intros Hrun [(o & t & h0 & a & b & Hp)|[Hm Hc]] Hr.
  - eapply (watches_observe k k' block o t h0 Hrun); [|done]. by exists a, b.
  - unfold observe, act_bind at 1, act_get in Hr. unfold act_bind at 1, act_lift in Hr.
    unfold reading in Hr. rewrite Hc, N.eqb_refl, bool_decide_eq_true_2 in Hr by done.
    cbn in Hr. injection Hr as <- <-. by split.
Qed.

(** C11: Reading the chain mirrors it. The endpoint's state mirrors the kernel's, or
    a fault stopped it in the middle of the block or just after it; the kernel
    accepted the block's transactions, from a state that holds the channel's
    funded edge; then reading the block either puts the endpoint's cursor at the
    block with exactly what the kernel now holds (the edge is gone if and only if
    the endpoint holds its settlement, and otherwise the contest and the record
    the endpoint retains are the kernel's own), or fails on storage, never on the
    block, and leaves a state from which the block can be read again. *)
Theorem observe_mirrors_chain k k' block st r st' :
  block_run kv c (block_height block) (block_txs block) k k' ->
  following k block (st_state st) \/ read_through k' block (st_state st) ->
  observe v block st = (r, st') ->
  let funding := ch_funding (st_state st') in
  match r with
  | Ok _ => mirror k' (st_state st') /\ ps_cursor funding = (block_height block, block_payload block) /\
      match close_settled funding with
      | Some _ => ks_edges k' !! channel_payment_edge c = None
      | None => ks_edges k' !! channel_payment_edge c = Some edge /\
          match contest_of k' (channel_network c) (channel_payment_edge c) with
          | Pending_Absent => close_opened funding = None /\ close_history funding = None
          | Pending_Present r => close_opened funding = Some (contest_of_record r) /\
              history_pending <$> close_history funding = Some r
          | Pending_Faulty _ => False
          end
      end
  | Err (Channel_error _) => False
  | Err _ => following k block (st_state st') \/ read_through k' block (st_state st')
  end.
Proof.
  intros Hrun Hs Hr. pose proof (observe_mirrors _ _ _ _ _ _ Hrun Hs Hr) as Hout. cbv zeta.
  destruct r as [u|[]]; try done. destruct Hout as [Hm Hc]. split; [done|]. split; [done|].
  destruct Hm as [_ [Hv _]]. unfold kernel_view in Hv. destruct (close_settled _); [done|].
  destruct Hv as [He Hk]. split; [done|]. destruct (contest_of _ _ _); try done.
  - destruct Hk as [-> Hk]. split; [done|]. by destruct (close_history _).
  - by destruct Hk as (-> & -> & _).
Qed.

(** ** Between blocks *)

(** Two states that read the chain alike. *)
Definition reads_alike (s s' : Channel) : Prop :=
  ps_cursor (ch_funding s') = ps_cursor (ch_funding s) /\
  close_opened (ch_funding s') = close_opened (ch_funding s) /\
  close_settled (ch_funding s') = close_settled (ch_funding s) /\
  close_history (ch_funding s') = close_history (ch_funding s).

Lemma mirror_alike k s s' :
  mirror k s -> reachable v c settlement role s' -> reads_alike s s' -> mirror k s'.
Proof. intros [Hr Hc] Hr' (E1 & E2 & E3 & E4). split; [done|]. by rewrite E1, E2, E3, E4. Qed.

(** The records that read the chain. *)
Definition reads_chain (record : ChannelRecord) : bool :=
  match record with
  | CursorAdvanced _ _ _ | CloseOpened _ | CloseSettled _ | CloseHistoryAdvanced _ _ => true
  | _ => false
  end.

(** The rest leave what was read. *)
Lemma apply_alike s record meta a s' :
  apply s v record meta = Ok (a, s') -> reads_chain record = false -> reads_alike s s'.
Proof.
  intros Ha Hq. destruct record; try done; cbn [apply] in Ha;
    unfold apply_proposed, apply_accepted, apply_running, apply_result, apply_verified, apply_plaintext,
      apply_terminated, terminate_certified, apply_close_prepared, apply_close_responded in Ha;
    repeat match goal with
      | H : on_book _ _ = Ok _ |- _ => apply on_book_Ok in H as (? & _ & ->); done
      | H : rbind _ _ = Ok _ |- _ => apply rbind_Ok in H as (? & _ & H)
      | H : (if ?b then _ else _) = Ok _ |- _ => destruct b
      | H : match ?x with _ => _ end = Ok _ |- _ => destruct x
      | H : Ok _ = Ok _ |- _ => injection H as <- <-; done
      | H : Err _ = Ok _ |- _ => done
      end.
Qed.

Lemma commit_mirror k record st r st' :
  reads_chain record = false -> mirror k (st_state st) -> commit v record st = (r, st') ->
  mirror k (st_state st').
Proof.
  intros Hq Hm [[->|Ha] _]%commit_moves; [done|].
  eapply mirror_alike; [done|eapply reachable_apply; [apply Hm|done]|by eapply apply_alike].
Qed.

(** Restarting a channel and restoring a body read nothing either. *)
Lemma restart_alike s s' : strip s' = mark_interrupted (strip s) -> reads_alike s s'.
Proof. intros Hs. apply (f_equal ch_funding) in Hs. cbn in Hs. unfold reads_alike. by rewrite Hs. Qed.
End watch.
