(* ===== verification/Closing.v ===== *)
(** * Closing a channel

    What an endpoint that mirrors the chain submits, the kernel accepts: the
    provider's answer to a contest that claims too little, the adjudication of a
    finished contest, and the start of a close. Together they bound what the
    provider can lose: its answer fixes what its ledger credits, and the
    adjudication that follows pays it with the penalty. *)

From S2P Require Import Prelude Xet XetChunk Canonical Primitive Errors BoundedList Context Auth.
From S2P Require Import Objects Registry View Store Event Terms Work Lease Tx WorkTx OpenTx CloseTx.
From S2P Require Import Apply State Spec Validate Conservation Invariant Contest Kernel Settlement.
From S2P Require Import PaidWork JobBook JobInput ChannelState ChannelSteps.
From S2P Require Import ChannelInvariant ChannelReplay ChannelCodec ChannelCheckpoint ChannelReopen.
From S2P Require Import ChannelFits Journal ChannelLedger ChannelStore ChannelDurable Setup CloseWatch.
From S2P Require Import Mirror Watch.

#[local] Open Scope N_scope.

(** ** What the kernel accepts *)

Section accepts.
  Context `{Blake3}.

Lemma responded_at_wf r amount owner :
  wf PendingPaymentClose_codec r = true -> amount <= U64_MAX ->
  wf PendingPaymentClose_codec (PendingPaymentClose_responded_at r amount owner) = true.
Proof.
  destruct r. unfold PendingPaymentClose_responded_at.
  cbn [wf PendingPaymentClose_codec PendingPaymentClose_wf]. intros Hr Ha.
  bool_simpl. apply N.leb_le in Ha. rewrite !andb_true_iff. by split_and!.
Qed.

(** A response that passes every check is accepted, and writes its record. *)
Lemma response_applies response context verifier s held record :
  ResponseAccepted response context verifier s held record ->
  cert_earned_cumulative (resp_certificate response) <= U64_MAX ->
  exists o s', kapply context verifier (Tx_Move (RespondPaymentClose response)) s = Ok (o, s') /\
    ks_edges s' = ks_edges s /\ ks_coins s' = ks_coins s /\
    contest_of s' (Context_network context) (resp_payment_edge response)
      = Pending_Present (PendingPaymentClose_with_accepted_response record response).
Proof.
  intros Ha Hu. pose proof Ha as []. pose proof pa_pending as Hp.
  apply read_pending_close_Some in Hp as (stored & _ & Hf).
  apply PendingPaymentClose_from_chunk_Ok in Hf as (Hr & Hedge & _).
  pose proof (responded_at_wf _ _ (PartyAuth_is_owner (resp_action response)) Hr Hu) as Hwf.
  fold (PendingPaymentClose_with_accepted_response record response) in Hwf.
  destruct (PendingPaymentClose_to_chunk_Some _ Hwf) as [chunk Hc].
  assert (apply_response response context verifier s = Ok (Change_Private [RegistryMutation_write
    (pending_payment_close_slot (Context_network context) (resp_payment_edge response)) chunk])) as Hap.
  { unfold apply_response, check_response, read_pending. cbn [edge KState_ops]. rewrite pa_edge. cbn [ok_or rbind].
    rewrite pa_allows, pa_pending. cbn [negb map_err rbind ok_or].
    rewrite !bool_decide_eq_true_2, pa_first by done. cbn [negb].
    rewrite (proj2 (N.leb_gt _ _)) by done.
    rewrite (proj2 (check_certificate_Ok _ _ _)) by done. cbn [map_err rbind].
    rewrite (proj2 (N.leb_gt _ _)) by done. rewrite (proj2 (check_capacity_Ok _ _ _) pa_capacity).
    cbn [map_err rbind]. rewrite pa_role. cbn [Party_keys_of]. rewrite pa_action, pa_certificate. cbn [negb rbind].
    rewrite Hc. cbn [ok_or rbind]. by rewrite (proj2 (one_mutation_Ok _ _) eq_refl). }
  do 2 eexists. split; [apply kapply_Ok; eexists; split_and!; [exact Hap| |reflexivity|reflexivity]|].
  - by apply (kcheck_pre context verifier (Tx_Move (RespondPaymentClose response)) s _ Hap), NoDup_nil.
  - split; [done|]. split; [done|]. by apply contest_of_write.
Qed.

(** So is a start. *)
Lemma start_applies start context verifier s held payment deadline chunk :
  StartAccepted start context verifier s held payment deadline chunk ->
  wf PendingPaymentClose_codec (started start context payment deadline) = true ->
  exists o s', kapply context verifier (Tx_Move (StartPaymentClose start)) s = Ok (o, s') /\
    ks_edges s' = ks_edges s /\ ks_coins s' = ks_coins s /\
    contest_of s' (Context_network context) (start_payment_edge start)
      = Pending_Present (started start context payment deadline).
Proof.
  intros [] Hwf.
  assert (apply_start start context verifier s = Ok (Change_Private [RegistryMutation_write
    (pending_payment_close_slot (Context_network context) (start_payment_edge start)) chunk])) as Hap.
  { unfold apply_start, read_pending. cbn [edge KState_ops]. rewrite sa_edge. cbn [ok_or rbind].
    rewrite bool_decide_eq_true_2 by done. cbn [negb]. rewrite sa_profile. cbn zeta.
    rewrite sa_window, sa_absent. cbn [map_err rbind]. unfold PendingPaymentClose_from_accepted_start.
    rewrite sa_profile, sa_deadline. cbn [mbind option_bind ok_or rbind].
    unfold start_claim in *. rewrite sa_auth. cbn [negb].
    destruct (start_certificate start) as [[cert auth]|].
    - destruct (sa_certificate _ _ eq_refl) as (He & Ht & Hz & Hcap & Hv).
      rewrite (proj2 (check_certificate_Ok _ _ _)) by done. cbn [map_err rbind].
      rewrite (proj2 (N.eqb_neq _ _)) by done. rewrite (proj2 (check_capacity_Ok _ _ _) Hcap). cbn [map_err rbind].
      rewrite Hv. cbn [negb rbind]. rewrite sa_chunk. cbn [ok_or rbind].
      by rewrite (proj2 (one_mutation_Ok _ _) eq_refl).
    - cbn [rbind]. rewrite sa_chunk. cbn [ok_or rbind]. by rewrite (proj2 (one_mutation_Ok _ _) eq_refl). }
  do 2 eexists. split; [apply kapply_Ok; eexists; split_and!; [exact Hap| |reflexivity|reflexivity]|].
  - by apply (kcheck_pre context verifier (Tx_Move (StartPaymentClose start)) s _ Hap), NoDup_nil.
  - split; [done|]. split; [done|]. by apply contest_of_write.
Qed.
End accepts.

(** ** What a mirroring endpoint submits *)

Section closing.
  Context `{Blake3} `{Gearhash} `{Invocations} `{Uploads} (v kv : SigVerifier).
  Context (c : PaidChannel) (settlement : WorkPaymentSettlement) (role : Role) (edge : Edge).
  Context (Hedge : funded_edge c settlement edge).

(** The certificate an endpoint can spend is the one its ledger credits. *)
Lemma executable_evidence s certificate sig :
  reachable v c settlement role s -> executable_certificate s = Some (certificate, sig) ->
  cert_payment_edge certificate = channel_payment_edge c /\
  cert_payment_terms_hash certificate = channel_payment_terms_hash c /\
  cert_earned_cumulative certificate <= settlement_capacity settlement /\
  cert_earned_cumulative certificate = credited_cumulative (ch_ledger s) /\
  verify_sig v sig (client_key c) (EarnedCertificate_digest certificate (channel_network c)) = true.
Proof.
  intros Hr He. pose proof (reachable_inv _ _ _ _ _ Hr) as Hinv.
  pose proof (last_payment_spec s (terminals_named_inv _ _ _ _ _ Hinv)) as Hl.
  unfold executable_certificate in He. rewrite (inv_ledger _ _ _ _ _ Hinv). unfold max_executable_certificate.
  destruct (last_payment s) as [p|]; [|done]. cbn in He. injection He as <- <-. destruct Hl as [(t & Ht & Hp) _].
  destruct (inv_terminals _ _ _ _ _ Hinv _ _ Ht) as [_ Hpaid]. unfold payment_from_terminal in Hp.
  destruct (terminal_outcome t) as [[r sg] cert bind bs cs| | | |] eqn:Ho; try done. injection Hp as <-.
  destruct (Hpaid _ _ _ _ _ _ eq_refl) as (_ & _ & _ & ? & ? & ? & _ & _ & ?). by split_and!.
Qed.

(** What a mirroring endpoint holds of an open contest. *)
Lemma mirrored_contest k s contest :
  mirror v c settlement role edge k s -> close_settled (ch_funding s) = None ->
  close_opened (ch_funding s) = Some contest ->
  exists hist r, close_history (ch_funding s) = Some hist /\ history_pending hist = r /\
    ks_edges k !! channel_payment_edge c = Some edge /\
    contest_of k (channel_network c) (channel_payment_edge c) = Pending_Present r /\
    contest = contest_of_record r /\ record_ok c settlement 0 (height s) r /\
    history_height hist = N.min (height s) (pending_response_deadline r).
Proof.
  intros [Hr [Hv Hh]] Ht Ho. rewrite Ht, Ho in *. destruct Hv as [He Hc].
  destruct (contest_of k _ _) as [|r|] eqn:Hk; [by destruct Hc| |done]. destruct Hc as ([= ->] & Hp & Hok).
  destruct (close_history (ch_funding s)) as [hist|]; [|done]. injection Hp as <-.
  exists hist, (history_pending hist). destruct (Hh eq_refl _ eq_refl) as [? _]. by split_and!.
Qed.

Lemma mirrored_uncontested k s :
  mirror v c settlement role edge k s -> close_settled (ch_funding s) = None ->
  close_opened (ch_funding s) = None ->
  ks_edges k !! channel_payment_edge c = Some edge /\
  contest_of k (channel_network c) (channel_payment_edge c) = Pending_Absent.
Proof.
  intros [Hr [Hv Hh]] Ht Ho. rewrite Ht, Ho in *. destruct Hv as [He Hc].
  destruct (contest_of k _ _); [done| |done]. by destruct Hc.
Qed.

(** The kernel's own record is what adjudication uses. *)
Lemma mirrored_finalized k s contest :
  mirror v c settlement role edge k s -> close_settled (ch_funding s) = None ->
  close_opened (ch_funding s) = Some contest ->
  exists r, finalized_contest s = Ok r /\
    contest_of k (channel_network c) (channel_payment_edge c) = Pending_Present r.
Proof.
  intros Hm Ht Ho. destruct (mirrored_contest _ _ _ Hm Ht Ho) as (hist & r & Hh & <- & _ & Hk & -> & _ & Hhh).
  exists (history_pending hist). split; [|done]. unfold finalized_contest. rewrite Ho, Hh. cbn [ok_or rbind contest_of_record
    contest_response_deadline]. rewrite (proj2 (N.leb_le _ _)) by lia. done.
Qed.

(** The endpoint's adjudication is the kernel's. *)
Lemma adjudicated_close_outputs r lo h :
  record_ok c settlement lo h r ->
  exists total, Edge_close_value edge (work_payment_close_cost Adjudicated) = Some total /\
    pending_final_cumulative r + PendingPaymentClose_penalty r <= total /\ contest_funded edge r /\
    adjudicated_close c settlement r = Ok (Tx_Close (channel_payment_edge c)
      (Proof_Adjudicated (PendingPaymentClose_contest_commitment r (channel_network c)
         (channel_payment_edge c) (Edge_terms edge))) (adjudicated_outputs edge r total)).
Proof.
  intros []. pose proof (fe_settlement _ _ _ Hedge) as Hs.
  assert (contest_funded edge r) as Hf.
  { exists (settlement_capacity settlement). split; [|done]. unfold payment_capacity. by rewrite ro_bond, Hs. }
  destruct (contest_funded_provider _ _ Hf) as (total & Htot & Hle & Hmax). exists total. split_and!; try done.
  apply work_payment_settlement_Some in Hs as (_ & Ha & Hb & _).
  assert (adjudicated_total settlement = total) as Hat by (unfold Edge_close_value in Htot; congruence).
  unfold adjudicated_close, adjudicated_payouts, split_payouts. rewrite Hb.
  assert ((if pending_penalty_due r then wp_omission_bond (channel_payment_terms c) else 0)
    = PendingPaymentClose_penalty r) as -> by (unfold PendingPaymentClose_penalty; by rewrite ro_bond).
  rewrite (proj2 (checked_add_Some _ _ _) (conj eq_refl (N.le_trans _ _ _ Hle Hmax))). cbn [ok_or rbind].
  rewrite Hat, (proj2 (checked_sub_Some _ _ _) (conj eq_refl Hle)). cbn [ok_or rbind map_err].
  unfold adjudicated_outputs. by rewrite (fe_terms _ _ _ Hedge), (fe_parties _ _ _ Hedge).
Qed.

(** A signer whose signatures the kernel verifies. *)
Definition signs (signer : Secp256k1Signer) : Prop :=
  forall digest, verify_auth kv (Native (sign signer digest)) (party_key signer) digest = true.

(** The kernel verifies the native signatures the endpoint does. *)
Context (Hnative : forall sig key digest,
  verify_sig v sig key digest = true -> verify_auth kv (Native sig) key digest = true).

Lemma authority_key keys key authority :
  PartyKeys_authority_of keys key = Some authority -> PartyKeys_key keys authority = key.
Proof. unfold PartyKeys_authority_of. intros Ha. repeat case_bool_decide; by simplify_eq/=. Qed.

Lemma signed_party keys signer authority digest :
  signs signer -> PartyKeys_authority_of keys (party_key signer) = Some authority ->
  verify_party kv (PartyAuth_new authority (Native (sign signer digest))) keys digest = true.
Proof.
  intros Hs Ha. unfold verify_party. cbn [PartyAuth_auth PartyAuth_authority].
  rewrite (authority_key _ _ _ Ha). apply Hs.
Qed.

Lemma certificate_party s certificate sig authority :
  reachable v c settlement role s -> executable_certificate s = Some (certificate, sig) ->
  PartyKeys_authority_of (Parties_maker (WorkPaymentTerms_parties (channel_payment_terms c)))
    (client_key c) = Some authority ->
  verify_party kv (PartyAuth_new authority (Native sig)) (Parties_maker (Edge_parties edge))
    (EarnedCertificate_digest certificate (channel_network c)) = true.
Proof.
  intros Hr He Ha. destruct (executable_evidence _ _ _ Hr He) as (_ & _ & _ & _ & Hv).
  unfold verify_party. cbn [PartyAuth_auth PartyAuth_authority].
  rewrite (fe_parties _ _ _ Hedge), (authority_key _ _ _ Ha). by apply Hnative.
Qed.

(** What an answered record leaves for the provider. *)
Record answered (k : KState) (s : Channel) (r : PendingPaymentClose) : Prop := {
  an_edge : ks_edges k !! channel_payment_edge c = Some edge;
  an_contest : contest_of k (channel_network c) (channel_payment_edge c) = Pending_Present r;
  an_ok : record_ok c settlement 0 (height s) r;
  an_responded : pending_responded r = true;
  an_final : pending_final_cumulative r = credited_cumulative (ch_ledger s);
  an_penalty : PendingPaymentClose_penalty r = wp_omission_bond (channel_payment_terms c);
}.

Lemma answer_accepted k s contest certificate signer response context :
  mirror v c settlement role edge k s -> answerable_contest s = Some (contest, certificate) ->
  signs signer -> close_response c (contest_start_id contest) certificate signer = Ok response ->
  Context_network context = channel_network c ->
  Context_block_height context < contest_response_deadline contest ->
  exists o k' r, kapply context kv (Tx_Move (RespondPaymentClose response)) k = Ok (o, k') /\
    ks_coins k' = ks_coins k /\ answered k' s r.
Proof.
  intros Hm Ha Hs Hresp Hn Hd. destruct certificate as [certificate sig].
  apply answerable_contest_Some in Ha as (Hrole & Ht & Ho & Hmk & _ & Hc & Hcl & Hh).
  destruct (mirrored_contest _ _ _ Hm Ht Ho) as (hist & r & Hhist & <- & He & Hk & -> & Hok & _).
  pose proof Hm as [Hr _]. destruct (executable_evidence _ _ _ Hr Hc) as (Hce & Hct & Hcap & Hled & _).
  specialize (Hh _ Hhist). destruct Hok. destruct ro_inv as [Hst Hw Han]. destruct (Hw Hh) as [Hfin Hdue].
  unfold close_response in Hresp. cbn [fst snd] in Hresp. apply rbind_Ok in Hresp as (au & Hau & Hresp).
  apply rbind_Ok in Hresp as (cau & Hcau & [= <-]). apply ok_or_Ok in Hau, Hcau.
  set (response := mk_PaymentCloseResponse _ _ _ _ _ _).
  assert (settlement_capacity settlement <= U64_MAX) as Hu64.
  { pose proof (fe_settlement _ _ _ Hedge) as (_ & Hat & _ & Hmin)%work_payment_settlement_Some.
    apply EdgeValues_close_value_Some in Hat as (_ & _ & _ & _ & Hle). lia. }
  assert (ResponseAccepted response context kv k edge (history_pending hist)) as Hacc.
  { unfold response. split; cbn [resp_payment_edge resp_start_id resp_responder_role resp_certificate
      resp_certificate_auth resp_action contest_of_record contest_start_id contest_claimed
      contest_response_deadline] in *; rewrite ?Hn; try done.
    - apply (fe_adjudicated _ _ _ Hedge).
    - by apply contest_of_read.
    - by rewrite (fe_terms _ _ _ Hedge).
    - lia.
    - exists (settlement_capacity settlement). split; [|done]. rewrite ro_bond. unfold payment_capacity.
      by rewrite (fe_settlement _ _ _ Hedge).
    - rewrite (fe_parties _ _ _ Hedge), (fe_terms _ _ _ Hedge). unfold response_body_digest. by apply signed_party.
    - by eapply certificate_party. }
  destruct (response_applies _ _ _ _ _ _ Hacc) as (o & k' & Hap & Hed & Hco & Hct'); [cbn; lia|].
  exists o, k', (PendingPaymentClose_with_accepted_response (history_pending hist) response).
  split; [done|]. split; [done|]. rewrite Hn in Hct'. cbn [contest_of_record contest_opener contest_claimed] in *.
  split; try done; [by rewrite Hed| |unfold PendingPaymentClose_penalty; cbn; by rewrite Hmk, orb_true_r].
  split; try done. split; cbn; [lia|done|]. intros _. rewrite Hmk, Hdue. split; [lia|done].
Qed.

(** The adjudicated close of a record is accepted once it is over, and pays. *)
Record adjudicates (k : KState) (r : PendingPaymentClose) (tx : Tx) (outputs : list Payout) : Prop := {
  ad_tx : adjudicated_close c settlement r = Ok tx;
  ad_close : exists proof, tx = Tx_Close (channel_payment_edge c) proof outputs;
  ad_provider : provider_paid c outputs = pending_final_cumulative r + PendingPaymentClose_penalty r;
  ad_total : sumN Payout_value outputs
    + Fees_price (Edge_close_fees edge) (work_payment_close_cost Adjudicated)
    = Edge_value edge + Edge_reserve edge;
  ad_accepted context : Context_network context = channel_network c ->
    pending_responded r = true \/ pending_response_deadline r <= Context_block_height context ->
    NoDup (Tx_close_output_ids (channel_payment_edge c) outputs) ->
    Forall (fun id => ks_coins k !! id = None) (Tx_close_output_ids (channel_payment_edge c) outputs) ->
    exists o k', kapply context kv tx k = Ok (o, k') /\ ks_edges k' !! channel_payment_edge c = None /\
      Forall (fun coin => ks_coins k' !! coin.1 = Some coin.2)
        (close_coins (channel_payment_edge c) outputs);
}.

Lemma adjudication_accepted k lo h r :
  ks_edges k !! channel_payment_edge c = Some edge ->
  contest_of k (channel_network c) (channel_payment_edge c) = Pending_Present r ->
  record_ok c settlement lo h r -> exists tx outputs, adjudicates k r tx outputs.
Proof.
  intros He Hk Hok. destruct (adjudicated_close_outputs _ _ _ Hok) as (total & Htot & Hle & Hf & Htx).
  do 2 eexists. split; [exact Htx|by eexists|..].
  - unfold provider_paid, adjudicated_outputs. cbn [List.find]. rewrite (fe_parties _ _ _ Hedge).
    by rewrite bool_decide_eq_true_2.
  - apply Edge_close_value_Some in Htot as (fee & Hfee & _ & Hv & _). apply Fees_charge_Some in Hfee as [-> _].
    unfold adjudicated_outputs. rewrite !sumN_cons. cbn. lia.
  - intros context Hn Hw Hnd Hfresh. rewrite <- Hn in *.
    destruct (adjudicated_accepted context kv k _ _ r He (fe_adjudicated _ _ _ Hedge) Hk Hf Hw)
      as (total' & Htot' & Hacc). rewrite Htot in Htot'. injection Htot' as <-.
    destruct (validated_close_applies _ _ _ _ _ _ _ _ (Hacc Hfresh) Hnd) as (o & k' & ? & ? & _ & ?).
    by exists o, k'.
Qed.

(** C10: The provider collects what its ledger credits. When the client has opened a
    close that claims less than the provider's journal can prove, the answer the
    endpoint builds is accepted by the kernel at any height inside the window, and
    from the state it leaves the adjudicated close (built from the record the
    kernel now holds) is accepted at any height, by anyone, and pays the provider
    exactly the cumulative amount its ledger credits and the client's penalty. *)
Theorem provider_collects k s contest certificate signer response context :
  mirror v c settlement role edge k s -> answerable_contest s = Some (contest, certificate) ->
  signs signer -> close_response c (contest_start_id contest) certificate signer = Ok response ->
  Context_network context = channel_network c ->
  Context_block_height context < contest_response_deadline contest ->
  exists o k' r tx outputs,
    kapply context kv (Tx_Move (RespondPaymentClose response)) k = Ok (o, k') /\
    answered k' s r /\ adjudicates k' r tx outputs /\
    provider_paid c outputs
      = credited_cumulative (ch_ledger s) + wp_omission_bond (channel_payment_terms c).
Proof.
  intros Hm Ha Hs Hresp Hn Hd.
  destruct (answer_accepted _ _ _ _ _ _ _ Hm Ha Hs Hresp Hn Hd) as (o & k' & r & Hk & _ & Hans).
  pose proof Hans as []. destruct (adjudication_accepted k' 0 (height s) r) as (tx & outputs & Had); [done..|].
  exists o, k', r, tx, outputs. split_and!; try done. by rewrite (ad_provider _ _ _ _ Had), an_final0, an_penalty0.
Qed.

Lemma settlement_u64 :
  settlement_capacity settlement + wp_omission_bond (channel_payment_terms c) <= U64_MAX.
Proof.
  pose proof (fe_settlement _ _ _ Hedge) as (_ & Hat & _ & Hmin)%work_payment_settlement_Some.
  apply EdgeValues_close_value_Some in Hat as (_ & _ & _ & _ & Hle). lia.
Qed.

(** The window an endpoint signs is one the kernel allows. *)
Lemma signed_window h span from through at_height :
  checked_add h 1 = Some from -> span <> 0 -> checked_add from (span - 1) = Some through ->
  from <= at_height <= through -> check_validity_window at_height (from, through) span = Ok tt.
Proof.
  intros [-> _]%checked_add_Some Hs [-> Hu]%checked_add_Some Hat. unfold check_validity_window.
  rewrite (proj2 (N.ltb_ge _ _)), (proj2 (N.ltb_ge _ _)) by lia. cbn [orb].
  rewrite (proj2 (checked_sub_Some _ _ (span - 1))) by lia. cbn [ok_or rbind].
  rewrite (proj2 (checked_add_Some _ _ span)) by lia. cbn [ok_or rbind].
  by rewrite (proj2 (N.ltb_ge _ _)) by lia.
Qed.

(** What an endpoint signs to start a close. *)
Record start_signed (opener : Party) (h : N) (certificate : option (EarnedCertificate * Sig))
    (signer : Secp256k1Signer) (start : PaymentCloseStart) : Prop := {
  ss_edge : start_payment_edge start = channel_payment_edge c;
  ss_terms : start_terms start = Terms_work_payment (channel_payment_terms c);
  ss_opener : start_opener_role start = opener;
  ss_window at_height : start_valid_from_height start <= at_height <= start_valid_through_height start ->
    check_validity_window at_height (start_valid_from_height start, start_valid_through_height start)
      (wp_start_validity_blocks (channel_payment_terms c)) = Ok tt;
  ss_certificate : exists authority,
    PartyKeys_authority_of (Parties_maker (WorkPaymentTerms_parties (channel_payment_terms c)))
      (client_key c) = Some authority /\
    start_certificate start = (fun p => (p.1, PartyAuth_new authority (Native p.2))) <$> certificate;
  ss_action : exists authority,
    PartyKeys_authority_of (Party_keys_of opener (WorkPaymentTerms_parties (channel_payment_terms c)))
      (party_key signer) = Some authority /\
    start_action start = PartyAuth_new authority
      (Native (sign signer (PaymentCloseStart_digest start (channel_network c))));
}.

Lemma close_start_signed opener h certificate signer start :
  close_start c opener h certificate signer = Ok start -> start_signed opener h certificate signer start.
Proof.
  unfold close_start. cbv zeta. intros Hst.
  apply rbind_Ok in Hst as (au & Hau & Hst). apply rbind_Ok in Hst as (cau & Hcau & Hst). apply ok_or_Ok in Hau, Hcau.
  destruct (N.eqb_spec (wp_start_validity_blocks (channel_payment_terms c)) 0) as [|Hspan]; [done|].
  apply rbind_Ok in Hst as (from & Hfrom & Hst). apply rbind_Ok in Hst as (through & Hthrough & [= <-]).
  apply ok_or_Ok in Hfrom, Hthrough. split; try done.
  - intros at_height Hat. by eapply signed_window.
  - exists cau. split; [done|]. by destruct certificate as [[]|].
  - exists au. split; [by destruct opener|done].
Qed.

Lemma ledger_certificate s :
  reachable v c settlement role s ->
  credited_cumulative (ch_ledger s) <= settlement_capacity settlement /\
  (executable_certificate s = None -> credited_cumulative (ch_ledger s) = 0).
Proof.
  intros Hr. assert (executable_certificate s = None -> credited_cumulative (ch_ledger s) = 0) as Hz.
  { intros Hn. rewrite (inv_ledger _ _ _ _ _ (reachable_inv _ _ _ _ _ Hr)). unfold max_executable_certificate.
    unfold executable_certificate in Hn. by destruct (last_payment s). }
  split; [|done]. destruct (executable_certificate s) as [[cert sig]|] eqn:Hc; [|rewrite Hz by done; lia].
  by destruct (executable_evidence _ _ _ Hr Hc) as (_ & _ & ? & <- & _).
Qed.

Lemma start_claims s opener h signer start :
  reachable v c settlement role s -> start_signed opener h (executable_certificate s) signer start ->
  start_claim start = credited_cumulative (ch_ledger s).
Proof.
  intros Hr Hst. destruct (ss_certificate _ _ _ _ _ Hst) as (au & _ & Hc). unfold start_claim. rewrite Hc.
  destruct (executable_certificate s) as [[cert sig]|] eqn:He; cbn.
  - by destruct (executable_evidence _ _ _ Hr He) as (_ & _ & _ & -> & _).
  - by rewrite (proj2 (ledger_certificate _ Hr) He).
Qed.

Lemma start_checks k s opener h signer start context deadline chunk :
  mirror v c settlement role edge k s -> close_settled (ch_funding s) = None ->
  close_opened (ch_funding s) = None -> signs signer ->
  (executable_certificate s <> None -> credited_cumulative (ch_ledger s) <> 0) ->
  start_signed opener h (executable_certificate s) signer start ->
  Context_network context = channel_network c ->
  start_valid_from_height start <= Context_block_height context <= start_valid_through_height start ->
  checked_add (Context_block_height context) (wp_omit_response_blocks (channel_payment_terms c)) = Some deadline ->
  PendingPaymentClose_to_chunk (started start context (channel_payment_terms c) deadline) = Some chunk ->
  StartAccepted start context kv k edge (channel_payment_terms c) deadline chunk.
Proof.
  intros Hm Hset Hop Hs Hpos Hst Hn Hwin Hdl Hchunk. destruct (mirrored_uncontested _ _ Hm Hset Hop) as [He Hk].
  pose proof Hm as [Hr _]. destruct (ss_certificate _ _ _ _ _ Hst) as (cau & Hcau & Hcert).
  destruct (ss_action _ _ _ _ _ Hst) as (au & Hau & Hact).
  pose proof (ss_edge _ _ _ _ _ Hst) as Hse. pose proof (ss_terms _ _ _ _ _ Hst) as Hste.
  split; rewrite ?Hse, ?Hn; try done.
  - by rewrite Hste, (fe_terms _ _ _ Hedge), (fe_hash _ _ _ Hedge).
  - by rewrite Hste.
  - by apply (ss_window _ _ _ _ _ Hst).
  - by apply contest_of_absent.
  - intros cert auth Hc. rewrite Hcert in Hc. destruct (executable_certificate s) as [[cert' sig]|] eqn:Hec; [|done].
    cbn in Hc. injection Hc as <- <-. destruct (executable_evidence _ _ _ Hr Hec) as (? & ? & ? & Hled & ?).
    split_and!; [done|by rewrite (fe_terms _ _ _ Hedge)|rewrite Hled; by apply Hpos| |by eapply certificate_party].
    exists (settlement_capacity settlement). split; [|done]. unfold payment_capacity. by rewrite (fe_settlement _ _ _ Hedge).
  - rewrite (ss_opener _ _ _ _ _ Hst), (fe_parties _ _ _ Hedge), Hact. by apply signed_party.
  - unfold started in Hchunk. by rewrite Hse, Hn in Hchunk.
Qed.

(** An endpoint can always begin to close. The start it prepares on a channel
    that mirrors an uncontested edge is accepted by the kernel at every height of
    the window it signed, and opens a contest that claims exactly what the
    endpoint's ledger credits. *)
Theorem prepared_start_accepted k st opener signer start st' context :
  mirror v c settlement role edge k (st_state st) -> close_settled (ch_funding (st_state st)) = None ->
  close_opened (ch_funding (st_state st)) = None ->
  includable_close_start (st_state st) (height (st_state st)) = None ->
  signs signer -> wf EdgeId_codec (channel_payment_edge c) = true ->
  (executable_certificate (st_state st) <> None -> credited_cumulative (ch_ledger (st_state st)) <> 0) ->
  prepare_close v opener signer st = (Ok start, st') ->
  Context_network context = channel_network c ->
  start_valid_from_height start <= Context_block_height context <= start_valid_through_height start ->
  Context_block_height context + wp_omit_response_blocks (channel_payment_terms c) <= U64_MAX ->
  exists o k' r, kapply context kv (Tx_Move (StartPaymentClose start)) k = Ok (o, k') /\
    contest_of k' (channel_network c) (channel_payment_edge c) = Pending_Present r /\
    pending_opener_role r = opener /\
    pending_start_cumulative r = credited_cumulative (ch_ledger (st_state st)).
Proof.
  intros Hm Hset Hop Hinc Hs Hwf Hpos Hprep Hn Hwin Hdl. unfold prepare_close in Hprep. rewrite Hinc in Hprep.
  rewrite (inv_channel _ _ _ _ _ (reachable_inv _ _ _ _ _ (proj1 Hm))) in Hprep.
  destruct (close_start _ _ _ _ _) as [start'|] eqn:Hcs; [|done].
  destruct (commit v _ st) as [rc st1]. injection Hprep as Hprep _. apply rbind_Ok in Hprep as (u & _ & [= ->]).
  apply close_start_signed in Hcs as Hst.
  set (deadline := Context_block_height context + wp_omit_response_blocks (channel_payment_terms c)).
  pose proof (start_claims _ _ _ _ _ (proj1 Hm) Hst) as Hclaim. pose proof settlement_u64 as Hu64.
  pose proof (proj1 (ledger_certificate _ (proj1 Hm))) as Hcap.
  assert (wf PendingPaymentClose_codec (started start context (channel_payment_terms c) deadline) = true) as Hswf.
  { unfold started. rewrite Hclaim, (ss_edge _ _ _ _ _ Hst).
    apply opened_wf; [done|apply Nat.eqb_eq, xet_hash_length|done|lia|lia]. }
  destruct (PendingPaymentClose_to_chunk_Some _ Hswf) as [chunk Hchunk].
  pose proof (start_checks _ _ _ _ _ _ _ deadline chunk Hm Hset Hop Hs Hpos Hst Hn Hwin
    (proj2 (checked_add_Some _ _ _) (conj eq_refl Hdl)) Hchunk) as Hacc.
  destruct (start_applies _ _ _ _ _ _ _ _ Hacc Hswf) as (o & k' & Hap & _ & _ & Hct).
  exists o, k', (started start context (channel_payment_terms c) deadline). split; [done|].
  rewrite Hn, (ss_edge _ _ _ _ _ Hst) in Hct. split; [done|].
  split; [apply (ss_opener _ _ _ _ _ Hst)|]. unfold started. cbn. by rewrite Hclaim.
Qed.

(** ** Driving a close *)

(** A transaction that answers the contest [id] of [s]. *)
Definition answers (s : Channel) (id : StartId) (tx : Tx) : Prop :=
  exists contest certificate signer response, signs signer /\
    answerable_contest s = Some (contest, certificate) /\ contest_start_id contest = id /\
    close_response (ps_channel (ch_funding s)) id certificate signer = Ok response /\
    tx = Tx_Move (RespondPaymentClose response).

(** What the driver relies on in a channel that can be closed. *)
Class CloseChannelLaws (C : Type) {HC : CloseChannel C} (sound : C -> Prop) : Prop := {
  law_set st x : sound x -> sound (set_store st x) /\ channel_store (set_store st x) = st;
  law_handoff id outcome x : sound x ->
    sound (record_handoff id outcome x) /\ channel_store (record_handoff id outcome x) = channel_store x;
  law_answer id x r x' : sound x -> fix_answer id x = (r, x') ->
    sound x' /\
    (channel_store x' = channel_store x \/
     exists answer r', commit v (CloseResponded answer) (channel_store x) = (r', channel_store x')) /\
    (forall tx, r = Ok (Some tx) -> answers (st_state (channel_store x)) id tx) /\
    (r = Ok None -> channel_store x' = channel_store x);
}.

#[export] Instance store_channel_laws : CloseChannelLaws ChannelStore (fun _ => True).
Proof.
  split; try done. intros id x r x' _ [= <- <-]. by split_and!; try left.
Qed.

#[export] Instance endpoint_channel_laws :
  @CloseChannelLaws CloseEndpoint (endpoint_channel v) (fun self => signs (close_signer self)).
Proof.
  split; [done..|]. intros id self r self' Hs. cbn [fix_answer endpoint_channel channel_store].
  unfold fix_close_answer, close_duty. case_bool_decide; [intros [= <- <-]; by split_and!; try left|].
  destruct (answerable_contest (close_state self)) as [[contest certificate]|] eqn:Ha;
    [|intros [= <- <-]; by split_and!; try left].
  case_bool_decide as Hid; cbn [negb]; [|intros [= <- <-]; by split_and!; try left].
  destruct (close_response _ id certificate (close_signer self)) as [response|e] eqn:Hr; cbn [map_err rbind];
    [|intros [= <- <-]; by split_and!; try left].
  destruct (commit v _ (close_store self)) as [rc st] eqn:Hc. intros [= <- <-]. split_and!; [done|right; eauto|..].
  - intros tx Htx. apply rbind_Ok in Htx as (u & _ & [= <-]). by exists contest, certificate, (close_signer self), response.
  - intros Hn. apply rbind_Ok in Hn as (u & _ & ?). done.
Qed.

Section drive.
  Context {C : Type} {HC : CloseChannel C} (sound : C -> Prop) {Hlaws : CloseChannelLaws C sound}.
  Context (source : FinalizedBlocks) (sink : Tx -> result SubmitTxOutcome BlockSourceError).
  Context (ks : N -> KState) (payload_at : N -> bytes) (first latest : N).

(** A source that serves the finalized chain: the kernel accepted each block. *)
Record chain_source : Prop := {
  cs_latest : latest_height source = Ok (Some latest);
  cs_u64 : latest < U64_MAX;
  cs_block h : first < h <= latest -> exists block, block_at source h = Ok (Some block) /\
    block_height block = h /\ block_parent block = payload_at (h - 1) /\
    block_payload block = payload_at h /\ block_run kv c h (block_txs block) (ks (h - 1)) (ks h);
}.

(** The endpoint mirrors the kernel at its cursor. *)
Record tracked (s : Channel) : Prop := {
  tr_mirror : mirror v c settlement role edge (ks (height s)) s;
  tr_payload : (ps_cursor (ch_funding s)).2 = payload_at (height s);
  tr_range : first <= height s <= latest;
}.

(** A fault stopped it inside the next block. *)
Definition midway (s : Channel) : Prop :=
  exists block, block_at source (height s + 1) = Ok (Some block) /\
    following v c settlement role edge (ks (height s)) block s.

Context (Hchain : chain_source).

Lemma tracked_observe st r st' block :
  tracked (st_state st) -> height (st_state st) < latest ->
  block_at source (height (st_state st) + 1) = Ok (Some block) -> observe v block st = (r, st') ->
  match r with
  | Ok _ => tracked (st_state st') /\ height (st_state st') = height (st_state st) + 1
  | Err (Channel_error _) => False
  | Err _ => tracked (st_state st') \/ midway (st_state st')
  end.
Proof.
  intros [Hm Hp Hr] Hlt Hb Ho. pose proof (cs_u64 Hchain) as Hu.
  destruct (cs_block Hchain (height (st_state st) + 1)) as (block' & Hb' & Hh & Hpar & Hpl & Hrun); [lia|].
  rewrite Hb in Hb'. injection Hb' as <-. rewrite N.add_sub in *. rewrite <- Hh in Hrun at 1.
  assert (next_block block (st_state st)) as Hn by (split; [done|lia|congruence]).
  pose proof (observe_mirrors v kv c settlement role edge Hedge _ _ _ _ _ _ Hrun
    (or_introl (mirror_following _ _ _ _ _ _ _ _ Hm Hn)) Ho) as Hout.
  assert (forall s, read_through v c settlement role edge (ks (height (st_state st) + 1)) block s ->
    tracked s /\ height s = height (st_state st) + 1) as Hrt.
  { intros s [Hms Hcur]. rewrite Hh in Hcur. split; [|by rewrite Hcur].
    split; rewrite Hcur; cbn [fst snd]; [|done|lia]. done. }
  assert (forall s, following v c settlement role edge (ks (height (st_state st))) block s -> midway s) as Hmid.
  { intros s Hf. exists block. pose proof Hf as (o & t & h0 & a & b & Hap).
    pose proof (nb_height _ _ (ap_next _ _ _ _ _ _ _ _ _ _ _ _ _ Hap)) as Hhs.
    assert (height s = height (st_state st)) as -> by lia. done. }
  destruct r as [u|[]]; try done; [by apply Hrt|..]; destruct Hout as [Hf|Hf]; auto; left; by apply Hrt.
Qed.

(** How a run of the driver can end short of its answer. *)
Definition stopped (e : CatchUpError) (x : C) : Prop :=
  (exists se, e = CatchUp_Store se /\ forall ce, se <> Channel_error ce) /\
  (tracked (drive_state x) \/ midway (drive_state x)).

Lemma duty_loop_tracks fuel handoff suppressed x :
  sound x -> tracked (drive_state x) -> N.to_nat (latest - drive_cursor x) = fuel ->
  exists r x', duty_loop v source fuel handoff latest (drive_cursor x + 1) suppressed x = Some (r, x') /\
    sound x' /\ match r with
                | Ok h => tracked (drive_state x') /\ h = drive_cursor x'
                | Err e => stopped e x'
                end.
Proof.
  revert suppressed x. induction fuel as [|fuel IH]; intros suppressed x Hs Ht Hf;
    pose proof (tr_range _ Ht) as Hr; pose proof (cs_u64 Hchain) as Hu; unfold drive_cursor in *; cbn [duty_loop].
  - rewrite (proj2 (N.leb_gt _ _)) by lia. cbn [negb]. by do 2 eexists.
  - rewrite (proj2 (N.leb_le _ _)) by lia. cbn [negb].
    destruct (cs_block Hchain (height (drive_state x) + 1)) as (block & Hb & _); [lia|]. rewrite Hb.
    destruct (caught (observe v block) (channel_store x)) as [rc st] eqn:Hc. unfold caught in Hc.
    destruct (observe v block (channel_store x)) as [ro st'] eqn:Ho. injection Hc as <- <-.
    pose proof (tracked_observe _ _ _ _ Ht ltac:(unfold drive_state in *; lia) Hb Ho) as Hout.
    destruct (law_set st' x Hs) as [Hs' Hst'].
    destruct ro as [u|e]; cbn [map_err].
    + destruct Hout as [Ht' Hh]. unfold drive_state in *. rewrite Hst' in *.
      destruct (close_duty_present _ _); [do 2 eexists; split; [done|]; split; [done|]; unfold drive_cursor, drive_state; by rewrite Hst'|].
      unfold saturating_add. rewrite N.min_l by lia. rewrite <- Hh.
      specialize (IH match handoff with Some (_, Offered) => None | _ => suppressed end (set_store st' x)).
      unfold drive_state in IH. rewrite Hst' in IH. apply IH; [done|done|lia].
    + do 2 eexists. split; [done|]. split; [done|]. unfold stopped, drive_state. rewrite Hst'.
      destruct e; try done; (split; [eexists; split; [done|by intros]|done]).
Qed.

Lemma catch_up_tracks handoff x :
  sound x -> tracked (drive_state x) ->
  exists r x', catch_up_until_duty v source handoff x = Some (r, x') /\
    sound x' /\ match r with
                | Ok h => tracked (drive_state x') /\ h = drive_cursor x'
                | Err e => stopped e x'
                end.
Proof.
  intros Hs Ht. unfold catch_up_until_duty. destruct (close_duty_present _ _); [by do 2 eexists|].
  rewrite (cs_latest Hchain). pose proof (tr_range _ Ht) as Hr. pose proof (cs_u64 Hchain) as Hu.
  unfold saturating_add. rewrite N.min_l by (unfold drive_cursor; lia).
  apply duty_loop_tracks; [done|done|]. unfold drive_cursor in *. lia.
Qed.

Lemma tracked_commit record st r st' :
  reads_chain record = false -> tracked (st_state st) -> commit v record st = (r, st') ->
  tracked (st_state st').
Proof.
  intros Hq [Hm Hp Hr] Hc. pose proof (commit_mirror v c settlement role edge _ _ _ _ _ Hq Hm Hc) as Hm'.
  destruct (commit_moves v _ _ _ _ Hc) as [[->|Ha] _]; [done|].
  destruct (apply_alike v _ _ _ _ _ Ha Hq) as (E & _). split; by rewrite E.
Qed.

(** What an endpoint hands over while a contest is open: an answer the kernel
    accepts inside the window, or the adjudication it accepts after it. *)
Definition answer_taken (s : Channel) (tx : Tx) : Prop :=
  forall contest context, close_opened (ch_funding s) = Some contest ->
    Context_network context = channel_network c ->
    Context_block_height context < contest_response_deadline contest ->
    exists o k' r, kapply context kv tx (ks (height s)) = Ok (o, k') /\ answered k' s r.

Definition adjudication_taken (s : Channel) (tx : Tx) : Prop :=
  exists r outputs, contest_of (ks (height s)) (channel_network c) (channel_payment_edge c) = Pending_Present r /\
    (pending_responded r = true \/ pending_response_deadline r <= height s) /\
    adjudicates (ks (height s)) r tx outputs.

Definition start_taken (s : Channel) (tx : Tx) : Prop :=
  exists start, tx = Tx_Move (StartPaymentClose start) /\ close_prepared (ch_funding s) = Some start /\
    height s <= start_valid_through_height start /\
    ks_edges (ks (height s)) !! channel_payment_edge c = Some edge /\
    contest_of (ks (height s)) (channel_network c) (channel_payment_edge c) = Pending_Absent.

Definition taken (s : Channel) (tx : Tx) : Prop :=
  answer_taken s tx \/ adjudication_taken s tx \/ start_taken s tx.

(** What the driver's report says of the chain it caught up with. *)
Definition progress_ok (x : C) (p : CloseProgress) : Prop :=
  let s := drive_state x in
  let k := ks (height s) in
  match p with
  | Progress_Settled payout => ks_edges k !! channel_payment_edge c = None /\
      exists settled, close_settled (ch_funding s) = Some settled /\ provider_payout settled = payout
  | Progress_Opened id =>
      exists r, contest_of k (channel_network c) (channel_payment_edge c) = Pending_Present r /\
        pending_start_id r = id /\
        ((exists tx outcome, sink tx = Ok outcome /\ answer_taken s tx) \/
         (exists x', fix_answer id x = (Ok None, x')) /\
         pending_responded r = false /\ height s < pending_response_deadline r)
  | AdjudicationSubmitted id outcome => exists tx, sink tx = Ok outcome /\ adjudication_taken s tx
  | Submitted through outcome => exists tx, sink tx = Ok outcome /\ start_taken s tx
  | Progress_Nothing => ks_edges k !! channel_payment_edge c = Some edge /\
      contest_of k (channel_network c) (channel_payment_edge c) = Pending_Absent /\
      includable_close_start s (height s) = None
  end.

Definition ended_well (x x' : C) (r : result CloseProgress CatchUpError) : Prop :=
  sound x' /\ tracked (drive_state x') /\
  match r with
  | Ok p => progress_ok x p
  | Err (Source_error e) => exists tx, sink tx = Err e /\ taken (drive_state x) tx
  | Err (CatchUp_Store _) => True
  | Err _ => False
  end.

(** The rest of an open contest, when no answer is owed. *)
Lemma advance_unanswered contest x x1 :
  tracked (drive_state x) -> close_settled (ch_funding (drive_state x)) = None ->
  close_opened (ch_funding (drive_state x)) = Some contest ->
  fix_answer (contest_start_id contest) x = (Ok None, x1) ->
  let funding := ch_funding (drive_state x) in
  let channel := ps_channel funding in
  match
    let? held := ok_or (close_opened funding) (CatchUp_Close NoContest) in
    let inclusion := checked_sub (contest_response_deadline held)
                       (wp_omit_response_blocks (channel_payment_terms channel)) in
    if is_some inclusion && bool_decide (inclusion = checked_add (ps_cursor funding).1 1)
    then Ok (Progress_Opened (contest_start_id contest)) else
    let? pending := finalized_contest (drive_state x) in
    if pending_responded pending || (pending_response_deadline pending <=? (ps_cursor funding).1)
    then
      let? tx := map_err CatchUp_Close (adjudicated_close channel (ps_settlement funding) pending) in
      let? outcome := map_err Source_error (sink tx) in
      Ok (AdjudicationSubmitted (contest_start_id contest) outcome)
    else Ok (Progress_Opened (contest_start_id contest))
  with
  | Ok p => progress_ok x p
  | Err (Source_error e) => exists tx, sink tx = Err e /\ taken (drive_state x) tx
  | Err (CatchUp_Store _) => True
  | Err _ => False
  end.
Proof.
  intros Ht Hset Hop Hf. pose proof (tr_mirror _ Ht) as Hm. cbv zeta.
  destruct (mirrored_contest _ _ _ Hm Hset Hop) as (hist & rec & Hhist & <- & He & Hk & Hct & Hok & Hhh).
  destruct (mirrored_finalized _ _ _ Hm Hset Hop) as (r & Hfin & Hk'). rewrite Hk in Hk'. injection Hk' as <-.
  pose proof (reachable_inv _ _ _ _ _ (proj1 Hm)) as Hinv.
  rewrite Hop, Hfin, (inv_channel _ _ _ _ _ Hinv), (inv_settlement _ _ _ _ _ Hinv). cbn [ok_or rbind].
  destruct (ro_opened _ _ _ _ _ Hok) as (i & Hi & Hdl).
  rewrite (bool_decide_eq_false_2 (checked_sub _ _ = _)), andb_false_r.
  2:{ rewrite Hct. cbn [contest_of_record contest_response_deadline]. rewrite Hdl.
      rewrite (proj2 (checked_sub_Some _ _ i)) by lia. intros E. symmetry in E. apply checked_add_Some in E. lia. }
  destruct (pending_responded (history_pending hist)) eqn:Hr; cbn [orb].
  2: destruct (N.leb_spec (pending_response_deadline (history_pending hist)) (height (drive_state x))) as [Hle|Hlt].
  3:{ exists (history_pending hist). split_and!; [done|by rewrite Hct|]. right. eauto. }
  all: destruct (adjudication_accepted _ _ _ _ He Hk Hok) as (tx & outputs & Had); rewrite (ad_tx _ _ _ _ Had);
    cbn [map_err rbind].
  all: assert (adjudication_taken (drive_state x) tx) as Htk by (exists (history_pending hist), outputs; auto).
  all: destruct (sink tx) as [outcome|e] eqn:Hsink; cbn [map_err rbind]; exists tx; split; try done; right; by left.
Qed.

Lemma advance_contest_sound contest x r x' :
  sound x -> tracked (drive_state x) -> close_settled (ch_funding (drive_state x)) = None ->
  close_opened (ch_funding (drive_state x)) = Some contest ->
  advance_contest sink (contest_start_id contest) x = (r, x') -> ended_well x x' r.
Proof.
  intros Hs Ht Hset Hop Had. pose proof (tr_mirror _ Ht) as Hm.
  destruct (mirrored_contest _ _ _ Hm Hset Hop) as (hist & rec & Hhist & <- & He & Hk & Hct & Hok & Hhh).
  unfold advance_contest in Had. destruct (fix_answer (contest_start_id contest) x) as [ra x1] eqn:Hf.
  destruct (law_answer _ _ _ _ Hs Hf) as (Hs1 & Hst1 & Hans & Hnone).
  assert (tracked (drive_state x1)) as Ht1.
  { unfold drive_state in *. destruct Hst1 as [->|(answer & r' & Hc)]; [done|]. by eapply tracked_commit, Hc. }
  assert (forall tx, ra = Ok (Some tx) -> answer_taken (drive_state x) tx) as Hta.
  { intros tx Htx. destruct (Hans _ Htx) as (ct & cert & signer & resp & Hsg & Ha & Hid & Hr & ->).
    intros ct' context Hop' Hn Hlt. fold (drive_state x) in Ha, Hr.
    assert (contest = ct' /\ contest = ct) as [<- <-].
    { split; [congruence|]. destruct cert. apply answerable_contest_Some in Ha as (_ & _ & Ho & _). congruence. }
    rewrite (inv_channel _ _ _ _ _ (reachable_inv _ _ _ _ _ (proj1 Hm))) in Hr.
    destruct (answer_accepted _ _ _ _ _ _ _ Hm Ha Hsg Hr Hn Hlt) as (o & k' & r' & ? & _ & ?). by exists o, k', r'. }
  destruct ra as [[tx|]|e].
  - specialize (Hta _ eq_refl). destruct (sink tx) as [outcome|e] eqn:Hsink; injection Had as <- <-.
    + destruct (law_handoff (contest_start_id contest) outcome x1 Hs1) as [Hs2 Hst2].
      split; [done|]. unfold drive_state in *. rewrite Hst2. split; [done|].
      exists (history_pending hist). split; [done|]. split; [by rewrite Hct|]. left. eauto.
    + split; [done|]. split; [done|]. exists tx. split; [done|by left].
  - specialize (Hnone eq_refl). assert (drive_state x1 = drive_state x) as Hd by (unfold drive_state; by rewrite Hnone).
    rewrite Hd in Had. injection Had as <- <-. split; [done|]. split; [done|].
    eapply advance_unanswered; eauto.
  - injection Had as <- <-. by split_and!.
Qed.

End drive.
End closing.
