(* ===== verification/Endpoint.v ===== *)
(** * The endpoints of a work channel (crates/channel/src/work.rs, work/observation.rs)

    What a provider and a client do with one channel's journal: the provider
    authenticates and co-signs proposals, admits each accepted job to its backend
    once, signs results, releases plaintext and credits payments; the client
    proposes, checks deliveries and signs payments.  Each operation is a function
    of the endpoint and of the clock readings it takes, and returns the endpoint
    after it, so that what a failed operation leaves behind is part of its
    meaning.  A refusal is its code; its diagnostic text decides nothing. *)

From S2P Require Import Prelude Xet XetChunk Canonical Primitive Errors BoundedList Context Auth.
From S2P Require Import Objects Registry View Store Event Terms Work Lease Tx.
From S2P Require Import PaidWork JobBook JobInput ChannelState ChannelSteps.
From S2P Require Import ChannelInvariant ChannelReplay ChannelCodec ChannelCheckpoint ChannelReopen.
From S2P Require Import Journal ChannelLedger ChannelStore Setup CloseWatch Cbor Stream.

#[local] Open Scope N_scope.

(** ** Refusals *)

(* [crates/channel/src/work.rs:188-209] WorkRefusal *)
Inductive WorkRefusal :=
  | Refuse_NotReady
  | Refuse_Expired
  | Refuse_Invalid
  | Refuse_Conflict
  | Refuse_Declined
  | Refuse_Unavailable.

#[export] Instance WorkRefusal_eq_dec : EqDecision WorkRefusal.
Proof. solve_decision. Defined.

(** The numbers of [WorkRefusalCode] in proto/hellas/work/v1/work.proto. *)
(* [crates/channel/src/work.rs:214-223] WorkRefusal::code *)
Definition refusal_code (self : WorkRefusal) : Z :=
  match self with
  | Refuse_NotReady => 1
  | Refuse_Expired => 2
  | Refuse_Invalid => 3
  | Refuse_Conflict => 4
  | Refuse_Declined => 5
  | Refuse_Unavailable => 6
  end%Z.

(* [crates/channel/src/work.rs:232-242] WorkRefusal::from_code *)
Definition refusal_from_code (code : Z) : option WorkRefusal :=
  List.find (fun r => Z.eqb code (refusal_code r))
    [Refuse_NotReady; Refuse_Expired; Refuse_Invalid; Refuse_Conflict; Refuse_Declined;
     Refuse_Unavailable].

(* [crates/channel/src/work.rs:251-253] WorkRefusal::is_retryable *)
Definition is_retryable (self : WorkRefusal) : bool :=
  match self with Refuse_NotReady | Refuse_Unavailable => true | _ => false end.

(* [crates/channel/src/work.rs:291-302] Refusal::from *)
Definition record_refusal (e : PaidWorkError) : WorkRefusal :=
  match e with AcceptanceExpired _ _ => Refuse_Expired | _ => Refuse_Invalid end.

(* [crates/channel/src/work.rs:304-330] Refusal::from *)
Definition setup_refusal (e : WorkSetupError) : WorkRefusal :=
  match e with
  | CursorBehind _ _ => Refuse_NotReady
  | HorizonPassed _ _ | TerminalUnreachable _ _ _ _ | DeliveryUnreachable _ _ _ => Refuse_Expired
  | _ => Refuse_Invalid
  end.

(* [crates/channel/src/work.rs:365-386] channel_refusal *)
Definition channel_refusal (e : ChannelStateError) : WorkRefusal :=
  match e with
  | Terminated _ _ | Conflict _ => Refuse_Conflict
  | WrongPhase _ _ | OverCredit _ _ _ _ _ | Closing _ | IndeterminateJob => Refuse_Declined
  | AcceptanceLate _ _ | DispatchLate _ _ | ReceiptLate _ _ | PaymentLate _ _ => Refuse_Expired
  | Record_error _ | BadSignature _ _ | WrongRole _ _ | WrongChannel _ | CursorNotNext _ _
  | CursorNotContiguous _ | Malformed => Refuse_Invalid
  end.

(* [crates/channel/src/work.rs:332-344] Refusal::from *)
Definition store_refusal (e : WorkStoreError) : WorkRefusal :=
  match e with Channel_error channel => channel_refusal channel | _ => Refuse_Unavailable end.

(* [crates/channel/src/work.rs:2982-2989] endpoint_refusal *)
Definition endpoint_refusal (e : EndpointError) : WorkRefusal :=
  match e with
  | CatchingUp | NotAdmitting | ObservationStale => Refuse_NotReady
  | _ => Refuse_Unavailable
  end.

(* [crates/channel/src/work/upload.rs:8-15] content_refusal *)
Definition content_refusal (e : ContentError) : WorkRefusal :=
  match e with
  | ContentStorage => Refuse_Unavailable
  | ProposalLimit => Refuse_Conflict
  | _ => Refuse_Invalid
  end.

(** ** Failures *)

(* [crates/channel/src/work.rs:1901-1937] RunError *)
Inductive RunError :=
  | Run_CatchUp
  | Run_NoSuchJob
  | Run_NotAccepted (phase : JobPhase)
  | Run_Endpoint (e : EndpointError)
  | Run_Policy
  | Run_Setup (e : WorkSetupError)
  | Run_Record (e : PaidWorkError)
  | Run_Transcript (e : PaidWorkError)
  | Run_Backend
  | Run_Store (e : WorkStoreError).

(* [crates/channel/src/work.rs:2032-2094] DeliverError *)
Inductive DeliverError :=
  | Deliver_NoSuchJob
  | Deliver_Terminated (outcome : string)
  | Deliver_NoResult (phase : JobPhase)
  | Deliver_Endpoint (e : EndpointError)
  | Deliver_Policy
  | Deliver_Setup (e : WorkSetupError)
  | Deliver_Unbound
  | Deliver_Unbindable
  | Deliver_OverFrame (actual limit : N)
  | Deliver_Record (e : PaidWorkError)
  | Deliver_Store (e : WorkStoreError)
  | Deliver_Refused (refusal : WorkRefusal)
  | Deliver_Malformed (what : string)
  | Deliver_Transport.

(* [crates/channel/src/work.rs:2096-2126] Refusal::from *)
Definition deliver_refusal (e : DeliverError) : WorkRefusal :=
  match e with
  | Deliver_NoSuchJob | Deliver_Terminated _ => Refuse_Declined
  | Deliver_NoResult _ => Refuse_NotReady
  | Deliver_Endpoint (CatchingUp | ObservationStale) => Refuse_NotReady
  | Deliver_Endpoint NotAdmitting => Refuse_Unavailable
  | Deliver_Unbound => Refuse_Invalid
  | Deliver_Setup setup => setup_refusal setup
  | Deliver_Store store => store_refusal store
  | _ => Refuse_Invalid
  end.

(* [crates/channel/src/work.rs:2136-2179] PaymentError *)
Inductive PaymentError :=
  | Payment_Endpoint (e : EndpointError)
  | Payment_NoSuchJob
  | Payment_NotPayable (phase : JobPhase)
  | Payment_Record (e : PaidWorkError)
  | Payment_Store (e : WorkStoreError)
  | Payment_Refused (refusal : WorkRefusal)
  | Payment_Malformed (what : string)
  | Payment_Acknowledged (signed credited : N)
  | Payment_Transport.

(* [crates/channel/src/work.rs:2181-2205] Refusal::from *)
Definition payment_refusal (e : PaymentError) : WorkRefusal :=
  match e with
  | Payment_NoSuchJob => Refuse_Declined
  | Payment_NotPayable _ => Refuse_NotReady
  | Payment_Endpoint e => endpoint_refusal e
  | Payment_Store store => store_refusal store
  | _ => Refuse_Invalid
  end.

(* [crates/channel/src/work.rs:3070-3113] ProposeError *)
Inductive ProposeError :=
  | Propose_Content (e : ContentError)
  | Propose_Endpoint (e : EndpointError)
  | Propose_Refused (refusal : WorkRefusal)
  | Propose_Malformed (what : string)
  | Propose_NoOpenJob
  | Propose_JobInFlight (phase : JobPhase)
  | Propose_Conflict
  | Propose_Record (e : PaidWorkError)
  | Propose_Setup (e : WorkSetupError)
  | Propose_Store (e : WorkStoreError)
  | Propose_Transport.

(** ** Freshness of an observed channel *)

(** A reading of the monotonic clock in nanoseconds and, when it can be read, of
    the wall clock in Unix milliseconds. *)
(* [crates/channel/src/work/observation.rs:11-14] ObservationTime *)
Record ObservationTime := mk_ObservationTime {
  time_monotonic : N;
  time_wall : option N;
}.

(* [crates/channel/src/work/observation.rs:26-29] ObservationTime::elapsed *)
Definition time_elapsed (self now : ObservationTime) : option N :=
  wall ← time_wall now;
  started ← time_wall self;
  elapsed ← checked_sub wall started;
  Some (N.max (elapsed * 1000000) (time_monotonic now - time_monotonic self)).

(* [crates/channel/src/work/observation.rs:41-46] Freshness *)
Inductive Freshness :=
  | Freshness_Stale
  | Freshness_Fresh (started : ObservationTime) (max_age : N)
  | Freshness_Unavailable.

(* [crates/channel/src/work/observation.rs:35-38] Observation *)
Record Observation := mk_Observation {
  observation_height : option N;
  observation_freshness : Freshness;
}.

(* [crates/channel/src/work/observation.rs:49-54] Observation::confirm *)
Definition Observation_confirm (self : Observation) (height : N) (started : ObservationTime)
    (max_age : N) : Observation :=
  if match observation_height self with None => true | Some previous => previous <? height end
  then mk_Observation (Some height) (Freshness_Fresh started max_age) else self.

(* [crates/channel/src/work/observation.rs:56-66] Observation::check *)
Definition Observation_check (self : Observation) (now : ObservationTime)
    : result unit EndpointError :=
  match observation_freshness self with
  | Freshness_Fresh started max_age =>
      match time_elapsed started now with
      | Some age => if age <? max_age then Ok tt else Err ObservationStale
      | None => Err ObservationStale
      end
  | Freshness_Unavailable => Err NotAdmitting
  | Freshness_Stale => Err ObservationStale
  end.

(* [crates/channel/src/work/observation.rs:68-72] Observation::suspend *)
Definition Observation_suspend (self : Observation) : Observation :=
  match observation_freshness self with
  | Freshness_Unavailable => self
  | _ => mk_Observation (observation_height self) Freshness_Stale
  end.

(* [crates/channel/src/work/observation.rs:74-77] Observation::reject *)
Definition Observation_reject (self : Observation) (height : N) : Observation :=
  mk_Observation (Some match observation_height self with
                       | None => height
                       | Some previous => N.max previous height
                       end) Freshness_Unavailable.

(** An endpoint that is not observed is not held to any freshness. *)
Definition observation_fresh (self : option Observation) (now : ObservationTime)
    : result unit EndpointError :=
  match self with None => Ok tt | Some observation => Observation_check observation now end.

(** ** Wire shapes *)

(** [FundingKind::Payment] in proto/hellas/work/v1/work.proto. *)
Definition FundingKind_Payment : Z := 1.

Record WorkRoute := mk_WorkRoute {
  funding_kind : Z;
  route_channel_id : bytes;
}.

(* [crates/rpc/src/pb/mod.rs:114-119] WorkRoute::payment *)
Definition route_payment (channel : Digest) : WorkRoute :=
  mk_WorkRoute FundingKind_Payment (Digest_bytes channel).

(* [crates/rpc/src/pb/mod.rs:122-125] WorkRoute::selects_payment *)
Definition selects_payment (self : option WorkRoute) (channel : Digest) : bool :=
  match self with
  | None => false
  | Some route => Z.eqb (funding_kind route) FundingKind_Payment
                  && bool_decide (route_channel_id route = Digest_bytes channel)
  end.

Record AcceptWorkRequest := mk_AcceptWorkRequest {
  accept_route : option WorkRoute;
  accept_authorization : bytes;
  accept_client_signature : bytes;
  accept_prepared_input : bytes;
}.

Inductive AcceptOutcome :=
  | Outcome_Accepted (provider_signature work_id : bytes)
  | Outcome_Refused (code : Z).

Record StreamResultRequest := mk_StreamResultRequest {
  stream_route : option WorkRoute;
  stream_work_id : bytes;
  stream_client_signature : bytes;
}.

Record AdmitCertificateRequest := mk_AdmitCertificateRequest {
  admit_route : option WorkRoute;
  admit_certificate : bytes;
  admit_binding : bytes;
  admit_binding_signature : bytes;
  admit_certificate_signature : bytes;
}.

Inductive AdmitOutcome :=
  | Outcome_Paid (credited_cumulative : N)
  | Outcome_Unpaid (code : Z).

(* [crates/channel/src/work.rs:2021-2028] Delivery *)
Record Delivery := mk_Delivery {
  delivery_result : PaidJobResultV1;
  delivery_signature : Sig;
  delivery_transcript : bytes;
}.

(* [crates/channel/src/work.rs:3857-3861] signature *)
Definition read_signature (bs : bytes) : option Sig :=
  if (length bs =? SIG_LENGTH)%nat then Some (Sig_from_bytes bs) else None.

(* [crates/channel/src/work.rs:3047-3051] work_id_bytes *)
Definition work_id_bytes (bs : bytes) : option Digest :=
  if (length bs =? 32)%nat then Some (Digest_from_bytes bs) else None.

(* [crates/rpc/src/protocol/content_upload.rs:16-24] decode_reference *)
Definition decode_reference (bs : bytes) : option ContentRef :=
  if negb (length bs =? 40)%nat then None
  else Some (ContentRef_new (Digest_from_bytes (take 32 bs)) (from_be_bytes (drop 32 bs))).

(* [crates/channel/src/work.rs:2208-2211] earned_certificate *)
Definition earned_certificate (bs : bytes) : option EarnedCertificate :=
  match decode EarnedCertificate_codec bs with
  | Ok (certificate, consumed) =>
      if (consumed =? length bs)%nat then Some certificate else None
  | Err _ => None
  end.

(* [crates/channel/src/work.rs:2214-2222] admit_request *)
Definition admit_request (channel : Digest) (payment : PaidCertificate) : AdmitCertificateRequest :=
  mk_AdmitCertificateRequest (Some (route_payment channel))
    (encode_to EarnedCertificate_codec (paid_certificate payment))
    (record_encode PaymentBindingV1_record (paid_binding payment))
    (Sig_bytes (paid_binding_signature payment)) (Sig_bytes (paid_certificate_signature payment)).

(* [crates/channel/src/work.rs:3818-3832] acceptance_response *)
Definition acceptance_response (r : result (Digest * Sig) WorkRefusal) : option AcceptOutcome :=
  Some match r with
       | Ok (work_id, signature) =>
           Outcome_Accepted (Sig_bytes signature) (Digest_bytes work_id)
       | Err refusal => Outcome_Refused (refusal_code refusal)
       end.

#[export] Instance PaidChannelPolicyV1_eq_dec : EqDecision PaidChannelPolicyV1.
Proof. solve_decision. Defined.
#[export] Instance JobPaymentPolicyV2_eq_dec : EqDecision JobPaymentPolicyV2.
Proof. solve_decision. Defined.
#[export] Instance PaidChannel_eq_dec : EqDecision PaidChannel.
Proof. solve_decision. Defined.
#[export] Instance WorkPaymentSettlement_eq_dec : EqDecision WorkPaymentSettlement.
Proof. solve_decision. Defined.

(** ** Effects *)

(** An operation on an endpoint: what it answers, and the endpoint after it. *)
Definition Eff (X E A : Type) : Type := X -> result A E * X.

Definition eff_ret {X E A} (a : A) : Eff X E A := fun x => (Ok a, x).
Definition eff_get {X E A} (f : X -> A) : Eff X E A := fun x => (Ok (f x), x).
Definition eff_lift {X E F A} (err : F -> E) (r : result A F) : Eff X E A := fun x =>
  (map_err err r, x).
Definition eff_bind {X E A B} (m : Eff X E A) (k : A -> Eff X E B) : Eff X E B := fun x =>
  match m x with (Ok a, x) => k a x | (Err e, x) => (Err e, x) end.

Declare Scope eff_scope.
Delimit Scope eff_scope with eff.
Notation "'do*' x := m 'in' k" := (eff_bind m (fun x => k))
  (at level 10, x name, m at level 100, k at level 200) : eff_scope.
Notation "'do*' ' x := m 'in' k" := (eff_bind m (fun x => k))
  (at level 10, x strict pattern, m at level 100, k at level 200) : eff_scope.
#[local] Open Scope eff_scope.

Section endpoints.
  Context `{Blake3} `{Gearhash} `{Invocations} `{Uploads} (verifier : SigVerifier).

(** An endpoint over a journal it owns. *)
Class Journaled (X : Type) := {
  journal_of : X -> ChannelStore;
  put_journal : ChannelStore -> X -> X;
}.

(** A step of the journal, and one of its upload store alone. *)
Definition on_store {X E A} `{Journaled X} (err : WorkStoreError -> E) (m : Act A) : Eff X E A :=
  fun x => let '(r, st) := m (journal_of x) in (map_err err r, put_journal st x).
Definition on_uploads {X E A} `{Journaled X} (err : ContentError -> E)
    (f : UploadStore -> result A ContentError * UploadStore) : Eff X E A := fun x =>
  let st := journal_of x in
  let '(r, uploads) := f (st_uploads st) in
  (map_err err r,
   put_journal (mk_ChannelStore (st_journal st) (st_state st) (st_contents st) uploads
                  (st_disk st)) x).
Definition state_of {X} `{Journaled X} (x : X) : Channel := st_state (journal_of x).
Definition uploads_of {X} `{Journaled X} (x : X) : UploadStore := st_uploads (journal_of x).
Definition channel_of {X} `{Journaled X} (x : X) : PaidChannel :=
  ps_channel (ch_funding (state_of x)).

(* [crates/channel/src/work_store/channel/store.rs:173-179] ChannelStore::remember_content *)
Definition remember_content {X E} `{Journaled X} (work : Digest) (content : InvocationContent)
    : Eff X E unit := fun x =>
  let st := journal_of x in
  (Ok tt, put_journal (mk_ChannelStore (st_journal st) (st_state st)
            (<[work := content]> (st_contents st)) (st_uploads st) (st_disk st)) x).

(* [crates/channel/src/work_store/channel/store.rs:180-215] ChannelStore::invocation_content *)
Definition invocation_content (st : ChannelStore) (work : Digest) (policy : InvocationPolicy)
    : result InvocationContent WorkStoreError :=
  match st_contents st !! work with
  | Some content => Ok content
  | None =>
      let? job := ok_or (book_jobs (ch_book (st_state st)) !! work) (Channel_error Malformed) in
      let a := job_authorization job in
      let? input := map_err Channel_error (paid (prepared_from_canonical_bytes (prepared_input job))) in
      let? manifest := map_err Channel_error (paid (manifest input)) in
      let? root := map_err Content_error
                     (uploads_root (st_uploads st) work (manifest_root manifest) (retention a)) in
      let? objects := map_err Channel_error
                        (paid (content_closure policy manifest root (input_content a))) in
      map_err Content_error (uploads_invocation_content (st_uploads st) work objects (retention a))
  end.

(* [crates/channel/src/work.rs:447-461] bind *)
Definition bind_ready (ready : ReadyChannel) (state : Channel) (signer : Secp256k1Signer)
    (role : Role) : result unit EndpointError :=
  if negb (bool_decide (ps_channel (ch_funding state) = ready_channel ready))
  then Err Endpoint_WrongChannel else
  if negb (bool_decide (ps_settlement (ch_funding state) = ready_settlement ready))
  then Err WrongSettlement else bind_store state signer role.

(** ** The provider *)

(* [crates/channel/src/work.rs:538-542] ProviderEndpoint *)
Record ProviderEndpoint := mk_ProviderEndpoint {
  provider_close : CloseEndpoint;
  provider_ready : option ReadyChannel;
  provider_observation : option Observation;
}.

#[export] Instance provider_journaled : Journaled ProviderEndpoint := {
  journal_of self := close_store (provider_close self);
  put_journal st self := mk_ProviderEndpoint (with_store st (provider_close self))
                           (provider_ready self) (provider_observation self);
}.

Definition provider_signer (self : ProviderEndpoint) : Secp256k1Signer :=
  close_signer (provider_close self).

(* [crates/channel/src/work.rs:604-622] ProviderEndpoint::new *)
Definition ProviderEndpoint_new (ready : ReadyChannel) (store : ChannelStore)
    (signer : Secp256k1Signer) : result ProviderEndpoint EndpointError :=
  let? _ := bind_ready ready (st_state store) signer Provider in
  Ok (mk_ProviderEndpoint (mk_CloseEndpoint store signer None) (Some ready) None).

(* [crates/channel/src/work.rs:643-649] ProviderEndpoint::admitting *)
Definition admitting (self : ProviderEndpoint) (now : ObservationTime)
    : result ReadyChannel EndpointError :=
  let? ready := ok_or (provider_ready self) NotAdmitting in
  let? _ := observation_fresh (provider_observation self) now in
  Ok ready.

(* [crates/channel/src/work.rs:657-666] ProviderEndpoint::admit_new_work *)
Definition admit_new_work (ready : ReadyChannel) : Eff ProviderEndpoint EndpointError unit :=
  fun self =>
  match bind_ready ready (state_of self) (provider_signer self) Provider with
  | Err e => (Err e, self)
  | Ok _ => (Ok tt, mk_ProviderEndpoint (provider_close self) (Some ready)
                      (provider_observation self))
  end.

(* [crates/channel/src/work.rs:700-731] ProviderEndpoint::authenticate_proposal *)
Definition authenticate_proposal (state : Channel) (request : AcceptWorkRequest)
    : result (PaidJobAuthorizationV2 * Sig * Digest) WorkRefusal :=
  let channel := ps_channel (ch_funding state) in
  if negb (selects_payment (accept_route request) (channel_id channel)) then Err Refuse_Invalid else
  let? authorization := map_err record_refusal
    (record_decode PaidJobAuthorizationV2_record (accept_authorization request)) in
  if negb (bool_decide (auth_channel_id authorization = channel_id channel))
  then Err Refuse_Invalid else
  let? client_signature := ok_or (read_signature (accept_client_signature request))
                             Refuse_Invalid in
  let id := work_id channel authorization in
  if negb (verify_sig verifier client_signature (client_key channel) (signing_hash id))
  then Err Refuse_Invalid else
  Ok (authorization, client_signature, id).

(* [crates/channel/src/work.rs:877-881] ProviderEndpoint::retained_signature *)
Definition retained_signature (state : Channel) (id : Digest) : option Sig :=
  match book_jobs (ch_book state) !! id with
  | Some job => JobBook.provider_signature job
  | None => None
  end.

(* [crates/channel/src/work.rs:733-761] ProviderEndpoint::prior_acceptance *)
Definition prior_acceptance (state : Channel) (authorization : PaidJobAuthorizationV2) (id : Digest)
    : result (option Sig) WorkRefusal :=
  match retained_signature state id with
  | Some retained => Ok (Some retained)
  | None =>
      if is_some (book_terminals (ch_book state) !! id) then Err Refuse_Conflict else
      if acceptance_deadline authorization <? (ps_cursor (ch_funding state)).1
      then Err (record_refusal (AcceptanceExpired (ps_cursor (ch_funding state)).1
                                  (acceptance_deadline authorization)))
      else Ok None
  end.

(** A retained answer is given again; the input it was given for is published
    again when this process still holds it. *)
(* [crates/channel/src/work.rs:766-778] ProviderEndpoint::decide *)
Definition republish (authorization : PaidJobAuthorizationV2) (id : Digest)
    : Eff ProviderEndpoint WorkRefusal unit :=
  do* state := eff_get state_of in
  match book_jobs (ch_book state) !! id with
  | Some job =>
      match prepared_input job with
      | [] => eff_ret tt
      | bs => on_uploads content_refusal
                (fun u => uploads_publish_accepted u id bs (retention authorization))
      end
  | None => eff_ret tt
  end.

(** The input a proposal names, authenticated against what was signed, and the
    content its invocation will read. *)
(* [crates/channel/src/work.rs:803-839] ProviderEndpoint::decide *)
Definition proposed_input (ready : ReadyChannel) (uploads : UploadStore)
    (request : AcceptWorkRequest) (authorization : PaidJobAuthorizationV2) (id : Digest)
    : result (bytes * InvocationContent) WorkRefusal :=
  let policy := ready_invocation_policy ready in
  let channel := ready_channel ready in
  let kept := retention authorization in
  let? reference := ok_or (decode_reference (accept_prepared_input request)) Refuse_Invalid in
  if negb (bool_decide (reference = input_content authorization)) then Err Refuse_Invalid else
  let? prepared := map_err content_refusal (uploads_read uploads id reference kept) in
  let? bundle := map_err (fun _ => Refuse_Invalid) (prepared_from_canonical_bytes prepared) in
  let? _ := map_err record_refusal (check_paid_input channel authorization policy bundle) in
  let? manifest := map_err (fun _ => Refuse_Invalid) (manifest bundle) in
  let? root := map_err content_refusal (uploads_root uploads id (manifest_root manifest) kept) in
  let? objects := map_err record_refusal
                    (content_closure policy manifest root (input_content authorization)) in
  let? content := map_err content_refusal
                    (uploads_invocation_content uploads id objects kept) in
  Ok (prepared, content).

(* [crates/channel/src/work.rs:763-873] ProviderEndpoint::decide *)
Definition decide_proposal (now : ObservationTime) (request : AcceptWorkRequest)
    : Eff ProviderEndpoint WorkRefusal (Digest * Sig) :=
  do* self := eff_get (fun self => self) in
  do* '(authorization, client_signature, id) :=
    eff_lift (fun e => e) (authenticate_proposal (state_of self) request) in
  do* _ := on_store store_refusal gc_uploads in
  do* state := eff_get state_of in
  do* prior := eff_lift (fun e => e) (prior_acceptance state authorization id) in
  match prior with
  | Some retained => do* _ := republish authorization id in eff_ret (id, retained)
  | None =>
      do* ready := eff_lift endpoint_refusal (admitting self now) in
      if is_some (close_prepared (ch_funding state)) || is_some (close_opened (ch_funding state))
         || is_some (close_settled (ch_funding state))
      then eff_lift (fun e => e) (Err Refuse_Declined) else
      let cursor := (ps_cursor (ch_funding state)).1 in
      do* _ := eff_lift record_refusal
        (check_authorization (ready_channel ready) authorization (ready_invocation_policy ready)
           (ready_payment_policy ready) cursor) in
      do* _ := eff_lift setup_refusal
        (check_signable ready cursor (terminal_deadline authorization)
           (payment_deadline authorization)) in
      do* uploads := eff_get uploads_of in
      do* '(prepared, content) :=
        eff_lift (fun e => e) (proposed_input ready uploads request authorization id) in
      do* _ := on_store store_refusal
        (commit verifier (JobProposed authorization client_signature prepared)) in
      do* _ := remember_content id content in
      let signature := sign (provider_signer self) (signing_hash id) in
      do* _ := on_store store_refusal (commit verifier (JobAccepted id signature)) in
      do* _ := on_uploads content_refusal
        (fun u => uploads_publish_accepted u id prepared (retention authorization)) in
      eff_ret (id, signature)
  end.

(* [crates/channel/src/work.rs:696-698] ProviderEndpoint::accept *)
Definition accept (now : ObservationTime) (request : AcceptWorkRequest) (self : ProviderEndpoint)
    : option AcceptOutcome * ProviderEndpoint :=
  let '(r, self) := decide_proposal now request self in (acceptance_response r, self).

(** ** Running an accepted job *)

(* [crates/channel/src/work.rs:1846-1862] RunAdmission *)
Inductive RunAdmission :=
  | Invoke (input : PreparedInvocation) (facts : AdmissionFacts) (content : InvocationContent)
  | Admission_Running
  | Admission_Ready (r : PaidJobResultV1) (signature : Sig)
  | Admission_Indeterminate.

(* [crates/channel/src/work.rs:922-1003] ProviderEndpoint::begin_run *)
Definition begin_run (now now' : ObservationTime) (id : Digest) (ready : ReadyChannel)
    : Eff ProviderEndpoint RunError RunAdmission :=
  do* self := eff_get (fun self => self) in
  let state := state_of self in
  do* job := eff_lift (fun e => e) (ok_or (book_jobs (ch_book state) !! id) Run_NoSuchJob) in
  match job_result job with
  | Some (r, signature) => eff_ret (Admission_Ready r signature)
  | None =>
  match job_phase job with
  | Running | Streaming =>
      eff_ret (if bool_decide (id ∈ indeterminate (ch_book state)) then Admission_Indeterminate
               else Admission_Running)
  | Accepted =>
      do* _ := eff_lift Run_Endpoint (bind_ready ready state (provider_signer self) Provider) in
      do* held := eff_lift Run_Endpoint (admitting self now) in
      if negb (bool_decide (ready_invocation_policy ready = ready_invocation_policy held))
      then eff_lift (fun e => e) (Err Run_Policy) else
      do* held := eff_lift Run_Endpoint (admitting self now') in
      if negb (bool_decide (ready_payment_policy ready = ready_payment_policy held))
      then eff_lift (fun e => e) (Err Run_Policy) else
      let authorization := job_authorization job in
      do* _ := eff_lift Run_Record (check_payment_policy_binding (ready_channel ready) authorization
                                      (ready_payment_policy ready)) in
      do* _ := eff_lift Run_Setup
        (check_signable ready (ps_cursor (ch_funding state)).1 (terminal_deadline authorization)
           (payment_deadline authorization)) in
      match prepared_input job with
      | [] => eff_ret Admission_Indeterminate
      | bs =>
          do* bundle := eff_lift Run_Record (prepared_from_canonical_bytes bs) in
          do* facts := eff_lift Run_Record
            (check_paid_input (ready_channel ready) authorization (ready_invocation_policy ready)
               bundle) in
          do* content := eff_lift Run_Store
            (invocation_content (journal_of self) id (ready_invocation_policy ready)) in
          do* _ := on_store Run_Store (commit verifier (JobRunning id)) in
          eff_ret (Invoke bundle facts content)
      end
  | phase => eff_lift (fun e => e) (Err (Run_NotAccepted phase))
  end
  end.

(** Every frame a delivery of these events would take fits. *)
(* [crates/channel/src/work.rs:1071-1083] ProviderEndpoint::record_result *)
Definition check_frames `{Protobuf} (limit : N) (frames : list (result WorkStreamEvent PaidWorkError))
    : result unit PaidWorkError :=
  rfold (fun _ frame =>
    let? frame := frame in
    let actual := stream_encoded_len frame in
    if N.min limit (4 * 1024 * 1024) <? actual
    then Err (OverEnvelope "encoded result frame" actual limit) else Ok tt) tt frames.

(* [crates/channel/src/work.rs:1024-1097] ProviderEndpoint::record_result *)
Definition ProviderEndpoint_record_result `{Protobuf} (id : Digest)
    (transcript : list OutputEventEnvelope) : Eff ProviderEndpoint RunError (PaidJobResultV1 * Sig) :=
  do* self := eff_get (fun self => self) in
  let state := state_of self in
  do* job := eff_lift (fun e => e) (ok_or (book_jobs (ch_book state) !! id) Run_NoSuchJob) in
  let authorization := job_authorization job in
  do* input := eff_lift Run_Transcript (prepared_from_canonical_bytes (prepared_input job)) in
  do* ready := eff_lift Run_Endpoint (ok_or (provider_ready self) NotAdmitting) in
  let channel := ready_channel ready in
  do* r := eff_lift Run_Transcript
    (paid_terminal_result channel authorization (ready_invocation_policy ready) input transcript) in
  do* spool := eff_lift Run_Transcript (encode_transcript transcript) in
  do* facts := eff_lift Run_Record
    (check_paid_input channel authorization (ready_invocation_policy ready) input) in
  let signature := sign (provider_signer self) (signing_hash (result_digest channel r)) in
  let delivered := mk_ResultTranscript (record_encode PaidJobResultV1_record r)
                     (Sig_bytes signature) [] in
  do* _ := eff_lift Run_Record
    (check_frames (max_encoded_result_frame facts)
       (result_frames delivered transcript (max_encoded_result_frame facts))) in
  do* _ := on_store Run_Store (commit verifier (JobResultRecord id r signature spool)) in
  eff_ret (r, signature).

Definition PROVIDER_FAULT_CODE : N := 1.

(* [crates/channel/src/work.rs:1291-1306] ProviderEndpoint::end_run *)
Definition end_run (id : Digest) : Eff ProviderEndpoint RunError unit :=
  do* state := eff_get state_of in
  do* _ := eff_lift (fun e => e) (ok_or (book_jobs (ch_book state) !! id) Run_NoSuchJob) in
  on_store Run_Store (commit verifier (JobTerminated id (Failed PROVIDER_FAULT_CODE))).

(* [crates/channel/src/work.rs:2226-2231] end_failed *)
Definition end_failed {A} (id : Digest) (fault : RunError) : Eff ProviderEndpoint RunError A :=
  fun self =>
  match end_run id self with
  | (Ok _, self) => (Err fault, self)
  | (Err error, self) => (Err error, self)
  end.

(* [crates/channel/src/work.rs:1878-1897] RunOutcome *)
Inductive RunOutcome :=
  | Run_Completed (r : PaidJobResultV1) (signature : Sig)
  | Run_Ready (r : PaidJobResultV1) (signature : Sig)
  | Run_Running
  | Run_Indeterminate.

(** The backend runs with the endpoint released: [meanwhile] is whatever other
    calls make of it before the transcript comes back. *)
(* [crates/channel/src/work.rs:1964-2010] run_accepted_work *)
Definition run_accepted_work `{Protobuf} (now now' : ObservationTime) (ready : ReadyChannel)
    (backend : PreparedInvocation -> option (list OutputEventEnvelope))
    (meanwhile : ProviderEndpoint -> ProviderEndpoint) (id : Digest)
    : Eff ProviderEndpoint RunError RunOutcome :=
  do* admission := begin_run now now' id ready in
  match admission with
  | Admission_Running => eff_ret Run_Running
  | Admission_Indeterminate => eff_ret Run_Indeterminate
  | Admission_Ready r signature => eff_ret (Run_Ready r signature)
  | Invoke input _ _ =>
      do* _ := eff_lift Run_Record
        (invocation_admit (ready_invocation_policy ready) input
           (PublicKey_Secp256k1 (Key_bytes (client_key (ready_channel ready))))) in
      do* _ := (fun self => (Ok tt, meanwhile self)) in
      match backend input with
      | None => end_failed id Run_Backend
      | Some transcript => fun self =>
          match ProviderEndpoint_record_result id transcript self with
          | (Ok (r, signature), self) => (Ok (Run_Completed r signature), self)
          | (Err (Run_Transcript e), self) => end_failed id (Run_Transcript e) self
          | (Err (Run_Record e), self) => end_failed id (Run_Record e) self
          | (Err error, self) => (Err error, self)
          end
      end
  end.

(** ** Releasing plaintext *)

Definition delivery_request_digest (channel : PaidChannel) (id : Digest) (exporter : bytes)
    : Digest :=
  bound_delivery_request_digest (channel_network channel) (channel_id channel) id exporter.

(* [crates/channel/src/work.rs:1101-1168] ProviderEndpoint::reserve_ready_release *)
Definition reserve_ready_release (now : ObservationTime) (request : StreamResultRequest)
    (exporter : bytes) : Eff ProviderEndpoint DeliverError Digest :=
  do* self := eff_get (fun self => self) in
  let state := state_of self in
  let channel := channel_of self in
  if negb (selects_payment (stream_route request) (channel_id channel))
  then eff_lift Deliver_Malformed (Err "channel route"%string) else
  do* id := eff_lift Deliver_Malformed (ok_or (work_id_bytes (stream_work_id request)) "work id"%string) in
  do* signature := eff_lift Deliver_Malformed
    (ok_or (read_signature (stream_client_signature request)) "client signature"%string) in
  if negb (verify_sig verifier signature (client_key channel)
             (signing_hash (delivery_request_digest channel id exporter)))
  then eff_lift (fun e => e) (Err Deliver_Unbound) else
  do* job := eff_lift (fun e => e)
    (ok_or (book_jobs (ch_book state) !! id)
       match book_terminals (ch_book state) !! id with
       | None => Deliver_NoSuchJob
       | Some terminal => Deliver_Terminated (TerminalOutcome_name (terminal_outcome terminal))
       end) in
  if is_closing state then eff_lift Deliver_Endpoint (Err NotAdmitting) else
  do* ready := eff_lift Deliver_Endpoint (admitting self now) in
  if negb (is_some (job_result job)) || bool_decide (job_transcript job = [])
  then eff_lift (fun e => e) (Err (Deliver_NoResult (job_phase job))) else
  do* _ := eff_lift Deliver_Record
    (check_payment_policy_binding (ready_channel ready) (job_authorization job)
       (ready_payment_policy ready)) in
  do* _ := eff_lift Deliver_Endpoint (bind_ready ready state (provider_signer self) Provider) in
  do* _ := eff_lift Deliver_Setup
    (check_releasable ready (ps_cursor (ch_funding state)).1
       (terminal_deadline (job_authorization job))) in
  do* _ := on_store Deliver_Store (commit verifier (PlaintextReleased id)) in
  eff_ret id.

(* [crates/channel/src/work/stream.rs:120-136] ProviderEndpoint::job_facts *)
Definition job_facts (now : ObservationTime) (id : Digest)
    : Eff ProviderEndpoint DeliverError AdmissionFacts :=
  do* self := eff_get (fun self => self) in
  do* job := eff_lift (fun e => e)
    (ok_or (book_jobs (ch_book (state_of self)) !! id) Deliver_NoSuchJob) in
  do* input := eff_lift Deliver_Record (prepared_from_canonical_bytes (prepared_input job)) in
  do* ready := eff_lift Deliver_Endpoint (admitting self now) in
  eff_lift Deliver_Record
    (check_paid_input (channel_of self) (job_authorization job) (ready_invocation_policy ready) input).

(** A request made while its observation is stale is refused for an expired job,
    and otherwise asked again; it releases nothing. *)
(* [crates/channel/src/work/stream.rs:148-165] ProviderEndpoint::reserve_stream *)
Definition stale_release (request : StreamResultRequest) : Eff ProviderEndpoint DeliverError unit :=
  do* self := eff_get (fun self => self) in
  do* id := eff_lift Deliver_Malformed (ok_or (work_id_bytes (stream_work_id request)) "work id"%string) in
  do* job := eff_lift (fun e => e)
    (ok_or (book_jobs (ch_book (state_of self)) !! id) Deliver_NoSuchJob) in
  do* ready := eff_lift Deliver_Endpoint (ok_or (provider_ready self) NotAdmitting) in
  do* _ := eff_lift Deliver_Setup
    (check_releasable ready (ps_cursor (ch_funding (state_of self))).1
       (terminal_deadline (job_authorization job))) in
  eff_lift Deliver_Endpoint (Err ObservationStale).

(** A job still running is released from the start of its stream. *)
(* [crates/channel/src/work/stream.rs:168-194] ProviderEndpoint::reserve_stream *)
Definition live_release (now now' : ObservationTime) (request : StreamResultRequest)
    : Eff ProviderEndpoint DeliverError unit :=
  do* self := eff_get (fun self => self) in
  let state := state_of self in
  do* ready := eff_lift Deliver_Endpoint (admitting self now) in
  do* id := eff_lift Deliver_Malformed (ok_or (work_id_bytes (stream_work_id request)) "work id"%string) in
  do* job := eff_lift (fun e => e) (ok_or (book_jobs (ch_book state) !! id) Deliver_NoSuchJob) in
  if bool_decide (id ∈ indeterminate (ch_book state))
  then eff_lift (fun e => e) (Err Deliver_NoSuchJob) else
  do* _ := eff_lift Deliver_Record
    (check_payment_policy_binding (ready_channel ready) (job_authorization job)
       (ready_payment_policy ready)) in
  do* _ := job_facts now' id in
  do* _ := eff_lift Deliver_Setup
    (check_releasable ready (ps_cursor (ch_funding state)).1
       (terminal_deadline (job_authorization job))) in
  on_store Deliver_Store (commit verifier (PlaintextReleased id)).

(* [crates/channel/src/work/stream.rs:137-195] ProviderEndpoint::reserve_stream *)
Definition reserve_stream (clock : nat -> ObservationTime) (request : StreamResultRequest)
    (exporter : bytes) : Eff ProviderEndpoint DeliverError unit := fun self =>
  match reserve_ready_release (clock 0%nat) request exporter self with
  | (Ok _, self) => (Ok tt, self)
  | (Err (Deliver_NoResult (Running | Streaming)), self) =>
      live_release (clock 1%nat) (clock 2%nat) request self
  | (Err (Deliver_Endpoint ObservationStale), self) => stale_release request self
  | (Err error, self) => (Err error, self)
  end.

(* [crates/channel/src/work.rs:2922-2951] WorkService::retained_delivery *)
Definition retained_delivery (now : ObservationTime) (request : StreamResultRequest)
    (exporter : option bytes) (self : ProviderEndpoint)
    : result Delivery WorkRefusal * ProviderEndpoint :=
  let '(r, self) :=
    (do* exporter := eff_lift (fun e => e) (ok_or exporter Deliver_Unbindable) in
     do* id := reserve_ready_release now request exporter in
     do* state := eff_get state_of in
     do* job := eff_lift (fun e => e) (ok_or (book_jobs (ch_book state) !! id) Deliver_NoSuchJob) in
     do* '(r, signature) := eff_lift (fun e => e)
       (ok_or (job_result job) (Deliver_NoResult (job_phase job))) in
     eff_ret (mk_Delivery r signature (job_transcript job))) self in
  (map_err deliver_refusal r, self).

(** ** Crediting a payment *)

(** The signed result a payment is for: the open job's, or the one an earlier
    payment was credited for. *)
(* [crates/channel/src/work.rs:1224-1254] ProviderEndpoint::admit *)
Definition paid_result (state : Channel) (id : Digest)
    : result (PaidJobResultV1 * Sig) WorkStoreError :=
  let open := match book_jobs (ch_book state) !! id with
              | Some job => job_result job
              | None => None
              end in
  let ended := book_terminals (ch_book state) !! id in
  match open, ended with
  | Some signed, _ => Ok signed
  | None, Some (mk_JobTerminal _ _ (Certified signed _ _ _ _)) => Ok signed
  | None, Some terminal =>
      Err (Channel_error (Terminated "crediting a payment"
                            (TerminalOutcome_name (terminal_outcome terminal))))
  | None, None =>
      match book_jobs (ch_book state) !! id with
      | Some job => Err (Channel_error (WrongPhase "crediting a payment" (JobPhase_name (job_phase job))))
      | None => Err (Channel_error (WrongChannel "binding work_id"))
      end
  end.

(* [crates/channel/src/work.rs:1201-1273] ProviderEndpoint::admit *)
Definition admit_payment (now : ObservationTime) (request : AdmitCertificateRequest)
    : Eff ProviderEndpoint PaymentError N :=
  do* self := eff_get (fun self => self) in
  let state := state_of self in
  if negb (selects_payment (admit_route request) (channel_id (channel_of self)))
  then eff_lift Payment_Malformed (Err "channel route"%string) else
  do* certificate := eff_lift Payment_Malformed
    (ok_or (earned_certificate (admit_certificate request)) "certificate"%string) in
  do* binding := eff_lift Payment_Record
    (record_decode PaymentBindingV1_record (admit_binding request)) in
  let id := binding_work_id binding in
  do* binding_signature := eff_lift Payment_Malformed
    (ok_or (read_signature (admit_binding_signature request)) "binding signature"%string) in
  do* certificate_signature := eff_lift Payment_Malformed
    (ok_or (read_signature (admit_certificate_signature request)) "certificate signature"%string) in
  do* _ := eff_lift Payment_Endpoint
    (if is_some (payment state id) then Ok tt
     else observation_fresh (provider_observation self) now) in
  do* signed := eff_lift Payment_Store (paid_result state id) in
  do* _ := on_store Payment_Store (commit verifier (JobTerminated id
    (Certified signed certificate binding binding_signature certificate_signature))) in
  eff_get (fun self => credited_cumulative (ch_ledger (state_of self))).

(* [crates/channel/src/work.rs:2958-2975] WorkService::credit *)
Definition credit (now : ObservationTime) (request : AdmitCertificateRequest)
    (self : ProviderEndpoint) : option AdmitOutcome * ProviderEndpoint :=
  let '(r, self) := admit_payment now request self in
  (Some match r with
        | Ok credited => Outcome_Paid credited
        | Err e => Outcome_Unpaid (refusal_code (payment_refusal e))
        end, self).

(** ** The client *)

(* [crates/channel/src/work.rs:3061-3066] JobProposal *)
Record JobProposal := mk_JobProposal {
  proposal_input : PreparedInvocation;
  proposal_deadlines : JobDeadlines;
}.

(* [crates/channel/src/work.rs:3119-3124] ClientEndpoint *)
Record ClientEndpoint := mk_ClientEndpoint {
  client_ready : option ReadyChannel;
  client_observation : option Observation;
  client_store : ChannelStore;
  client_signer : Secp256k1Signer;
}.

#[export] Instance client_journaled : Journaled ClientEndpoint := {
  journal_of := client_store;
  put_journal st self := mk_ClientEndpoint (client_ready self) (client_observation self) st
                           (client_signer self);
}.

(* [crates/channel/src/work.rs:3133-3145] ClientEndpoint::new *)
Definition ClientEndpoint_new (ready : ReadyChannel) (store : ChannelStore)
    (signer : Secp256k1Signer) : result ClientEndpoint EndpointError :=
  let? _ := bind_ready ready (st_state store) signer Client in
  Ok (mk_ClientEndpoint (Some ready) None store signer).

(* [crates/channel/src/work.rs:3148-3156] ClientEndpoint::recover *)
Definition ClientEndpoint_recover (store : ChannelStore) (signer : Secp256k1Signer)
    : result ClientEndpoint EndpointError :=
  let? _ := bind_store (st_state store) signer Client in
  Ok (mk_ClientEndpoint None None store signer).

(* [crates/channel/src/work.rs:3834-3850] wire_request *)
Definition wire_request (authorization : PaidJobAuthorizationV2) (client_signature : Sig)
    (prepared : bytes) : AcceptWorkRequest :=
  mk_AcceptWorkRequest (Some (route_payment (auth_channel_id authorization)))
    (record_encode PaidJobAuthorizationV2_record authorization) (Sig_bytes client_signature)
    (encode_reference (ContentRef_for_bytes prepared)).

(** The half-signed proposal this one repeats, in journal order: the first whose
    authorization is rebuilt exactly. *)
(* [crates/channel/src/work.rs:3213-3241] ClientEndpoint::propose *)
Fixpoint retained_proposal (ready : ReadyChannel) (channel : PaidChannel) (proposal : JobProposal)
    (jobs : list JobState) : result (option (Digest * AcceptWorkRequest)) PaidWorkError :=
  match jobs with
  | [] => Ok None
  | job :: jobs =>
      if negb (bool_decide (job_phase job = HalfSigned))
      then retained_proposal ready channel proposal jobs else
      let retained := job_authorization job in
      let? rebuilt := propose channel (ready_invocation_policy ready) (ready_payment_policy ready)
                        (proposal_input proposal) (proposal_nonce retained)
                        (proposal_deadlines proposal) in
      if bool_decide (rebuilt = retained)
      then Ok (Some (job_work_id job,
                     wire_request retained (JobBook.client_signature job) (prepared_input job)))
      else retained_proposal ready channel proposal jobs
  end.

(* [crates/channel/src/work.rs:3325-3344] ClientEndpoint::mark_proposal_pending *)
Definition mark_proposal_pending (id : Digest) : Eff ClientEndpoint ProposeError unit :=
  do* state := eff_get state_of in
  match pending_proposal (ch_book state) with
  | Some held =>
      if negb (bool_decide (held = id)) then eff_lift (fun e => e) (Err Propose_Conflict)
      else on_store Propose_Store (commit verifier (ProposalExchange id true))
  | None => on_store Propose_Store (commit verifier (ProposalExchange id true))
  end.

(** A proposal at a fresh nonce, durable before it is returned. *)
(* [crates/channel/src/work.rs:3248-3296] ClientEndpoint::propose *)
Definition fresh_proposal (ready : ReadyChannel) (proposal : JobProposal)
    : Eff ClientEndpoint ProposeError AcceptWorkRequest :=
  do* self := eff_get (fun self => self) in
  let state := state_of self in
  let channel := channel_of self in
  let policy := ready_invocation_policy ready in
  let payment := ready_payment_policy ready in
  let cursor := (ps_cursor (ch_funding state)).1 in
  let nonce := saturating_add (proposal_nonce_high_water (ch_book state)) 1 in
  do* authorization := eff_lift Propose_Record
    (propose channel policy payment (proposal_input proposal) nonce (proposal_deadlines proposal)) in
  do* _ := eff_lift Propose_Record
    (check_authorization channel authorization policy payment cursor) in
  do* _ := eff_lift Propose_Record
    (check_paid_input channel authorization policy (proposal_input proposal)) in
  do* _ := eff_lift Propose_Setup
    (check_signable ready cursor (terminal_deadline authorization)
       (payment_deadline authorization)) in
  do* prepared := eff_lift Propose_Record (prepared_canonical_bytes (proposal_input proposal)) in
  let signature := sign (client_signer self) (signing_hash (work_id channel authorization)) in
  do* _ := on_store Propose_Store (commit verifier (JobProposed authorization signature prepared)) in
  eff_ret (wire_request authorization signature prepared).

(* [crates/channel/src/work.rs:3201-3297] ClientEndpoint::propose *)
Definition ClientEndpoint_propose (now : ObservationTime) (proposal : JobProposal)
    : Eff ClientEndpoint ProposeError AcceptWorkRequest :=
  do* self := eff_get (fun self => self) in
  let state := state_of self in
  do* _ := eff_lift Propose_Endpoint (observation_fresh (client_observation self) now) in
  do* ready := eff_lift Propose_Endpoint (ok_or (client_ready self) NotAdmitting) in
  do* retry := eff_lift Propose_Record
    (retained_proposal ready (channel_of self) proposal (btree_values (book_jobs (ch_book state)))) in
  match retry with
  | Some (id, request) => do* _ := mark_proposal_pending id in eff_ret request
  | None =>
      if is_some (pending_proposal (ch_book state))
      then eff_lift (fun e => e) (Err Propose_Conflict)
      else fresh_proposal ready proposal
  end.

(* [crates/channel/src/work.rs:3305-3323] ClientEndpoint::resume_proposal *)
Definition resume_proposal (id : Digest) : Eff ClientEndpoint ProposeError AcceptWorkRequest :=
  do* state := eff_get state_of in
  do* job := eff_lift (fun e => e) (ok_or (book_jobs (ch_book state) !! id) Propose_NoOpenJob) in
  if negb (bool_decide (job_phase job = HalfSigned))
  then eff_lift (fun e => e) (Err (Propose_JobInFlight (job_phase job))) else
  do* _ := mark_proposal_pending id in
  eff_ret (wire_request (job_authorization job) (JobBook.client_signature job) (prepared_input job)).

(* [crates/channel/src/work.rs:3361-3416] ClientEndpoint::accepted *)
Definition accepted (response : option AcceptOutcome) : Eff ClientEndpoint ProposeError Digest :=
  do* state := eff_get state_of in
  let pending := pending_proposal (ch_book state) in
  match response with
  | None => eff_lift Propose_Malformed (Err "outcome"%string)
  | Some (Outcome_Refused code) =>
      do* refusal := eff_lift Propose_Malformed
        (ok_or (refusal_from_code code) "refusal code"%string) in
      do* id := eff_lift (fun e => e) (ok_or pending Propose_NoOpenJob) in
      do* _ := on_store Propose_Store (commit verifier (ProposalExchange id false)) in
      eff_lift Propose_Refused (Err refusal)
  | Some (Outcome_Accepted signature id) =>
      do* id := eff_lift Propose_Malformed (ok_or (work_id_bytes id) "work id"%string) in
      do* signature := eff_lift Propose_Malformed
        (ok_or (read_signature signature) "provider signature"%string) in
      if match pending with Some held => negb (bool_decide (held = id)) | None => false end
      then eff_lift (fun e => e) (Err Propose_Conflict) else
      do* _ := eff_lift (fun e => e) (ok_or (book_jobs (ch_book state) !! id) Propose_NoOpenJob) in
      do* _ := on_store Propose_Store (commit verifier (JobAccepted id signature)) in
      eff_ret id
  end.

(* [crates/channel/src/work.rs:3482-3527] ClientEndpoint::receive_stream *)
Definition receive_stream (id : Digest) (ready : ReadyChannel) (delivered : ResultTranscript)
    : Eff ClientEndpoint DeliverError Delivery :=
  do* self := eff_get (fun self => self) in
  let state := state_of self in
  do* _ := eff_lift Deliver_Endpoint (bind_ready ready state (client_signer self) Client) in
  do* job := eff_lift (fun e => e) (ok_or (book_jobs (ch_book state) !! id) Deliver_NoSuchJob) in
  do* _ := eff_lift Deliver_Record
    (check_payment_policy_binding (ready_channel ready) (job_authorization job)
       (ready_payment_policy ready)) in
  do* held := eff_lift Deliver_Endpoint (ok_or (client_ready self) NotAdmitting) in
  if negb (bool_decide (ready_invocation_policy ready = ready_invocation_policy held))
  then eff_lift (fun e => e) (Err Deliver_Policy) else
  do* _ := eff_lift Deliver_Setup (check_caught_up ready (ps_cursor (ch_funding state)).1) in
  do* r := eff_lift Deliver_Record
    (record_decode PaidJobResultV1_record (transcript_result delivered)) in
  do* signature := eff_lift Deliver_Malformed
    (ok_or (read_signature (transcript_provider_signature delivered)) "provider signature"%string) in
  do* _ := on_store Deliver_Store
    (commit verifier (JobResultRecord id r signature (transcript_bytes delivered))) in
  eff_ret (mk_Delivery r signature (transcript_bytes delivered)).

(* [crates/channel/src/work.rs:3542-3562] ClientEndpoint::request_delivery *)
Definition request_delivery (self : ClientEndpoint) (id : Digest) (exporter : bytes)
    : result StreamResultRequest DeliverError :=
  let channel := channel_of self in
  let? _ := ok_or (book_jobs (ch_book (state_of self)) !! id) Deliver_NoSuchJob in
  let signature := sign (client_signer self)
                     (signing_hash (delivery_request_digest channel id exporter)) in
  Ok (mk_StreamResultRequest (Some (route_payment (channel_id channel))) (Digest_bytes id)
        (Sig_bytes signature)).

(* [crates/channel/src/work.rs:3566-3577] ClientEndpoint::verified *)
Definition verified (id : Digest) : Eff ClientEndpoint DeliverError unit :=
  do* state := eff_get state_of in
  do* _ := eff_lift (fun e => e) (ok_or (book_jobs (ch_book state) !! id) Deliver_NoSuchJob) in
  on_store Deliver_Store (commit verifier (ResultVerified id)).

(* [crates/channel/src/work.rs:3580-3604] ClientEndpoint::rejected *)
Definition rejected (id evidence_digest : Digest) : Eff ClientEndpoint DeliverError unit :=
  do* self := eff_get (fun self => self) in
  do* job := eff_lift (fun e => e)
    (ok_or (book_jobs (ch_book (state_of self)) !! id) Deliver_NoSuchJob) in
  do* '(r, _) := eff_lift (fun e => e) (ok_or (job_result job) Deliver_NoSuchJob) in
  on_store Deliver_Store (commit verifier (JobTerminated id
    (Rejected (result_digest (channel_of self) r) evidence_digest))).

(* [crates/channel/src/work.rs:3635-3691] ClientEndpoint::pay *)
Definition pay (now : ObservationTime) (id : Digest)
    : Eff ClientEndpoint PaymentError AdmitCertificateRequest :=
  do* self := eff_get (fun self => self) in
  let state := state_of self in
  let channel := channel_of self in
  match payment state id with
  | Some retained => eff_ret (admit_request (channel_id channel) retained)
  | None =>
      do* _ := eff_lift Payment_Endpoint (observation_fresh (client_observation self) now) in
      do* job := eff_lift (fun e => e) (ok_or (book_jobs (ch_book state) !! id) Payment_NoSuchJob) in
      do* '(r, result_signature) := eff_lift (fun e => e)
        (ok_or (job_result job) (Payment_NotPayable (job_phase job))) in
      do* '(certificate, binding) := eff_lift Payment_Record
        (next_payment channel (job_authorization job) r (credited_cumulative (ch_ledger state))
           (ps_settlement (ch_funding state))) in
      let binding_signature := sign (client_signer self)
                                 (signing_hash (payment_binding_digest channel binding)) in
      let certificate_signature := sign (client_signer self)
                                     (EarnedCertificate_digest certificate (channel_network channel)) in
      do* _ := on_store Payment_Store (commit verifier (JobTerminated id
        (Certified (r, result_signature) certificate binding binding_signature
           certificate_signature))) in
      eff_ret (mk_AdmitCertificateRequest (Some (route_payment (channel_id channel)))
        (encode_to EarnedCertificate_codec certificate)
        (record_encode PaymentBindingV1_record binding) (Sig_bytes binding_signature)
        (Sig_bytes certificate_signature))
  end.

(* [crates/channel/src/work.rs:3710-3737] ClientEndpoint::acknowledged *)
Definition acknowledged (self : ClientEndpoint) (id : Digest) (response : option AdmitOutcome)
    : result N PaymentError :=
  let? credited :=
    match response with
    | Some (Outcome_Paid credited) => Ok credited
    | Some (Outcome_Unpaid code) =>
        let? refusal := ok_or (refusal_from_code code) (Payment_Malformed "refusal code") in
        Err (Payment_Refused refusal)
    | None => Err (Payment_Malformed "outcome")
    end in
  let? paid := ok_or (payment (state_of self) id) Payment_NoSuchJob in
  let signed := cert_earned_cumulative (paid_certificate paid) in
  if credited =? signed then Ok credited else Err (Payment_Acknowledged signed credited).
End endpoints.
