(* ===== verification/EndpointLife.v ===== *)
(** * What an endpoint's operations guarantee

    Every operation of either endpoint moves the journal's state by accepted
    records only, whatever its answer, its clocks and its storage faults; so what
    is permanent in the journal is permanent for the endpoint.  From it: a job's
    backend is invoked at most once, a co-signature given is given again
    unchanged, and a payment signed is re-sent byte for byte. *)

From S2P Require Import Prelude Xet XetChunk Canonical Primitive Errors BoundedList Context Auth.
From S2P Require Import Objects Registry View Store Event Terms Work Lease Tx.
From S2P Require Import PaidWork JobBook JobInput ChannelState ChannelSteps.
From S2P Require Import ChannelInvariant ChannelReplay ChannelCodec ChannelCheckpoint ChannelReopen.
From S2P Require Import ChannelFits Journal ChannelLedger ChannelStore ChannelDurable Setup CloseWatch.
From S2P Require Import Mirror Watch Cbor Stream Endpoint.

#[local] Open Scope N_scope.
#[local] Open Scope eff_scope.

(** A phase the backend has been called in. *)
Definition ran (phase : JobPhase) : bool :=
  match phase with HalfSigned | Accepted => false | _ => true end.

(** What a job keeps while it is open. *)
Record job_later (j j' : @JobState PaymentFunding) : Prop := {
  later_authorization : job_authorization j' = job_authorization j;
  later_client : JobBook.client_signature j' = JobBook.client_signature j;
  later_cosigned sig : JobBook.provider_signature j = Some sig -> JobBook.provider_signature j' = Some sig;
  later_result r : job_result j = Some r -> job_result j' = Some r;
  later_ran : ran (job_phase j) = true -> ran (job_phase j') = true;
}.

Lemma job_later_refl j : job_later j j.
Proof. by split. Qed.

Lemma job_later_trans j j' j'' : job_later j j' -> job_later j' j'' -> job_later j j''.
Proof. intros [] []. split; [congruence..|eauto|eauto|eauto]. Qed.

Section permanence.
  Context `{Blake3} `{Gearhash} `{Invocations} (v : SigVerifier).
  Context (c : PaidChannel) (settlement : WorkPaymentSettlement) (role : Role).

Lemma insert_later (m : gmap Digest JobState) i (k k' : JobState) id j :
  m !! i = Some k -> job_later k k' -> m !! id = Some j ->
  exists j', <[i := k']> m !! id = Some j' /\ job_later j j'.
Proof.
  intros Hk Hl Hj. destruct (decide (i = id)) as [->|Hne].
  - rewrite lookup_insert_eq. simplify_eq. eauto.
  - rewrite lookup_insert_ne by done. eauto using job_later_refl.
Qed.

Lemma step_later s s' id j :
  channel_inv v c settlement role s -> step v s s' -> jobs s !! id = Some j ->
  (exists j', jobs s' !! id = Some j' /\ job_later j j') \/ is_Some (terminals s' !! id).
Proof.
  intros Hinv Hstep Hj.
  assert (forall job, job_phase job = HalfSigned -> jobs s !! job_work_id job = Some job ->
    JobBook.provider_signature job = None) as Hcs.
  { intros job Hp Hl. apply (inv_jobs _ _ _ _ _ Hinv) in Hl as []. rewrite Hp in job_cosigned.
    by destruct (JobBook.provider_signature job). }
  assert (forall i job, jobs s !! i = Some job -> job_work_id job = i) as Hn
    by (intros i job Hi; by apply (inv_jobs _ _ _ _ _ Hinv) in Hi as []).
  destruct Hstep; cbn [map_book map_funding ch_book book_jobs with_jobs with_pending book_terminals rest_at];
    eauto using job_later_refl.
  - left. exists j. rewrite lookup_insert_ne; [|congruence]. split; [done|apply job_later_refl].
  - left. eapply insert_later; [done| |done]. split; try done; [|by rewrite H3].
    intros sg Hsg. rewrite (Hcs job) in Hsg; [done|done|]. by rewrite (Hn _ _ H2).
  - left. eapply insert_later; [done| |done]. split; try done. cbn. intros Hr.
    by destruct H3 as [(_ & -> & _)|[([[_ ->]|[_ ->]] & _)|(_ & -> & _)]].
  - left. eapply insert_later; [done| |done]. split; try done; cbn; [congruence|]. by destruct (job_phase job).
  - left. destruct (decide (id0 = id)) as [->|Hne].
    + rewrite lookup_alter_eq, Hj. eexists. split; [done|]. by split.
    + rewrite lookup_alter_ne by done. eauto using job_later_refl.
  - rewrite (Hn _ _ H2). destruct (decide (id0 = id)) as [->|Hne]; [right; rewrite lookup_insert_eq; eauto|].
    left. exists j. rewrite lookup_delete_ne by done. split; [done|apply job_later_refl].
  - rewrite (Hn _ _ H2). destruct (decide (id0 = id)) as [->|Hne]; [right; rewrite lookup_insert_eq; eauto|].
    left. exists j. rewrite lookup_delete_ne by done. split; [done|apply job_later_refl].
Qed.

Lemma same_meta_later s s' id j :
  same_meta s s' -> jobs s !! id = Some j -> exists j', jobs s' !! id = Some j' /\ job_later j j'.
Proof.
  intros (_ & _ & _ & Hj & _) Hl. apply (f_equal (fun m => m !! id)) in Hj.
  rewrite !lookup_fmap, Hl in Hj. apply fmap_Some in Hj as (j' & -> & Hs). exists j'. split; [done|].
  destruct j, j'. unfold strip_job in Hs; simpl in Hs. injection Hs as -> -> -> -> -> ->. by split.
Qed.

Lemma evolve_later s s' id j :
  channel_inv v c settlement role s -> evolve v s s' -> jobs s !! id = Some j ->
  (exists j', jobs s' !! id = Some j' /\ job_later j j') \/ is_Some (terminals s' !! id).
Proof.
  intros Hinv Hev Hj. destruct Hev as [record meta a Hr%apply_step|i input Hr%restore_same_meta|Hr%restart_same_meta].
  - by eapply step_later.
  - left. by eapply same_meta_later.
  - left. by eapply same_meta_later.
Qed.

Lemma rtc_reachable s s' :
  reachable v c settlement role s -> rtc (evolve v) s s' -> reachable v c settlement role s'.
Proof. intros Hr Hev. induction Hev; [done|]. eauto using evolve_reachable. Qed.

Lemma rtc_terminal s s' id t :
  reachable v c settlement role s -> rtc (evolve v) s s' -> terminals s !! id = Some t ->
  terminals s' !! id = Some t.
Proof.
  intros Hr Hev. induction Hev as [|s s1 s' Hev _ IH]; [done|]. intros Ht.
  apply IH; [by eapply evolve_reachable|]. eapply evolve_terminal; [by apply reachable_inv|done..].
Qed.

(** An open job is still that job at any later time, unless it ended. *)
Lemma rtc_later s s' id j :
  reachable v c settlement role s -> rtc (evolve v) s s' -> jobs s !! id = Some j ->
  (exists j', jobs s' !! id = Some j' /\ job_later j j') \/ is_Some (terminals s' !! id).
Proof.
  intros Hr Hev. revert j. induction Hev as [|s s1 s' Hev Hrtc IH]; intros j Hj.
  { left. eauto using job_later_refl. }
  pose proof (evolve_reachable _ _ _ _ _ _ Hr Hev) as Hr1.
  destruct (evolve_later _ _ _ _ (reachable_inv _ _ _ _ _ Hr) Hev Hj) as [(j1 & Hj1 & Hl)|[t Ht]].
  - destruct (IH Hr1 j1 Hj1) as [(j' & Hj' & Hl')|]; [left|by right]. eauto using job_later_trans.
  - right. exists t. by eapply rtc_terminal.
Qed.

(** The backend was called for this job, or the job ended. *)
Definition done_with (s : Channel) (id : Digest) : Prop :=
  is_Some (terminals s !! id) \/ exists j, jobs s !! id = Some j /\ ran (job_phase j) = true.

Lemma done_with_later s s' id :
  reachable v c settlement role s -> rtc (evolve v) s s' -> done_with s id -> done_with s' id.
Proof.
  intros Hr Hev [[t Ht]|(j & Hj & Hran)]; [left; exists t; by eapply rtc_terminal|].
  destruct (rtc_later _ _ _ _ Hr Hev Hj) as [(j' & Hj' & Hl)|]; [right|by left].
  exists j'. split; [done|]. by apply (later_ran _ _ Hl).
Qed.

Lemma rtc_payment s s' id p :
  reachable v c settlement role s -> rtc (evolve v) s s' -> payment s id = Some p -> payment s' id = Some p.
Proof.
  intros Hr Hev. rewrite !payment_lookup. intros (t & Ht & Hp)%bind_Some.
  by rewrite (rtc_terminal _ _ _ _ Hr Hev Ht).
Qed.

Lemma rtc_chan s s' :
  reachable v c settlement role s -> rtc (evolve v) s s' -> chan s' = c /\ chan s = c /\ ch_role s' = role.
Proof.
  intros Hr Hev. pose proof (rtc_reachable _ _ Hr Hev) as Hr'.
  apply reachable_inv in Hr as [], Hr' as []. done.
Qed.
End permanence.

(** ** Operations move the journal by accepted records *)

Section effects.
  Context `{Blake3} `{Gearhash} `{Invocations} `{Uploads} (v : SigVerifier).

(** The journal is a field of the endpoint. *)
Class JournaledLaws X {HJ : Journaled X} : Prop := {
  journal_of_put st (x : X) : journal_of (put_journal st x) = st;
  put_put st st' (x : X) : put_journal st (put_journal st' x) = put_journal st x;
  put_same (x : X) : put_journal (journal_of x) x = x;
}.

#[export] Instance provider_laws : JournaledLaws ProviderEndpoint.
Proof. split; [done..|]. by intros [[] ? ?]. Qed.
#[export] Instance client_laws : JournaledLaws ClientEndpoint.
Proof. split; [done..|]. by intros []. Qed.

Section laws.
  Context {X : Type} {HJ : Journaled X} {HL : JournaledLaws X}.

(** An operation that changes nothing of its endpoint but the journal, and the
    journal's state by accepted records. *)
Definition moved (x x' : X) : Prop :=
  exists st, x' = put_journal st x /\ rtc (evolve v) (state_of x) (st_state st).
Definition moves {E A} (m : Eff X E A) : Prop := forall x r x', m x = (r, x') -> moved x x'.

Lemma moved_refl x : moved x x.
Proof. exists (journal_of x). by rewrite put_same. Qed.

Lemma moved_trans x y z : moved x y -> moved y z -> moved x z.
Proof.
  intros (st & -> & H3) (st' & -> & H4). exists st'. rewrite put_put. split; [done|].
  unfold state_of in *. rewrite journal_of_put in H4. by etrans.
Qed.

Lemma moved_state x x' : moved x x' -> rtc (evolve v) (state_of x) (state_of x').
Proof. intros (st & -> & H3). unfold state_of in *. by rewrite journal_of_put. Qed.

Lemma moves_ret {E A} (a : A) : moves (eff_ret (E := E) a).
Proof. intros x r x' [= <- <-]. apply moved_refl. Qed.
Lemma moves_get {E A} (f : X -> A) : moves (eff_get (E := E) f).
Proof. intros x r x' [= <- <-]. apply moved_refl. Qed.
Lemma moves_lift {E F A} (err : F -> E) (r : result A F) : moves (eff_lift err r).
Proof. intros x r' x' [= <- <-]. apply moved_refl. Qed.
Lemma moves_bind {E A B} (m : Eff X E A) (k : A -> Eff X E B) :
  moves m -> (forall a, moves (k a)) -> moves (eff_bind m k).
Proof.
  intros Hm Hk x r x'. unfold eff_bind. destruct (m x) as [[a|e] x1] eqn:E1; intros Hr.
  - eapply moved_trans; [by eapply Hm|by eapply Hk].
  - simplify_eq. by eapply Hm.
Qed.

Lemma moves_still {E A} (err : WorkStoreError -> E) (m : Act A) : still m -> moves (on_store err m).
Proof.
  intros Hm x r x'. unfold on_store. destruct (m (journal_of x)) as [r1 st] eqn:E1. intros [= <- <-].
  exists st. split; [done|]. apply Hm in E1. unfold state_of. by rewrite E1.
Qed.

Lemma moves_gc {E} (err : WorkStoreError -> E) : moves (on_store err gc_uploads).
Proof. apply moves_still, still_content, content_gc. Qed.

Lemma moves_commit {E} (err : WorkStoreError -> E) record : moves (on_store err (commit v record)).
Proof.
  intros x r x'. unfold on_store. destruct (commit v record (journal_of x)) as [r1 st] eqn:E1. intros [= <- <-].
  exists st. split; [done|]. apply commit_moves in E1 as [[Hs|Hs] _]; unfold state_of.
  - by rewrite Hs.
  - apply rtc_once. by eapply evolve_apply.
Qed.

Lemma moves_uploads {E A} (err : ContentError -> E) (f : UploadStore -> result A ContentError * UploadStore) :
  moves (on_uploads err f).
Proof.
  intros x r x'. unfold on_uploads. destruct (f _) as [r1 u]. intros [= <- <-]. eexists. split; [done|]. done.
Qed.

Lemma moves_remember {E} work content : moves (remember_content (E := E) work content).
Proof. intros x r x' [= <- <-]. eexists. split; [done|]. done. Qed.
End laws.
End effects.

(** ** Inverting a successful operation *)

Section invert.
  Context {X E : Type}.

Lemma eff_bind_Ok {A B} (m : Eff X E A) (k : A -> Eff X E B) x b x' :
  eff_bind m k x = (Ok b, x') -> exists a x1, m x = (Ok a, x1) /\ k a x1 = (Ok b, x').
Proof. unfold eff_bind. destruct (m x) as [[a|e] x1]; [eauto|done]. Qed.
Lemma eff_lift_Ok {F A} (err : F -> E) (r : result A F) (x : X) a x' :
  eff_lift err r x = (Ok a, x') -> r = Ok a /\ x' = x.
Proof. unfold eff_lift. destruct r; intros [=]; by subst. Qed.
Lemma eff_get_Ok {A} (f : X -> A) x (a : A) x' : eff_get (E := E) f x = (Ok a, x') -> a = f x /\ x' = x.
Proof. by intros [= <- <-]. Qed.
Lemma eff_ret_Ok {A} (a : A) (x : X) b x' : eff_ret (E := E) a x = (Ok b, x') -> b = a /\ x' = x.
Proof. by intros [= <- <-]. Qed.
End invert.

Lemma on_store_Ok `{Blake3} `{Gearhash} `{Invocations} `{Uploads} {X E A} {HJ : Journaled X}
    (err : WorkStoreError -> E) (m : Act A) x a x' :
  on_store err m x = (Ok a, x') -> exists st, m (journal_of x) = (Ok a, st) /\ x' = put_journal st x.
Proof. unfold on_store. destruct (m _) as [[b|e] st]; intros [=]; subst. eauto. Qed.

Ltac inv_eff :=
  repeat match goal with
  | H : eff_bind _ _ _ = (Ok _, _) |- _ =>
      let a := fresh "a" in let x := fresh "x" in let E := fresh "E" in
      apply eff_bind_Ok in H as (a & x & E & H); cbv zeta beta in H
  | H : eff_lift _ _ _ = (Ok _, _) |- _ => apply eff_lift_Ok in H as [H ?]
  | H : eff_get _ _ = (Ok _, _) |- _ => apply eff_get_Ok in H as [? ?]
  | H : eff_ret _ _ = (Ok _, _) |- _ => apply eff_ret_Ok in H as [? ?]
  | H : on_store _ _ _ = (Ok _, _) |- _ =>
      let st := fresh "st" in let E := fresh "E" in apply on_store_Ok in H as (st & E & ?)
  | H : ok_or _ _ = Ok _ |- _ => apply ok_or_Ok in H
  | H : (if ?b then _ else _) _ = (Ok _, _) |- _ => let G := fresh "G" in destruct b eqn:G
  | H : (let '(_, _) := ?p in _) _ = (Ok _, _) |- _ => destruct p
  | H : @Err _ _ _ = Ok _ |- _ => discriminate H
  | _ => progress subst
  end.

Create HintDb moves.
#[export] Hint Resolve moves_ret moves_get moves_lift moves_bind moves_commit moves_gc moves_uploads moves_remember : moves.
#[export] Hint Extern 0 (JournaledLaws _) => apply _ : moves.
Ltac moves :=
  repeat first [ done | solve [eauto 2 with moves] | apply moves_bind; [apply _| |intros ?] | case_match | progress cbv zeta ].

(** A commit that succeeds has applied its record, or found it already held. *)
Lemma commit_Ok `{Blake3} `{Gearhash} `{Invocations} `{Uploads} v record st st' :
  commit v record st = (Ok tt, st') ->
  apply (st_state st) v record false = Ok (Changed, st_state st') \/
  (exists s, apply (st_state st) v record false = Ok (Redundant, s)) /\ st_state st' = st_state st.
Proof.
  intros Hc. destruct (commit_moves v _ _ _ _ Hc) as [Hm Hok].
  enough (exists a s, apply (st_state st) v record false = Ok (a, s)) as ([] & s & Ha).
  - left. by rewrite <- (Hok s eq_refl Ha) in Ha.
  - right. split; [by eexists|]. destruct Hm as [?|Hm]; [done|]. congruence.
  - revert Hc. rewrite commit_eq. unfold act_bind at 1.
    destruct (promote_accepted_content st) as [[u|e] st1] eqn:Hp; [|done].
    apply (still_content _ content_promote) in Hp. unfold act_bind at 1, act_get. rewrite Hp.
    destruct (is_redundant _ record) eqn:Hred; [by rewrite (is_redundant_apply v _ _ Hred); eauto|].
    unfold act_bind at 1, act_lift. destruct (apply _ v record false) as [[a s]|e]; [by eauto|done].
Qed.

Section operations.
  Context `{Blake3} `{Gearhash} `{Invocations} `{Uploads} (v : SigVerifier).

Lemma moves_decide now request : moves v (decide_proposal v now request).
Proof.
  unfold decide_proposal, republish. moves.
Qed.
Lemma moves_begin now now' id ready : moves v (begin_run v now now' id ready).
Proof. unfold begin_run. moves. Qed.
Lemma moves_result `{Protobuf} id transcript : moves v (ProviderEndpoint_record_result v id transcript).
Proof. unfold ProviderEndpoint_record_result. moves. Qed.
Lemma moves_end id : moves v (end_run v id).
Proof. unfold end_run. moves. Qed.
Lemma moves_release now request exporter : moves v (reserve_ready_release v now request exporter).
Proof. unfold reserve_ready_release. moves. Qed.
Lemma moves_admit now request : moves v (admit_payment v now request).
Proof. unfold admit_payment. moves. Qed.
Lemma moves_facts now id : moves v (job_facts now id).
Proof. unfold job_facts. moves. Qed.
#[local] Hint Resolve moves_facts moves_release moves_end moves_begin : moves.
Lemma moves_stream clock request exporter : moves v (reserve_stream v clock request exporter).
Proof.
  intros x r x'. unfold reserve_stream.
  destruct (reserve_ready_release v (clock 0%nat) request exporter x) as [r1 x1] eqn:E1.
  apply moves_release in E1. intros Hr.
  assert (x' = x1 \/ exists m : Eff ProviderEndpoint DeliverError unit, moves v m /\ m x1 = (r, x')) as [->|(m & Hm & Hmr)].
  { unfold live_release, stale_release in Hr. repeat case_match; simplify_eq; auto; right; eexists;
      (split; [|exact Hr]); moves. }
  - done.
  - eapply moved_trans; [apply _|done|by eapply Hm].
Qed.
Lemma moves_delivery now request exporter x r x' :
  retained_delivery v now request exporter x = (r, x') -> moved v x x'.
Proof.
  unfold retained_delivery. case_match eqn:E. intros [= _ <-]. revert E.
  match goal with |- ?m x = _ -> _ => enough (moves v m) as Hm; [apply Hm|] end. moves.
Qed.
Lemma moves_propose now proposal : moves v (ClientEndpoint_propose v now proposal).
Proof. unfold ClientEndpoint_propose, mark_proposal_pending, fresh_proposal. moves. Qed.
Lemma moves_resume id : moves v (resume_proposal v id).
Proof. unfold resume_proposal, mark_proposal_pending. moves. Qed.
Lemma moves_accepted response : moves v (accepted v response).
Proof. unfold accepted. moves. Qed.
Lemma moves_receive id ready delivered : moves v (receive_stream v id ready delivered).
Proof. unfold receive_stream. moves. Qed.
Lemma moves_verified id : moves v (verified v id).
Proof. unfold verified. moves. Qed.
Lemma moves_rejected id evidence : moves v (rejected v id evidence).
Proof. unfold rejected. moves. Qed.
Lemma moves_pay now id : moves v (pay v now id).
Proof. unfold pay. moves. Qed.
End operations.

(** ** The close half *)

Section close.
  Context `{Blake3} `{Gearhash} `{Invocations} `{Uploads} (v : SigVerifier).

Definition act_moves {A} (m : Act A) : Prop :=
  forall st r st', m st = (r, st') -> rtc (evolve v) (st_state st) (st_state st').

Lemma act_moves_still {A} (m : Act A) : still m -> act_moves m.
Proof. intros Hm st r st' Hr. by rewrite (Hm _ _ _ Hr). Qed.
Lemma act_moves_get {A} (f : ChannelStore -> A) : act_moves (act_get f).
Proof. apply act_moves_still. by intros st r st' [= <- <-]. Qed.
Lemma act_moves_ret {A} (a : A) : act_moves (act_ret a).
Proof. apply act_moves_still. by intros st r st' [= <- <-]. Qed.
Lemma act_moves_lift {A E} (err : E -> WorkStoreError) (r : result A E) : act_moves (act_lift err r).
Proof. apply act_moves_still. by intros st r' st' [= <- <-]. Qed.
Lemma act_moves_commit record : act_moves (commit v record).
Proof.
  intros st r st' Hr. apply commit_moves in Hr as [[->|Hr] _]; [done|]. apply rtc_once. by eapply evolve_apply.
Qed.
Lemma act_moves_bind {A B} (m : Act A) (k : A -> Act B) :
  act_moves m -> (forall a, act_moves (k a)) -> act_moves (act_bind m k).
Proof.
  intros Hm Hk st r st'. unfold act_bind. destruct (m st) as [[a|e] st1] eqn:E1; apply Hm in E1; intros Hr.
  - etrans; [done|]. by eapply Hk.
  - by simplify_eq.
Qed.
Lemma act_moves_each {A} (f : A -> Act unit) l : (forall a, act_moves (f a)) -> act_moves (act_each f l).
Proof.
  intros Hf. induction l as [|a l IH]; [apply act_moves_ret|]. cbn [act_each]. by apply act_moves_bind.
Qed.

#[local] Hint Resolve act_moves_get act_moves_ret act_moves_lift act_moves_commit act_moves_bind act_moves_each : moves.
#[local] Ltac act_moves :=
  repeat first [ done | solve [eauto 2 with moves] | apply act_moves_bind; [|intros ?]
               | apply act_moves_each; intros ? | case_match | progress cbv zeta ].

Lemma prepare_moves opener signer st r st' :
  prepare_close v opener signer st = (r, st') -> rtc (evolve v) (st_state st) (st_state st').
Proof.
  unfold prepare_close. repeat case_match; intros; simplify_eq; try done. by eapply act_moves_commit.
Qed.
Lemma answer_moves id x r x' :
  fix_close_answer v id x = (r, x') -> rtc (evolve v) (close_state x) (close_state x').
Proof.
  unfold fix_close_answer, close_state. repeat case_match; intros; simplify_eq; try done. by eapply act_moves_commit.
Qed.
Lemma respond_moves observed x r x' :
  respond_to_close v observed x = (r, x') -> rtc (evolve v) (close_state x) (close_state x').
Proof.
  unfold respond_to_close, close_state.
  match goal with |- match ?m with Ok _ => _ | Err _ => _ end = _ -> _ => destruct m as [[answer response]|e] end;
    [|by intros [= _ <-]].
  destruct (commit v _ _) as [r1 st1] eqn:E. intros [= _ <-]. by eapply act_moves_commit.
Qed.

Lemma observe_moves block : act_moves (observe v block).
Proof.
  unfold observe, apply_finalized_txs, apply_finalized_tx, retain_contest_block, expire_open_jobs. act_moves.
Qed.
End close.

(** ** The life of a provider *)

Section provider.
  Context `{Blake3} `{Gearhash} `{Invocations} `{Uploads} `{Protobuf} (v : SigVerifier).
  Context (c : PaidChannel) (settlement : WorkPaymentSettlement) (origin : N * bytes).

(** One thing that happens to a provider, with the jobs it hands to the backend:
    an operation with any answer, a block read, a step of the close, a change of
    readiness or observation, and a crash after which another process opens what
    the disk holds, with any storage faults and any contents of the upload
    store. *)
Inductive provider_step (x : ProviderEndpoint) : list Digest -> ProviderEndpoint -> Prop :=
  | provider_accept now request r x' :
      decide_proposal v now request x = (r, x') -> provider_step x [] x'
  | provider_begin now now' id ready r x' :
      begin_run v now now' id ready x = (r, x') ->
      provider_step x match r with Ok (Invoke _ _ _) => [id] | _ => [] end x'
  | provider_result id transcript r x' :
      ProviderEndpoint_record_result v id transcript x = (r, x') -> provider_step x [] x'
  | provider_stream clock request exporter r x' :
      reserve_stream v clock request exporter x = (r, x') -> provider_step x [] x'
  | provider_delivery now request exporter r x' :
      retained_delivery v now request exporter x = (r, x') -> provider_step x [] x'
  | provider_admit now request r x' :
      admit_payment v now request x = (r, x') -> provider_step x [] x'
  | provider_end id r x' : end_run v id x = (r, x') -> provider_step x [] x'
  | provider_observe block r st' :
      observe v block (journal_of x) = (r, st') -> provider_step x [] (put_journal st' x)
  | provider_prepare opener r st' :
      prepare_close v opener (provider_signer x) (journal_of x) = (r, st') ->
      provider_step x [] (put_journal st' x)
  | provider_answer id r close :
      fix_close_answer v id (provider_close x) = (r, close) ->
      provider_step x [] (mk_ProviderEndpoint close (provider_ready x) (provider_observation x))
  | provider_respond observed r close :
      respond_to_close v observed (provider_close x) = (r, close) ->
      provider_step x [] (mk_ProviderEndpoint close (provider_ready x) (provider_observation x))
  | provider_mount x' : journal_of x' = journal_of x -> provider_step x [] x'
  | provider_restart fates u o existing st' disk x' :
      store_ok v c settlement Provider origin (journal_of x) ->
      origin = (origin_height o, origin_payload o) ->
      origin_payment_edge o = channel_payment_edge c ->
      (forall sd, near v (state_of x) sd -> rotatable sd) ->
      open_inner v (mk_Disk (disk_db (st_disk (journal_of x))) fates) u c settlement Provider o
        existing = (Ok st', disk) ->
      journal_of x' = st' -> provider_step x [] x'.

(** The jobs handed to the backend along a life, in order. *)
Inductive provider_life : ProviderEndpoint -> list Digest -> ProviderEndpoint -> Prop :=
  | life_here x : provider_life x [] x
  | life_step x l y ls z :
      provider_step x l y -> provider_life y ls z -> provider_life x (l ++ ls) z.

Lemma provider_step_moves x l x' : provider_step x l x' -> rtc (evolve v) (state_of x) (state_of x').
Proof.
  destruct 1; [eapply moved_state; [apply _|] ..| | | | | |].
  - by eapply moves_decide.
  - by eapply moves_begin.
  - by eapply moves_result.
  - by eapply moves_stream.
  - by eapply moves_delivery.
  - by eapply moves_admit.
  - by eapply moves_end.
  - by eapply observe_moves.
  - by eapply prepare_moves.
  - by eapply answer_moves.
  - by eapply respond_moves.
  - unfold state_of. by rewrite H4.
  - unfold state_of in *. rewrite H9. by eapply reopen_evolves.
Qed.

Lemma apply_running_Accepted s id j meta a s' :
  jobs s !! id = Some j -> job_phase j = Accepted -> apply s v (JobRunning id) meta = Ok (a, s') ->
  a = Changed /\ jobs s' !! id = Some (with_phase Running j).
Proof.
  intros Hj Hp. cbn [apply]. unfold apply_running. intros Hr. guards. subst.
  unfold book_run in B. guards. assert (v0 = j) as -> by congruence. rewrite Hp in B. guards. subst.
  cbn [map_book ch_book with_jobs book_jobs]. by rewrite lookup_insert_eq.
Qed.

(** The backend is handed a job that was accepted, after the marker is held. *)
Lemma begin_invokes now now' id ready x input facts content x' :
  reachable v c settlement Provider (state_of x) ->
  begin_run v now now' id ready x = (Ok (Invoke input facts content), x') ->
  ~ done_with (state_of x) id /\ done_with (state_of x') id.
Proof.
  intros Hr Hb. apply reachable_inv in Hr as Hinv. unfold begin_run in Hb. inv_eff.
  destruct (job_result a0) as [[r sig]|]; [inv_eff; done|].
  destruct (job_phase a0) eqn:Hp; inv_eff; try done; try (by case_match; inv_eff).
  destruct (prepared_input a0) as [|b bs]; inv_eff; [done|].
  split.
  - intros [[t Ht]|(j & Hj & Hran)]; [|rewrite E0 in Hj; injection Hj as <-; by rewrite Hp in Hran].
    apply (inv_disjoint _ _ _ _ _ Hinv) in E0. congruence.
  - rewrite (unit_eq a8) in E9. right. change (state_of (put_journal st x)) with (st_state st).
    change (st_state (journal_of x)) with (state_of x) in *.
    apply commit_Ok in E9 as [E9|[[s E9] _]]; 
      eapply apply_running_Accepted in E9 as [? Hl]; try done. eexists. by split.
Qed.

Lemma provider_life_once x ls x' :
  reachable v c settlement Provider (state_of x) -> provider_life x ls x' ->
  NoDup ls /\ forall id, id ∈ ls -> ~ done_with (state_of x) id.
Proof.
  intros Hr Hl. induction Hl as [x|x l y ls z Hstep _ IH]; [by split; [constructor|intros id ?%not_elem_of_nil]|].
  pose proof (provider_step_moves _ _ _ Hstep) as Hev.
  destruct IH as [Hnd Hin]; [by eapply rtc_reachable|].
  assert (forall id, id ∈ ls -> ~ done_with (state_of x) id) as Hin'.
  { intros id Hid Hd. apply (Hin id Hid). by eapply done_with_later. }
  assert (l = [] \/ exists id, l = [id] /\ ~ done_with (state_of x) id /\ done_with (state_of y) id)
    as [->|(id & -> & Hn & Hd)].
  { destruct Hstep; auto. destruct r as [[]|]; auto. right. eapply begin_invokes in H4; [|done]. eauto. }
  - done.
  - split.
    + constructor; [|done]. intros Hid. by apply (Hin id Hid).
    + intros id' [->|Hid]%elem_of_cons; [done|]. by apply Hin'.
Qed.

End provider.

(** ** Answers that are given again *)

Section answers.
  Context `{Blake3} `{Gearhash} `{Invocations} `{Uploads} (v : SigVerifier).
  Context (c : PaidChannel) (settlement : WorkPaymentSettlement).

Lemma apply_accepted_signed s id sig meta a s' :
  apply s v (JobAccepted id sig) meta = Ok (a, s') ->
  exists j, jobs s' !! id = Some j /\ JobBook.provider_signature j = Some sig.
Proof.
  cbn [apply]. unfold apply_accepted. intros Hr. guards.
  destruct (bool_decide (JobBook.provider_signature v0 = Some sig)) eqn:Hsame; [guards; subst; eauto|].
  guards. subst. unfold book_accept in B. guards. assert (v1 = v0) as -> by congruence.
  rewrite bool_decide_eq_false_2 in B by done. guards. subst. cbn [map_book ch_book].
  match goal with |- context [if bool_decide ?P then _ else _] => destruct (bool_decide P) end; eexists;
    cbn [with_pending with_jobs book_jobs]; rewrite lookup_insert_eq; done.
Qed.

Lemma commit_accepted_signed id sig st st' :
  commit v (JobAccepted id sig) st = (Ok tt, st') ->
  retained_signature (st_state st') id = Some sig.
Proof.
  unfold retained_signature. intros [Hc|[[s Hc] ->]]%commit_Ok.
  - by apply apply_accepted_signed in Hc as (j & -> & ->).
  - cbn [apply] in Hc. unfold apply_accepted in Hc. guards. rewrite E.
    destruct (bool_decide (JobBook.provider_signature v0 = Some sig)) eqn:Hsame; [by bool_simpl|].
    guards. subst. unfold book_accept in B. guards. assert (v1 = v0) as -> by congruence.
    rewrite bool_decide_eq_false_2 in B by done. by guards.
Qed.

Lemma on_uploads_state {X E A} {HJ : Journaled X} {HL : JournaledLaws X} (err : ContentError -> E)
    (f : UploadStore -> result A ContentError * UploadStore) (x : X) r x' :
  on_uploads err f x = (r, x') -> state_of x' = state_of x.
Proof.
  unfold on_uploads, state_of. destruct (f _) as [r1 u]. intros [= _ <-]. by rewrite journal_of_put.
Qed.

Lemma republish_state a id x r x' : republish a id x = (r, x') -> state_of x' = state_of x.
Proof.
  unfold republish. unfold eff_bind, eff_get. repeat case_match; try (by intros [= _ <-]).
  apply on_uploads_state.
Qed.

Lemma gc_state {X E} {HJ : Journaled X} {HL : JournaledLaws X} (err : WorkStoreError -> E) (x : X) r x' :
  on_store err gc_uploads x = (r, x') -> state_of x' = state_of x.
Proof.
  unfold on_store, state_of. destruct (gc_uploads _) as [r1 st] eqn:E1. intros [= _ <-].
  rewrite journal_of_put. by apply (still_content _ content_gc) in E1.
Qed.

(** What a successful decision gives: the signature it returns is held. *)
Lemma decide_signed now request x id sig x' :
  decide_proposal v now request x = (Ok (id, sig), x') ->
  retained_signature (state_of x') id = Some sig /\
  exists a csig, authenticate_proposal v (state_of x) request = Ok (a, csig, id).
Proof.
  unfold decide_proposal. intros Hd. inv_eff. split; [|destruct a2; inv_eff; simplify_eq; eauto].
  destruct a2 as [retained|].
  - inv_eff. simplify_eq.
      match goal with E : republish _ _ _ = _ |- _ => apply republish_state in E as -> end.
      unfold prior_acceptance in E2. destruct (retained_signature _ d); [congruence|]. by repeat case_match.
  - inv_eff. simplify_eq.
      match goal with E : on_uploads _ _ _ = _ |- _ => rewrite (on_uploads_state _ _ _ _ _ E) end.
      match goal with E : commit v (JobAccepted _ _) _ = (Ok ?u, _) |- _ =>
        rewrite (unit_eq u) in E; by apply commit_accepted_signed in E end.
Qed.

(** A proposal already answered is answered with the same signature, or not. *)
Lemma decide_again now request y id sig id' sig' y' a csig :
  authenticate_proposal v (state_of y) request = Ok (a, csig, id) ->
  retained_signature (state_of y) id = Some sig \/
    (is_Some (terminals (state_of y) !! id) /\ jobs (state_of y) !! id = None) ->
  decide_proposal v now request y = (Ok (id', sig'), y') -> id' = id /\ sig' = sig.
Proof.
  intros Hauth Hheld. unfold decide_proposal. intros Hd. inv_eff. rewrite Hauth in E0. injection E0 as <- <- <-.
  apply (still_content _ content_gc) in E1 as Hst. change (state_of (put_journal st y)) with (st_state st) in *.
  change (st_state (journal_of y)) with (state_of y) in Hst. rewrite Hst in *. unfold prior_acceptance in E2.
  destruct Hheld as [Hs|[[t Ht] Hj]].
  - rewrite Hs in E2. injection E2 as <-. inv_eff. by simplify_eq.
  - unfold retained_signature in E2. by rewrite Hj, Ht in E2.
Qed.

(** A co-signature is given once: the signature an accepted proposal is
    answered with is held by the journal before it is returned, was given to the
    channel's client over that exact work id, and at any later time, after any
    records, restarts and crashes, the same request is answered with the same
    work id and signature or refused; it is never signed a second time. *)
Theorem acceptance_kept now request x id sig x' :
  reachable v c settlement Provider (state_of x) ->
  decide_proposal v now request x = (Ok (id, sig), x') ->
  retained_signature (state_of x') id = Some sig /\
  (exists a csig, authenticate_proposal v (state_of x) request = Ok (a, csig, id) /\
     id = work_id c a /\ verify_sig v csig (client_key c) (signing_hash id) = true) /\
  forall now' y id' sig' y', rtc (evolve v) (state_of x') (state_of y) ->
    decide_proposal v now' request y = (Ok (id', sig'), y') -> id' = id /\ sig' = sig.
Proof.
  intros Hr Hd. destruct (decide_signed _ _ _ _ _ _ Hd) as [Hs (a & csig & Hauth)].
  pose proof (moved_state _ _ _ (moves_decide _ _ _ _ _ _ Hd)) as Hev.
  pose proof (rtc_reachable _ _ _ _ _ _ Hr Hev) as Hr'.
  destruct (rtc_chan _ _ _ _ _ _ Hr Hev) as (_ & Hc & _).
  split; [done|]. split.
  { exists a, csig. split; [done|]. unfold authenticate_proposal in Hauth. inv_ok. bool_simpl. by simplify_eq. }
  intros now' y id' sig' y' Hy Hdy. eapply (decide_again _ _ y); [| |done].
  - unfold authenticate_proposal in *. destruct (rtc_chan _ _ _ _ _ _ Hr' Hy) as (-> & _ & _). by rewrite Hc in Hauth.
  - unfold retained_signature in Hs. destruct (jobs (state_of x') !! id) as [j|] eqn:Hj; [|done].
    destruct (rtc_later _ _ _ _ _ _ _ _ Hr' Hy Hj) as [(j' & Hj' & Hl)|[t Ht]].
    + left. unfold retained_signature. rewrite Hj'. by apply (later_cosigned _ _ Hl).
    + right. split; [by eexists|]. pose proof (rtc_reachable _ _ _ _ _ _ Hr' Hy) as Hry%reachable_inv.
      destruct (jobs (state_of y) !! id) eqn:Hjy; [|done]. apply (inv_disjoint _ _ _ _ _ Hry) in Hjy. congruence.
Qed.

(** A certified terminal, applied: held already, or a payment credited now. *)
Lemma apply_certified role s id signed certificate binding bsig csig meta a s' :
  channel_inv v c settlement role s ->
  apply s v (JobTerminated id (Certified signed certificate binding bsig csig)) meta = Ok (a, s') ->
  payment s' id = Some (mk_PaidCertificate id certificate binding bsig csig) /\
  ((a = Redundant /\ s' = s) \/
   (a = Changed /\ payment s id = None /\ exists job, jobs s !! id = Some job /\
      job_result job = Some signed /\
      credit_payment (ch_ledger s) c (job_authorization job) signed.1 binding certificate settlement
        = Ok (ch_ledger s'))).
Proof.
  intros Hinv. cbn [apply]. unfold apply_terminated. rewrite !payment_lookup.
  destruct (terminals s !! id) as [t|] eqn:Ht.
  { intros Hr. guards. subst. rewrite Ht. split; [|by left]. cbn. unfold payment_from_terminal.
    rewrite G. f_equal. f_equal. by apply (inv_terminals _ _ _ _ _ Hinv) in Ht as []. }
  intros Hr. guards. unfold terminate_certified in Hr.
  pose proof (inv_channel _ _ _ _ _ Hinv) as Hc. pose proof (inv_settlement _ _ _ _ _ Hinv) as Hset.
  rewrite Hc, Hset in Hr. destruct (job_result v0) as [held|] eqn:Hres; [|by guards].
  guards. simplify_eq. unfold paid in *. guards.
  assert (job_work_id v0 = id) as Hid by (by apply (inv_jobs _ _ _ _ _ Hinv) in E as []).
  cbn [ch_book rest_at book_terminals terminal_work_id ch_ledger]. rewrite Hid, lookup_insert_eq.
  split; [done|]. right. split; [done|]. split; [done|]. eauto.
Qed.

Lemma commit_certified role st id signed certificate binding bsig csig st' :
  channel_inv v c settlement role (st_state st) ->
  commit v (JobTerminated id (Certified signed certificate binding bsig csig)) st = (Ok tt, st') ->
  payment (st_state st') id = Some (mk_PaidCertificate id certificate binding bsig csig) /\
  ((st_state st' = st_state st /\
    payment (st_state st) id = Some (mk_PaidCertificate id certificate binding bsig csig)) \/
   (payment (st_state st) id = None /\ exists job, jobs (st_state st) !! id = Some job /\
      job_result job = Some signed /\
      credit_payment (ch_ledger (st_state st)) c (job_authorization job) signed.1 binding certificate
        settlement = Ok (ch_ledger (st_state st')))).
Proof.
  intros Hinv [Ha|[[s Ha] Hst]]%commit_Ok.
  - apply (apply_certified role) in Ha as [Hp [[? _]|[_ Hcase]]]; [done| |done]. split; [done|]. by right.
  - apply (apply_certified role) in Ha as [Hp [[_ ->]|[? _]]]; [|done..]. rewrite Hst. auto.
Qed.

(** What a client has done when it has paid a job. *)
Definition paid_for (x : ClientEndpoint) (id : Digest) (x' : ClientEndpoint) (p : PaidCertificate) : Prop :=
  payment (state_of x) id = Some p /\ x' = x \/
  payment (state_of x) id = None /\ exists job, jobs (state_of x) !! id = Some job /\
    credited_cumulative (ch_ledger (state_of x'))
      = credited_cumulative (ch_ledger (state_of x)) + price (job_authorization job) /\
    paid_cumulative p = credited_cumulative (ch_ledger (state_of x')).

Lemma pay_ledger now id x request x' :
  channel_inv v c settlement Client (state_of x) -> pay v now id x = (Ok request, x') ->
  exists p, payment (state_of x') id = Some p /\ request = admit_request (channel_id c) p /\
    (payment (state_of x) id = Some p /\ x' = x \/
     payment (state_of x) id = None /\ exists job signed, jobs (state_of x) !! id = Some job /\
       job_result job = Some signed /\
       credit_payment (ch_ledger (state_of x)) c (job_authorization job) signed.1 (paid_binding p)
         (paid_certificate p) settlement = Ok (ch_ledger (state_of x'))).
Proof.
  intros Hinv Hpay. unfold pay in Hpay. inv_eff. unfold channel_of in *.
  rewrite (inv_channel _ _ _ _ _ Hinv) in Hpay.
  destruct (payment (state_of x) id) as [p|] eqn:Hp; inv_eff; [exists p; split_and!; [done..|by left]|].
  match goal with E : commit _ _ _ = (Ok ?u, _) |- _ => rewrite (unit_eq u) in E; rename E into Hcommit end.
  change (state_of (put_journal st x)) with (st_state st).
  apply (commit_certified Client) in Hcommit as [Hpay [[_ Hs]|(_ & job & Hj & Hres & Hcr)]]; [| |done];
    change (st_state (journal_of x)) with (state_of x) in *; [congruence|].
  eexists. split; [exact Hpay|]. split; [done|]. right. split; [done|]. eauto.
Qed.

Lemma pay_effect now id x request x' :
  channel_inv v c settlement Client (state_of x) -> pay v now id x = (Ok request, x') ->
  exists p, payment (state_of x') id = Some p /\ request = admit_request (channel_id c) p /\
    paid_for x id x' p.
Proof.
  intros Hinv Hpay. destruct (pay_ledger _ _ _ _ _ Hinv Hpay) as (p & Hp & Hreq & Hcase).
  exists p. split; [done|]. split; [done|]. destruct Hcase as [?|(Hn & job & signed & Hj & _ & Hcr)]; [by left|right].
  split; [done|]. exists job. split; [done|]. by apply credit_payment_total in Hcr as (? & ? & _).
Qed.

(** C22: A payment is signed once: the request a client pays a job with carries
    exactly the payment its journal holds, the channel's credited total has grown
    by the job's price when the payment was new, and paying the job again, at any
    later time and whatever the clocks, returns the same bytes and changes
    nothing. *)
Theorem payment_kept now id x request x' :
  reachable v c settlement Client (state_of x) -> pay v now id x = (Ok request, x') ->
  exists p, payment (state_of x') id = Some p /\ request = admit_request (channel_id c) p /\
    paid_for x id x' p /\
    forall now' y, rtc (evolve v) (state_of x') (state_of y) -> pay v now' id y = (Ok request, y).
Proof.
  intros Hr Hpay. pose proof (moved_state _ _ _ (moves_pay _ _ _ _ _ _ Hpay)) as Hev.
  pose proof (rtc_reachable _ _ _ _ _ _ Hr Hev) as Hr'.
  destruct (pay_effect _ _ _ _ _ (reachable_inv _ _ _ _ _ Hr) Hpay) as (p & Hp & -> & Hcase).
  exists p. split_and!; [done..|]. intros now' y Hy. unfold pay, eff_bind, eff_get, eff_ret.
  rewrite (rtc_payment _ _ _ _ _ _ _ _ Hr' Hy Hp). unfold channel_of.
  by destruct (rtc_chan _ _ _ _ _ _ Hr' Hy) as (-> & _ & _).
Qed.
End answers.
