(* ===== verification/Exchange.v ===== *)
(** * The two ends of a channel together

    A client and a provider of one channel, each with its own journal, joined by
    a network that may lose, delay, repeat, reorder and forge messages.  The one
    thing it cannot do is make the client's signature: a payment the provider
    comes to hold whose binding verifies under the client's key is one the client
    released.  Then the provider holds only payments the client holds too, is
    credited no more than the client has paid, and can never answer a close the
    client opened honestly. *)

From S2P Require Import Prelude Xet XetChunk Canonical Primitive Errors BoundedList Context Auth.
From S2P Require Import Objects Registry View Store Event Terms Work Lease Tx.
From S2P Require Import PaidWork JobBook JobInput ChannelState ChannelSteps.
From S2P Require Import ChannelInvariant ChannelReplay ChannelCodec ChannelCheckpoint ChannelReopen.
From S2P Require Import ChannelFits Journal ChannelLedger ChannelStore ChannelDurable Setup CloseWatch.
From S2P Require Import Mirror Watch Cbor Stream Endpoint EndpointLife.

#[local] Open Scope N_scope.
#[local] Open Scope eff_scope.

Section exchange.
  Context `{Blake3} `{Gearhash} `{Invocations} `{Uploads} `{Protobuf} (v : SigVerifier).
  Context (c : PaidChannel) (settlement : WorkPaymentSettlement) (client_origin provider_origin : N * bytes).

(** One thing that happens to a client, with the payments it releases. *)
Inductive client_step (x : ClientEndpoint) : list PaidCertificate -> ClientEndpoint -> Prop :=
  | client_propose now proposal r x' :
      ClientEndpoint_propose v now proposal x = (r, x') -> client_step x [] x'
  | client_resume id r x' : resume_proposal v id x = (r, x') -> client_step x [] x'
  | client_accepted response r x' : accepted v response x = (r, x') -> client_step x [] x'
  | client_receive id ready delivered r x' :
      receive_stream v id ready delivered x = (r, x') -> client_step x [] x'
  | client_verified id r x' : verified v id x = (r, x') -> client_step x [] x'
  | client_rejected id evidence r x' : rejected v id evidence x = (r, x') -> client_step x [] x'
  | client_unpaid now id e x' : pay v now id x = (Err e, x') -> client_step x [] x'
  | client_paid now id p x' :
      pay v now id x = (Ok (admit_request (channel_id c) p), x') ->
      payment (state_of x') id = Some p -> client_step x [p] x'
  | client_observe block r st' :
      observe v block (journal_of x) = (r, st') -> client_step x [] (put_journal st' x)
  | client_prepare r st' :
      prepare_close v Maker (client_signer x) (journal_of x) = (r, st') ->
      client_step x [] (put_journal st' x)
  | client_restore id input s' x' :
      restore_client_input (state_of x) id input = Ok s' -> state_of x' = s' -> client_step x [] x'
  | client_mount x' : journal_of x' = journal_of x -> client_step x [] x'
  | client_restart fates u o existing st' disk x' :
      store_ok v c settlement Client client_origin (journal_of x) ->
      client_origin = (origin_height o, origin_payload o) ->
      origin_payment_edge o = channel_payment_edge c ->
      (forall sd, near v (state_of x) sd -> rotatable sd) ->
      open_inner v (mk_Disk (disk_db (st_disk (journal_of x))) fates) u c settlement Client o
        existing = (Ok st', disk) ->
      journal_of x' = st' -> client_step x [] x'.

(** The client's signature is not forged: what a provider newly holds under a
    binding that verifies, with the certificate the binding names, is a payment
    the client has released. *)
Definition unforged (sent : list PaidCertificate) (s s' : Channel) : Prop :=
  forall id p, payment s' id = Some p -> payment s id = None ->
  verify_sig v (paid_binding_signature p) (client_key c)
    (signing_hash (payment_binding_digest c (paid_binding p))) = true ->
  certificate_digest (paid_binding p)
    = EarnedCertificate_digest (paid_certificate p) (channel_network c) ->
  exists q, q ∈ sent /\ paid_binding q = paid_binding p /\ paid_certificate q = paid_certificate p.

Inductive exchange : ClientEndpoint -> ProviderEndpoint -> list PaidCertificate -> Prop :=
  | exchange_start x y h payload h' payload' :
      u64_ok h = true -> u64_ok h' = true ->
      state_of x = Channel_new c settlement Client h payload ->
      state_of y = Channel_new c settlement Provider h' payload' -> exchange x y []
  | exchange_client x y sent l x' :
      exchange x y sent -> client_step x l x' -> exchange x' y (l ++ sent)
  | exchange_provider x y sent l y' :
      exchange x y sent -> provider_step v c settlement provider_origin y l y' ->
      unforged sent (state_of y) (state_of y') -> exchange x y' sent.

Lemma client_step_moves x l x' : client_step x l x' -> rtc (evolve v) (state_of x) (state_of x').
Proof.
  destruct 1; [eapply moved_state; [apply _|] ..| | | | |].
  - by eapply moves_propose.
  - by eapply moves_resume.
  - by eapply moves_accepted.
  - by eapply moves_receive.
  - by eapply moves_verified.
  - by eapply moves_rejected.
  - by eapply moves_pay.
  - by eapply moves_pay.
  - by eapply observe_moves.
  - by eapply prepare_moves.
  - subst. apply rtc_once. by eapply evolve_restore.
  - unfold state_of. by rewrite H4.
  - unfold state_of in *. rewrite H9. by eapply reopen_evolves.
Qed.

(** ** The invariant *)

Record exchange_ok (x : ClientEndpoint) (y : ProviderEndpoint) (sent : list PaidCertificate) : Prop := {
  ok_client : reachable v c settlement Client (state_of x);
  ok_provider : reachable v c settlement Provider (state_of y);
  ok_sent p : p ∈ sent -> exists id, payment (state_of x) id = Some p;
  ok_held id p : payment (state_of y) id = Some p ->
    exists q, payment (state_of x) id = Some q /\ paid_binding q = paid_binding p /\
      paid_certificate q = paid_certificate p;
}.

Lemma payment_names role s id p :
  reachable v c settlement role s -> payment s id = Some p ->
  binding_work_id (paid_binding p) = id /\
  certificate_digest (paid_binding p) = EarnedCertificate_digest (paid_certificate p) (channel_network c) /\
  verify_sig v (paid_binding_signature p) (client_key c)
    (signing_hash (payment_binding_digest c (paid_binding p))) = true.
Proof.
  intros Hr%reachable_inv (t & r & sig & Ht & Ho)%payment_terminal.
  destruct (inv_terminals _ _ _ _ _ Hr _ _ Ht) as [_ Hpaid].
  apply Hpaid in Ho as (_ & _ & Hb & _ & _ & _ & _ & Hv & _). split_and!; [by rewrite Hb..|done].
Qed.

Lemma exchange_inv x y sent : exchange x y sent -> exchange_ok x y sent.
Proof.
  induction 1 as [x y h p h' p' Hh Hh' Hx Hy|x y sent l x' _ [] Hstep|x y sent l y' _ [] Hstep Hun].
  - split.
    + rewrite Hx. by constructor.
    + rewrite Hy. by constructor.
    + by intros q ?%not_elem_of_nil.
    + intros id q. rewrite payment_lookup, Hy. cbn. by rewrite lookup_empty.
  - pose proof (client_step_moves _ _ _ Hstep) as Hev. split.
    + by eapply rtc_reachable.
    + done.
    + intros p [Hin|Hin]%elem_of_app.
      * destruct Hstep; try by apply not_elem_of_nil in Hin. apply list_elem_of_singleton in Hin as ->. eauto.
      * destruct (ok_sent0 p Hin) as [id Hp]. exists id. exact (rtc_payment _ _ _ _ _ _ _ _ ok_client0 Hev Hp).
    + intros id p Hp. destruct (ok_held0 id p Hp) as (q & Hq & ? & ?). exists q.
      split; [exact (rtc_payment _ _ _ _ _ _ _ _ ok_client0 Hev Hq)|done].
  - pose proof (provider_step_moves v c settlement _ _ _ _ Hstep) as Hev.
    pose proof (rtc_reachable _ _ _ _ _ _ ok_provider0 Hev) as Hr'. split; [done..|].
    intros id p Hp. destruct (payment (state_of y) id) as [p0|] eqn:Hp0.
    + pose proof (rtc_payment _ _ _ _ _ _ _ _ ok_provider0 Hev Hp0). apply ok_held0. congruence.
    + destruct (payment_names _ _ _ _ Hr' Hp) as (Hid & Hd & Hv).
      destruct (Hun id p Hp Hp0 Hv Hd) as (q & Hin & Hb & Hcert). destruct (ok_sent0 q Hin) as [id' Hq].
      destruct (payment_names _ _ _ _ ok_client0 Hq) as (Hid' & _ & _).
      assert (id' = id) as -> by congruence. eauto.
Qed.

(** Every payment held is at most the credited total. *)
Lemma payment_below role s id p :
  reachable v c settlement role s -> payment s id = Some p ->
  paid_cumulative p <= credited_cumulative (ch_ledger s).
Proof.
  intros Hr Hp. apply reachable_inv in Hr as Hinv. rewrite (inv_ledger _ _ _ _ _ Hinv).
  pose proof (proj1 (max_executable_certificate_spec s _ (terminals_named_inv _ _ _ _ _ Hinv)) eq_refl) as [Hub _].
  apply Hub. rewrite payment_lookup in Hp. apply bind_Some in Hp as (t & Ht & Hp). exists t. split; [|done].
  rewrite (payment_from_terminal_named _ _ Hp). by rewrite (terminals_named_inv _ _ _ _ _ Hinv _ _ Ht).
Qed.

(** The credited total is some payment's, or nothing. *)
Lemma credited_payment role s :
  reachable v c settlement role s ->
  credited_cumulative (ch_ledger s) = 0 \/
  exists id p, payment s id = Some p /\ paid_cumulative p = credited_cumulative (ch_ledger s).
Proof.
  intros Hr. apply reachable_inv in Hr as Hinv. rewrite (inv_ledger _ _ _ _ _ Hinv).
  pose proof (proj1 (max_executable_certificate_spec s _ (terminals_named_inv _ _ _ _ _ Hinv)) eq_refl)
    as [_ [Hz|(q & (t & Ht & Hq) & Hm)]]; [by left|right].
  exists (paid_work_id q), q. split; [|done]. rewrite payment_lookup, Ht. done.
Qed.

Lemma exchange_credited x y sent :
  exchange_ok x y sent ->
  credited_cumulative (ch_ledger (state_of y)) <= credited_cumulative (ch_ledger (state_of x)).
Proof.
  intros [Hx Hy _ Hheld]. destruct (credited_payment _ _ Hy) as [->|(id & p & Hp & <-)]; [lia|].
  destruct (Hheld id p Hp) as (q & Hq & _ & Hcert). unfold paid_cumulative. rewrite <- Hcert.
  by eapply payment_below.
Qed.


(** ** An honest close *)

Lemma closing_ledger role s s' :
  channel_inv v c settlement role s -> step v s s' -> is_closing s = true -> ch_ledger s' = ch_ledger s.
Proof.
  intros Hinv Hstep Hc. pose proof (inv_closing _ _ _ _ _ Hinv Hc) as Hj.
  by destruct (inv_effect _ _ _ _ _ _ Hinv Hstep) as [Hj' Ht Hl _|i j _ _ _ _ _ _ Hnc _ _ _ _ _|
    i j j' Hi _ _ _ _ _ _ _ _ _|i j t Hi _ _ _ _ _ _ _]; [|congruence|rewrite Hj in Hi..].
Qed.

Lemma step_prepares s s' :
  step v s s' ->
  close_prepared (ch_funding s') = close_prepared (ch_funding s) \/
  exists start, close_prepared (ch_funding s') = Some start /\ check_close_start s start = Ok tt /\
    ch_ledger s' = ch_ledger s.
Proof. destruct 1; try (by left). right. by eexists. Qed.

Lemma check_close_start_claims role s start :
  channel_inv v c settlement role s -> check_close_start s start = Ok tt ->
  start_claimed start = credited_cumulative (ch_ledger s).
Proof.
  intros Hinv Hc. rewrite (inv_ledger _ _ _ _ _ Hinv).
  unfold start_claimed, max_executable_certificate, check_close_start, executable_certificate in *.
  destruct (last_payment s) as [p|]; cbn [fmap option_fmap option_map] in Hc; apply rbind_Ok in Hc as (cert & Hcert & Hc);
    cbn [first_mismatch] in Hc; repeat (case_bool_decide; try done).
  - apply rbind_Ok in Hcert as (authority & _ & [= <-]). by rewrite H7.
  - injection Hcert as <-. by rewrite H7.
Qed.

(** While a close start can still be included, it claims the whole of what its
    endpoint has been credited. *)
Lemma includable_step role s s' start :
  channel_inv v c settlement role s -> step v s s' ->
  (forall start, includable_close_start s (height s) = Some start ->
     start_claimed start = credited_cumulative (ch_ledger s)) ->
  includable_close_start s' (height s') = Some start ->
  start_claimed start = credited_cumulative (ch_ledger s').
Proof.
  intros Hinv Hstep IH Hs'. destruct (step_prepares _ _ Hstep) as [Hp|(start0 & Hp & Hc & Hl)].
  - assert (includable_close_start s (height s) = Some start) as Hs.
    { pose proof (step_height v _ _ (inv_height _ _ _ _ _ Hinv) Hstep) as [Hh _].
      unfold includable_close_start in *. rewrite Hp in Hs'. destruct (close_prepared (ch_funding s)); [|done].
      destruct (N.leb_spec (height s') (start_valid_through_height p)); [|done].
      by destruct (N.leb_spec (height s) (start_valid_through_height p)); [|lia]. }
    rewrite (closing_ledger _ _ _ Hinv Hstep); [by apply IH|]. unfold is_closing. rewrite Hs. apply orb_true_r.
  - unfold includable_close_start in Hs'. rewrite Hp in Hs'. case_match; [|done]. injection Hs' as <-.
    rewrite Hl. by eapply check_close_start_claims.
Qed.

Lemma reachable_claims role s start :
  reachable v c settlement role s -> includable_close_start s (height s) = Some start ->
  start_claimed start = credited_cumulative (ch_ledger s).
Proof.
  intros Hr. revert start. induction Hr as [h p Hh|s record meta a s' Hr IH Ha|s id input s' Hr IH Ha|s s' Hr IH Ha];
    intros start Hs.
  - done.
  - eapply includable_step; [by apply reachable_inv|by eapply apply_step|done|done].
  - apply restore_same_meta in Ha as (Hf & -> & _). unfold includable_close_start in *. rewrite Hf in Hs. by apply IH.
  - apply restart_same_meta in Ha as (Hf & -> & _). unfold includable_close_start in *. rewrite Hf in Hs. by apply IH.
Qed.

(** C6: An honest client is never caught short: whenever the client's own close
    start can still be included, it claims at least every certificate the
    provider holds; a contest that records that claim leaves the provider nothing
    to answer it with, so the client never forfeits its omission bond. *)
Theorem honest_close_unanswerable x y sent start :
  exchange x y sent -> includable_close_start (state_of x) (height (state_of x)) = Some start ->
  (forall id p, payment (state_of y) id = Some p -> paid_cumulative p <= start_claimed start) /\
  forall contest, close_opened (ch_funding (state_of y)) = Some contest ->
    contest_claimed contest = start_claimed start -> answerable_contest (state_of y) = None.
Proof.
  intros Hok%exchange_inv Hs. pose proof (exchange_credited _ _ _ Hok) as Hle. destruct Hok as [Hx Hy _ _].
  rewrite <- (reachable_claims _ _ _ Hx Hs) in Hle.
  assert (forall id p, payment (state_of y) id = Some p -> paid_cumulative p <= start_claimed start) as Hall.
  { intros id p Hp. pose proof (payment_below _ _ _ _ Hy Hp). lia. }
  split; [done|]. intros contest Hcon Hcl. destruct (answerable_contest (state_of y)) as [[contest' [cert sig]]|] eqn:Ha; [|done].
  unfold answerable_contest in Ha. case_match; [done|]. rewrite Hcon in Ha. cbn in Ha. case_match; [done|].
  destruct (executable_certificate (state_of y)) as [ex|] eqn:He; [|done]. cbn in Ha.
  destruct (N.ltb_spec (contest_claimed contest) (cert_earned_cumulative ex.1)); [|done].
  unfold executable_certificate in He. apply fmap_Some in He as (p & Hlast & ->). cbn in *.
  apply reachable_inv in Hy. pose proof (inv_ledger _ _ _ _ _ Hy) as Hled. unfold max_executable_certificate in Hled.
  rewrite Hlast in Hled. unfold paid_cumulative in Hled. lia.
Qed.

(** ** A payment that arrives *)

Lemma typed_payment s id p :
  state_typed s -> payment s id = Some p ->
  wf EarnedCertificate_codec (paid_certificate p) = true /\
  record_wf PaymentBindingV1_record (paid_binding p) = true /\
  length (Sig_bytes (paid_binding_signature p)) = SIG_LENGTH /\
  length (Sig_bytes (paid_certificate_signature p)) = SIG_LENGTH.
Proof.
  intros [_ _ Hb] (t & r & sig & Ht & Ho)%payment_terminal. apply (bt_terminals _ Hb) in Ht.
  destruct t as [i ph o]. cbn [terminal_outcome] in Ho. subst o.
  cbn [terminal_field iso_field pair_field fits terminal_work_id terminal_phase terminal_outcome
    outcome_field outcome_fits] in Ht.
  rewrite !andb_true_iff in Ht. destruct Ht as (_ & _ & ((((_ & _) & Hc) & Hb') & Hbs) & Hcs).
  apply Nat.eqb_eq in Hbs, Hcs. done.
Qed.

Lemma read_signature_bytes sig :
  length (Sig_bytes sig) = SIG_LENGTH -> read_signature (Sig_bytes sig) = Some sig.
Proof. unfold read_signature. intros ->. rewrite Nat.eqb_refl. by destruct sig. Qed.

Lemma earned_certificate_encode cert :
  wf EarnedCertificate_codec cert = true ->
  earned_certificate (encode_to EarnedCertificate_codec cert) = Some cert.
Proof.
  intros Hwf. unfold earned_certificate. pose proof (decode_encode cert [] Hwf) as Hd.
  rewrite app_nil_r in Hd. by rewrite Hd, Nat.eqb_refl.
Qed.

(** A delivered job takes the payment its client's ledger made for it. *)
Lemma delivered_takes s id job signed p ledger :
  channel_inv v c settlement Provider s -> jobs s !! id = Some job -> job_phase job = Delivered ->
  job_result job = Some signed -> paid_work_id p = id ->
  verify_sig v (paid_binding_signature p) (client_key c)
    (signing_hash (payment_binding_digest c (paid_binding p))) = true ->
  verify_sig v (paid_certificate_signature p) (client_key c)
    (EarnedCertificate_digest (paid_certificate p) (channel_network c)) = true ->
  credit_payment (ch_ledger s) c (job_authorization job) signed.1 (paid_binding p)
    (paid_certificate p) settlement = Ok ledger ->
  exists next, apply s v (JobTerminated id (Certified signed (paid_certificate p) (paid_binding p)
    (paid_binding_signature p) (paid_certificate_signature p))) false = Ok (Changed, next) /\
    ch_ledger next = ledger /\ payment next id = Some p.
Proof.
  intros Hinv Hj Hph Hres Hid Hb Hc Hcr. pose proof (inv_disjoint _ _ _ _ _ Hinv _ _ Hj) as Ht.
  pose proof (job_named _ _ _ _ _ (inv_jobs _ _ _ _ _ Hinv _ _ Hj)) as Hn.
  eexists. split.
  { cbn [apply]. unfold apply_terminated, open_job. rewrite Ht, Hj. cbn [is_some negb andb ok_or rbind].
    unfold terminate_certified. rewrite (inv_channel _ _ _ _ _ Hinv), (inv_settlement _ _ _ _ _ Hinv),
      (inv_role _ _ _ _ _ Hinv), Hph, Hres, !bool_decide_eq_true_2 by done.
    rewrite Hb, Hc, Hcr. reflexivity. }
  split; [done|]. rewrite payment_lookup.
  cbn [ch_book rest_at book_terminals terminal_work_id]. rewrite Hn, lookup_insert_eq.
  rewrite <- Hid. by destruct p.
Qed.

Lemma payment_verifies role s id p :
  reachable v c settlement role s -> payment s id = Some p ->
  paid_work_id p = id /\
  verify_sig v (paid_certificate_signature p) (client_key c)
    (EarnedCertificate_digest (paid_certificate p) (channel_network c)) = true.
Proof.
  intros Hr%reachable_inv Hp. apply payment_terminal in Hp as Hq. destruct Hq as (t & r & sig & Ht & Ho).
  destruct (inv_terminals _ _ _ _ _ Hr _ _ Ht) as [Hn Hpaid].
  apply Hpaid in Ho as (_ & _ & _ & _ & _ & _ & _ & _ & Hv). split; [|done].
  rewrite payment_lookup, Ht in Hp. cbn in Hp. by rewrite (payment_from_terminal_named _ _ Hp).
Qed.

(** The request of a well-typed payment reaches the journal as that payment. *)
Lemma admit_decodes now p y job signed :
  channel_inv v c settlement Provider (state_of y) ->
  wf EarnedCertificate_codec (paid_certificate p) = true ->
  record_wf PaymentBindingV1_record (paid_binding p) = true ->
  length (Sig_bytes (paid_binding_signature p)) = SIG_LENGTH ->
  length (Sig_bytes (paid_certificate_signature p)) = SIG_LENGTH ->
  jobs (state_of y) !! binding_work_id (paid_binding p) = Some job -> job_result job = Some signed ->
  observation_fresh (provider_observation y) now = Ok tt ->
  admit_payment v now (admit_request (channel_id c) p) y =
    (do* _ := on_store (X := ProviderEndpoint) Payment_Store (commit v (JobTerminated (binding_work_id (paid_binding p))
       (Certified signed (paid_certificate p) (paid_binding p) (paid_binding_signature p)
          (paid_certificate_signature p)))) in
     eff_get (fun self => credited_cumulative (ch_ledger (state_of self)))) y.
Proof.
  intros Hinv Hc Hb Hbs Hcs Hj Hres Hfresh. unfold admit_payment, admit_request, channel_of.
  cbn [admit_route admit_certificate admit_binding admit_binding_signature admit_certificate_signature].
  rewrite earned_certificate_encode, !read_signature_bytes by done.
  rewrite (proj2 (record_decode_iff PaymentBindingV1_record _ _)) by done.
  unfold eff_bind, eff_get, eff_lift, selects_payment, route_payment.
  cbn [funding_kind route_channel_id ok_or map_err].
  rewrite (inv_channel _ _ _ _ _ Hinv), bool_decide_eq_true_2 by done. cbn [Z.eqb andb negb].
  unfold paid_result. rewrite Hj, Hres. destruct (is_some _); [done|]. by rewrite Hfresh.
Qed.

(** C5: A payment that arrives is credited: when a client signs a new payment for a
    job whose receipt both ends hold, and the provider has delivered that job,
    was credited as much as the client before it, and observes the chain, then
    the request the client sends decodes to the same payment at the provider,
    which credits it in full and answers with the total the client expects; the
    only thing that can go wrong is the provider's own storage. *)
Theorem payment_admitted x y sent now now' id request x' job job' signed signed' r y' :
  exchange x y sent -> payment (state_of x) id = None ->
  pay v now id x = (Ok request, x') -> state_typed (state_of x') ->
  jobs (state_of x) !! id = Some job -> job_result job = Some signed ->
  jobs (state_of y) !! id = Some job' -> job_result job' = Some signed' ->
  job_phase job' = Delivered -> job_authorization job' = job_authorization job ->
  signed'.1 = signed.1 ->
  credited_cumulative (ch_ledger (state_of y)) = credited_cumulative (ch_ledger (state_of x)) ->
  observation_fresh (provider_observation y) now' = Ok tt ->
  admit_payment v now' request y = (r, y') ->
  match r with
  | Ok credited =>
      payment (state_of y') id = payment (state_of x') id /\
      credited = credited_cumulative (ch_ledger (state_of y')) /\
      credited = credited_cumulative (ch_ledger (state_of x')) /\
      acknowledged x' id (Some (Outcome_Paid credited)) = Ok credited
  | Err (Payment_Store (Channel_error _)) => False
  | Err (Payment_Store _) => True
  | Err _ => False
  end.
Proof.
  intros [Hx Hy _ _]%exchange_inv Hnone Hpay Hty Hj Hres Hj' Hres' Hph Hauth Hsig Hcred Hfresh Hr.
  apply reachable_inv in Hx as Hix. apply reachable_inv in Hy as Hiy.
  destruct (pay_ledger v c settlement _ _ _ _ _ Hix Hpay) as (p & Hp & -> & [[? _]|(_ & j & sg & Hj2 & Hres2 & Hcr)]);
    [congruence|]. simplify_eq.
  pose proof (rtc_reachable _ _ _ _ _ _ Hx (moved_state _ _ _ (moves_pay _ _ _ _ _ _ Hpay))) as Hx'.
  destruct (payment_names _ _ _ _ Hx' Hp) as (Hid & _ & Hvb). destruct (payment_verifies _ _ _ _ Hx' Hp) as [Hn Hvc].
  destruct (typed_payment _ _ _ Hty Hp) as (Hwf & Hwb & Hlb & Hlc).
  apply credit_payment_Ok in Hcr as [Hnext Htot]. rewrite <- Hcred, <- Hauth, <- Hsig in Hnext.
  destruct (delivered_takes _ _ _ _ p (ch_ledger (state_of x')) Hiy Hj' Hph Hres' Hn Hvb Hvc) as (next & Ha & Hl & Hpn);
    [by apply credit_payment_Ok|].
  rewrite (admit_decodes _ _ _ job' signed' Hiy) in Hr by (by rewrite ?Hid). rewrite Hid in Hr.
  unfold eff_bind, on_store, eff_get in Hr.
  destruct (commit v _ (journal_of y)) as [rc st'] eqn:Hcommit.
  eapply commit_plain in Hcommit as [_ Hcommit]; [|done|exact Ha|done].
  destruct rc as [[]|e]; cbn [map_err] in Hr; injection Hr as <- Hy'; [|by destruct e].
  cbn [put_journal provider_journaled] in Hy'. rewrite Hy'.
  assert (state_of y' = next) as -> by (by subst y'). rewrite Hl, Hp, Hpn.
  split_and!; [done..|]. unfold acknowledged. rewrite Hp. cbn. by rewrite Htot, N.eqb_refl.
Qed.
End exchange.
