(* ===== verification/Frame.v ===== *)
(** * Wire frames (crates/wire/src/frame.rs, metadata.rs, status.rs, mux/wire.rs)

    The five frames of a stream, their self-describing encoding with minimal
    varints and bounded metadata, and the stream key a multiplexed message puts
    before them.  Text is a byte string that is well-formed UTF-8; lengths are
    those of a 64-bit host. *)

From S2P Require Import Prelude Xet XetChunk Canonical Primitive Errors Context Auth Objects Registry.
From S2P Require Import View Store Terms Work PaidWork JobBook JobInput Cbor.

#[local] Open Scope N_scope.

(* [crates/wire/src/status.rs:12-30] WireCode *)
Inductive WireCode :=
  | WireCode_Ok | Cancelled | Unknown | InvalidArgument | DeadlineExceeded | NotFound
  | AlreadyExists | PermissionDenied | ResourceExhausted | FailedPrecondition | Aborted
  | OutOfRange | Unimplemented | Internal | Unavailable | DataLoss | Unauthenticated.

#[export] Instance WireCode_eq_dec : EqDecision WireCode.
Proof. solve_decision. Defined.

(* [crates/wire/src/status.rs:33-35] WireCode::as_u8 *)
Definition WireCode_as_u8 (self : WireCode) : N :=
  match self with
  | WireCode_Ok => 0 | Cancelled => 1 | Unknown => 2 | InvalidArgument => 3
  | DeadlineExceeded => 4 | NotFound => 5 | AlreadyExists => 6 | PermissionDenied => 7
  | ResourceExhausted => 8 | FailedPrecondition => 9 | Aborted => 10 | OutOfRange => 11
  | Unimplemented => 12 | Internal => 13 | Unavailable => 14 | DataLoss => 15
  | Unauthenticated => 16
  end.

(* [crates/wire/src/status.rs:37-58] WireCode::from_u8 *)
Definition WireCode_from_u8 (v : N) : option WireCode :=
  match v with
  | 0 => Some WireCode_Ok | 1 => Some Cancelled | 2 => Some Unknown
  | 3 => Some InvalidArgument | 4 => Some DeadlineExceeded | 5 => Some NotFound
  | 6 => Some AlreadyExists | 7 => Some PermissionDenied | 8 => Some ResourceExhausted
  | 9 => Some FailedPrecondition | 10 => Some Aborted | 11 => Some OutOfRange
  | 12 => Some Unimplemented | 13 => Some Internal | 14 => Some Unavailable
  | 15 => Some DataLoss | 16 => Some Unauthenticated
  | _ => None
  end.

(* [crates/wire/src/metadata.rs:10-13] MetadataValue *)
Inductive MetadataValue := Text (s : bytes) | Bytes (b : bytes).

(* [crates/wire/src/metadata.rs:32-34] Metadata *)
Definition Metadata : Type := list (bytes * MetadataValue).

(* [crates/wire/src/metadata.rs:82-86] Trailer *)
Record Trailer := mk_Trailer {
  trailer_status : WireCode;
  trailer_message : bytes;
  trailer_metadata : Metadata;
}.

(* [crates/wire/src/metadata.rs:88-96] Trailer::default *)
Definition Trailer_default : Trailer := mk_Trailer WireCode_Ok [] [].

(* [crates/wire/src/frame.rs:10-16] Frame *)
Inductive Frame :=
  | Frame_Open (method_id : N) (headers : Metadata)
  | Frame_Body (payload : bytes)
  | Frame_End (status : WireCode) (trailer : Trailer)
  | Frame_Reset (code : WireCode)
  | Frame_Credit (additional_bytes : N).

(* [crates/wire/src/frame.rs:44-50] FrameKind *)
Inductive FrameKind := Kind_Open | Kind_Body | Kind_End | Kind_Reset | Kind_Credit.

#[export] Instance FrameKind_eq_dec : EqDecision FrameKind.
Proof. solve_decision. Defined.

(* [crates/wire/src/frame.rs:53-62] FrameKind::from_u8 *)
Definition FrameKind_from_u8 (v : N) : option FrameKind :=
  match v with
  | 0 => Some Kind_Open | 1 => Some Kind_Body | 2 => Some Kind_End
  | 3 => Some Kind_Reset | 4 => Some Kind_Credit | _ => None
  end.

(* [crates/wire/src/frame.rs:64-66] FrameKind::as_u8 *)
Definition FrameKind_as_u8 (self : FrameKind) : N :=
  match self with
  | Kind_Open => 0 | Kind_Body => 1 | Kind_End => 2 | Kind_Reset => 3 | Kind_Credit => 4
  end.

(* [crates/wire/src/frame.rs:70-78] Frame::kind *)
Definition Frame_kind (self : Frame) : FrameKind :=
  match self with
  | Frame_Open _ _ => Kind_Open | Frame_Body _ => Kind_Body | Frame_End _ _ => Kind_End
  | Frame_Reset _ => Kind_Reset | Frame_Credit _ => Kind_Credit
  end.

(* [crates/wire/src/frame.rs:84-105] FrameError *)
Inductive FrameError :=
  | Short (needed got : N)
  | UnknownKind (v : N)
  | UnknownCode (v : N)
  | Frame_BodyTooLarge (len limit : N)
  | BadKeyUtf8
  | BadValueUtf8
  | UnknownMetadataTag (tag : N)
  | BadVarint
  | Frame_TrailingBytes (remaining : N)
  | OversizedFrame (len cap : N).

(* [crates/wire/src/frame.rs:505-505] MAX_FRAME_BYTES *)
Definition MAX_FRAME_BYTES : N := 4 * 1024 * 1024.
Definition METADATA_MAX_ENTRIES : N := 256.
Definition METADATA_MAX_FIELD_LEN : N := 64 * 1024.
Definition USIZE_MAX : N := U64_MAX.

Definition to_le_bytes (w : nat) (v : N) : bytes := rev (to_be_bytes w v).
Definition from_le_bytes (bs : bytes) : N := from_be_bytes (rev bs).

(** ** Varints *)

(** Nine shifts by seven leave one bit of a [u64]. *)
(* [crates/wire/src/frame.rs:439-445] write_varint *)
Fixpoint write_varint_from (rounds : nat) (v : N) : bytes :=
  match rounds with
  | S rounds =>
      if 0x80 <=? v
      then byte_of_N (N.lor v 0x80) :: write_varint_from rounds (N.shiftr v 7)
      else [byte_of_N v]
  | O => [byte_of_N v]
  end.
(* [crates/wire/src/frame.rs:439-445] write_varint *)
Definition write_varint (v : N) : bytes := write_varint_from 9 v.

(** The loop of [read_varint_partial] over the first ten bytes of [buf]. *)
(* [crates/wire/src/frame.rs:466-487] read_varint_partial *)
Fixpoint varint_loop (i value shift : N) (buf : bytes)
    : option (result (N * N) FrameError) :=
  match buf with
  | [] => None
  | byte :: buf =>
      let group := N.land (Byte.to_N byte) 0x7f in
      if (i =? 9) && (1 <? group) then Some (Err BadVarint) else
      let value := N.lor value (N.shiftl group shift) in
      if N.land (Byte.to_N byte) 0x80 =? 0
      then Some (if (0 <? i) && (group =? 0) then Err BadVarint else Ok (value, i + 1))
      else varint_loop (i + 1) value (shift + 7) buf
  end.

(* [crates/wire/src/frame.rs:465-493] read_varint_partial *)
Definition read_varint_partial (buf : bytes) : result (option (N * N)) FrameError :=
  match varint_loop 0 0 0 (take 10 buf) with
  | Some (Ok v) => Ok (Some v)
  | Some (Err e) => Err e
  | None => if lenN buf <? 10 then Ok None else Err BadVarint
  end.

(* [crates/wire/src/frame.rs:447-455] read_varint *)
Definition read_varint (buf : bytes) : result (N * N) FrameError :=
  let? v := read_varint_partial buf in
  match v with Some v => Ok v | None => Err BadVarint end.

(* [crates/wire/src/frame.rs:510-521] bounded_frame_len *)
Definition bounded_frame_len (len : N) : result N FrameError :=
  if MAX_FRAME_BYTES <? len then Err (OversizedFrame len MAX_FRAME_BYTES) else Ok len.

(* [crates/wire/src/frame.rs:523-534] bounded_len *)
Definition bounded_len (len limit : N) : result N FrameError :=
  if limit <? len then Err (Frame_BodyTooLarge len limit) else Ok len.

(** ** Encoding *)

(* [crates/wire/src/frame.rs:341-356] encode_metadata *)
Definition encode_entry (entry : bytes * MetadataValue) : bytes :=
  let '(key, value) := entry in
  write_varint (lenN key) ++ key ++
  match value with
  | Text s => [byte_of_N 0] ++ write_varint (lenN s) ++ s
  | Bytes b => [byte_of_N 1] ++ write_varint (lenN b) ++ b
  end.

(* [crates/wire/src/frame.rs:339-357] encode_metadata *)
Definition encode_metadata (meta : Metadata) : bytes :=
  write_varint (lenN meta) ++ concat (map encode_entry meta).

(* [crates/wire/src/frame.rs:136-160] encode_frame *)
Definition encode_frame (frame : Frame) : bytes :=
  byte_of_N (FrameKind_as_u8 (Frame_kind frame)) ::
  match frame with
  | Frame_Open method_id headers => to_le_bytes 4 method_id ++ encode_metadata headers
  | Frame_Body payload => payload
  | Frame_End _ trailer =>
      byte_of_N (WireCode_as_u8 (trailer_status trailer)) ::
      write_varint (lenN (trailer_message trailer)) ++ trailer_message trailer ++
      encode_metadata (trailer_metadata trailer)
  | Frame_Reset code => [byte_of_N (WireCode_as_u8 code)]
  | Frame_Credit additional_bytes => to_le_bytes 4 additional_bytes
  end.

(** ** The encoded length *)

(* [crates/wire/src/frame.rs:225-232] encoded_varint_len *)
Fixpoint encoded_varint_len_from (rounds : nat) (value len : N) : N :=
  match rounds with
  | S rounds => if 0x80 <=? value then encoded_varint_len_from rounds (N.shiftr value 7) (len + 1)
                else len
  | O => len
  end.
Definition encoded_varint_len (value : N) : N := encoded_varint_len_from 9 value 1.

(* [crates/wire/src/frame.rs:235-240] checked_encoded_add *)
Definition checked_encoded_add (left right : N) : result N FrameError :=
  ok_or (checked_add left right) (OversizedFrame USIZE_MAX MAX_FRAME_BYTES).

(* [crates/wire/src/frame.rs:198-220] encoded_metadata_len *)
Definition encoded_entry_len (len : N) (entry : bytes * MetadataValue) : result N FrameError :=
  let '(key, value) := entry in
  if METADATA_MAX_FIELD_LEN <? lenN key
  then Err (Frame_BodyTooLarge (lenN key) METADATA_MAX_FIELD_LEN) else
  let value_len := match value with Text value => lenN value | Bytes value => lenN value end in
  if METADATA_MAX_FIELD_LEN <? value_len
  then Err (Frame_BodyTooLarge value_len METADATA_MAX_FIELD_LEN) else
  let? len := checked_encoded_add len (encoded_varint_len (lenN key)) in
  let? len := checked_encoded_add len (lenN key) in
  let? len := checked_encoded_add len 1 in
  let? len := checked_encoded_add len (encoded_varint_len value_len) in
  checked_encoded_add len value_len.

(* [crates/wire/src/frame.rs:190-222] encoded_metadata_len *)
Definition encoded_metadata_len (metadata : Metadata) : result N FrameError :=
  if METADATA_MAX_ENTRIES <? lenN metadata
  then Err (Frame_BodyTooLarge (lenN metadata) METADATA_MAX_ENTRIES) else
  rfold encoded_entry_len (encoded_varint_len (lenN metadata)) metadata.

(* [crates/wire/src/frame.rs:166-187] encoded_frame_len *)
Definition encoded_frame_len (frame : Frame) : result N FrameError :=
  let? body_len :=
    match frame with
    | Frame_Open _ headers =>
        let? len := encoded_metadata_len headers in checked_encoded_add 4 len
    | Frame_Body payload => Ok (lenN payload)
    | Frame_End _ trailer =>
        let message_len := lenN (trailer_message trailer) in
        let? len := checked_encoded_add 1 (encoded_varint_len message_len) in
        let? len := checked_encoded_add len message_len in
        let? meta := encoded_metadata_len (trailer_metadata trailer) in
        checked_encoded_add len meta
    | Frame_Reset _ => Ok 1
    | Frame_Credit _ => Ok 4
    end in
  let? len := checked_encoded_add 1 body_len in
  if MAX_FRAME_BYTES <? len then Err (OversizedFrame len MAX_FRAME_BYTES) else Ok len.

(** ** Decoding *)

(** A field behind its length: the varint at [pos], the bounds, the bytes and
    where they end. *)
(* [crates/wire/src/frame.rs:378-394] decode_metadata *)
Definition read_field (buf : bytes) (pos limit : N) : result (bytes * N) FrameError :=
  let? '(len, c) := read_varint (dropN pos buf) in
  let pos := pos + c in
  let? len := bounded_len len limit in
  let? field_end := ok_or (checked_add pos len) (Frame_BodyTooLarge USIZE_MAX limit) in
  if lenN buf <? field_end then Err (Short field_end (lenN buf)) else
  Ok (takeN (field_end - pos) (dropN pos buf), field_end).

(** One entry at [pos]: its key, its tag, its value. *)
(* [crates/wire/src/frame.rs:378-431] decode_metadata *)
Definition decode_entry (buf : bytes) (pos : N) : result ((bytes * MetadataValue) * N) FrameError :=
  let? '(key, pos) := read_field buf pos METADATA_MAX_FIELD_LEN in
  if negb (utf8 key) then Err BadKeyUtf8 else
  let? tag_end := ok_or (checked_add pos 1) (Frame_BodyTooLarge USIZE_MAX MAX_FRAME_BYTES) in
  if lenN buf <? tag_end then Err (Short tag_end (lenN buf)) else
  let tag := default 0 (Byte.to_N <$> buf !! N.to_nat pos) in
  let? '(bs, value_end) := read_field buf tag_end METADATA_MAX_FIELD_LEN in
  let? value := match tag with
                | 0 => if utf8 bs then Ok (Text bs) else Err BadValueUtf8
                | 1 => Ok (Bytes bs)
                | other => Err (UnknownMetadataTag other)
                end in
  Ok ((key, value), value_end).

(* [crates/wire/src/frame.rs:377-433] decode_metadata *)
Fixpoint decode_entries (count : nat) (buf : bytes) (pos : N) (meta : Metadata)
    : result (Metadata * N) FrameError :=
  match count with
  | O => Ok (meta, pos)
  | S count =>
      let? '(entry, pos) := decode_entry buf pos in
      decode_entries count buf pos (meta ++ [entry])
  end.

(* [crates/wire/src/frame.rs:367-435] decode_metadata *)
Definition decode_metadata (buf : bytes) : result (Metadata * N) FrameError :=
  let? '(count, consumed) := read_varint buf in
  if METADATA_MAX_ENTRIES <? count
  then Err (Frame_BodyTooLarge count METADATA_MAX_ENTRIES)
  else decode_entries (N.to_nat count) buf consumed [].

(** Metadata that must end where the frame ends. *)
Definition whole_metadata (buf : bytes) : result Metadata FrameError :=
  let? '(meta, consumed) := decode_metadata buf in
  if negb (consumed =? lenN buf) then Err (Frame_TrailingBytes (lenN buf - consumed)) else Ok meta.

(* [crates/wire/src/frame.rs:268-309] decode_frame *)
Definition decode_end (body : bytes) : result Frame FrameError :=
  match body with
  | [] => Err (Short 1 0)
  | b :: _ =>
      let? status := ok_or (WireCode_from_u8 (Byte.to_N b)) (UnknownCode (Byte.to_N b)) in
      let? '(message, msg_end) := read_field body 1 MAX_FRAME_BYTES in
      if negb (utf8 message) then Err BadValueUtf8 else
      let? metadata := whole_metadata (dropN msg_end body) in
      Ok (Frame_End status (mk_Trailer status message metadata))
  end.

(* [crates/wire/src/frame.rs:242-335] decode_frame *)
Definition decode_frame (buf : bytes) : result Frame FrameError :=
  let? _ := bounded_frame_len (lenN buf) in
  match buf with
  | [] => Err (Short 1 0)
  | k :: body =>
      let? kind := ok_or (FrameKind_from_u8 (Byte.to_N k)) (UnknownKind (Byte.to_N k)) in
      match kind with
      | Kind_Open =>
          if lenN body <? 4 then Err (Short 4 (lenN body)) else
          let? headers := whole_metadata (dropN 4 body) in
          Ok (Frame_Open (from_le_bytes (takeN 4 body)) headers)
      | Kind_Body => Ok (Frame_Body body)
      | Kind_End => decode_end body
      | Kind_Reset =>
          match body with
          | [] => Err (Short 1 0)
          | [b] => let? code := ok_or (WireCode_from_u8 (Byte.to_N b)) (UnknownCode (Byte.to_N b)) in
                   Ok (Frame_Reset code)
          | _ => Err (Frame_TrailingBytes (lenN body - 1))
          end
      | Kind_Credit =>
          if lenN body <? 4 then Err (Short 4 (lenN body)) else
          if 4 <? lenN body then Err (Frame_TrailingBytes (lenN body - 4)) else
          Ok (Frame_Credit (from_le_bytes (takeN 4 body)))
      end
  end.

(** ** Keyed frames *)

(* [crates/wire/src/mux/wire.rs:12-15] StreamKey *)
Record StreamKey := mk_StreamKey {
  stream_id : N;
  key_generation : N;
}.

(* [crates/wire/src/mux/wire.rs:27-30] KeyedFrame *)
Record KeyedFrame := mk_KeyedFrame {
  kf_key : StreamKey;
  kf_frame : Frame;
}.

(* [crates/wire/src/mux/wire.rs:32-38] encode_keyed_frame *)
Definition encode_keyed_frame (key : StreamKey) (frame : Frame) : bytes :=
  to_be_bytes 2 (stream_id key) ++ to_be_bytes 2 (key_generation key) ++ encode_frame frame.

(* [crates/wire/src/mux/wire.rs:40-57] decode_keyed_frame *)
Definition decode_keyed_frame (buf : bytes) : result KeyedFrame FrameError :=
  if lenN buf <? 4 then Err (Short 4 (lenN buf)) else
  let stream_id := from_be_bytes (takeN 2 buf) in
  let generation := from_be_bytes (takeN 2 (dropN 2 buf)) in
  let? frame := decode_frame (dropN 4 buf) in
  Ok (mk_KeyedFrame (mk_StreamKey stream_id generation) frame).

(** ** Varints have one spelling *)

Lemma group_spec b :
  N.land (Byte.to_N b) 0x7f = Byte.to_N b mod 128 /\
  (N.land (Byte.to_N b) 0x80 =? 0) = (Byte.to_N b <? 128).
Proof. by destruct b. Qed.

Lemma continued_byte v : Byte.to_N (byte_of_N (N.lor v 0x80)) = 128 + v mod 128.
Proof.
  rewrite byte_to_of_N. change 256 with (2 ^ 8). rewrite <- N.land_ones, N.land_lor_distr_l, N.land_ones.
  change (N.land 0x80 (N.ones 8)) with 0x80. change (2 ^ 8) with 256.
  rewrite <- byte_to_of_N. replace (v mod 128) with (Byte.to_N (byte_of_N v) mod 128).
  - by destruct (byte_of_N v).
  - rewrite byte_to_of_N. change 256 with (128 * 2). rewrite N.Div0.mod_mul_r, N.mul_comm, N.Div0.mod_add.
    apply N.Div0.mod_mod.
Qed.

(** Seven bits at a time. *)
Lemma shift_group value v shift :
  value + (v mod 128) * 2 ^ shift + v / 128 * 2 ^ (shift + 7) = value + v * 2 ^ shift.
Proof.
  rewrite N.pow_add_r. change (2 ^ 7) with 128. pose proof (N.div_mod' v 128). nia.
Qed.

Lemma varint_loop_last i value b rest :
  value < 2 ^ (7 * i) -> Byte.to_N b < 128 ->
  varint_loop i value (7 * i) (b :: rest) =
    Some (if (i =? 9) && (1 <? Byte.to_N b) then Err BadVarint
          else if (0 <? i) && (Byte.to_N b =? 0) then Err BadVarint
          else Ok (value + Byte.to_N b * 2 ^ (7 * i), i + 1)).
Proof.
  intros Hvalue Hb. cbn [varint_loop]. destruct (group_spec b) as [-> ->].
  rewrite N.mod_small by done. rewrite lor_above by done.
  destruct (N.ltb_spec (Byte.to_N b) 128); [|lia]. by destruct (_ && _).
Qed.

Lemma varint_loop_more i value b rest :
  value < 2 ^ (7 * i) -> 128 <= Byte.to_N b -> i <> 9 ->
  varint_loop i value (7 * i) (b :: rest) =
    varint_loop (i + 1) (value + Byte.to_N b mod 128 * 2 ^ (7 * i)) (7 * (i + 1)) rest.
Proof.
  intros Hvalue Hb Hi. cbn [varint_loop]. destruct (group_spec b) as [-> ->]. rewrite lor_above by done.
  destruct (N.eqb_spec i 9); [done|]. destruct (N.ltb_spec (Byte.to_N b) 128); [lia|]. cbn [andb].
  f_equal. lia.
Qed.

Lemma group_fits i value g : value < 2 ^ (7 * i) -> value + g mod 128 * 2 ^ (7 * i) < 2 ^ (7 * (i + 1)).
Proof.
  intros Hv. pose proof (N.mod_lt g 128 ltac:(done)).
  replace (7 * (i + 1)) with (7 * i + 7) by lia. rewrite N.pow_add_r. change (2 ^ 7) with 128. nia.
Qed.

Lemma varint_loop_write rounds v i value rest :
  i + N.of_nat rounds = 9 -> value < 2 ^ (7 * i) -> v < 2 ^ (7 * N.of_nat rounds + 1) ->
  (0 < i -> v <> 0) ->
  varint_loop i value (7 * i) (write_varint_from rounds v ++ rest)
  = Some (Ok (value + v * 2 ^ (7 * i), i + lenN (write_varint_from rounds v))).
Proof.
  assert (forall i v value, i = 9 \/ v < 128 -> (i = 9 -> v < 2) -> value < 2 ^ (7 * i) -> (0 < i -> v <> 0) ->
    varint_loop i value (7 * i) (byte_of_N v :: rest) = Some (Ok (value + v * 2 ^ (7 * i), i + 1))) as Hlast.
  { clear. intros i v value Hc H9 Hvalue Hnz. assert (Byte.to_N (byte_of_N v) = v) as Hb.
    { rewrite byte_to_of_N. apply N.mod_small. lia. }
    rewrite varint_loop_last by (rewrite ?Hb; lia). rewrite Hb.
    destruct (N.eqb_spec i 9), (N.ltb_spec 1 v); cbn [andb]; try lia;
      destruct (N.ltb_spec 0 i), (N.eqb_spec v 0); cbn [andb]; (done || lia). }
  revert v i value. induction rounds as [|rounds IH]; intros v i value Hi Hvalue Hv Hnz;
    cbn [write_varint_from]; [|destruct (N.leb_spec 0x80 v)]; cbn [app length N.of_nat].
  - apply Hlast; (lia || done || auto).
  - pose proof (continued_byte v) as Hcb. rewrite varint_loop_more; [rewrite Hcb|done|rewrite Hcb; apply N.le_add_r|lia].
    replace ((128 + v mod 128) mod 128) with (v mod 128).
    2:{ rewrite <- (N.mul_1_l 128) at 2. rewrite N.add_comm, N.Div0.mod_add, N.Div0.mod_mod. done. }
    rewrite N.shiftr_div_pow2. change (2 ^ 7) with 128.
    rewrite IH.
    + replace (7 * (i + 1)) with (7 * i + 7) by lia. rewrite shift_group. do 3 f_equal. lia.
    + lia.
    + by apply group_fits.
    + apply N.Div0.div_lt_upper_bound.
      replace (7 * N.of_nat (S rounds) + 1) with (7 * N.of_nat rounds + 1 + 7) in Hv by lia.
      rewrite N.pow_add_r in Hv. change (2 ^ 7) with 128 in Hv. lia.
    + intros _. pose proof (N.Div0.div_le_mono 128 v 128 ltac:(lia)) as Hq.
      change (128 / 128) with 1 in Hq. lia.
  - apply Hlast; (lia || auto).
Qed.

Lemma continued_back b u :
  128 <= Byte.to_N b -> byte_of_N (N.lor (Byte.to_N b mod 128 + 128 * u) 0x80) = b.
Proof.
  intros Hb. rewrite <- (byte_of_to_N (byte_of_N (N.lor _ _))), continued_byte.
  rewrite (N.mul_comm 128), N.Div0.mod_add, N.Div0.mod_mod. by destruct b.
Qed.

Lemma higher_group a u : u <> 0 -> 128 <= a + 128 * u.
Proof. lia. Qed.

Lemma varint_loop_read rounds i value buf v n :
  i + N.of_nat rounds = 9 -> value < 2 ^ (7 * i) -> (length buf <= S rounds)%nat ->
  varint_loop i value (7 * i) buf = Some (Ok (v, n)) ->
  exists u rest, u < 2 ^ (7 * N.of_nat rounds + 1) /\ (0 < i -> u <> 0) /\
    buf = write_varint_from rounds u ++ rest /\ v = value + u * 2 ^ (7 * i).
Proof.
  revert i value buf. induction rounds as [|rounds IH]; intros i value buf Hi Hvalue Hlen Hr;
    (destruct buf as [|b buf]; [done|]); destruct (N.ltb_spec (Byte.to_N b) 128) as [Hb|Hb].
  - rewrite varint_loop_last in Hr by done. assert (i = 9) as -> by lia.
    exists (Byte.to_N b), buf. cbn [write_varint_from]. rewrite byte_of_to_N.
    destruct (N.ltb_spec 1 (Byte.to_N b)); cbn in Hr; [done|].
    destruct (N.eqb_spec (Byte.to_N b) 0); [done|]. simplify_eq. split_and!; [|done..].
    change (2 ^ (7 * N.of_nat 0 + 1)) with 2. lia.
  - assert (i = 9) as -> by lia. destruct buf; [|cbn in Hlen; lia]. cbn [varint_loop] in Hr.
    destruct (group_spec b) as [_ Hg]. rewrite Hg in Hr.
    destruct (N.ltb_spec (Byte.to_N b) 128); [lia|]. by destruct (_ && _).
  - rewrite varint_loop_last in Hr by done. exists (Byte.to_N b), buf. cbn [write_varint_from].
    destruct (N.leb_spec 0x80 (Byte.to_N b)); [lia|]. rewrite byte_of_to_N.
    destruct (N.eqb_spec i 9); [lia|]. cbn [andb] in Hr.
    destruct (N.ltb_spec 0 i), (N.eqb_spec (Byte.to_N b) 0); cbn [andb] in Hr; simplify_eq;
      (split_and!; [|lia|done|done]).
    all: apply (N.lt_le_trans _ (2 ^ 7)); [done|]; apply N.pow_le_mono_r; lia.
  - rewrite varint_loop_more in Hr by (done || lia).
    apply IH in Hr as (u & rest & Hu & Hnz & -> & ->); [|lia|by apply group_fits|cbn in Hlen; lia].
    exists (Byte.to_N b mod 128 + 128 * u), rest. pose proof (N.mod_lt (Byte.to_N b) 128 ltac:(done)) as Hm.
    split_and!.
    + replace (7 * N.of_nat (S rounds) + 1) with (7 * N.of_nat rounds + 1 + 7) by lia.
      rewrite N.pow_add_r. change (2 ^ 7) with 128. nia.
    + intros _ Hz. pose proof (higher_group (Byte.to_N b mod 128) u (Hnz ltac:(lia))) as Hg. by rewrite Hz in Hg.
    + cbn [write_varint_from]. pose proof (higher_group (Byte.to_N b mod 128) u (Hnz ltac:(lia))) as Hg.
      apply N.leb_le in Hg. rewrite Hg. cbn [app]. f_equal.
      * by rewrite continued_back.
      * do 2 f_equal. rewrite N.shiftr_div_pow2. change (2 ^ 7) with 128.
        rewrite N.mul_comm, N.div_add, N.div_small by done. done.
    + replace (7 * (i + 1)) with (7 * i + 7) by lia. rewrite N.pow_add_r. change (2 ^ 7) with 128. lia.
Qed.

Lemma write_varint_length_le rounds v : (length (write_varint_from rounds v) <= S rounds)%nat.
Proof.
  revert v. induction rounds as [|rounds IH]; intros v; cbn [write_varint_from]; [done|].
  destruct (_ <=? _); cbn [length]; [specialize (IH (N.shiftr v 7))|]; lia.
Qed.

(** A varint reads back exactly what was written, and nothing else does. *)
Lemma read_varint_iff buf v n :
  read_varint buf = Ok (v, n) <->
  u64_ok v = true /\ n = lenN (write_varint v) /\ exists rest, buf = write_varint v ++ rest.
Proof.
  unfold u64_ok, U64_MAX. rewrite N.leb_le. unfold read_varint, read_varint_partial, write_varint. split.
  - intros Hr. destruct (varint_loop 0 0 0 (take 10 buf)) as [[[v' n']|e]|] eqn:Hl; cbn in Hr;
      [|done|by destruct (_ <? _)]. simplify_eq. pose proof Hl as Hl'.
    change 0 with (7 * 0) in Hl' at 3.
    apply (varint_loop_read 9) in Hl' as (u & rest & Hu & _ & Hbuf & ->); [|done|done|rewrite length_take; lia].
    change (2 ^ (7 * N.of_nat 9 + 1)) with 18446744073709551616 in Hu.
    rewrite N.mul_0_r, N.pow_0_r, N.mul_1_r, N.add_0_l in *. split; [lia|].
    rewrite Hbuf in Hl. change 0 with (7 * 0) in Hl at 3.
    rewrite (varint_loop_write 9) in Hl by (done || (change (2 ^ (7 * N.of_nat 9 + 1)) with 18446744073709551616; lia)).
    apply Some_inj, Ok_inj in Hl. apply (f_equal snd) in Hl. cbn [snd] in Hl. split; [lia|]. exists (rest ++ drop 10 buf). by rewrite app_assoc, <- Hbuf, take_drop.
  - intros (Hv & -> & rest & ->). pose proof (write_varint_length_le 9 v).
    rewrite take_app_ge by lia. change 0 with (7 * 0) at 3.
    rewrite (varint_loop_write 9) by (done || (change (2 ^ (7 * N.of_nat 9 + 1)) with 18446744073709551616; lia)).
    cbn. do 2 f_equal. lia.
Qed.

(** ** Metadata *)

#[local] Opaque write_varint.

Definition value_bytes (value : MetadataValue) : bytes := match value with Text s => s | Bytes b => b end.
Definition entry_ok (entry : bytes * MetadataValue) : bool :=
  utf8 entry.1 && (lenN entry.1 <=? METADATA_MAX_FIELD_LEN) &&
  match entry.2 with Text s => utf8 s | Bytes _ => true end &&
  (lenN (value_bytes entry.2) <=? METADATA_MAX_FIELD_LEN).
Definition metadata_ok (meta : Metadata) : bool :=
  (lenN meta <=? METADATA_MAX_ENTRIES) && forallb entry_ok meta.

Lemma to_N_small n : n < 256 -> Byte.to_N (byte_of_N n) = n.
Proof. intros. by rewrite byte_to_of_N, N.mod_small. Qed.

(** [buf] holds [s] at [pos]. *)
Definition holds_at (buf : bytes) (pos : N) (s : bytes) : Prop :=
  exists before, buf = before ++ s /\ lenN before = pos.

Lemma holds_at_drop buf pos s : holds_at buf pos s -> dropN pos buf = s.
Proof. intros (before & -> & <-). rewrite Nat2N.id. apply drop_app_length. Qed.

Lemma holds_at_of_drop buf pos : pos <= lenN buf -> holds_at buf pos (dropN pos buf).
Proof. intros Hp. exists (takeN pos buf). rewrite take_drop, length_take. split; [done|lia]. Qed.

Lemma holds_at_app buf pos s t : holds_at buf pos (s ++ t) -> holds_at buf (pos + lenN s) t.
Proof.
  intros (before & -> & <-). exists (before ++ s). rewrite <- app_assoc, length_app. split; [done|lia].
Qed.

Lemma holds_at_le buf pos s : holds_at buf pos s -> pos + lenN s = lenN buf.
Proof. intros (before & -> & <-). rewrite length_app. lia. Qed.

Lemma holds_at_lookup buf pos b s : holds_at buf pos (b :: s) -> buf !! N.to_nat pos = Some b.
Proof. intros (before & -> & <-). rewrite Nat2N.id. by apply list_lookup_middle. Qed.

Lemma checked_add_small a b : a + b <= MAX_FRAME_BYTES + 1 -> checked_add a b = Some (a + b).
Proof. intros. apply checked_add_Some. unfold MAX_FRAME_BYTES, U64_MAX in *. split; [done|lia]. Qed.

Lemma read_field_iff buf pos limit bs stop :
  pos <= lenN buf -> lenN buf <= MAX_FRAME_BYTES -> limit <= MAX_FRAME_BYTES ->
  read_field buf pos limit = Ok (bs, stop) <->
  lenN bs <= limit /\ stop = pos + lenN (write_varint (lenN bs)) + lenN bs /\
  exists rest, holds_at buf pos (write_varint (lenN bs) ++ bs ++ rest).
Proof.
  intros Hpos Hbuf Hlim. unfold read_field, bounded_len. split.
  - intros Hr. destruct (read_varint _) as [[len c]|] eqn:E; [|done].
    apply read_varint_iff in E as (Hu & -> & rest & Hd). cbn [rbind] in Hr.
    destruct (N.ltb_spec limit len) as [|Hlen]; [done|]. cbn [rbind] in Hr.
    destruct (checked_add _ _) as [stop'|] eqn:E; [|done]. checked_simpl. cbn [ok_or rbind] in Hr.
    destruct (N.ltb_spec (lenN buf) stop') as [|Hstop]; [done|]. injection Hr as <- <-. subst stop'.
    pose proof (holds_at_of_drop _ _ Hpos) as Hh. rewrite Hd in Hh.
    pose proof (holds_at_app _ _ _ _ Hh) as Hh2. pose proof (holds_at_le _ _ _ Hh2) as Hl.
    rewrite (holds_at_drop _ _ _ Hh2), N.add_comm, N.add_sub.
    assert (lenN (takeN len rest) = len) as Ht by (rewrite length_take; lia). rewrite Ht.
    split; [done|]. split; [lia|]. exists (dropN len rest). by rewrite take_drop.
  - intros (Hlen & -> & rest & Hh). rewrite (holds_at_drop _ _ _ Hh).
    rewrite (proj2 (read_varint_iff _ (lenN bs) (lenN (write_varint (lenN bs))))).
    2:{ split; [apply N.leb_le; unfold U64_MAX, MAX_FRAME_BYTES in *; lia|eauto]. }
    cbn [rbind]. destruct (N.ltb_spec limit (lenN bs)); [lia|]. cbn [rbind].
    pose proof (holds_at_app _ _ _ _ Hh) as Hh2. pose proof (holds_at_le _ _ _ Hh2) as Hl.
    rewrite length_app in Hl. rewrite checked_add_small by lia.
    cbn [ok_or rbind]. destruct (N.ltb_spec (lenN buf) (pos + lenN (write_varint (lenN bs)) + lenN bs)); [lia|].
    rewrite (holds_at_drop _ _ _ Hh2). f_equal. f_equal.
    rewrite (N.add_comm _ (lenN bs)), N.add_sub, Nat2N.id. apply take_app_length.
Qed.

Lemma decode_entry_iff buf pos entry stop :
  pos <= lenN buf -> lenN buf <= MAX_FRAME_BYTES ->
  decode_entry buf pos = Ok (entry, stop) <->
  entry_ok entry = true /\ stop = pos + lenN (encode_entry entry) /\
  exists rest, holds_at buf pos (encode_entry entry ++ rest).
Proof.
  intros Hpos Hbuf. unfold decode_entry, entry_ok. destruct entry as [key value]. cbn [fst snd].
  assert (METADATA_MAX_FIELD_LEN <= MAX_FRAME_BYTES) as Hlim by done. split.
  - intros Hr. destruct (read_field buf pos _) as [[k p]|] eqn:E; [|done].
    apply read_field_iff in E as (Hk & -> & rest & Hh); [|done..]. cbn [rbind] in Hr.
    destruct (utf8 k) eqn:Hu; [|done]. cbn [negb] in Hr.
    pose proof (holds_at_app _ _ _ _ (holds_at_app _ _ _ _ Hh)) as Hh2.
    pose proof (holds_at_le _ _ _ Hh2) as Hl.
    rewrite checked_add_small in Hr by lia. cbn [ok_or rbind] in Hr.
    destruct (N.ltb_spec (lenN buf) (pos + lenN (write_varint (lenN k)) + lenN k + 1)) as [|Hge]; [done|].
    destruct rest as [|t rest]; [cbn [length] in Hl; lia|]. rewrite (holds_at_lookup _ _ _ _ Hh2) in Hr.
    cbn [fmap option_fmap option_map default from_option] in Hr.
    destruct (read_field buf _ _) as [[bs stop']|] eqn:E; [|done].
    pose proof (holds_at_app _ _ [t] rest Hh2) as Hh3. change (lenN [t]) with 1 in Hh3.
    apply read_field_iff in E as (Hv & -> & rest' & Hh4); [|lia|done..]. cbn [rbind] in Hr.
    apply holds_at_drop in Hh3. rewrite (holds_at_drop _ _ _ Hh4) in Hh3. subst rest.
    assert (byte_of_N (Byte.to_N t) = t) as Ht by apply byte_of_to_N. revert Hr Ht.
    destruct (Byte.to_N t) as [|[]] eqn:Et; [destruct (utf8 bs) eqn:Hub| | |]; intros Hr Ht; try done;
      injection Hr as <- <- <-; cbn [value_bytes encode_entry];
      rewrite Hu, ?Hub, !(proj2 (N.leb_le _ _)) by done;
      (split; [done|]); (split; [rewrite !length_app; cbn [length]; rewrite ?length_app; lia|]);
      exists rest'; rewrite Ht, <- !app_assoc; cbn [app]; rewrite <- ?app_assoc; done.
  - intros (Hok & -> & rest & Hh). rewrite !andb_true_iff, !N.leb_le in Hok. destruct Hok as (((Hu & Hk) & Ht) & Hv).
    set (tag := match value with Text _ => 0 | Bytes _ => 1 end).
    assert (encode_entry (key, value) = write_varint (lenN key) ++ key ++
      [byte_of_N tag] ++ write_varint (lenN (value_bytes value)) ++ value_bytes value) as He by (by destruct value).
    rewrite He in *. clear He. rewrite <- !app_assoc in Hh.
    rewrite (proj2 (read_field_iff buf pos METADATA_MAX_FIELD_LEN key _ Hpos Hbuf Hlim)) by eauto.
    pose proof (holds_at_app _ _ _ _ (holds_at_app _ _ _ _ Hh)) as Hh2. pose proof (holds_at_le _ _ _ Hh2) as Hl.
    rewrite length_app in Hl. cbn [length] in Hl. cbn [rbind]. rewrite Hu. cbn [negb].
    rewrite checked_add_small by lia. cbn [ok_or rbind].
    destruct (N.ltb_spec (lenN buf) (pos + lenN (write_varint (lenN key)) + lenN key + 1)) as [|Hge]; [lia|].
    rewrite (holds_at_lookup _ _ _ _ Hh2). cbn [fmap option_fmap option_map default from_option].
    rewrite to_N_small by (by destruct value). pose proof (holds_at_app _ _ [byte_of_N tag] _ Hh2) as Hh3.
    change (lenN [byte_of_N tag]) with 1 in Hh3.
    rewrite (proj2 (read_field_iff buf _ METADATA_MAX_FIELD_LEN (value_bytes value) _ Hge Hbuf Hlim)) by eauto.
    cbn [rbind]. rewrite !length_app. change (length [byte_of_N tag]) with 1%nat.
    destruct value; cbn [id tag value_bytes] in *; rewrite ?Ht; cbn [rbind]; do 2 f_equal; lia.
Qed.

Lemma decode_entries_iff count buf pos meta m stop :
  pos <= lenN buf -> lenN buf <= MAX_FRAME_BYTES ->
  decode_entries count buf pos meta = Ok (m, stop) <->
  exists entries, m = meta ++ entries /\ length entries = count /\ forallb entry_ok entries = true /\
    stop = pos + lenN (concat (map encode_entry entries)) /\
    exists rest, holds_at buf pos (concat (map encode_entry entries) ++ rest).
Proof.
  intros Hpos Hbuf. revert pos meta Hpos. induction count as [|count IH]; intros pos meta Hpos; cbn [decode_entries].
  - split.
    + intros [= <- <-]. exists []. rewrite app_nil_r. cbn. split_and!; [done..|lia|].
      exists (dropN pos buf). by apply holds_at_of_drop.
    + intros (entries & -> & Hlen & _ & -> & _). destruct entries; [|done]. cbn. rewrite app_nil_r. do 2 f_equal. lia.
  - split.
    + intros Hr. destruct (decode_entry buf pos) as [[entry p]|] eqn:E; [|done]. cbn [rbind] in Hr.
      apply decode_entry_iff in E as (Hok & -> & rest & Hh); [|done..].
      pose proof (holds_at_app _ _ _ _ Hh) as Hh2. pose proof (holds_at_le _ _ _ Hh2).
      apply IH in Hr as (entries & -> & Hlen & Hall & -> & rest' & Hh3); [|lia].
      exists (entry :: entries). cbn [length forallb map concat]. rewrite Hok, Hlen, <- !app_assoc, length_app.
      split_and!; [done..|lia|]. exists rest'. apply holds_at_drop in Hh2. rewrite (holds_at_drop _ _ _ Hh3) in Hh2.
      by rewrite <- app_assoc, Hh2.
    + intros (entries & -> & Hlen & Hall & -> & rest & Hh). destruct entries as [|entry entries]; [done|].
      cbn [forallb map concat] in *. apply andb_true_iff in Hall as [Hok Hall]. rewrite <- app_assoc in Hh.
      rewrite (proj2 (decode_entry_iff buf pos entry _ Hpos Hbuf)) by eauto. cbn [rbind].
      pose proof (holds_at_app _ _ _ _ Hh) as Hh2. pose proof (holds_at_le _ _ _ Hh2).
      apply IH; [lia|]. exists entries. rewrite <- app_assoc, length_app. cbn in Hlen.
      split_and!; [done|lia|done|lia|]. eauto.
Qed.

Lemma whole_metadata_iff buf meta :
  lenN buf <= MAX_FRAME_BYTES ->
  whole_metadata buf = Ok meta <-> metadata_ok meta = true /\ buf = encode_metadata meta.
Proof.
  intros Hbuf. unfold whole_metadata, decode_metadata, metadata_ok, encode_metadata. split.
  - intros Hr. destruct (read_varint buf) as [[count c]|] eqn:E; [|done]. cbn [rbind] in Hr.
    apply read_varint_iff in E as (Hu & -> & rest & Hb). destruct (N.ltb_spec METADATA_MAX_ENTRIES count) as [|Hc]; [done|].
    destruct (decode_entries _ _ _ _) as [[m stop]|] eqn:E; [|done]. cbn [rbind] in Hr.
    apply decode_entries_iff in E as (entries & -> & Hlen & Hall & -> & rest' & Hh);
      [|rewrite Hb, length_app; lia|done].
    destruct (N.eqb_spec (lenN (write_varint count) + lenN (concat (map encode_entry entries))) (lenN buf)) as [Hstop|];
      [|done]. cbn [negb] in Hr. injection Hr as <-. cbn [app].
    assert (count = lenN entries) as -> by lia. rewrite Hall, (proj2 (N.leb_le _ _)) by done. split; [done|].
    pose proof (holds_at_le _ _ _ Hh) as Hl. rewrite length_app in Hl. destruct rest'; [|cbn [length] in Hl; lia].
    apply holds_at_drop in Hh. rewrite app_nil_r in Hh. rewrite <- Hh. rewrite Hb at 1. f_equal.
    rewrite Hb, Nat2N.id, drop_app_length. done.
  - intros [Hok ->]. apply andb_true_iff in Hok as [Hc%N.leb_le Hall]. rewrite length_app in Hbuf.
    rewrite (proj2 (read_varint_iff _ (lenN meta) (lenN (write_varint (lenN meta))))).
    2:{ split; [apply N.leb_le; unfold METADATA_MAX_ENTRIES, U64_MAX in *; lia|eauto]. }
    cbn [rbind]. destruct (N.ltb_spec METADATA_MAX_ENTRIES (lenN meta)); [lia|]. rewrite Nat2N.id.
    set (buf := _ ++ _). assert (lenN (write_varint (lenN meta)) <= lenN buf /\ lenN buf <= MAX_FRAME_BYTES) as [Hp Hb]
      by (unfold buf; rewrite length_app; lia).
    rewrite (proj2 (decode_entries_iff (length meta) buf _ [] meta
      (lenN (write_varint (lenN meta)) + lenN (concat (map encode_entry meta))) Hp Hb)).
    + cbn [rbind]. unfold buf. rewrite length_app, Nat2N.inj_add, N.eqb_refl. done.
    + exists meta. split_and!; [done..|]. exists []. rewrite app_nil_r. by exists (write_varint (lenN meta)).
Qed.

(** ** Frames *)

(** A frame as its Rust types have it: widths, UTF-8 text, and the redundant
    status of an end frame the same as its trailer's. *)
Definition frame_typed (frame : Frame) : bool :=
  match frame with
  | Frame_Open method_id headers => u32_ok method_id
  | Frame_Body _ | Frame_Reset _ => true
  | Frame_End status trailer =>
      bool_decide (status = trailer_status trailer) && utf8 (trailer_message trailer)
  | Frame_Credit additional_bytes => u32_ok additional_bytes
  end.
Definition frame_metadata (frame : Frame) : Metadata :=
  match frame with
  | Frame_Open _ headers => headers
  | Frame_End _ trailer => trailer_metadata trailer
  | _ => []
  end.
(** What may travel. *)
Definition frame_ok (frame : Frame) : bool :=
  frame_typed frame && metadata_ok (frame_metadata frame) && (lenN (encode_frame frame) <=? MAX_FRAME_BYTES).

Lemma WireCode_u8_iff v code : WireCode_from_u8 v = Some code <-> v = WireCode_as_u8 code.
Proof.
  split; [|intros ->; by destruct code].
  unfold WireCode_from_u8. intros Hr. repeat (case_match; try done); by simplify_eq.
Qed.

Lemma WireCode_small code : WireCode_as_u8 code < 256.
Proof. by destruct code. Qed.

Lemma to_le_bytes_length w v : length (to_le_bytes w v) = w.
Proof. unfold to_le_bytes. by rewrite length_rev, to_be_bytes_length. Qed.

Lemma le_bytes_iff w v bs :
  v < 256 ^ N.of_nat w -> bs = to_le_bytes w v <-> length bs = w /\ from_le_bytes bs = v.
Proof.
  intros Hv. unfold to_le_bytes, from_le_bytes. split.
  - intros ->. rewrite length_rev, to_be_bytes_length, rev_involutive. split; [done|]. by apply from_to_be_bytes.
  - intros [Hl <-]. rewrite <- Hl, <- length_rev, to_from_be_bytes, rev_involutive. done.
Qed.

Lemma decode_end_iff body frame :
  lenN body <= MAX_FRAME_BYTES ->
  decode_end body = Ok frame <->
  exists trailer, frame = Frame_End (trailer_status trailer) trailer /\
    utf8 (trailer_message trailer) = true /\ metadata_ok (trailer_metadata trailer) = true /\
    body = byte_of_N (WireCode_as_u8 (trailer_status trailer)) ::
      write_varint (lenN (trailer_message trailer)) ++ trailer_message trailer ++
      encode_metadata (trailer_metadata trailer).
Proof.
  intros Hbody. unfold decode_end. split.
  - destruct body as [|b body]; [done|]. cbn [length] in Hbody. intros Hr.
    destruct (WireCode_from_u8 _) as [status|] eqn:Hs; [|done]. apply WireCode_u8_iff in Hs. cbn [ok_or rbind] in Hr.
    destruct (read_field _ _ _) as [[message stop]|] eqn:E; [|done]. cbn [rbind] in Hr.
    apply read_field_iff in E as (Hm & -> & rest & Hh); [|cbn [length]; lia..|done].
    destruct (utf8 message) eqn:Hu; [|done]. cbn [negb] in Hr.
    pose proof (holds_at_app _ _ _ _ (holds_at_app _ _ _ _ Hh)) as Hh2. pose proof (holds_at_le _ _ _ Hh2) as Hl.
    rewrite (holds_at_drop _ _ _ Hh2) in Hr. destruct (whole_metadata rest) as [meta|] eqn:E; [|done].
    cbn [length] in Hl. apply whole_metadata_iff in E as [Hok ->]; [|lia]. injection Hr as <-.
    exists (mk_Trailer status message meta). cbn [trailer_status trailer_message trailer_metadata].
    split_and!; [done..|]. apply holds_at_drop in Hh. change (dropN 1 (b :: body)) with body in Hh.
    rewrite <- Hs, byte_of_to_N. by rewrite Hh.
  - intros ([status message meta] & -> & Hu & Hok & ->). cbn [trailer_status trailer_message trailer_metadata] in *.
    rewrite to_N_small by apply WireCode_small. rewrite (proj2 (WireCode_u8_iff _ _) eq_refl). cbn [ok_or rbind].
    cbn [length] in Hbody. rewrite !length_app in Hbody.
    set (body := _ :: _). assert (holds_at body 1 (write_varint (lenN message) ++ message ++ encode_metadata meta)) as Hh
      by (by exists [byte_of_N (WireCode_as_u8 status)]).
    pose proof (holds_at_app _ _ _ _ (holds_at_app _ _ _ _ Hh)) as Hh2. pose proof (holds_at_le _ _ _ Hh2) as Hl.
    rewrite (proj2 (read_field_iff body 1 MAX_FRAME_BYTES message _ ltac:(lia) ltac:(lia) ltac:(lia))) by (split_and!; eauto; lia).
    cbn [rbind]. rewrite Hu. cbn [negb]. rewrite (holds_at_drop _ _ _ Hh2).
    rewrite (proj2 (whole_metadata_iff (encode_metadata meta) meta ltac:(lia))) by done. done.
Qed.

Lemma u32_le_bytes bs : length bs = 4%nat -> u32_ok (from_le_bytes bs) = true /\ bs = to_le_bytes 4 (from_le_bytes bs).
Proof.
  intros Hl. pose proof (from_be_bytes_bound (rev bs)) as Hb. rewrite length_rev, Hl in Hb. split.
  - unfold u32_ok, from_le_bytes. change (256 ^ N.of_nat 4) with 4294967296 in Hb. apply N.leb_le. lia.
  - by apply le_bytes_iff.
Qed.

Lemma u32_from_le v rest : u32_ok v = true ->
  from_le_bytes (takeN 4 (to_le_bytes 4 v ++ rest)) = v /\ dropN 4 (to_le_bytes 4 v ++ rest) = rest.
Proof.
  intros Hv%N.leb_le. assert (v < 256 ^ N.of_nat 4) as Hb by (change (256 ^ N.of_nat 4) with 4294967296; lia).
  pose proof (proj1 (le_bytes_iff 4 v _ Hb) eq_refl) as [Hl Hf].
  rewrite take_app_length' by done. by rewrite drop_app_length'.
Qed.

Lemma decode_frame_sound buf frame :
  decode_frame buf = Ok frame ->
  frame_typed frame = true /\ metadata_ok (frame_metadata frame) = true /\ buf = encode_frame frame /\
  lenN buf <= MAX_FRAME_BYTES.
Proof.
  unfold decode_frame, bounded_frame_len. intros Hr.
  destruct (N.ltb_spec MAX_FRAME_BYTES (lenN buf)) as [|Hl]; [done|]. cbn [rbind] in Hr.
  destruct buf as [|k body]; [done|]. cbn [length] in *. rewrite <- (byte_of_to_N k).
  destruct (Byte.to_N k) as [|[[]|[|[]|]|]]; cbn [FrameKind_from_u8 ok_or rbind] in Hr; try done.
  - destruct (N.ltb_spec (lenN body) 4) as [|Hb]; [done|].
    destruct (whole_metadata _) as [headers|] eqn:E; [|done]. injection Hr as <-.
    apply whole_metadata_iff in E as [Hok Hd]; [|rewrite length_drop; lia].
    destruct (u32_le_bytes (takeN 4 body)) as [Hu Ht]; [rewrite length_take; lia|].
    split_and!; [done..| |done]. unfold encode_frame. cbn [Frame_kind FrameKind_as_u8]. f_equal.
    rewrite <- Hd, <- Ht. by rewrite take_drop.
  - destruct body as [|b [|]]; try done. destruct (WireCode_from_u8 _) as [code|] eqn:Hc; [|done].
    apply WireCode_u8_iff in Hc. injection Hr as <-. split_and!; [done..| |done].
    unfold encode_frame. cbn [Frame_kind FrameKind_as_u8]. by rewrite <- Hc, byte_of_to_N.
  - destruct (N.ltb_spec (lenN body) 4) as [|]; [done|]. destruct (N.ltb_spec 4 (lenN body)) as [|]; [done|].
    injection Hr as <-. rewrite take_ge by lia. destruct (u32_le_bytes body) as [Hu Ht]; [lia|].
    split_and!; [done..| |done]. unfold encode_frame. cbn [Frame_kind FrameKind_as_u8]. by f_equal.
  - apply decode_end_iff in Hr as (trailer & -> & Hu & Hok & ->); [|lia].
    split_and!; [cbn; by rewrite Hu, bool_decide_eq_true_2|done..].
  - injection Hr as <-. done.
Qed.

Lemma decode_frame_complete frame :
  frame_ok frame = true -> decode_frame (encode_frame frame) = Ok frame.
Proof.
  unfold decode_frame, frame_ok, bounded_frame_len. rewrite !andb_true_iff, N.leb_le. intros [[Ht Hm] Hl].
  destruct (N.ltb_spec MAX_FRAME_BYTES (lenN (encode_frame frame))); [lia|]. cbn [rbind].
  destruct frame as [m headers|payload|status trailer|code|n];
    unfold encode_frame in *; cbn [Frame_kind FrameKind_as_u8 frame_typed frame_metadata] in *;
    rewrite to_N_small by done; cbn [FrameKind_from_u8 ok_or rbind length] in *.
  - destruct (u32_from_le m (encode_metadata headers) Ht) as [Hf Hd]. rewrite Hf, Hd, length_app in *.
    unfold to_le_bytes in *. rewrite length_rev, to_be_bytes_length in *.
    destruct (N.ltb_spec (N.of_nat (4 + length (encode_metadata headers))) 4); [lia|].
    by rewrite (proj2 (whole_metadata_iff (encode_metadata headers) headers ltac:(lia))).
  - done.
  - apply andb_true_iff in Ht as [->%bool_decide_eq_true Hu]. apply decode_end_iff; [cbn [length]; lia|]. by exists trailer.
  - rewrite to_N_small by apply WireCode_small. by rewrite (proj2 (WireCode_u8_iff _ _) eq_refl).
  - destruct (u32_from_le n [] Ht) as [Hf _]. rewrite app_nil_r in Hf. rewrite Hf.
    unfold to_le_bytes. rewrite length_rev, to_be_bytes_length. done.
Qed.

Lemma decode_frame_iff buf frame :
  decode_frame buf = Ok frame <-> frame_ok frame = true /\ buf = encode_frame frame.
Proof.
  split; [|intros [? ->]; by apply decode_frame_complete].
  intros (Ht & Hm & -> & Hl)%decode_frame_sound. split; [|done].
  unfold frame_ok. by rewrite Ht, Hm, (proj2 (N.leb_le _ _)).
Qed.

Definition key_ok (key : StreamKey) : bool := u16_ok (stream_id key) && u16_ok (key_generation key).

Lemma decode_keyed_frame_iff buf key frame :
  decode_keyed_frame buf = Ok (mk_KeyedFrame key frame) <->
  key_ok key = true /\ frame_ok frame = true /\ buf = encode_keyed_frame key frame.
Proof.
  unfold decode_keyed_frame, encode_keyed_frame, key_ok, u16_ok. rewrite andb_true_iff, !N.leb_le. split.
  - intros Hr. destruct (N.ltb_spec (lenN buf) 4) as [|Hl]; [done|].
    destruct (decode_frame _) as [f|] eqn:E; [|done]. injection Hr as <- <-.
    apply decode_frame_iff in E as [Hok Hd]. cbn [stream_id key_generation].
    assert (forall n, (n <= 2)%nat -> from_be_bytes (takeN 2 (drop n buf)) <= 65535) as Hb.
    { intros n Hn. pose proof (from_be_bytes_bound (takeN 2 (drop n buf))) as Hb.
      rewrite length_take, length_drop, Nat.min_l in Hb by lia. change (256 ^ N.of_nat (N.to_nat 2)) with 65536 in Hb. lia. }
    split; [split; [exact (Hb 0%nat ltac:(lia))|exact (Hb 2%nat ltac:(lia))]|]. split; [done|]. rewrite <- Hd.
    assert (forall n, (n <= 2)%nat -> to_be_bytes 2 (from_be_bytes (takeN 2 (drop n buf))) = takeN 2 (drop n buf)) as He.
    { intros n Hn. rewrite <- (to_from_be_bytes (takeN 2 (drop n buf))) at 2.
      f_equal. rewrite length_take, length_drop. lia. }
    pose proof (He 0%nat ltac:(lia)) as He0. rewrite drop_0 in He0. rewrite He0.
    change (N.to_nat 2) with 2%nat in *. rewrite (He 2%nat) by lia.
    change (N.to_nat 4) with (2 + 2)%nat. rewrite <- drop_drop. by rewrite !take_drop.
  - intros ([Hi Hg] & Hok & ->). destruct key as [i g]. cbn [stream_id key_generation] in *.
    rewrite !length_app, !to_be_bytes_length.
    destruct (N.ltb_spec (N.of_nat (2 + (2 + length (encode_frame frame)))) 4); [lia|].
    pose proof (to_be_bytes_length 2 i) as Hli. pose proof (to_be_bytes_length 2 g) as Hlg.
    revert Hli Hlg. pose proof (from_to_be_bytes 2 i) as Hfi. pose proof (from_to_be_bytes 2 g) as Hfg.
    revert Hfi Hfg. generalize (to_be_bytes 2 i) (to_be_bytes 2 g). intros bi bg Hfi Hfg Hli Hlg.
    destruct bi as [|a1 [|a2 []]]; try done. destruct bg as [|b1 [|b2 []]]; try done. cbn [app].
    change (dropN 4 (a1 :: a2 :: b1 :: b2 :: encode_frame frame)) with (encode_frame frame).
    rewrite (proj2 (decode_frame_iff _ frame)) by done. cbn [rbind].
    change (256 ^ N.of_nat 2) with 65536 in *. do 3 f_equal; [apply Hfi|apply Hfg]; lia.
Qed.

(** A message of a multiplexed connection has one spelling: the bytes that
    decode to a keyed frame are exactly the bytes that encoding it writes, for
    every frame within the wire's limits and for no other; lengths are minimal
    varints, text is UTF-8 and nothing trails. *)
Theorem keyed_frame_codec_exact buf key frame :
  decode_keyed_frame buf = Ok (mk_KeyedFrame key frame) <->
  key_ok key = true /\ frame_ok frame = true /\ buf = encode_keyed_frame key frame.
Proof. apply decode_keyed_frame_iff. Qed.

(** ** The length computed beforehand *)

#[local] Transparent write_varint.

Lemma encoded_varint_len_exact v : encoded_varint_len v = lenN (write_varint v).
Proof.
  unfold encoded_varint_len, write_varint.
  assert (forall rounds v len, encoded_varint_len_from rounds v len + 1 = len + lenN (write_varint_from rounds v)) as Hl.
  { induction rounds as [|rounds IH]; intros u len; cbn [encoded_varint_len_from write_varint_from]; [cbn; lia|].
    destruct (0x80 <=? u); [rewrite IH; cbn [length]; lia|cbn; lia]. }
  specialize (Hl 9%nat v 1). lia.
Qed.

Lemma write_varint_fits v : lenN (write_varint v) <= 10.
Proof. pose proof (write_varint_length_le 9 v) as Hl. unfold write_varint. lia. Qed.

#[local] Opaque write_varint.

Lemma checked_encoded_add_Ok a b c :
  checked_encoded_add a b = Ok c <-> c = a + b /\ a + b <= U64_MAX.
Proof. unfold checked_encoded_add. rewrite ok_or_Ok. apply checked_add_Some. Qed.

Lemma checked_encoded_add_fits a b : a + b <= U64_MAX -> checked_encoded_add a b = Ok (a + b).
Proof. intros H. by apply checked_encoded_add_Ok. Qed.

(** Text is UTF-8 by its type. *)
Definition entry_text (entry : bytes * MetadataValue) : bool :=
  utf8 entry.1 && match entry.2 with Text s => utf8 s | Bytes _ => true end.

Lemma encoded_entry_len_iff len entry n :
  entry_text entry = true ->
  encoded_entry_len len entry = Ok n <->
  entry_ok entry = true /\ n = len + lenN (encode_entry entry) /\ n <= U64_MAX.
Proof.
  destruct entry as [key value]. unfold entry_text, entry_ok, encoded_entry_len. cbn [fst snd]. intros [Hk Ht]%andb_true_iff.
  assert (match value with Text s => lenN s | Bytes s => lenN s end = lenN (value_bytes value)) as -> by (by destruct value).
  assert (lenN (encode_entry (key, value)) = lenN (write_varint (lenN key)) + lenN key + 1
    + lenN (write_varint (lenN (value_bytes value))) + lenN (value_bytes value)) as ->.
  { destruct value; cbn [encode_entry value_bytes]; rewrite !length_app; cbn [length]; lia. }
  rewrite Hk, Ht, !encoded_varint_len_exact.
  destruct (N.ltb_spec METADATA_MAX_FIELD_LEN (lenN key)) as [Hl|Hl].
  { rewrite (proj2 (N.leb_gt _ _)) by done. split; [done|]. by intros [? _]. }
  destruct (N.ltb_spec METADATA_MAX_FIELD_LEN (lenN (value_bytes value))) as [Hv|Hv].
  { rewrite (proj2 (N.leb_gt (lenN (value_bytes value)) _)), andb_false_r by done. split; [done|]. by intros [? _]. }
  rewrite !(proj2 (N.leb_le _ _)) by done. cbn [andb]. split.
  - intros Hr. repeat (apply rbind_Ok in Hr as (? & [-> ?]%checked_encoded_add_Ok & Hr)).
    apply checked_encoded_add_Ok in Hr as [-> ?]. split_and!; [done|lia|lia].
  - intros (_ & -> & Hn).
    repeat (rewrite checked_encoded_add_fits by lia; cbn [rbind]). f_equal. lia.
Qed.

Lemma encoded_metadata_len_iff meta n :
  forallb entry_text meta = true ->
  encoded_metadata_len meta = Ok n <->
  metadata_ok meta = true /\ n = lenN (encode_metadata meta) /\ n <= U64_MAX.
Proof.
  intros Ht. unfold encoded_metadata_len, metadata_ok, encode_metadata. rewrite encoded_varint_len_exact, length_app.
  assert (lenN (write_varint (lenN meta)) <= U64_MAX) as H0.
  { pose proof (write_varint_fits (lenN meta)). unfold U64_MAX. lia. }
  destruct (N.ltb_spec METADATA_MAX_ENTRIES (lenN meta)) as [Hl|Hl].
  { rewrite (proj2 (N.leb_gt _ _)) by done. split; [done|]. by intros [? _]. }
  rewrite (proj2 (N.leb_le _ _)) by done. cbn [andb]. clear Hl. revert H0.
  rewrite Nat2N.inj_add. generalize (lenN (write_varint (lenN meta))). induction meta as [|entry meta IH]; intros base Hbase.
  - cbn. split; [intros [= <-]; split_and!; [done|lia|done]|intros (_ & -> & _); f_equal; lia].
  - cbn [forallb rfold map concat] in *. apply andb_true_iff in Ht as [Ht1 Ht2]. rewrite length_app. split.
    + intros Hr. destruct (encoded_entry_len base entry) as [b|] eqn:E; [|done].
      apply encoded_entry_len_iff in E as (Hok & -> & Hb); [|done]. apply IH in Hr as (Hall & -> & Hn); [|done..].
      rewrite Hok, Hall. split_and!; [done|lia|lia].
    + intros ([Hok Hall]%andb_true_iff & -> & Hn).
      rewrite (proj2 (encoded_entry_len_iff base entry _ Ht1)) by (split_and!; [done|reflexivity|lia]).
      apply IH; [done|lia|]. split_and!; [done|lia|lia].
Qed.

Lemma encoded_frame_len_close (body : result N FrameError) n :
  (let? body_len := body in
   let? len := checked_encoded_add 1 body_len in
   if MAX_FRAME_BYTES <? len then Err (OversizedFrame len MAX_FRAME_BYTES) else Ok len) = Ok n <->
  exists b, body = Ok b /\ n = 1 + b /\ n <= MAX_FRAME_BYTES.
Proof.
  split.
  - intros (b & -> & (len & [-> Hb]%checked_encoded_add_Ok & Hr)%rbind_Ok)%rbind_Ok.
    destruct (N.ltb_spec MAX_FRAME_BYTES (1 + b)); simplify_eq. eauto.
  - intros (b & -> & -> & Hn). cbn [rbind].
    rewrite checked_encoded_add_fits by (etrans; [exact Hn|done]). cbn [rbind].
    by rewrite (proj2 (N.ltb_ge _ _)).
Qed.

(** What the length is made of, and when it is refused. *)
Lemma encoded_frame_len_iff frame n :
  forallb entry_text (frame_metadata frame) = true ->
  encoded_frame_len frame = Ok n <->
  metadata_ok (frame_metadata frame) = true /\ n = lenN (encode_frame frame) /\ n <= MAX_FRAME_BYTES.
Proof.
  intros Ht. unfold encoded_frame_len. rewrite encoded_frame_len_close.
  assert (MAX_FRAME_BYTES < U64_MAX) as Hmax by done. revert Hmax. generalize MAX_FRAME_BYTES. intros limit Hmax.
  destruct frame as [m headers|payload|status trailer|code|k]; cbn [frame_metadata] in *; unfold encode_frame;
    cbn [length]; rewrite ?length_app; cbn [length]; rewrite ?length_app, ?to_le_bytes_length; split.
  - intros (b & (l & Hl & [-> ?]%checked_encoded_add_Ok)%rbind_Ok & -> & Hn).
    apply encoded_metadata_len_iff in Hl as (Hm & -> & Hl); [|done].
    split_and!; [done|lia|lia].
  - intros (Hm & -> & Hn). exists (4 + lenN (encode_metadata headers)). split; [|lia].
    rewrite (proj2 (encoded_metadata_len_iff headers (lenN (encode_metadata headers)) Ht)) by (split_and!; [done|done|lia]).
    cbn [rbind]. apply checked_encoded_add_fits. lia.
  - intros (b & [= <-] & -> & Hn). split_and!; [done|lia|lia].
  - intros (_ & -> & Hn). eexists. split; [done|lia].
  - rewrite encoded_varint_len_exact.
    intros (b & (l1 & [-> ?]%checked_encoded_add_Ok & (l2 & [-> ?]%checked_encoded_add_Ok &
      (l3 & Hl & [-> ?]%checked_encoded_add_Ok)%rbind_Ok)%rbind_Ok)%rbind_Ok & -> & Hn).
    apply encoded_metadata_len_iff in Hl as (Hm & -> & Hl); [|done].
    split_and!; [done|lia|lia].
  - intros (Hm & -> & Hn). rewrite encoded_varint_len_exact.
    eexists. split; [|shelve]. rewrite checked_encoded_add_fits by lia. cbn [rbind].
    rewrite checked_encoded_add_fits by lia. cbn [rbind].
    rewrite (proj2 (encoded_metadata_len_iff (trailer_metadata trailer) (lenN (encode_metadata (trailer_metadata trailer))) Ht))
      by (split_and!; [done|done|lia]).
    cbn [rbind]. apply checked_encoded_add_fits. lia. Unshelve. split; lia.
  - intros (b & [= <-] & -> & Hn). split_and!; [done|lia|lia].
  - intros (_ & -> & Hn). eexists. split; [done|lia].
  - intros (b & [= <-] & -> & Hn). split_and!; [done|lia|lia].
  - intros (_ & -> & Hn). eexists. split; [done|lia].
Qed.

(** The length a sender computes before it allocates is the length of what it
    writes, and it is refused exactly for the frames a receiver would refuse: a
    frame passes [encoded_frame_len] when and only when it decodes back. *)
Theorem frame_len_exact frame n :
  frame_typed frame = true -> forallb entry_text (frame_metadata frame) = true ->
  encoded_frame_len frame = Ok n <->
  decode_frame (encode_frame frame) = Ok frame /\ n = lenN (encode_frame frame).
Proof.
  intros Htyped Ht. rewrite decode_frame_iff, encoded_frame_len_iff by done. unfold frame_ok.
  rewrite Htyped. cbn [andb]. rewrite andb_true_iff, N.leb_le. split; [intros (? & -> & ?)|intros [[[? ?] _] ->]]; done.
Qed.

Lemma frame_len_exact_witness :
  let frame := Frame_End WireCode_Ok (mk_Trailer WireCode_Ok [] [([], Text [])]) in
  encoded_frame_len frame = Ok 7.
Proof.
  apply frame_len_exact; [vm_compute; reflexivity|vm_compute; reflexivity|]. split; vm_compute; reflexivity.
Defined.
