(* ===== verification/Mux.v ===== *)
(** * The stream multiplexer (crates/wire/src/mux/slot.rs, mux/state.rs)

    The sans-I/O state machine that carries many streams over one byte pipe:
    slots recycled under generations, credit per stream, a bounded queue per
    slot and the deferred release of a slot whose last frame was emitted.  The
    clock is an argument of the operations that read it.  An operation returns
    the multiplexer it leaves and its result. *)

From S2P Require Import Prelude Xet XetChunk Canonical Primitive Errors Context Auth Objects Registry.
From S2P Require Import View Store Terms Work PaidWork JobBook JobInput Cbor Frame.

#[local] Open Scope N_scope.

(* [crates/wire/src/mux/slot.rs:8-8] SlotIndex *)
Definition SlotIndex : Type := N.
Definition Instant : Type := N.

(* [crates/wire/src/mux/slot.rs:15-15] SLOT_QUEUE_CAP *)
Definition SLOT_QUEUE_CAP : N := 4.
(* [crates/wire/src/mux/mod.rs:32-32] DEFAULT_STREAM_WINDOW *)
Definition DEFAULT_STREAM_WINDOW : N := 1024 * 1024.

(* [crates/wire/src/mux/slot.rs:21-24] Role *)
Inductive Role := Client | Server.

#[export] Instance Role_eq_dec : EqDecision Role.
Proof. solve_decision. Defined.

(* [crates/wire/src/mux/slot.rs:27-32] Role::parity *)
Definition parity (self : Role) : N := match self with Client => 0 | Server => 1 end.

(* [crates/wire/src/mux/slot.rs:34-36] Role::owns_slot *)
Definition owns_slot (self : Role) (idx : SlotIndex) : bool := N.land idx 1 =? parity self.

(* [crates/wire/src/mux/slot.rs:43-52] SlotState *)
Inductive SlotState := SlotOpen | HalfClosedLocal | HalfClosedRemote | SlotIsClosed.

(* [crates/wire/src/mux/slot.rs:54-82] StreamSlot *)
Record StreamSlot := mk_StreamSlot {
  generation : N;
  slot_method_id : N;
  opened_at : Instant;
  deadline : option Instant;
  peer_recv_credit : N;
  local_recv_credit : N;
  local_credit_high_water : N;
  send_queue : list Frame;
  peer_terminal : bool;
  local_terminal : bool;
}.

(* [crates/wire/src/mux/slot.rs:88-101] StreamSlot::open *)
Definition StreamSlot_open (method_id : N) (opened_at : Instant) (stream_window : N) : StreamSlot :=
  mk_StreamSlot 0 method_id opened_at None stream_window stream_window stream_window [] false false.

(* [crates/wire/src/mux/slot.rs:104-111] StreamSlot::state *)
Definition slot_state (self : StreamSlot) : SlotState :=
  match local_terminal self, peer_terminal self with
  | false, false => SlotOpen
  | true, false => HalfClosedLocal
  | false, true => HalfClosedRemote
  | true, true => SlotIsClosed
  end.

(* [crates/wire/src/mux/slot.rs:113-115] StreamSlot::is_closed *)
Definition is_closed (self : StreamSlot) : bool := peer_terminal self && local_terminal self.

Definition with_generation (s : StreamSlot) (g : N) : StreamSlot :=
  mk_StreamSlot g (slot_method_id s) (opened_at s) (deadline s) (peer_recv_credit s)
    (local_recv_credit s) (local_credit_high_water s) (send_queue s) (peer_terminal s) (local_terminal s).
Definition with_peer_credit (s : StreamSlot) (c : N) : StreamSlot :=
  mk_StreamSlot (generation s) (slot_method_id s) (opened_at s) (deadline s) c
    (local_recv_credit s) (local_credit_high_water s) (send_queue s) (peer_terminal s) (local_terminal s).
Definition with_local_credit (s : StreamSlot) (c : N) : StreamSlot :=
  mk_StreamSlot (generation s) (slot_method_id s) (opened_at s) (deadline s) (peer_recv_credit s)
    c (local_credit_high_water s) (send_queue s) (peer_terminal s) (local_terminal s).
Definition with_queue (s : StreamSlot) (q : list Frame) : StreamSlot :=
  mk_StreamSlot (generation s) (slot_method_id s) (opened_at s) (deadline s) (peer_recv_credit s)
    (local_recv_credit s) (local_credit_high_water s) q (peer_terminal s) (local_terminal s).
Definition with_terminal (s : StreamSlot) (peer local : bool) : StreamSlot :=
  mk_StreamSlot (generation s) (slot_method_id s) (opened_at s) (deadline s) (peer_recv_credit s)
    (local_recv_credit s) (local_credit_high_water s) (send_queue s) peer local.

(* [crates/wire/src/mux/state.rs:31-54] Event *)
Inductive Event :=
  | NewIncomingStream (slot : SlotIndex) (method_id : N) (headers : Metadata)
  | BodyChunk (slot : SlotIndex) (payload : bytes)
  | EndStream (slot : SlotIndex) (trailer : Trailer)
  | ResetStream (slot : SlotIndex) (code : WireCode)
  | PeerCredit (slot : SlotIndex) (additional_bytes : N).

(* [crates/wire/src/mux/state.rs:57-68] MuxError *)
Inductive MuxError :=
  | AtCapacity
  | SlotClosed (idx : SlotIndex)
  | BodyTooLarge (len limit : N)
  | MuxError_Frame (e : FrameError)
  | Protocol (what : string).

(* [crates/wire/src/mux/state.rs:76-79] SendBodyOutcome *)
Inductive SendBodyOutcome := Accepted | Blocked (payload : bytes).

(** [N] of the source is the length of [streams]; the sizes that fit the
    sixteen bits of a stream id are assumed where it matters. *)
(* [crates/wire/src/mux/state.rs:81-107] Multiplexer *)
Record Multiplexer := mk_Multiplexer {
  streams : list (option StreamSlot);
  free_mask : list N;
  role : Role;
  pending_write : option bytes;
  pending_terminal_free : list SlotIndex;
  rr : N;
  stream_window : N;
}.

Definition with_streams (m : Multiplexer) v : Multiplexer :=
  mk_Multiplexer v (free_mask m) (role m) (pending_write m) (pending_terminal_free m) (rr m) (stream_window m).
Definition with_mask (m : Multiplexer) v : Multiplexer :=
  mk_Multiplexer (streams m) v (role m) (pending_write m) (pending_terminal_free m) (rr m) (stream_window m).
Definition with_write (m : Multiplexer) v : Multiplexer :=
  mk_Multiplexer (streams m) (free_mask m) (role m) v (pending_terminal_free m) (rr m) (stream_window m).
Definition with_deferred (m : Multiplexer) v : Multiplexer :=
  mk_Multiplexer (streams m) (free_mask m) (role m) (pending_write m) v (rr m) (stream_window m).
Definition with_rr (m : Multiplexer) v : Multiplexer :=
  mk_Multiplexer (streams m) (free_mask m) (role m) (pending_write m) (pending_terminal_free m) v (stream_window m).

(** ** The free mask *)

Definition set_bit (mask : list N) (idx : N) : list N :=
  alter (fun word => N.lor word (N.shiftl 1 (idx mod 64))) (N.to_nat (idx / 64)) mask.
Definition clear_bit (mask : list N) (idx : N) : list N :=
  alter (fun word => N.ldiff word (N.shiftl 1 (idx mod 64))) (N.to_nat (idx / 64)) mask.

Fixpoint ctz (p : positive) : N :=
  match p with xO p => 1 + ctz p | _ => 0 end.
(** [u64::trailing_zeros]. *)
Definition trailing_zeros (word : N) : N := match word with 0 => 64 | Npos p => ctz p end.

Definition range (n : N) : list N := map N.of_nat (seq 0 (N.to_nat n)).

(* [crates/wire/src/mux/state.rs:117-137] Multiplexer::new *)
Definition new (n : N) (role : Role) (stream_window : N) : Multiplexer :=
  mk_Multiplexer (repeat None (N.to_nat n))
    (fold_left (fun mask i => if owns_slot role i then set_bit mask i else mask)
       (range (n mod 65536)) (repeat 0 (N.to_nat ((n + 63) / 64))))
    role None [] 0 stream_window.

Fixpoint lowest_word (word_idx : N) (mask : list N) : option SlotIndex :=
  match mask with
  | [] => None
  | word :: mask =>
      if negb (word =? 0) then Some (word_idx * 64 + trailing_zeros word)
      else lowest_word (word_idx + 1) mask
  end.
(* [crates/wire/src/mux/state.rs:158-166] Multiplexer::lowest_free *)
Definition lowest_free (self : Multiplexer) : option SlotIndex := lowest_word 0 (free_mask self).

(* [crates/wire/src/mux/state.rs:168-172] Multiplexer::mark_used *)
Definition mark_used (self : Multiplexer) (idx : SlotIndex) : Multiplexer :=
  with_mask self (clear_bit (free_mask self) idx).

(* [crates/wire/src/mux/state.rs:174-182] Multiplexer::mark_free *)
Definition mark_free (self : Multiplexer) (idx : SlotIndex) : Multiplexer :=
  if owns_slot (role self) idx then with_mask self (set_bit (free_mask self) idx) else self.

(* [crates/wire/src/mux/state.rs:184-186] Multiplexer::slot *)
Definition slot (self : Multiplexer) (idx : SlotIndex) : option StreamSlot :=
  mjoin (streams self !! N.to_nat idx).

Definition set_slot (self : Multiplexer) (idx : SlotIndex) (s : StreamSlot) : Multiplexer :=
  with_streams self (<[N.to_nat idx := Some s]> (streams self)).

(* [crates/wire/src/mux/state.rs:154-156] Multiplexer::generation *)
Definition mux_generation (self : Multiplexer) (idx : SlotIndex) : option N :=
  generation <$> slot self idx.

(** ** Releasing slots *)

(* [crates/wire/src/mux/state.rs:444-456] Multiplexer::maybe_free_slot *)
Definition maybe_free_slot (self : Multiplexer) (idx : SlotIndex) : Multiplexer * bool :=
  match slot self idx with
  | None => (self, false)
  | Some s =>
      if negb (peer_terminal s && local_terminal s) then (self, false) else
      match send_queue s with
      | _ :: _ => (self, false)
      | [] => (mark_free self idx, true)
      end
  end.

Definition drain_step (self : Multiplexer) (idx : SlotIndex) : Multiplexer :=
  let '(self, freed) := maybe_free_slot self idx in
  if freed then self else with_deferred self (pending_terminal_free self ++ [idx]).
(* [crates/wire/src/mux/state.rs:423-433] Multiplexer::drain_pending_terminal_free *)
Definition drain_pending_terminal_free (self : Multiplexer) : Multiplexer :=
  fold_left drain_step (pending_terminal_free self) (with_deferred self []).

(* [crates/wire/src/mux/state.rs:402-412] Multiplexer::clean_up_after_remote_free *)
Definition clean_up_after_remote_free (self : Multiplexer) (idx : SlotIndex) : Multiplexer :=
  let self := with_deferred self (List.filter (fun i => negb (i =? idx)) (pending_terminal_free self)) in
  match pending_write self with
  | Some bs =>
      if (4 <=? lenN bs) && (from_be_bytes (take 2 bs) =? idx) then with_write self None else self
  | None => self
  end.

(** ** Local actions *)

(* [crates/wire/src/mux/state.rs:195-222] Multiplexer::open *)
Definition open (self : Multiplexer) (now : Instant) (method_id : N) (headers : Metadata)
    : Multiplexer * result SlotIndex MuxError :=
  let self := drain_pending_terminal_free self in
  match lowest_free self with
  | None => (self, Err AtCapacity)
  | Some idx =>
      let prev_gen := default 0 (generation <$> slot self idx) in
      let next_gen := (prev_gen + 1) mod 65536 in
      let s := StreamSlot_open method_id now (stream_window self) in
      let s := with_generation s next_gen in
      let s := with_queue s (send_queue s ++ [Frame_Open method_id headers]) in
      (mark_used (set_slot self idx s) idx, Ok idx)
  end.

Definition is_body (f : Frame) : bool := match f with Frame_Body _ => true | _ => false end.

(* [crates/wire/src/mux/state.rs:229-261] Multiplexer::try_send_body *)
Definition try_send_body (self : Multiplexer) (idx : SlotIndex) (payload : bytes)
    : Multiplexer * result SendBodyOutcome MuxError :=
  if stream_window self <? lenN payload
  then (self, Err (BodyTooLarge (lenN payload) (stream_window self))) else
  match slot self idx with
  | None => (self, Err (Protocol "send on empty slot"))
  | Some s =>
      if local_terminal s then (self, Err (SlotClosed idx)) else
      if peer_recv_credit s <? lenN payload then (self, Ok (Blocked payload)) else
      if existsb is_body (send_queue s) then (self, Ok (Blocked payload)) else
      if SLOT_QUEUE_CAP <=? lenN (send_queue s) then (self, Err (Protocol "send queue full")) else
      let s := with_peer_credit s (peer_recv_credit s - lenN payload) in
      let s := with_queue s (send_queue s ++ [Frame_Body payload]) in
      (set_slot self idx s, Ok Accepted)
  end.

(* [crates/wire/src/mux/state.rs:264-284] Multiplexer::close_send *)
Definition close_send (self : Multiplexer) (idx : SlotIndex) (trailer : option Trailer)
    : Multiplexer * result unit MuxError :=
  match slot self idx with
  | None => (self, Err (Protocol "close on empty slot"))
  | Some s =>
      if local_terminal s then (self, Ok tt) else
      if SLOT_QUEUE_CAP <=? lenN (send_queue s) then (self, Err (Protocol "close while queue full")) else
      let trailer := default Trailer_default trailer in
      let frame := Frame_End (trailer_status trailer) trailer in
      let s := with_terminal s (peer_terminal s) true in
      (set_slot self idx (with_queue s (send_queue s ++ [frame])), Ok tt)
  end.

(* [crates/wire/src/mux/state.rs:287-302] Multiplexer::reset *)
Definition reset (self : Multiplexer) (idx : SlotIndex) (code : WireCode) : Multiplexer :=
  match slot self idx with
  | None => self
  | Some s =>
      if local_terminal s && peer_terminal s then self else
      set_slot self idx (with_queue (with_terminal s true true) [Frame_Reset code])
  end.

Definition u32_saturating_add (a b : N) : N := N.min (a + b) 4294967295.

(** The first [Credit] of the queue, raised in place. *)
Fixpoint raise_credit (queue : list Frame) (n : N) : option (list Frame) :=
  match queue with
  | [] => None
  | Frame_Credit c :: queue => Some (Frame_Credit (u32_saturating_add c n) :: queue)
  | frame :: queue => cons frame <$> raise_credit queue n
  end.

(* [crates/wire/src/mux/state.rs:310-339] Multiplexer::consume *)
Definition consume (self : Multiplexer) (idx : SlotIndex) (n : N) : Multiplexer * result unit MuxError :=
  if n =? 0 then (self, Ok tt) else
  match slot self idx with
  | None => (self, Ok tt)
  | Some s =>
      if peer_terminal s then (self, Ok tt) else
      let available := local_credit_high_water s - local_recv_credit s in
      if available <? n then (self, Err (Protocol "consumed more body bytes than received")) else
      let s := with_local_credit s (local_recv_credit s + n) in
      let queue := default (Frame_Credit n :: send_queue s) (raise_credit (send_queue s) n) in
      (set_slot self idx (with_queue s queue), Ok tt)
  end.

(** ** The I/O surface *)

Definition is_terminal (f : Frame) : bool :=
  match f with Frame_End _ _ | Frame_Reset _ => true | _ => false end.

(** What [next_outbound] does with a popped frame. *)
(* [crates/wire/src/mux/state.rs:363-385] Multiplexer::next_outbound *)
Definition emit (self : Multiplexer) (idx : SlotIndex) (s : StreamSlot) (frame : Frame) (queue : list Frame)
    : Multiplexer * bytes :=
  let self := set_slot self idx (with_queue s queue) in
  let both_terminal := local_terminal s && peer_terminal s in
  let bs := encode_keyed_frame (mk_StreamKey idx (generation s)) frame in
  let needs_defer := is_terminal frame || (both_terminal && match queue with [] => true | _ => false end) in
  if needs_defer && negb (existsb (N.eqb idx) (pending_terminal_free self))
  then (with_deferred self (pending_terminal_free self ++ [idx]), bs) else (self, bs).

(* [crates/wire/src/mux/state.rs:356-388] Multiplexer::next_outbound *)
Fixpoint scan (rounds : nat) (self : Multiplexer) : Multiplexer * option bytes :=
  match rounds with
  | O => (self, None)
  | S rounds =>
      let idx := rr self in
      let self := with_rr self ((rr self + 1) mod N.of_nat (length (streams self))) in
      match slot self idx with
      | None => scan rounds self
      | Some s =>
          match send_queue s with
          | [] => scan rounds self
          | frame :: queue => let '(self, bs) := emit self idx s frame queue in (self, Some bs)
          end
      end
  end.

(* [crates/wire/src/mux/state.rs:347-389] Multiplexer::next_outbound *)
Definition next_outbound (self : Multiplexer) : Multiplexer * option bytes :=
  match pending_write self with
  | Some pending => (with_write self None, Some pending)
  | None =>
      let self := drain_pending_terminal_free self in
      scan (length (streams self)) self
  end.

(** The slot and the events of a frame that is not an [Open] and is not stale;
    the length of a payload is its [u32] cast. *)
(* [crates/wire/src/mux/state.rs:525-584] Multiplexer::recv *)
Definition apply_frame (idx : SlotIndex) (s : StreamSlot) (frame : Frame) : StreamSlot * list Event :=
  match frame with
  | Frame_Open _ _ => (s, [])
  | Frame_Body payload =>
      let n := lenN payload mod 4294967296 in
      if local_recv_credit s <? n
      then (with_queue (with_terminal s true true) [Frame_Reset ResourceExhausted],
            [ResetStream idx ResourceExhausted])
      else (with_local_credit s (local_recv_credit s - n), [BodyChunk idx payload])
  | Frame_End _ trailer => (with_terminal s true (local_terminal s), [EndStream idx trailer])
  | Frame_Reset code => (with_queue (with_terminal s true true) [], [ResetStream idx code])
  | Frame_Credit n =>
      (with_peer_credit s (u32_saturating_add (peer_recv_credit s) n), [PeerCredit idx n])
  end.

(** What follows the slot's own change: a terminal frame may free the slot. *)
Definition release (self : Multiplexer) (idx : SlotIndex) (frame : Frame) : Multiplexer :=
  match frame with
  | Frame_End _ _ =>
      let '(self, freed) := maybe_free_slot self idx in
      if freed then clean_up_after_remote_free self idx else self
  | Frame_Reset _ => clean_up_after_remote_free (maybe_free_slot self idx).1 idx
  | _ => self
  end.

Definition late_ok (frame : Frame) : bool :=
  match frame with Frame_Credit _ | Frame_Reset _ => true | _ => false end.

(* [crates/wire/src/mux/state.rs:471-507] Multiplexer::recv *)
Definition recv_open (self : Multiplexer) (now : Instant) (key : StreamKey) (method_id : N) (headers : Metadata)
    : Multiplexer * result (list Event) MuxError :=
  let idx := stream_id key in
  if owns_slot (role self) idx
  then (self, Err (Protocol "peer opened a slot owned by our parity")) else
  let checked :=
    match slot self idx with
    | Some existing =>
        if negb (is_closed existing) then Err (Protocol "peer re-opened active slot") else
        if key_generation key =? generation existing
        then Err (Protocol "peer reused slot without bumping generation") else Ok tt
    | None => Ok tt
    end in
  match checked with
  | Err e => (self, Err e)
  | Ok _ =>
      let s := StreamSlot_open method_id now (stream_window self) in
      let self := set_slot self idx (with_generation s (key_generation key)) in
      (clean_up_after_remote_free self idx, Ok [NewIncomingStream idx method_id headers])
  end.

(** A frame that is dropped: no such stream, another generation, or a half that
    is over. *)
(* [crates/wire/src/mux/state.rs:510-523] Multiplexer::recv *)
Definition live_slot (self : Multiplexer) (key : StreamKey) (frame : Frame) : option StreamSlot :=
  match slot self (stream_id key) with
  | None => None
  | Some s =>
      if negb (generation s =? key_generation key) then None else
      if peer_terminal s && (local_terminal s || negb (late_ok frame)) then None else Some s
  end.

(* [crates/wire/src/mux/state.rs:461-586] Multiplexer::recv *)
Definition recv (self : Multiplexer) (now : Instant) (bs : bytes)
    : Multiplexer * result (list Event) MuxError :=
  match decode_keyed_frame bs with
  | Err e => (self, Err (MuxError_Frame e))
  | Ok (mk_KeyedFrame key frame) =>
      let idx := stream_id key in
      if N.of_nat (length (streams self)) <=? idx
      then (self, Err (Protocol "stream id out of range")) else
      match frame with
      | Frame_Open method_id headers => recv_open self now key method_id headers
      | _ =>
          match live_slot self key frame with
          | None => (self, Ok [])
          | Some s =>
              let '(s, events) := apply_frame idx s frame in
              (release (set_slot self idx s) idx frame, Ok events)
          end
      end
  end.
