(* ===== verification/MuxOk.v ===== *)
(** * The multiplexer's own invariant (crates/wire/src/mux/state.rs)

    What holds of one multiplexer whatever its application does and whatever
    bytes the peer sends: indices stay in range, queues stay within their four
    places, credit never underflows, and a stream that is over with nothing left
    to send is either free or about to be freed. *)

From S2P Require Import Prelude Xet XetChunk Canonical Primitive Errors Context Auth Objects Registry.
From S2P Require Import View Store Terms Work PaidWork JobBook JobInput Cbor Frame Mux.

#[local] Open Scope N_scope.

(** ** The free mask as a set *)

Definition bit_at (mask : list N) (i : N) : bool :=
  N.testbit (default 0 (mask !! N.to_nat (i / 64))) (i mod 64).
Definition word_ok (word : N) : Prop := forall b, 64 <= b -> N.testbit word b = false.
Definition is_free (m : Multiplexer) (i : SlotIndex) : bool := bit_at (free_mask m) i.

Lemma shiftl_1_spec a b : N.testbit (N.shiftl 1 a) b = (a =? b).
Proof.
  destruct (N.eqb_spec a b) as [->|Hne].
  - rewrite N.shiftl_spec_high' by lia. by rewrite N.sub_diag.
  - destruct (N.lt_trichotomy a b) as [Hl|[?|Hl]]; [|done|by apply N.shiftl_spec_low].
    rewrite N.shiftl_spec_high' by lia. apply N.bits_above_log2. cbn. lia.
Qed.

Lemma index_split i j : (i =? j) = (i / 64 =? j / 64) && (i mod 64 =? j mod 64).
Proof.
  destruct (N.eqb_spec i j) as [->|Hne]; [by rewrite !N.eqb_refl|].
  destruct (N.eqb_spec (i / 64) (j / 64)) as [Hd|]; [|done].
  destruct (N.eqb_spec (i mod 64) (j mod 64)) as [Hm|]; [|done].
  pose proof (N.div_mod i 64 ltac:(done)). pose proof (N.div_mod j 64 ltac:(done)). congruence.
Qed.

Lemma bit_at_alter (f : N -> N) mask i j :
  bit_at (alter f (N.to_nat (i / 64)) mask) j =
  if i / 64 =? j / 64 then
    match mask !! N.to_nat (j / 64) with Some w => N.testbit (f w) (j mod 64) | None => false end
  else bit_at mask j.
Proof.
  unfold bit_at. destruct (N.eqb_spec (i / 64) (j / 64)) as [->|Hne].
  - rewrite list_lookup_alter, decide_True by done. destruct (_ !! _); [done|]. apply N.bits_0.
  - rewrite list_lookup_alter, decide_False by lia. done.
Qed.

Lemma bit_at_set mask i j :
  i / 64 < lenN mask -> bit_at (set_bit mask i) j = (i =? j) || bit_at mask j.
Proof.
  intros Hi. unfold set_bit. rewrite bit_at_alter, (index_split i j). unfold bit_at.
  destruct (N.eqb_spec (i / 64) (j / 64)) as [He|]; [|done]. rewrite He in Hi.
  destruct (mask !! N.to_nat (j / 64)) as [w|] eqn:E; [|apply lookup_ge_None in E; lia].
  cbn [default]. rewrite N.lor_spec, shiftl_1_spec. cbn. apply orb_comm.
Qed.

Lemma bit_at_clear mask i j : bit_at (clear_bit mask i) j = negb (i =? j) && bit_at mask j.
Proof.
  unfold clear_bit. rewrite bit_at_alter, (index_split i j). unfold bit_at.
  destruct (N.eqb_spec (i / 64) (j / 64)) as [He|]; [|done].
  destruct (mask !! N.to_nat (j / 64)) as [w|] eqn:E; cbn [default].
  - rewrite N.ldiff_spec, shiftl_1_spec. cbn. apply andb_comm.
  - by rewrite N.bits_0, andb_false_r.
Qed.

Lemma word_in_range i n : i < n -> i / 64 < (n + 63) / 64.
Proof.
  intros Hi. apply N.Div0.div_lt_upper_bound.
  pose proof (N.div_mod (n + 63) 64 ltac:(done)). pose proof (N.mod_lt (n + 63) 64 ltac:(done)). lia.
Qed.

Lemma words_alter f mask k :
  (forall w, word_ok w -> word_ok (f w)) -> Forall word_ok mask -> Forall word_ok (alter f k mask).
Proof.
  intros Hf Hm. apply Forall_alter; [done|]. intros w Hw _. apply Hf. 
  eapply Forall_forall; [exact Hm|]. by eapply list_elem_of_lookup_2.
Qed.

Lemma words_set mask i : Forall word_ok mask -> Forall word_ok (set_bit mask i).
Proof.
  apply words_alter. intros w Hw b Hb. rewrite N.lor_spec, Hw, shiftl_1_spec by done.
  cbn. apply N.eqb_neq. pose proof (N.mod_lt i 64 ltac:(done)). lia.
Qed.

Lemma words_clear mask i : Forall word_ok mask -> Forall word_ok (clear_bit mask i).
Proof. apply words_alter. intros w Hw b Hb. by rewrite N.ldiff_spec, Hw. Qed.

Lemma trailing_zeros_bit w : w <> 0 -> N.testbit w (trailing_zeros w) = true.
Proof.
  destruct w as [|p]; [done|]. intros _. cbn [trailing_zeros].
  induction p as [p IH|p IH|]; cbn [ctz]; [done| |done].
  change (N.pos p~0) with (2 * N.pos p). rewrite N.add_comm, N.add_1_r, N.testbit_even_succ by lia. done.
Qed.

Lemma lowest_word_bit k mask i :
  Forall word_ok mask -> lowest_word k mask = Some i ->
  exists j, i = k * 64 + j /\ bit_at mask j = true.
Proof.
  revert k. induction mask as [|w mask IH]; intros k Hm; [done|]. cbn [lowest_word].
  inversion Hm as [|? ? Hw Hm']; subst. destruct (N.eqb_spec w 0) as [->|Hne]; cbn [negb].
  - intros (j & -> & Hj)%IH; [|done]. exists (64 + j). split; [lia|]. unfold bit_at in *.
    replace (64 + j) with (j + 1 * 64) by lia. rewrite N.div_add, N.Div0.mod_add by done.
    replace (N.to_nat (j / 64 + 1)) with (S (N.to_nat (j / 64))) by lia. done.
  - intros [= <-]. exists (trailing_zeros w). split; [done|]. pose proof (trailing_zeros_bit w Hne) as Hb.
    assert (trailing_zeros w < 64) as Hl.
    { destruct (N.lt_ge_cases (trailing_zeros w) 64) as [|Hge]; [done|]. by rewrite Hw in Hb. }
    unfold bit_at. by rewrite N.div_small, N.mod_small.
Qed.

Lemma lowest_free_bit m i :
  Forall word_ok (free_mask m) -> lowest_free m = Some i -> is_free m i = true.
Proof. intros Hm (j & -> & Hj)%lowest_word_bit; [exact Hj|done]. Qed.

(** ** Slots *)

Definition kinds (queue : list Frame) : list FrameKind := map Frame_kind queue.

(** A queue holds at most one frame of each kind; a [Reset] is alone, and behind
    a terminal frame the local half is over. *)
Record queue_ok (s : StreamSlot) : Prop := mk_queue_ok {
  queue_once : NoDup (kinds (send_queue s));
  queue_end : Kind_End ∈ kinds (send_queue s) -> local_terminal s = true;
  queue_reset : Kind_Reset ∈ kinds (send_queue s) -> is_closed s = true /\ lenN (send_queue s) = 1;
  queue_frames : Forall (fun f => frame_ok f = true) (send_queue s);
}.

Record slot_ok (W : N) (s : StreamSlot) : Prop := mk_slot_ok {
  slot_generation_ok : generation s <= 65535;
  slot_high_water : local_credit_high_water s = W;
  slot_credit : local_recv_credit s <= W;
  slot_queue : queue_ok s;
}.

Lemma queue_cap s : queue_ok s -> lenN (send_queue s) <= SLOT_QUEUE_CAP.
Proof.
  intros [Hd _ Hr _]. unfold SLOT_QUEUE_CAP.
  destruct (decide (Kind_Reset ∈ kinds (send_queue s))) as [[_ ->]%Hr|Hn]; [done|].
  assert (length (kinds (send_queue s)) <= length [Kind_Open; Kind_Body; Kind_End; Kind_Credit])%nat as Hl.
  { apply NoDup_incl_length; [by apply NoDup_ListNoDup|]. intros k Hk%list_elem_of_In.
    destruct k; cbn; auto. done. }
  unfold kinds in Hl. rewrite length_map in Hl. cbn in Hl. lia.
Qed.

(** Before the local half is over there is room for two more frames. *)
Lemma queue_room s :
  queue_ok s -> local_terminal s = false -> lenN (send_queue s) < SLOT_QUEUE_CAP.
Proof.
  intros [Hd He Hr _] Hlt. unfold SLOT_QUEUE_CAP.
  assert (length (kinds (send_queue s)) <= length [Kind_Open; Kind_Body; Kind_Credit])%nat as Hl.
  { apply NoDup_incl_length; [by apply NoDup_ListNoDup|]. intros k Hk%list_elem_of_In.
    destruct k; cbn; auto; exfalso; [by rewrite He in Hlt|].
    apply Hr in Hk as [Hc _]. unfold is_closed in Hc. by rewrite Hlt, andb_false_r in Hc. }
  unfold kinds in Hl. rewrite length_map in Hl. cbn in Hl. lia.
Qed.

Lemma is_body_kinds queue : existsb is_body queue = false -> Kind_Body ∉ kinds queue.
Proof.
  induction queue as [|f queue IH]; cbn; [intros _ H; inversion H|].
  intros [Hf Hq]%orb_false_iff. rewrite not_elem_of_cons. split; [|by apply IH]. by destruct f.
Qed.

Lemma raise_credit_kinds queue n :
  match raise_credit queue n with
  | Some queue' => kinds queue' = kinds queue
  | None => Kind_Credit ∉ kinds queue
  end.
Proof.
  induction queue as [|f queue IH]; [cbn; intros H; inversion H|]. cbn [raise_credit].
  destruct f; cbn [kinds map Frame_kind]; [..|done];
    (destruct (raise_credit queue n); cbn [fmap option_fmap option_map];
      [unfold kinds in *; cbn; by rewrite IH|rewrite not_elem_of_cons; split; [done|exact IH]]).
Qed.

Lemma frame_ok_credit n : n <= 4294967295 -> frame_ok (Frame_Credit n) = true.
Proof.
  intros Hn. unfold frame_ok, frame_typed, u32_ok. rewrite (proj2 (N.leb_le n _)) by done. cbn [andb].
  unfold encode_frame. cbn [length]. by rewrite to_le_bytes_length.
Qed.

Lemma raise_credit_frames queue n queue' :
  Forall (fun f => frame_ok f = true) queue -> raise_credit queue n = Some queue' ->
  Forall (fun f => frame_ok f = true) queue'.
Proof.
  revert queue'. induction queue as [|f queue IH]; intros queue' Hq; [done|].
  inversion Hq as [|? ? Hf Hq']; subst. cbn [raise_credit].
  destruct f as [| | | |c];
    try (intros H; destruct (raise_credit queue n) as [q|]; [|done]; injection H as <-; constructor; [done|by apply IH]).
  intros [= <-]. constructor; [|done]. apply frame_ok_credit. unfold u32_saturating_add. lia.
Qed.

Lemma frame_ok_reset code : frame_ok (Frame_Reset code) = true.
Proof. by destruct code. Qed.

Lemma frame_ok_body payload W :
  lenN payload <= W -> W + 1 <= MAX_FRAME_BYTES -> frame_ok (Frame_Body payload) = true.
Proof.
  intros Hp HW. unfold frame_ok. cbn [frame_typed frame_metadata]. cbn [andb].
  change (metadata_ok []) with true. cbn [andb]. apply N.leb_le. unfold encode_frame. cbn [length]. lia.
Qed.

(** A frame of a kind the queue does not hold, at either end. *)
Lemma queue_push s s' frame :
  queue_ok s -> frame_ok frame = true -> Frame_kind frame ∉ kinds (send_queue s) -> Frame_kind frame <> Kind_Reset ->
  (send_queue s' = send_queue s ++ [frame] \/ send_queue s' = frame :: send_queue s) ->
  local_terminal s' = (local_terminal s || match Frame_kind frame with Kind_End => true | _ => false end) ->
  Kind_Reset ∉ kinds (send_queue s) -> queue_ok s'.
Proof.
  intros [Hd He Hr Hf] Hok Hn Hnr Hq Hlt Hno.
  assert (kinds (send_queue s') ≡ₚ Frame_kind frame :: kinds (send_queue s)) as Hp.
  { destruct Hq as [-> | ->]; unfold kinds; [|done]. rewrite map_app. cbn. by rewrite Permutation_app_comm. }
  split.
  - rewrite Hp. by constructor.
  - rewrite Hp, elem_of_cons, Hlt. intros [<-|Hin]; [apply orb_true_r|]. by rewrite He.
  - rewrite Hp, elem_of_cons. by intros [?|?].
  - destruct Hq as [-> | ->]; [apply Forall_app; split; [done|by constructor]|by constructor].
Qed.

Lemma no_reset s : queue_ok s -> is_closed s = false -> Kind_Reset ∉ kinds (send_queue s).
Proof. intros [_ _ Hr _] Hc [Hc' _]%Hr. congruence. Qed.

(** ** Multiplexers *)

(** [d] is the deferred list: between its two halves [drain_pending_terminal_free]
    holds it outside the multiplexer. *)
Record mux_inv (n W : N) (d : list SlotIndex) (m : Multiplexer) : Prop := mk_mux_inv {
  mux_size : lenN (streams m) = n;
  mux_window : stream_window m = W;
  mux_nothing_stashed : pending_write m = None;
  mux_words : Forall word_ok (free_mask m);
  mux_mask_size : lenN (free_mask m) = (n + 63) / 64;
  mux_slots : forall i s, slot m i = Some s -> slot_ok W s;
  mux_free : forall i, is_free m i = true ->
    i < n /\ owns_slot (role m) i = true /\
    forall s, slot m i = Some s -> is_closed s = true /\ send_queue s = [];
  mux_no_leak : forall i, i < n -> owns_slot (role m) i = true -> is_free m i = false ->
    exists s, slot m i = Some s /\ (is_closed s = true -> send_queue s = [] -> i ∈ d);
}.
Definition mux_ok (n W : N) (m : Multiplexer) : Prop := mux_inv n W (pending_terminal_free m) m.

Lemma slot_set_slot m i s j :
  slot (set_slot m i s) j = if decide (i = j) then (if i <? lenN (streams m) then Some s else None) else slot m j.
Proof.
  unfold slot, set_slot. cbn [streams with_streams]. destruct (decide (i = j)) as [<-|Hne].
  - destruct (N.ltb_spec i (lenN (streams m))) as [Hl|Hl].
    + rewrite list_lookup_insert_eq by lia. done.
    + rewrite lookup_ge_None_2; [done|]. rewrite length_insert. lia.
  - rewrite list_lookup_insert_ne by lia. done.
Qed.

Lemma slot_lt m i s : slot m i = Some s -> i < lenN (streams m).
Proof.
  unfold slot. destruct (streams m !! N.to_nat i) eqn:E; [|done]. apply lookup_lt_Some in E. lia.
Qed.

Lemma slot_set_lt m i s j :
  i < lenN (streams m) -> slot (set_slot m i s) j = if decide (i = j) then Some s else slot m j.
Proof. intros Hi. rewrite slot_set_slot. by rewrite (proj2 (N.ltb_lt _ _)). Qed.

Lemma set_slot_length m i s : length (streams (set_slot m i s)) = length (streams m).
Proof. unfold set_slot. cbn. by rewrite length_insert. Qed.

Lemma open_not_free n W d m i s :
  mux_inv n W d m -> slot m i = Some s -> (is_closed s = true -> send_queue s = [] -> False) -> is_free m i = false.
Proof.
  intros Hm Hs Hc. destruct (is_free m i) eqn:E; [|done]. exfalso.
  destruct (mux_free _ _ _ _ Hm i E) as (_ & _ & Hf). destruct (Hf s Hs). by apply Hc.
Qed.

(** Replacing a slot that is not free. *)
Lemma set_slot_inv n W d d' m i s :
  mux_inv n W d m -> i < n -> is_free m i = false -> slot_ok W s ->
  d ⊆ d' -> (is_closed s = true -> send_queue s = [] -> i ∈ d') ->
  mux_inv n W d' (set_slot m i s).
Proof.
  intros [Hn HW Hp Hw Hms Hs Hf Hl] Hi Hfree Hok Hd Hc. split; try done.
  - by rewrite set_slot_length.
  - intros j t. rewrite slot_set_lt by lia. destruct (decide (i = j)); [by intros [= <-]|apply Hs].
  - intros j Hj. change (is_free (set_slot m i s) j) with (is_free m j) in Hj. rewrite slot_set_lt by lia.
    destruct (decide (i = j)) as [<-|]; [congruence|by apply Hf].
  - intros j Hj Ho Hb. change (is_free (set_slot m i s) j) with (is_free m j) in Hb. rewrite slot_set_lt by lia.
    destruct (decide (i = j)) as [<-|]; [by exists s; split|].
    destruct (Hl j Hj Ho Hb) as (t & Ht & Hin). exists t. split; [done|]. intros ? ?. apply Hd. by apply Hin.
Qed.

(** A free slot is not touched by what follows its closing. *)
Lemma mark_free_inv n W d d' m i s :
  mux_inv n W d m -> slot m i = Some s -> is_closed s = true -> send_queue s = [] ->
  (forall j, j ∈ d -> j = i \/ j ∈ d') -> mux_inv n W d' (mark_free m i).
Proof.
  intros [Hn HW Hp Hw Hms Hs Hf Hl] Hsl Hc Hq Hd. pose proof (slot_lt _ _ _ Hsl) as Hi. rewrite Hn in Hi.
  assert (forall j, i <> j -> j ∈ d -> j ∈ d') as Hd' by (intros j Hne [->|?]%Hd; done).
  unfold mark_free. destruct (owns_slot (role m) i) eqn:Ho; cycle 1.
  { split; try done. intros j Hj Hoj Hb. destruct (Hl j Hj Hoj Hb) as (t & Ht & Hin). exists t. split; [done|].
    intros ? ?. apply Hd'; [congruence|]. by apply Hin. }
  assert (forall j, is_free (with_mask m (set_bit (free_mask m) i)) j = (i =? j) || is_free m j) as Hbit.
  { intros j. apply bit_at_set. rewrite Hms. by apply word_in_range. }
  split; try done.
  - by apply words_set.
  - cbn. unfold set_bit. by rewrite length_alter.
  - intros j. rewrite Hbit. change (slot (with_mask _ _) j) with (slot m j).
    destruct (N.eqb_spec i j) as [<-|]; [|apply Hf]. intros _. split_and!; [done..|]. intros t Ht.
    assert (t = s) as -> by congruence. done.
  - intros j Hj Hoj. rewrite Hbit. change (slot (with_mask _ _) j) with (slot m j).
    destruct (N.eqb_spec i j) as [<-|Hne]; [done|]. intros Hb.
    destruct (Hl j Hj Hoj Hb) as (t & Ht & Hin). exists t. split; [done|]. intros ? ?. apply Hd'; [done|]. by apply Hin.
Qed.

Lemma maybe_free_inv n W d d' m i :
  mux_inv n W d m -> (forall j, j ∈ d -> j = i \/ j ∈ d') -> (maybe_free_slot m i).2 = true ->
  mux_inv n W d' (maybe_free_slot m i).1.
Proof.
  intros Hm Hd. unfold maybe_free_slot. destruct (slot m i) as [s|] eqn:Hs; [|done].
  destruct (peer_terminal s && local_terminal s) eqn:Hc; [|done]. cbn [negb].
  destruct (send_queue s) eqn:Hq; [|done]. intros _. by eapply mark_free_inv.
Qed.

Lemma maybe_free_not m i : (maybe_free_slot m i).2 = false -> (maybe_free_slot m i).1 = m.
Proof.
  unfold maybe_free_slot. destruct (slot m i) as [s|]; [|done]. destruct (negb _); [done|]. by destruct (send_queue s).
Qed.

Lemma with_deferred_inv n W d d' m :
  mux_inv n W d m -> d ⊆ d' -> forall l, mux_inv n W d' (with_deferred m l).
Proof.
  intros [Hn HW Hp Hw Hms Hs Hf Hl] Hd l. split; try done.
  intros j Hj Hoj Hb. destruct (Hl j Hj Hoj Hb) as (t & Ht & Hin). exists t. split; [done|]. intros ? ?. by apply Hd, Hin.
Qed.

(** *** Releasing *)

(** What the release of a slot leaves alone. *)
Definition same_slots (m m' : Multiplexer) : Prop :=
  streams m' = streams m /\ role m' = role m /\ stream_window m' = stream_window m /\ rr m' = rr m.

Lemma same_slots_slot m m' i : same_slots m m' -> slot m' i = slot m i.
Proof. intros (H & _). unfold slot. by rewrite H. Qed.

Lemma same_slots_trans m m' m'' : same_slots m m' -> same_slots m' m'' -> same_slots m m''.
Proof. unfold same_slots. intros (-> & -> & -> & ->) (-> & -> & -> & ->). done. Qed.

Lemma mark_free_same m i : same_slots m (mark_free m i).
Proof. unfold mark_free, same_slots. by destruct (owns_slot (role m) i). Qed.

Lemma maybe_free_same m i : same_slots m (maybe_free_slot m i).1.
Proof.
  unfold maybe_free_slot. destruct (slot m i) as [s|]; [|done]. destruct (negb _); [done|].
  destruct (send_queue s); [|done]. apply mark_free_same.
Qed.

Lemma mark_free_deferred m i : pending_terminal_free (mark_free m i) = pending_terminal_free m.
Proof. unfold mark_free. by destruct (owns_slot _ _). Qed.

Lemma maybe_free_deferred m i :
  pending_terminal_free (maybe_free_slot m i).1 = pending_terminal_free m.
Proof.
  unfold maybe_free_slot. destruct (slot m i) as [s|]; [|done]. destruct (negb _); [done|].
  destruct (send_queue s); [|done]. apply mark_free_deferred.
Qed.

Lemma drain_step_same m i : same_slots m (drain_step m i).
Proof.
  unfold drain_step. pose proof (maybe_free_same m i) as H. destruct (maybe_free_slot m i) as [m' [|]]; done.
Qed.

Lemma drain_fold_same l m : same_slots m (fold_left drain_step l m).
Proof.
  revert m. induction l as [|i l IH]; intros m; [done|]. cbn [fold_left].
  eapply same_slots_trans; [apply (drain_step_same m i)|apply IH].
Qed.

Lemma drain_same m : same_slots m (drain_pending_terminal_free m).
Proof. unfold drain_pending_terminal_free. eapply same_slots_trans; [|apply drain_fold_same]. done. Qed.

Lemma drain_fold_inv n W l m :
  mux_inv n W (pending_terminal_free m ++ l) m -> mux_ok n W (fold_left drain_step l m).
Proof.
  revert m. induction l as [|i l IH]; intros m Hm; cbn [fold_left].
  { by rewrite app_nil_r in Hm. }
  apply IH. unfold drain_step.
  pose proof (maybe_free_inv n W _ (pending_terminal_free m ++ l) m i Hm) as Hf.
  pose proof (maybe_free_not m i) as Hn. pose proof (maybe_free_deferred m i) as Hd.
  destruct (maybe_free_slot m i) as [m' [|]]; cbn [fst snd] in *.
  - rewrite Hd. apply Hf; [|done]. intros j. set_solver.
  - rewrite (Hn eq_refl). eapply with_deferred_inv; [exact Hm|]. cbn [pending_terminal_free with_deferred].
    intros j. set_solver.
Qed.

Lemma drain_ok n W m : mux_ok n W m -> mux_ok n W (drain_pending_terminal_free m).
Proof.
  intros Hm. apply drain_fold_inv. cbn [pending_terminal_free with_deferred app].
  by eapply with_deferred_inv.
Qed.

Lemma clean_up_same m i : same_slots m (clean_up_after_remote_free m i).
Proof.
  unfold clean_up_after_remote_free. cbn [pending_write with_deferred].
  destruct (pending_write m); [|done]. by destruct (_ && _).
Qed.

Lemma clean_up_inv n W d m i :
  mux_inv n W d m -> (forall j, j ∈ d -> j ∈ pending_terminal_free m /\ j <> i) ->
  mux_ok n W (clean_up_after_remote_free m i).
Proof.
  intros Hm Hd. unfold mux_ok, clean_up_after_remote_free. cbn [pending_write with_deferred].
  rewrite (mux_nothing_stashed _ _ _ _ Hm). eapply with_deferred_inv; [exact Hm|].
  intros j [Hj Hne]%Hd. cbn [pending_terminal_free with_deferred].
  apply list_elem_of_In, filter_In. split; [by apply list_elem_of_In|]. apply negb_true_iff. by apply N.eqb_neq.
Qed.

(** ** The operations *)

Inductive Op :=
  | Op_open (now : Instant) (method_id : N) (headers : Metadata)
  | Op_send (idx : SlotIndex) (payload : bytes)
  | Op_close (idx : SlotIndex) (trailer : option Trailer)
  | Op_reset (idx : SlotIndex) (code : WireCode)
  | Op_consume (idx : SlotIndex) (n : N)
  | Op_emit
  | Op_recv (now : Instant) (bs : bytes).

Inductive Outcome :=
  | Out_open (r : result SlotIndex MuxError)
  | Out_send (r : result SendBodyOutcome MuxError)
  | Out_close (r : result unit MuxError)
  | Out_reset
  | Out_consume (r : result unit MuxError)
  | Out_emit (bs : option bytes)
  | Out_recv (r : result (list Event) MuxError).

Definition perform (m : Multiplexer) (op : Op) : Multiplexer * Outcome :=
  match op with
  | Op_open now method_id headers => let '(m, r) := open m now method_id headers in (m, Out_open r)
  | Op_send idx payload => let '(m, r) := try_send_body m idx payload in (m, Out_send r)
  | Op_close idx trailer => let '(m, r) := close_send m idx trailer in (m, Out_close r)
  | Op_reset idx code => (reset m idx code, Out_reset)
  | Op_consume idx n => let '(m, r) := consume m idx n in (m, Out_consume r)
  | Op_emit => let '(m, r) := next_outbound m in (m, Out_emit r)
  | Op_recv now bs => let '(m, r) := recv m now bs in (m, Out_recv r)
  end.

(** What the application hands over is within the wire's limits; what the peer
    sends is not restricted. *)
Definition op_ok (op : Op) : bool :=
  match op with
  | Op_open _ method_id headers => frame_ok (Frame_Open method_id headers)
  | Op_close _ (Some trailer) => frame_ok (Frame_End (trailer_status trailer) trailer)
  | _ => true
  end.

Definition opened (now : Instant) (W : N) (before : option StreamSlot) (method_id : N) (headers : Metadata) : StreamSlot :=
  with_queue (with_generation (StreamSlot_open method_id now W) ((default 0 (generation <$> before) + 1) mod 65536))
    [Frame_Open method_id headers].

Lemma opened_ok now W before method_id headers :
  frame_ok (Frame_Open method_id headers) = true -> slot_ok W (opened now W before method_id headers).
Proof.
  intros Hf. split; cbn.
  - match goal with |- ?a mod 65536 <= _ => pose proof (N.mod_lt a 65536 ltac:(done)) as Hl; revert Hl; generalize (a mod 65536) end.
    intros; lia.
  - done.
  - done.
  - split; cbn; [apply NoDup_singleton|set_solver|set_solver|by constructor].
Qed.

(** Taking a free slot. *)
Lemma take_free_inv n W d m i s :
  mux_inv n W d m -> is_free m i = true -> slot_ok W s -> is_closed s = false ->
  mux_inv n W d (mark_used (set_slot m i s) i).
Proof.
  intros [Hn HW Hp Hw Hms Hs Hf Hl] Hi Hok Hc. destruct (Hf i Hi) as (Hin & Ho & _).
  assert (forall j, slot (mark_used (set_slot m i s) i) j = if decide (i = j) then Some s else slot m j) as Hslot.
  { intros j. apply slot_set_lt. lia. }
  assert (forall j, is_free (mark_used (set_slot m i s) i) j = negb (i =? j) && is_free m j) as Hbit.
  { intros j. apply bit_at_clear. }
  split; try done.
  - change (lenN (streams (set_slot m i s)) = n). by rewrite set_slot_length.
  - by apply words_clear.
  - cbn. unfold clear_bit. by rewrite length_alter.
  - intros j t. rewrite Hslot. destruct (decide (i = j)); [by intros [= <-]|apply Hs].
  - intros j. rewrite Hbit, Hslot. destruct (N.eqb_spec i j) as [|Hne]; [done|]. cbn [negb andb].
    rewrite decide_False by done. apply Hf.
  - intros j Hj Hoj. rewrite Hbit, Hslot. destruct (N.eqb_spec i j) as [<-|Hne]; cbn [negb andb].
    + intros _. rewrite decide_True by done. exists s. split; [done|]. congruence.
    + rewrite decide_False by done. by apply Hl.
Qed.

Lemma open_spec n W m now method_id headers :
  mux_ok n W m -> frame_ok (Frame_Open method_id headers) = true ->
  let '(m', r) := open m now method_id headers in
  mux_ok n W m' /\ role m' = role m /\
  match r with
  | Err e => forall j, slot m' j = slot m j
  | Ok i => i < n /\ owns_slot (role m) i = true /\
      (forall s, slot m i = Some s -> is_closed s = true /\ send_queue s = []) /\
      forall j, slot m' j = if decide (i = j) then Some (opened now W (slot m i) method_id headers) else slot m j
  end.
Proof.
  intros Hm Hf. unfold open. pose proof (drain_ok _ _ _ Hm) as Hd. pose proof (drain_same m) as Hsame.
  destruct (lowest_free _) as [i|] eqn:E; cycle 1.
  { split_and!; [done|apply Hsame|]. intros j. by apply same_slots_slot. }
  apply lowest_free_bit in E; [|apply (mux_words _ _ _ _ Hd)].
  destruct (mux_free _ _ _ _ Hd i E) as (Hi & Ho & Hc). destruct Hsame as (Hst & Hr & Hw & Hrr).
  assert (forall j, slot (drain_pending_terminal_free m) j = slot m j) as Hsl by (intros; unfold slot; by rewrite Hst).
  rewrite Hsl in *. rewrite (mux_window _ _ _ _ Hd). rewrite Hr in Ho.
  split_and!; [|done..|].
  - unfold mux_ok. change (pending_terminal_free (mark_used _ _)) with (pending_terminal_free (drain_pending_terminal_free m)).
    apply take_free_inv; [done..| |done]. by apply (opened_ok now W (slot m i)).
  - intros j. etrans; [apply slot_set_lt; by rewrite (mux_size _ _ _ _ Hd)|]. by rewrite Hsl.
Qed.

(** A slot replaced by an operation of the application: the slot is not free,
    and the replacement still has something to say or to wait for. *)
Lemma replace_ok n W m i s s' :
  mux_ok n W m -> slot m i = Some s -> is_closed s = false -> slot_ok W s' ->
  (is_closed s' = true -> send_queue s' = [] -> False) ->
  mux_ok n W (set_slot m i s') /\ (forall j, slot (set_slot m i s') j = if decide (i = j) then Some s' else slot m j).
Proof.
  intros Hm Hs Hc Hok Hq. pose proof (slot_lt _ _ _ Hs) as Hi.
  split; [|by intros j; apply slot_set_lt]. rewrite (mux_size _ _ _ _ Hm) in Hi.
  eapply set_slot_inv; [exact Hm|done| |done|done|by intros; exfalso; auto].
  eapply open_not_free; [done..|]. congruence.
Qed.

Lemma half_open s : local_terminal s = false -> is_closed s = false.
Proof. unfold is_closed. intros ->. apply andb_false_r. Qed.

Lemma send_spec n W m idx payload :
  mux_ok n W m -> W + 1 <= MAX_FRAME_BYTES ->
  let '(m', r) := try_send_body m idx payload in
  mux_ok n W m' /\ role m' = role m /\ r <> Err (Protocol "send queue full") /\
  match r with
  | Ok Accepted => exists s, slot m idx = Some s /\ local_terminal s = false /\
      lenN payload <= peer_recv_credit s /\
      forall j, slot m' j = if decide (idx = j)
        then Some (with_queue (with_peer_credit s (peer_recv_credit s - lenN payload)) (send_queue s ++ [Frame_Body payload]))
        else slot m j
  | _ => m' = m
  end.
Proof.
  intros Hm HW. unfold try_send_body. rewrite (mux_window _ _ _ _ Hm).
  destruct (N.ltb_spec W (lenN payload)) as [|Hp]; [done|].
  destruct (slot m idx) as [s|] eqn:Hs; [|done]. destruct (local_terminal s) eqn:Hlt; [done|].
  destruct (N.ltb_spec (peer_recv_credit s) (lenN payload)) as [|Hcr]; [done|].
  destruct (existsb is_body (send_queue s)) eqn:Hb; [done|].
  pose proof (mux_slots _ _ _ _ Hm _ _ Hs) as Hok. destruct Hok as [Hg Hh Hl Hq].
  pose proof (queue_room s Hq Hlt) as Hroom.
  rewrite (proj2 (N.leb_gt _ _)) by done. cbn [send_queue with_peer_credit].
  pose proof (half_open s Hlt) as Hc.
  edestruct (replace_ok n W m idx s) as [Hm' Hsl]; [done..| | |split_and!; [exact Hm'|done..|]].
  - split; [done..|]. eapply (queue_push s); [done| | | |by left|cbn; by rewrite orb_false_r|by apply no_reset].
    + exact (frame_ok_body payload W Hp HW).
    + by apply is_body_kinds.
    + done.
  - cbn. by destruct (send_queue s).
  - exists s. split_and!; [done..|]. intros j. by rewrite Hsl.
Qed.

Lemma close_spec n W m idx trailer :
  mux_ok n W m -> op_ok (Op_close idx trailer) = true ->
  let '(m', r) := close_send m idx trailer in
  let t := default Trailer_default trailer in
  mux_ok n W m' /\ role m' = role m /\ r <> Err (Protocol "close while queue full") /\
  (m' = m \/ exists s, r = Ok tt /\ slot m idx = Some s /\ local_terminal s = false /\
    forall j, slot m' j = if decide (idx = j)
      then Some (with_queue (with_terminal s (peer_terminal s) true) (send_queue s ++ [Frame_End (trailer_status t) t]))
      else slot m j).
Proof.
  intros Hm Hop. unfold close_send. destruct (slot m idx) as [s|] eqn:Hs; [|split_and!; [done..|by left]].
  destruct (local_terminal s) eqn:Hlt; [split_and!; [done..|by left]|].
  pose proof (mux_slots _ _ _ _ Hm _ _ Hs) as [Hg Hh Hl Hq]. pose proof (queue_room s Hq Hlt) as Hroom.
  rewrite (proj2 (N.leb_gt _ _)) by done. set (t := default Trailer_default trailer).
  assert (frame_ok (Frame_End (trailer_status t) t) = true) as Hf by (by destruct trailer).
  pose proof (half_open s Hlt) as Hc. cbn [send_queue with_terminal].
  edestruct (replace_ok n W m idx s) as [Hm' Hsl]; [done..| | |split_and!; [exact Hm'|done..|]].
  - split; [done..|]. eapply (queue_push s); [done|exact Hf| |done|by left|cbn; by rewrite orb_true_r|by apply no_reset].
    intros He. apply (queue_end _ Hq) in He. congruence.
  - cbn. by destruct (send_queue s).
  - right. exists s. split_and!; [done..|]. intros j. by rewrite Hsl.
Qed.

Lemma reset_queue_ok s code : queue_ok (with_queue (with_terminal s true true) [Frame_Reset code]).
Proof.
  split; cbn; [apply NoDup_singleton|done|done|]. constructor; [apply frame_ok_reset|done].
Qed.

Lemma reset_spec n W m idx code :
  mux_ok n W m ->
  mux_ok n W (reset m idx code) /\ role (reset m idx code) = role m /\
  (reset m idx code = m \/ exists s, slot m idx = Some s /\ is_closed s = false /\
    forall j, slot (reset m idx code) j = if decide (idx = j)
      then Some (with_queue (with_terminal s true true) [Frame_Reset code]) else slot m j).
Proof.
  intros Hm. unfold reset. destruct (slot m idx) as [s|] eqn:Hs; [|split_and!; [done..|by left]].
  destruct (local_terminal s && peer_terminal s) eqn:Hc; [split_and!; [done..|by left]|].
  rewrite andb_comm in Hc. pose proof (mux_slots _ _ _ _ Hm _ _ Hs) as [Hg Hh Hl Hq].
  edestruct (replace_ok n W m idx s) as [Hm' Hsl]; [done..| | |split_and!; [exact Hm'|done..|]].
  - split; [done..|]. apply reset_queue_ok.
  - done.
  - right. exists s. split_and!; [done..|]. intros j. by rewrite Hsl.
Qed.

(** The queue after [n] more bytes were consumed. *)
Definition credited (s : StreamSlot) (n : N) : StreamSlot :=
  with_queue (with_local_credit s (local_recv_credit s + n))
    (default (Frame_Credit n :: send_queue s) (raise_credit (send_queue s) n)).

Lemma credited_queue s n :
  queue_ok s -> is_closed s = false -> n <= 4294967295 -> queue_ok (credited s n).
Proof.
  intros Hq Hc Hn. unfold credited. pose proof (raise_credit_kinds (send_queue s) n) as Hk.
  destruct (raise_credit (send_queue s) n) as [q|] eqn:E; cbn [default].
  - destruct Hq as [Hd He Hr Hf]. split; cbn [send_queue with_queue local_terminal with_local_credit]; change (id q) with q;
      rewrite ?Hk; [done|done| |by eapply raise_credit_frames].
    intros Hin. destruct (Hr Hin) as [Hc' _]. congruence.
  - apply (queue_push s _ (Frame_Credit n)); [done|by apply frame_ok_credit|done|done|by right| |by apply no_reset].
    cbn. by rewrite orb_false_r.
Qed.

Lemma credited_nonempty s n : send_queue (credited s n) <> [].
Proof.
  unfold credited. cbn. pose proof (raise_credit_kinds (send_queue s) n) as Hk.
  destruct (raise_credit (send_queue s) n) as [q|] eqn:E; cbn; [|done]. intros ->.
  destruct (send_queue s); [done|]. done.
Qed.

Lemma consume_spec n W m idx k :
  mux_ok n W m -> W + 1 <= MAX_FRAME_BYTES ->
  let '(m', r) := consume m idx k in
  mux_ok n W m' /\ role m' = role m /\
  (m' = m \/ exists s, r = Ok tt /\ slot m idx = Some s /\ k <> 0 /\ peer_terminal s = false /\
    local_recv_credit s + k <= W /\
    forall j, slot m' j = if decide (idx = j) then Some (credited s k) else slot m j).
Proof.
  intros Hm HW. unfold consume. destruct (N.eqb_spec k 0) as [|Hk]; [split_and!; [done..|by left]|].
  destruct (slot m idx) as [s|] eqn:Hs; [|split_and!; [done..|by left]].
  destruct (peer_terminal s) eqn:Hpt; [split_and!; [done..|by left]|].
  pose proof (mux_slots _ _ _ _ Hm _ _ Hs) as [Hg Hh Hl Hq]. rewrite Hh.
  destruct (N.ltb_spec (W - local_recv_credit s) k) as [|Hle]; [split_and!; [done..|by left]|].
  assert (is_closed s = false) as Hc by (unfold is_closed; by rewrite Hpt).
  assert (k <= 4294967295) as Hk32 by (unfold MAX_FRAME_BYTES in HW; lia).
  edestruct (replace_ok n W m idx s (credited s k)) as [Hm' Hsl]; [done..| | |split_and!; [exact Hm'|done..|]].
  - split; [done|done|cbn; lia|]. by apply credited_queue.
  - intros _. apply credited_nonempty.
  - right. exists s. split_and!; [done..|lia|]. exact Hsl.
Qed.

Lemma existsb_eqb_elem i l : existsb (N.eqb i) l = true <-> i ∈ l.
Proof.
  rewrite existsb_exists. split.
  - intros (j & Hj & <-%N.eqb_eq). by apply list_elem_of_In.
  - intros Hi. exists i. split; [by apply list_elem_of_In|apply N.eqb_refl].
Qed.

Lemma queue_pop s frame queue : queue_ok s -> send_queue s = frame :: queue -> queue_ok (with_queue s queue).
Proof.
  intros [Hd He Hr Hf] Hq. rewrite Hq in *. cbn [kinds map] in *. apply NoDup_cons in Hd as [_ Hd].
  apply Forall_cons in Hf as [_ Hf]. split; cbn; [done|set_solver| |done].
  intros Hin. destruct (Hr ltac:(set_solver)) as [_ Hl]. cbn in Hl. destruct queue; [cbn in Hin; set_solver|cbn in Hl; lia].
Qed.

Lemma emit_spec n W m i s frame queue :
  mux_ok n W m -> slot m i = Some s -> send_queue s = frame :: queue ->
  let '(m', bs) := emit m i s frame queue in
  mux_ok n W m' /\ role m' = role m /\ bs = encode_keyed_frame (mk_StreamKey i (generation s)) frame /\
  forall j, slot m' j = if decide (i = j) then Some (with_queue s queue) else slot m j.
Proof.
  intros Hm Hs Hq. pose proof (slot_lt _ _ _ Hs) as Hi.
  pose proof (mux_slots _ _ _ _ Hm _ _ Hs) as [Hg Hh Hl Hqo].
  assert (slot_ok W (with_queue s queue)) as Hok by (split; [done..|by eapply queue_pop]).
  assert (is_free m i = false) as Hnf by (eapply open_not_free; [done..|congruence]).
  pose proof (mux_size _ _ _ _ Hm) as Hn. unfold emit. set (m1 := set_slot m i (with_queue s queue)).
  change (pending_terminal_free m1) with (pending_terminal_free m).
  assert (forall j, slot m1 j = if decide (i = j) then Some (with_queue s queue) else slot m j) as Hsl
    by (intros; by apply slot_set_lt).
  destruct (_ && _) eqn:E.
  - split_and!; [|done..]. unfold mux_ok. cbn [pending_terminal_free with_deferred].
    eapply with_deferred_inv; [|done]. eapply set_slot_inv; [exact Hm|lia|done|done|set_solver|set_solver].
  - split_and!; [|done..]. unfold mux_ok. eapply set_slot_inv; [exact Hm|lia|done|done|done|].
    cbn [pending_terminal_free]. unfold is_closed. cbn [with_queue send_queue peer_terminal local_terminal].
    intros [Hp Hlt]%andb_true_iff ->. rewrite Hp, Hlt in E. cbn in E. rewrite orb_true_r in E. cbn in E.
    apply negb_false_iff in E. by apply existsb_eqb_elem.
Qed.

Lemma with_rr_ok n W m r : mux_ok n W m -> mux_ok n W (with_rr m r).
Proof. intros []. by split. Qed.

Lemma scan_spec n W rounds m :
  mux_ok n W m ->
  let '(m', out) := scan rounds m in
  mux_ok n W m' /\ role m' = role m /\
  match out with
  | None => forall j, slot m' j = slot m j
  | Some bs => exists i s frame queue, slot m i = Some s /\ send_queue s = frame :: queue /\
      bs = encode_keyed_frame (mk_StreamKey i (generation s)) frame /\
      forall j, slot m' j = if decide (i = j) then Some (with_queue s queue) else slot m j
  end.
Proof.
  revert m. induction rounds as [|rounds IH]; intros m Hm; [done|]. cbn [scan].
  set (m1 := with_rr m _). assert (mux_ok n W m1) as Hm1 by (by apply with_rr_ok).
  change (slot m1 (rr m)) with (slot m (rr m)). destruct (slot m (rr m)) as [s|] eqn:Hs; [|exact (IH m1 Hm1)].
  destruct (send_queue s) as [|frame queue] eqn:Hq; [exact (IH m1 Hm1)|].
  pose proof (emit_spec n W m1 (rr m) s frame queue Hm1 Hs Hq) as He.
  destruct (emit m1 (rr m) s frame queue) as [m' bs]. destruct He as (Hm' & Hr & -> & Hsl).
  split_and!; [done|done|]. exists (rr m), s, frame, queue. split_and!; done.
Qed.

Lemma next_outbound_spec n W m :
  mux_ok n W m ->
  let '(m', out) := next_outbound m in
  mux_ok n W m' /\ role m' = role m /\
  match out with
  | None => forall j, slot m' j = slot m j
  | Some bs => exists i s frame queue, slot m i = Some s /\ send_queue s = frame :: queue /\
      bs = encode_keyed_frame (mk_StreamKey i (generation s)) frame /\
      forall j, slot m' j = if decide (i = j) then Some (with_queue s queue) else slot m j
  end.
Proof.
  intros Hm. unfold next_outbound. rewrite (mux_nothing_stashed _ _ _ _ Hm).
  pose proof (drain_same m) as Hsame. pose proof (drain_ok _ _ _ Hm) as Hd.
  set (m1 := drain_pending_terminal_free m) in *. pose proof (scan_spec n W (length (streams m1)) m1 Hd) as Hs.
  destruct (scan _ m1) as [m' out]. destruct Hs as (Hm' & Hr & Hout).
  pose proof (fun j => same_slots_slot m m1 j Hsame) as Hsl. destruct Hsame as (_ & Hr1 & _).
  split_and!; [done|congruence|]. destruct out as [bs|]; [|by intros j; rewrite Hout].
  destruct Hout as (i & s & frame & queue & Hi & Hq & Hbs & Hj). exists i, s, frame, queue. rewrite <- Hsl.
  split_and!; [done..|]. intros j. by rewrite Hj, Hsl.
Qed.

(** ** Receiving *)

Definition not_open (frame : Frame) : bool := match frame with Frame_Open _ _ => false | _ => true end.

Lemma live_slot_Some m key frame s :
  live_slot m key frame = Some s ->
  slot m (stream_id key) = Some s /\ generation s = key_generation key /\ is_closed s = false /\
  (peer_terminal s = true -> late_ok frame = true).
Proof.
  unfold live_slot, is_closed. destruct (slot m (stream_id key)) as [t|]; [|done].
  destruct (N.eqb_spec (generation t) (key_generation key)) as [Hg|]; [|done]. cbn [negb].
  destruct (peer_terminal t) eqn:Hp, (local_terminal t) eqn:Hl, (late_ok frame); cbn; try done;
    intros [= <-]; by rewrite ?Hp, ?Hl.
Qed.

Lemma apply_frame_ok W idx s frame :
  slot_ok W s -> is_closed s = false -> slot_ok W (apply_frame idx s frame).1.
Proof.
  intros [Hg Hh Hl Hq] Hc. destruct frame; cbn [apply_frame].
  - done.
  - destruct (_ <? _); cbn [fst]; [split; [done..|apply reset_queue_ok]|].
    split; [done..| |by destruct Hq]. cbn. etrans; [apply N.le_sub_l|done].
  - cbn [fst]. split; [done..|]. pose proof (no_reset s Hq Hc) as Hn. destruct Hq. by split.
  - cbn [fst]. split; [done..|]. split; cbn; [constructor|done|set_solver|constructor].
  - cbn [fst]. split; [done..|]. by destruct Hq.
Qed.

(** An entry of the deferred list that says nothing can go. *)
Lemma forget_inv n W d d' m i :
  mux_inv n W d m -> (forall j, j ∈ d -> j = i \/ j ∈ d') ->
  (forall s, slot m i = Some s -> is_closed s = true -> send_queue s = [] -> owns_slot (role m) i = true -> is_free m i = true) ->
  mux_inv n W d' m.
Proof.
  intros [Hn HW Hp Hw Hms Hs Hf Hl] Hd Hi. split; try done. intros j Hj Ho Hb.
  destruct (Hl j Hj Ho Hb) as (t & Ht & Hin). exists t. split; [done|]. intros Hc Hq.
  destruct (Hd j (Hin Hc Hq)) as [->|]; [|done]. rewrite (Hi t) in Hb; done.
Qed.

Lemma clean_up_ok n W d m i :
  mux_inv n W d m -> (forall j, j ∈ d -> j = i \/ j ∈ pending_terminal_free m) ->
  (forall s, slot m i = Some s -> is_closed s = true -> send_queue s = [] -> owns_slot (role m) i = true -> is_free m i = true) ->
  mux_ok n W (clean_up_after_remote_free m i).
Proof.
  intros Hm Hd Hi. apply (clean_up_inv n W (List.filter (fun j => negb (j =? i)) (pending_terminal_free m))).
  - eapply forget_inv; [exact Hm| |exact Hi]. intros j [->|Hj]%Hd; [by left|].
    destruct (decide (j = i)) as [|Hne]; [by left|right]. apply list_elem_of_In, filter_In.
    split; [by apply list_elem_of_In|]. apply negb_true_iff. by apply N.eqb_neq.
  - intros j [Hj Hne]%list_elem_of_In%filter_In. split; [by apply list_elem_of_In|].
    apply negb_true_iff, N.eqb_neq in Hne. done.
Qed.

Lemma maybe_free_true m i s :
  slot m i = Some s -> (maybe_free_slot m i).2 = (is_closed s && match send_queue s with [] => true | _ => false end).
Proof. unfold maybe_free_slot, is_closed. intros ->. destruct (_ && _); cbn; [|done]. by destruct (send_queue s). Qed.

Lemma maybe_free_bit n W d m i :
  mux_inv n W d m -> (maybe_free_slot m i).2 = true -> owns_slot (role m) i = true ->
  is_free (maybe_free_slot m i).1 i = true.
Proof.
  intros Hm. unfold maybe_free_slot. destruct (slot m i) as [s|] eqn:Hs; [|done]. destruct (negb _); [done|].
  destruct (send_queue s); [|done]. intros _ Ho. cbn [fst]. unfold mark_free. rewrite Ho.
  apply slot_lt in Hs. rewrite (mux_size _ _ _ _ Hm) in Hs.
  unfold is_free. cbn [free_mask with_mask]. rewrite bit_at_set; [by rewrite N.eqb_refl|].
  rewrite (mux_mask_size _ _ _ _ Hm). by apply word_in_range.
Qed.

(** The slot is set, and freed when it is over. *)
Lemma freed_ok n W m i s frame :
  mux_ok n W m -> i < n -> is_free m i = false -> slot_ok W s ->
  (is_closed s = true -> send_queue s = [] -> is_terminal frame = true) ->
  (match frame with Frame_Reset _ => is_closed s = true /\ send_queue s = [] | _ => True end) ->
  mux_ok n W (release (set_slot m i s) i frame).
Proof.
  intros Hm Hi Hf Hok Ht Hr. pose proof (mux_size _ _ _ _ Hm) as Hn.
  assert (slot (set_slot m i s) i = Some s) as Hs by (rewrite slot_set_lt by lia; by rewrite decide_True).
  pose proof (maybe_free_true _ _ _ Hs) as Hfree.
  assert (mux_inv n W (i :: pending_terminal_free m) (set_slot m i s)) as Hloose
    by (eapply set_slot_inv; [exact Hm|done|done|done|set_solver|set_solver]).
  pose proof (maybe_free_inv n W _ (pending_terminal_free m) _ i Hloose ltac:(set_solver)) as Hinv.
  pose proof (maybe_free_deferred (set_slot m i s) i) as Hd. pose proof (maybe_free_not (set_slot m i s) i) as Hnot.
  assert ((maybe_free_slot (set_slot m i s) i).2 = true ->
    mux_ok n W (clean_up_after_remote_free (maybe_free_slot (set_slot m i s) i).1 i)) as Hclean.
  { intros H. eapply clean_up_ok; [exact (Hinv H)|rewrite Hd; by right|].
    intros _ _ _ _ Ho. apply (maybe_free_bit n W _ _ i Hloose H).
    by destruct (maybe_free_same (set_slot m i s) i) as (_ & <- & _). }
  assert (is_closed s && match send_queue s with [] => true | _ => false end = false -> mux_ok n W (set_slot m i s)) as Hplain.
  { intros Hx. eapply set_slot_inv; [exact Hm|done..|]. intros Hc Hq. by rewrite Hc, Hq in Hx. }
  destruct frame; cbn [release].
  1,2,5: apply Hplain; destruct (is_closed s), (send_queue s); try done; by specialize (Ht eq_refl eq_refl).
  - destruct (maybe_free_slot (set_slot m i s) i) as [m' [|]] eqn:E; cbn [fst snd] in *; [by apply Hclean|].
    rewrite Hnot by done. by apply Hplain.
  - apply Hclean. destruct Hr as [Hc Hq]. by rewrite Hfree, Hc, Hq.
Qed.

Lemma release_slot m i frame j : slot (release m i frame) j = slot m j.
Proof.
  pose proof (maybe_free_same m i) as Hs. destruct frame; cbn [release]; try done.
  - destruct (maybe_free_slot m i) as [m' [|]]; cbn [fst] in Hs; [|by apply same_slots_slot].
    rewrite (same_slots_slot _ _ j (clean_up_same m' i)). by apply same_slots_slot.
  - rewrite (same_slots_slot _ _ j (clean_up_same _ i)). by apply same_slots_slot.
Qed.

Lemma release_role m i frame : role (release m i frame) = role m.
Proof.
  pose proof (maybe_free_same m i) as (_ & Hr & _). destruct frame; cbn [release]; try done.
  - destruct (maybe_free_slot m i) as [m' [|]]; cbn [fst] in Hr; [|done].
    by destruct (clean_up_same m' i) as (_ & -> & _).
  - by destruct (clean_up_same (maybe_free_slot m i).1 i) as (_ & -> & _).
Qed.

Definition accepted (now : Instant) (W g method_id : N) : StreamSlot :=
  with_generation (StreamSlot_open method_id now W) g.

Lemma recv_open_spec n W m now key method_id headers :
  mux_ok n W m -> stream_id key < n -> key_generation key <= 65535 ->
  let '(m', r) := recv_open m now key method_id headers in
  mux_ok n W m' /\ role m' = role m /\
  match r with
  | Err _ => m' = m
  | Ok events => events = [NewIncomingStream (stream_id key) method_id headers] /\
      forall j, slot m' j = if decide (stream_id key = j) then Some (accepted now W (key_generation key) method_id) else slot m j
  end.
Proof.
  intros Hm Hi Hg. unfold recv_open. destruct (owns_slot (role m) (stream_id key)) eqn:Ho; [done|].
  set (checked := match slot m (stream_id key) with Some _ => _ | None => _ end).
  destruct checked as [_|e]; [|done]. rewrite (mux_window _ _ _ _ Hm). set (i := stream_id key) in *.
  fold (accepted now W (key_generation key) method_id). set (s := accepted now W (key_generation key) method_id).
  pose proof (mux_size _ _ _ _ Hm) as Hn.
  assert (is_free m i = false) as Hf.
  { destruct (is_free m i) eqn:E; [|done]. destruct (mux_free _ _ _ _ Hm i E) as (_ & ? & _). congruence. }
  assert (slot_ok W s) as Hok by (split; [done|done|done|]; split; cbn; [constructor|set_solver|set_solver|constructor]).
  assert (mux_inv n W (pending_terminal_free m) (set_slot m i s)) as Hm'
    by (eapply set_slot_inv; [exact Hm|done|done|done|done|done]).
  split_and!.
  - eapply clean_up_ok; [exact Hm'|by right|]. intros t Ht Hc Hq Ho'. change (role (set_slot m i s)) with (role m) in Ho'. congruence.
  - by destruct (clean_up_same (set_slot m i s) i) as (_ & -> & _).
  - done.
  - intros j. rewrite (same_slots_slot _ _ j (clean_up_same _ i)). apply slot_set_lt. lia.
Qed.

Lemma recv_live_spec n W m key frame s :
  mux_ok n W m -> live_slot m key frame = Some s -> not_open frame = true ->
  let i := stream_id key in
  let m' := release (set_slot m i (apply_frame i s frame).1) i frame in
  mux_ok n W m' /\ role m' = role m /\
  forall j, slot m' j = if decide (i = j) then Some (apply_frame i s frame).1 else slot m j.
Proof.
  intros Hm (Hs & Hg & Hc & Hl)%live_slot_Some Hno i. pose proof (slot_lt _ _ _ Hs) as Hi.
  pose proof (mux_slots _ _ _ _ Hm _ _ Hs) as Hok. pose proof (mux_size _ _ _ _ Hm) as Hn.
  cbv zeta. split_and!; [|by rewrite release_role|by intros j; rewrite release_slot; apply slot_set_lt].
  apply freed_ok; [done|lia| |by apply apply_frame_ok| |].
  - eapply open_not_free; [done..|congruence].
  - destruct frame as [|payload| | |]; cbn [apply_frame]; try done.
    + destruct (_ <? _); [done|]. unfold is_closed in *. cbn. congruence.
    + unfold is_closed in *. cbn. congruence.
  - by destruct frame.
Qed.

Lemma recv_rest_spec n W m key frame :
  mux_ok n W m -> not_open frame = true ->
  let '(m', r) :=
    match live_slot m key frame with
    | None => (m, Ok [])
    | Some s =>
        let '(s, events) := apply_frame (stream_id key) s frame in
        (release (set_slot m (stream_id key) s) (stream_id key) frame, @Ok (list Event) MuxError events)
    end in
  mux_ok n W m' /\ role m' = role m /\ (match r with Err _ => m' = m | Ok _ => True end).
Proof.
  intros Hm Hno. destruct (live_slot m key frame) as [s|] eqn:Es; [|done].
  destruct (recv_live_spec n W m key frame s Hm Es Hno) as (Hm' & Hr & _).
  by destruct (apply_frame (stream_id key) s frame) as [s' events].
Qed.

(** Whatever arrives. *)
Lemma recv_spec n W m now bs :
  mux_ok n W m ->
  let '(m', r) := recv m now bs in
  mux_ok n W m' /\ role m' = role m /\ (match r with Err _ => m' = m | Ok _ => True end).
Proof.
  intros Hm. unfold recv. destruct (decode_keyed_frame bs) as [[key frame]|e] eqn:E; [|done].
  rewrite (mux_size _ _ _ _ Hm). destruct (N.leb_spec n (stream_id key)) as [|Hi]; [done|].
  apply decode_keyed_frame_iff in E as (Hk & _ & _).
  assert (key_generation key <= 65535) as Hg by (unfold key_ok, u16_ok in Hk; bool_simpl; done).
  destruct frame as [method_id headers|payload|status trailer|code|k].
  { pose proof (recv_open_spec n W m now key method_id headers Hm Hi Hg) as Hr.
    destruct (recv_open _ _ _ _ _) as [m' [events|e]]; naive_solver. }
  all: by apply recv_rest_spec.
Qed.

(** ** The invariant of every multiplexer *)

Lemma slot_new n role W i : slot (new n role W) i = None.
Proof.
  unfold slot, new. cbn [streams]. destruct (_ !! _) as [o|] eqn:E; [|done].
  apply list_elem_of_lookup_2, list_elem_of_In, repeat_spec in E. by subst o.
Qed.

Lemma new_mask role l mask :
  (forall i, i ∈ l -> i / 64 < lenN mask) -> Forall word_ok mask ->
  let mask' := fold_left (fun mask i => if owns_slot role i then set_bit mask i else mask) l mask in
  Forall word_ok mask' /\ lenN mask' = lenN mask /\
  forall j, bit_at mask' j = bit_at mask j || (bool_decide (j ∈ l) && owns_slot role j).
Proof.
  revert mask. induction l as [|i l IH]; intros mask Hl Hw; cbn [fold_left].
  { split_and!; [done..|]. intros j. by rewrite bool_decide_false, orb_false_r by set_solver. }
  assert (length (set_bit mask i) = length mask) as Hlen by apply length_alter.
  destruct (IH (if owns_slot role i then set_bit mask i else mask)) as (Hw' & Hl' & Hb).
  { intros j Hj. destruct (owns_slot role i); [rewrite Hlen|]; apply Hl; set_solver. }
  { destruct (owns_slot role i); [by apply words_set|done]. }
  split_and!; [done| |].
  { rewrite Hl'. destruct (owns_slot role i); [by rewrite Hlen|done]. }
  intros j. rewrite Hb. destruct (owns_slot role i) eqn:Ho.
  - rewrite bit_at_set by (apply Hl; set_solver). destruct (N.eqb_spec i j) as [<-|Hne].
    + rewrite Ho, (bool_decide_true (i ∈ i :: l)) by set_solver. cbn. by rewrite orb_true_r.
    + cbn. f_equal. f_equal. apply bool_decide_ext. set_solver.
  - destruct (decide (i = j)) as [<-|Hne]; [by rewrite Ho, !andb_false_r|]. f_equal. f_equal.
    apply bool_decide_ext. set_solver.
Qed.

Lemma elem_of_range i n : i ∈ range n <-> i < n.
Proof.
  unfold range. rewrite list_elem_of_In, in_map_iff. split.
  - intros (k & <- & Hk%in_seq). lia.
  - intros Hi. exists (N.to_nat i). split; [lia|]. apply in_seq. lia.
Qed.

Lemma new_ok n role W : n < 65536 -> mux_ok n W (new n role W).
Proof.
  intros Hn. unfold new.
  rewrite (N.mod_small n 65536 Hn).
  destruct (new_mask role (range n) (repeat 0 (N.to_nat ((n + 63) / 64)))) as (Hw & Hl & Hb).
  { intros i Hi%elem_of_range. rewrite repeat_length, N2Nat.id. by apply word_in_range. }
  { apply Forall_forall. intros w Hin%list_elem_of_In%repeat_spec. subst w. intros b _. apply N.bits_0. }
  assert (forall j, bit_at (repeat 0 (N.to_nat ((n + 63) / 64))) j = false) as H0.
  { intros j. unfold bit_at. destruct (_ !! _) as [w|] eqn:E; [|apply N.bits_0].
    apply list_elem_of_lookup_2, list_elem_of_In, repeat_spec in E. subst w. apply N.bits_0. }
  pose proof (slot_new n role W) as Hs. unfold new in Hs. rewrite (N.mod_small n 65536 Hn) in Hs.
  split; cbn [streams stream_window pending_write free_mask Mux.role pending_terminal_free].
  - rewrite repeat_length. lia.
  - done.
  - done.
  - done.
  - rewrite Hl, repeat_length. lia.
  - intros i s. by rewrite Hs.
  - intros i. unfold is_free. cbn [free_mask]. rewrite Hb, H0. cbn [orb].
    intros [Hi%bool_decide_eq_true Ho]%andb_true_iff. apply elem_of_range in Hi. split_and!; [done..|]. intros s. by rewrite Hs.
  - intros i Hi Ho. unfold is_free. cbn [free_mask]. rewrite Hb, H0, Ho, (bool_decide_true (i ∈ range n)) by (by apply elem_of_range).
    done.
Qed.

Lemma perform_ok n W m op :
  mux_ok n W m -> W + 1 <= MAX_FRAME_BYTES -> op_ok op = true ->
  mux_ok n W (perform m op).1 /\ role (perform m op).1 = role m.
Proof.
  intros Hm HW Hop. destruct op as [now method_id headers|idx payload|idx trailer|idx code|idx k| |now bs]; cbn [perform].
  - pose proof (open_spec n W m now method_id headers Hm Hop) as H. destruct (open _ _ _ _); naive_solver.
  - pose proof (send_spec n W m idx payload Hm HW) as H. destruct (try_send_body _ _ _); naive_solver.
  - pose proof (close_spec n W m idx trailer Hm Hop) as H. destruct (close_send _ _ _); naive_solver.
  - pose proof (reset_spec n W m idx code Hm) as H. naive_solver.
  - pose proof (consume_spec n W m idx k Hm HW) as H. destruct (consume _ _ _); naive_solver.
  - pose proof (next_outbound_spec n W m Hm) as H. destruct (next_outbound _); naive_solver.
  - pose proof (recv_spec n W m now bs Hm) as H. destruct (recv _ _ _); naive_solver.
Qed.

Definition performs (m : Multiplexer) (ops : list Op) : Multiplexer :=
  fold_left (fun m op => (perform m op).1) ops m.

Lemma performs_ok n W m ops :
  mux_ok n W m -> W + 1 <= MAX_FRAME_BYTES -> forallb op_ok ops = true -> mux_ok n W (performs m ops).
Proof.
  unfold performs. revert m. induction ops as [|op ops IH]; intros m Hm HW; [done|]. cbn [forallb fold_left].
  intros [Hop Hops]%andb_true_iff. apply IH; [|done..]. by apply perform_ok.
Qed.

(** *** Nothing to reclaim is left behind *)

Definition spent (s : StreamSlot) : bool := is_closed s && match send_queue s with [] => true | _ => false end.

Lemma spent_iff s : spent s = true <-> is_closed s = true /\ send_queue s = [].
Proof. unfold spent. rewrite andb_true_iff. destruct (send_queue s); naive_solver. Qed.

Lemma drain_fold_kept l m i s :
  (forall j t, j ∈ pending_terminal_free m -> slot m j = Some t -> spent t = false) ->
  i ∈ pending_terminal_free (fold_left drain_step l m) -> slot m i = Some s -> spent s = false.
Proof.
  revert m. induction l as [|k l IH]; intros m Hm; cbn [fold_left]; [by intros Hi; apply Hm|].
  intros Hi Hs. pose proof (drain_step_same m k) as Hsame. eapply (IH (drain_step m k)); [|done|].
  2:{ by rewrite (same_slots_slot _ _ i Hsame). }
  intros j t Hj. rewrite (same_slots_slot _ _ j Hsame). revert Hj. unfold drain_step.
  pose proof (maybe_free_not m k) as Hnot. pose proof (maybe_free_deferred m k) as Hd. pose proof (maybe_free_true m k) as Ht.
  destruct (maybe_free_slot m k) as [m' [|]]; cbn [fst snd] in *; [rewrite Hd; apply Hm|].
  rewrite Hnot by done. cbn [pending_terminal_free with_deferred]. rewrite elem_of_app, list_elem_of_singleton.
  intros [Hj| ->] Hs'; [by eapply Hm|]. symmetry. exact (Ht t Hs').
Qed.

Lemma lowest_word_None k mask i : lowest_word k mask = None -> bit_at mask i = false.
Proof.
  unfold bit_at. generalize (i mod 64). generalize (N.to_nat (i / 64)). revert k. clear i.
  induction mask as [|w mask IH]; intros k d b; cbn [lowest_word]; [intros _; destruct d; apply N.bits_0|].
  destruct (N.eqb_spec w 0) as [->|]; [|done]. cbn [negb]. intros H. destruct d as [|d]; [apply N.bits_0|]. by apply (IH (k + 1)).
Qed.

Lemma open_full n W m now method_id headers :
  mux_ok n W m -> (open m now method_id headers).2 = Err AtCapacity ->
  forall i, i < n -> owns_slot (role m) i = true -> exists s, slot m i = Some s /\ spent s = false.
Proof.
  intros Hm. unfold open. destruct (lowest_free _) as [|] eqn:E; [done|]. intros _ i Hi Ho.
  pose proof (drain_ok _ _ _ Hm) as Hd. pose proof (drain_same m) as Hsame.
  pose proof (same_slots_slot _ _ i Hsame) as Hsl. destruct Hsame as (_ & Hr & _). rewrite <- Hr in Ho.
  destruct (mux_no_leak _ _ _ _ Hd i Hi Ho) as (s & Hs & Hin); [by eapply lowest_word_None|].
  rewrite Hsl in Hs. exists s. split; [done|]. destruct (spent s) eqn:Hsp; [|done]. rewrite <- Hsp.
  pose proof Hsp as [Hc Hq]%spent_iff. eapply (drain_fold_kept _ (with_deferred m [])); [| |exact Hs].
  - intros j t Hj. by apply not_elem_of_nil in Hj.
  - by apply Hin.
Qed.

(** C29: A multiplexer stays well-formed whatever its application asks and whatever
    bytes its peer sends: the table keeps its size, a slot never holds more than
    four queued frames nor grants more credit than its window, so the internal
    refusals of a full queue cannot happen, and an [open] is refused for lack of
    slots only while every slot of its parity is still in use or has a frame left
    to ship, so no finished stream is leaked. *)
Theorem mux_well_formed n r W ops :
  n < 65536 -> W + 1 <= MAX_FRAME_BYTES -> forallb op_ok ops = true ->
  let m := performs (new n r W) ops in
  lenN (streams m) = n /\
  (forall i s, slot m i = Some s -> i < n /\ lenN (send_queue s) <= SLOT_QUEUE_CAP /\
     local_recv_credit s <= local_credit_high_water s /\ local_credit_high_water s = W) /\
  (forall idx payload, (try_send_body m idx payload).2 <> Err (Protocol "send queue full")) /\
  (forall idx trailer, op_ok (Op_close idx trailer) = true ->
     (close_send m idx trailer).2 <> Err (Protocol "close while queue full")) /\
  (forall now method_id headers, (open m now method_id headers).2 = Err AtCapacity ->
     forall i, i < n -> owns_slot (role m) i = true -> exists s, slot m i = Some s /\ spent s = false).
Proof.
  intros Hn HW Hops m. assert (mux_ok n W m) as Hm by (apply performs_ok; [by apply new_ok|done..]).
  split_and!.
  - apply (mux_size _ _ _ _ Hm).
  - intros i s Hs. pose proof (slot_lt _ _ _ Hs) as Hi. rewrite (mux_size _ _ _ _ Hm) in Hi.
    destruct (mux_slots _ _ _ _ Hm _ _ Hs) as [Hg Hh Hl Hq]. rewrite Hh. split_and!; [done|by apply queue_cap|done..].
  - intros idx payload. pose proof (send_spec n W m idx payload Hm HW) as H. destruct (try_send_body _ _ _). naive_solver.
  - intros idx trailer Hop. pose proof (close_spec n W m idx trailer Hm Hop) as H. destruct (close_send _ _ _). naive_solver.
  - intros now method_id headers. by apply (open_full n W).
Qed.

Lemma mux_well_formed_witness :
  let m := performs (new 4 Client 8) [Op_open 0 7 []; Op_send 0 [x01; x02]; Op_emit; Op_recv 1 [x00; x00; x00; x01; x03; x02]; Op_emit] in
  lenN (streams m) = 4 /\ default true (spent <$> slot m 0) = true.
Proof.
  split; [|vm_compute; reflexivity].
  apply (mux_well_formed 4 Client 8
    [Op_open 0 7 []; Op_send 0 [x01; x02]; Op_emit; Op_recv 1 [x00; x00; x00; x01; x03; x02]; Op_emit]);
    [reflexivity|vm_compute; discriminate|vm_compute; reflexivity].
Defined.
