(* ===== verification/MuxLink.v ===== *)
(** * One slot seen from both ends (crates/wire/src/mux/state.rs)

    The two records of a slot, its opener's and its peer's, and the frames between
    them in both directions.  The control invariant says the peer can take every
    frame on its way without a protocol error; the flow invariant says the credit
    a sender holds is covered by what the receiver granted; the transfer invariant
    says what is delivered is what was sent, in order. *)

From S2P Require Import Prelude Xet XetChunk Canonical Primitive Errors Context Auth Objects Registry.
From S2P Require Import View Store Terms Work PaidWork JobBook JobInput Cbor Frame Mux MuxOk.

#[local] Open Scope N_scope.

(** What the peer can observe of a slot. *)
Record Core := mk_Core {
  c_gen : N;
  c_lt : bool;
  c_pt : bool;
  c_prc : N;
  c_lrc : N;
}.
Definition core (s : StreamSlot) : Core :=
  mk_Core (generation s) (local_terminal s) (peer_terminal s) (peer_recv_credit s) (local_recv_credit s).
Definition c_closed (c : Core) : bool := c_pt c && c_lt c.

Definition gen_of (o : option Core) : N := match o with Some c => c_gen c | None => 0 end.

(** A frame with the generation it is addressed to. *)
Notation Tagged := (N * Frame)%type.

Definition body_at (h : N) (gf : Tagged) : N :=
  match gf.2 with Frame_Body payload => if gf.1 =? h then lenN payload else 0 | _ => 0 end.
Definition credit_at (h : N) (gf : Tagged) : N :=
  match gf.2 with Frame_Credit n => if gf.1 =? h then n else 0 | _ => 0 end.
Definition bodies (l : list Tagged) (h : N) : N := sumN (body_at h) l.
Definition credits (l : list Tagged) (h : N) : N := sumN (credit_at h) l.
Definition chunk_at (h : N) (gf : Tagged) : list bytes :=
  match gf.2 with Frame_Body payload => if gf.1 =? h then [payload] else [] | _ => [] end.
Definition chunks (l : list Tagged) (h : N) : list bytes := concat (map (chunk_at h) l).

Lemma bodies_app l k h : bodies (l ++ k) h = bodies l h + bodies k h.
Proof. apply sumN_app. Qed.
Lemma bodies_cons a l h : bodies (a :: l) h = body_at h a + bodies l h.
Proof. done. Qed.
Lemma credits_app l k h : credits (l ++ k) h = credits l h + credits k h.
Proof. apply sumN_app. Qed.
Lemma credits_cons a l h : credits (a :: l) h = credit_at h a + credits l h.
Proof. done. Qed.
Lemma chunks_app l k h : chunks (l ++ k) h = chunks l h ++ chunks k h.
Proof. unfold chunks. by rewrite map_app, concat_app. Qed.
Lemma chunks_cons a l h : chunks (a :: l) h = chunk_at h a ++ chunks l h.
Proof. done. Qed.

(** Nothing is addressed to a generation beyond those of the list. *)
Lemma bodies_above l g h : Forall (fun gf => gf.1 <= g) l -> g < h -> bodies l h = 0.
Proof.
  intros Hl Hh. induction Hl as [|[k f] l Hk Hl IH]; [done|]. rewrite bodies_cons, IH. unfold body_at. cbn in *.
  destruct f; try done. destruct (N.eqb_spec k h); [lia|done].
Qed.
Lemma credits_above l g h : Forall (fun gf => gf.1 <= g) l -> g < h -> credits l h = 0.
Proof.
  intros Hl Hh. induction Hl as [|[k f] l Hk Hl IH]; [done|]. rewrite credits_cons, IH. unfold credit_at. cbn in *.
  destruct f; try done. destruct (N.eqb_spec k h); [lia|done].
Qed.
Lemma chunks_above l g h : Forall (fun gf => gf.1 <= g) l -> g < h -> chunks l h = [].
Proof.
  intros Hl Hh. induction Hl as [|[k f] l Hk Hl IH]; [done|]. rewrite chunks_cons, IH. unfold chunk_at. cbn in *.
  destruct f; try done. destruct (N.eqb_spec k h); [lia|done].
Qed.

(** ** Flow *)

(** Of generation [h], what is on its way and what may still be sent stays within
    what the receiver takes: its credit, or a whole window where the stream has
    not reached it. *)
Definition may_send (x : option Core) (Y : list Tagged) (h : N) : N :=
  match x with Some c => if c_gen c =? h then c_prc c + credits Y h else 0 | None => 0 end.
Definition will_take (W : N) (y : option Core) (h : N) : N :=
  match y with Some c => if c_gen c =? h then c_lrc c else W | None => W end.
Definition flow (W : N) (x y : option Core) (X Y : list Tagged) : Prop :=
  forall h, gen_of y <= h -> bodies X h + may_send x Y h <= will_take W y h.

(** ** Control *)

(** The peer's generation and terminal flags. *)
Definition Flags : Type := N * bool * bool.
Definition flags (c : Core) : Flags := (c_gen c, c_lt c, c_pt c).
Definition over (st : option Flags) : Prop := match st with Some (_, lt, pt) => lt = true /\ pt = true | None => True end.

(** What a frame does to the flags; [None] is a protocol error, or a body whose
    stream was never opened. *)
Definition absorb (st : option Flags) (gf : Tagged) : option (option Flags) :=
  let '(g, f) := gf in
  match f with
  | Frame_Open _ _ =>
      match st with
      | None => Some (Some (g, false, false))
      | Some (h, lt, pt) => if lt && pt && negb (g =? h) then Some (Some (g, false, false)) else None
      end
  | Frame_Body _ => match st with Some (h, _, _) => if g <=? h then Some st else None | None => None end
  | Frame_End _ _ => match st with Some (h, lt, pt) => Some (Some (h, lt, pt || (g =? h))) | None => Some None end
  | Frame_Reset _ =>
      match st with Some (h, lt, pt) => Some (Some (h, lt || (g =? h), pt || (g =? h))) | None => Some None end
  | Frame_Credit _ => Some st
  end.
Fixpoint feeds (st : option Flags) (l : list Tagged) : option (option Flags) :=
  match l with
  | [] => Some st
  | a :: l => match absorb st a with Some st => feeds st l | None => None end
  end.

(** Generations do not decrease, and an [Open] raises them. *)
Fixpoint ordered (lo : N) (l : list Tagged) : Prop :=
  match l with
  | [] => True
  | (g, f) :: l => lo <= g /\ (not_open f = false -> lo < g) /\ ordered g l
  end.

(** The peer, when all that is on its way has arrived, is where the opener is. *)
Definition follows (x : option Core) (st : option Flags) : Prop :=
  match x with
  | None => st = None
  | Some c =>
      if c_closed c then over st else
      exists lt pt, st = Some (c_gen c, lt, pt) /\ (c_lt c = true -> pt = true) /\ (c_pt c = true -> lt = true)
  end.

(** What the peer has on its way to the opener. *)
Definition answer_ok (y : option Core) (gf : Tagged) : Prop :=
  match y with
  | None => False
  | Some c =>
      gf.1 <= c_gen c /\ not_open gf.2 = true /\
      (gf.1 = c_gen c -> match gf.2 with
                         | Frame_End _ _ => c_lt c = true
                         | Frame_Reset _ => c_closed c = true
                         | _ => True
                         end)
  end.

Record control (W : N) (x y : option Core) (L M : list Tagged) : Prop := mk_control {
  ctl_fresh : x = None -> L = [] /\ y = None;
  ctl_pos : forall c, x = Some c -> 1 <= c_gen c;
  ctl_gen : gen_of y <= gen_of x;
  ctl_order : ordered (gen_of y) L;
  ctl_below : Forall (fun gf => gf.1 <= gen_of x) L;
  ctl_feeds : exists st, feeds (flags <$> y) L = Some st /\ follows x st;
  ctl_answers : Forall (answer_ok y) M;
  ctl_early : forall c, x = Some c -> gen_of y < c_gen c -> W + credits L (c_gen c) <= c_lrc c;
}.

(** *** Feeding *)

Lemma feeds_app st l k :
  feeds st (l ++ k) = match feeds st l with Some st => feeds st k | None => None end.
Proof. revert st. induction l as [|a l IH]; intros st; cbn; [done|]. by destruct (absorb st a). Qed.

Definition flags_gen (st : option Flags) : N := match st with Some (g, _, _) => g | None => 0 end.

Lemma absorb_gen st g f st' : absorb st (g, f) = Some st' -> flags_gen st' = flags_gen st \/ flags_gen st' = g.
Proof.
  destruct st as [[[h lt] pt]|], f; cbn; intros H; repeat case_match; simplify_eq; cbn; auto.
Qed.

Lemma feeds_gen st l st' g :
  feeds st l = Some st' -> flags_gen st <= g -> Forall (fun gf => gf.1 <= g) l -> flags_gen st' <= g.
Proof.
  revert st. induction l as [|[h f] l IH]; intros st; cbn [feeds]; [by intros [= ->]|].
  intros Hf Hs [Hh Hl]%Forall_cons. destruct (absorb st (h, f)) as [st1|] eqn:E; [|done].
  apply (IH st1); [done| |done]. cbn in Hh. apply absorb_gen in E as [-> | ->]; done.
Qed.

(** More flags up front, more flags at the end. *)
Definition flags_le (a b : option Flags) : Prop :=
  match a, b with
  | None, None => True
  | Some (g, lt, pt), Some (g', lt', pt') => g = g' /\ (lt = true -> lt' = true) /\ (pt = true -> pt' = true)
  | _, _ => False
  end.

Lemma flags_le_refl a : flags_le a a.
Proof. destruct a as [[[g lt] pt]|]; done. Qed.

Lemma flags_le_trans a b c : flags_le a b -> flags_le b c -> flags_le a c.
Proof.
  destruct a as [[[? ?] ?]|], b as [[[? ?] ?]|], c as [[[? ?] ?]|]; cbn; try done. intros (-> & ? & ?) (-> & ? & ?). auto.
Qed.

Lemma absorb_mono a b gf a' :
  flags_le a b -> absorb a gf = Some a' -> exists b', absorb b gf = Some b' /\ flags_le a' b'.
Proof.
  destruct gf as [g f], a as [[[h lt] pt]|], b as [[[h' lt'] pt']|]; cbn [flags_le]; try done.
  - intros (<- & Hlt & Hpt). destruct f; cbn.
    + destruct lt, pt; cbn; try done. rewrite Hlt, Hpt by done. cbn. destruct (negb _); [|done].
      intros [= <-]. eexists. split; [done|]. done.
    + destruct (_ <=? _); [|done]. intros [= <-]. eexists. by split.
    + intros [= <-]. eexists. split; [done|]. cbn. split_and!; [done..|]. destruct pt; [by rewrite Hpt|]. cbn. intros ->. apply orb_true_r.
    + intros [= <-]. eexists. split; [done|]. cbn.
      split_and!; [done|destruct lt; [by rewrite Hlt|]|destruct pt; [by rewrite Hpt|]]; cbn; intros ->; apply orb_true_r.
    + intros [= <-]. eexists. by split.
  - intros _ Ha. exists a'. split; [done|apply flags_le_refl].
Qed.

Lemma feeds_mono a b l a' :
  flags_le a b -> feeds a l = Some a' -> exists b', feeds b l = Some b' /\ flags_le a' b'.
Proof.
  revert a b. induction l as [|gf l IH]; intros a b Hle; cbn [feeds].
  - intros [= <-]. by exists b.
  - destruct (absorb a gf) as [a1|] eqn:E; [|done]. intros Hf.
    destruct (absorb_mono _ _ _ _ Hle E) as (b1 & -> & Hle1). by apply (IH a1).
Qed.

Lemma over_mono a b : flags_le a b -> over a -> over b.
Proof. destruct a as [[[? ?] ?]|], b as [[[? ?] ?]|]; cbn; try done. intros (_ & ? & ?) []. auto. Qed.

Lemma follows_mono x a b : flags_le a b -> follows x a -> follows x b.
Proof.
  unfold follows. destruct x as [c|].
  - intros Hle. destruct (c_closed c); [by apply over_mono|]. intros (lt & pt & -> & H1 & H2).
    destruct b as [[[? ?] ?]|]; [|done]. destruct Hle as (<- & ? & ?). eexists _, _. split; [done|]. auto.
  - intros Hle ->. by destruct b as [[[? ?] ?]|].
Qed.

(** Without an [Open] the flags only rise. *)
Lemma feeds_quiet st l st' :
  feeds st l = Some st' -> Forall (fun gf => not_open gf.2 = true) l -> flags_le st st'.
Proof.
  revert st. induction l as [|[g f] l IH]; intros st; cbn [feeds].
  - intros [= <-] _. apply flags_le_refl.
  - intros Hf [Hn Hl]%Forall_cons. destruct (absorb st (g, f)) as [st1|] eqn:E; [|done].
    eapply flags_le_trans; [|by apply (IH st1)]. cbn in Hn.
    destruct st as [[[h lt] pt]|], f; cbn in *; try done; repeat case_match; simplify_eq; cbn; auto;
      split_and!; try done; by intros ->.
Qed.

Lemma ordered_ge lo l : ordered lo l -> Forall (fun gf => lo <= gf.1) l.
Proof.
  revert lo. induction l as [|[g f] l IH]; intros lo; cbn; [done|]. intros (Hg & _ & Hl). constructor; [done|].
  eapply Forall_impl; [by apply IH|]. cbn. intros. lia.
Qed.

(** When all generations on the way are the peer's own, no [Open] is. *)
Lemma ordered_flat g l : ordered g l -> Forall (fun gf => gf.1 <= g) l -> Forall (fun gf => not_open gf.2 = true) l.
Proof.
  induction l as [|[h f] l IH]; cbn; [done|]. intros (Hg & Ho & Hl) [Hh Hr]%Forall_cons. cbn in Hh.
  assert (h = g) as -> by lia. constructor; [|by apply IH]. cbn. destruct (not_open f); [done|]. specialize (Ho eq_refl). lia.
Qed.

Lemma ordered_same g l :
  Forall (fun gf => gf.1 = g) l -> Forall (fun gf => not_open gf.2 = true) l -> ordered g l.
Proof.
  induction l as [|[h f] l IH]; cbn; [done|]. intros [Hh Hg]%Forall_cons [Hf Hn]%Forall_cons. cbn in *. subst h.
  split_and!; [done|congruence|by apply IH].
Qed.

Lemma ordered_snoc lo g l h f :
  ordered lo l -> lo <= g -> Forall (fun gf => gf.1 <= g) l -> g <= h -> (not_open f = false -> g < h) ->
  ordered lo (l ++ [(h, f)]).
Proof.
  revert lo. induction l as [|[k e] l IH]; intros lo; cbn.
  - intros _ Hg _ Hh Ho. split_and!; [lia| |done]. intros H. specialize (Ho H). lia.
  - intros (Hk & He & Hl) Hg [Hkg Hr]%Forall_cons Hh Ho. split_and!; [done..|]. by apply IH.
Qed.

Lemma ordered_prefix lo l k : ordered lo (l ++ k) -> ordered lo l.
Proof.
  revert lo. induction l as [|[g f] l IH]; intros lo; cbn; [done|]. intros (? & ? & ?). split_and!; [done..|]. by apply IH.
Qed.

(** Frames of one generation that end there began there, or the stream before
    was over. *)
Lemma feeds_enter st l g lt pt :
  feeds st l = Some (Some (g, lt, pt)) -> Forall (fun gf => gf.1 = g) l -> flags_gen st = g /\ st <> None \/ over st.
Proof.
  revert st. induction l as [|[h f] l IH]; intros st; cbn [feeds].
  - intros [= ->] _. by left.
  - intros Hf [Hh Hl]%Forall_cons. cbn in Hh. subst h. destruct (absorb st (g, f)) as [st1|] eqn:E; [|done].
    specialize (IH st1 Hf Hl). destruct st as [[[k a] b]|]; [|by right]. destruct f; cbn in E.
    + destruct a, b; cbn in E; try done. by right.
    + destruct (_ <=? _); [|done]. injection E as <-. done.
    + injection E as <-. destruct IH as [[? _]|[? ?]]; [by left|]. destruct (N.eqb_spec g k) as [->|]; [by left|].
      right. rewrite orb_false_r in *. done.
    + injection E as <-. destruct IH as [[? _]|[? ?]]; [by left|]. destruct (N.eqb_spec g k) as [->|]; [by left|].
      right. rewrite !orb_false_r in *. done.
    + injection E as <-. done.
Qed.

(** *** Credit frames do not matter to control *)

Definition strip (l : list Tagged) : list Tagged :=
  List.filter (fun gf => match gf.2 with Frame_Credit _ => false | _ => true end) l.

Lemma strip_app l k : strip (l ++ k) = strip l ++ strip k.
Proof. apply List.filter_app. Qed.

Lemma feeds_strip st l : feeds st l = feeds st (strip l).
Proof.
  revert st. induction l as [|[g f] l IH]; intros st; [done|]. cbn [feeds strip List.filter snd].
  destruct f; cbn [feeds]; try (destruct (absorb st _); [apply IH|done]). apply IH.
Qed.
Lemma bodies_strip l h : bodies l h = bodies (strip l) h.
Proof. induction l as [|[g f] l IH]; [done|]. rewrite bodies_cons, IH. by destruct f. Qed.
Lemma chunks_strip l h : chunks l h = chunks (strip l) h.
Proof. induction l as [|[g f] l IH]; [done|]. rewrite chunks_cons, IH. by destruct f. Qed.

Lemma quiet_strip l : Forall (fun gf => not_open gf.2 = true) l <-> Forall (fun gf => not_open gf.2 = true) (strip l).
Proof.
  induction l as [|[g f] l IH]; [done|]. cbn [strip List.filter snd]. rewrite Forall_cons, IH.
  destruct f; rewrite ?Forall_cons; naive_solver.
Qed.

(** ** What a frame does to a slot that takes it *)

Definition live (c : Core) (gf : Tagged) : bool :=
  (c_gen c =? gf.1) && negb (c_pt c && (c_lt c || negb (late_ok gf.2))).
Definition take_frame (c : Core) (gf : Tagged) : Core :=
  if negb (live c gf) then c else
  match gf.2 with
  | Frame_Open _ _ => c
  | Frame_Body payload => mk_Core (c_gen c) (c_lt c) (c_pt c) (c_prc c) (c_lrc c - lenN payload)
  | Frame_End _ _ => mk_Core (c_gen c) (c_lt c) true (c_prc c) (c_lrc c)
  | Frame_Reset _ => mk_Core (c_gen c) true true (c_prc c) (c_lrc c)
  | Frame_Credit n => mk_Core (c_gen c) (c_lt c) (c_pt c) (u32_saturating_add (c_prc c) n) (c_lrc c)
  end.

Lemma take_frame_gen c gf : c_gen (take_frame c gf) = c_gen c.
Proof. unfold take_frame. destruct (negb _); [done|]. by destruct (gf.2). Qed.

Lemma take_frame_flags c gf st :
  absorb (Some (flags c)) gf = Some st -> not_open gf.2 = true -> st = Some (flags (take_frame c gf)).
Proof.
  destruct gf as [g f], c as [h lt pt prc lrc]. unfold take_frame, live, flags. cbn [fst snd c_gen c_lt c_pt].
  rewrite (N.eqb_sym h g). destruct f as [m hd|payload|status tr|code|k]; cbn; try done.
  - destruct (_ <=? _); [|done]. intros [= <-] _. by destruct (negb _).
  - intros [= <-] _. destruct (g =? h), lt, pt; done.
  - intros [= <-] _. destruct (g =? h), lt, pt; done.
  - intros [= <-] _. by destruct (negb _).
Qed.

(** ** Steps of the opener *)

Section Opener.
Context (W : N).

Lemma control_open x y L M m headers :
  control W x y L M -> (forall c, x = Some c -> c_closed c = true) ->
  control W (Some (mk_Core (gen_of x + 1) false false W W)) y (L ++ [(gen_of x + 1, Frame_Open m headers)]) M.
Proof.
  intros [Hfresh Hpos Hgen Hord Hbel (st & Hst & Hfol) Hans Hearly] Hc.
  assert (flags_gen st <= gen_of x) as Hsg by (eapply feeds_gen; [done| |done]; by destruct y).
  assert (over st) as Hov.
  { destruct x as [c|]; cbn in Hfol; [by rewrite Hc in Hfol|by subst]. }
  split; try done.
  - intros c [= <-]. cbn. lia.
  - cbn. lia.
  - eapply (ordered_snoc _ (gen_of x)); [done|done|done|lia|lia].
  - apply Forall_app. split; [|by repeat constructor]. eapply Forall_impl; [done|]. cbn. intros. lia.
  - exists (Some (gen_of x + 1, false, false)). split; [|by exists false, false]. rewrite feeds_app, Hst. cbn [feeds absorb].
    destruct st as [[[h lt] pt]|]; [|done]. destruct Hov as [-> ->]. cbn [flags_gen] in Hsg.
    destruct (N.eqb_spec (gen_of x + 1) h); [lia|done].
  - intros c [= <-] _. cbn [c_gen c_lrc]. rewrite credits_app, (credits_above L (gen_of x)) by (done || lia).
    unfold credits, credit_at. cbn. lia.
Qed.

(** The opener adds a frame of its own generation. *)
Lemma control_snoc c c' y L M f :
  control W (Some c) y L M -> c_closed c = false -> c_gen c' = c_gen c -> c_lrc c' = c_lrc c ->
  not_open f = true -> credit_at (c_gen c) (c_gen c, f) = 0 ->
  (forall lt pt, (c_lt c = true -> pt = true) -> (c_pt c = true -> lt = true) ->
     exists st, absorb (Some (c_gen c, lt, pt)) (c_gen c, f) = Some st /\ follows (Some c') st) ->
  control W (Some c') y (L ++ [(c_gen c, f)]) M.
Proof.
  intros [Hfresh Hpos Hgen Hord Hbel (st & Hst & Hfol) Hans Hearly] Hc Hg Hl Hno Hcr Hf. cbn [gen_of] in *.
  split; try done.
  - intros d [= <-]. rewrite Hg. by apply Hpos.
  - cbn. by rewrite Hg.
  - eapply (ordered_snoc _ (c_gen c)); [done|done|done|lia|congruence].
  - cbn. rewrite Hg. apply Forall_app. split; [done|]. constructor; [|done]. cbn. lia.
  - cbn in Hfol. rewrite Hc in Hfol. destruct Hfol as (lt & pt & -> & H1 & H2).
    destruct (Hf lt pt H1 H2) as (st' & Ha & Hfol'). exists st'. rewrite feeds_app, Hst. cbn [feeds]. by rewrite Ha.
  - intros d [= <-]. rewrite Hg, Hl. intros Hy. rewrite credits_app, credits_cons, Hcr. cbn. rewrite N.add_0_r.
    by apply Hearly.
Qed.

Lemma control_send g lt pt prc lrc y L M payload prc' :
  control W (Some (mk_Core g lt pt prc lrc)) y L M -> lt = false ->
  control W (Some (mk_Core g lt pt prc' lrc)) y (L ++ [(g, Frame_Body payload)]) M.
Proof.
  intros H ->. eapply (control_snoc _ _ _ _ _ _ H); [apply andb_false_r|done|done|done|done|].
  intros lt0 pt0 H1 H2. cbn in *. rewrite N.leb_refl. eexists. split; [done|]. cbn. unfold c_closed. cbn. rewrite andb_false_r.
  by exists lt0, pt0.
Qed.

Lemma control_close g lt pt prc lrc y L M status trailer :
  control W (Some (mk_Core g lt pt prc lrc)) y L M -> lt = false ->
  control W (Some (mk_Core g true pt prc lrc)) y (L ++ [(g, Frame_End status trailer)]) M.
Proof.
  intros H ->. eapply (control_snoc _ _ _ _ _ _ H); [apply andb_false_r|done|done|done|done|].
  intros lt0 pt0 H1 H2. cbn in *. rewrite N.eqb_refl, orb_true_r. eexists. split; [done|].
  unfold c_closed. cbn. destruct pt; cbn; [split; auto|]. by exists lt0, true.
Qed.

(** The opener drops what it had queued and says at most one last thing. *)
Lemma control_drop c c' y A Q T M :
  control W (Some c) y (A ++ Q) M -> Forall (fun gf => gf.1 = c_gen c) Q -> c_closed c = false ->
  c_gen c' = c_gen c -> c_lrc c' = c_lrc c -> c_closed c' = true ->
  (T = [] \/ exists code, T = [(c_gen c, Frame_Reset code)]) ->
  (forall st, feeds (flags <$> y) A = Some st -> (flags_gen st = c_gen c /\ st <> None) \/ over st ->
     exists st', feeds st T = Some st' /\ over st') ->
  control W (Some c') y (A ++ T) M.
Proof.
  intros [Hfresh Hpos Hgen Hord Hbel (st & Hst & Hfol) Hans Hearly] HQ Hc Hg Hl Hc' HT Hov.
  cbn [gen_of] in *.
  rewrite feeds_app in Hst. destruct (feeds (flags <$> y) A) as [st1|] eqn:E; [|done].
  cbn in Hfol. rewrite Hc in Hfol. destruct Hfol as (lt & pt & -> & _ & _).
  apply Forall_app in Hbel as [HA _]. apply ordered_prefix in Hord.
  split; try done.
  - intros d [= <-]. rewrite Hg. by apply Hpos.
  - cbn. by rewrite Hg.
  - destruct HT as [->|[code ->]]; [by rewrite app_nil_r|]. by eapply (ordered_snoc _ (c_gen c)).
  - cbn. rewrite Hg. apply Forall_app. split; [done|]. destruct HT as [->|[code ->]]; [done|]. by repeat constructor.
  - apply feeds_enter in Hst as Hin; [|done]. destruct (Hov st1 eq_refl Hin) as (st' & Hst' & Ho).
    exists st'. rewrite feeds_app, E. split; [done|]. cbn. by rewrite Hc'.
  - intros d [= <-]. rewrite Hg, Hl. intros Hy. specialize (Hearly c eq_refl Hy). rewrite credits_app in *.
    assert (credits T (c_gen c) = 0) as -> by (by destruct HT as [->|[code ->]]). lia.
Qed.

Lemma control_reset g lt pt prc lrc y A Q M code :
  control W (Some (mk_Core g lt pt prc lrc)) y (A ++ Q) M -> Forall (fun gf => gf.1 = g) Q -> pt && lt = false ->
  control W (Some (mk_Core g true true prc lrc)) y (A ++ [(g, Frame_Reset code)]) M.
Proof.
  intros H HQ Hc. eapply (control_drop _ _ _ _ _ _ _ H); [done|done|done|done|done|by right; eexists|].
  intros st _ Hin. cbn [feeds absorb c_gen] in *. destruct st as [[[h a] b]|]; [|by eexists].
  eexists. split; [done|]. cbn. destruct Hin as [[Hh _]|[-> ->]]; [|done]. cbn in Hh. subst h.
  by rewrite N.eqb_refl, !orb_true_r.
Qed.

(** Credit for what the application consumed. *)
Lemma control_credit g lt pt prc lrc lrc' y A Q Q' M :
  control W (Some (mk_Core g lt pt prc lrc)) y (A ++ Q) M -> strip Q' = strip Q ->
  Forall (fun gf => gf.1 = g) Q' -> lrc < lrc' -> lrc' <= W ->
  control W (Some (mk_Core g lt pt prc lrc')) y (A ++ Q') M.
Proof.
  intros [Hfresh Hpos Hgen Hord Hbel (st & Hst & Hfol) Hans Hearly] Hs HQ' Hl Hw. cbn [gen_of c_gen] in *.
  assert (gen_of y = g) as Hy.
  { destruct (N.lt_ge_cases (gen_of y) g) as [Hlt|]; [|cbn in *; lia].
    specialize (Hearly _ eq_refl Hlt). cbn in Hearly. lia. }
  rewrite Hy in *. pose proof (ordered_flat _ _ Hord Hbel) as [HAno HQno]%Forall_app.
  pose proof (ordered_ge _ _ Hord) as [HAge _]%Forall_app. apply Forall_app in Hbel as [HA HQ].
  assert (Forall (fun gf => not_open gf.2 = true) Q') as HQ'no by (by apply quiet_strip; rewrite Hs; apply quiet_strip in HQno).
  split; try done.
  - intros d [= <-]. exact (Hpos _ eq_refl).
  - by rewrite Hy.
  - rewrite Hy. apply ordered_same; apply Forall_app; (split; [|done]); [|done].
    eapply Forall_impl; [exact (proj2 (Forall_and _ _) (conj HA HAge))|]. cbn. intros a []. lia.
  - cbn. apply Forall_app. split; [done|]. eapply Forall_impl; [exact HQ'|]. cbn. by intros a ->.
  - exists st. split; [|done]. by rewrite feeds_strip, strip_app, Hs, <- strip_app, <- feeds_strip.
  - intros d [= <-]. rewrite Hy. cbn. lia.
Qed.

(** The peer's frames of the opener's generation come from a peer that has it. *)
Lemma answer_current c y L M g f :
  control W (Some c) y L M -> answer_ok y (g, f) -> g = c_gen c ->
  exists d, y = Some d /\ c_gen d = c_gen c /\
    match f with Frame_End _ _ => c_lt d = true | Frame_Reset _ => c_closed d = true | _ => True end.
Proof.
  intros Hc Ha ->. pose proof (ctl_gen _ _ _ _ _ Hc) as Hg. destruct y as [d|]; [|done]. cbn in *.
  destruct Ha as (Hle & _ & Hf). exists d. split; [done|]. assert (c_gen d = c_gen c) as He by lia. split; [done|]. exact (Hf (eq_sym He)).
Qed.

Lemma control_quiet c d A Q M :
  control W (Some c) (Some d) (A ++ Q) M -> c_gen d = c_gen c ->
  exists st, feeds (Some (flags d)) A = Some st /\ flags_le (Some (flags d)) st.
Proof.
  intros [_ _ _ Hord Hbel (st & Hst & _) _ _] Hg. cbn [gen_of fmap option_fmap option_map] in *. rewrite feeds_app in Hst.
  destruct (feeds (Some (flags d)) A) as [st1|] eqn:E; [|done]. exists st1. split; [done|]. eapply feeds_quiet; [done|].
  rewrite Hg in Hord. eapply ordered_flat; [by eapply ordered_prefix|]. by apply Forall_app in Hbel as [? _].
Qed.

(** The opener hears a frame; a [Reset] empties its queue. *)
Lemma control_hear c y L M g f :
  control W (Some c) y L ((g, f) :: M) ->
  (match f with Frame_Reset _ => live c (g, f) = false | _ => True end) ->
  control W (Some (take_frame c (g, f))) y L M.
Proof.
  intros Hctl Hr. pose proof Hctl as [Hfresh Hpos Hgen Hord Hbel Hfeeds Hans Hearly].
  apply Forall_cons in Hans as [Ha Hans]. destruct (live c (g, f)) eqn:Hl; cycle 1.
  { unfold take_frame. rewrite Hl. by split. }
  assert (g = c_gen c) as Hg by (unfold live in Hl; bool_simpl; done).
  destruct (answer_current _ _ _ _ _ _ Hctl Ha Hg) as (d & -> & Hd & Hf).
  split; try done.
  - intros e [= <-]. rewrite take_frame_gen. by apply Hpos.
  - cbn. rewrite take_frame_gen. done.
  - cbn. rewrite take_frame_gen. done.
  - destruct Hfeeds as (st & Hst & Hfol). exists st. split; [done|]. unfold take_frame. rewrite Hl. cbn [negb snd].
    destruct f; try done. cbn in Hfol |- *.
    assert (c_closed c = false) as Hc.
    { unfold live, c_closed in *. cbn in Hl. destruct (c_pt c), (c_lt c); try done. by rewrite andb_false_r in Hl. }
    rewrite Hc in Hfol. destruct Hfol as (lt & pt & -> & H1 & H2).
    rewrite <- (app_nil_r L) in Hctl. destruct (control_quiet _ _ _ _ _ Hctl Hd) as (st' & Hst' & Hle).
    rewrite app_nil_r in *. cbn in Hst. rewrite Hst in Hst'. injection Hst' as <-. cbn in Hle. destruct Hle as (_ & Hlt & _).
    specialize (Hlt Hf). subst lt. unfold c_closed. cbn. destruct (c_lt c) eqn:E; cbn; [by rewrite H1|].
    by eexists _, _.
  - intros e [= <-]. rewrite take_frame_gen. cbn. lia.
Qed.

Lemma control_hear_reset c y A Q M g code :
  control W (Some c) y (A ++ Q) ((g, Frame_Reset code) :: M) -> Forall (fun gf => gf.1 = c_gen c) Q ->
  live c (g, Frame_Reset code) = true ->
  control W (Some (take_frame c (g, Frame_Reset code))) y A M.
Proof.
  intros Hctl HQ Hl. pose proof (ctl_answers _ _ _ _ _ Hctl) as [Ha Hans]%Forall_cons.
  assert (g = c_gen c) as Hg by (unfold live in Hl; bool_simpl; done).
  destruct (answer_current _ _ _ _ _ _ Hctl Ha Hg) as (d & -> & Hd & Hf).
  assert (control W (Some c) (Some d) (A ++ Q) M) as Hctl' by (destruct Hctl; by split).
  destruct (control_quiet _ _ _ _ _ Hctl' Hd) as (st' & Hst' & Hle).
  rewrite <- (app_nil_r A). eapply (control_drop _ _ _ _ _ _ _ Hctl'); [done| |by rewrite take_frame_gen| | |by left|].
  - unfold live, c_closed in *. cbn in Hl. destruct (c_pt c), (c_lt c); try done. by rewrite andb_false_r in Hl.
  - unfold take_frame. by rewrite Hl.
  - unfold take_frame. by rewrite Hl.
  - intros st Hst _. cbn in Hst, Hst'. rewrite Hst in Hst'. injection Hst' as <-. exists st. split; [done|].
    eapply over_mono; [done|]. cbn. unfold c_closed in Hf. bool_simpl. done.
Qed.
End Opener.

(** ** Steps of the peer *)

Section Peer.
Context (W : N).

Lemma answer_mono d d' gf :
  c_gen d' = c_gen d -> flags_le (Some (flags d)) (Some (flags d')) -> answer_ok (Some d) gf -> answer_ok (Some d') gf.
Proof.
  intros Hg (_ & Hlt & Hpt) (Hle & Hno & Hf). split; [by rewrite Hg|]. split; [done|]. rewrite Hg. intros He. specialize (Hf He).
  destruct (gf.2); try done; [by apply Hlt|]. unfold c_closed in *. bool_simpl. rewrite Hlt, Hpt by done. done.
Qed.

(** The peer acts on its own: its flags rise, its answers are its own. *)
Lemma control_peer x d d' L M M' :
  control W x (Some d) L M -> c_gen d' = c_gen d -> flags_le (Some (flags d)) (Some (flags d')) ->
  (Forall (answer_ok (Some d')) M -> Forall (answer_ok (Some d')) M') ->
  control W x (Some d') L M'.
Proof.
  intros [Hfresh Hpos Hgen Hord Hbel (st & Hst & Hfol) Hans Hearly] Hg Hle HM. cbn [gen_of fmap option_fmap option_map] in *.
  split; try done; cbn [gen_of]; rewrite ?Hg; try done.
  - intros Hx. by destruct (Hfresh Hx).
  - destruct (feeds_mono _ _ _ _ Hle Hst) as (st' & Hst' & Hle'). exists st'. split; [done|]. by eapply follows_mono.
  - apply HM. eapply Forall_impl; [exact Hans|]. intros gf. by apply answer_mono.
Qed.

Lemma control_peer_snoc x d d' L M f :
  control W x (Some d) L M -> c_gen d' = c_gen d -> flags_le (Some (flags d)) (Some (flags d')) ->
  not_open f = true ->
  match f with Frame_End _ _ => c_lt d' = true | Frame_Reset _ => c_closed d' = true | _ => True end ->
  control W x (Some d') L (M ++ [(c_gen d, f)]).
Proof.
  intros H Hg Hle Hno Hf. eapply control_peer; [done..|]. intros HM. apply Forall_app. split; [done|].
  constructor; [|done]. cbn. split_and!; [lia|done|]. by intros _.
Qed.

Lemma control_peer_reset x d d' L A Q code :
  control W x (Some d) L (A ++ Q) -> c_gen d' = c_gen d -> c_closed d' = true ->
  control W x (Some d') L (A ++ [(c_gen d, Frame_Reset code)]).
Proof.
  intros H Hg Hc. unfold c_closed in Hc. pose proof Hc as [Hp Hl]%andb_true_iff. eapply control_peer; [done|done| |].
  - cbn. rewrite Hg, Hl, Hp. done.
  - intros [HM _]%Forall_app. apply Forall_app. split; [done|]. constructor; [|done]. cbn. split_and!; [lia|done|]. by intros _.
Qed.

Lemma control_peer_credit x d d' L A Q Q' :
  control W x (Some d) L (A ++ Q) -> strip Q' = strip Q -> Forall (fun gf => gf.1 = c_gen d) Q' ->
  c_gen d' = c_gen d -> flags d' = flags d ->
  control W x (Some d') L (A ++ Q').
Proof.
  intros H Hs HQ Hg Hf. eapply control_peer; [done|done|rewrite Hf; apply flags_le_refl|].
  intros [HA HQo]%Forall_app. apply Forall_app. split; [done|]. apply Forall_forall. intros [g f] Hin.
  pose proof (proj1 (Forall_forall _ _) HQ _ Hin) as Hgf. cbn in Hgf.
  destruct (match f with Frame_Credit _ => true | _ => false end) eqn:E.
  { destruct f; try done. cbn. split_and!; [lia|done..]. }
  assert ((g, f) ∈ strip Q') as Hst.
  { apply list_elem_of_In, filter_In. split; [by apply list_elem_of_In|]. cbn. by destruct f. }
  rewrite Hs in Hst. apply list_elem_of_In, filter_In in Hst as [Hst%list_elem_of_In _].
  by apply (proj1 (Forall_forall _ _) HQo).
Qed.

Lemma ordered_le lo lo' l : lo <= lo' -> ordered lo' l -> ordered lo l.
Proof. destruct l as [|[g f] l]; cbn; [done|]. intros Hle (? & Ho & ?). split_and!; [lia| |done]. intros Hx. specialize (Ho Hx). lia. Qed.

Lemma control_early_tail x y gf L M c :
  control W x y (gf :: L) M -> x = Some c -> gen_of y < c_gen c -> W + credits L (c_gen c) <= c_lrc c.
Proof. intros H Hx Hy. pose proof (ctl_early _ _ _ _ _ H c Hx Hy) as He. rewrite credits_cons in He. lia. Qed.

(** The peer hears a frame that opens nothing. *)
Lemma control_peer_hear x d g f L M M' :
  control W x (Some d) ((g, f) :: L) M -> not_open f = true ->
  (Forall (answer_ok (Some (take_frame d (g, f)))) M -> Forall (answer_ok (Some (take_frame d (g, f)))) M') ->
  control W x (Some (take_frame d (g, f))) L M'.
Proof.
  intros H Hno HM. pose proof H as [Hfresh Hpos Hgen (Hlo & _ & Hord) Hbel (st & Hst & Hfol) Hans Hearly].
  apply Forall_cons in Hbel as [Hb Hbel]. cbn [gen_of fmap option_fmap option_map feeds] in *.
  destruct (absorb (Some (flags d)) (g, f)) as [st1|] eqn:E; [|done].
  assert (flags_le (Some (flags d)) st1) as Hle.
  { apply (feeds_quiet _ [(g, f)]); [cbn [feeds]; by rewrite E|by constructor]. }
  apply take_frame_flags in E; [|done]. subst st1. pose proof (take_frame_gen d (g, f)) as Hg.
  split; try done; cbn [gen_of]; rewrite ?Hg; try done.
  - intros Hx. by destruct (Hfresh Hx).
  - by eapply ordered_le.
  - by exists st.
  - apply HM. eapply Forall_impl; [exact Hans|]. intros gf. by apply answer_mono.
  - intros c Hx Hy. by eapply control_early_tail.
Qed.

Lemma control_peer_drop_frame x g f L M :
  control W x None ((g, f) :: L) M -> not_open f = true -> control W x None L M.
Proof.
  intros H Hno. pose proof H as [Hfresh Hpos Hgen (Hlo & _ & Hord) Hbel (st & Hst & Hfol) Hans Hearly].
  apply Forall_cons in Hbel as [Hb Hbel]. cbn [gen_of fmap option_fmap option_map feeds] in *.
  assert (feeds None L = Some st) as Hst'.
  { destruct f; cbn in Hst; done. }
  split; try done.
  - intros Hx. by destruct (Hfresh Hx).
  - by eapply ordered_le.
  - by exists st.
  - intros c Hx Hy. by eapply control_early_tail.
Qed.

(** The peer takes up the stream. *)
Lemma control_accept x y g m headers L A Q :
  control W x y ((g, Frame_Open m headers) :: L) (A ++ Q) ->
  control W x (Some (mk_Core g false false W W)) L A /\ gen_of y < g /\
  (forall d, y = Some d -> c_closed d = true).
Proof.
  intros H. pose proof H as [Hfresh Hpos Hgen (Hlo & Hopen & Hord) Hbel (st & Hst & Hfol) Hans Hearly].
  apply Forall_cons in Hbel as [Hb Hbel]. specialize (Hopen eq_refl). cbn [feeds absorb] in Hst.
  apply Forall_app in Hans as [Hans _]. split_and!; [|done|].
  - split; try done.
    + intros Hx. by destruct (Hfresh Hx).
    + destruct y as [d|]; cbn in Hst; [|by exists st]. destruct (_ && _); [by exists st|done].
    + eapply Forall_impl; [exact Hans|]. intros [h f] Ha. destruct y as [d|]; [|done]. destruct Ha as (Hle & Hno & _). cbn in *.
      split_and!; [lia|done|lia].
    + intros c Hx Hy. eapply control_early_tail; [done..|]. cbn in Hy. lia.
  - intros d ->. cbn in Hst. unfold c_closed. rewrite andb_comm. destruct (c_lt d && c_pt d); [done|done].
Qed.
End Peer.
