(* ===== verification/MuxFlow.v ===== *)
(** * Flow and transfer on a slot (crates/wire/src/mux/state.rs)

    How the flow and the transfer invariants of a slot move with the steps of its
    two ends, for either direction; and the invariant of a slot as a whole. *)

From S2P Require Import Prelude Xet XetChunk Canonical Primitive Errors Context Auth Objects Registry.
From S2P Require Import View Store Terms Work PaidWork JobBook JobInput Cbor Frame Mux MuxOk MuxLink.

#[local] Open Scope N_scope.

Section Flow.
Context (W : N).

(** Less on the way, the same accounts. *)
Definition same_sender (x x' : option Core) : Prop :=
  (fun c => (c_gen c, c_prc c)) <$> x' = (fun c => (c_gen c, c_prc c)) <$> x.
Definition same_receiver (y y' : option Core) : Prop :=
  (fun c => (c_gen c, c_lrc c)) <$> y' = (fun c => (c_gen c, c_lrc c)) <$> y.

Lemma flow_weaken x x' y y' X X' Y Y' :
  flow W x y X Y -> (forall h, bodies X' h <= bodies X h) -> (forall h, credits Y' h <= credits Y h) ->
  same_sender x x' -> same_receiver y y' -> flow W x' y' X' Y'.
Proof.
  intros Hf HX HY Hx Hy h. specialize (Hf h). specialize (HX h). specialize (HY h).
  assert (gen_of y' = gen_of y /\ will_take W y' h = will_take W y h) as [-> ->].
  { destruct y as [c|], y' as [c'|]; try done. injection Hy as H1 H2. cbn. by rewrite H1, H2. }
  intros Hh. specialize (Hf Hh). assert (may_send x' Y' h <= may_send x Y h); [|lia].
  destruct x as [c|], x' as [c'|]; try done. injection Hx as H1 H2. unfold may_send. rewrite H1, H2. destruct (_ =? _); lia.
Qed.

Lemma flow_send g lt pt prc lrc y X Y payload :
  flow W (Some (mk_Core g lt pt prc lrc)) y X Y -> lenN payload <= prc ->
  flow W (Some (mk_Core g lt pt (prc - lenN payload) lrc)) y (X ++ [(g, Frame_Body payload)]) Y.
Proof.
  intros Hf Hp h Hh. specialize (Hf h Hh). unfold may_send in *. cbn [c_gen c_prc] in *.
  rewrite bodies_app. unfold bodies at 2. cbn [sumN fold_right]. unfold body_at. cbn [fst snd]. destruct (g =? h); lia.
Qed.

(** A receiver that consumed grants as much. *)
Lemma flow_grant x g lt pt prc lrc n X A Q Q' :
  flow W x (Some (mk_Core g lt pt prc lrc)) X (A ++ Q) ->
  (forall h, credits Q' h <= credits Q h + (if g =? h then n else 0)) ->
  Forall (fun gf => gf.1 = g) Q' ->
  flow W x (Some (mk_Core g lt pt prc (lrc + n))) X (A ++ Q').
Proof.
  intros Hf HQ Hg h Hh. specialize (Hf h Hh). specialize (HQ h). unfold may_send, will_take in *. cbn [c_gen c_lrc] in *.
  assert (credits Q' h = 0 \/ g = h) as Hz.
  { destruct (N.eq_dec g h) as [|Hne]; [by right|left]. clear -Hg Hne. induction Hg as [|[k f] l Hk _ IH]; [done|].
    rewrite credits_cons, IH. cbn in Hk. subst k. unfold credit_at. cbn. destruct f; try done. by rewrite (proj2 (N.eqb_neq _ _)). }
  destruct x as [c|]; [|destruct (g =? h); lia]. rewrite credits_app in *.
  destruct (N.eqb_spec g h), (c_gen c =? h); lia.
Qed.

Lemma flow_hear_receiver x c gf X Y :
  flow W x (Some c) (gf :: X) Y -> flow W x (Some (take_frame c gf)) X Y.
Proof.
  intros Hf h. cbn [gen_of]. rewrite take_frame_gen. intros Hh. specialize (Hf h Hh). rewrite bodies_cons in Hf.
  unfold will_take in *. rewrite take_frame_gen. destruct (N.eqb_spec (c_gen c) h) as [He|]; [|lia].
  unfold take_frame, live. destruct gf as [g f]. unfold body_at in Hf. cbn [fst snd] in *.
  destruct (N.eqb_spec (c_gen c) g) as [Hg|]; [|cbn; lia]. destruct (negb (c_pt c && (c_lt c || negb (late_ok f)))); cbn [andb negb]; [|lia].
  destruct f; cbn [c_lrc]; try lia. destruct (N.eqb_spec g h); [|congruence]. lia.
Qed.

Lemma flow_no_overrun x c g payload X Y :
  flow W x (Some c) ((g, Frame_Body payload) :: X) Y -> c_gen c = g -> lenN payload <= c_lrc c.
Proof.
  intros Hf <-. specialize (Hf (c_gen c)). cbn [gen_of will_take] in Hf. rewrite N.eqb_refl, bodies_cons in Hf.
  unfold body_at in Hf. cbn [fst snd] in Hf. rewrite N.eqb_refl in Hf. specialize (Hf (N.le_refl _)). lia.
Qed.

Lemma flow_hear_sender c gf y X Y :
  flow W (Some c) y X (gf :: Y) -> flow W (Some (take_frame c gf)) y X Y.
Proof.
  intros Hf h Hh. specialize (Hf h Hh). unfold may_send in *. rewrite take_frame_gen.
  destruct (N.eqb_spec (c_gen c) h) as [He|]; [|lia]. rewrite credits_cons in Hf.
  unfold take_frame, live. destruct gf as [g f]. unfold credit_at in Hf. cbn [fst snd] in *.
  destruct (N.eqb_spec (c_gen c) g) as [Hg|]; [|cbn; lia]. destruct (negb (c_pt c && (c_lt c || negb (late_ok f)))); cbn [andb negb]; [|lia].
  destruct f; cbn [c_prc]; try lia. destruct (N.eqb_spec g h); [|congruence]. unfold u32_saturating_add. lia.
Qed.

(** A stale frame changes no account. *)
Lemma flow_drop_frame x gf X Y : flow W x None (gf :: X) Y -> flow W x None X Y.
Proof. intros Hf h Hh. specialize (Hf h Hh). rewrite bodies_cons in Hf. lia. Qed.

(** A new generation starts with a whole window. *)
Lemma flow_open x y X Y f :
  flow W x y X Y -> Forall (fun gf => gf.1 <= gen_of x) X -> Forall (fun gf => gf.1 <= gen_of y) Y ->
  gen_of y <= gen_of x -> not_open f = false ->
  flow W (Some (mk_Core (gen_of x + 1) false false W W)) y (X ++ [(gen_of x + 1, f)]) Y.
Proof.
  intros Hf HX HY Hg Hop h Hh. specialize (Hf h Hh). rewrite bodies_app. unfold bodies at 2. cbn [sumN fold_right].
  assert (body_at h (gen_of x + 1, f) = 0) as -> by (by destruct f). unfold may_send. cbn [c_gen c_prc].
  destruct (N.eqb_spec (gen_of x + 1) h) as [<-|]; [|lia].
  rewrite (bodies_above X (gen_of x)), (credits_above Y (gen_of y)) by (done || lia).
  assert (will_take W y (gen_of x + 1) = W) as ->; [|lia].
  destruct y as [c|]; cbn in *; [|done]. destruct (N.eqb_spec (c_gen c) (gen_of x + 1)); [lia|done].
Qed.

(** The opener as a receiver: nothing of the new generation is on its way. *)
Lemma flow_open_receiver x y g X Y Y' c' :
  flow W x y X Y -> Forall (fun gf => gf.1 <= gen_of x) X -> gen_of x < g -> c_gen c' = g ->
  flow W x (Some c') X Y'.
Proof.
  intros Hf HX Hg Hc h Hh. cbn [gen_of] in Hh. rewrite Hc in Hh. rewrite (bodies_above X (gen_of x)) by (done || lia).
  destruct x as [c|]; cbn in *; [|lia]. destruct (N.eqb_spec (c_gen c) h); lia.
Qed.

(** The peer takes the stream up: as a receiver it grants a window, as a sender
    it has one. *)
Lemma flow_accept_receiver x y g X Y Y' f :
  flow W x y ((g, f) :: X) Y -> not_open f = false -> gen_of y < g -> Forall (fun gf => gf.1 <= gen_of y) Y ->
  (forall h, credits Y' h <= credits Y h) ->
  flow W x (Some (mk_Core g false false W W)) X Y'.
Proof.
  intros Hf Hop Hg HY HY' h Hh. cbn [gen_of c_gen] in Hh. specialize (Hf h ltac:(lia)). specialize (HY' h).
  rewrite bodies_cons in Hf. assert (will_take W y h = W) as Ht.
  { destruct y as [c|]; cbn in *; [|done]. destruct (N.eqb_spec (c_gen c) h); [lia|done]. }
  assert (will_take W (Some (mk_Core g false false W W)) h = W) as -> by (cbn; by destruct (_ =? _)).
  rewrite Ht in Hf. assert (may_send x Y' h <= may_send x Y h); [|lia].
  destruct x as [c|]; cbn; [|lia]. destruct (_ =? _); lia.
Qed.

Lemma flow_accept_sender x y g X X' Y Y' :
  flow W x y X Y -> Forall (fun gf => gf.1 <= gen_of x) X' -> gen_of x < g -> g <= gen_of y ->
  (forall c, y = Some c -> gen_of x < c_gen c -> W + credits Y' (c_gen c) <= c_lrc c) ->
  flow W (Some (mk_Core g false false W W)) y X' Y'.
Proof.
  intros Hf HX Hg Hgy He h Hh. rewrite (bodies_above X' (gen_of x)) by (done || lia). cbn [may_send c_gen c_prc].
  destruct (N.eqb_spec g h) as [<-|]; [|lia]. destruct y as [c|]; cbn in *; [|lia].
  assert (c_gen c = g) as Hc by lia. rewrite Hc, N.eqb_refl. specialize (He c eq_refl). rewrite Hc in He. lia.
Qed.
End Flow.

(** ** Transfer *)

Definition sender_done (x : option Core) (h : N) : Prop :=
  match x with Some c => h < c_gen c \/ (c_gen c = h /\ c_lt c = true) | None => False end.
Definition receiver_done (y : option Core) (h : N) : Prop :=
  match y with Some c => h < c_gen c \/ (c_gen c = h /\ c_pt c = true) | None => False end.

Definition end_at (h : N) (gf : Tagged) : Prop := match gf.2 with Frame_End _ _ => gf.1 = h | _ => False end.

(** Where an [End] is, all that was accepted has gone before it. *)
Fixpoint end_ok (h : N) (X : list Tagged) (before all : list bytes) : Prop :=
  match X with
  | [] => True
  | gf :: X => (end_at h gf -> before = all) /\ end_ok h X (before ++ chunk_at h gf) all
  end.

(** [sent] and [got] are the bodies accepted and delivered per generation, [fin]
    the generations whose [End] was delivered. *)
Record transfer (x y : option Core) (X : list Tagged) (sent got : N -> list bytes) (fin : N -> Prop) : Prop :=
mk_transfer {
  tr_future : forall h, gen_of x < h -> sent h = [];
  tr_prefix : forall h, got h `prefix_of` sent h;
  tr_live : forall h, ~ receiver_done y h ->
    (exists lost, sent h = got h ++ chunks X h ++ lost /\ (lost <> [] -> sender_done x h)) /\
    end_ok h X (got h) (sent h) /\ Forall (fun gf => end_at h gf -> sender_done x h) X;
  tr_fin : forall h, fin h -> got h = sent h /\ sender_done x h /\ receiver_done y h;
}.

Lemma end_ok_app h X Y b a : end_ok h (X ++ Y) b a <-> end_ok h X b a /\ end_ok h Y (b ++ chunks X h) a.
Proof.
  revert b. induction X as [|gf X IH]; intros b; cbn [end_ok app].
  - unfold chunks. cbn. rewrite app_nil_r. naive_solver.
  - rewrite IH, chunks_cons, app_assoc. naive_solver.
Qed.

Lemma end_ok_free h X b a : Forall (fun gf => ~ end_at h gf) X -> end_ok h X b a.
Proof. revert b. induction X as [|gf X IH]; intros b; cbn; [done|]. intros [Hg HX]%Forall_cons. split; [done|]. by apply IH. Qed.

Lemma end_ok_strip h X b a : end_ok h X b a <-> end_ok h (strip X) b a.
Proof.
  revert b. induction X as [|[g f] X IH]; intros b; [done|]. cbn [strip List.filter snd].
  destruct f; cbn [end_ok]; rewrite IH; try done. unfold chunk_at, end_at. cbn. rewrite app_nil_r. naive_solver.
Qed.

Lemma ends_strip h (P : Prop) X : Forall (fun gf => end_at h gf -> P) X <-> Forall (fun gf => end_at h gf -> P) (strip X).
Proof.
  induction X as [|[g f] X IH]; [done|]. cbn [strip List.filter snd]. rewrite Forall_cons, IH.
  destruct f; rewrite ?Forall_cons; try done. unfold end_at. cbn. naive_solver.
Qed.

Lemma chunks_other X g h : Forall (fun gf => gf.1 = g) X -> g <> h -> chunks X h = [].
Proof.
  intros HX Hne. induction HX as [|[k f] X Hk _ IH]; [done|]. rewrite chunks_cons, IH. cbn in Hk. subst k.
  unfold chunk_at. cbn. destruct f; try done. by rewrite (proj2 (N.eqb_neq _ _)).
Qed.

Lemma transfer_ext x y X sent sent' got got' fin fin' :
  transfer x y X sent got fin -> (forall h, sent' h = sent h) -> (forall h, got' h = got h) -> (forall h, fin' h -> fin h) ->
  transfer x y X sent' got' fin'.
Proof.
  intros [Hfut Hpre Hlive Hfin] Hs Hg Hf. split.
  - intros h Hh. rewrite Hs. by apply Hfut.
  - intros h. rewrite Hs, Hg. apply Hpre.
  - intros h. rewrite Hs, Hg. apply Hlive.
  - intros h Hh%Hf. rewrite Hs, Hg. by apply Hfin.
Qed.

(** The sender's half: it accepts a body. *)
Definition snoc_at (f : N -> list bytes) (g : N) (p : bytes) (h : N) : list bytes :=
  if g =? h then f h ++ [p] else f h.

Lemma transfer_send c c' y X sent got fin payload :
  transfer (Some c) y X sent got fin -> c_lt c = false -> c_gen c' = c_gen c -> c_lt c' = false ->
  transfer (Some c') y (X ++ [(c_gen c, Frame_Body payload)]) (snoc_at sent (c_gen c) payload) got fin.
Proof.
  intros [Hfut Hpre Hlive Hfin] Hlt Hg Hlt'. unfold snoc_at.
  assert (forall h, sender_done (Some c') h <-> sender_done (Some c) h) as Hdone by (intros h; cbn; by rewrite Hg, Hlt, Hlt').
  assert (~ sender_done (Some c) (c_gen c)) as Hnd by (cbn; rewrite Hlt; intros [|[_ ?]]; [lia|done]).
  split; cbn [gen_of].
  - intros h. rewrite Hg. intros Hh. rewrite (proj2 (N.eqb_neq _ _)) by lia. by apply Hfut.
  - intros h. destruct (_ =? h); [|done]. etrans; [apply Hpre|]. by apply prefix_app_r.
  - intros h Hn. destruct (Hlive h Hn) as ((lost & Hs & Hl) & He & Hall). rewrite chunks_app.
    setoid_rewrite Hdone. destruct (N.eqb_spec (c_gen c) h) as [<-|Hne].
    + assert (lost = []) as -> by (destruct lost; [done|by exfalso; apply Hnd, Hl]).
      assert (Forall (fun gf => ~ end_at (c_gen c) gf) X) as Hno
        by (eapply Forall_impl; [exact Hall|]; cbn; intros gf H He'; by apply Hnd, H).
      split_and!.
      * exists []. rewrite Hs. unfold chunks at 3. cbn. unfold chunk_at. cbn. rewrite N.eqb_refl, !app_nil_r, !app_assoc. done.
      * apply end_ok_free. apply Forall_app. split; [done|]. constructor; [cbn; tauto|done].
      * apply Forall_app. split; [done|]. constructor; [cbn; tauto|done].
    + split_and!.
      * exists lost. rewrite Hs. unfold chunks at 3. cbn. unfold chunk_at. cbn.
        rewrite (proj2 (N.eqb_neq _ _)) by done. by rewrite !app_nil_r.
      * apply end_ok_app. split; [done|]. cbn. done.
      * apply Forall_app. split; [done|]. constructor; [cbn; tauto|done].
  - intros h Hf. rewrite Hdone. destruct (Hfin h Hf) as (He & Hd & Hr). split_and!; [|done..].
    destruct (N.eqb_spec (c_gen c) h) as [<-|]; [by exfalso|done].
Qed.

Lemma transfer_close c c' y X sent got fin status trailer :
  transfer (Some c) y X sent got fin -> c_lt c = false -> c_gen c' = c_gen c -> c_lt c' = true ->
  transfer (Some c') y (X ++ [(c_gen c, Frame_End status trailer)]) sent got fin.
Proof.
  intros [Hfut Hpre Hlive Hfin] Hlt Hg Hlt'.
  assert (forall h, sender_done (Some c) h -> sender_done (Some c') h) as Hdone
    by (intros h; cbn; rewrite Hg; intros [?|[? ?]]; [by left|congruence]).
  assert (~ sender_done (Some c) (c_gen c)) as Hnd by (cbn; rewrite Hlt; intros [|[_ ?]]; [lia|done]).
  assert (sender_done (Some c') (c_gen c)) as Hd' by (cbn; rewrite Hg; by right).
  split; cbn [gen_of]; [by rewrite Hg|done| |].
  - intros h Hn. destruct (Hlive h Hn) as ((lost & Hs & Hl) & He & Hall). rewrite chunks_app.
    assert (chunks [(c_gen c, Frame_End status trailer)] h = []) as -> by done. rewrite app_nil_r. split_and!.
    + exists lost. split; [done|]. intros H. by apply Hdone, Hl.
    + apply end_ok_app. split; [done|]. cbn. split; [|done]. intros <-.
      assert (lost = []) as -> by (destruct lost; [done|by exfalso; apply Hnd, Hl]). by rewrite Hs, app_nil_r.
    + apply Forall_app. split; [eapply Forall_impl; [exact Hall|]; cbn; intros gf H He'; by apply Hdone, H|].
      constructor; [|done]. intros <-. done.
  - intros h Hf. destruct (Hfin h Hf) as (? & ? & ?). split_and!; [done|by apply Hdone|done].
Qed.

(** The sender drops what it had queued, or says something that is neither a body
    nor an end; its generation may rise. *)
Lemma transfer_trim x x' y A Q T g sent got fin :
  transfer x y (A ++ Q) sent got fin -> gen_of x <= gen_of x' ->
  (forall h, sender_done x h -> sender_done x' h) ->
  Forall (fun gf => gf.1 = g) Q -> (Q <> [] -> sender_done x' g) ->
  Forall (fun gf => match gf.2 with Frame_Body _ | Frame_End _ _ => False | _ => True end) T ->
  transfer x' y (A ++ T) sent got fin.
Proof.
  intros [Hfut Hpre Hlive Hfin] Hgen Hdone HQ HQd HT. split; [by intros h Hh; apply Hfut; lia|done| |].
  - intros h Hn. destruct (Hlive h Hn) as ((lost & Hs & Hl) & He & Hall). rewrite chunks_app in *.
    assert (chunks T h = []) as ->.
    { clear -HT. induction HT as [|[k f] T Hf _ IH]; [done|]. rewrite chunks_cons, IH. by destruct f. }
    apply end_ok_app in He as [He _]. apply Forall_app in Hall as [Hall _]. rewrite app_nil_r. split_and!.
    + exists (chunks Q h ++ lost). rewrite Hs. rewrite !app_assoc. split; [done|].
      intros Hne. destruct (decide (lost = [])) as [->|Hne']; [|by apply Hdone, Hl].
      rewrite app_nil_r in Hne. destruct (N.eq_dec g h) as [<-|Hgh]; [|by rewrite (chunks_other Q g h) in Hne].
      apply HQd. by intros ->.
    + apply end_ok_app. split; [done|]. apply end_ok_free. eapply Forall_impl; [exact HT|].
      intros [k f]. cbn. unfold end_at. cbn. destruct f; tauto.
    + apply Forall_app. split; [eapply Forall_impl; [exact Hall|]; cbn; intros gf H He'; by apply Hdone, H|].
      eapply Forall_impl; [exact HT|]. intros [k f]. cbn. unfold end_at. cbn. destruct f; tauto.
  - intros h Hf. destruct (Hfin h Hf) as (? & ? & ?). split_and!; [done|by apply Hdone|done].
Qed.

(** Credit among what is queued. *)
Lemma transfer_credit x x' y A Q Q' sent got fin :
  transfer x y (A ++ Q) sent got fin -> strip Q' = strip Q -> gen_of x' = gen_of x ->
  (forall h, sender_done x' h <-> sender_done x h) ->
  transfer x' y (A ++ Q') sent got fin.
Proof.
  intros [Hfut Hpre Hlive Hfin] Hs Hg Hd. assert (strip (A ++ Q') = strip (A ++ Q)) as HS by (by rewrite !strip_app, Hs).
  split; [by rewrite Hg|done| |].
  - intros h Hn. destruct (Hlive h Hn) as ((lost & Hl & Hld) & He & Hall). split_and!.
    + exists lost. rewrite Hd. by rewrite chunks_strip, HS, <- chunks_strip.
    + by rewrite end_ok_strip, HS, <- end_ok_strip.
    + apply ends_strip. rewrite HS. apply (ends_strip h (sender_done x' h) (A ++ Q)).
      eapply Forall_impl; [exact Hall|]. cbn. intros gf H He'. by apply Hd, H.
  - intros h Hf. rewrite Hd. by apply Hfin.
Qed.

(** The receiver moves on. *)
Lemma transfer_receiver x y y' X sent got fin :
  transfer x y X sent got fin -> (forall h, receiver_done y h -> receiver_done y' h) ->
  transfer x y' X sent got fin.
Proof.
  intros [Hfut Hpre Hlive Hfin] Hd. split; [done..| |].
  - intros h Hn. apply Hlive. intros H. by apply Hn, Hd.
  - intros h Hf. destruct (Hfin h Hf) as (? & ? & ?). split_and!; [done..|by apply Hd].
Qed.

(** A frame the receiver drops: a body only of a generation that is over there. *)
Lemma transfer_drop x y gf X sent got fin :
  transfer x y (gf :: X) sent got fin -> (is_body gf.2 = true -> receiver_done y gf.1) ->
  transfer x y X sent got fin.
Proof.
  intros [Hfut Hpre Hlive Hfin] Hb. split; [done..| |done].
  intros h Hn. destruct (Hlive h Hn) as ((lost & Hs & Hl) & [_ He] & [_ Hall]%Forall_cons). rewrite chunks_cons in Hs.
  assert (chunk_at h gf = []) as Hc.
  { unfold chunk_at. destruct gf as [g f]. cbn in *. destruct f; try done. destruct (N.eqb_spec g h) as [->|]; [|done]. by exfalso; apply Hn, Hb. }
  rewrite Hc, ?app_nil_r in *. split_and!; [by exists lost|done..].
Qed.

(** A body or an end the receiver takes. *)
Lemma transfer_body x c c' g payload X sent got fin :
  transfer x (Some c) ((g, Frame_Body payload) :: X) sent got fin -> c_gen c = g -> c_pt c = false ->
  c_gen c' = g -> c_pt c' = false ->
  transfer x (Some c') X sent (snoc_at got g payload) fin.
Proof.
  intros [Hfut Hpre Hlive Hfin] Hg Hpt Hg' Hpt'. subst g. unfold snoc_at.
  assert (forall h, receiver_done (Some c') h <-> receiver_done (Some c) h) as Hdone by (intros h; cbn; by rewrite Hg', Hpt, Hpt').
  assert (~ receiver_done (Some c) (c_gen c)) as Hnd by (cbn; rewrite Hpt; intros [|[_ ?]]; [lia|done]).
  destruct (Hlive _ Hnd) as ((lost & Hs & Hl) & _). rewrite chunks_cons in Hs. unfold chunk_at in Hs. cbn [fst snd] in Hs.
  rewrite N.eqb_refl in Hs. split; [done| | |].
  - intros h. destruct (N.eqb_spec (c_gen c) h) as [<-|]; [|done]. rewrite Hs. exists (chunks X (c_gen c) ++ lost).
    by rewrite <- !app_assoc.
  - intros h. rewrite Hdone. intros Hn. destruct (Hlive h Hn) as ((lost' & Hs' & Hl') & [_ He] & [_ Hall]%Forall_cons).
    rewrite chunks_cons in Hs'. unfold chunk_at in *. cbn [fst snd] in *. destruct (N.eqb_spec (c_gen c) h) as [<-|].
    + split_and!; [|done..]. exists lost'. split; [|done]. rewrite Hs'. by rewrite <- !app_assoc.
    + rewrite app_nil_r in He. split_and!; [by exists lost'|done..].
  - intros h Hf. rewrite Hdone. destruct (Hfin h Hf) as (? & ? & ?). split_and!; [|done..].
    destruct (N.eqb_spec (c_gen c) h) as [<-|]; done.
Qed.

Lemma transfer_end x c c' g status trailer X sent got (fin : N -> Prop) :
  transfer x (Some c) ((g, Frame_End status trailer) :: X) sent got fin -> c_gen c = g -> c_pt c = false ->
  c_gen c' = g -> c_pt c' = true ->
  transfer x (Some c') X sent got (fun h => fin h \/ h = g).
Proof.
  intros H Hg Hpt Hg' Hpt'. subst g.
  assert (~ receiver_done (Some c) (c_gen c)) as Hnd by (cbn; rewrite Hpt; intros [|[_ ?]]; [lia|done]).
  pose proof (tr_live _ _ _ _ _ _ H _ Hnd) as (_ & [He _] & [Hd _]%Forall_cons).
  apply transfer_drop in H; [|done]. eapply (transfer_receiver _ _ (Some c')) in H; cycle 1.
  { intros h. cbn. rewrite Hg'. intros [?|[? ?]]; [by left|congruence]. }
  destruct H as [Hfut Hpre Hlive Hfin]. split; [done..|]. intros h [Hf|Hh]; [by apply Hfin|].
  subst h. split_and!; [by apply He|by apply Hd|]. cbn. rewrite Hg'. by right.
Qed.

(** The receiver takes the frame. *)
Definition got_by (c : Core) (gf : Tagged) (got : N -> list bytes) : N -> list bytes :=
  match gf.2 with
  | Frame_Body payload => if live c gf then snoc_at got gf.1 payload else got
  | _ => got
  end.
Definition fin_by (c : Core) (gf : Tagged) (fin : N -> Prop) : N -> Prop :=
  match gf.2 with
  | Frame_End _ _ => if live c gf then (fun h => fin h \/ h = gf.1) else fin
  | _ => fin
  end.

Lemma transfer_hear x c gf X sent got fin :
  transfer x (Some c) (gf :: X) sent got fin -> (is_body gf.2 = true -> gf.1 <= c_gen c) ->
  transfer x (Some (take_frame c gf)) X sent (got_by c gf got) (fin_by c gf fin).
Proof.
  intros H Hb. assert (forall h, receiver_done (Some c) h -> receiver_done (Some (take_frame c gf)) h) as Hdone.
  { intros h. cbn. rewrite take_frame_gen. intros [?|[? Hp]]; [by left|right; split; [done|]]. unfold take_frame.
    destruct (negb _); [done|]. by destruct (gf.2). }
  destruct (live c gf) eqn:Hl; cycle 1.
  - assert (got_by c gf got = got) as -> by (unfold got_by; rewrite Hl; by destruct (gf.2)).
    assert (fin_by c gf fin = fin) as -> by (unfold fin_by; rewrite Hl; by destruct (gf.2)).
    eapply transfer_receiver; [|exact Hdone]. eapply transfer_drop; [exact H|]. intros Hbody. specialize (Hb Hbody). cbn.
    unfold live in Hl. destruct gf as [g f]. cbn in *. destruct (N.eqb_spec (c_gen c) g) as [<-|]; [|left; lia]. right.
    split; [done|]. destruct f; try done. cbn in Hl. rewrite orb_true_r, andb_true_r in Hl. by destruct (c_pt c).
  - destruct gf as [g f]. assert (c_gen c = g) as Hg by (unfold live in Hl; bool_simpl; done).
    assert (is_body f = true \/ (exists s t, f = Frame_End s t) -> c_pt c = false) as Hpt.
    { unfold live in Hl. bool_simpl. intros [Hf|(s & t & ->)]; cbn in *; [destruct f; try done; cbn in *|];
        rewrite orb_true_r, andb_true_r in *; by destruct (c_pt c). }
    unfold got_by, fin_by, take_frame in *. rewrite Hl in *. cbn [negb fst snd] in *.
    destruct f; try (eapply transfer_receiver; [|exact Hdone]; eapply transfer_drop; [exact H|done]).
    + eapply transfer_body; [exact H|done|by apply Hpt; left|done|]. cbn. by apply Hpt; left.
    + eapply transfer_end; [exact H|done|by apply Hpt; right; eauto|done|done].
Qed.

(** ** No credit is lost *)

(** While both ends of a direction are open, what may still be sent, what is on
    its way and the credit coming back add up to what the receiver takes. *)
Definition balanced (W : N) (x y : option Core) (X Y : list Tagged) : Prop :=
  forall c, x = Some c -> c_closed c = false -> ~ receiver_done y (c_gen c) ->
  bodies X (c_gen c) + c_prc c + credits Y (c_gen c) = will_take W y (c_gen c).

Section Balance.
Context (W : N).

(** Nothing that is counted changes. *)
Lemma balanced_same x x' y y' X X' Y Y' :
  balanced W x y X Y -> same_sender x x' -> same_receiver y y' ->
  (forall c c', x = Some c -> x' = Some c' -> c_closed c = true -> c_closed c' = true) ->
  (forall h, receiver_done y h -> receiver_done y' h) ->
  (forall h, bodies X' h = bodies X h) -> (forall h, credits Y' h = credits Y h) ->
  balanced W x' y' X' Y'.
Proof.
  intros Hb Hx Hy Hc Hd HX HY c' -> Ho Hr. destruct x as [c|]; [|done]. injection Hx as Hg Hp. rewrite HX, HY, Hg, Hp.
  assert (will_take W y' (c_gen c) = will_take W y (c_gen c)) as ->.
  { destruct y as [d|], y' as [d'|]; try done. injection Hy as H1 H2. cbn. by rewrite H1, H2. }
  apply Hb; [done| |].
  - destruct (c_closed c) eqn:E; [|done]. by rewrite (Hc c c') in Ho.
  - intros H. apply Hr. rewrite Hg. by apply Hd.
Qed.

(** One of the ends is over. *)
Lemma balanced_sender_over c y X Y : c_closed c = true -> balanced W (Some c) y X Y.
Proof. intros Hc c' [= <-]. congruence. Qed.

Lemma balanced_receiver_over x d d' X Y Y' :
  balanced W x (Some d) X Y -> c_gen d' = c_gen d -> c_pt d' = true ->
  (forall h, c_gen d < h -> credits Y' h = credits Y h) -> balanced W x (Some d') X Y'.
Proof.
  intros Hb Hg Hp HY c -> Hc Hr. cbn [receiver_done will_take] in *. rewrite Hg in *.
  destruct (N.lt_trichotomy (c_gen c) (c_gen d)) as [?|[He|Hlt]]; [by exfalso; apply Hr; left|by exfalso; apply Hr; right|].
  rewrite HY by done. rewrite (proj2 (N.eqb_neq _ _)) by lia.
  specialize (Hb c eq_refl Hc). cbn [receiver_done will_take] in Hb. rewrite (proj2 (N.eqb_neq _ _)) in Hb by lia.
  apply Hb. intros [?|[? ?]]; lia.
Qed.

Lemma balanced_send g lt pt prc lrc y X Y payload :
  balanced W (Some (mk_Core g lt pt prc lrc)) y X Y -> lenN payload <= prc ->
  balanced W (Some (mk_Core g lt pt (prc - lenN payload) lrc)) y (X ++ [(g, Frame_Body payload)]) Y.
Proof.
  intros Hb Hp c [= <-] Hc Hr. specialize (Hb _ eq_refl Hc Hr). cbn [c_gen c_prc] in *.
  rewrite bodies_app, bodies_cons. unfold body_at. cbn [fst snd]. rewrite N.eqb_refl. cbn. lia.
Qed.

Lemma balanced_grant x g lt pt prc lrc n X A Q Q' :
  balanced W x (Some (mk_Core g lt pt prc lrc)) X (A ++ Q) ->
  (credits Q g + n <= 4294967295 -> credits Q' g = credits Q g + n) ->
  (forall h, h <> g -> credits Q' h = credits Q h) -> lrc <= W -> n <= W -> W + W <= 4294967295 ->
  balanced W x (Some (mk_Core g lt pt prc (lrc + n))) X (A ++ Q').
Proof.
  intros Hb HQ Hne Hl Hn HW c -> Hc Hr. specialize (Hb c eq_refl Hc Hr). cbn [will_take c_gen c_lrc] in *. rewrite credits_app in *.
  destruct (N.eqb_spec g (c_gen c)) as [He|Hx]; [rewrite <- He in *; rewrite HQ by lia; lia|].
  by rewrite (Hne (c_gen c)).
Qed.

Lemma balanced_hear_receiver x c gf X Y :
  balanced W x (Some c) (gf :: X) Y -> flow W x (Some c) (gf :: X) Y ->
  (is_body gf.2 = true -> gf.1 <= c_gen c) ->
  balanced W x (Some (take_frame c gf)) X Y.
Proof.
  intros Hb Hf Hle b -> Hc Hr. cbn [receiver_done] in Hr. rewrite take_frame_gen in Hr.
  assert (~ receiver_done (Some c) (c_gen b)) as Hr0.
  { cbn. intros [?|[He Hp]]; apply Hr; [by left|right]. split; [done|]. unfold take_frame. destruct (negb _); [done|]. by destruct (gf.2). }
  specialize (Hb b eq_refl Hc Hr0). rewrite bodies_cons in Hb. unfold will_take in *. rewrite take_frame_gen.
  destruct gf as [g f]. cbn [fst snd] in *. destruct (is_body f) eqn:Hbody; cycle 1.
  { assert (body_at (c_gen b) (g, f) = 0) as H0 by (by destruct f). rewrite H0 in Hb. rewrite N.add_0_l in Hb.
    unfold take_frame. destruct (negb _); [done|]. destruct f; try done. }
  destruct f as [|payload| | |]; try done. unfold body_at in Hb. cbn [fst snd] in Hb. unfold take_frame, live. cbn [fst snd late_ok negb].
  rewrite orb_true_r, andb_true_r. cbn in Hr0. destruct (N.eqb_spec (c_gen c) g) as [He|Hne].
  - destruct (c_pt c) eqn:Hp; cbn [andb negb].
    + destruct (N.eqb_spec g (c_gen b)) as [Hgb|]; [|destruct (N.eqb_spec (c_gen c) (c_gen b)); lia].
      exfalso. apply Hr0. right. split; [congruence|done].
    + cbn [c_lrc]. pose proof (flow_no_overrun W _ _ _ _ _ _ Hf He). rewrite He in *.
      destruct (N.eqb_spec g (c_gen b)); lia.
  - cbn [andb negb]. destruct (N.eqb_spec g (c_gen b)) as [Hgb|]; [|done]. exfalso. apply Hr0. left. specialize (Hle eq_refl). lia.
Qed.

Lemma balanced_hear_sender c gf y X Y :
  balanced W (Some c) y X (gf :: Y) -> (forall d, y = Some d -> c_lrc d <= W) -> W + W <= 4294967295 ->
  balanced W (Some (take_frame c gf)) y X Y.
Proof.
  intros Hb Hl HW b [= <-] Hc Hr. rewrite take_frame_gen in *.
  assert (c_closed c = false) as Hc0.
  { destruct (c_closed c) eqn:E; [|done]. exfalso. unfold take_frame, c_closed in *.
    apply andb_true_iff in E as [Ep El]. destruct (negb (live c gf)); [by rewrite Ep, El in Hc|].
    destruct (gf.2); cbn in *; by rewrite ?Ep, ?El in Hc. }
  specialize (Hb c eq_refl Hc0 Hr). rewrite credits_cons in Hb.
  assert (will_take W y (c_gen c) <= W) as Hw.
  { destruct y as [d|]; cbn; [|lia]. destruct (_ =? _); [by apply Hl|lia]. }
  destruct gf as [g f]. unfold credit_at in Hb. unfold take_frame, live. cbn [fst snd] in *.
  destruct f as [| | | |k]; try (destruct (negb _); cbn [c_prc]; lia). cbn [late_ok negb]. rewrite orb_false_r.
  rewrite (N.eqb_sym g) in Hb. destruct (c_gen c =? g); cbn [andb negb]; [|cbn; lia].
  destruct (c_pt c && c_lt c) eqn:E; cbn [negb c_prc]; [by unfold c_closed in Hc0; rewrite E in Hc0|].
  unfold u32_saturating_add. lia.
Qed.

(** A new generation. *)
Lemma balanced_open x y X Y f :
  Forall (fun gf => gf.1 <= gen_of x) X -> Forall (fun gf => gf.1 <= gen_of y) Y -> gen_of y <= gen_of x -> not_open f = false ->
  balanced W (Some (mk_Core (gen_of x + 1) false false W W)) y (X ++ [(gen_of x + 1, f)]) Y.
Proof.
  intros HX HY Hg Hf c [= <-] _ Hr. cbn [c_gen c_prc]. rewrite bodies_app, bodies_cons.
  rewrite (bodies_above X (gen_of x)), (credits_above Y (gen_of y)) by (done || lia).
  assert (body_at (gen_of x + 1) (gen_of x + 1, f) = 0) as -> by (by destruct f).
  assert (will_take W y (gen_of x + 1) = W) as ->; [|cbn; lia].
  destruct y as [d|]; cbn in *; [|done]. destruct (N.eqb_spec (c_gen d) (gen_of x + 1)); [lia|done].
Qed.

Lemma balanced_open_receiver x X Y c : gen_of x < c_gen c -> balanced W x (Some c) X Y.
Proof. intros Hg b -> _ Hr. exfalso. apply Hr. left. done. Qed.

Lemma balanced_accept_receiver x y g f X Y Y' :
  balanced W x y ((g, f) :: X) Y -> not_open f = false -> gen_of y < g ->
  Forall (fun gf => gf.1 <= gen_of y) Y -> Forall (fun gf => gf.1 <= gen_of y) Y' ->
  balanced W x (Some (mk_Core g false false W W)) X Y'.
Proof.
  intros Hb Hf Hg HY HY' c -> Hc Hr. assert (g <= c_gen c) as Hle.
  { destruct (N.lt_ge_cases (c_gen c) g); [|done]. exfalso. apply Hr. by left. }
  assert (~ receiver_done y (c_gen c)) as Hr0.
  { destruct y as [d|]; cbn in *; [|tauto]. intros [?|[? ?]]; lia. }
  specialize (Hb c eq_refl Hc Hr0). rewrite bodies_cons in Hb.
  rewrite (credits_above Y (gen_of y)) in Hb by (done || lia). rewrite (credits_above Y' (gen_of y)) by (done || lia).
  assert (body_at (c_gen c) (g, f) = 0) as H0 by (by destruct f).
  assert (will_take W y (c_gen c) = W) as H1.
  { destruct y as [d|]; cbn in *; [|done]. destruct (N.eqb_spec (c_gen d) (c_gen c)); [lia|done]. }
  assert (will_take W (Some (mk_Core g false false W W)) (c_gen c) = W) as -> by (cbn; by destruct (_ =? _)). lia.
Qed.

Lemma balanced_accept_sender x y g X Y :
  Forall (fun gf => gf.1 <= gen_of x) X -> gen_of x < g -> g <= gen_of y ->
  (forall d, y = Some d -> c_lrc d <= W) ->
  (forall d, y = Some d -> gen_of x < c_gen d -> W + credits Y (c_gen d) <= c_lrc d) ->
  balanced W (Some (mk_Core g false false W W)) y X Y.
Proof.
  intros HX Hg Hgy Hl He c [= <-] _ Hr. cbn [c_gen c_prc]. rewrite (bodies_above X (gen_of x)) by done.
  destruct y as [d|]; cbn in *; [|lia]. specialize (Hl d eq_refl). specialize (He d eq_refl).
  destruct (N.eqb_spec (c_gen d) g) as [Hd|]; [|exfalso; apply Hr; left; lia]. rewrite Hd in He. lia.
Qed.
End Balance.
