(* ===== verification/MuxPair.v ===== *)
(** * Two multiplexers on one pipe (crates/wire/src/mux/state.rs)

    A client and a server multiplexer joined by an ordered pipe in each
    direction, driven by any schedule of their applications, of the emission of
    frames and of their delivery.  The log of a run says what was accepted for
    sending, what was delivered, and what went wrong. *)

From S2P Require Import Prelude Xet XetChunk Canonical Primitive Errors Context Auth Objects Registry.
From S2P Require Import View Store Terms Work PaidWork JobBook JobInput Cbor Frame Mux MuxOk MuxLink MuxFlow.

#[local] Open Scope N_scope.

(** A multiplexer and what it has emitted that has not arrived. *)
Record Side := mk_Side { mux : Multiplexer; wire : list bytes }.
Record Pair := mk_Pair { client : Side; server : Side }.

Definition other (who : Role) : Role := match who with Client => Server | Server => Client end.
Definition side (p : Pair) (who : Role) : Side := match who with Client => client p | Server => server p end.
Definition set_side (p : Pair) (who : Role) (s : Side) : Pair :=
  match who with Client => mk_Pair s (server p) | Server => mk_Pair (client p) s end.

Definition connect (n W : N) : Pair :=
  mk_Pair (mk_Side (new n Client W) []) (mk_Side (new n Server W) []).

Inductive Action :=
  | A_open (now : Instant) (method_id : N) (headers : Metadata)
  | A_send (idx : SlotIndex) (payload : bytes)
  | A_close (idx : SlotIndex) (trailer : option Trailer)
  | A_reset (idx : SlotIndex) (code : WireCode)
  | A_consume (idx : SlotIndex) (n : N)
  | A_emit
  | A_deliver (now : Instant).

Inductive Entry :=
  | Opened (who : Role)
  | Sent (who : Role) (key : StreamKey) (payload : bytes)
  | Got (who : Role) (key : StreamKey) (payload : bytes)
  | Ended (who : Role) (key : StreamKey)
  | Overrun (who : Role) (key : StreamKey)
  | Fault (who : Role) (e : MuxError).

(** What an event says of the frame it answers. *)
Definition note (who : Role) (kf : KeyedFrame) (event : Event) : list Entry :=
  match event with
  | BodyChunk _ payload => [Got who (kf_key kf) payload]
  | EndStream _ _ => [Ended who (kf_key kf)]
  | ResetStream _ _ => if is_body (kf_frame kf) then [Overrun who (kf_key kf)] else []
  | _ => []
  end.
Definition notes (who : Role) (bs : bytes) (r : result (list Event) MuxError) : list Entry :=
  match r with
  | Err e => [Fault who e]
  | Ok events => match decode_keyed_frame bs with Ok kf => concat (map (note who kf) events) | Err _ => [] end
  end.

Definition step (p : Pair) (who : Role) (a : Action) : Pair * list Entry :=
  let m := mux (side p who) in
  let w := wire (side p who) in
  match a with
  | A_open now method_id headers =>
      let '(m, r) := open m now method_id headers in
      (set_side p who (mk_Side m w), match r with Ok _ => [Opened who] | Err _ => [] end)
  | A_send idx payload =>
      let '(m', r) := try_send_body m idx payload in
      (set_side p who (mk_Side m' w),
       match r with
       | Ok Accepted => [Sent who (mk_StreamKey idx (default 0 (mux_generation m idx))) payload]
       | _ => []
       end)
  | A_close idx trailer => (set_side p who (mk_Side (close_send m idx trailer).1 w), [])
  | A_reset idx code => (set_side p who (mk_Side (reset m idx code) w), [])
  | A_consume idx n => (set_side p who (mk_Side (consume m idx n).1 w), [])
  | A_emit =>
      let '(m, out) := next_outbound m in
      (set_side p who (mk_Side m (w ++ match out with Some bs => [bs] | None => [] end)), [])
  | A_deliver now =>
      match wire (side p (other who)) with
      | [] => (p, [])
      | bs :: rest =>
          let '(m, r) := recv m now bs in
          let p := set_side p who (mk_Side m w) in
          let p := set_side p (other who) (mk_Side (mux (side p (other who))) rest) in
          (p, notes who bs r)
      end
  end.

Fixpoint run (p : Pair) (log : list Entry) (acts : list (Role * Action)) : Pair * list Entry :=
  match acts with
  | [] => (p, log)
  | (who, a) :: acts => let '(p, entries) := step p who a in run p (log ++ entries) acts
  end.

Definition action_ok (a : Action) : bool :=
  match a with
  | A_open _ method_id headers => frame_ok (Frame_Open method_id headers)
  | A_close _ (Some trailer) => frame_ok (Frame_End (trailer_status trailer) trailer)
  | _ => true
  end.
Definition opens (who : Role) (acts : list (Role * Action)) : N :=
  lenN (List.filter (fun wa => match wa with (r, A_open _ _ _) => bool_decide (r = who) | _ => false end) acts).

(** ** What the log says of a stream *)

Definition sent_entry (who : Role) (key : StreamKey) (e : Entry) : list bytes :=
  match e with
  | Sent r k payload => if bool_decide (r = who) && (stream_id k =? stream_id key) && (key_generation k =? key_generation key)
                        then [payload] else []
  | _ => []
  end.
Definition got_entry (who : Role) (key : StreamKey) (e : Entry) : list bytes :=
  match e with
  | Got r k payload => if bool_decide (r = who) && (stream_id k =? stream_id key) && (key_generation k =? key_generation key)
                       then [payload] else []
  | _ => []
  end.
Definition sent (who : Role) (key : StreamKey) (log : list Entry) : list bytes := concat (map (sent_entry who key) log).
Definition got (who : Role) (key : StreamKey) (log : list Entry) : list bytes := concat (map (got_entry who key) log).
Definition ended (who : Role) (key : StreamKey) (log : list Entry) : Prop := Ended who key ∈ log.

(** ** One slot of a pair *)

Definition owner (idx : SlotIndex) : Role := if owns_slot Client idx then Client else Server.
Definition frames_at (idx : SlotIndex) (w : list bytes) : list Tagged :=
  omap (fun bs => match decode_keyed_frame bs with
                  | Ok kf => if stream_id (kf_key kf) =? idx then Some (key_generation (kf_key kf), kf_frame kf) else None
                  | Err _ => None
                  end) w.
Definition queued (o : option StreamSlot) : list Tagged :=
  match o with Some s => map (pair (generation s)) (send_queue s) | None => [] end.
Definition pipe (s : Side) (idx : SlotIndex) : list Tagged := frames_at idx (wire s) ++ queued (slot (mux s) idx).

Record linked (W : N) (x y : option Core) (L M : list Tagged)
    (s1 g1 : N -> list bytes) (f1 : N -> Prop) (s2 g2 : N -> list bytes) (f2 : N -> Prop) : Prop := mk_linked {
  lk_control : control W x y L M;
  lk_flow : flow W x y L M;
  lk_back : flow W y x M L;
  lk_transfer : transfer x y L s1 g1 f1;
  lk_return : transfer y x M s2 g2 f2;
  lk_balance : balanced W x y L M;
  lk_owed : balanced W y x M L;
  lk_window : forall c, x = Some c \/ y = Some c -> c_lrc c <= W;
}.

(** The invariant of a slot, from its owner [o]. *)
Definition slot_linked (W : N) (o : Role) (p : Pair) (log : list Entry) (idx : SlotIndex) : Prop :=
  let a := side p o in
  let b := side p (other o) in
  linked W (core <$> slot (mux a) idx) (core <$> slot (mux b) idx) (pipe a idx) (pipe b idx)
    (fun h => sent o (mk_StreamKey idx h) log) (fun h => got (other o) (mk_StreamKey idx h) log)
    (fun h => ended (other o) (mk_StreamKey idx h) log)
    (fun h => sent (other o) (mk_StreamKey idx h) log) (fun h => got o (mk_StreamKey idx h) log)
    (fun h => ended o (mk_StreamKey idx h) log).

Record side_ok (n W : N) (who : Role) (s : Side) : Prop := mk_side_ok {
  side_mux : mux_ok n W (mux s);
  side_role : role (mux s) = who;
  side_wire : Forall (fun bs => exists kf, decode_keyed_frame bs = Ok kf /\ stream_id (kf_key kf) < n) (wire s);
}.

Record pair_ok (n W : N) (count : Role -> N) (p : Pair) (log : list Entry) : Prop := mk_pair_ok {
  pair_sides : forall who, side_ok n W who (side p who);
  pair_slots : forall idx, idx < n -> slot_linked W (owner idx) p log idx;
  pair_opens : forall idx, gen_of (core <$> slot (mux (side p (owner idx))) idx) <= count (owner idx);
  pair_quiet : Forall (fun e => match e with Overrun _ _ | Fault _ _ => False | _ => True end) log;
}.

(** ** Either end of a slot *)

(** The invariant seen from an end [x] that is the owner or not. *)
Definition mine (own : bool) (W : N) (x y : option Core) (X Y : list Tagged)
    (sx gy : N -> list bytes) (fy : N -> Prop) (sy gx : N -> list bytes) (fx : N -> Prop) : Prop :=
  if own then linked W x y X Y sx gy fy sy gx fx else linked W y x Y X sy gx fx sx gy fy.

Section Ends.
Context (W : N) (HW2 : W + W <= 4294967295) (own : bool) (y : option Core) (gy : N -> list bytes) (fy : N -> Prop) (sy gx : N -> list bytes) (fx : N -> Prop).
Implicit Types (A Q X Y : list Tagged) (sx : N -> list bytes).

Lemma no_credit_snoc X g f h : credit_at h (g, f) = 0 -> credits (X ++ [(g, f)]) h = credits X h.
Proof. intros H. rewrite credits_app, credits_cons, H. cbn. lia. Qed.

Lemma no_body_snoc X g f h : is_body f = false -> bodies (X ++ [(g, f)]) h = bodies X h.
Proof. intros H. rewrite bodies_app, bodies_cons. destruct f; try done; unfold body_at; cbn; lia. Qed.

Lemma same_receiver_refl o : same_receiver o o.
Proof. done. Qed.
Lemma same_sender_refl o : same_sender o o.
Proof. done. Qed.

Lemma mine_send g lt pt prc lrc X Y sx payload :
  mine own W (Some (mk_Core g lt pt prc lrc)) y X Y sx gy fy sy gx fx -> lt = false -> lenN payload <= prc ->
  mine own W (Some (mk_Core g lt pt (prc - lenN payload) lrc)) y (X ++ [(g, Frame_Body payload)]) Y
    (snoc_at sx g payload) gy fy sy gx fx.
Proof.
  unfold mine. intros H Hlt Hp. destruct own; destruct H as [Hc Hf Hb Ht Hr Hbal Howe Hwin]; split.
  - by eapply control_send.
  - by apply flow_send.
  - eapply flow_weaken; [exact Hb|done| |done|done]. intros h. by rewrite no_credit_snoc.
  - by eapply (transfer_send (mk_Core g lt pt prc lrc)).
  - eapply transfer_receiver; [exact Hr|done].
  - by apply balanced_send.
  - eapply balanced_same; [exact Howe|done|done|by intros; simplify_eq|done|done|]. intros h. by rewrite no_credit_snoc.
  - intros c [[= <-]|Hy]; [exact (Hwin _ (or_introl eq_refl))|by apply Hwin; right].
  - by apply (control_peer_snoc W y (mk_Core g lt pt prc lrc) (mk_Core g lt pt (prc - lenN payload) lrc)).
  - eapply flow_weaken; [exact Hf|done| |done|done]. intros h. by rewrite no_credit_snoc.
  - by apply flow_send.
  - eapply transfer_receiver; [exact Ht|done].
  - by eapply (transfer_send (mk_Core g lt pt prc lrc)).
  - eapply balanced_same; [exact Hbal|done|done|by intros; simplify_eq|done|done|]. intros h. by rewrite no_credit_snoc.
  - by apply balanced_send.
  - intros c [Hy|[= <-]]; [by apply Hwin; left|exact (Hwin _ (or_intror eq_refl))].
Qed.

Lemma closed_raise g lt pt prc lrc :
  c_closed (mk_Core g lt pt prc lrc) = true -> c_closed (mk_Core g true pt prc lrc) = true.
Proof. unfold c_closed. cbn. by destruct pt. Qed.

Lemma mine_close g lt pt prc lrc X Y sx status trailer :
  mine own W (Some (mk_Core g lt pt prc lrc)) y X Y sx gy fy sy gx fx -> lt = false ->
  mine own W (Some (mk_Core g true pt prc lrc)) y (X ++ [(g, Frame_End status trailer)]) Y sx gy fy sy gx fx.
Proof.
  unfold mine. intros H Hlt. destruct own; destruct H as [Hc Hf Hb Ht Hr Hbal Howe Hwin]; split.
  - by eapply control_close.
  - eapply flow_weaken; [exact Hf| |done|done|done]. intros h. by rewrite no_body_snoc.
  - eapply flow_weaken; [exact Hb|done| |done|done]. intros h. by rewrite no_credit_snoc.
  - by eapply (transfer_close (mk_Core g lt pt prc lrc)).
  - eapply transfer_receiver; [exact Hr|done].
  - eapply balanced_same; [exact Hbal|done|done|by intros ? ? [= <-] [= <-]; apply closed_raise|done| |done]. intros h. by rewrite no_body_snoc.
  - eapply balanced_same; [exact Howe|done|done|by intros; simplify_eq|done|done|]. intros h. by rewrite no_credit_snoc.
  - intros c [[= <-]|Hy]; [exact (Hwin _ (or_introl eq_refl))|by apply Hwin; right].
  - apply (control_peer_snoc W y (mk_Core g lt pt prc lrc) (mk_Core g true pt prc lrc)); try done.
  - eapply flow_weaken; [exact Hf|done| |done|done]. intros h. by rewrite no_credit_snoc.
  - eapply flow_weaken; [exact Hb| |done|done|done]. intros h. by rewrite no_body_snoc.
  - eapply transfer_receiver; [exact Ht|done].
  - by eapply (transfer_close (mk_Core g lt pt prc lrc)).
  - eapply balanced_same; [exact Hbal|done|done|by intros; simplify_eq|done|done|]. intros h. by rewrite no_credit_snoc.
  - eapply balanced_same; [exact Howe|done|done|by intros ? ? [= <-] [= <-]; apply closed_raise|done| |done]. intros h. by rewrite no_body_snoc.
  - intros c [Hy|[= <-]]; [by apply Hwin; left|exact (Hwin _ (or_intror eq_refl))].
Qed.

Lemma sender_done_raise g lt pt prc lrc prc' lrc' pt' h :
  sender_done (Some (mk_Core g lt pt prc lrc)) h -> sender_done (Some (mk_Core g true pt' prc' lrc')) h.
Proof. cbn. intros [?|[? ?]]; [by left|by right]. Qed.

Lemma receiver_done_raise g lt pt prc lrc prc' lrc' lt' h :
  receiver_done (Some (mk_Core g lt pt prc lrc)) h -> receiver_done (Some (mk_Core g lt' true prc' lrc')) h.
Proof. cbn. intros [?|[? ?]]; [by left|by right]. Qed.

Lemma answers_below o l : Forall (answer_ok o) l -> Forall (fun gf => gf.1 <= gen_of o) l.
Proof. intros H. eapply Forall_impl; [exact H|]. intros gf Ha. destruct o as [c|]; [|done]. by destruct Ha. Qed.

Lemma reset_high A Q g code h :
  Forall (fun gf => gf.1 <= g) (A ++ Q) -> g < h -> credits (A ++ [(g, Frame_Reset code)]) h = credits (A ++ Q) h.
Proof.
  intros HA Hh. rewrite no_credit_snoc, credits_app by done. apply Forall_app in HA as [_ HQ].
  rewrite (credits_above Q g) by done. lia.
Qed.

Lemma mine_reset g lt pt prc lrc A Q Y sx code :
  mine own W (Some (mk_Core g lt pt prc lrc)) y (A ++ Q) Y sx gy fy sy gx fx -> Forall (fun gf => gf.1 = g) Q ->
  pt && lt = false ->
  mine own W (Some (mk_Core g true true prc lrc)) y (A ++ [(g, Frame_Reset code)]) Y sx gy fy sy gx fx.
Proof.
  assert (forall h, bodies (A ++ [(g, Frame_Reset code)]) h <= bodies (A ++ Q) h) as HB.
  { intros h. rewrite no_body_snoc, bodies_app by done. lia. }
  assert (forall h, credits (A ++ [(g, Frame_Reset code)]) h <= credits (A ++ Q) h) as HC.
  { intros h. rewrite no_credit_snoc, credits_app by done. lia. }
  unfold mine. intros H HQ Hlt.
  assert (forall a b f s r fin, transfer (Some (mk_Core g lt pt prc lrc)) a (A ++ Q) s r fin ->
    b = [(g, Frame_Reset f)] -> transfer (Some (mk_Core g true true prc lrc)) a (A ++ b) s r fin) as Htrim.
  { intros a b f s r fin Htr ->. eapply (transfer_trim _ _ _ _ _ _ g); [exact Htr|done|apply sender_done_raise|done|by right|].
    by repeat constructor. }
  destruct own; destruct H as [Hc Hf Hb Ht Hr Hbal Howe Hwin]; split.
  - by eapply control_reset.
  - eapply flow_weaken; [exact Hf|done..].
  - eapply flow_weaken; [exact Hb|done..].
  - by eapply Htrim.
  - eapply transfer_receiver; [exact Hr|apply receiver_done_raise].
  - by apply balanced_sender_over.
  - eapply balanced_receiver_over; [exact Howe|done|done|]. intros h Hh. apply reset_high; [|done]. apply (ctl_below _ _ _ _ _ Hc).
  - intros c [[= <-]|Hy]; [exact (Hwin _ (or_introl eq_refl))|by apply Hwin; right].
  - by apply (control_peer_reset W y (mk_Core g lt pt prc lrc) _ _ _ Q).
  - eapply flow_weaken; [exact Hf|done..].
  - eapply flow_weaken; [exact Hb|done..].
  - eapply transfer_receiver; [exact Ht|apply receiver_done_raise].
  - by eapply Htrim.
  - eapply balanced_receiver_over; [exact Hbal|done|done|]. intros h Hh. apply reset_high; [|done].
    apply (answers_below _ _ (ctl_answers _ _ _ _ _ Hc)).
  - by apply balanced_sender_over.
  - intros c [Hy|[= <-]]; [by apply Hwin; left|exact (Hwin _ (or_intror eq_refl))].
Qed.

Lemma credits_other Q g h : Forall (fun gf => gf.1 = g) Q -> h <> g -> credits Q h = 0.
Proof.
  intros HQ Hne. induction HQ as [|[k f] Q Hk _ IH]; [done|]. rewrite credits_cons, IH. cbn in Hk. subst k.
  unfold credit_at. cbn. destruct f; try done. by rewrite (proj2 (N.eqb_neq _ _)).
Qed.

Lemma mine_credit g lt pt prc lrc n A Q Q' Y sx :
  mine own W (Some (mk_Core g lt pt prc lrc)) y (A ++ Q) Y sx gy fy sy gx fx -> strip Q' = strip Q ->
  Forall (fun gf => gf.1 = g) Q' -> (forall h, credits Q' h <= credits Q h + (if g =? h then n else 0)) ->
  (credits Q g + n <= 4294967295 -> credits Q' g = credits Q g + n) -> Forall (fun gf => gf.1 = g) Q ->
  n <> 0 -> lrc + n <= W ->
  mine own W (Some (mk_Core g lt pt prc (lrc + n))) y (A ++ Q') Y sx gy fy sy gx fx.
Proof.
  unfold mine. intros H HS HQ HC HE HQ0 Hn HW.
  assert (forall h, bodies (A ++ Q') h <= bodies (A ++ Q) h) as HB.
  { intros h. by rewrite (bodies_strip (A ++ Q') h), (bodies_strip (A ++ Q) h), !strip_app, HS. }
  assert (forall h, bodies (A ++ Q') h = bodies (A ++ Q) h) as HB'.
  { intros h. by rewrite (bodies_strip (A ++ Q') h), (bodies_strip (A ++ Q) h), !strip_app, HS. }
  assert (forall h, h <> g -> credits Q' h = credits Q h) as HO by (intros h Hh; by rewrite !(credits_other _ g)).
  destruct own; destruct H as [Hc Hf Hb Ht Hr Hbal Howe Hwin]; split.
  - eapply control_credit; [exact Hc|done|done|lia|done].
  - eapply flow_weaken; [exact Hf|done..].
  - by eapply flow_grant.
  - by eapply transfer_credit.
  - eapply transfer_receiver; [exact Hr|done].
  - eapply balanced_same; [exact Hbal|done|done|by intros ? ? [= <-] [= <-]|done|done|done].
  - eapply balanced_grant; [exact Howe|done|done| |lia|done]. exact (Hwin _ (or_introl eq_refl)).
  - intros c [[= <-]|Hy]; [done|by apply Hwin; right].
  - by eapply (control_peer_credit W y (mk_Core g lt pt prc lrc)).
  - by eapply flow_grant.
  - eapply flow_weaken; [exact Hb|done..].
  - eapply transfer_receiver; [exact Ht|done].
  - by eapply transfer_credit.
  - eapply balanced_grant; [exact Hbal|done|done| |lia|done]. exact (Hwin _ (or_intror eq_refl)).
  - eapply balanced_same; [exact Howe|done|done|by intros ? ? [= <-] [= <-]|done|done|done].
  - intros c [Hy|[= <-]]; [by apply Hwin; left|done].
Qed.

Lemma control_body_gen x c g f L M :
  control W x (Some c) ((g, f) :: L) M -> is_body f = true -> g <= c_gen c.
Proof.
  intros H Hf. destruct (ctl_feeds _ _ _ _ _ H) as (st & Hst & _). cbn [feeds fmap option_fmap option_map] in Hst.
  destruct f; try done. cbn in Hst. destruct (N.leb_spec g (c_gen c)); done.
Qed.

Lemma take_sender_done c gf h : sender_done (Some c) h -> sender_done (Some (take_frame c gf)) h.
Proof.
  cbn. rewrite take_frame_gen. intros [?|[? Hl]]; [by left|right; split; [done|]]. unfold take_frame.
  destruct (negb _); [done|]. by destruct (gf.2).
Qed.

Definition is_reset (f : Frame) : bool := match f with Frame_Reset _ => true | _ => false end.

(** What is left of the end's own pipe after it heard a frame. *)
Definition after_reset (c : Core) (gf : Tagged) A Q : list Tagged :=
  if live c gf && is_reset gf.2 then A else A ++ Q.

Lemma transfer_hear_sender c gf a A Q sx r fin :
  transfer (Some c) a (A ++ Q) sx r fin -> Forall (fun gf => gf.1 = c_gen c) Q ->
  transfer (Some (take_frame c gf)) a (after_reset c gf A Q) sx r fin.
Proof.
  intros Ht HQ. unfold after_reset. destruct (live c gf && is_reset gf.2) eqn:E.
  - rewrite <- (app_nil_r A). eapply (transfer_trim _ _ _ _ Q _ (c_gen c)); [exact Ht|cbn; by rewrite take_frame_gen|apply take_sender_done|done| |done].
    intros _. right. rewrite take_frame_gen. split; [done|]. apply andb_true_iff in E as [El Er]. unfold take_frame. rewrite El.
    by destruct (gf.2).
  - rewrite <- (app_nil_r (A ++ Q)) in Ht |- *.
    eapply (transfer_trim _ _ _ _ [] _ (c_gen c)); [exact Ht|cbn; by rewrite take_frame_gen|apply take_sender_done|done|done|done].
Qed.

Lemma after_reset_le c gf A Q h :
  bodies (after_reset c gf A Q) h <= bodies (A ++ Q) h /\ credits (after_reset c gf A Q) h <= credits (A ++ Q) h.
Proof. unfold after_reset. destruct (_ && _); [rewrite bodies_app, credits_app|]; lia. Qed.

Lemma take_frame_lrc c gf : c_lrc (take_frame c gf) <= c_lrc c.
Proof. unfold take_frame. destruct (negb _); [done|]. destruct (gf.2); cbn; try done. apply N.le_sub_l. Qed.

Lemma balanced_after_sender c gf z A Q Y :
  balanced W (Some c) z (A ++ Q) (gf :: Y) -> (forall d, z = Some d -> c_lrc d <= W) ->
  balanced W (Some (take_frame c gf)) z (after_reset c gf A Q) Y.
Proof.
  intros Hb Hl. apply balanced_hear_sender in Hb; [|done|done]. unfold after_reset. destruct (_ && _) eqn:E; [|done].
  apply andb_true_iff in E as [El Er]. apply balanced_sender_over. unfold take_frame. rewrite El. by destruct (gf.2).
Qed.

Lemma balanced_after_receiver c gf z A Q Y :
  balanced W z (Some c) (gf :: Y) (A ++ Q) -> flow W z (Some c) (gf :: Y) (A ++ Q) ->
  (is_body gf.2 = true -> gf.1 <= c_gen c) -> Forall (fun gf => gf.1 <= gen_of (Some c)) (A ++ Q) ->
  balanced W z (Some (take_frame c gf)) Y (after_reset c gf A Q).
Proof.
  intros Hb Hf Hg HA. apply balanced_hear_receiver in Hb; [|done|done]. unfold after_reset. destruct (_ && _) eqn:E; [|done].
  apply andb_true_iff in E as [El Er]. eapply balanced_receiver_over; [exact Hb|done| |].
  - unfold take_frame. rewrite El. by destruct (gf.2).
  - rewrite take_frame_gen. intros h Hh. apply Forall_app in HA as [_ HQ]. rewrite credits_app, (credits_above Q (c_gen c)) by done. lia.
Qed.

Lemma mine_hear c A Q gf Y sx :
  mine own W (Some c) y (A ++ Q) (gf :: Y) sx gy fy sy gx fx -> Forall (fun gf => gf.1 = c_gen c) Q ->
  not_open gf.2 = true ->
  mine own W (Some (take_frame c gf)) y (after_reset c gf A Q) Y sx gy fy sy (got_by c gf gx) (fin_by c gf fx).
Proof.
  unfold mine. intros H HQ Hno. pose proof (after_reset_le c gf A Q) as Hle. destruct gf as [g f]. cbn [snd] in Hno.
  destruct own; destruct H as [Hc Hf Hb Ht Hr Hbal Howe Hwin]; split.
  - unfold after_reset. destruct (live c (g, f)) eqn:El; cbn [andb snd].
    + destruct f; cbn [is_reset]; try (by apply control_hear). by eapply control_hear_reset.
    + apply control_hear; [done|]. by destruct f.
  - eapply flow_weaken; [apply flow_hear_sender; exact Hf| |done|done|done]. intros h. apply Hle.
  - eapply flow_weaken; [apply flow_hear_receiver; exact Hb|done| |done|done]. intros h. apply Hle.
  - by apply transfer_hear_sender.
  - apply transfer_hear; [exact Hr|]. intros _. pose proof (ctl_answers _ _ _ _ _ Hc) as Ha%answers_below.
    apply Forall_cons in Ha as [Ha _]. pose proof (ctl_gen _ _ _ _ _ Hc). cbn in *. lia.
  - apply (balanced_after_sender _ _ _ _ _ _ Hbal). intros d ->. by apply Hwin; right.
  - apply (balanced_after_receiver _ _ _ _ _ _ Howe Hb).
    + intros _. pose proof (ctl_answers _ _ _ _ _ Hc) as Ha%answers_below.
      apply Forall_cons in Ha as [Ha _]. pose proof (ctl_gen _ _ _ _ _ Hc). cbn in *. lia.
    + apply (ctl_below _ _ _ _ _ Hc).
  - intros d [[= <-]|Hy]; [|by apply Hwin; right]. etrans; [apply take_frame_lrc|]. exact (Hwin _ (or_introl eq_refl)).
  - eapply control_peer_hear; [exact Hc|done|]. intros HM. unfold after_reset. destruct (_ && _); [|done].
    by apply Forall_app in HM as [? _].
  - eapply flow_weaken; [apply flow_hear_receiver; exact Hf|done| |done|done]. intros h. apply Hle.
  - eapply flow_weaken; [apply flow_hear_sender; exact Hb| |done|done|done]. intros h. apply Hle.
  - apply transfer_hear; [exact Ht|]. cbn. by eapply control_body_gen.
  - by apply transfer_hear_sender.
  - apply (balanced_after_receiver _ _ _ _ _ _ Hbal Hf); [cbn; by eapply control_body_gen|].
    apply (answers_below _ _ (ctl_answers _ _ _ _ _ Hc)).
  - apply (balanced_after_sender _ _ _ _ _ _ Howe). intros d ->. by apply Hwin; left.
  - intros d [Hy|[= <-]]; [by apply Hwin; left|]. etrans; [apply take_frame_lrc|]. exact (Hwin _ (or_intror eq_refl)).
Qed.

Lemma mine_open x X Y sx m headers :
  mine true W x y X Y sx gy fy sy gx fx -> (forall c, x = Some c -> c_closed c = true) ->
  mine true W (Some (mk_Core (gen_of x + 1) false false W W)) y (X ++ [(gen_of x + 1, Frame_Open m headers)]) Y
    sx gy fy sy gx fx.
Proof.
  cbn [mine]. intros [Hc Hf Hb Ht Hr Hbal Howe Hwin] Hx. pose proof (answers_below _ _ (ctl_answers _ _ _ _ _ Hc)) as Ha.
  pose proof (ctl_below _ _ _ _ _ Hc) as Hbel. pose proof (ctl_gen _ _ _ _ _ Hc) as Hg. split.
  - by apply control_open.
  - by apply flow_open.
  - eapply (flow_open_receiver W y x (gen_of x + 1)); [exact Hb|done|lia|done].
  - rewrite <- (app_nil_r X) in Ht. eapply (transfer_trim _ _ _ _ [] _ 0); [exact Ht|cbn; lia| |done|done|by repeat constructor].
    intros h Hd. left. cbn. destruct x as [c|]; [|done]. cbn in *. lia.
  - eapply transfer_receiver; [exact Hr|]. intros h Hd. left. destruct x as [c|]; [|done]. cbn in *. lia.
  - by apply balanced_open.
  - apply balanced_open_receiver. cbn. lia.
  - intros c [[= <-]|Hy]; [done|by apply Hwin; right].
Qed.

Lemma mine_accept x A Q Y sx g m headers :
  mine false W x y (A ++ Q) ((g, Frame_Open m headers) :: Y) sx gy fy sy gx fx ->
  Forall (fun gf => gf.1 = gen_of x) Q ->
  mine false W (Some (mk_Core g false false W W)) y A Y sx gy fy sy gx fx /\
  gen_of x < g /\ (forall c, x = Some c -> c_closed c = true).
Proof.
  cbn [mine]. intros [Hc Hf Hb Ht Hr Hbal Howe Hwin] HQ. destruct (control_accept _ _ _ _ _ _ _ _ _ Hc) as (Hc' & Hg & Hcl).
  split_and!; [|done..]. pose proof (answers_below _ _ (ctl_answers _ _ _ _ _ Hc)) as Ha. split.
  - done.
  - eapply flow_accept_receiver; [exact Hf|done|done|done|]. intros h. rewrite credits_app. lia.
  - apply Forall_app in Ha as [HA _]. eapply flow_accept_sender; [exact Hb|exact HA|done| |].
    + pose proof (ctl_below _ _ _ _ _ Hc) as [? _]%Forall_cons. done.
    + intros c Hy Hlt. by eapply control_early_tail.
  - apply transfer_drop in Ht; [|done]. eapply transfer_receiver; [exact Ht|]. intros h Hd. left.
    destruct x as [c|]; [|done]. cbn in *. lia.
  - rewrite <- (app_nil_r A). eapply (transfer_trim _ _ _ _ Q _ (gen_of x)); [exact Hr|cbn; lia| |done| |done].
    + intros h Hd. left. destruct x as [c|]; [|done]. cbn in *. lia.
    + intros _. left. cbn. lia.
  - apply Forall_app in Ha as Ha'. eapply balanced_accept_receiver; [exact Hbal|done|done|done|apply Ha'].
  - apply Forall_app in Ha as [HA _]. eapply balanced_accept_sender; [exact HA|done| | |].
    + pose proof (ctl_below _ _ _ _ _ Hc) as [? _]%Forall_cons. done.
    + intros d ->. by apply Hwin; left.
    + intros c Hy Hlt. by eapply control_early_tail.
  - intros c [Hy|[= <-]]; [by apply Hwin; left|done].
Qed.

Lemma mine_drop X gf Y sx :
  mine own W None y X (gf :: Y) sx gy fy sy gx fx -> not_open gf.2 = true ->
  mine own W None y X Y sx gy fy sy gx fx.
Proof.
  unfold mine. intros H Hno. destruct gf as [g f]. destruct own; destruct H as [Hc Hf Hb Ht Hr Hbal Howe Hwin].
  - destruct (ctl_fresh _ _ _ _ _ Hc eq_refl) as [_ ->]. pose proof (ctl_answers _ _ _ _ _ Hc) as [[] _]%Forall_cons.
  - split.
    + by eapply control_peer_drop_frame.
    + by eapply flow_drop_frame.
    + eapply flow_weaken; [exact Hb|done| |done|done]. intros h. rewrite credits_cons. lia.
    + eapply transfer_drop; [exact Ht|]. cbn. intros Hbody. destruct (ctl_feeds _ _ _ _ _ Hc) as (st & Hst & _).
      destruct f; try done.
    + done.
    + intros c -> Hcl _. specialize (Hbal c eq_refl Hcl). rewrite bodies_cons in Hbal.
      assert (body_at (c_gen c) (g, f) = 0) as H0; [|rewrite H0 in Hbal; apply Hbal; cbn; tauto].
      destruct (ctl_feeds _ _ _ _ _ Hc) as (st & Hst & _). by destruct f.
    + intros c Hx. done.
    + done.
Qed.
End Ends.

(** ** From slots to the pair *)

Lemma side_set_eq p who s : side (set_side p who s) who = s.
Proof. by destruct who. Qed.
Lemma side_set_ne p who w s : w <> who -> side (set_side p who s) w = side p w.
Proof. by destruct who, w. Qed.
Lemma other_ne who : other who <> who.
Proof. by destruct who. Qed.
Lemma role_cases who w : w = who \/ w = other who.
Proof. destruct who, w; auto. Qed.

Lemma owner_iff who idx : owner idx = who <-> owns_slot who idx = true.
Proof.
  unfold owner, owns_slot, parity. destruct (N.eqb_spec (N.land idx 1) 0) as [He|Hne].
  - destruct who; cbn; [by rewrite He|]. rewrite He. done.
  - assert (N.land idx 1 = 1) as H1.
    { change 1 with (N.ones 1) in *. rewrite N.land_ones in *. pose proof (N.mod_lt idx (2 ^ 1) ltac:(done)) as Hm.
      change (2 ^ 1) with 2 in *. destruct (idx mod 2) as [|[| |]]; try done; lia. }
    rewrite H1. by destruct who.
Qed.

Lemma slot_linked_mine W who p log idx :
  slot_linked W (owner idx) p log idx <->
  mine (bool_decide (owner idx = who)) W (core <$> slot (mux (side p who)) idx) (core <$> slot (mux (side p (other who))) idx)
    (pipe (side p who) idx) (pipe (side p (other who)) idx)
    (fun h => sent who (mk_StreamKey idx h) log) (fun h => got (other who) (mk_StreamKey idx h) log)
    (fun h => ended (other who) (mk_StreamKey idx h) log)
    (fun h => sent (other who) (mk_StreamKey idx h) log) (fun h => got who (mk_StreamKey idx h) log)
    (fun h => ended who (mk_StreamKey idx h) log).
Proof. unfold slot_linked, mine. by destruct (owner idx), who. Qed.

Lemma mine_ext own W x y X Y sx gy fy sy gx fx sx' gy' fy' sy' gx' fx' :
  mine own W x y X Y sx gy fy sy gx fx ->
  (forall h, sx' h = sx h) -> (forall h, gy' h = gy h) -> (forall h, fy' h -> fy h) ->
  (forall h, sy' h = sy h) -> (forall h, gx' h = gx h) -> (forall h, fx' h -> fx h) ->
  mine own W x y X Y sx' gy' fy' sy' gx' fx'.
Proof.
  unfold mine. intros H ? ? ? ? ? ?.
  destruct own; destruct H as [Hc Hf Hb Ht Hr Hbal Howe Hwin]; split; try done; (eapply transfer_ext; [done|done|done|done]).
Qed.

Lemma sent_app who key l k : sent who key (l ++ k) = sent who key l ++ sent who key k.
Proof. unfold sent. by rewrite map_app, concat_app. Qed.
Lemma got_app who key l k : got who key (l ++ k) = got who key l ++ got who key k.
Proof. unfold got. by rewrite map_app, concat_app. Qed.
Lemma ended_app who key l k : ended who key (l ++ k) <-> ended who key l \/ ended who key k.
Proof. apply elem_of_app. Qed.

(** The stream an entry is about. *)
Definition entry_at (idx : SlotIndex) (e : Entry) : Prop :=
  match e with
  | Opened _ | Fault _ _ => True
  | Sent _ k _ | Got _ k _ | Ended _ k | Overrun _ k => stream_id k = idx
  end.
Definition entry_quiet (e : Entry) : Prop := match e with Overrun _ _ | Fault _ _ => False | _ => True end.

Lemma entries_elsewhere idx j entries who h :
  Forall (entry_at idx) entries -> j <> idx ->
  sent who (mk_StreamKey j h) entries = [] /\ got who (mk_StreamKey j h) entries = [] /\ ~ ended who (mk_StreamKey j h) entries.
Proof.
  intros He Hne. induction He as [|e entries Hat _ (IH1 & IH2 & IH3)]; [split_and!; [done..|]; intros H; inversion H|].
  assert ((idx =? j) = false) as Hij by (by apply N.eqb_neq). split_and!.
  - unfold sent in *. cbn [map concat]. rewrite IH1, app_nil_r. destruct e; try done. cbn in *. by rewrite Hat, Hij, andb_false_r.
  - unfold got in *. cbn [map concat]. rewrite IH2, app_nil_r. destruct e; try done. cbn in *. by rewrite Hat, Hij, andb_false_r.
  - unfold ended in *. rewrite elem_of_cons. intros [<-|]; [|done]. cbn in Hat. congruence.
Qed.

(** A step that concerns one slot. *)
Lemma advance n W count count' p p' log entries i :
  pair_ok n W count p log ->
  (forall w, side_ok n W w (side p' w)) ->
  (forall w j, j <> i -> slot (mux (side p' w)) j = slot (mux (side p w)) j /\
                         frames_at j (wire (side p' w)) = frames_at j (wire (side p w))) ->
  Forall (entry_at i) entries -> Forall entry_quiet entries ->
  (i < n -> slot_linked W (owner i) p' (log ++ entries) i) ->
  (forall w, count w <= count' w) ->
  gen_of (core <$> slot (mux (side p' (owner i))) i) <= count' (owner i) ->
  pair_ok n W count' p' (log ++ entries).
Proof.
  intros [Hsides Hslots Hopens Hquiet] Hs Hother Hat Hq Hi Hcount Hgen. split; [done| | |].
  - intros idx Hidx. destruct (N.eq_dec idx i) as [->|Hne]; [by apply Hi|]. specialize (Hslots idx Hidx).
    apply (slot_linked_mine W Client) in Hslots. apply (slot_linked_mine W Client). unfold pipe in *. cbn [other] in *.
    destruct (Hother Client idx Hne) as [-> ->]. destruct (Hother Server idx Hne) as [-> ->].
    eapply mine_ext; [exact Hslots|..]; intros h;
      destruct (entries_elsewhere i idx entries Client h Hat Hne) as (H1 & H2 & H3);
      destruct (entries_elsewhere i idx entries Server h Hat Hne) as (H4 & H5 & H6);
      rewrite ?sent_app, ?got_app, ?ended_app, ?H1, ?H2, ?H4, ?H5, ?app_nil_r; try done; by intros [?|?].
  - intros idx. destruct (N.eq_dec idx i) as [->|Hne]; [done|]. destruct (Hother (owner idx) idx Hne) as [-> _].
    etrans; [apply Hopens|apply Hcount].
  - apply Forall_app. split; [done|]. eapply Forall_impl; [exact Hq|]. by intros [].
Qed.

(** A step of one end on one slot. *)
Lemma advance_local n W count count' p log who m' i s' entries :
  pair_ok n W count p log -> mux_ok n W m' -> role m' = who ->
  (forall j, slot m' j = if decide (i = j) then Some s' else slot (mux (side p who)) j) ->
  Forall (entry_at i) entries -> Forall entry_quiet entries ->
  (let log' := log ++ entries in
   i < n ->
   mine (bool_decide (owner i = who)) W (Some (core s')) (core <$> slot (mux (side p (other who))) i)
    (frames_at i (wire (side p who)) ++ queued (Some s')) (pipe (side p (other who)) i)
    (fun h => sent who (mk_StreamKey i h) log') (fun h => got (other who) (mk_StreamKey i h) log')
    (fun h => ended (other who) (mk_StreamKey i h) log')
    (fun h => sent (other who) (mk_StreamKey i h) log') (fun h => got who (mk_StreamKey i h) log')
    (fun h => ended who (mk_StreamKey i h) log')) ->
  (forall w, count w <= count' w) -> (owner i = who -> generation s' <= count' who) ->
  pair_ok n W count' (set_side p who (mk_Side m' (wire (side p who)))) (log ++ entries).
Proof.
  intros Hp Hm Hr Hsl Hat Hq Hmine Hcount Hgen. eapply (advance n W count count' p _ log entries i); try done.
  - intros w. destruct (role_cases who w) as [->| ->].
    + rewrite side_set_eq. split; [done|done|]. apply (side_wire _ _ _ _ (pair_sides _ _ _ _ _ Hp who)).
    + rewrite side_set_ne by apply other_ne. apply (pair_sides _ _ _ _ _ Hp).
  - intros w j Hj. destruct (role_cases who w) as [->| ->].
    + rewrite side_set_eq. cbn [mux wire]. rewrite Hsl, decide_False by done. done.
    + rewrite side_set_ne by apply other_ne. done.
  - intros Hi. apply (slot_linked_mine W who). rewrite side_set_eq, side_set_ne by apply other_ne.
    unfold pipe at 1. cbn [mux wire]. rewrite Hsl, decide_True by done. by apply Hmine.
  - destruct (role_cases who (owner i)) as [He|He].
    + rewrite He, side_set_eq. cbn [mux]. rewrite Hsl, decide_True by done. cbn. by apply Hgen.
    + rewrite He, side_set_ne by apply other_ne. rewrite <- He. etrans; [apply (pair_opens _ _ _ _ _ Hp)|apply Hcount].
Qed.

(** A step that changes no slot. *)
Lemma advance_idle n W count p log who m' :
  pair_ok n W count p log -> mux_ok n W m' -> role m' = who -> (forall j, slot m' j = slot (mux (side p who)) j) ->
  pair_ok n W count (set_side p who (mk_Side m' (wire (side p who)))) log.
Proof.
  intros Hp Hm Hr Hsl. rewrite <- (app_nil_r log). destruct Hp as [Hsides Hslots Hopens Hquiet]. split.
  - intros w. destruct (role_cases who w) as [->| ->].
    + rewrite side_set_eq. split; [done|done|]. apply (side_wire _ _ _ _ (Hsides who)).
    + rewrite side_set_ne by apply other_ne. apply Hsides.
  - intros idx Hidx. apply (slot_linked_mine W who). rewrite side_set_eq, side_set_ne by apply other_ne.
    unfold pipe at 1. cbn [mux wire]. rewrite Hsl, app_nil_r. apply (slot_linked_mine W who). by apply Hslots.
  - intros idx. destruct (role_cases who (owner idx)) as [He|He].
    + rewrite He, side_set_eq. cbn [mux]. rewrite Hsl, <- He. apply Hopens.
    + rewrite He, side_set_ne by apply other_ne. rewrite <- He. apply Hopens.
  - by rewrite app_nil_r.
Qed.

Lemma set_side_same p who : set_side p who (mk_Side (mux (side p who)) (wire (side p who))) = p.
Proof. destruct p as [[] []]. by destruct who. Qed.

(** ** The steps *)

Section Steps.
Context (n W : N) (p : Pair) (log : list Entry) (count : Role -> N) (who : Role).
Context (Hp : pair_ok n W count p log) (HW : W + 1 <= MAX_FRAME_BYTES).
Notation m := (mux (side p who)).

Lemma HW2 : W + W <= 4294967295.
Proof. unfold MAX_FRAME_BYTES in HW. lia. Qed.

Lemma here : mux_ok n W m /\ role m = who.
Proof. destruct (pair_sides _ _ _ _ _ Hp who). done. Qed.

(** The invariant of a slot this end has. *)
Lemma mine_here i :
  i < n ->
  mine (bool_decide (owner i = who)) W (core <$> slot m i) (core <$> slot (mux (side p (other who))) i)
    (frames_at i (wire (side p who)) ++ queued (slot m i)) (pipe (side p (other who)) i)
    (fun h => sent who (mk_StreamKey i h) log) (fun h => got (other who) (mk_StreamKey i h) log)
    (fun h => ended (other who) (mk_StreamKey i h) log)
    (fun h => sent (other who) (mk_StreamKey i h) log) (fun h => got who (mk_StreamKey i h) log)
    (fun h => ended who (mk_StreamKey i h) log).
Proof. intros Hi. apply (slot_linked_mine W who). by apply (pair_slots _ _ _ _ _ Hp). Qed.

Lemma slot_here i s : slot m i = Some s -> i < n.
Proof. intros Hs. apply slot_lt in Hs. by rewrite (mux_size _ _ _ _ (proj1 here)) in Hs. Qed.

Lemma generation_here i s : slot m i = Some s -> owner i = who -> generation s <= count who.
Proof. intros Hs <-. pose proof (pair_opens _ _ _ _ _ Hp i) as Ho. by rewrite Hs in Ho. Qed.

Lemma queued_gen s : Forall (fun gf => gf.1 = generation s) (queued (Some s)).
Proof. cbn. apply Forall_map. apply Forall_forall. done. Qed.

Lemma queued_snoc s s' f :
  generation s' = generation s -> send_queue s' = send_queue s ++ [f] -> queued (Some s') = queued (Some s) ++ [(generation s, f)].
Proof. cbn. intros -> ->. by rewrite map_app. Qed.

Ltac local_facts Hs :=
  let Hi := fresh "Hi" in let Hmine := fresh "Hmine" in
  pose proof (slot_here _ _ Hs) as Hi; pose proof (mine_here _ Hi) as Hmine; rewrite Hs in Hmine; cbn [fmap option_fmap option_map] in Hmine.

Lemma sent_here i g h payload :
  sent who (mk_StreamKey i h) (log ++ [Sent who (mk_StreamKey i g) payload]) =
  snoc_at (fun h => sent who (mk_StreamKey i h) log) g payload h.
Proof.
  rewrite sent_app. unfold snoc_at, sent at 2. cbn. rewrite bool_decide_true, N.eqb_refl by done. cbn.
  destruct (g =? h); cbn; by rewrite ?app_nil_r.
Qed.

Lemma sent_there i g h payload :
  sent (other who) (mk_StreamKey i h) (log ++ [Sent who (mk_StreamKey i g) payload]) = sent (other who) (mk_StreamKey i h) log.
Proof.
  rewrite sent_app. unfold sent at 2. cbn. rewrite bool_decide_false by (intros H; by apply (other_ne who)). cbn. by rewrite app_nil_r.
Qed.

Lemma step_send idx payload :
  let '(p', entries) := step p who (A_send idx payload) in pair_ok n W count p' (log ++ entries).
Proof.
  destruct here as [Hm Hr]. unfold step. pose proof (send_spec n W m idx payload Hm HW) as H.
  destruct (try_send_body m idx payload) as [m' r]. destruct H as (Hm' & Hr' & _ & H). destruct r as [[|]|e]; cycle 1.
  { subst m'. rewrite app_nil_r. by apply advance_idle. }
  { subst m'. rewrite app_nil_r. by apply advance_idle. }
  destruct H as (s & Hs & Hlt & Hcr & Hsl). unfold mux_generation. rewrite Hs. cbn [default fmap option_fmap option_map].
  local_facts Hs.
  eapply (advance_local n W count count p log who m' idx); [done|done|congruence|exact Hsl|by repeat constructor|by repeat constructor| |done|].
  - intros log' _. erewrite (queued_snoc s) by reflexivity. rewrite app_assoc.
    eapply mine_ext; [eapply mine_send; [exact HW2|exact Hmine|done|done]|..]; intros h; unfold log'.
    + apply sent_here.
    + rewrite got_app. by rewrite app_nil_r.
    + rewrite ended_app. intros [?|Hx]; [done|]. by apply list_elem_of_singleton in Hx.
    + apply sent_there.
    + rewrite got_app. by rewrite app_nil_r.
    + rewrite ended_app. intros [?|Hx]; [done|]. by apply list_elem_of_singleton in Hx.
  - cbn. by apply generation_here.
Qed.

Lemma step_close idx trailer :
  action_ok (A_close idx trailer) = true ->
  let '(p', entries) := step p who (A_close idx trailer) in pair_ok n W count p' (log ++ entries).
Proof.
  intros Hop. destruct here as [Hm Hr]. unfold step. pose proof (close_spec n W m idx trailer Hm Hop) as H.
  destruct (close_send m idx trailer) as [m' r]. cbv zeta in H. destruct H as (Hm' & Hr' & _ & H). cbn [fst].
  destruct H as [->|(s & _ & Hs & Hlt & Hsl)]; [rewrite app_nil_r; by apply advance_idle|]. local_facts Hs.
  eapply (advance_local n W count count p log who m' idx); [done|done|congruence|exact Hsl|done|done| |done|].
  - rewrite app_nil_r. intros log' _. erewrite (queued_snoc s) by reflexivity. rewrite app_assoc.
    eapply mine_close; [exact HW2|exact Hmine|done].
  - cbn. by apply generation_here.
Qed.

Lemma step_reset idx code :
  let '(p', entries) := step p who (A_reset idx code) in pair_ok n W count p' (log ++ entries).
Proof.
  destruct here as [Hm Hr]. unfold step. destruct (reset_spec n W m idx code Hm) as (Hm' & Hr' & H).
  destruct H as [->|(s & Hs & Hc & Hsl)]; [rewrite app_nil_r, set_side_same; done|]. local_facts Hs.
  eapply (advance_local n W count count p log who _ idx); [done|done|congruence|exact Hsl|done|done| |done|].
  - rewrite app_nil_r. intros log' _. eapply mine_reset; [exact HW2|exact Hmine|exact (queued_gen s)|exact Hc].
  - cbn. by apply generation_here.
Qed.

(** What a raised or an added credit is worth. *)
Lemma credited_queued s k :
  strip (queued (Some (credited s k))) = strip (queued (Some s)) /\
  (forall h, credits (queued (Some (credited s k))) h <= credits (queued (Some s)) h + (if generation s =? h then k else 0)) /\
  (credits (queued (Some s)) (generation s) + k <= 4294967295 ->
   credits (queued (Some (credited s k))) (generation s) = credits (queued (Some s)) (generation s) + k).
Proof.
  unfold credited, queued. cbn [generation with_queue with_local_credit send_queue].
  destruct (raise_credit (send_queue s) k) as [q|] eqn:E; cbn [default].
  - change (id q) with q. revert q E. induction (send_queue s) as [|f q0 IH]; intros q; [done|]. cbn [raise_credit].
    destruct f as [| | | |c].
    5:{ intros [= <-]. cbn [map strip List.filter snd]. split; [done|]. rewrite !credits_cons.
        unfold credit_at, u32_saturating_add. cbn [fst snd]. rewrite N.eqb_refl. split; [|lia].
        intros h. rewrite !credits_cons. unfold credit_at. cbn [fst snd]. destruct (_ =? h); lia. }
    all: destruct (raise_credit q0 k) as [q1|]; [|done]; intros [= <-]; destruct (IH q1 eq_refl) as (IH1 & IH2 & IH3);
      cbn [map strip List.filter snd]; (split; [unfold strip in IH1; by rewrite IH1|]); rewrite !credits_cons;
      unfold credit_at; cbn [fst snd]; (split; [|lia]); intros h; specialize (IH2 h); rewrite !credits_cons; unfold credit_at; cbn [fst snd]; lia.
  - cbn [map strip List.filter snd]. split; [done|]. rewrite !credits_cons. unfold credit_at. cbn [fst snd]. rewrite N.eqb_refl.
    split; [|lia]. intros h. rewrite credits_cons. unfold credit_at. cbn [fst snd]. lia.
Qed.

Lemma step_consume idx k :
  let '(p', entries) := step p who (A_consume idx k) in pair_ok n W count p' (log ++ entries).
Proof.
  destruct here as [Hm Hr]. unfold step. pose proof (consume_spec n W m idx k Hm HW) as H.
  destruct (consume m idx k) as [m' r]. destruct H as (Hm' & Hr' & H). cbn [fst].
  destruct H as [->|(s & _ & Hs & Hk & Hpt & Hle & Hsl)]; [rewrite app_nil_r; by apply advance_idle|]. local_facts Hs.
  destruct (credited_queued s k) as (HS & HC & HE).
  eapply (advance_local n W count count p log who m' idx); [done|done|congruence|exact Hsl|done|done| |done|].
  - rewrite app_nil_r. intros log' _. eapply mine_credit; [exact HW2|exact Hmine|done|exact (queued_gen (credited s k))|exact HC|exact HE|exact (queued_gen s)|done|done].
  - cbn. by apply generation_here.
Qed.

Lemma step_open now method_id headers :
  action_ok (A_open now method_id headers) = true -> count who < 65535 ->
  let '(p', entries) := step p who (A_open now method_id headers) in
  pair_ok n W (fun w => count w + if decide (w = who) then 1 else 0) p' (log ++ entries).
Proof.
  intros Hop Hcount. destruct here as [Hm Hr]. unfold step. pose proof (open_spec n W m now method_id headers Hm Hop) as H.
  destruct (open m now method_id headers) as [m' r]. destruct H as (Hm' & Hr' & H). destruct r as [i|e]; cycle 1.
  { rewrite app_nil_r. assert (pair_ok n W count (set_side p who (mk_Side m' (wire (side p who)))) log) as [H1 H2 H3 H4]
      by (apply advance_idle; [done|done|congruence|done]). split; [done|done| |done].
    intros idx. etrans; [apply H3|]. destruct (decide _); lia. }
  destruct H as (Hi & Ho & Hold & Hsl). rewrite Hr in Ho. apply owner_iff in Ho as Hown.
  pose proof (mine_here i Hi) as Hmine. rewrite bool_decide_true in Hmine by done.
  pose proof (pair_opens _ _ _ _ _ Hp i) as Hgen. rewrite Hown in Hgen.
  set (g := gen_of (core <$> slot m i)) in *.
  assert (generation (opened now W (slot m i) method_id headers) = g + 1) as Hg.
  { cbn. assert (default 0 (generation <$> slot m i) = g) as -> by (unfold g; by destruct (slot m i)).
    apply N.mod_small. lia. }
  eapply (advance_local n W count _ p log who m' i); [done|done|congruence|exact Hsl|by repeat constructor|by repeat constructor| |intros w; lia|].
  - intros log' _. rewrite bool_decide_true by done.
    assert (core (opened now W (slot m i) method_id headers) = mk_Core (g + 1) false false W W) as -> by (unfold core; by rewrite Hg).
    assert (queued (slot m i) = []) as Hq.
    { destruct (slot m i) as [s|]; [|done]. destruct (Hold s eq_refl) as [_ Hq]. cbn. by rewrite Hq. }
    rewrite Hq, app_nil_r in Hmine. change (queued (Some (opened now W (slot m i) method_id headers)))
      with [(generation (opened now W (slot m i) method_id headers), Frame_Open method_id headers)]. rewrite Hg.
    eapply mine_ext; [eapply mine_open; [exact HW2|exact Hmine|]|..]; unfold log'.
    + intros c. destruct (slot m i) as [s|]; [|done]. intros [= <-]. apply (Hold s eq_refl).
    + intros h. by rewrite sent_app, app_nil_r.
    + intros h. by rewrite got_app, app_nil_r.
    + intros h. rewrite ended_app. intros [?|Hx]; [done|]. by apply list_elem_of_singleton in Hx.
    + intros h. by rewrite sent_app, app_nil_r.
    + intros h. by rewrite got_app, app_nil_r.
    + intros h. rewrite ended_app. intros [?|Hx]; [done|]. by apply list_elem_of_singleton in Hx.
  - intros _. rewrite Hg, decide_True by done. lia.
Qed.

(** *** Emission *)

Lemma frames_at_app idx a b : frames_at idx (a ++ b) = frames_at idx a ++ frames_at idx b.
Proof. apply omap_app. Qed.

Lemma frames_at_one idx bs key frame :
  decode_keyed_frame bs = Ok (mk_KeyedFrame key frame) ->
  frames_at idx [bs] = if stream_id key =? idx then [(key_generation key, frame)] else [].
Proof. intros H. unfold frames_at. cbn. rewrite H. cbn. by destruct (_ =? _). Qed.

Lemma emitted_decodes i s frame queue :
  n < 65536 -> slot m i = Some s -> send_queue s = frame :: queue ->
  decode_keyed_frame (encode_keyed_frame (mk_StreamKey i (generation s)) frame) =
  Ok (mk_KeyedFrame (mk_StreamKey i (generation s)) frame).
Proof.
  intros Hn Hs Hq. pose proof (slot_here _ _ Hs) as Hi.
  destruct (mux_slots _ _ _ _ (proj1 here) _ _ Hs) as [Hg _ _ Hqo]. apply decode_keyed_frame_iff. split_and!; [|..|done].
  - unfold key_ok, u16_ok. cbn. apply andb_true_iff. rewrite !N.leb_le. lia.
  - pose proof (queue_frames _ Hqo) as Hf. rewrite Hq in Hf. by apply Forall_cons in Hf as [? _].
Qed.

Lemma step_emit :
  n < 65536 -> let '(p', entries) := step p who A_emit in pair_ok n W count p' (log ++ entries).
Proof.
  intros Hn. destruct here as [Hm Hr]. unfold step. pose proof (next_outbound_spec n W m Hm) as H.
  destruct (next_outbound m) as [m' out]. destruct H as (Hm' & Hr' & H). destruct out as [bs|]; cycle 1.
  { rewrite !app_nil_r. apply advance_idle; [done|done|congruence|done]. }
  destruct H as (i & s & frame & queue & Hs & Hq & -> & Hsl). pose proof (slot_here _ _ Hs) as Hi.
  pose proof (emitted_decodes i s frame queue Hn Hs Hq) as Hdec. set (bs := encode_keyed_frame _ frame) in *.
  pose proof (fun j => frames_at_one j bs _ _ Hdec) as Hone. cbn [stream_id key_generation] in Hone.
  eapply (advance n W count count p _ log [] i); try done.
  - intros w. destruct (role_cases who w) as [->| ->].
    + rewrite side_set_eq. split; [done|cbn; congruence|]. cbn [wire]. apply Forall_app.
      split; [apply (side_wire _ _ _ _ (pair_sides _ _ _ _ _ Hp who))|]. constructor; [|done]. eexists. by split.
    + rewrite side_set_ne by apply other_ne. apply (pair_sides _ _ _ _ _ Hp).
  - intros w j Hj. destruct (role_cases who w) as [->| ->].
    + rewrite side_set_eq. cbn [mux wire]. rewrite Hsl, decide_False, frames_at_app, Hone by done.
      rewrite (proj2 (N.eqb_neq _ _)) by done. by rewrite app_nil_r.
    + rewrite side_set_ne by apply other_ne. done.
  - intros _. apply (slot_linked_mine W who). rewrite side_set_eq, side_set_ne by apply other_ne.
    unfold pipe at 1. cbn [mux wire]. rewrite Hsl, decide_True, frames_at_app, Hone, N.eqb_refl, app_nil_r by done.
    pose proof (mine_here i Hi) as Hmine. rewrite Hs in Hmine. cbn [fmap option_fmap option_map queued] in *. rewrite Hq in Hmine.
    rewrite <- app_assoc. exact Hmine.
  - destruct (role_cases who (owner i)) as [He|He].
    + rewrite He, side_set_eq. cbn [mux]. rewrite Hsl, decide_True by done. cbn. by eapply generation_here.
    + rewrite He, side_set_ne by apply other_ne. rewrite <- He. apply (pair_opens _ _ _ _ _ Hp).
Qed.

(** *** Delivery *)

(** A delivery reduces to what it does to the slot it concerns. *)
Lemma delivered m' bs rest key frame entries :
  wire (side p (other who)) = bs :: rest -> decode_keyed_frame bs = Ok (mk_KeyedFrame key frame) ->
  mux_ok n W m' -> role m' = who ->
  let i := stream_id key in
  (forall j, j <> i -> slot m' j = slot m j) ->
  Forall (entry_at i) entries -> Forall entry_quiet entries ->
  (forall Y, pipe (side p (other who)) i = (key_generation key, frame) :: Y ->
   let log' := log ++ entries in
   mine (bool_decide (owner i = who)) W (core <$> slot m' i) (core <$> slot (mux (side p (other who))) i)
    (frames_at i (wire (side p who)) ++ queued (slot m' i)) Y
    (fun h => sent who (mk_StreamKey i h) log') (fun h => got (other who) (mk_StreamKey i h) log')
    (fun h => ended (other who) (mk_StreamKey i h) log')
    (fun h => sent (other who) (mk_StreamKey i h) log') (fun h => got who (mk_StreamKey i h) log')
    (fun h => ended who (mk_StreamKey i h) log')) ->
  (owner i = who -> gen_of (core <$> slot m' i) <= count who) ->
  let p1 := set_side p who (mk_Side m' (wire (side p who))) in
  pair_ok n W count (set_side p1 (other who) (mk_Side (mux (side p1 (other who))) rest)) (log ++ entries).
Proof.
  intros Hw Hdec Hm' Hr' i Hsl Hat Hq Hmine Hgen p1.
  assert (side p1 (other who) = side p (other who)) as Ho by (apply side_set_ne, other_ne).
  rewrite Ho. set (p2 := set_side p1 (other who) _).
  assert (side p2 who = mk_Side m' (wire (side p who))) as H2 by (unfold p2; rewrite side_set_ne by (destruct who; done); apply side_set_eq).
  assert (side p2 (other who) = mk_Side (mux (side p (other who))) rest) as H3 by apply side_set_eq.
  pose proof (fun j => frames_at_one j bs _ _ Hdec) as Hone.
  assert (forall j, frames_at j (wire (side p (other who))) = frames_at j [bs] ++ frames_at j rest) as Hfr.
  { intros j. rewrite Hw. apply (frames_at_app j [bs] rest). }
  eapply (advance n W count count p _ log entries i); try done.
  - intros w. destruct (role_cases who w) as [->| ->].
    + rewrite H2. split; [done|done|]. apply (side_wire _ _ _ _ (pair_sides _ _ _ _ _ Hp who)).
    + rewrite H3. destruct (pair_sides _ _ _ _ _ Hp (other who)) as [Ha Hb Hc]. split; [done|done|].
      rewrite Hw in Hc. by apply Forall_cons in Hc as [_ ?].
  - intros w j Hj. destruct (role_cases who w) as [->| ->].
    + rewrite H2. cbn [mux wire]. by rewrite Hsl.
    + rewrite H3. cbn [mux wire]. rewrite Hfr, Hone. rewrite (proj2 (N.eqb_neq _ _)) by done. done.
  - intros _. apply (slot_linked_mine W who). rewrite H2, H3. unfold pipe. cbn [mux wire].
    apply (Hmine (frames_at i rest ++ queued (slot (mux (side p (other who))) i))).
    unfold pipe. rewrite Hfr, Hone. unfold i. by rewrite N.eqb_refl.
  - destruct (role_cases who (owner i)) as [He|He].
    + rewrite He, H2. by apply Hgen.
    + rewrite He, H3. cbn [mux]. rewrite <- He. apply (pair_opens _ _ _ _ _ Hp).
Qed.

Lemma live_slot_core key frame s :
  slot m (stream_id key) = Some s ->
  live_slot m key frame = if live (core s) (key_generation key, frame) then Some s else None.
Proof.
  intros Hs. unfold live_slot, live. rewrite Hs. cbn [core c_gen c_pt c_lt fst snd].
  destruct (_ =? _); cbn [negb andb]; [|done]. by destruct (peer_terminal s && _).
Qed.

Lemma generation_apply i s frame : generation (apply_frame i s frame).1 = generation s.
Proof. destruct frame; try done. cbn. by destruct (_ <? _). Qed.

Lemma core_apply i s g frame :
  live (core s) (g, frame) = true -> not_open frame = true ->
  (forall payload, frame = Frame_Body payload -> lenN payload <= local_recv_credit s /\ lenN payload < 4294967296) ->
  core (apply_frame i s frame).1 = take_frame (core s) (g, frame) /\
  queued (Some (apply_frame i s frame).1) = (if is_reset frame then [] else queued (Some s)) /\
  concat (map (note who (mk_KeyedFrame (mk_StreamKey i g) frame)) (apply_frame i s frame).2) =
  match frame with
  | Frame_Body payload => [Got who (mk_StreamKey i g) payload]
  | Frame_End _ _ => [Ended who (mk_StreamKey i g)]
  | _ => []
  end.
Proof.
  intros Hl Hno Hb. unfold take_frame. rewrite Hl. cbn [negb snd]. destruct frame; try done.
  destruct (Hb payload eq_refl) as [Hle Hlt]. cbn [apply_frame]. rewrite N.mod_small by done.
  by rewrite (proj2 (N.ltb_ge _ _)).
Qed.

Lemma mine_no_overrun own W0 c y A g payload Y sx gy fy sy gx fx :
  mine own W0 (Some c) y A ((g, Frame_Body payload) :: Y) sx gy fy sy gx fx -> c_gen c = g -> lenN payload <= c_lrc c.
Proof. unfold mine. intros H Hg. destruct own; destruct H as [_ Hf Hb _ _ _ _ _]; by eapply flow_no_overrun. Qed.

(** The entries of a delivered frame, as the transfer invariant counts them. *)
Definition heard (key : StreamKey) (frame : Frame) : list Entry :=
  match frame with
  | Frame_Body payload => [Got who key payload]
  | Frame_End _ _ => [Ended who key]
  | _ => []
  end.

Lemma heard_logs own W0 x y X Y i g frame c sx gy fy sy :
  live c (g, frame) = true ->
  mine own W0 x y X Y sx gy fy sy
    (got_by c (g, frame) (fun h => got who (mk_StreamKey i h) log)) (fin_by c (g, frame) (fun h => ended who (mk_StreamKey i h) log)) ->
  mine own W0 x y X Y sx gy fy sy
    (fun h => got who (mk_StreamKey i h) (log ++ heard (mk_StreamKey i g) frame))
    (fun h => ended who (mk_StreamKey i h) (log ++ heard (mk_StreamKey i g) frame)).
Proof.
  intros Hl Hm. eapply mine_ext; [exact Hm|done|done|done|done| |]; intros h; unfold got_by, fin_by, snoc_at; rewrite Hl; cbn [fst snd].
  - rewrite got_app. destruct frame; cbn [heard]; unfold got at 2; cbn; rewrite ?app_nil_r; try done.
    rewrite bool_decide_true, N.eqb_refl by done. cbn. destruct (g =? h); by rewrite ?app_nil_r.
  - rewrite ended_app. destruct frame; cbn [heard]; intros [?|Hx]; try done; try (by apply not_elem_of_nil in Hx);
      try (by apply list_elem_of_singleton in Hx); try (by left).
    apply list_elem_of_singleton in Hx. injection Hx as ->. by right.
Qed.

Lemma other_logs own W0 x y X Y i g frame sx gx fx :
  mine own W0 x y X Y sx (fun h => got (other who) (mk_StreamKey i h) log) (fun h => ended (other who) (mk_StreamKey i h) log)
    (fun h => sent (other who) (mk_StreamKey i h) log) gx fx ->
  mine own W0 x y X Y sx
    (fun h => got (other who) (mk_StreamKey i h) (log ++ heard (mk_StreamKey i g) frame))
    (fun h => ended (other who) (mk_StreamKey i h) (log ++ heard (mk_StreamKey i g) frame))
    (fun h => sent (other who) (mk_StreamKey i h) (log ++ heard (mk_StreamKey i g) frame)) gx fx.
Proof.
  assert (who <> other who) as Hne by (by destruct who).
  intros Hm. eapply mine_ext; [exact Hm|done| | | |done|done]; intros h.
  - rewrite got_app. destruct frame; cbn [heard]; unfold got at 2; cbn; rewrite ?app_nil_r; try done.
    rewrite bool_decide_false by done. cbn. by rewrite app_nil_r.
  - rewrite ended_app. destruct frame; cbn [heard]; intros [?|Hx]; try done; try (by apply not_elem_of_nil in Hx);
      try (by apply list_elem_of_singleton in Hx). apply list_elem_of_singleton in Hx. by injection Hx.
  - rewrite sent_app. by destruct frame; cbn [heard]; unfold sent at 2; cbn; rewrite app_nil_r.
Qed.

Lemma own_logs own W0 x y X Y i g frame gy fy sy gx fx :
  mine own W0 x y X Y (fun h => sent who (mk_StreamKey i h) log) gy fy sy gx fx ->
  mine own W0 x y X Y (fun h => sent who (mk_StreamKey i h) (log ++ heard (mk_StreamKey i g) frame)) gy fy sy gx fx.
Proof.
  intros Hm. eapply mine_ext; [exact Hm| |done..]. intros h. rewrite sent_app.
  by destruct frame; cbn [heard]; unfold sent at 2; cbn; rewrite app_nil_r.
Qed.

(** The frame at the head of the peer's pipe, and the invariant of its slot. *)
Lemma arriving bs rest :
  wire (side p (other who)) = bs :: rest ->
  exists key frame, decode_keyed_frame bs = Ok (mk_KeyedFrame key frame) /\ stream_id key < n /\
    key_generation key <= 65535 /\ frame_ok frame = true.
Proof.
  intros Hw. pose proof (side_wire _ _ _ _ (pair_sides _ _ _ _ _ Hp (other who))) as Hf. rewrite Hw in Hf.
  apply Forall_cons in Hf as [([key frame] & Hdec & Hi) _]. exists key, frame. split_and!; [done|done|..];
    apply decode_keyed_frame_iff in Hdec as (Hk & Hf & _); [|done]. unfold key_ok, u16_ok in Hk. bool_simpl. done.
Qed.

Lemma body_small payload : frame_ok (Frame_Body payload) = true -> lenN payload < 4294967296.
Proof.
  unfold frame_ok. intros [_ Hl]%andb_true_iff. apply N.leb_le in Hl. unfold encode_frame, MAX_FRAME_BYTES in Hl. cbn [length] in Hl. lia.
Qed.

Lemma deliver_open now bs rest key method_id headers :
  wire (side p (other who)) = bs :: rest ->
  decode_keyed_frame bs = Ok (mk_KeyedFrame key (Frame_Open method_id headers)) ->
  stream_id key < n -> key_generation key <= 65535 ->
  let '(m', r) := recv_open m now key method_id headers in
  let p1 := set_side p who (mk_Side m' (wire (side p who))) in
  pair_ok n W count (set_side p1 (other who) (mk_Side (mux (side p1 (other who))) rest)) (log ++ notes who bs r).
Proof.
  intros Hw Hdec Hi Hg. destruct here as [Hm Hr]. pose proof (recv_open_spec n W m now key method_id headers Hm Hi Hg) as H.
  pose proof (mine_here _ Hi) as Hmine.
  assert (exists Y, pipe (side p (other who)) (stream_id key) = (key_generation key, Frame_Open method_id headers) :: Y) as [Y HY].
  { unfold pipe. rewrite Hw. change (bs :: rest) with ([bs] ++ rest).
    rewrite frames_at_app, (frames_at_one _ _ _ _ Hdec), N.eqb_refl. by eexists. }
  rewrite HY in Hmine. assert (bool_decide (owner (stream_id key) = who) = false) as Hown.
  { destruct (bool_decide _) eqn:E; [|done]. destruct Hmine as [Hc _ _ _ _ _ _ _].
    pose proof (ctl_answers _ _ _ _ _ Hc) as [Ha _]%Forall_cons. unfold answer_ok in Ha.
    destruct (core <$> slot (mux (side p (other who))) (stream_id key)); [by destruct Ha as (_ & ? & _)|done]. }
  rewrite Hown in Hmine. apply mine_accept in Hmine as (Hmine & Hlt & Hcl); [|exact HW2|].
  2:{ destruct (slot m (stream_id key)) as [s|]; [exact (queued_gen s)|constructor]. }
  assert (recv_open m now key method_id headers =
    (clean_up_after_remote_free (set_slot m (stream_id key) (accepted now W (key_generation key) method_id)) (stream_id key),
     Ok [NewIncomingStream (stream_id key) method_id headers])) as Hopen.
  { unfold recv_open. apply bool_decide_eq_false in Hown. rewrite Hr. destruct (owns_slot who (stream_id key)) eqn:Ho;
      [by apply owner_iff in Ho|]. rewrite (mux_window _ _ _ _ Hm).
    destruct (slot m (stream_id key)) as [s|]; [|done]. rewrite (Hcl (core s) eq_refl : is_closed s = true).
    cbn in Hlt. rewrite (proj2 (N.eqb_neq _ _)) by lia. done. }
  rewrite Hopen in H |- *. destruct H as (Hm' & Hr' & _ & Hsl). unfold notes. rewrite Hdec. cbn [map concat note app]. cbv zeta.
  eapply (delivered _ bs rest key (Frame_Open method_id headers) []); [done|done|done|congruence| |done|done| |].
  - intros j Hj. by rewrite Hsl, decide_False.
  - intros Y' HY'. rewrite HY in HY'. injection HY' as <-. rewrite !app_nil_r, Hsl, decide_True, Hown by done. cbn [queued].
    rewrite app_nil_r. exact Hmine.
  - intros He. apply bool_decide_eq_false in Hown. done.
Qed.

Lemma deliver_rest bs rest key frame :
  wire (side p (other who)) = bs :: rest -> decode_keyed_frame bs = Ok (mk_KeyedFrame key frame) ->
  stream_id key < n -> frame_ok frame = true -> not_open frame = true ->
  let '(m', r) :=
    match live_slot m key frame with
    | None => (m, Ok [])
    | Some s =>
        let '(s, events) := apply_frame (stream_id key) s frame in
        (release (set_slot m (stream_id key) s) (stream_id key) frame, @Ok (list Event) MuxError events)
    end in
  let p1 := set_side p who (mk_Side m' (wire (side p who))) in
  pair_ok n W count (set_side p1 (other who) (mk_Side (mux (side p1 (other who))) rest)) (log ++ notes who bs r).
Proof.
  intros Hw Hdec Hi Hok Hno. destruct here as [Hm Hr]. destruct key as [i g]. cbn [stream_id] in *.
  pose proof (mine_here _ Hi) as Hmine.
  destruct (live_slot m (mk_StreamKey i g) frame) as [s|] eqn:El.
  - pose proof (live_slot_Some _ _ _ _ El) as (Hs & Hg & _ & _). cbn [stream_id key_generation] in Hs, Hg.
    assert (live (core s) (g, frame) = true) as Hl.
    { rewrite (live_slot_core (mk_StreamKey i g) _ s Hs) in El. by destruct (live _ _). }
    destruct (recv_live_spec n W m (mk_StreamKey i g) frame s Hm El Hno) as (Hm' & Hr' & Hsl). cbn [stream_id] in *.
    rewrite Hs in Hmine. destruct (apply_frame i s frame) as [s' events] eqn:Ea. cbn [fst] in *.
    assert (forall Y, pipe (side p (other who)) i = (g, frame) :: Y ->
      core s' = take_frame (core s) (g, frame) /\
      queued (Some s') = (if is_reset frame then [] else queued (Some s)) /\
      notes who bs (Ok events) = heard (mk_StreamKey i g) frame) as Hcore.
    { intros Y HY. destruct (core_apply i s g frame Hl Hno) as (H1 & H2 & H3).
      - intros payload ->. split; [|by apply body_small]. rewrite HY in Hmine. change (local_recv_credit s) with (c_lrc (core s)).
        eapply mine_no_overrun; [exact Hmine|done].
      - rewrite Ea in H1, H2, H3. cbn [fst snd] in *. split_and!; [done|done|]. unfold notes. rewrite Hdec. exact H3. }
    assert (exists Y, pipe (side p (other who)) i = (g, frame) :: Y) as [Y0 HY0].
    { unfold pipe. rewrite Hw. change (bs :: rest) with ([bs] ++ rest).
      rewrite frames_at_app, (frames_at_one _ _ _ _ Hdec). cbn [stream_id key_generation]. rewrite N.eqb_refl. by eexists. }
    destruct (Hcore Y0 HY0) as (Hc & Hq & Hn). rewrite Hn. cbv zeta.
    eapply (delivered _ bs rest (mk_StreamKey i g) frame (heard (mk_StreamKey i g) frame)); [done|done|done|congruence| | | | |].
    + cbn [stream_id]. intros j Hj. by rewrite Hsl, decide_False by done.
    + destruct frame; repeat constructor.
    + destruct frame; repeat constructor.
    + cbn [stream_id key_generation]. intros Y HY. rewrite HY in Hmine. cbn [stream_id key_generation] in *. rewrite Hsl, decide_True by done. cbn [fmap option_fmap option_map] in *.
      rewrite Hc, Hq. apply own_logs, other_logs.
      apply heard_logs with (c := core s); [exact Hl|].
      apply (mine_hear W HW2 _ _ _ _ _ _ _ _ _ _ (g, frame)) in Hmine; [|exact (queued_gen s)|done].
      unfold after_reset in Hmine. rewrite Hl in Hmine. cbn [andb snd] in Hmine. destruct (is_reset frame); by rewrite ?app_nil_r.
    + intros Ho. cbn [stream_id key_generation] in *. rewrite Hsl, decide_True by done. cbn.
      pose proof (generation_apply i s frame) as Hge. rewrite Ea in Hge. cbn [fst] in Hge. rewrite Hge. by eapply generation_here.
  - unfold notes. rewrite Hdec. cbn [map concat]. cbv zeta.
    eapply (delivered _ bs rest (mk_StreamKey i g) frame []); [done|done|done|done|done|done|done| |].
    + cbn [stream_id key_generation]. intros Y HY. rewrite HY in Hmine. rewrite !app_nil_r. cbn [stream_id key_generation] in *. destruct (slot m i) as [s|] eqn:Hs.
      * rewrite (live_slot_core (mk_StreamKey i g) _ s Hs) in El. cbn [key_generation] in El.
        destruct (live (core s) (g, frame)) eqn:Hl; [done|].
        apply (mine_hear W HW2 _ _ _ _ _ _ _ _ _ _ (g, frame)) in Hmine; [|exact (queued_gen s)|done].
        unfold after_reset, take_frame, got_by, fin_by in Hmine. rewrite Hl in Hmine. cbn [andb negb] in Hmine.
        by destruct frame.
      * eapply mine_drop; [exact HW2|exact Hmine|done].
    + intros Ho. cbn [stream_id key_generation] in *. rewrite <- Ho. apply (pair_opens _ _ _ _ _ Hp).
Qed.

Lemma step_deliver now :
  let '(p', entries) := step p who (A_deliver now) in pair_ok n W count p' (log ++ entries).
Proof.
  unfold step. destruct (wire (side p (other who))) as [|bs rest] eqn:Hw; [by rewrite app_nil_r|].
  destruct (arriving bs rest Hw) as (key & frame & Hdec & Hi & Hg & Hok). unfold recv. rewrite Hdec.
  rewrite (mux_size _ _ _ _ (proj1 here)), (proj2 (N.leb_gt _ _)) by done.
  destruct frame as [method_id headers|payload|status trailer|code|k].
  - pose proof (deliver_open now bs rest key method_id headers Hw Hdec Hi Hg) as H. by destruct (recv_open _ _ _ _ _).
  - pose proof (deliver_rest bs rest key _ Hw Hdec Hi Hok eq_refl) as H. by destruct (live_slot _ _ _) as [s|]; [destruct (apply_frame _ _ _)|].
  - pose proof (deliver_rest bs rest key _ Hw Hdec Hi Hok eq_refl) as H. by destruct (live_slot _ _ _) as [s|]; [destruct (apply_frame _ _ _)|].
  - pose proof (deliver_rest bs rest key _ Hw Hdec Hi Hok eq_refl) as H. by destruct (live_slot _ _ _) as [s|]; [destruct (apply_frame _ _ _)|].
  - pose proof (deliver_rest bs rest key _ Hw Hdec Hi Hok eq_refl) as H. by destruct (live_slot _ _ _) as [s|]; [destruct (apply_frame _ _ _)|].
Qed.
End Steps.

(** ** Runs *)

Lemma control_none W : control W None None [] [].
Proof. split; try done. by exists None. Qed.

Lemma connect_ok n W : n < 65536 -> pair_ok n W (fun _ => 0) (connect n W) [].
Proof.
  intros Hn. assert (forall who idx, slot (mux (side (connect n W) who)) idx = None) as Hs
    by (intros [] idx; apply slot_new).
  assert (forall who, wire (side (connect n W) who) = []) as Hw by (by intros []). split.
  - intros who. split; [destruct who; by apply new_ok|by destruct who|by rewrite Hw].
  - intros idx _. unfold slot_linked, pipe. rewrite !Hs, !Hw. cbn. split.
    + apply control_none.
    + intros h _. cbn. lia.
    + intros h _. cbn. lia.
    + split; [done|by intros h| |by intros h Hx; inversion Hx].
      intros h _. split_and!; [by exists []|done|done].
    + split; [done|by intros h| |by intros h Hx; inversion Hx].
      intros h _. split_and!; [by exists []|done|done].
    + by intros c.
    + by intros c.
    + by intros c [?|?].
  - intros idx. by rewrite Hs.
  - done.
Qed.

Lemma step_ok n W count p log who a :
  pair_ok n W count p log -> W + 1 <= MAX_FRAME_BYTES -> n < 65536 -> action_ok a = true ->
  count who + opens who [(who, a)] <= 65535 ->
  let '(p', entries) := step p who a in
  pair_ok n W (fun w => count w + opens w [(who, a)]) p' (log ++ entries).
Proof.
  intros Hp HW Hn Ha Hc.
  assert (match a with A_open _ _ _ => True | _ => forall w, opens w [(who, a)] = 0 end) as Hz
    by (destruct a; try done; intros w; done).
  assert (forall p' entries, (forall w, opens w [(who, a)] = 0) -> pair_ok n W count p' (log ++ entries) ->
    pair_ok n W (fun w => count w + opens w [(who, a)]) p' (log ++ entries)) as Hsame.
  { intros p' entries Hw [H1 H2 H3 H4]. split; [done|done| |done]. intros idx. rewrite Hw, N.add_0_r. apply H3. }
  destruct a as [now method_id headers|idx payload|idx trailer|idx code|idx k| |now].
  - assert (opens who [(who, A_open now method_id headers)] = 1) as H1.
    { unfold opens. cbn. rewrite bool_decide_true by done. done. }
    pose proof (step_open n W p log count who Hp HW now method_id headers Ha ltac:(lia)) as H.
    destruct (step p who (A_open now method_id headers)) as [p' entries]. destruct H as [G1 G2 G3 G4]. split; [done|done| |done].
    intros idx. specialize (G3 idx). unfold opens. cbn. destruct (decide (owner idx = who)) as [->|Hne].
    + rewrite bool_decide_true by done. cbn. done.
    + rewrite bool_decide_false by congruence. cbn. done.
  - pose proof (step_send n W p log count who Hp HW idx payload) as H. destruct (step _ _ _) as [p' entries]. by apply Hsame.
  - pose proof (step_close n W p log count who Hp HW idx trailer Ha) as H. destruct (step _ _ _) as [p' entries]. by apply Hsame.
  - pose proof (step_reset n W p log count who Hp HW idx code) as H. destruct (step _ _ _) as [p' entries]. by apply Hsame.
  - pose proof (step_consume n W p log count who Hp HW idx k) as H. destruct (step _ _ _) as [p' entries]. by apply Hsame.
  - pose proof (step_emit n W p log count who Hp HW Hn) as H. destruct (step _ _ _) as [p' entries]. by apply Hsame.
  - pose proof (step_deliver n W p log count who Hp HW now) as H. destruct (step _ _ _) as [p' entries]. by apply Hsame.
Qed.

Lemma opens_cons w wa acts : opens w (wa :: acts) = opens w [wa] + opens w acts.
Proof. unfold opens. cbn [List.filter]. destruct (match wa with (r, A_open _ _ _) => _ | _ => _ end); cbn [length]; lia. Qed.

Lemma run_ok n W count p log acts :
  pair_ok n W count p log -> W + 1 <= MAX_FRAME_BYTES -> n < 65536 ->
  forallb (fun wa => action_ok wa.2) acts = true -> (forall w, count w + opens w acts <= 65535) ->
  let '(p', log') := run p log acts in pair_ok n W (fun w => count w + opens w acts) p' log'.
Proof.
  revert count p log. induction acts as [|[who a] acts IH]; intros count p log Hp HW Hn Ha Hc; cbn [run].
  { destruct Hp as [H1 H2 H3 H4]. split; [done|done| |done]. intros idx. etrans; [apply H3|]. lia. }
  cbn [forallb snd] in Ha. apply andb_true_iff in Ha as [Ha Has]. pose proof (fun w => opens_cons w (who, a) acts) as Ho.
  pose proof (step_ok n W count p log who a Hp HW Hn Ha) as Hs. destruct (step p who a) as [p1 entries].
  specialize (IH (fun w => count w + opens w [(who, a)]) p1 (log ++ entries)). destruct (run p1 (log ++ entries) acts) as [p' log'].
  assert (pair_ok n W (fun w => count w + opens w [(who, a)] + opens w acts) p' log') as [H1 H2 H3 H4].
  { apply IH; [|done..|].
    - apply Hs. specialize (Hc who). rewrite Ho in Hc. lia.
    - intros w. specialize (Hc w). rewrite Ho in Hc. lia. }
  split; [done|done| |done]. intros idx. rewrite Ho. etrans; [apply H3|]. lia.
Qed.




(** ** A run *)

(** A call with a response, the request's credit returned, and the slot recycled
    after a reset. *)
Definition a_call : list (Role * Action) :=
  [(Client, A_open 0 7 []); (Client, A_emit); (Server, A_deliver 1);
   (Client, A_send 0 [x01; x02; x03]); (Client, A_emit); (Server, A_deliver 2);
   (Server, A_consume 0 3); (Server, A_emit); (Client, A_deliver 3)].
Definition a_reuse : list (Role * Action) :=
  a_call ++
  [(Client, A_send 0 [x04]); (Client, A_close 0 None); (Client, A_emit); (Client, A_emit);
   (Server, A_deliver 4); (Server, A_deliver 5); (Server, A_send 0 [x05]); (Server, A_reset 0 Cancelled);
   (Server, A_emit); (Client, A_deliver 6); (Client, A_open 7 9 []); (Client, A_emit); (Server, A_deliver 8)].

Lemma small_run acts : forallb (fun who => opens who acts <=? 65535) [Client; Server] = true -> forall who, opens who acts <= 65535.
Proof. cbn. intros H who. bool_simpl. by destruct who. Qed.



Definition slot_after (acts : list (Role * Action)) (who : Role) : StreamSlot :=
  default (StreamSlot_open 0 0 0) (slot (mux (side (run (connect 4 8) [] acts).1 who)) 0).

