(* ===== verification/Webauthn.v ===== *)
(** * WebAuthn assertions (crates/webauthn, kernel/src/webauthn.rs)

    The one assertion verifier: sizes and flags, the strict [clientDataJSON]
    parser, the base64url challenge, low [s], and the kernel's envelope around it.
    The parser of the source is a position in its input; here it is the input
    that is left, [input[pos..]].  The P-256 curve and SHA-256 are the class
    [P256].  The second half gives the accepted documents as a grammar and shows
    that the parser accepts those documents and no others. *)

From stdpp Require Import strings.
From S2P Require Import Prelude Canonical Primitive Auth.

#[local] Open Scope N_scope.

(** ** The verifier *)

(* [crates/webauthn/src/lib.rs:89-120] Error *)
Inductive WebAuthnError :=
  | AuthenticatorDataLength | ClientDataJsonTooLong | MissingUserPresence | AttestedCredentialDataUnsupported
  | ExtensionsUnsupported | InvalidClientDataJson | InvalidClientDataType | InvalidChallenge
  | MissingClientDataField | DuplicateClientDataField | InvalidPublicKey | SignerMismatch | HighS | InvalidSignature.

(* [crates/webauthn/src/client_data.rs:16-16] CHALLENGE_LEN *)
Definition CHALLENGE_LEN : nat := 32.
(* [crates/webauthn/src/client_data.rs:18-18] ENCODED_CHALLENGE_LEN *)
Definition ENCODED_CHALLENGE_LEN : nat := 43.

(* [crates/webauthn/src/client_data.rs:20-20] BASE64URL *)
Definition BASE64URL : bytes :=
  list_byte_of_string "ABCDEFGHIJKLMNOPQRSTUVWXYZabcdefghijklmnopqrstuvwxyz0123456789-_".

Definition symbol (bits : N) : byte := List.nth (N.to_nat (N.land bits 0x3f)) BASE64URL x00.

(* [crates/webauthn/src/client_data.rs:30-53] encode_challenge *)
Fixpoint encode_challenge (input : bytes) : bytes :=
  match input with
  | a :: b :: c :: rest =>
      let bits := N.lor (N.lor (N.shiftl (Byte.to_N a) 16) (N.shiftl (Byte.to_N b) 8)) (Byte.to_N c) in
      symbol (N.shiftr bits 18) :: symbol (N.shiftr bits 12) :: symbol (N.shiftr bits 6) :: symbol bits ::
      encode_challenge rest
  | [a; b] =>
      let bits := N.lor (N.shiftl (Byte.to_N a) 16) (N.shiftl (Byte.to_N b) 8) in
      [symbol (N.shiftr bits 18); symbol (N.shiftr bits 12); symbol (N.shiftr bits 6)]
  | _ => []
  end.

(** *** The parser *)

Definition is_ws (b : byte) : bool := bool_decide (b ∈ [x20; x0a; x0d; x09]).

(* [crates/webauthn/src/client_data.rs:170-176] JsonParser::skip_ws *)
Fixpoint skip_ws (rest : bytes) : bytes :=
  match rest with
  | [] => []
  | b :: tail => if is_ws b then skip_ws tail else rest
  end.

(* [crates/webauthn/src/client_data.rs:182-189] JsonParser::consume *)
Definition consume (rest : bytes) (b : byte) : bool * bytes :=
  match rest with
  | c :: tail => if bool_decide (c = b) then (true, tail) else (false, rest)
  | [] => (false, rest)
  end.

(* [crates/webauthn/src/client_data.rs:191-197] JsonParser::expect *)
Definition expect (rest : bytes) (b : byte) : result bytes WebAuthnError :=
  let '(hit, rest) := consume rest b in
  if hit then Ok rest else Err InvalidClientDataJson.

Definition within (lo hi : N) (b : byte) : bool := (lo <=? Byte.to_N b) && (Byte.to_N b <=? hi).
Definition is_hex (b : byte) : bool := within 0x30 0x39 b || within 0x41 0x46 b || within 0x61 0x66 b.
Definition simple_escape (b : byte) : bool := bool_decide (b ∈ [x22; x5c; x2f; x62; x66; x6e; x72; x74]).

Fixpoint skip_hex (n : nat) (rest : bytes) : result bytes WebAuthnError :=
  match n with
  | O => Ok rest
  | S n => match rest with
           | hex :: tail => if is_hex hex then skip_hex n tail else Err InvalidClientDataJson
           | [] => Err InvalidClientDataJson
           end
  end.
(* [crates/webauthn/src/client_data.rs:231-252] JsonParser::skip_escape *)
Definition skip_escape (rest : bytes) : result bytes WebAuthnError :=
  match rest with
  | [] => Err InvalidClientDataJson
  | b :: tail =>
      if simple_escape b then Ok tail else
      if bool_decide (b = x75) then skip_hex 4 tail else Err InvalidClientDataJson
  end.

(* [crates/webauthn/src/client_data.rs:130-133] JsonString *)
Record JsonString := mk_JsonString { js_bytes : bytes; js_escaped : bool }.

(** Every round reads at least one byte. *)
Fixpoint string_loop (rounds : nat) (start rest : bytes) (escaped : bool) : result (JsonString * bytes) WebAuthnError :=
  match rounds with
  | O => Err InvalidClientDataJson
  | S rounds =>
      match rest with
      | [] => Err InvalidClientDataJson
      | b :: tail =>
          if bool_decide (b = x22) then
            Ok (mk_JsonString (take (length start - length rest) start) escaped, tail)
          else if bool_decide (b = x5c) then
            let? tail := skip_escape tail in
            string_loop rounds start tail true
          else if Byte.to_N b <=? 0x1f then Err InvalidClientDataJson
          else string_loop rounds start tail escaped
      end
  end.
(* [crates/webauthn/src/client_data.rs:203-229] JsonParser::parse_string *)
Definition parse_string (rest : bytes) : result (JsonString * bytes) WebAuthnError :=
  let? start := expect rest x22 in
  string_loop (S (length start)) start start false.

Definition number_char (b : byte) : bool := within 0x30 0x39 b || bool_decide (b ∈ [x2d; x2b; x2e; x65; x45]).

Fixpoint skip_number_chars (rest : bytes) : bytes :=
  match rest with
  | [] => []
  | b :: tail => if number_char b then skip_number_chars tail else rest
  end.
(* [crates/webauthn/src/client_data.rs:271-283] JsonParser::skip_number *)
Definition skip_number (rest : bytes) : result bytes WebAuthnError :=
  let tail := skip_number_chars rest in
  if (length tail =? length rest)%nat then Err InvalidClientDataJson else Ok tail.

(* [crates/webauthn/src/client_data.rs:285-295] JsonParser::consume_literal *)
Definition consume_literal (rest literal : bytes) : result bytes WebAuthnError :=
  if bool_decide (take (length literal) rest = literal) then Ok (drop (length literal) rest)
  else Err InvalidClientDataJson.

(* [crates/webauthn/src/client_data.rs:257-266] JsonParser::skip_simple_value *)
Definition skip_simple_value (rest : bytes) : result bytes WebAuthnError :=
  match rest with
  | [] => Err InvalidClientDataJson
  | b :: _ =>
      if bool_decide (b = x22) then let? '(_, tail) := parse_string rest in Ok tail else
      if bool_decide (b = x74) then consume_literal rest (list_byte_of_string "true") else
      if bool_decide (b = x66) then consume_literal rest (list_byte_of_string "false") else
      if bool_decide (b = x6e) then consume_literal rest (list_byte_of_string "null") else
      if bool_decide (b = x2d) || within 0x30 0x39 b then skip_number rest else
      Err InvalidClientDataJson
  end.

(* [crates/webauthn/src/client_data.rs:136-140] FieldName *)
Inductive FieldName := FieldType | FieldChallenge | FieldOther.

(* [crates/webauthn/src/client_data.rs:144-153] field_name *)
Definition field_name (value : JsonString) : FieldName :=
  if js_escaped value then FieldOther else
  if bool_decide (js_bytes value = list_byte_of_string "type") then FieldType else
  if bool_decide (js_bytes value = list_byte_of_string "challenge") then FieldChallenge else FieldOther.

(** The value of a member, by its name. *)
Definition member_value (expected : bytes) (key : JsonString) (seen_type seen_challenge : bool) (rest : bytes)
    : result (bool * bool * bytes) WebAuthnError :=
  match field_name key with
  | FieldType =>
      if seen_type then Err DuplicateClientDataField else
      let? '(value, rest) := parse_string rest in
      if js_escaped value || negb (bool_decide (js_bytes value = list_byte_of_string "webauthn.get"))
      then Err InvalidClientDataType else Ok (true, seen_challenge, rest)
  | FieldChallenge =>
      if seen_challenge then Err DuplicateClientDataField else
      let? '(value, rest) := parse_string rest in
      if js_escaped value || negb (bool_decide (js_bytes value = expected))
      then Err InvalidChallenge else Ok (seen_type, true, rest)
  | FieldOther => let? rest := skip_simple_value rest in Ok (seen_type, seen_challenge, rest)
  end.

(** The members up to the closing brace, with what has been seen. *)
Fixpoint members_loop (rounds : nat) (expected : bytes) (seen_type seen_challenge : bool) (rest : bytes)
    : result (bool * bool * bytes) WebAuthnError :=
  match rounds with
  | O => Err InvalidClientDataJson
  | S rounds =>
      let? '(key, rest) := parse_string (skip_ws rest) in
      let? rest := expect (skip_ws rest) x3a in
      let? '(seen_type, seen_challenge, rest) := member_value expected key seen_type seen_challenge (skip_ws rest) in
      let '(closed, rest) := consume (skip_ws rest) x7d in
      if closed then Ok (seen_type, seen_challenge, rest) else
      let? rest := expect rest x2c in
      members_loop rounds expected seen_type seen_challenge rest
  end.

(* [crates/webauthn/src/client_data.rs:60-127] validate *)
Definition validate (input expected_challenge : bytes) : result unit WebAuthnError :=
  let? rest := expect (skip_ws input) x7b in
  let '(empty, rest) := consume (skip_ws rest) x7d in
  if empty then Err MissingClientDataField else
  let? '(seen_type, seen_challenge, rest) := members_loop (S (length rest)) expected_challenge false false rest in
  if negb (length (skip_ws rest) =? 0)%nat then Err InvalidClientDataJson else
  if negb seen_type || negb seen_challenge then Err MissingClientDataField else Ok tt.

(** *** The policy *)

(* [crates/webauthn/src/lib.rs:51-51] AUTHENTICATOR_DATA_LEN *)
Definition AUTHENTICATOR_DATA_LEN : nat := 37.
(* [crates/webauthn/src/lib.rs:57-57] MAX_DATA_LEN *)
Definition MAX_DATA_LEN : nat := N.to_nat 2048.
(* [crates/webauthn/src/lib.rs:60-60] MAX_CLIENT_DATA_JSON_LEN *)
Definition MAX_CLIENT_DATA_JSON_LEN : nat := MAX_DATA_LEN - AUTHENTICATOR_DATA_LEN.
(* [crates/webauthn/src/lib.rs:72-72] FLAG_UP *)
Definition FLAG_UP : N := 0x01.
(* [crates/webauthn/src/lib.rs:74-74] FLAG_UV *)
Definition FLAG_UV : N := 0x04.
(* [crates/webauthn/src/lib.rs:76-76] FLAG_AT *)
Definition FLAG_AT : N := 0x40.
(* [crates/webauthn/src/lib.rs:78-78] FLAG_ED *)
Definition FLAG_ED : N := 0x80.
(* [crates/webauthn/src/lib.rs:80-80] FLAGS_OFFSET *)
Definition FLAGS_OFFSET : nat := 32.
(* [crates/webauthn/src/lib.rs:82-85] P256_N_HALF *)
Definition P256_N_HALF : bytes :=
  [x7f; xff; xff; xff; x80; x00; x00; x00; x7f; xff; xff; xff; xff; xff; xff; xff;
   xde; x73; x7d; x56; xd3; x8b; xcf; x42; x79; xdc; xe5; x61; x7e; x31; x92; xa8].

(** [Ord] of byte slices. *)
Fixpoint bytes_leb (a b : bytes) : bool :=
  match a, b with
  | [], _ => true
  | _ :: _, [] => false
  | x :: a, y :: b =>
      (Byte.to_N x <? Byte.to_N y) || ((Byte.to_N x =? Byte.to_N y) && bytes_leb a b)
  end.

(** The curve and the hash.  A key is its compressed SEC1 encoding. *)
Class P256 := {
  from_sec1 : bytes -> option bytes;
  compress : bytes -> bytes -> option bytes;
  signature_from_slice : bytes -> bool;
  verify_prehash : bytes -> bytes -> bytes -> bool;
  sha256 : bytes -> bytes;
}.

(* [crates/webauthn/src/lib.rs:195-202] Assertion *)
Record Assertion := mk_Assertion {
  a_signature : bytes;
  a_authenticator_data : bytes;
  a_client_data_json : bytes;
}.

Section Verify.
Context `{P256}.

(* [crates/webauthn/src/lib.rs:262-267] signed_digest *)
Definition signed_digest (authenticator_data client_data_json : bytes) : bytes :=
  sha256 (authenticator_data ++ sha256 client_data_json).

(* [crates/webauthn/src/lib.rs:213-255] verify *)
Definition verify (assertion : Assertion) (key challenge : bytes) : result unit WebAuthnError :=
  let authenticator_data := a_authenticator_data assertion in
  let client_data_json := a_client_data_json assertion in
  if negb (length authenticator_data =? AUTHENTICATOR_DATA_LEN)%nat then Err AuthenticatorDataLength else
  if (MAX_CLIENT_DATA_JSON_LEN <? length client_data_json)%nat then Err ClientDataJsonTooLong else
  let? flags := ok_or (authenticator_data !! FLAGS_OFFSET) AuthenticatorDataLength in
  let flags := Byte.to_N flags in
  if N.land flags (N.lor FLAG_UP FLAG_UV) =? 0 then Err MissingUserPresence else
  if negb (N.land flags FLAG_AT =? 0) then Err AttestedCredentialDataUnsupported else
  if negb (N.land flags FLAG_ED =? 0) then Err ExtensionsUnsupported else
  let? _ := validate client_data_json (encode_challenge challenge) in
  let s := drop P256_COORDINATE_LENGTH (a_signature assertion) in
  if negb (bytes_leb s P256_N_HALF) then Err HighS else
  if negb (signature_from_slice (a_signature assertion)) then Err InvalidSignature else
  if verify_prehash key (signed_digest authenticator_data client_data_json) (a_signature assertion)
  then Ok tt else Err InvalidSignature.

(** The envelope the kernel carries: the signer's coordinates, [r], [s] and the
    two data fields without a length between them. *)
(* [webauthn.rs:43-72] verify_webauthn_assertion *)
Definition verify_webauthn_assertion (assertion : WebAuthnAssertion) (key : Key) (hash : PayloadHash)
    : result unit WebAuthnError :=
  let? signer := ok_or (compress (wa_pub_key_x assertion) (wa_pub_key_y assertion)) InvalidPublicKey in
  if negb (bool_decide (Key_from_bytes signer = key)) then Err SignerMismatch else
  let data := map byte_of_N (wa_webauthn_data assertion) in
  if (length data <? AUTHENTICATOR_DATA_LEN)%nat then Err AuthenticatorDataLength else
  verify (mk_Assertion (wa_r assertion ++ wa_s assertion) (take AUTHENTICATOR_DATA_LEN data) (drop AUTHENTICATOR_DATA_LEN data))
    signer (PayloadHash_bytes hash).
End Verify.

(** ** The accepted documents *)

Definition ws (s : bytes) : Prop := Forall (fun b => is_ws b = true) s.
Definition quoted (s : bytes) : bytes := x22 :: s ++ [x22].

(** The inside of a string, and whether it has an escape. *)
Inductive body : bool -> bytes -> Prop :=
  | body_nil : body false []
  | body_char b e s :
      b <> x22 -> b <> x5c -> 0x1f < Byte.to_N b -> body e s -> body e (b :: s)
  | body_escape b e s : simple_escape b = true -> body e s -> body true (x5c :: b :: s)
  | body_unicode h e s :
      length h = 4%nat -> Forall (fun b => is_hex b = true) h -> body e s -> body true (x5c :: x75 :: h ++ s).

Inductive simple : bytes -> Prop :=
  | simple_string e s : body e s -> simple (quoted s)
  | simple_true : simple (list_byte_of_string "true")
  | simple_false : simple (list_byte_of_string "false")
  | simple_null : simple (list_byte_of_string "null")
  | simple_number b s :
      (b = x2d \/ within 0x30 0x39 b = true) -> Forall (fun b => number_char b = true) s -> simple (b :: s).

Record Member := mk_Member {
  m_before : bytes; m_name : bytes; m_after_name : bytes; m_before_value : bytes; m_value : bytes; m_after : bytes
}.
Definition member_ok (m : Member) : Prop :=
  ws (m_before m) /\ ws (m_after_name m) /\ ws (m_before_value m) /\ ws (m_after m)
  /\ (exists e, body e (m_name m)) /\ simple (m_value m).
Definition render_member (m : Member) : bytes :=
  m_before m ++ quoted (m_name m) ++ m_after_name m ++ x3a :: m_before_value m ++ m_value m ++ m_after m.
(** The members, separated by commas, and the closing brace. *)
Fixpoint render_members (ms : list Member) : bytes :=
  match ms with
  | [] => []
  | [m] => render_member m ++ [x7d]
  | m :: ms => render_member m ++ x2c :: render_members ms
  end.

(** The values of the members with a name. *)
Definition values_of (name : string) (ms : list Member) : list bytes :=
  map m_value (filter (fun m => m_name m = list_byte_of_string name) ms).

(** A flat object of simple values with one [type] member, [webauthn.get], and one
    [challenge] member, the expected one, both spelled literally. *)
Definition client_data (challenge input : bytes) : Prop :=
  exists lead ms trail,
    ws lead /\ ws trail /\ ms <> [] /\ Forall member_ok ms
    /\ input = lead ++ x7b :: render_members ms ++ trail
    /\ values_of "type" ms = [quoted (list_byte_of_string "webauthn.get")]
    /\ values_of "challenge" ms = [quoted challenge].

(** ** The parser accepts exactly these *)

Definition starts (P : byte -> bool) (s : bytes) : bool := match s with [] => false | b :: _ => P b end.

Lemma skip_ws_sound s : exists w, ws w /\ s = w ++ skip_ws s /\ starts is_ws (skip_ws s) = false.
Proof.
  induction s as [|b s (w & Hw & Hs & Hn)]; [by exists []; repeat split; constructor|].
  cbn [skip_ws]. destruct (is_ws b) eqn:E.
  - exists (b :: w). split_and!; [by constructor| cbn [app]; by f_equal |done].
  - exists []. split_and!; [constructor|done|exact E].
Qed.

Lemma skip_ws_app w s : ws w -> starts is_ws s = false -> skip_ws (w ++ s) = s.
Proof.
  intros Hw Hs. induction Hw as [|b w Hb Hw IH]; cbn [app skip_ws]; [|by rewrite Hb].
  destruct s as [|b s]; [done|]. cbn [skip_ws starts] in *. by rewrite Hs.
Qed.

Lemma expect_Ok s b rest : expect s b = Ok rest <-> s = b :: rest.
Proof.
  unfold expect, consume. destruct s as [|c s]; [done|].
  case_bool_decide as E; subst; split; intros Heq; inversion Heq; subst; done.
Qed.
Lemma consume_same b s : consume (b :: s) b = (true, s).
Proof. unfold consume. by rewrite bool_decide_true. Qed.
Lemma consume_other b c s : b <> c -> consume (b :: s) c = (false, b :: s).
Proof. intros. unfold consume. by rewrite bool_decide_false. Qed.
Lemma consume_cases s b : (exists t, s = b :: t /\ consume s b = (true, t)) \/ consume s b = (false, s).
Proof. unfold consume. destruct s; [by right|]. case_bool_decide; subst; eauto. Qed.

Lemma skip_hex_Ok n s rest :
  skip_hex n s = Ok rest <-> exists h, length h = n /\ Forall (fun b => is_hex b = true) h /\ s = h ++ rest.
Proof.
  revert s. induction n as [|n IH]; intros s; cbn [skip_hex].
  { split; [intros [= ->]; by exists []|]. by intros ([|]&?&?&->). }
  split.
  - destruct s as [|b s]; [done|]. destruct (is_hex b) eqn:E; [|done].
    intros (h & <- & Hh & ->)%IH. exists (b :: h). split_and!; [done|by constructor|done].
  - intros (h & Hl & Hh & ->). destruct h as [|b h]; [done|]. inversion Hh; subst. cbn [app].
    rewrite H1. apply IH. exists h. by injection Hl as <-.
Qed.

Definition ends_at (start tail : bytes) (escaped : bool) : JsonString :=
  mk_JsonString (take (length start - length (x22 :: tail)) start) escaped.

Lemma string_loop_sound n start s e js tail :
  string_loop n start s e = Ok (js, tail) ->
  exists e' t, body e' t /\ s = t ++ x22 :: tail /\ js = ends_at start tail (e || e').
Proof.
  revert s e. induction n as [|n IH]; intros s e; cbn [string_loop]; [done|].
  destruct s as [|b s]; [done|]. case_bool_decide as E1.
  { subst. intros [= <- <-]. exists false, []. split_and!; [constructor|done|]. by rewrite orb_false_r. }
  case_bool_decide as E2.
  - subst. intros (rest & Hesc & Hloop)%rbind_Ok. apply IH in Hloop as (e' & t & Ht & -> & ->).
    cbn [orb]. exists true. unfold skip_escape in Hesc. destruct s as [|c s]; [done|].
    rewrite orb_true_r. destruct (simple_escape c) eqn:Es.
    + injection Hesc as ->. exists (x5c :: c :: t). split_and!; [by econstructor|done|done].
    + case_bool_decide; [subst|done]. apply skip_hex_Ok in Hesc as (h & Hl & Hh & ->).
      exists (x5c :: x75 :: h ++ t). split_and!; [by econstructor| |done]. cbn [app]. by rewrite <- app_assoc.
  - case_match eqn:E3; [done|]. intros (e' & t & Ht & -> & ->)%IH. apply N.leb_gt in E3.
    exists e', (b :: t). split_and!; [by constructor|done|done].
Qed.

Lemma string_loop_complete e' t : body e' t -> forall n start e tail,
  (length t < n)%nat -> string_loop n start (t ++ x22 :: tail) e = Ok (ends_at start tail (e || e'), tail).
Proof.
  induction 1 as [|b e' s Hq Hb Hc Hs IH|b e' s Hb Hs IH|h e' s Hl Hh Hs IH]; intros [|n] start e tail Hn; try lia;
    cbn [string_loop app length] in *.
  - rewrite bool_decide_true by done. by rewrite orb_false_r.
  - rewrite !bool_decide_false by done. apply N.leb_gt in Hc. rewrite Hc. apply IH. lia.
  - cbn [bool_decide]. rewrite bool_decide_false, bool_decide_true by done. unfold skip_escape. rewrite Hb. cbn [rbind].
    rewrite IH by lia. by rewrite orb_true_r.
  - rewrite bool_decide_false, bool_decide_true by done. unfold skip_escape.
    replace (simple_escape x75) with false by done. rewrite bool_decide_true by done.
    rewrite <- app_assoc.
    replace (skip_hex 4 (h ++ s ++ x22 :: tail)) with (@Ok bytes WebAuthnError (s ++ x22 :: tail)).
    + cbn [rbind]. rewrite length_app in Hn. rewrite IH by lia. by rewrite orb_true_r.
    + symmetry. apply skip_hex_Ok. eauto.
Qed.

Lemma ends_at_whole t tail e : ends_at (t ++ x22 :: tail) tail e = mk_JsonString t e.
Proof.
  unfold ends_at. f_equal. rewrite length_app. rewrite Nat.add_sub. by rewrite take_app_length.
Qed.

Lemma parse_string_Ok s js tail :
  parse_string s = Ok (js, tail) <-> body (js_escaped js) (js_bytes js) /\ s = quoted (js_bytes js) ++ tail.
Proof.
  unfold parse_string, quoted. split.
  - intros (start & ->%expect_Ok & Hloop)%rbind_Ok.
    apply string_loop_sound in Hloop as (e & t & Ht & -> & ->). rewrite ends_at_whole. cbn [js_bytes js_escaped orb app].
    by rewrite <- app_assoc.
  - intros [Hb ->]. cbn [app]. rewrite <- app_assoc. cbn [app].
    rewrite (proj2 (expect_Ok _ x22 (js_bytes js ++ x22 :: tail)) eq_refl). cbn [rbind].
    rewrite (string_loop_complete _ _ Hb) by (rewrite length_app; cbn [length]; lia). rewrite ends_at_whole. by destruct js.
Qed.

Lemma skip_number_chars_sound s :
  exists t, Forall (fun b => number_char b = true) t /\ s = t ++ skip_number_chars s.
Proof.
  induction s as [|b s (t & Ht & Hs)]; [by exists []|]. cbn [skip_number_chars].
  destruct (number_char b) eqn:E; [|by exists []]. exists (b :: t). split; [by constructor|]. cbn [app]. by f_equal.
Qed.
Lemma skip_number_chars_app t s :
  Forall (fun b => number_char b = true) t -> starts number_char s = false -> skip_number_chars (t ++ s) = s.
Proof.
  intros Ht Hs. induction Ht as [|b t Hb Ht IH]; cbn [app skip_number_chars]; [|by rewrite Hb].
  destruct s as [|b s]; [done|]. cbn [skip_number_chars starts] in *. by rewrite Hs.
Qed.

Lemma consume_literal_Ok s l tail : consume_literal s l = Ok tail <-> s = l ++ tail.
Proof.
  unfold consume_literal. case_bool_decide as E; split.
  - intros [= <-]. rewrite <- (take_drop (length l) s) at 1. by rewrite E.
  - intros ->. by rewrite drop_app_length.
  - done.
  - intros ->. by rewrite take_app_length in E.
Qed.

Lemma digit_number_char b : within 0x30 0x39 b = true -> number_char b = true.
Proof. intros E. unfold number_char. by rewrite E. Qed.

Lemma skip_simple_value_sound s tail : skip_simple_value s = Ok tail -> exists v, simple v /\ s = v ++ tail.
Proof.
  unfold skip_simple_value. destruct s as [|b s]; [done|].
  repeat (case_bool_decide; [subst|]).
  { intros ([js rest] & [Hb ->]%parse_string_Ok & [= ->])%rbind_Ok. eexists; split; [by econstructor|done]. }
  1-3: intros ->%consume_literal_Ok; eexists; split; [|done]; constructor.
  - cbn [orb]. unfold skip_number. case_match; [done|]. intros [= <-].
    cbn [skip_number_chars]. replace (number_char x2d) with true by done.
    destruct (skip_number_chars_sound s) as (t & Ht & Hs). exists (x2d :: t). split; [constructor; auto|]. cbn [app]. by f_equal.
  - cbn [orb]. destruct (within _ _ b) eqn:E; [|done]. unfold skip_number. case_match; [done|]. intros [= <-].
    cbn [skip_number_chars]. rewrite digit_number_char by done.
    destruct (skip_number_chars_sound s) as (t & Ht & Hs). exists (b :: t). split; [constructor; auto|]. cbn [app]. by f_equal.
Qed.

Lemma within_neq lo hi b c : within lo hi b = true -> within lo hi c = false -> b <> c.
Proof. intros H1 H2 ->. congruence. Qed.

Lemma skip_number_app b t tail :
  number_char b = true -> Forall (fun b => number_char b = true) t -> starts number_char tail = false ->
  skip_number ((b :: t) ++ tail) = Ok tail.
Proof.
  intros Hb Ht Hs. unfold skip_number. rewrite skip_number_chars_app by (done || by constructor).
  rewrite length_app. cbn [length]. case_match eqn:E; [|done]. apply Nat.eqb_eq in E. lia.
Qed.

Lemma skip_simple_value_complete v tail :
  simple v -> starts number_char tail = false -> skip_simple_value (v ++ tail) = Ok tail.
Proof.
  intros Hv Ht. destruct Hv as [e s Hs| | | |b s Hb Hs].
  - unfold skip_simple_value, quoted. cbn [app]. rewrite bool_decide_true by done.
    rewrite (proj2 (parse_string_Ok _ (mk_JsonString s e) tail)); [done|]. by split.
  - cbn -[consume_literal]. by apply (consume_literal_Ok _ (list_byte_of_string "true")).
  - cbn -[consume_literal]. by apply (consume_literal_Ok _ (list_byte_of_string "false")).
  - cbn -[consume_literal]. by apply (consume_literal_Ok _ (list_byte_of_string "null")).
  - unfold skip_simple_value. cbn [app].
    destruct Hb as [->|Hb].
    + rewrite !bool_decide_false by done. cbn [orb]. by apply skip_number_app.
    + rewrite !bool_decide_false by (by eapply within_neq). rewrite Hb. cbn [orb].
      apply skip_number_app; auto using digit_number_char.
Qed.

(** *** Members *)

(** What a member adds to what has been seen; [None] when it is refused. *)
Definition note (expected : bytes) (seen : bool * bool) (m : bytes * bytes) : option (bool * bool) :=
  let '(st, sc) := seen in
  let '(name, value) := m in
  if bool_decide (name = list_byte_of_string "type") then
    if negb st && bool_decide (value = quoted (list_byte_of_string "webauthn.get")) then Some (true, sc) else None
  else if bool_decide (name = list_byte_of_string "challenge") then
    if negb sc && bool_decide (value = quoted expected) then Some (st, true) else None
  else Some (st, sc).

Lemma body_escaped e s : body e s -> e = true <-> x5c ∈ s.
Proof.
  induction 1; rewrite ?elem_of_cons; [set_solver|set_solver|set_solver|set_solver].
Qed.

Lemma quoted_inj s t : quoted s = quoted t -> s = t.
Proof. unfold quoted. intros [= E]. by apply app_inj_tail in E as []. Qed.

Lemma simple_quoted s : simple (quoted s) -> exists e, body e s.
Proof.
  intros E. remember (quoted s) as q eqn:Eq. destruct E as [e t Ht| | | |b t Hb _]; try done.
  - apply quoted_inj in Eq as <-. eauto.
  - injection Eq as -> _. by destruct Hb.
Qed.

Lemma parse_plain s rest value :
  x5c ∉ s -> simple (quoted s) -> value = quoted s -> parse_string (value ++ rest) = Ok (mk_JsonString s false, rest).
Proof.
  intros Hs [e He]%simple_quoted ->. apply parse_string_Ok. split; [|done]. cbn [js_escaped js_bytes].
  destruct e; [|done]. by pose proof (proj1 (body_escaped _ _ He) eq_refl).
Qed.

Lemma parse_accepts (s rest tail : bytes) (js : JsonString) :
  parse_string rest = Ok (js, tail) -> js_escaped js || negb (bool_decide (js_bytes js = s)) = false ->
  simple (quoted s) /\ rest = quoted s ++ tail.
Proof.
  intros [Hb ->]%parse_string_Ok Hs. bool_simpl. subst. split; [by econstructor|done].
Qed.

Section Members.
Context (expected : bytes) (Hplain : x5c ∉ expected).

Lemma member_value_sound key st sc s st' sc' tail :
  body (js_escaped key) (js_bytes key) ->
  member_value expected key st sc s = Ok (st', sc', tail) ->
  exists v, simple v /\ s = v ++ tail /\ note expected (st, sc) (js_bytes key, v) = Some (st', sc').
Proof.
  intros Hk. unfold member_value, field_name, note.
  destruct (js_escaped key) eqn:Ee.
  { assert (x5c ∈ js_bytes key) by (by eapply body_escaped).
    intros (rest & (v & Hv & ->)%skip_simple_value_sound & [= -> -> ->])%rbind_Ok.
    exists v. split_and!; [done..|]. rewrite !bool_decide_false; [done|..]; intros Eq; rewrite Eq in *; set_solver. }
  case_bool_decide as Et; [|case_bool_decide as Ec].
  - destruct st; [done|]. intros ([js rest] & Hp & Hv)%rbind_Ok. case_match eqn:Eb; [done|]. injection Hv as <- <- <-.
    edestruct parse_accepts as [Hq ->]; [done..|]. exists (quoted (list_byte_of_string "webauthn.get")).
    split_and!; [done..|]. by rewrite bool_decide_true.
  - destruct sc; [done|]. intros ([js rest] & Hp & Hv)%rbind_Ok. case_match eqn:Eb; [done|]. injection Hv as <- <- <-.
    edestruct parse_accepts as [Hq ->]; [done..|]. exists (quoted expected).
    split_and!; [done..|]. by rewrite bool_decide_true.
  - intros (rest & (v & Hv & ->)%skip_simple_value_sound & [= -> -> ->])%rbind_Ok. by exists v.
Qed.

Lemma member_value_complete e name st sc v st' sc' tail :
  body e name -> simple v -> starts number_char tail = false ->
  note expected (st, sc) (name, v) = Some (st', sc') ->
  member_value expected (mk_JsonString name e) st sc (v ++ tail) = Ok (st', sc', tail).
Proof.
  intros Hn Hv Ht. unfold member_value, field_name, note. cbn [js_bytes js_escaped].
  pose proof (body_escaped _ _ Hn) as He.
  case_bool_decide as Et; [|case_bool_decide as Ec].
  - destruct e; [exfalso; subst; by pose proof (proj1 He eq_refl); set_solver|].
    destruct st; [done|]. cbn [negb andb]. case_bool_decide as Eq; [|done]. intros [= <- <-].
    rewrite (parse_plain (list_byte_of_string "webauthn.get")); [|set_solver|by subst|done].
    cbn [rbind js_escaped js_bytes orb]. by rewrite bool_decide_true.
  - destruct e; [exfalso; subst; by pose proof (proj1 He eq_refl); set_solver|].
    destruct sc; [done|]. cbn [negb andb]. case_bool_decide as Eq; [|done]. intros [= <- <-].
    rewrite (parse_plain expected); [|done|by subst|done].
    cbn [rbind js_escaped js_bytes orb]. by rewrite bool_decide_true.
  - intros [= <- <-]. rewrite (skip_simple_value_complete v) by done. by destruct e.
Qed.

Definition noted (seen : bool * bool) (m : Member) : option (bool * bool) := note expected seen (m_name m, m_value m).
Fixpoint notes (seen : bool * bool) (ms : list Member) : option (bool * bool) :=
  match ms with [] => Some seen | m :: ms => noted seen m ≫= fun seen => notes seen ms end.

Lemma render_members_cons m ms :
  ms <> [] -> render_members (m :: ms) = render_member m ++ x2c :: render_members ms.
Proof. by destruct ms. Qed.

Lemma members_loop_sound n st sc s st' sc' rest :
  members_loop n expected st sc s = Ok (st', sc', rest) ->
  exists ms, ms <> [] /\ Forall member_ok ms /\ s = render_members ms ++ rest /\ notes (st, sc) ms = Some (st', sc').
Proof.
  revert st sc s. induction n as [|n IH]; intros st sc s; cbn [members_loop]; [done|].
  intros ([key r1] & [Hk Hs1]%parse_string_Ok & (r2 & Hs2%expect_Ok & ([[st1 sc1] r3] & Hv & Hrest)%rbind_Ok)%rbind_Ok)%rbind_Ok.
  apply member_value_sound in Hv as (v & Hv & Hs3 & Hn); [|done].
  destruct (skip_ws_sound s) as (w0 & Hw0 & Hw0s & _), (skip_ws_sound r1) as (w1 & Hw1 & Hw1s & _),
    (skip_ws_sound r2) as (w2 & Hw2 & Hw2s & _), (skip_ws_sound r3) as (w3 & Hw3 & Hw3s & _).
  set (m := mk_Member w0 (js_bytes key) w1 w2 v w3).
  assert (Hm : member_ok m) by (repeat split; cbn; eauto).
  assert (Hn' : noted (st, sc) m = Some (st1, sc1)) by exact Hn.
  assert (Hrm : s = render_member m ++ skip_ws r3).
  { unfold render_member. cbn [m m_before m_name m_after_name m_before_value m_value m_after].
    rewrite Hw0s, Hs1, Hw1s, Hs2, Hw2s, Hs3, Hw3s at 1. by rewrite <- !app_assoc, <- app_comm_cons, <- !app_assoc. }
  destruct (consume_cases (skip_ws r3) x7d) as [(t & Et & Ec)|Ec]; rewrite Ec in Hrest.
  - injection Hrest as -> -> ->. exists [m]. split_and!; [done|by constructor| |cbn [notes]; by rewrite Hn'].
    rewrite Hrm, Et. cbn [render_members]. by rewrite <- app_assoc.
  - apply rbind_Ok in Hrest as (r4 & Hs4%expect_Ok & Hrest). apply IH in Hrest as (ms & Hne & Hms & -> & Hnotes).
    exists (m :: ms). split_and!; [done|by constructor| |].
    + rewrite render_members_cons by done. rewrite <- app_assoc. cbn [app]. by rewrite Hrm, Hs4.
    + cbn [notes]. by rewrite Hn'.
Qed.

Lemma starts_app P w s :
  Forall (fun b => P b = false) w -> starts P s = false -> starts P (w ++ s) = false.
Proof. intros []; done. Qed.
Lemma ws_not_number w : ws w -> Forall (fun b => number_char b = false) w.
Proof.
  intros Hw. eapply Forall_impl; [exact Hw|]. intros b. unfold is_ws. rewrite bool_decide_eq_true. rewrite !elem_of_cons.
  intros [->|[->|[->|[->|Hb]]]]; try done. by apply elem_of_nil in Hb.
Qed.
Lemma digit_not_ws b : within 0x30 0x39 b = true -> is_ws b = false.
Proof. unfold is_ws. intros Hb. apply bool_decide_eq_false. rewrite !elem_of_cons, elem_of_nil. by intros [->|[->|[->|[->|?]]]]. Qed.
Lemma simple_starts v s : simple v -> starts is_ws (v ++ s) = false.
Proof. intros [| | | |b t [->|Hb] _]; try done. cbn [app starts]. by apply digit_not_ws. Qed.

Lemma members_loop_member n st sc m st' sc' c s :
  member_ok m -> noted (st, sc) m = Some (st', sc') -> c = x7d \/ c = x2c ->
  members_loop (S n) expected st sc (render_member m ++ c :: s) =
  if bool_decide (c = x7d) then Ok (st', sc', s) else members_loop n expected st' sc' s.
Proof.
  intros (Hw0 & Hw1 & Hw2 & Hw3 & (e & He) & Hv) Hn Hc. cbn [members_loop].
  destruct m as [w0 name w1 w2 v w3]. unfold noted, render_member in *.
  cbn [m_before m_name m_after_name m_before_value m_value m_after] in *.
  rewrite <- !app_assoc. rewrite (skip_ws_app w0) by done.
  rewrite (proj2 (parse_string_Ok _ (mk_JsonString name e) (w1 ++ x3a :: (w2 ++ v ++ w3 ++ c :: s))))
    by (split; [done|]; by rewrite <- !app_comm_cons, <- !app_assoc).
  cbn [rbind]. rewrite (skip_ws_app w1) by done. rewrite (proj2 (expect_Ok _ x3a (w2 ++ v ++ w3 ++ c :: s))) by done.
  cbn [rbind]. rewrite (skip_ws_app w2) by (done || by apply simple_starts).
  rewrite (member_value_complete e name st sc v st' sc');
    [|done|done|apply starts_app; [by apply ws_not_number|by destruct Hc; subst]|done].
  cbn [rbind]. rewrite (skip_ws_app w3) by (done || by destruct Hc; subst).
  destruct Hc; subst; [by rewrite consume_same, !bool_decide_true|].
  rewrite consume_other by done. rewrite bool_decide_false by done. by rewrite (proj2 (expect_Ok _ x2c s)).
Qed.

Lemma members_loop_complete ms : ms <> [] -> Forall member_ok ms -> forall n st sc st' sc' rest,
  (length ms <= n)%nat -> notes (st, sc) ms = Some (st', sc') ->
  members_loop n expected st sc (render_members ms ++ rest) = Ok (st', sc', rest).
Proof.
  intros Hne Hms. induction Hms as [|m ms Hm Hms IH]; [done|]. intros [|n] st sc st' sc' rest Hl; cbn [length] in Hl; [lia|].
  cbn [notes]. intros ([st1 sc1] & Hn & Hns)%bind_Some.
  destruct (decide (ms = [])) as [->|Hms'].
  - cbn [notes] in Hns. injection Hns as <- <-. cbn [render_members]. rewrite <- app_assoc. cbn [app].
    rewrite (members_loop_member n st sc m st1 sc1) by auto. by rewrite bool_decide_true.
  - rewrite render_members_cons by done. rewrite <- app_assoc. cbn [app].
    rewrite (members_loop_member n st sc m st1 sc1) by auto. rewrite bool_decide_false by done. apply IH; [done|lia|done].
Qed.
End Members.

(** *** The whole document *)

Definition reads (token : bytes) (seen seen' : bool) (values : list bytes) : Prop :=
  values = [] /\ seen' = seen \/ values = [token] /\ seen = false /\ seen' = true.

Lemma values_of_cons name m ms :
  values_of name (m :: ms) =
  if bool_decide (m_name m = list_byte_of_string name) then m_value m :: values_of name ms else values_of name ms.
Proof. unfold values_of. rewrite filter_cons. case_bool_decide; by case_decide. Qed.

Lemma reads_cons token seen seen' v values :
  reads token seen seen' (v :: values) <-> seen = false /\ v = token /\ reads token true seen' values.
Proof. unfold reads. split; [intros [[? _]|([= -> ->] & -> & ->)]; by auto|]. intros (-> & -> & [[-> ->]|(_ & ? & _)]); by auto. Qed.

Lemma notes_values expected ms st sc st' sc' :
  notes expected (st, sc) ms = Some (st', sc') <->
  reads (quoted (list_byte_of_string "webauthn.get")) st st' (values_of "type" ms)
  /\ reads (quoted expected) sc sc' (values_of "challenge" ms).
Proof.
  revert st sc. induction ms as [|m ms IH]; intros st sc.
  { unfold reads. cbn. split; [intros [= -> ->]; by auto|]. by intros [[[_ ->]|[? _]] [[_ ->]|[? _]]]. }
  rewrite !values_of_cons. cbn [notes]. unfold noted, note. set (tok := quoted (list_byte_of_string "webauthn.get")).
  case_bool_decide as Et; [|case_bool_decide as Ec]; rewrite ?reads_cons; [| |apply IH].
  - rewrite (bool_decide_false (m_name m = list_byte_of_string "challenge")) by (rewrite Et; done).
    destruct st; cbn [negb andb]; [by split; [|intros [[] _]]|].
    case_bool_decide as Ev; cbn [mbind option_bind]; [rewrite IH; by intuition|by split; [|intros [(_ & ? & _) _]]].
  - destruct sc; cbn [negb andb]; [by split; [|intros [_ []]]|].
    case_bool_decide as Ev; cbn [mbind option_bind]; [rewrite IH; by intuition|by split; [|intros [_ (_ & ? & _)]]].
Qed.

Definition rebefore (w : bytes) (m : Member) : Member :=
  mk_Member w (m_name m) (m_after_name m) (m_before_value m) (m_value m) (m_after m).

Lemma render_rebefore w m : render_member (rebefore (w ++ m_before m) m) = w ++ render_member m.
Proof. unfold render_member. cbn. by rewrite <- app_assoc. Qed.
Lemma render_members_rebefore w m ms :
  render_members (rebefore (w ++ m_before m) m :: ms) = w ++ render_members (m :: ms).
Proof.
  destruct (decide (ms = [])) as [->|]; [cbn [render_members]; by rewrite render_rebefore, app_assoc|].
  by rewrite !render_members_cons, render_rebefore, app_assoc by done.
Qed.
Lemma render_members_length ms : (length ms <= length (render_members ms))%nat.
Proof.
  induction ms as [|m ms IH]; [done|]. destruct (decide (ms = [])) as [->|].
  - cbn [render_members]. rewrite length_app. cbn [length]. lia.
  - rewrite render_members_cons by done. rewrite length_app. cbn [length]. lia.
Qed.

Lemma validate_sound input expected :
  x5c ∉ expected -> validate input expected = Ok tt -> client_data expected input.
Proof.
  unfold validate. intros Hp (rest & Hs%expect_Ok & Hrest)%rbind_Ok.
  destruct (consume_cases (skip_ws rest) x7d) as [(t & _ & Ec)|Ec]; rewrite Ec in Hrest; [done|].
  apply rbind_Ok in Hrest as ([[st sc] trail] & Hloop & Hend).
  apply (members_loop_sound expected Hp) in Hloop as (ms & Hne & Hms & Hr & Hn).
  case_match eqn:El; [done|]. case_match eqn:Eseen; [done|]. bool_simpl. subst.
  destruct (skip_ws_sound input) as (lead & Hlead & Hi & _), (skip_ws_sound rest) as (w & Hw & Hrest & _),
    (skip_ws_sound trail) as (z & Hz & Htrail & _).
  apply notes_values in Hn as [[[_ ?]|(Ht & _)] [[_ ?]|(Hc & _)]]; [done..|].
  destruct ms as [|m ms]; [done|]. inversion Hms as [|? ? Hm Hms']; subst.
  exists lead, (rebefore (w ++ m_before m) m :: ms), trail.
  split_and!; [done| |done| | |by rewrite values_of_cons in *|by rewrite values_of_cons in *].
  - rewrite Htrail. rewrite (nil_length_inv (skip_ws trail)), app_nil_r; done.
  - constructor; [|done]. destruct Hm as (? & ? & ? & ? & ? & ?). repeat split; try done. cbn. by apply Forall_app.
  - rewrite render_members_rebefore, Hi, Hs. by rewrite Hrest, Hr, <- app_assoc.
Qed.

Lemma validate_complete input expected :
  x5c ∉ expected -> client_data expected input -> validate input expected = Ok tt.
Proof.
  intros Hp (lead & ms & trail & Hlead & Htrail & Hne & Hms & -> & Ht & Hc). unfold validate.
  rewrite (skip_ws_app lead) by done. rewrite (proj2 (expect_Ok _ x7b (render_members ms ++ trail))) by done. cbn [rbind].
  destruct ms as [|m ms]; [done|]. inversion Hms as [|? ? Hm Hms']; subst.
  set (m0 := rebefore [] m).
  assert (Hm0 : rebefore (m_before m ++ m_before m0) m0 = m) by (cbn; rewrite app_nil_r; by destruct m).
  pose proof (render_members_rebefore (m_before m) m0 ms) as Hr. rewrite Hm0 in Hr.
  rewrite Hr, <- app_assoc.
  assert (Hhead : exists s, render_members (m0 :: ms) ++ trail = x22 :: s).
  { destruct ms; cbn [render_members]; unfold render_member; cbn; eauto. }
  destruct Hhead as [s Hs]. rewrite skip_ws_app by (apply Hm || by rewrite Hs). rewrite Hs. rewrite consume_other by done. rewrite <- Hs.
  rewrite (members_loop_complete expected Hp (m0 :: ms)) with (st' := true) (sc' := true).
  - cbn [rbind]. rewrite <- (app_nil_r trail), skip_ws_app by done. done.
  - done.
  - constructor; [|done]. destruct Hm as (? & ? & ? & ? & ? & ?). repeat split; try done. constructor.
  - pose proof (render_members_length (m0 :: ms)). rewrite length_app. lia.
  - apply notes_values. split; right; rewrite values_of_cons in *; by split.
Qed.

(** *** The challenge *)

Lemma BASE64URL_inj i j : i < 64 -> j < 64 ->
  List.nth (N.to_nat i) BASE64URL x00 = List.nth (N.to_nat j) BASE64URL x00 -> i = j.
Proof.
  intros Hi Hj E. apply N2Nat.inj. eapply (proj1 (NoDup_nth BASE64URL x00)); [|cbn; lia..|exact E].
  apply NoDup_ListNoDup, (bool_decide_unpack (NoDup BASE64URL)). by vm_compute.
Qed.

Lemma symbol_plain bits : symbol bits <> x5c.
Proof.
  unfold symbol. intros E. assert (Hin : x5c ∈ x00 :: BASE64URL).
  { rewrite <- E. destruct (List.nth_in_or_default (N.to_nat (N.land bits 63)) BASE64URL x00) as [Hn| ->]; [|left].
    right. by apply list_elem_of_In. }
  by apply (bool_decide_eq_true (x5c ∈ x00 :: BASE64URL)) in Hin.
Qed.

Lemma symbol_inj x y : symbol x = symbol y -> x mod 64 = y mod 64.
Proof.
  unfold symbol. change 0x3f with (N.ones 6). rewrite !N.land_ones. change (2 ^ 6) with 64.
  intros E. apply BASE64URL_inj in E; [done|by apply N.mod_lt..].
Qed.

Lemma lor_bytes a b c : a < 256 -> b < 256 -> c < 256 ->
  N.lor (N.lor (N.shiftl a 16) (N.shiftl b 8)) c = (a * 256 + b) * 256 + c.
Proof.
  intros Ha Hb Hc. change 16 with (8 + 8). rewrite <- N.shiftl_shiftl, <- N.shiftl_lor, (N.lor_comm _ c), (N.lor_comm _ b).
  rewrite !lor_above by (change (2 ^ 8) with 256; done). change (2 ^ 8) with 256. lia.
Qed.

Lemma byte_inj a b : Byte.to_N a = Byte.to_N b -> a = b.
Proof. intros E. by rewrite <- (byte_of_to_N a), E, byte_of_to_N. Qed.

Lemma digits_inj k x y : k <> 0 -> x mod k = y mod k -> x / k = y / k -> x = y.
Proof. intros Hk E1 E2. by rewrite (N.div_mod x k), (N.div_mod y k), E1, E2 by done. Qed.

Lemma sextets_inj x y : x < 2 ^ 24 -> y < 2 ^ 24 ->
  symbol (N.shiftr x 18) = symbol (N.shiftr y 18) -> symbol (N.shiftr x 12) = symbol (N.shiftr y 12) ->
  symbol (N.shiftr x 6) = symbol (N.shiftr y 6) -> x mod 64 = y mod 64 -> x = y.
Proof.
  intros Hx Hy E1%symbol_inj E2%symbol_inj E3%symbol_inj E4.
  rewrite !N.shiftr_div_pow2 in *.
  change (2 ^ 18) with (64 * (64 * 64)) in *. change (2 ^ 12) with (64 * 64) in *. change (2 ^ 6) with 64 in *.
  rewrite <- !N.Div0.div_div in *.
  assert (Hs : forall z, z < 2 ^ 24 -> (z / 64 / 64 / 64) mod 64 = z / 64 / 64 / 64).
  { intros z Hz. apply N.mod_small. repeat (apply N.Div0.div_lt_upper_bound). done. }
  rewrite !Hs in E1 by done. by repeat (apply (digits_inj 64); [done..|]).
Qed.

Lemma bytes_inj a b c a' b' c' : a < 256 -> b < 256 -> c < 256 -> a' < 256 -> b' < 256 -> c' < 256 ->
  (a * 256 + b) * 256 + c = (a' * 256 + b') * 256 + c' -> a = a' /\ b = b' /\ c = c'.
Proof. lia. Qed.

Lemma to_N_bound b : Byte.to_N b < 256.
Proof. pose proof (Byte.to_N_bounded b). lia. Qed.

Lemma bits_inj a b c a' b' c' x y :
  x = N.lor (N.lor (N.shiftl (Byte.to_N a) 16) (N.shiftl (Byte.to_N b) 8)) c ->
  y = N.lor (N.lor (N.shiftl (Byte.to_N a') 16) (N.shiftl (Byte.to_N b') 8)) c' ->
  c < 256 -> c' < 256 -> symbol (N.shiftr x 18) = symbol (N.shiftr y 18) ->
  symbol (N.shiftr x 12) = symbol (N.shiftr y 12) -> symbol (N.shiftr x 6) = symbol (N.shiftr y 6) ->
  c = 0 /\ c' = 0 \/ symbol x = symbol y -> a = a' /\ b = b' /\ c = c'.
Proof.
  intros Hx Hy Hc Hc' E1 E2 E3 E4.
  pose proof (to_N_bound a). pose proof (to_N_bound b). pose proof (to_N_bound a'). pose proof (to_N_bound b').
  rewrite lor_bytes in Hx, Hy by done.
  assert (E : x = y).
  { apply sextets_inj; [change (2 ^ 24) with 16777216; lia..|done|done|done|].
    destruct E4 as [[-> ->]|E4]; [|by apply symbol_inj].
    change 256 with (4 * 64) in Hx, Hy. rewrite Hx, Hy, !N.add_0_r, !N.mul_assoc. by rewrite !N.Div0.mod_mul. }
  rewrite Hx, Hy in E. apply bytes_inj in E as (?%byte_inj & ?%byte_inj & ?); done.
Qed.

Lemma encode_challenge_inj n : forall c c', length c = (3 * n + 2)%nat -> length c' = (3 * n + 2)%nat ->
  encode_challenge c = encode_challenge c' -> c = c'.
Proof.
  induction n as [|n IH]; intros c c' Hn Hn' E.
  - destruct c as [|a [|b [|]]]; try (cbn in Hn; lia). destruct c' as [|a' [|b' [|]]]; try (cbn in Hn'; lia).
    cbn [encode_challenge] in E. injection E as E1 E2 E3.
    destruct (bits_inj a b 0 a' b' 0 _ _ (eq_sym (N.lor_0_r _)) (eq_sym (N.lor_0_r _))) as (-> & -> & _); auto; lia.
  - destruct c as [|a [|b [|x c]]]; try (cbn in Hn; lia). destruct c' as [|a' [|b' [|x' c']]]; try (cbn in Hn'; lia).
    cbn [encode_challenge] in E. injection E as E1 E2 E3 E4 E5.
    destruct (bits_inj a b (Byte.to_N x) a' b' (Byte.to_N x') _ _ eq_refl eq_refl) as (-> & -> & ->%byte_inj); auto using to_N_bound.
    f_equal. f_equal. f_equal. apply IH; [cbn in Hn; lia|cbn in Hn'; lia|done].
Qed.

Lemma encode_challenge_plain n : forall c, (length c <= n)%nat -> x5c ∉ encode_challenge c.
Proof.
  induction n as [|n IH]; intros [|a [|b [|x c]]] Hl; cbn [encode_challenge length] in *; try lia; rewrite ?not_elem_of_cons;
    repeat split; try apply not_elem_of_nil; try (symmetry; apply symbol_plain). apply IH. lia.
Qed.

(** One document carries one challenge. *)
Lemma member_value_unique e1 e2 key st sc s r1 r2 :
  member_value e1 key st sc s = Ok r1 -> member_value e2 key st sc s = Ok r2 ->
  e1 = e2 \/ r1 = r2 /\ r1.1.2 = sc.
Proof.
  unfold member_value. destruct (field_name key); intros H1 H2.
  - inv_ok. right. split; [congruence|by subst].
  - destruct sc; [done|]. destruct (parse_string s) as [[js t]|]; [|done]. cbn [rbind] in *.
    destruct (_ || _) eqn:E1 in H1; [done|]. destruct (_ || _) eqn:E2 in H2; [done|]. bool_simpl. left. congruence.
  - inv_ok. right. split; [congruence|by subst].
Qed.

Lemma members_loop_unique e1 e2 n st s st1 st2 r1 r2 :
  members_loop n e1 st false s = Ok (st1, true, r1) -> members_loop n e2 st false s = Ok (st2, true, r2) -> e1 = e2.
Proof.
  revert st s. induction n as [|n IH]; intros st s; cbn [members_loop]; [done|].
  intros ([key t1] & Hk & (t2 & Hc & ([[st1' sc1] t3] & Hv1 & H1)%rbind_Ok)%rbind_Ok)%rbind_Ok. rewrite Hk. cbn [rbind].
  rewrite Hc. cbn [rbind]. intros ([[st2' sc2] t4] & Hv2 & H2)%rbind_Ok.
  destruct (member_value_unique _ _ _ _ _ _ _ _ Hv1 Hv2) as [?|[[= <- <- <-] Hsc]]; [done|]. cbn in Hsc. subst.
  destruct (consume _ _) as [[] t]; [by injection H1|].
  apply rbind_Ok in H1 as (t' & He & H1). rewrite He in H2. cbn [rbind] in H2. eauto.
Qed.

Lemma validate_unique e1 e2 input : validate input e1 = Ok tt -> validate input e2 = Ok tt -> e1 = e2.
Proof.
  unfold validate. intros (rest & He & H1)%rbind_Ok. rewrite He. cbn [rbind].
  destruct (consume _ _) as [[] t]; [done|]. apply rbind_Ok in H1 as ([[st1 sc1] r1] & H1 & E1).
  intros ([[st2 sc2] r2] & H2 & E2)%rbind_Ok.
  destruct sc1; [|by destruct st1; repeat case_match]. destruct sc2; [|by destruct st2; repeat case_match].
  by eapply members_loop_unique.
Qed.

(** *** Low [s] *)

Lemma from_be_bytes_cons b bs :
  from_be_bytes (b :: bs) = Byte.to_N b * 256 ^ N.of_nat (length bs) + from_be_bytes bs.
Proof.
  revert b. induction bs as [|c bs IH] using rev_ind; intros b; [cbn; lia|].
  rewrite app_comm_cons, !from_be_bytes_snoc, IH, length_app. cbn [length].
  rewrite Nat.add_1_r, Nat2N.inj_succ, N.pow_succ_r'. lia.
Qed.

Lemma bytes_leb_le a b : length a = length b -> bytes_leb a b = true <-> from_be_bytes a <= from_be_bytes b.
Proof.
  revert b. induction a as [|x a IH]; intros [|y b] Hl; try done. injection Hl as Hl.
  cbn [bytes_leb]. rewrite !from_be_bytes_cons, <- Hl, orb_true_iff, andb_true_iff, N.ltb_lt, N.eqb_eq, (IH b Hl).
  pose proof (from_be_bytes_bound a). pose proof (from_be_bytes_bound b). rewrite <- Hl in *.
  generalize dependent (256 ^ N.of_nat (length a)). intros k. nia.
Qed.

(** Half the order of the P-256 group. *)
Definition P256_ORDER : N := 0xffffffff00000000ffffffffffffffffbce6faada7179e84f3b9cac2fc632551.
Lemma P256_N_HALF_value : from_be_bytes P256_N_HALF = P256_ORDER / 2.
Proof. by vm_compute. Qed.

(** *** Flags *)

Lemma bit_clear n i : (N.land n (2 ^ i) =? 0) = negb (N.testbit n i).
Proof.
  destruct (N.testbit n i) eqn:E; cbn [negb].
  - apply N.eqb_neq. intros Hz. pose proof (N.land_spec n (2 ^ i) i) as Hs. by rewrite Hz, E, N.pow2_bits_true in Hs.
  - apply N.eqb_eq. apply N.bits_inj_0. intros j. rewrite N.land_spec, N.pow2_bits_eqb.
    destruct (N.eqb_spec i j); [subst; by rewrite E|apply andb_false_r].
Qed.
Lemma land_lor_zero n a b : (N.land n (N.lor a b) =? 0) = (N.land n a =? 0) && (N.land n b =? 0).
Proof.
  rewrite N.land_lor_distr_r. apply eq_true_iff_eq. rewrite andb_true_iff, !N.eqb_eq. apply N.lor_eq_0_iff.
Qed.

Section Policy.
Context `{P256}.

(** C28: an assertion is accepted exactly when the authenticator data has 37 bytes,
    its flags have user presence (bit 0) or user verification (bit 2) and neither
    attested data (bit 6) nor extensions (bit 7), the client data is at most 2011
    bytes and is a flat JSON object with one literal [type] member
    [webauthn.get] and one literal [challenge] member, the base64url of the
    challenge, beside any number of simple members, [s] is at most half the group
    order, and the curve accepts the signature of the two data fields. *)
Theorem verify_policy (a : Assertion) (key challenge : bytes) :
  length (a_signature a) = 64%nat ->
  verify a key challenge = Ok tt <->
  length (a_authenticator_data a) = 37%nat
  /\ (length (a_client_data_json a) <= 2011)%nat
  /\ (exists f, a_authenticator_data a !! 32%nat = Some f
        /\ (N.testbit (Byte.to_N f) 0 = true \/ N.testbit (Byte.to_N f) 2 = true)
        /\ N.testbit (Byte.to_N f) 6 = false /\ N.testbit (Byte.to_N f) 7 = false)
  /\ client_data (encode_challenge challenge) (a_client_data_json a)
  /\ from_be_bytes (drop 32 (a_signature a)) <= P256_ORDER / 2
  /\ signature_from_slice (a_signature a) = true
  /\ verify_prehash key (sha256 (a_authenticator_data a ++ sha256 (a_client_data_json a))) (a_signature a) = true.
Proof.
  intros Hsig. pose proof (encode_challenge_plain _ challenge (Nat.le_refl _)) as Hplain.
  assert (Hs : bytes_leb (drop P256_COORDINATE_LENGTH (a_signature a)) P256_N_HALF = true
               <-> from_be_bytes (drop 32 (a_signature a)) <= P256_ORDER / 2).
  { rewrite <- P256_N_HALF_value. apply bytes_leb_le. rewrite length_drop, Hsig. done. }
  unfold verify, signed_digest. change FLAG_UP with (2 ^ 0). change FLAG_UV with (2 ^ 2). change FLAG_AT with (2 ^ 6).
  change FLAG_ED with (2 ^ 7).
  split.
  - intros Hv. inv_ok. rewrite land_lor_zero, !bit_clear in *. bool_simpl.
    match goal with H : validate _ _ = Ok ?u |- _ => destruct u; apply validate_sound in H; [|done] end.
    change MAX_CLIENT_DATA_JSON_LEN with 2011%nat in *. change AUTHENTICATOR_DATA_LEN with 37%nat in *.
    split_and!; try done; try (by apply Hs); try lia. eexists. split_and!; try done.
    destruct (N.testbit (Byte.to_N v) 0); [by left|right]. by destruct (N.testbit (Byte.to_N v) 2).
  - intros (H37 & Hlen & (f & Hf & Hup & Hat & Hed) & Hcd & Hlow & Hsl & Hp).
    change MAX_CLIENT_DATA_JSON_LEN with 2011%nat. change FLAGS_OFFSET with 32%nat.
    rewrite H37, (proj2 (Nat.ltb_ge _ _) Hlen), Hf. cbn [ok_or rbind negb]. rewrite Nat.eqb_refl. cbn [negb].
    rewrite land_lor_zero, !bit_clear, Hat, Hed, (proj2 Hs Hlow), Hsl, Hp, (validate_complete _ _ Hplain Hcd).
    by destruct Hup as [-> | ->]; rewrite ?andb_false_r.
Qed.

Lemma verify_validates a key challenge :
  verify a key challenge = Ok tt -> validate (a_client_data_json a) (encode_challenge challenge) = Ok tt.
Proof. unfold verify. intros. inv_ok. by match goal with H : validate _ _ = Ok ?u |- _ => destruct u end. Qed.

(** C26: an assertion the kernel accepts authorizes one payload hash by one key: the
    same assertion is accepted neither for another payload nor for another key, so
    an authorization cannot be moved to a different transaction or party. *)
Theorem webauthn_assertion_binds (a : WebAuthnAssertion) (key key' : Key) (hash hash' : PayloadHash) :
  length (PayloadHash_bytes hash) = 32%nat -> length (PayloadHash_bytes hash') = 32%nat ->
  verify_webauthn_assertion a key hash = Ok tt -> verify_webauthn_assertion a key' hash' = Ok tt ->
  key = key' /\ hash = hash'.
Proof.
  unfold verify_webauthn_assertion. intros Hl Hl' H1 H2. inv_ok. bool_simpl. destruct_and?. simplify_eq.
  repeat match goal with H : verify _ _ _ = Ok _ |- _ => apply verify_validates in H end. simplify_eq/=. split; [done|].
  assert (He : encode_challenge (PayloadHash_bytes hash) = encode_challenge (PayloadHash_bytes hash')) by (by eapply validate_unique).
  apply (encode_challenge_inj 10) in He; [|done..]. destruct hash, hash'. cbn in He. congruence.
Qed.
End Policy.

(** ** A concrete assertion *)

Definition any_curve : P256 :=
  {| from_sec1 := Some; compress := fun x y => Some (x02 :: x); signature_from_slice := fun _ => true;
     verify_prehash := fun _ _ _ => true; sha256 := take 32 |}.

Definition plain_member (name value : bytes) : Member := mk_Member [] name [] [] value [].
Definition sample_json (challenge : bytes) : bytes :=
  x7b :: render_members
    [plain_member (list_byte_of_string "type") (quoted (list_byte_of_string "webauthn.get"));
     plain_member (list_byte_of_string "challenge") (quoted (encode_challenge challenge));
     mk_Member [x20] (list_byte_of_string "count") [] [x20] (list_byte_of_string "-1.5e3") [x0a]] ++ [x20].
Definition sample_data : bytes := repeat x00 32 ++ x05 :: repeat x00 4.
Definition sample_assertion (challenge : bytes) : Assertion :=
  mk_Assertion (repeat x01 64) sample_data (sample_json challenge).
Definition sample_envelope (challenge : bytes) : WebAuthnAssertion :=
  WebAuthnAssertion_new (repeat x01 32) (repeat x01 32) (repeat x07 32) (repeat x08 32)
    (map Byte.to_N (sample_data ++ sample_json challenge)).

Lemma verify_policy_witness :
  length (a_signature (sample_assertion (repeat xff 32))) = 64%nat
  /\ client_data (encode_challenge (repeat xff 32)) (sample_json (repeat xff 32)).
Proof.
  split; [reflexivity|].
  apply (proj1 (@verify_policy any_curve (sample_assertion (repeat xff 32)) [x02] (repeat xff 32) eq_refl)).
  vm_compute. reflexivity.
Defined.

Lemma webauthn_assertion_binds_witness :
  let key := Key_from_bytes (x02 :: repeat x07 32) in
  let hash := PayloadHash_from_bytes (repeat xff 32) in
  @verify_webauthn_assertion any_curve (sample_envelope (repeat xff 32)) key hash = Ok tt /\ (key = key /\ hash = hash).
Proof.
  cbv zeta. split; [vm_compute; reflexivity|].
  apply (@webauthn_assertion_binds any_curve (sample_envelope (repeat xff 32))); (reflexivity || (vm_compute; reflexivity)).
Defined.
