(* ===== verification/Grants.v ===== *)
(** * Node authority: grants, credentials, sessions (crates/auth/src/authority)

    The pure authority of a node: grants with their delegation lineages, the
    credentials that carry them, sessions, administration records, ownership
    recovery and snapshots.  Ordered maps and sets are [gmap] and [gset]; where
    the order of a walk decides a result the keys are sorted.  An operation that
    takes [&mut self] returns the state it leaves.  The P-256 curve under the
    WebAuthn verifier is its parameter, the secp256k1 signature check of a node
    key is the class [NodeSignatures]; random bytes are arguments. *)

From stdpp Require Import strings sorting.
From S2P Require Import Prelude Xet XetChunk Webauthn.

#[local] Open Scope N_scope.

(** ** Identifiers *)

(* [crates/auth/src/authority/types.rs:12-12] PrincipalId *)
Record PrincipalId := mk_PrincipalId { principal_bytes : bytes }.
(* [crates/auth/src/authority/types.rs:74-74] NodeKey *)
Record NodeKey := mk_NodeKey { node_key_bytes : bytes }.
(* [crates/auth/src/authority/types.rs:108-108] AuthorityId *)
Record AuthorityId := mk_AuthorityId { authority_digest : bytes }.
(* [crates/auth/src/authority/types.rs:121-121] ResourceId *)
Record ResourceId := mk_ResourceId { resource_digest : bytes }.
(* [crates/auth/src/authority/types.rs:124-124] GrantId *)
Record GrantId := mk_GrantId { grant_bytes : bytes }.
(* [crates/auth/src/authority/credentials.rs:10-10] CredentialId *)
Record CredentialId := mk_CredentialId { credential_bytes : bytes }.
(* [crates/auth/src/authority/types.rs:157-157] OperationId *)
Record OperationId := mk_OperationId { operation_name : string }.

#[export] Instance PrincipalId_eq_dec : EqDecision PrincipalId.
Proof. solve_decision. Defined.
#[export] Instance NodeKey_eq_dec : EqDecision NodeKey.
Proof. solve_decision. Defined.
#[export] Instance AuthorityId_eq_dec : EqDecision AuthorityId.
Proof. solve_decision. Defined.
#[export] Instance ResourceId_eq_dec : EqDecision ResourceId.
Proof. solve_decision. Defined.
#[export] Instance GrantId_eq_dec : EqDecision GrantId.
Proof. solve_decision. Defined.
#[export] Instance CredentialId_eq_dec : EqDecision CredentialId.
Proof. solve_decision. Defined.
#[export] Instance OperationId_eq_dec : EqDecision OperationId.
Proof. solve_decision. Defined.
#[export] Instance ResourceId_countable : Countable ResourceId.
Proof. by refine (inj_countable' resource_digest mk_ResourceId _); intros []. Defined.
#[export] Instance GrantId_countable : Countable GrantId.
Proof. by refine (inj_countable' grant_bytes mk_GrantId _); intros []. Defined.
#[export] Instance CredentialId_countable : Countable CredentialId.
Proof. by refine (inj_countable' credential_bytes mk_CredentialId _); intros []. Defined.
#[export] Instance OperationId_countable : Countable OperationId.
Proof. by refine (inj_countable' operation_name mk_OperationId _); intros []. Defined.

Definition entry_le {K V} (key : K -> bytes) (a b : K * V) : Prop := Webauthn.bytes_leb (key a.1) (key b.1) = true.
#[export] Instance entry_le_dec {K V} (key : K -> bytes) (a b : K * V) : Decision (entry_le key a b).
Proof. unfold entry_le. apply _. Defined.
Definition bytes_le (a b : bytes) : Prop := Webauthn.bytes_leb a b = true.
#[export] Instance bytes_le_dec a b : Decision (bytes_le a b).
Proof. unfold bytes_le. apply _. Defined.
(** A map in the order of its keys. *)
Definition in_order {K V} `{Countable K} (key : K -> bytes) (m : gmap K V) : list (K * V) :=
  merge_sort (entry_le key) (map_to_list m).

(** ** Constants and errors *)

Open Scope string_scope.
(* [crates/auth/src/authority.rs:34-34] GRANT_ISSUE *)
Definition GRANT_ISSUE : string := "grant.issue".
(* [crates/auth/src/authority.rs:35-35] GRANT_REVOKE *)
Definition GRANT_REVOKE : string := "grant.revoke".
(* [crates/auth/src/authority.rs:36-36] GRANT_ADMINISTER *)
Definition GRANT_ADMINISTER : string := "grant.administer".
(* [crates/auth/src/authority.rs:37-37] CREDENTIAL_ISSUE *)
Definition CREDENTIAL_ISSUE : string := "credential.issue".
(* [crates/auth/src/authority.rs:38-38] CREDENTIAL_REVOKE *)
Definition CREDENTIAL_REVOKE : string := "credential.revoke".
(* [crates/auth/src/authority.rs:40-40] GATEWAY_INVOKE *)
Definition GATEWAY_INVOKE : string := "gateway.invoke".
Close Scope string_scope.
(* [crates/auth/src/authority.rs:41-41] MAX_CREDENTIALS *)
Definition MAX_CREDENTIALS : N := 256.
(* [crates/auth/src/authority.rs:42-42] MAX_DELEGATION_DEPTH *)
Definition MAX_DELEGATION_DEPTH : N := 8.
(* [crates/auth/src/authority.rs:44-44] MAX_DELEGATIONS *)
Definition MAX_DELEGATIONS : N := 32.
(* [crates/auth/src/authority.rs:45-45] MAX_GRANTS *)
Definition MAX_GRANTS : N := 256.
(* [crates/auth/src/authority.rs:46-46] MAX_PERMISSIONS *)
Definition MAX_PERMISSIONS : N := 128.

(* [crates/auth/src/authority.rs:49-76] AuthorityError *)
Inductive AuthorityError :=
  | Invalid | Audience | Denied | Missing | Revoked | Expired | StaleRevision | Duplicate
  | Capacity | Clock | CredentialFailed | StepUp | Entropy.

(* [crates/auth/src/authority/types.rs:127-127] Revision *)
Definition Revision : Type := N.
(* [crates/auth/src/authority/types.rs:143-143] UnixMillis *)
Definition UnixMillis : Type := N.

(* [crates/auth/src/authority/types.rs:130-132] Revision::next *)
Definition Revision_next (self : Revision) : option Revision := checked_add self 1.

(** ** Scopes *)

(* [crates/auth/src/authority/types.rs:187-190] Permission *)
Record Permission := mk_Permission { operation : OperationId; resource : ResourceId }.

#[export] Instance Permission_eq_dec : EqDecision Permission.
Proof. solve_decision. Defined.
#[export] Instance Permission_countable : Countable Permission.
Proof.
  by refine (inj_countable' (fun p => (operation p, resource p)) (fun '(o, r) => mk_Permission o r) _); intros [].
Defined.

(* [crates/auth/src/authority/types.rs:195-198] CeilingResources *)
Inductive CeilingResources := Named (ids : gset ResourceId) | WholeAuthority.

(* [crates/auth/src/authority/types.rs:201-206] CeilingResources::contains *)
Definition resources_contains (self : CeilingResources) (r : ResourceId) : bool :=
  match self with Named ids => bool_decide (r ∈ ids) | WholeAuthority => true end.

(* [crates/auth/src/authority/types.rs:208-214] CeilingResources::subset *)
Definition resources_subset (self parent : CeilingResources) : bool :=
  match self, parent with
  | _, WholeAuthority => true
  | Named ids, Named outer => bool_decide (ids ⊆ outer)
  | _, _ => false
  end.

(* [crates/auth/src/authority/types.rs:221-227] IssuanceCeiling *)
Record IssuanceCeiling := mk_IssuanceCeiling {
  operations : gset OperationId;
  resources : CeilingResources;
  max_validity_ms : N;
  max_delegation_depth : N;
}.

(* [crates/auth/src/authority/types.rs:230-239] IssuanceCeiling::validate *)
Definition ceiling_validate (self : IssuanceCeiling) : bool :=
  negb (size (operations self) =? 0)%nat && (N.of_nat (size (operations self)) <=? MAX_PERMISSIONS)
  && (0 <? max_validity_ms self) && (max_delegation_depth self <=? MAX_DELEGATION_DEPTH)
  && match resources self with
     | Named ids => negb (size ids =? 0)%nat && (N.of_nat (size ids) <=? MAX_PERMISSIONS)
     | WholeAuthority => true
     end.

(* [crates/auth/src/authority/types.rs:241-246] IssuanceCeiling::subset *)
Definition ceiling_subset (self outer : IssuanceCeiling) : bool :=
  bool_decide (operations self ⊆ operations outer) && resources_subset (resources self) (resources outer)
  && (max_validity_ms self <=? max_validity_ms outer) && (max_delegation_depth self <=? max_delegation_depth outer).

(* [crates/auth/src/authority/types.rs:271-280] GrantSpec *)
Record GrantSpec := mk_GrantSpec {
  spec_authority : AuthorityId;
  subject : PrincipalId;
  permissions : gset Permission;
  not_before : UnixMillis;
  expires : UnixMillis;
  delegation_depth : N;
  issuance : option IssuanceCeiling;
}.

Definition none_or {A} (o : option A) (f : A -> bool) : bool := match o with None => true | Some a => f a end.
Definition some_and {A} (o : option A) (f : A -> bool) : bool := match o with None => false | Some a => f a end.

(** A set predicate over every element. *)
Definition all_of `{Countable A} (s : gset A) (f : A -> bool) : bool := forallb f (elements s).
Definition any_of `{Countable A} (s : gset A) (f : A -> bool) : bool := existsb f (elements s).

(* [crates/auth/src/authority/types.rs:248-256] IssuanceCeiling::covers_scope *)
Definition covers_scope (self : IssuanceCeiling) (spec : GrantSpec) : bool :=
  all_of (permissions spec) (fun p =>
    bool_decide (operation p ∈ operations self) && resources_contains (resources self) (resource p))
  && none_or (issuance spec) (fun ceiling => ceiling_subset ceiling self).

(* [crates/auth/src/authority/types.rs:258-266] IssuanceCeiling::covers *)
Definition covers (self : IssuanceCeiling) (spec : GrantSpec) (now : UnixMillis) : bool :=
  covers_scope self spec && (delegation_depth spec <=? max_delegation_depth self)
  && some_and (checked_sub (expires spec) now) (fun ms => (0 <? ms) && (ms <=? max_validity_ms self)).

(* [crates/auth/src/authority/types.rs:283-289] GrantSpec::validate *)
Definition spec_validate (self : GrantSpec) : bool :=
  negb (size (permissions self) =? 0)%nat && (N.of_nat (size (permissions self)) <=? MAX_PERMISSIONS)
  && (not_before self <? expires self) && (delegation_depth self <=? MAX_DELEGATION_DEPTH)
  && none_or (issuance self) ceiling_validate.

(* [crates/auth/src/authority/types.rs:291-295] GrantSpec::has *)
Definition has (self : GrantSpec) (op : string) (r : ResourceId) : bool :=
  any_of (permissions self) (fun p => bool_decide (operation_name (operation p) = op) && bool_decide (resource p = r)).

(* [crates/auth/src/authority/types.rs:297-309] GrantSpec::administrative *)
Definition administrative (self : GrantSpec) : bool :=
  some_and (issuance self) (fun _ => true)
  || any_of (permissions self) (fun p =>
       bool_decide (operation_name (operation p) ∈
         [GRANT_ISSUE; GRANT_REVOKE; GRANT_ADMINISTER; CREDENTIAL_ISSUE; CREDENTIAL_REVOKE])).

(* [crates/auth/src/authority/types.rs:311-321] GrantSpec::narrows *)
Definition narrows (self parent : GrantSpec) : bool :=
  bool_decide (spec_authority self = spec_authority parent)
  && bool_decide (permissions self ⊆ permissions parent)
  && (not_before parent <=? not_before self) && (expires self <=? expires parent)
  && (delegation_depth self <? delegation_depth parent)
  && none_or (issuance self) (fun child => some_and (issuance parent) (fun p => ceiling_subset child p)).

(** ** Grants and credentials *)

(* [crates/auth/src/authority/types.rs:325-328] GrantOrigin *)
Inductive GrantOrigin := FromNode (issuer : PrincipalId) | Delegated (parent : GrantId).

#[export] Instance GrantOrigin_eq_dec : EqDecision GrantOrigin.
Proof. solve_decision. Defined.

(* [crates/auth/src/authority/types.rs:332-338] Grant *)
Record Grant := mk_Grant {
  grant_id : GrantId;
  grant_revision : Revision;
  spec : GrantSpec;
  origin : GrantOrigin;
  grant_revoked : bool;
}.

(* [crates/auth/src/authority/types.rs:362-384] GrantCommand *)
Inductive GrantCommand :=
  | Issue (authorization id : GrantId) (spec : GrantSpec)
  | Delegate (parent id : GrantId) (spec : GrantSpec)
  | Revise (authorization id : GrantId) (expected : Revision) (spec : GrantSpec)
  | Revoke (authorization id : GrantId) (expected : Revision).

(* [crates/auth/src/authority/credentials.rs:57-64] CredentialHolder *)
Inductive CredentialHolder := HolderNode (key : NodeKey) | HolderBearer.

#[export] Instance CredentialHolder_eq_dec : EqDecision CredentialHolder.
Proof. solve_decision. Defined.

(* [crates/auth/src/authority/credentials.rs:68-75] SessionKind *)
Inductive SessionKind := PasskeySession | DailySession | BearerSession.

#[export] Instance SessionKind_eq_dec : EqDecision SessionKind.
Proof. solve_decision. Defined.

(* [crates/auth/src/authority/credentials.rs:79-84] SessionKind::step_up *)
Definition SessionKind_step_up (self : SessionKind) : result unit AuthorityError :=
  match self with PasskeySession => Ok tt | DailySession | BearerSession => Err StepUp end.

(* [crates/auth/src/authority/credentials.rs:92-100] Credential *)
Record Credential := mk_Credential {
  credential_id : CredentialId;
  scope : GrantSpec;
  holder : CredentialHolder;
  credential_generation : N;
  credential_revision : Revision;
  verifier : bytes;
  credential_revoked : bool;
}.

(* [crates/auth/src/authority/credentials.rs:148-150] Credential::bearer *)
Definition bearer (self : Credential) : bool :=
  match holder self with HolderBearer => true | HolderNode _ => false end.

(* [crates/auth/src/authority/credentials.rs:156-169] CredentialHolder::admits *)
Definition admits (self : CredentialHolder) (scope : GrantSpec) : bool :=
  match self with
  | HolderNode _ => true
  | HolderBearer =>
      negb (some_and (issuance scope) (fun _ => true)) && (delegation_depth scope =? 0)
      && (size (permissions scope) =? 1)%nat
      && all_of (permissions scope) (fun p => bool_decide (operation_name (operation p) = GATEWAY_INVOKE))
  end.

(* [crates/auth/src/authority/credentials.rs:189-199] CredentialCommand *)
Inductive CredentialCommand :=
  | IssueCredential (authorization : GrantId) (credential : Credential)
  | RevokeCredential (authorization : GrantId) (id : CredentialId) (expected : Revision).

(* [crates/auth/src/authority/credentials.rs:204-215] AuthenticatedCaller *)
Record AuthenticatedCaller := mk_AuthenticatedCaller {
  caller_authority : AuthorityId;
  caller_subject : PrincipalId;
  caller_credential : CredentialId;
  caller_holder : CredentialHolder;
  caller_session : SessionKind;
  caller_revision : Revision;
  caller_generation : N;
  authenticated_at : UnixMillis;
  caller_expires : UnixMillis;
  caller_proof : bytes;
}.

(* [crates/auth/src/authority/passkey.rs:9-13] PasskeyAssertion *)
Record PasskeyAssertion := mk_PasskeyAssertion {
  assertion_signature : bytes;
  authenticator_data : bytes;
  client_data_json : bytes;
}.

(* [crates/auth/src/authority/types.rs:392-398] RecoveryCommand *)
Record RecoveryCommand := mk_RecoveryCommand {
  recovery_credential : Credential;
  recovery_expected : Revision;
  recovery_administrator : GrantSpec;
  recovery_revoke : gset GrantId;
  recovery_owner : PasskeyAssertion;
}.

(* [crates/auth/src/authority/types.rs:404-411] RecoveryRecord *)
Record RecoveryRecord := mk_RecoveryRecord {
  record_generation : N;
  record_revision : Revision;
  record_at : UnixMillis;
  previous_administrator : PrincipalId;
  record_administrator : PrincipalId;
  record_revoked : gset GrantId;
}.

(* [crates/auth/src/authority/state.rs:9-18] AuthorityState *)
Record AuthorityState := mk_AuthorityState {
  authority : AuthorityId;
  revision : Revision;
  state_now : UnixMillis;
  root_grant : GrantId;
  generation : N;
  last_recovery : option RecoveryRecord;
  grants : gmap GrantId Grant;
  credentials : gmap CredentialId Credential;
}.

(* [crates/auth/src/authority/state.rs:24-33] AuthoritySnapshot *)
Record AuthoritySnapshot := mk_AuthoritySnapshot {
  snap_authority : AuthorityId;
  snap_revision : Revision;
  snap_now : UnixMillis;
  snap_root_grant : GrantId;
  snap_generation : N;
  snap_last_recovery : option RecoveryRecord;
  snap_grants : list Grant;
  snap_credentials : list Credential;
}.

Definition with_grants (s : AuthorityState) (g : gmap GrantId Grant) : AuthorityState :=
  mk_AuthorityState (authority s) (revision s) (state_now s) (root_grant s) (generation s) (last_recovery s) g (credentials s).

(** ** The authority *)

(** A node key's signature of a digest. *)
Class NodeSignatures := { verify_digest_signature : NodeKey -> bytes -> bytes -> bool }.

(* [crates/auth/src/authority/passkey.rs:18-33] PasskeyAssertion::new *)
Definition PasskeyAssertion_new (signature authenticator_data client_data_json : bytes) : result PasskeyAssertion AuthorityError :=
  if negb (length authenticator_data =? Webauthn.AUTHENTICATOR_DATA_LEN)%nat
     || (Webauthn.MAX_CLIENT_DATA_JSON_LEN <? length client_data_json)%nat
  then Err Invalid else Ok (mk_PasskeyAssertion signature authenticator_data client_data_json).

(* [crates/auth/src/authority/passkey.rs:37-49] PasskeyAssertion::from_envelope *)
Definition from_envelope (signature data : bytes) : result PasskeyAssertion AuthorityError :=
  if (length data <? Webauthn.AUTHENTICATOR_DATA_LEN)%nat then Err Invalid else
  PasskeyAssertion_new signature (take Webauthn.AUTHENTICATOR_DATA_LEN data) (drop Webauthn.AUTHENTICATOR_DATA_LEN data).

(* [crates/auth/src/authority/passkey.rs:61-78] PasskeyAssertion::verify *)
Definition passkey_verify `{Webauthn.P256} (self : PasskeyAssertion) (principal : PrincipalId) (challenge : bytes)
    : result unit AuthorityError :=
  let? key := ok_or (Webauthn.from_sec1 (principal_bytes principal)) CredentialFailed in
  map_err (fun _ => CredentialFailed)
    (Webauthn.verify (Webauthn.mk_Assertion (assertion_signature self) (authenticator_data self) (client_data_json self))
       key challenge).

(* [crates/auth/src/authority/types.rs:160-172] OperationId::new *)
Definition OperationId_new (name : string) : result OperationId AuthorityError :=
  let bs := list_byte_of_string name in
  let dot b := bool_decide (b = x2e) in
  let fix empty_part (at_start : bool) (rest : bytes) : bool :=
    match rest with
    | [] => at_start
    | b :: rest => if dot b then at_start || empty_part true rest else empty_part false rest
    end in
  if (length bs =? 0)%nat || (96 <? length bs)%nat
     || negb (forallb (fun b => Webauthn.within 0x61 0x7a b || Webauthn.within 0x30 0x39 b || dot b) bs)
     || empty_part true bs
  then Err Invalid else Ok (mk_OperationId name).

Section Authority.
Context `{Blake3} `{Gearhash}.

Definition str_bytes (s : string) : bytes := list_byte_of_string s.

(* [crates/auth/src/digest.rs:4-15] hash_tuple *)
Definition hash_tuple (tag : string) (fields : list bytes) : bytes :=
  let tag := str_bytes tag in
  default XetHash_ZERO (XetHash_hash
    (str_bytes "hellas.hash_tuple.v2" ++ to_be_bytes 4 (lenN tag) ++ tag ++ to_be_bytes 4 (lenN fields) ++
     concat (map (fun field => to_be_bytes 8 (lenN field) ++ field) fields))).

(* [crates/auth/src/authority/types.rs:112-117] AuthorityId::resource *)
Definition authority_resource (self : AuthorityId) : ResourceId :=
  mk_ResourceId (hash_tuple "hellas.authority.resource.v1" [authority_digest self]).

(** *** Lineages *)

(** A lineage longer than nine is refused, so ten rounds are enough. *)
Fixpoint lineage_from (rounds : nat) (self : AuthorityState) (seen : gset GrantId) (path : list GrantId) (id : GrantId)
    : result (list GrantId) AuthorityError :=
  match rounds with
  | O => Err Invalid
  | S rounds =>
      if bool_decide (id ∈ seen) || (MAX_DELEGATION_DEPTH <? lenN path) then Err Invalid else
      let? grant := ok_or (grants self !! id) Missing in
      let path := path ++ [id] in
      match origin grant with
      | FromNode _ => Ok path
      | Delegated parent => lineage_from rounds self ({[id]} ∪ seen) path parent
      end
  end.
(* [crates/auth/src/authority/state.rs:524-538] AuthorityState::lineage *)
Definition lineage (self : AuthorityState) (id : GrantId) : result (list GrantId) AuthorityError :=
  lineage_from 10 self ∅ [] id.

Definition live_link (self : AuthorityState) (now : UnixMillis) (_ : unit) (id : GrantId) : result unit AuthorityError :=
  let? grant := ok_or (grants self !! id) Missing in
  if grant_revoked grant then Err Revoked else
  if (now <? not_before (spec grant)) || (expires (spec grant) <=? now) then Err Expired else
  match origin grant with
  | FromNode _ => Ok tt
  | Delegated parent =>
      let? p := ok_or (grants self !! parent) Missing in
      if negb (narrows (spec grant) (spec p)) then Err Denied else Ok tt
  end.
(* [crates/auth/src/authority/state.rs:540-558] AuthorityState::live_lineage *)
Definition live_lineage (self : AuthorityState) (id : GrantId) (now : UnixMillis) : result (list GrantId) AuthorityError :=
  let now := N.max now (state_now self) in
  let? path := lineage self id in
  let? _ := rfold (live_link self now) tt path in
  Ok path.

(* [crates/auth/src/authority/state.rs:515-522] AuthorityState::dead *)
Definition dead (self : AuthorityState) (id : GrantId) (now : UnixMillis) : bool :=
  match lineage self id with
  | Err _ => true
  | Ok path =>
      existsb (fun id => match grants self !! id with
                         | Some grant => grant_revoked grant || (expires (spec grant) <=? N.max now (state_now self))
                         | None => true
                         end) path
  end.

(* [crates/auth/src/authority/state.rs:235-251] AuthorityState::authorize *)
Definition authorize (self : AuthorityState) (actor : PrincipalId) (id : GrantId) (permission : Permission) (now : UnixMillis)
    : result (list (GrantId * Revision)) AuthorityError :=
  let? path := live_lineage self id now in
  let? grant := ok_or (grants self !! id) Missing in
  if negb (bool_decide (subject (spec grant) = actor)) || negb (bool_decide (permission ∈ permissions (spec grant)))
  then Err Denied else
  Ok (map (fun id => (id, default 0 (grant_revision <$> grants self !! id))) path).

(* [crates/auth/src/authority/state.rs:254-269] AuthorityState::grant_for *)
Definition grant_for (self : AuthorityState) (actor : PrincipalId) (permission : Permission) (now : UnixMillis) : option GrantId :=
  List.find (fun id => is_ok (live_lineage self id now))
    (map fst (List.filter (fun '(_, grant) =>
       bool_decide (subject (spec grant) = actor) && (size (permissions (spec grant)) =? 1)%nat
       && bool_decide (permission ∈ permissions (spec grant))) (in_order grant_bytes (grants self)))).

(** *** Checks *)

(* [crates/auth/src/authority/state.rs:406-412] AuthorityState::check_time *)
Definition check_time (self : AuthorityState) (now : UnixMillis) : result unit AuthorityError :=
  if now <? state_now self then Err Clock else Ok tt.

(* [crates/auth/src/authority/state.rs:414-426] AuthorityState::check_spec *)
Definition check_spec (self : AuthorityState) (s : GrantSpec) (now : UnixMillis) : result unit AuthorityError :=
  let? _ := check_time self now in
  if negb (bool_decide (spec_authority s = authority self)) then Err Audience else
  if negb (spec_validate s) then Err Invalid else
  if expires s <=? now then Err Expired else Ok tt.

(* [crates/auth/src/authority/state/administration.rs:198-219] AuthorityState::admin_scope *)
Definition admin_scope (self : AuthorityState) (scope : GrantSpec) (op : string) (target : GrantSpec)
    (now : UnixMillis) (issuing : bool) : result unit AuthorityError :=
  let own := authority_resource (authority self) in
  if negb (has scope op own) || (administrative target && negb (has scope GRANT_ADMINISTER own))
     || negb (some_and (issuance scope) (fun ceiling =>
                if issuing then covers ceiling target now else covers_scope ceiling target))
  then Err Denied else Ok tt.

(* [crates/auth/src/authority/state.rs:428-448] AuthorityState::administrator *)
Definition administrator (self : AuthorityState) (actor : PrincipalId) (id : GrantId) (op : string) (target : GrantSpec)
    (now : UnixMillis) (issuing : bool) : result unit AuthorityError :=
  let? _ := live_lineage self id now in
  let? authorization := ok_or (grants self !! id) Missing in
  if (issuing && match origin authorization with Delegated _ => true | FromNode _ => false end)
     || negb (bool_decide (subject (spec authorization) = actor))
  then Err Denied else
  admin_scope self (spec authorization) op target now issuing.

(* [crates/auth/src/authority/state.rs:452-464] AuthorityState::check_self_assignment *)
Definition check_self_assignment (self : AuthorityState) (actor : PrincipalId) (authorization : GrantId) (s : GrantSpec)
    : result unit AuthorityError :=
  let? a := ok_or (grants self !! authorization) Missing in
  if bool_decide (subject s = actor) && (administrative s || (expires (spec a) <? expires s)) then Err Denied else Ok tt.

(* [crates/auth/src/authority/state.rs:390-404] AuthorityState::target *)
Definition target (self : AuthorityState) (id : GrantId) (expected : Revision) : result Grant AuthorityError :=
  if bool_decide (id = root_grant self) then Err Denied else
  let? grant := ok_or (grants self !! id) Missing in
  if grant_revoked grant then Err Revoked else
  if negb (grant_revision grant =? expected) then Err StaleRevision else Ok grant.

(** *** Changing grants *)

(* [crates/auth/src/authority/state.rs:506-512] AuthorityState::replace *)
Definition replace (self : AuthorityState) (grant : Grant) (now : UnixMillis) : result AuthorityState AuthorityError :=
  let? revision := ok_or (Revision_next (revision self)) Capacity in
  Ok (mk_AuthorityState (authority self) revision now (root_grant self) (generation self) (last_recovery self)
        (<[grant_id grant := grant]> (grants self)) (credentials self)).

(** The grants that are kept when space is needed. *)
Definition kept (self : AuthorityState) (now : UnixMillis) : gmap GrantId Grant :=
  filter (fun kv => negb (bool_decide (kv.1 = root_grant self)) && dead self kv.1 now = false) (grants self).

(* [crates/auth/src/authority/state.rs:466-504] AuthorityState::insert *)
Definition insert (self : AuthorityState) (id : GrantId) (s : GrantSpec) (origin : GrantOrigin) (now : UnixMillis)
    : result AuthorityState AuthorityError :=
  if bool_decide (is_Some (grants self !! id)) then Err Duplicate else
  let? next := ok_or (Revision_next (revision self)) Capacity in
  let? self :=
    if MAX_GRANTS <=? N.of_nat (size (grants self)) then
      if MAX_GRANTS <=? N.of_nat (size (kept self now)) then Err Capacity else Ok (with_grants self (kept self now))
    else Ok self in
  replace self (mk_Grant id next s origin false) now.

(* [crates/auth/src/authority/state.rs:271-283] AuthorityState::issue *)
Definition issue (self : AuthorityState) (actor : PrincipalId) (authorization id : GrantId) (s : GrantSpec) (now : UnixMillis)
    : result AuthorityState AuthorityError :=
  let? _ := check_spec self s now in
  let? _ := administrator self actor authorization GRANT_ISSUE s now true in
  let? _ := check_self_assignment self actor authorization s in
  insert self id s (FromNode actor) now.

(* [crates/auth/src/authority/state.rs:285-321] AuthorityState::delegate *)
Definition delegate (self : AuthorityState) (actor : PrincipalId) (parent id : GrantId) (s : GrantSpec) (now : UnixMillis)
    : result AuthorityState AuthorityError :=
  let? _ := check_spec self s now in
  let? path := live_lineage self parent now in
  let? p := ok_or (grants self !! parent) Missing in
  if negb (bool_decide (subject (spec p) = actor)) || negb (narrows s (spec p)) || (MAX_DELEGATION_DEPTH <? lenN path)
     || (administrative s && negb (has (spec p) GRANT_ADMINISTER (authority_resource (authority self))))
  then Err Denied else
  let? assignment := ok_or (List.last (map Some path) None) Invalid in
  let retained := filter (fun kv => negb (dead self kv.1 now)
      && match lineage self kv.1 with Ok l => bool_decide (List.last (map Some l) None = Some assignment) | Err _ => false end = true)
      (grants self) in
  if MAX_DELEGATIONS <? N.of_nat (size retained) then Err Capacity else
  insert self id s (Delegated parent) now.

(* [crates/auth/src/authority/state.rs:325-356] AuthorityState::revise *)
Definition revise (self : AuthorityState) (actor : PrincipalId) (authorization id : GrantId) (expected : Revision)
    (s : GrantSpec) (now : UnixMillis) : result AuthorityState AuthorityError :=
  let? _ := check_spec self s now in
  let? old := ok_or (grants self !! id) Missing in
  let? _ := administrator self actor authorization GRANT_ISSUE s now true in
  let? _ := check_self_assignment self actor authorization s in
  let? _ := if bool_decide (subject (spec old) = actor)
            then check_self_assignment self actor authorization (spec old) else Ok tt in
  let? _ := administrator self actor authorization GRANT_ISSUE (spec old) now false in
  let? _ := match origin old with
            | Delegated parent =>
                let? _ := live_lineage self parent now in
                let? p := ok_or (grants self !! parent) Missing in
                if negb (narrows s (spec p)) then Err Denied else Ok tt
            | FromNode _ => Ok tt
            end in
  let? _ := target self id expected in
  let? next := ok_or (Revision_next (revision self)) Capacity in
  replace self (mk_Grant (grant_id old) next s (origin old) (grant_revoked old)) now.

(* [crates/auth/src/authority/state.rs:358-388] AuthorityState::revoke *)
Definition revoke (self : AuthorityState) (actor : PrincipalId) (authorization id : GrantId) (expected : Revision)
    (now : UnixMillis) : result AuthorityState AuthorityError :=
  let? _ := check_time self now in
  let? old := ok_or (grants self !! id) Missing in
  let? _ := live_lineage self authorization now in
  let? a := ok_or (grants self !! authorization) Missing in
  let own_delegation :=
    bool_decide (origin old = Delegated authorization) && bool_decide (subject (spec a) = actor)
    && (0 <? delegation_depth (spec a))
    && (negb (administrative (spec old)) || has (spec a) GRANT_ADMINISTER (authority_resource (authority self))) in
  let? _ := if negb own_delegation then administrator self actor authorization GRANT_REVOKE (spec old) now false else Ok tt in
  let? _ := target self id expected in
  let? next := ok_or (Revision_next (revision self)) Capacity in
  replace self (mk_Grant (grant_id old) next (spec old) (origin old) true) now.

(* [crates/auth/src/authority/state.rs:36-63] AuthorityState::apply *)
Definition apply (self : AuthorityState) (actor : PrincipalId) (command : GrantCommand) (now : UnixMillis)
    : result AuthorityState AuthorityError :=
  match command with
  | Issue authorization id s => issue self actor authorization id s now
  | Delegate parent id s => delegate self actor parent id s now
  | Revise authorization id expected s => revise self actor authorization id expected s now
  | Revoke authorization id expected => revoke self actor authorization id expected now
  end.

(** *** Credentials *)

(** A secret and its id. *)
(* [crates/auth/src/authority/credentials.rs:14-17] CredentialSecret *)
Record CredentialSecret := mk_CredentialSecret { secret_id : CredentialId; secret : bytes }.

(* [crates/auth/src/authority/credentials.rs:35-45] CredentialSecret::verifier *)
Definition secret_verifier (self : CredentialSecret) (authority : AuthorityId) (generation : N) : bytes :=
  hash_tuple "hellas.auth.bearer.v1"
    [authority_digest authority; to_be_bytes 8 generation; credential_bytes (secret_id self); secret self].

(** [id] and [material] are the random bytes. *)
(* [crates/auth/src/authority/credentials.rs:106-131] Credential::prepare *)
Definition prepare (s : GrantSpec) (holder : CredentialHolder) (generation : N) (id material : bytes)
    : result (Credential * CredentialSecret) AuthorityError :=
  if negb (spec_validate s) || negb (admits holder s) || (generation =? 0) then Err Invalid else
  let secret := mk_CredentialSecret (mk_CredentialId id) material in
  Ok (mk_Credential (secret_id secret) s holder generation 1 (secret_verifier secret (spec_authority s) generation) false,
      secret).

(* [crates/auth/src/authority/state/credentials.rs:165-183] AuthorityState::live_credential *)
Definition live_credential (self : AuthorityState) (id : CredentialId) (now : UnixMillis) : result Credential AuthorityError :=
  let? _ := check_time self now in
  let? credential := ok_or (credentials self !! id) CredentialFailed in
  if credential_revoked credential || negb (credential_generation credential =? generation self)
     || (now <? not_before (scope credential)) || (expires (scope credential) <=? now)
  then Err CredentialFailed else Ok credential.

(* [crates/auth/src/authority/state/credentials.rs:25-48] AuthorityState::authenticate_secret *)
Definition authenticate_secret (self : AuthorityState) (secret : CredentialSecret) (session : SessionKind) (now : UnixMillis)
    : result AuthenticatedCaller AuthorityError :=
  let? credential := live_credential self (secret_id secret) now in
  let proof := secret_verifier secret (authority self) (generation self) in
  if negb (bool_decide (proof = verifier credential)) then Err CredentialFailed else
  Ok (mk_AuthenticatedCaller (authority self) (subject (scope credential)) (credential_id credential) (holder credential)
        session (credential_revision credential) (generation self) now (expires (scope credential)) proof).

(* [crates/auth/src/authority/state/credentials.rs:13-22] AuthorityState::authenticate *)
Definition authenticate (self : AuthorityState) (secret : CredentialSecret) (now : UnixMillis)
    : result AuthenticatedCaller AuthorityError :=
  let? credential := live_credential self (secret_id secret) now in
  if negb (bearer credential) then Err CredentialFailed else
  authenticate_secret self secret BearerSession now.

(* [crates/auth/src/authority/state/credentials.rs:140-163] AuthorityState::check_caller *)
Definition check_caller (self : AuthorityState) (caller : AuthenticatedCaller) (now : UnixMillis)
    : result Credential AuthorityError :=
  let? credential := live_credential self (caller_credential caller) now in
  if negb (bool_decide (caller_authority caller = authority self))
     || negb (bool_decide (caller_subject caller = subject (scope credential)))
     || negb (bool_decide (caller_holder caller = holder credential))
     || negb (caller_generation caller =? generation self)
     || negb (caller_revision caller =? credential_revision credential)
     || (now <? authenticated_at caller) || (caller_expires caller <=? now)
     || negb (bool_decide (caller_proof caller = verifier credential))
  then Err CredentialFailed else Ok credential.

(* [crates/auth/src/authority/state/credentials.rs:52-64] AuthorityState::authorize_caller *)
Definition authorize_caller (self : AuthorityState) (caller : AuthenticatedCaller) (grant : GrantId) (permission : Permission)
    (now : UnixMillis) : result (list (GrantId * Revision)) AuthorityError :=
  let? credential := check_caller self caller now in
  if negb (bool_decide (permission ∈ permissions (scope credential))) then Err Denied else
  authorize self (caller_subject caller) grant permission now.

(* [crates/auth/src/authority/state/credentials.rs:185-199] AuthorityState::validate_credential *)
Definition validate_credential (self : AuthorityState) (credential : Credential) : result unit AuthorityError :=
  if negb (bool_decide (spec_authority (scope credential) = authority self))
     || negb (credential_generation credential =? generation self)
     || negb (spec_validate (scope credential)) || negb (admits (holder credential) (scope credential))
     || (credential_revision credential =? 0) || (revision self <? credential_revision credential)
  then Err Invalid else Ok tt.

(* [crates/auth/src/authority/state/credentials.rs:201-229] AuthorityState::validate_initial_credential *)
Definition validate_initial_credential (admin : GrantSpec) (credential : Credential) (generation : N) (now : UnixMillis)
    : result unit AuthorityError :=
  let s := scope credential in
  if negb (spec_validate s) || negb (credential_generation credential =? generation)
     || negb (credential_revision credential =? 1) || credential_revoked credential || bearer credential
     || negb (bool_decide (spec_authority s = spec_authority admin))
     || negb (bool_decide (subject s = subject admin))
     || negb (bool_decide (permissions s ⊆ permissions admin))
     || (not_before s <? not_before admin) || (now <? not_before s) || (expires s <=? now)
     || (expires admin <? expires s) || (delegation_depth admin <? delegation_depth s)
     || negb (some_and (issuance admin) (fun ceiling => covers_scope ceiling s))
  then Err Invalid else Ok tt.

Definition unusable (self : AuthorityState) (now : UnixMillis) (c : Credential) : bool :=
  credential_revoked c || negb (credential_generation c =? generation self) || (expires (scope c) <=? now).

Definition with_credentials (s : AuthorityState) (rev : Revision) (now : UnixMillis) (cs : gmap CredentialId Credential) : AuthorityState :=
  mk_AuthorityState (authority s) rev now (root_grant s) (generation s) (last_recovery s) (grants s) cs.

(* [crates/auth/src/authority/state/credentials.rs:66-138] AuthorityState::apply_credential *)
Definition apply_credential (self : AuthorityState) (actor : PrincipalId) (command : CredentialCommand) (now : UnixMillis)
    : result AuthorityState AuthorityError :=
  let? _ := check_time self now in
  let? next := ok_or (Revision_next (revision self)) Capacity in
  match command with
  | IssueCredential authorization credential =>
      let? _ := validate_credential self credential in
      if credential_revoked credential || negb (credential_revision credential =? 1) then Err Invalid else
      if bool_decide (is_Some (credentials self !! credential_id credential)) then Err Duplicate else
      let? _ := administrator self actor authorization CREDENTIAL_ISSUE (scope credential) now true in
      let live := filter (fun kv => unusable self now kv.2 = false) (credentials self) in
      if MAX_CREDENTIALS <=? N.of_nat (size live) then Err Capacity else
      let held := if MAX_CREDENTIALS <=? N.of_nat (size (credentials self)) then live else credentials self in
      Ok (with_credentials self next now (<[credential_id credential := credential]> held))
  | RevokeCredential authorization id expected =>
      let? credential := ok_or (credentials self !! id) Missing in
      let? _ := administrator self actor authorization CREDENTIAL_REVOKE (scope credential) now false in
      if negb (credential_revision credential =? expected) then Err StaleRevision else
      if credential_revoked credential then Err Revoked else
      let? rev := ok_or (Revision_next (credential_revision credential)) Capacity in
      let revoked := mk_Credential (credential_id credential) (scope credential) (holder credential)
                       (credential_generation credential) rev (verifier credential) true in
      Ok (with_credentials self next now (<[id := revoked]> (credentials self)))
  end.

(** *** Administration records *)

(* [crates/auth/src/authority/administration.rs:8-11] AdministrationCommand *)
Inductive AdministrationCommand := AdminGrant (c : GrantCommand) | AdminCredential (c : CredentialCommand).

(* [crates/auth/src/authority/administration.rs:28-38] CallerRecord *)
Record CallerRecord := mk_CallerRecord {
  cr_authority : AuthorityId;
  cr_generation : N;
  cr_before : Revision;
  cr_actor : PrincipalId;
  cr_credential : CredentialId;
  cr_credential_revision : Revision;
  cr_holder : CredentialHolder;
  cr_session : SessionKind;
  cr_at : UnixMillis;
}.

(* [crates/auth/src/authority/administration.rs:18-21] AdministrationRecord *)
Record AdministrationRecord := mk_AdministrationRecord { record_caller_of : CallerRecord; record_command : AdministrationCommand }.

(* [crates/auth/src/authority/state/administration.rs:6-23] AuthorityState::record_caller *)
Definition record_caller (self : AuthorityState) (caller : AuthenticatedCaller) (now : UnixMillis)
    : result CallerRecord AuthorityError :=
  let? _ := check_caller self caller now in
  Ok (mk_CallerRecord (authority self) (generation self) (revision self) (caller_subject caller) (caller_credential caller)
        (caller_revision caller) (caller_holder caller) (caller_session caller) now).

(* [crates/auth/src/authority/state/administration.rs:43-67] AuthorityState::recorded_scope *)
Definition recorded_scope (self : AuthorityState) (record : CallerRecord) : result GrantSpec AuthorityError :=
  let? _ := check_time self (cr_at record) in
  if negb (bool_decide (cr_authority record = authority self)) || negb (cr_generation record =? generation self)
  then Err Audience else
  if negb (cr_before record =? revision self) then Err StaleRevision else
  let? credential := ok_or (credentials self !! cr_credential record) CredentialFailed in
  if credential_revoked credential || negb (credential_generation credential =? generation self)
     || negb (credential_revision credential =? cr_credential_revision record)
     || negb (bool_decide (subject (scope credential) = cr_actor record))
     || negb (bool_decide (holder credential = cr_holder record))
     || negb (Bool.eqb (bool_decide (cr_session record = BearerSession)) (bearer credential))
     || (cr_at record <? not_before (scope credential)) || (expires (scope credential) <=? cr_at record)
  then Err CredentialFailed else Ok (scope credential).

(* [crates/auth/src/authority/state/administration.rs:27-41] AuthorityState::authorize_recorded *)
Definition authorize_recorded (self : AuthorityState) (record : CallerRecord) (grant : GrantId) (permission : Permission)
    : result (list (GrantId * Revision)) AuthorityError :=
  let? s := recorded_scope self record in
  if negb (bool_decide (permission ∈ permissions s)) then Err Denied else
  authorize self (cr_actor record) grant permission (cr_at record).

(* [crates/auth/src/authority/state/administration.rs:185-196] AuthorityState::credential_delegation *)
Definition credential_delegation (self : AuthorityState) (s t : GrantSpec) : result unit AuthorityError :=
  if negb (narrows t s) || (administrative t && negb (has s GRANT_ADMINISTER (authority_resource (authority self))))
  then Err Denied else Ok tt.

(* [crates/auth/src/authority/state/administration.rs:146-183] AuthorityState::check_credential_grant *)
Definition check_credential_grant (self : AuthorityState) (s : GrantSpec) (command : GrantCommand) (now : UnixMillis)
    : result unit AuthorityError :=
  match command with
  | Issue _ _ t => admin_scope self s GRANT_ISSUE t now true
  | Revise _ id _ t =>
      let? old := ok_or (grants self !! id) Missing in
      let? _ := admin_scope self s GRANT_ISSUE (spec old) now false in
      admin_scope self s GRANT_ISSUE t now true
  | Delegate _ _ t => credential_delegation self s t
  | Revoke authorization id _ =>
      let? old := ok_or (grants self !! id) Missing in
      let? parent := ok_or (grants self !! authorization) Missing in
      if bool_decide (origin old = Delegated authorization) && bool_decide (subject (spec parent) = subject s)
         && (0 <? delegation_depth (spec parent))
      then credential_delegation self s (spec old)
      else admin_scope self s GRANT_REVOKE (spec old) now false
  end.

(* [crates/auth/src/authority/state/administration.rs:131-144] AuthorityState::step_up *)
Definition step_up (self : AuthorityState) (actor : PrincipalId) (command : AdministrationCommand) : bool :=
  let sensitive s := negb (bool_decide (subject s = actor)) || administrative s in
  let existing id := none_or (grants self !! id) (fun g => sensitive (spec g)) in
  match command with
  | AdminCredential _ => true
  | AdminGrant (Issue _ _ s) | AdminGrant (Delegate _ _ s) => sensitive s
  | AdminGrant (Revise _ id _ s) => sensitive s || existing id
  | AdminGrant (Revoke _ id _) => existing id
  end.

(* [crates/auth/src/authority/state/administration.rs:89-125] AuthorityState::apply_administration *)
Definition apply_administration (self : AuthorityState) (record : AdministrationRecord) : result AuthorityState AuthorityError :=
  let caller := record_caller_of record in
  let? s := recorded_scope self caller in
  let? _ := if step_up self (cr_actor caller) (record_command record) then SessionKind_step_up (cr_session caller) else Ok tt in
  match record_command record with
  | AdminGrant command =>
      let? _ := check_credential_grant self s command (cr_at caller) in
      apply self (cr_actor caller) command (cr_at caller)
  | AdminCredential command =>
      let? _ := match command with
                | IssueCredential _ credential => admin_scope self s CREDENTIAL_ISSUE (scope credential) (cr_at caller) true
                | RevokeCredential _ id _ =>
                    let? t := ok_or (credentials self !! id) Missing in
                    admin_scope self s CREDENTIAL_REVOKE (scope t) (cr_at caller) false
                end in
      apply_credential self (cr_actor caller) command (cr_at caller)
  end.

(* [crates/auth/src/authority/state/administration.rs:72-84] AuthorityState::record_administration *)
Definition record_administration (self : AuthorityState) (caller : AuthenticatedCaller) (command : AdministrationCommand)
    (now : UnixMillis) : result AdministrationRecord AuthorityError :=
  let? c := record_caller self caller now in
  let record := mk_AdministrationRecord c command in
  let? _ := apply_administration self record in
  Ok record.

(** *** Ownership *)

(* [crates/auth/src/authority/ownership.rs:8-17] Ownership *)
Inductive Ownership := Bootstrap (root : GrantId) (pin : option bytes) | Recover (expected : Revision).

(** The curve tag and the point of a principal's key. *)
Definition SIGNATURE_P256 : byte := x03.

Definition ceiling_commitment (ceiling : IssuanceCeiling) : bytes :=
  hash_tuple "hellas.auth.ceiling.v1"
    [hash_tuple "hellas.auth.ceiling.operations.v1"
       (merge_sort bytes_le (map (fun op => str_bytes (operation_name op)) (elements (operations ceiling))));
     match resources ceiling with
     | WholeAuthority => hash_tuple "hellas.auth.ceiling.authority.v1" []
     | Named ids => hash_tuple "hellas.auth.ceiling.named.v1"
         (merge_sort bytes_le (map resource_digest (elements ids)))
     end;
     to_be_bytes 8 (max_validity_ms ceiling); [byte_of_N (max_delegation_depth ceiling)]].

(** Permissions by operation, then by resource. *)
Definition permission_leb (a b : Permission) : bool :=
  let x := str_bytes (operation_name (operation a)) in
  let y := str_bytes (operation_name (operation b)) in
  if bool_decide (x = y) then Webauthn.bytes_leb (resource_digest (resource a)) (resource_digest (resource b))
  else Webauthn.bytes_leb x y.
Definition permission_le (a b : Permission) : Prop := permission_leb a b = true.
#[local] Instance permission_le_dec a b : Decision (permission_le a b).
Proof. unfold permission_le. apply _. Defined.

(* [crates/auth/src/authority/ownership.rs:56-103] GrantSpec::commitment *)
Definition commitment (self : GrantSpec) : bytes :=
  hash_tuple "hellas.auth.grant-spec.v2"
    [authority_digest (spec_authority self); [SIGNATURE_P256]; principal_bytes (subject self);
     hash_tuple "hellas.auth.permissions.v1"
       (concat (map (fun p => [str_bytes (operation_name (operation p)); resource_digest (resource p)])
          (merge_sort permission_le (elements (permissions self)))));
     to_be_bytes 8 (not_before self); to_be_bytes 8 (expires self); [byte_of_N (delegation_depth self)];
     match issuance self with Some ceiling => ceiling_commitment ceiling | None => [] end].

(* [crates/auth/src/authority/ownership.rs:22-51] ownership_digest *)
Definition ownership_digest (ownership : Ownership) (admin credential : GrantSpec) (holder : NodeKey) : bytes :=
  match ownership with
  | Bootstrap root pin => hash_tuple "hellas.auth.bootstrap.v3"
      [grant_bytes root; default [] pin; commitment admin; commitment credential; node_key_bytes holder]
  | Recover expected => hash_tuple "hellas.auth.recovery.v2"
      [to_be_bytes 8 expected; commitment admin; commitment credential; node_key_bytes holder]
  end.

(* [crates/auth/src/authority/state.rs:127-148] AuthorityState::validate_administrator *)
Definition validate_administrator (admin : GrantSpec) (now : UnixMillis) : result unit AuthorityError :=
  if negb (spec_validate admin) || (now <? not_before admin) || (expires admin <=? now)
     || negb (forallb (fun op => has admin op (authority_resource (spec_authority admin)))
          [GRANT_ISSUE; GRANT_REVOKE; GRANT_ADMINISTER; CREDENTIAL_ISSUE; CREDENTIAL_REVOKE])
     || negb (some_and (issuance admin) (fun c => covers c admin now))
  then Err Invalid else Ok tt.

Context `{Webauthn.P256}.

(* [crates/auth/src/authority/state.rs:110-125] AuthorityState::check_owner *)
Definition check_owner (ownership : Ownership) (admin : GrantSpec) (credential : Credential) (owner : PasskeyAssertion)
    : result unit AuthorityError :=
  match holder credential with
  | HolderBearer => Err Invalid
  | HolderNode key =>
      map_err (fun _ => Denied)
        (passkey_verify owner (subject admin) (ownership_digest ownership admin (scope credential) key))
  end.

(* [crates/auth/src/authority/state.rs:68-106] AuthorityState::bootstrap *)
Definition bootstrap (id : GrantId) (pin : option bytes) (admin : GrantSpec) (credential : Credential)
    (owner : PasskeyAssertion) (now : UnixMillis) : result AuthorityState AuthorityError :=
  let? _ := validate_administrator admin now in
  let? _ := validate_initial_credential admin credential 1 now in
  let? _ := check_owner (Bootstrap id pin) admin credential owner in
  Ok (mk_AuthorityState (spec_authority admin) 1 now id 1 None
        {[id := mk_Grant id 1 admin (FromNode (subject admin)) false]}
        {[credential_id credential := credential]}).

Definition also_revoked (self : AuthorityState) (acc : gset GrantId) (grant : Grant) : result (gset GrantId) AuthorityError :=
  if grant_revoked grant then Ok acc else
  if administrative (spec grant) then Ok ({[grant_id grant]} ∪ acc) else
  let? path := lineage self (grant_id grant) in
  if bool_decide (root_grant self ∈ path) then Ok ({[grant_id grant]} ∪ acc) else Ok acc.

Definition revoke_at (root : GrantId) (rev : Revision) (m : gmap GrantId Grant) (id : GrantId)
    : result (gmap GrantId Grant) AuthorityError :=
  let? grant := ok_or (m !! id) Missing in
  if negb (grant_revoked grant) && negb (bool_decide (id = root))
  then Ok (<[id := mk_Grant (grant_id grant) rev (spec grant) (origin grant) true]> m) else Ok m.

(* [crates/auth/src/authority/state/recovery.rs:9-91] AuthorityState::recover *)
Definition recover (self : AuthorityState) (command : RecoveryCommand) (now : UnixMillis) : result AuthorityState AuthorityError :=
  let admin := recovery_administrator command in
  let? _ := check_spec self admin now in
  if negb (recovery_expected command =? revision self) then Err StaleRevision else
  let? _ := validate_administrator admin now in
  let? next_generation := ok_or (checked_add (generation self) 1) Capacity in
  let? _ := validate_initial_credential admin (recovery_credential command) next_generation now in
  let? _ := check_owner (Recover (recovery_expected command)) admin (recovery_credential command) (recovery_owner command) in
  if MAX_GRANTS <? N.of_nat (size (recovery_revoke command)) then Err Capacity else
  let? revoke := rfold (also_revoked self) (recovery_revoke command) (map snd (in_order grant_bytes (grants self))) in
  let revoke := {[root_grant self]} ∪ revoke in
  let? previous := ok_or (grants self !! root_grant self) Missing in
  let? next := ok_or (Revision_next (revision self)) Capacity in
  let receipt := mk_RecoveryRecord next_generation next now (subject (spec previous)) (subject admin) revoke in
  let root := mk_Grant (root_grant self) next admin (FromNode (subject admin)) false in
  let? candidate := rfold (revoke_at (root_grant self) next) (grants self) (elements revoke) in
  Ok (mk_AuthorityState (authority self) next now (root_grant self) next_generation (Some receipt)
        (<[root_grant self := root]> candidate)
        {[credential_id (recovery_credential command) := recovery_credential command]}).

(** *** Snapshots *)

(* [crates/auth/src/authority/state/recovery.rs:93-131] AuthorityState::validate_recovery *)
Definition validate_recovery (self : AuthorityState) : result unit AuthorityError :=
  let root := grants self !! root_grant self in
  if (generation self =? 0) || (revision self <? generation self)
     || none_or root (fun g => grant_revision g <? generation self)
     || negb (some_and root (fun g => match origin g with FromNode _ => true | Delegated _ => false end))
  then Err Invalid else
  match last_recovery self with
  | None => if generation self =? 1 then Ok tt else Err Invalid
  | Some record =>
      if (1 <? generation self) && (record_generation record =? generation self)
         && (record_generation record <=? record_revision record) && (record_revision record <=? revision self)
         && (record_at record <=? state_now self) && bool_decide (root_grant self ∈ record_revoked record)
         && (N.of_nat (size (record_revoked record)) <=? MAX_GRANTS)
         && all_of (record_revoked record) (fun id =>
              bool_decide (id = root_grant self)
              || none_or (grants self !! id) (fun g => grant_revoked g || (record_revision record <? grant_revision g)))
      then Ok tt else Err Invalid
  end.

(* [crates/auth/src/authority/state.rs:176-187] AuthorityState::snapshot *)
Definition snapshot (self : AuthorityState) : AuthoritySnapshot :=
  mk_AuthoritySnapshot (authority self) (revision self) (state_now self) (root_grant self) (generation self)
    (last_recovery self) (map snd (in_order grant_bytes (grants self)))
    (map snd (in_order credential_bytes (credentials self))).

Definition restore_credential (m : gmap CredentialId Credential) (c : Credential)
    : result (gmap CredentialId Credential) AuthorityError :=
  if bool_decide (is_Some (m !! credential_id c)) then Err Invalid else Ok (<[credential_id c := c]> m).

Definition restore_grant (s : AuthoritySnapshot) (m : gmap GrantId Grant) (g : Grant) : result (gmap GrantId Grant) AuthorityError :=
  if negb (bool_decide (spec_authority (spec g) = snap_authority s)) || negb (spec_validate (spec g))
     || (grant_revision g =? 0) || (snap_revision s <? grant_revision g) || bool_decide (is_Some (m !! grant_id g))
  then Err Invalid else Ok (<[grant_id g := g]> m).

(* [crates/auth/src/authority/state.rs:189-231] AuthorityState::restore *)
Definition restore (s : AuthoritySnapshot) : result AuthorityState AuthorityError :=
  if (lenN (snap_grants s) =? 0) || (MAX_GRANTS <? lenN (snap_grants s)) then Err Invalid else
  if (lenN (snap_credentials s) =? 0) || (MAX_CREDENTIALS <? lenN (snap_credentials s)) then Err Invalid else
  let? cs := rfold restore_credential ∅ (snap_credentials s) in
  let? gs := rfold (restore_grant s) ∅ (snap_grants s) in
  let state := mk_AuthorityState (snap_authority s) (snap_revision s) (snap_now s) (snap_root_grant s) (snap_generation s)
                 (snap_last_recovery s) gs cs in
  let? _ := validate_recovery state in
  let? _ := rfold (fun _ c => validate_credential state c) tt (map snd (in_order credential_bytes cs)) in
  let? _ := rfold (fun _ id => let? _ := lineage state id in Ok tt) tt (map fst (in_order grant_bytes gs)) in
  Ok state.

(** *** Sessions *)

(* [crates/auth/src/authority/sessions.rs:12-19] SessionProof *)
Inductive SessionProof := ProofPasskey (assertion : PasskeyAssertion) | ProofDaily (signature : bytes).

(* [crates/auth/src/authority/sessions.rs:21-21] MAX_CHALLENGE_LIFETIME_MS *)
Definition MAX_CHALLENGE_LIFETIME_MS : N := 60000.
(* [crates/auth/src/authority/sessions.rs:22-22] MAX_SESSION_LIFETIME_MS *)
Definition MAX_SESSION_LIFETIME_MS : N := 15 * 60000.

(* [crates/auth/src/authority/sessions.rs:26-34] SessionChallenge *)
Record SessionChallenge := mk_SessionChallenge {
  ch_authority : AuthorityId;
  ch_generation : N;
  nonce : bytes;
  binding : bytes;
  issued_at : UnixMillis;
  deadline : UnixMillis;
  session_expires : UnixMillis;
}.

(* [crates/auth/src/authority/sessions.rs:39-50] SessionChallenge::validate *)
Definition challenge_validate (self : SessionChallenge) : result unit AuthorityError :=
  let challenge_lifetime := checked_sub (deadline self) (issued_at self) in
  let session_lifetime := checked_sub (session_expires self) (issued_at self) in
  if (ch_generation self =? 0)
     || negb (some_and challenge_lifetime (fun n => (0 <? n) && (n <=? MAX_CHALLENGE_LIFETIME_MS)))
     || negb (some_and session_lifetime (fun n => (0 <? n) && (n <=? MAX_SESSION_LIFETIME_MS)))
     || (session_expires self <? deadline self)
  then Err CredentialFailed else Ok tt.

(* [crates/auth/src/authority/sessions.rs:104-118] SessionChallenge::digest *)
Definition challenge_digest (self : SessionChallenge) (credential : CredentialId) : bytes :=
  hash_tuple "hellas.auth.session.proof.v2"
    [authority_digest (ch_authority self); to_be_bytes 8 (ch_generation self); nonce self; binding self;
     to_be_bytes 8 (issued_at self); to_be_bytes 8 (deadline self); to_be_bytes 8 (session_expires self);
     credential_bytes credential].

(* [crates/auth/src/authority/sessions.rs:56-69] SessionChallenge::proof_digest *)
Definition proof_digest (self : SessionChallenge) (authority : AuthorityId) (bound : bytes) (credential : CredentialId)
    : result bytes AuthorityError :=
  let? _ := challenge_validate self in
  if negb (bool_decide (ch_authority self = authority)) || negb (bool_decide (binding self = bound))
  then Err CredentialFailed else Ok (challenge_digest self credential).

(* [crates/auth/src/authority/sessions.rs:85-100] SessionChallenge::check *)
Definition challenge_check (self : SessionChallenge) (authority : AuthorityId) (bound : bytes) (now : UnixMillis)
    : result unit AuthorityError :=
  let? _ := challenge_validate self in
  if negb (bool_decide (ch_authority self = authority)) || negb (bool_decide (binding self = bound))
     || (now <? issued_at self) || (deadline self <=? now)
  then Err CredentialFailed else Ok tt.

(** [random] is the nonce, [None] when the system gives none. *)
(* [crates/auth/src/authority/sessions.rs:215-241] AuthorityState::begin_authentication *)
Definition begin_authentication (self : AuthorityState) (bound : bytes) (now : UnixMillis) (random : option bytes)
    : result SessionChallenge AuthorityError :=
  if now <? state_now self then Err Clock else
  match checked_add now MAX_CHALLENGE_LIFETIME_MS, checked_add now MAX_SESSION_LIFETIME_MS with
  | Some deadline, Some session_expires =>
      let? nonce := ok_or random Entropy in
      Ok (mk_SessionChallenge (authority self) (generation self) nonce bound now deadline session_expires)
  | _, _ => Err Capacity
  end.

(* [crates/auth/src/authority/sessions.rs:168-171] AuthenticatedSession *)
Record AuthenticatedSession := mk_AuthenticatedSession { session_caller : AuthenticatedCaller; session_binding : bytes }.

Context `{NodeSignatures}.

(* [crates/auth/src/authority/sessions.rs:132-164] PendingAuthentication::complete *)
Definition complete (challenge : SessionChallenge) (state : AuthorityState) (bound : bytes) (credential : CredentialSecret)
    (proof : SessionProof) (now : UnixMillis) : result AuthenticatedSession AuthorityError :=
  let? _ := challenge_check challenge (authority state) bound now in
  if negb (ch_generation challenge =? generation state) then Err CredentialFailed else
  let session := match proof with ProofPasskey _ => PasskeySession | ProofDaily _ => DailySession end in
  let? caller := authenticate_secret state credential session now in
  match caller_holder caller with
  | HolderBearer => Err CredentialFailed
  | HolderNode node_key =>
      let digest := challenge_digest challenge (secret_id credential) in
      let? _ := match proof with
                | ProofPasskey assertion => passkey_verify assertion (caller_subject caller) digest
                | ProofDaily signature =>
                    if verify_digest_signature node_key signature digest then Ok tt else Err CredentialFailed
                end in
      let expires := N.min (caller_expires caller) (session_expires challenge) in
      Ok (mk_AuthenticatedSession
            (mk_AuthenticatedCaller (caller_authority caller) (caller_subject caller) (caller_credential caller)
               (caller_holder caller) (caller_session caller) (caller_revision caller) (caller_generation caller)
               (authenticated_at caller) expires (caller_proof caller)) bound)
  end.

(* [crates/auth/src/authority/sessions.rs:195-200] AuthenticatedSession::bound_caller *)
Definition bound_caller (self : AuthenticatedSession) (bound : bytes) : result AuthenticatedCaller AuthorityError :=
  if negb (bool_decide (bound = session_binding self)) then Err CredentialFailed else Ok (session_caller self).

(* [crates/auth/src/authority/sessions.rs:182-191] AuthenticatedSession::authenticate *)
Definition session_authenticate (self : AuthenticatedSession) (state : AuthorityState) (bound : bytes) (now : UnixMillis)
    : result AuthenticatedCaller AuthorityError :=
  let? caller := bound_caller self bound in
  let? _ := check_caller state caller now in
  Ok caller.
End Authority.
