(* ===== verification/GrantsStep.v ===== *)
(** * Lineages and effects of a node authority

    A lineage is a duplicate-free chain of parents of length at most nine, and
    pruning keeps the chains it does not remove.  Every command of [Grants] that
    succeeds has one of the effects listed here, with the facts it checked; the
    invariants of [GrantsSafe] are proved from the effects. *)

From stdpp Require Import strings sorting.
From S2P Require Import Prelude Xet XetChunk Webauthn Grants.

#[local] Open Scope N_scope.

(** ** Lineages *)

Section Step.
Context `{Blake3} `{Gearhash} `{P256}.

Inductive chain (m : gmap GrantId Grant) : GrantId -> list GrantId -> Prop :=
  | chain_node id g issuer : m !! id = Some g -> origin g = FromNode issuer -> chain m id [id]
  | chain_step id g parent path :
      m !! id = Some g -> origin g = Delegated parent -> chain m parent path -> chain m id (id :: path).

Lemma chain_head m id path : chain m id path -> exists rest, path = id :: rest.
Proof. intros []; eauto. Qed.

Lemma chain_present m id path : chain m id path -> Forall (fun x => is_Some (m !! x)) path.
Proof. induction 1; repeat constructor; eauto. Qed.

Lemma chain_det m id p q : chain m id p -> chain m id q -> p = q.
Proof.
  intros Hp. revert q. induction Hp as [id g i Hg Ho|id g parent p Hg Ho Hp IH]; intros q Hq;
    inversion Hq; simplify_eq; try congruence. f_equal. apply IH. congruence.
Qed.

(** The chains of the members of a chain are its tails. *)
Lemma chain_tail m id path x : chain m id path -> x ∈ path -> exists pre suf, path = pre ++ suf /\ chain m x suf.
Proof.
  induction 1 as [id g i Hg Ho|id g parent p Hg Ho Hp IH]; intros Hx.
  - apply list_elem_of_singleton in Hx as ->. exists [], [id]. split; [done|by econstructor].
  - apply elem_of_cons in Hx as [->|Hx]; [exists [], (id :: p); split; [done|by econstructor]|].
    destruct (IH Hx) as (pre & suf & -> & Hc). by exists (id :: pre), suf.
Qed.

Definition parent_of (g : Grant) : option GrantId :=
  match origin g with FromNode _ => None | Delegated parent => Some parent end.
Definition same_origin (m m' : gmap GrantId Grant) (x : GrantId) : Prop :=
  exists g g', m !! x = Some g /\ m' !! x = Some g' /\ parent_of g = parent_of g'.

Lemma chain_transfer m m' id path :
  chain m id path -> Forall (same_origin m m') path -> chain m' id path.
Proof.
  induction 1 as [id g i Hg Ho|id g parent p Hg Ho Hp IH]; intros Hf; inversion Hf as [|? ? (g1 & g2 & E1 & E2 & E3)]; simplify_eq;
    unfold parent_of in E3; rewrite Ho in E3; destruct (origin g2) eqn:Ho2; simplify_eq.
  - by econstructor.
  - econstructor; [done|done|]. by apply IH.
Qed.

Lemma lineage_from_Ok rounds s seen path id p :
  (length path + rounds = 10)%nat ->
  lineage_from rounds s seen path id = Ok p <->
  exists rest, p = path ++ rest /\ chain (grants s) id rest /\ NoDup rest /\ Forall (fun x => x ∉ seen) rest
               /\ (length p <= 9)%nat.
Proof.
  revert seen path id. induction rounds as [|rounds IH]; intros seen path id Hr; cbn [lineage_from].
  { split; [done|]. intros (rest & -> & Hc & _ & _ & Hl). rewrite length_app in Hl.
    apply chain_head in Hc as [? ->]. cbn in Hl. lia. }
  change MAX_DELEGATION_DEPTH with 8.
  split.
  - destruct (_ || _) eqn:E; [done|]. bool_simpl. intros (g & Hg%ok_or_Ok & Hl)%rbind_Ok. destruct (origin g) as [i|parent] eqn:Ho.
    + injection Hl as <-. exists [id]. split_and!; [done|by econstructor|apply NoDup_singleton|by constructor|].
      rewrite length_app. cbn. lia.
    + apply IH in Hl as (rest & -> & Hc & Hnd & Hs & Hlen); [|rewrite length_app; cbn; lia].
      exists (id :: rest). rewrite <- app_assoc in *. split_and!; [done|by econstructor| | |done].
      * constructor; [|done]. intros Hin. rewrite Forall_forall in Hs. specialize (Hs _ Hin). set_solver.
      * constructor; [done|]. eapply Forall_impl; [exact Hs|]. set_solver.
  - intros (rest & -> & Hc & Hnd & Hs & Hlen). rewrite length_app in Hlen.
    destruct (chain_head _ _ _ Hc) as [rest' ->]. cbn [length] in Hlen.
    inversion Hs as [|? ? Hid Hs']; subst. rewrite bool_decide_false by done. cbn [orb].
    rewrite (proj2 (N.ltb_ge _ _)) by lia.
    inversion Hc as [? g i Hg Ho|? g parent p Hg Ho Hc']; simplify_eq; rewrite Hg; cbn [ok_or rbind]; rewrite Ho; [done|].
    apply IH; [rewrite length_app; cbn; lia|]. inversion Hnd; subst.
    exists rest'. split_and!; [by rewrite <- app_assoc|done|done| |rewrite !length_app; cbn; lia].
    apply Forall_forall. intros x Hx. rewrite Forall_forall in Hs'. specialize (Hs' _ Hx). set_solver.
Qed.

Lemma lineage_Ok s id p :
  lineage s id = Ok p <-> chain (grants s) id p /\ NoDup p /\ (length p <= 9)%nat.
Proof.
  unfold lineage. rewrite lineage_from_Ok by done. split.
  - by intros (rest & -> & ? & ? & _ & ?).
  - intros (? & ? & ?). exists p. split_and!; try done. apply Forall_forall. set_solver.
Qed.

(** ** What a command does *)

Definition with_grant (s : AuthorityState) (now : UnixMillis) (m : gmap GrantId Grant) (g : Grant) : AuthorityState :=
  mk_AuthorityState (authority s) (revision s + 1) now (root_grant s) (generation s) (last_recovery s)
    (<[grant_id g := g]> m) (credentials s).

(** The map a new grant goes into: all the grants, or those that are kept. *)
Definition base (s : AuthorityState) (now : UnixMillis) (m : gmap GrantId Grant) : Prop :=
  (m = grants s \/ m = kept s now) /\ N.of_nat (size m) < MAX_GRANTS.

(** [actor] holds a live assignment from the node whose ceiling covers [sp]. *)
Definition issuable (s : AuthorityState) (actor : PrincipalId) (sp : GrantSpec) (now : UnixMillis) : Prop :=
  exists id a c path, live_lineage s id now = Ok path /\ grants s !! id = Some a /\ subject (spec a) = actor
    /\ issuance (spec a) = Some c /\ covers c sp now = true.

Definition spec_ok (s : AuthorityState) (sp : GrantSpec) (now : UnixMillis) : Prop :=
  state_now s <= now /\ spec_authority sp = authority s /\ spec_validate sp = true /\ now < expires sp.

Definition is_target (s : AuthorityState) (id : GrantId) (expected : Revision) (old : Grant) : Prop :=
  id <> root_grant s /\ grants s !! id = Some old /\ grant_revoked old = false /\ grant_revision old = expected.

Inductive effect (s : AuthorityState) (actor : PrincipalId) (now : UnixMillis) : GrantCommand -> AuthorityState -> Prop :=
  | eff_issue authorization id sp m :
      spec_ok s sp now -> issuable s actor sp now -> grants s !! id = None -> base s now m ->
      effect s actor now (Issue authorization id sp)
        (with_grant s now m (mk_Grant id (revision s + 1) sp (FromNode actor) false))
  | eff_delegate parent p path id sp m :
      spec_ok s sp now -> live_lineage s parent now = Ok path -> grants s !! parent = Some p ->
      subject (spec p) = actor -> narrows sp (spec p) = true -> (length path <= 8)%nat ->
      grants s !! id = None -> base s now m ->
      effect s actor now (Delegate parent id sp)
        (with_grant s now m (mk_Grant id (revision s + 1) sp (Delegated parent) false))
  | eff_revise authorization id expected sp old :
      spec_ok s sp now -> issuable s actor sp now -> is_target s id expected old ->
      effect s actor now (Revise authorization id expected sp)
        (with_grant s now (grants s) (mk_Grant (grant_id old) (revision s + 1) sp (origin old) (grant_revoked old)))
  | eff_revoke authorization id expected old :
      state_now s <= now -> is_target s id expected old ->
      effect s actor now (Revoke authorization id expected)
        (with_grant s now (grants s) (mk_Grant (grant_id old) (revision s + 1) (spec old) (origin old) true)).

Lemma check_spec_Ok s sp now u : check_spec s sp now = Ok u -> spec_ok s sp now.
Proof. unfold check_spec, check_time. intros. inv_ok. bool_simpl. repeat split; done || lia. Qed.

Lemma administrator_Ok s actor id op t now u :
  administrator s actor id op t now true = Ok u -> issuable s actor t now.
Proof.
  unfold administrator, admin_scope. intros. inv_ok. bool_simpl. destruct_and?. bool_simpl.
  destruct (issuance (spec _)) as [c|] eqn:Ec; [|done]. cbn [some_and negb] in *. bool_simpl.
  repeat eexists; try done.
Qed.

Lemma target_Ok s id expected old : target s id expected = Ok old -> is_target s id expected old.
Proof. unfold target. intros. inv_ok. bool_simpl. simplify_eq. repeat split; done. Qed.

Lemma replace_Ok s g now s' : replace s g now = Ok s' -> s' = with_grant s now (grants s) g.
Proof. unfold replace, Revision_next. intros. inv_ok. checked_simpl. by subst. Qed.

Lemma insert_Ok s id sp org now s' :
  insert s id sp org now = Ok s' ->
  grants s !! id = None /\ exists m, base s now m /\ s' = with_grant s now m (mk_Grant id (revision s + 1) sp org false).
Proof.
  unfold insert, Revision_next. intros. inv_ok. bool_simpl. checked_simpl.
  split; [by apply eq_None_not_Some|]. apply replace_Ok in H2. subst.
  destruct (MAX_GRANTS <=? _) eqn:E1 in E0; [destruct (MAX_GRANTS <=? _) eqn:E2 in E0; [done|]|];
    injection E0 as <-; (apply N.leb_gt in E2 || apply N.leb_gt in E1).
  - exists (kept s now). split; [split; [by right|done]|done].
  - exists (grants s). split; [split; [by left|done]|done].
Qed.

Lemma apply_effect s actor command now s' : apply s actor command now = Ok s' -> effect s actor now command s'.
Proof.
  destruct command as [au id sp|parent id sp|au id ex sp|au id ex]; cbn [apply]; unfold issue, delegate, revise, revoke;
    intros Ha.
  - inv_ok. destruct (insert_Ok _ _ _ _ _ _ Ha) as (Hn & m & Hm & ->).
    eapply eff_issue; eauto using check_spec_Ok, administrator_Ok.
  - inv_ok. bool_simpl. destruct_and?. bool_simpl. destruct (insert_Ok _ _ _ _ _ _ Ha) as (Hn & m & Hm & ->).
    eapply eff_delegate; eauto using check_spec_Ok. change MAX_DELEGATION_DEPTH with 8 in *. lia.
  - inv_ok. apply replace_Ok in Ha. unfold Revision_next in *. checked_simpl. subst.
    assert (Ht := target_Ok _ _ _ _ E6). assert (v6 = v0) as -> by (destruct Ht as (_ & ? & _); congruence).
    eapply eff_revise; eauto using check_spec_Ok, administrator_Ok.
  - inv_ok. apply replace_Ok in Ha. unfold Revision_next in *. checked_simpl. subst.
    match goal with E : target s id ex = Ok ?v |- _ => apply target_Ok in E; assert (v = v0) as -> by (destruct E as (_ & ? & _); congruence) end.
    eapply eff_revoke; [|done]. by unfold check_time in *; inv_ok; bool_simpl.
Qed.

Inductive cred_effect (s : AuthorityState) (now : UnixMillis) : CredentialCommand -> AuthorityState -> Prop :=
  | eff_cred_issue authorization c held :
      state_now s <= now -> validate_credential s c = Ok tt -> credential_revision c = 1 -> credentials s !! credential_id c = None ->
      held ⊆ credentials s -> N.of_nat (size held) < MAX_CREDENTIALS ->
      cred_effect s now (IssueCredential authorization c)
        (with_credentials s (revision s + 1) now (<[credential_id c := c]> held))
  | eff_cred_revoke authorization id expected c :
      state_now s <= now -> credentials s !! id = Some c ->
      cred_effect s now (RevokeCredential authorization id expected)
        (with_credentials s (revision s + 1) now
           (<[id := mk_Credential (credential_id c) (scope c) (holder c) (credential_generation c) (credential_revision c + 1)
                      (verifier c) true]> (credentials s))).

Lemma apply_credential_effect s actor command now s' :
  apply_credential s actor command now = Ok s' -> cred_effect s now command s'.
Proof.
  unfold apply_credential, check_time, Revision_next. intros Ha. inv_ok. checked_simpl. bool_simpl. subst.
  destruct command as [au c|au id ex]; inv_ok; bool_simpl; checked_simpl; subst.
  - match goal with E : validate_credential _ _ = Ok ?u |- _ => destruct u end.
    apply eff_cred_issue; try done.
    + by apply eq_None_not_Some.
    + case_match; [apply map_filter_subseteq|done].
    + case_match eqn:E1; [done|]. by apply N.leb_gt in E1.
  - by eapply eff_cred_revoke.
Qed.

(** ** Recovery *)

Definition revoke1 (rev : Revision) (g : Grant) : Grant :=
  if grant_revoked g then g else mk_Grant (grant_id g) rev (spec g) (origin g) true.

Lemma revoke1_idem rev g : revoke1 rev (revoke1 rev g) = revoke1 rev g.
Proof. unfold revoke1. destruct (grant_revoked g) eqn:E; [by rewrite E|done]. Qed.

Lemma revoke_at_Ok root rev m id m' :
  revoke_at root rev m id = Ok m' ->
  is_Some (m !! id) /\ forall x, m' !! x = if bool_decide (x = id /\ x <> root) then revoke1 rev <$> m !! x else m !! x.
Proof.
  unfold revoke_at. intros (g & Hg%ok_or_Ok & Hm)%rbind_Ok. split; [eauto|]. intros x.
  destruct (grant_revoked g) eqn:Er; cbn [negb andb] in Hm.
  { injection Hm as <-. case_bool_decide as E; [|done]. destruct E as [-> _]. rewrite Hg. cbn. unfold revoke1. by rewrite Er. }
  case_bool_decide as Eroot; injection Hm as <-; subst.
  - by rewrite bool_decide_false by naive_solver.
  - destruct (decide (x = id)) as [->|Hx].
    + rewrite bool_decide_true, lookup_insert_eq, Hg by done. cbn. unfold revoke1. by rewrite Er.
    + by rewrite bool_decide_false, lookup_insert_ne by naive_solver.
Qed.

Lemma revoke_all_Ok root rev l : forall m m',
  rfold (revoke_at root rev) m l = Ok m' ->
  (forall id, id ∈ l -> is_Some (m !! id))
  /\ forall x, m' !! x = if bool_decide (x ∈ l /\ x <> root) then revoke1 rev <$> m !! x else m !! x.
Proof.
  induction l as [|id l IH]; intros m m'; cbn [rfold].
  { intros [= <-]. split; [intros ? []%elem_of_nil|]. intros x. rewrite bool_decide_false; [done|]. intros [[]%elem_of_nil _]. }
  intros (m1 & [Hid Hm1]%revoke_at_Ok & [Hl Hm']%IH)%rbind_Ok. split.
  - intros x [->|Hx]%elem_of_cons; [done|]. destruct (Hl _ Hx) as [g Hg]. rewrite Hm1 in Hg. case_bool_decide; [|by eauto].
    apply fmap_Some in Hg as (? & ? & _). eauto.
  - intros x. rewrite Hm', Hm1. 
    rewrite (bool_decide_ext (x ∈ id :: l /\ x <> root) ((x = id \/ x ∈ l) /\ x <> root)) by (by rewrite elem_of_cons).
    destruct (decide (x = root)).
    { by rewrite !bool_decide_false by naive_solver. }
    destruct (decide (x = id)), (decide (x ∈ l)).
    + rewrite !bool_decide_true by auto. destruct (m !! x); [|done]. cbn. by rewrite revoke1_idem.
    + rewrite (bool_decide_false (x ∈ l /\ _)), !bool_decide_true by naive_solver. done.
    + rewrite (bool_decide_false (x = id /\ _)), !bool_decide_true by naive_solver. done.
    + by rewrite !bool_decide_false by naive_solver.
Qed.

Definition evicted (s : AuthorityState) (g : Grant) : Prop :=
  grant_revoked g = false
  /\ (administrative (spec g) = true \/ exists path, lineage s (grant_id g) = Ok path /\ root_grant s ∈ path).

Lemma also_revoked_Ok s l : forall acc acc',
  rfold (also_revoked s) acc l = Ok acc' -> acc ⊆ acc' /\ forall g, g ∈ l -> evicted s g -> grant_id g ∈ acc'.
Proof.
  induction l as [|g l IH]; intros acc acc'; cbn [rfold].
  { intros [= <-]. split; [done|]. by intros ? []%elem_of_nil. }
  intros (acc1 & Ha & [Hsub Hin]%IH)%rbind_Ok.
  assert (Hstep : acc ⊆ acc1 /\ (evicted s g -> grant_id g ∈ acc1)).
  { unfold also_revoked in Ha. destruct (grant_revoked g) eqn:Er.
    { injection Ha as <-. split; [done|]. intros [? _]. congruence. }
    destruct (administrative (spec g)) eqn:Ea; [injection Ha as <-; split; set_solver|].
    apply rbind_Ok in Ha as (path & Hp & Ha). case_bool_decide; injection Ha as <-; [split; set_solver|].
    split; [done|]. intros [_ [?|(path' & Hp' & ?)]]; [congruence|]. rewrite Hp in Hp'. by injection Hp' as <-. }
  destruct Hstep as [H1s H2s]. split; [set_solver|]. intros g' [->|Hg]%elem_of_cons Hev; [|by auto]. set_solver.
Qed.

Record recovered (s : AuthorityState) (command : RecoveryCommand) (now : UnixMillis) (s' : AuthorityState) : Prop := {
  rec_spec : spec_ok s (recovery_administrator command) now;
  rec_administrator : validate_administrator (recovery_administrator command) now = Ok tt;
  rec_credential : validate_initial_credential (recovery_administrator command) (recovery_credential command)
                     (generation s + 1) now = Ok tt;
  rec_owner : check_owner (Recover (revision s)) (recovery_administrator command) (recovery_credential command)
                (recovery_owner command) = Ok tt;
  rec_state : exists revoked previous m,
    root_grant s ∈ revoked /\ (forall id, id ∈ revoked -> is_Some (grants s !! id))
    /\ (forall id g, grants s !! id = Some g -> evicted s g -> grant_id g ∈ revoked)
    /\ (forall x, m !! x = if bool_decide (x = root_grant s)
          then Some (mk_Grant (root_grant s) (revision s + 1) (recovery_administrator command)
                       (FromNode (subject (recovery_administrator command))) false)
          else if bool_decide (x ∈ revoked) then revoke1 (revision s + 1) <$> grants s !! x else grants s !! x)
    /\ s' = mk_AuthorityState (authority s) (revision s + 1) now (root_grant s) (generation s + 1)
               (Some (mk_RecoveryRecord (generation s + 1) (revision s + 1) now (subject (spec previous))
                        (subject (recovery_administrator command)) revoked)) m
               {[credential_id (recovery_credential command) := recovery_credential command]};
}.

Lemma in_order_elem {K V} `{Countable K} (key : K -> bytes) (m : gmap K V) k v :
  (k, v) ∈ in_order key m <-> m !! k = Some v.
Proof. unfold in_order. rewrite merge_sort_Permutation. apply elem_of_map_to_list. Qed.

Lemma in_order_value {K V} `{Countable K} (key : K -> bytes) (m : gmap K V) v :
  v ∈ map snd (in_order key m) <-> exists k, m !! k = Some v.
Proof.
  rewrite list_elem_of_fmap. split.
  - intros ([k v'] & -> & Hk%in_order_elem). eauto.
  - intros [k Hk]. exists (k, v). split; [done|]. by apply in_order_elem.
Qed.

Lemma recover_Ok s command now s' : recover s command now = Ok s' -> recovered s command now s'.
Proof.
  unfold recover, Revision_next. intros Hr. inv_ok. checked_simpl. bool_simpl. subst.
  repeat match goal with H : _ = Ok ?u |- _ => is_var u; match type of u with unit => destruct u end end.
  match goal with H : rfold (also_revoked s) _ _ = Ok ?r |- _ => rename r into extra; apply also_revoked_Ok in H as [Hsub Hev] end.
  match goal with H : rfold (revoke_at _ _) _ _ = Ok ?r |- _ => rename r into m; apply revoke_all_Ok in H as [Hall Hm] end.
  split; [eapply check_spec_Ok; eassumption|assumption|assumption| |].
  { match goal with H : recovery_expected _ = _ |- _ => rewrite <- H end. assumption. }
  match goal with H : grants s !! root_grant s = Some ?g |- _ => rename g into previous end.
  exists ({[root_grant s]} ∪ extra), previous, (<[root_grant s := mk_Grant (root_grant s) (revision s + 1)
    (recovery_administrator command) (FromNode (subject (recovery_administrator command))) false]> m).
  split_and!; [set_solver|intros id Hid; apply Hall; set_solver| | |done].
  - intros id g Hg He. apply elem_of_union_r, Hev; [|done]. apply in_order_value. eauto.
  - intros x. case_bool_decide; [subst; by rewrite lookup_insert_eq|].
    rewrite lookup_insert_ne, Hm by done. rewrite (bool_decide_ext (x ∈ _ /\ _) (x ∈ {[root_grant s]} ∪ extra)); [done|].
    rewrite elem_of_elements. naive_solver.
Qed.

(** ** Well-formed lineages *)

Definition lineaged (m : gmap GrantId Grant) : Prop :=
  forall id, is_Some (m !! id) -> exists p, chain m id p /\ NoDup p /\ (length p <= 9)%nat.

Lemma lineaged_transfer m m' :
  lineaged m -> (forall x, is_Some (m' !! x) -> is_Some (m !! x)) ->
  (forall x p, is_Some (m' !! x) -> chain m x p -> Forall (same_origin m m') p) -> lineaged m'.
Proof.
  intros Hl Hd Ho id Hid. destruct (Hl id (Hd _ Hid)) as (p & Hc & Hnd & Hlen).
  exists p. split; [|done]. eapply chain_transfer; eauto.
Qed.

Lemma same_origin_refl m x g : m !! x = Some g -> same_origin m m x.
Proof. intros. by exists g, g. Qed.

Lemma chain_fresh m id p x g : chain m id p -> m !! x = None -> chain (<[x := g]> m) id p /\ x ∉ p.
Proof.
  intros Hc Hx. pose proof (chain_present _ _ _ Hc) as Hp. rewrite Forall_forall in Hp. split.
  - eapply chain_transfer; [done|]. apply Forall_forall. intros y Hy. destruct (Hp _ Hy) as [gy Hgy].
    exists gy, gy. split_and!; [done| |done]. rewrite lookup_insert_ne by congruence. done.
  - intros Hin. destruct (Hp _ Hin). congruence.
Qed.

Lemma lineaged_issue m id g issuer :
  lineaged m -> m !! id = None -> origin g = FromNode issuer -> lineaged (<[id := g]> m).
Proof.
  intros Hl Hn Ho x Hx. destruct (decide (x = id)) as [->|Hne].
  - exists [id]. split_and!; [econstructor; [by rewrite lookup_insert_eq|done]|apply NoDup_singleton|cbn; lia].
  - rewrite lookup_insert_ne in Hx by done. destruct (Hl _ Hx) as (p & Hc & ? & ?). exists p. split; [|done].
    by apply chain_fresh.
Qed.

Lemma lineaged_delegate m id g parent p :
  lineaged m -> m !! id = None -> origin g = Delegated parent -> chain m parent p -> NoDup p -> (length p <= 8)%nat ->
  lineaged (<[id := g]> m).
Proof.
  intros Hl Hn Ho Hp Hnd Hlen x Hx. destruct (decide (x = id)) as [->|Hne].
  - destruct (chain_fresh _ _ _ _ g Hp Hn) as [Hp' Hni]. exists (id :: p).
    split_and!; [econstructor; [by rewrite lookup_insert_eq|done..]|by constructor|cbn; lia].
  - rewrite lookup_insert_ne in Hx by done. destruct (Hl _ Hx) as (q & Hc & ? & ?). exists q. split; [|done].
    by apply chain_fresh.
Qed.

Lemma lineaged_update m m' :
  lineaged m -> (forall x, is_Some (m' !! x) <-> is_Some (m !! x)) ->
  (forall x g g', m !! x = Some g -> m' !! x = Some g' -> parent_of g' = parent_of g) -> lineaged m'.
Proof.
  intros Hl Hd Ho. apply (lineaged_transfer m); [done|by apply Hd|].
  intros x p _ Hc. apply chain_present in Hc. eapply Forall_impl; [exact Hc|]. intros y [g Hg].
  destruct (proj2 (Hd y)) as [g' Hg']; [by eauto|]. exists g, g'. split_and!; [done..|]. symmetry. eauto.
Qed.

(** *** Pruning *)

Lemma dead_chain s id now p :
  lineage s id = Ok p ->
  dead s id now = existsb (fun x => match grants s !! x with
      | Some g => grant_revoked g || (expires (spec g) <=? N.max now (state_now s)) | None => true end) p.
Proof. intros E. unfold dead. by rewrite E. Qed.

Lemma alive_tail s id now p x :
  lineage s id = Ok p -> dead s id now = false -> x ∈ p -> dead s x now = false.
Proof.
  intros Hp Hd Hx. rewrite (dead_chain _ _ _ _ Hp) in Hd. apply lineage_Ok in Hp as (Hc & Hnd & Hl).
  destruct (chain_tail _ _ _ _ Hc Hx) as (pre & suf & -> & Hc').
  rewrite existsb_app in Hd. apply orb_false_iff in Hd as [_ Hd].
  rewrite (dead_chain _ _ _ suf); [done|]. apply lineage_Ok. apply NoDup_app in Hnd as (_ & _ & ?).
  rewrite length_app in Hl. split_and!; [done..|lia].
Qed.

Lemma kept_lookup s now x g :
  kept s now !! x = Some g <-> grants s !! x = Some g /\ (x = root_grant s \/ dead s x now = false).
Proof.
  unfold kept. rewrite map_lookup_filter_Some. cbn [fst]. rewrite andb_false_iff, negb_false_iff, bool_decide_eq_true. done.
Qed.

Lemma lineaged_kept s now :
  lineaged (grants s) -> (exists g i, grants s !! root_grant s = Some g /\ origin g = FromNode i) -> lineaged (kept s now).
Proof.
  intros Hl (r & i & Hr & Ho). apply (lineaged_transfer (grants s)); [done|intros x [g [Hg _]%kept_lookup]; eauto|].
  intros x p [g [Hg Hx]%kept_lookup] Hc.
  destruct (Hl x) as (p' & Hc' & Hnd & Hlen); [by eauto|]. rewrite <- (chain_det _ _ _ _ Hc Hc') in *.
  apply Forall_forall. intros y Hy. pose proof (chain_present _ _ _ Hc) as Hp. rewrite Forall_forall in Hp.
  destruct (Hp _ Hy) as [gy Hgy]. exists gy, gy. split_and!; [done| |done]. apply kept_lookup. split; [done|].
  destruct Hx as [->|Hd].
  - left. inversion Hc; simplify_eq; [|congruence]. by apply list_elem_of_singleton in Hy.
  - right. apply (alive_tail s x now p); [apply lineage_Ok; split_and!; assumption|assumption|assumption].
Qed.
End Step.
