(* ===== verification/GrantsSafe.v ===== *)
(** * What a node authority promises

    The well-formedness that every operation of [Grants] keeps, and the properties
    of the reachable authorities: a snapshot restores the state it was taken of,
    rights stay within the ceilings of the administrators that were installed,
    recorded evidence identifies the grants it names, recovery evicts every earlier
    administrator, and a session without a passkey changes only the execution
    grants of its own principal. *)

From stdpp Require Import strings sorting.
From S2P Require Import Prelude Xet XetChunk Webauthn Grants GrantsStep.

#[local] Open Scope N_scope.

(** ** Well-formed authorities *)

Section Safe.
Context `{Blake3} `{Gearhash} `{P256}.

Definition grant_ok (s : AuthorityState) (id : GrantId) (g : Grant) : Prop :=
  grant_id g = id /\ spec_authority (spec g) = authority s /\ spec_validate (spec g) = true
  /\ 1 <= grant_revision g <= revision s.

Definition credential_ok (s : AuthorityState) (id : CredentialId) (c : Credential) : Prop :=
  credential_id c = id /\ validate_credential s c = Ok tt.

(** A revoked id has no grant, a revoked one, or one issued since. *)
Definition stays_revoked (s : AuthorityState) (since : Revision) (id : GrantId) : Prop :=
  id = root_grant s \/ forall g, grants s !! id = Some g -> grant_revoked g = true \/ since < grant_revision g.

Definition recovery_ok (s : AuthorityState) : Prop :=
  match last_recovery s with
  | None => generation s = 1
  | Some r =>
      1 < generation s /\ record_generation r = generation s /\ generation s <= record_revision r <= revision s
      /\ record_at r <= state_now s /\ root_grant s ∈ record_revoked r
      /\ N.of_nat (size (record_revoked r)) <= MAX_GRANTS
      /\ forall id, id ∈ record_revoked r -> stays_revoked s (record_revision r) id
  end.

Record auth_ok (s : AuthorityState) : Prop := {
  ok_grants : forall id g, grants s !! id = Some g -> grant_ok s id g;
  ok_lineages : lineaged (grants s);
  ok_size : N.of_nat (size (grants s)) <= MAX_GRANTS;
  ok_root : exists g issuer, grants s !! root_grant s = Some g /\ origin g = FromNode issuer
              /\ generation s <= grant_revision g /\ grant_revoked g = false;
  ok_credentials : forall id c, credentials s !! id = Some c -> credential_ok s id c;
  ok_credentials_size : (0 < size (credentials s))%nat /\ N.of_nat (size (credentials s)) <= MAX_CREDENTIALS;
  ok_generation : 1 <= generation s <= revision s;
  ok_recovery : recovery_ok s;
}.

Lemma validate_credential_Ok s c :
  validate_credential s c = Ok tt <->
  spec_authority (scope c) = authority s /\ credential_generation c = generation s /\ spec_validate (scope c) = true
  /\ admits (holder c) (scope c) = true /\ 1 <= credential_revision c <= revision s.
Proof.
  unfold validate_credential. destruct (_ || _) eqn:E.
  - split; [done|]. intros (E1 & E2 & E3 & E4 & E5). exfalso. rewrite E3, E4 in E. cbn [negb] in E.
    rewrite !orb_false_r, !orb_true_iff, !negb_true_iff, bool_decide_eq_false, N.eqb_neq, N.eqb_eq, N.ltb_lt in E.
    destruct E as [[[?|?]|?]|?]; try done; lia.
  - split; [|done]. intros _. bool_simpl. repeat split; try done; lia.
Qed.

Lemma credential_ok_later s s' id c :
  credential_ok s id c -> authority s' = authority s -> generation s' = generation s -> revision s <= revision s' ->
  credential_ok s' id c.
Proof.
  intros [Hid (E1 & E2 & E3 & E4 & E5)%validate_credential_Ok] Ha Hg Hr. split; [done|].
  apply validate_credential_Ok. rewrite Ha, Hg. repeat split; try done; lia.
Qed.

(** ** Every operation keeps it *)

Lemma with_grant_ok s now m g :
  auth_ok s -> state_now s <= now ->
  (forall x y, m !! x = Some y -> grants s !! x = Some y) -> m !! root_grant s = grants s !! root_grant s ->
  grant_id g <> root_grant s -> spec_authority (spec g) = authority s -> spec_validate (spec g) = true ->
  grant_revision g = revision s + 1 -> lineaged (<[grant_id g := g]> m) ->
  N.of_nat (size (<[grant_id g := g]> m)) <= MAX_GRANTS -> auth_ok (with_grant s now m g).
Proof.
  intros Hok Hnow Hm Hroot Hid Ha Hv Hr Hl Hs. destruct Hok as [Og Ol Os Or Oc Ocs Ogen Orec].
  split; cbn [with_grant grants authority revision state_now root_grant generation last_recovery credentials]; try done; [..|lia|].
  - intros x y. destruct (decide (x = grant_id g)) as [->|Hx].
    + rewrite lookup_insert_eq. intros [= <-]. repeat split; cbn; try done; lia.
    + rewrite lookup_insert_ne by done. intros (? & ? & ? & ?)%Hm%Og. repeat split; cbn; try done; lia.
  - rewrite lookup_insert_ne, Hroot by done. done.
  - intros x c Hc. eapply credential_ok_later; [by apply Oc|cbn; done || lia..].
  - unfold recovery_ok in *. cbn [with_grant last_recovery generation revision state_now root_grant] in *.
    destruct (last_recovery s) as [r|]; [|done]. destruct Orec as (? & ? & ? & ? & ? & ? & Hst). split_and!; try done; try lia.
    intros x Hx. destruct (Hst x Hx) as [?|Hg]; [by left|right]. cbn [with_grant grants]. intros y.
    destruct (decide (x = grant_id g)) as [->|Hne].
    + rewrite lookup_insert_eq. intros [= <-]. right. lia.
    + rewrite lookup_insert_ne by done. intros ?%Hm. by apply Hg.
Qed.

Lemma size_insert_le {K A} `{Countable K} (m : gmap K A) k a : (size (<[k := a]> m) <= S (size m))%nat.
Proof. rewrite map_size_insert. destruct (m !! k); cbn; lia. Qed.
Lemma size_insert_same {K A} `{Countable K} (m : gmap K A) k a b : m !! k = Some b -> size (<[k := a]> m) = size m.
Proof. intros E. rewrite map_size_insert. by rewrite E. Qed.

Lemma base_lookup s now m x y : base s now m -> m !! x = Some y -> grants s !! x = Some y.
Proof. intros [[->| ->] _]; [done|]. by intros [? _]%kept_lookup. Qed.
Lemma base_root s now m : auth_ok s -> base s now m -> m !! root_grant s = grants s !! root_grant s.
Proof.
  intros Hok [[->| ->] _]; [done|]. destruct (ok_root _ Hok) as (g & i & Hg & _). rewrite Hg. apply kept_lookup. by auto.
Qed.
Lemma base_lineaged s now m : auth_ok s -> base s now m -> lineaged m.
Proof.
  intros Hok [[->| ->] _]; [by apply ok_lineages|]. apply lineaged_kept; [by apply ok_lineages|].
  destruct (ok_root _ Hok) as (g & i & Hg & Ho & _). eauto.
Qed.
Lemma base_size s now m id g : base s now m -> N.of_nat (size (<[id := g]> m)) <= MAX_GRANTS.
Proof.
  intros [_ Hs]. pose proof (size_insert_le m id g). unfold MAX_GRANTS in *. lia.
Qed.

Lemma update_grant_ok s now id expected old g :
  auth_ok s -> state_now s <= now -> is_target s id expected old ->
  grant_id g = grant_id old -> origin g = origin old -> grant_revision g = revision s + 1 ->
  spec_authority (spec g) = authority s -> spec_validate (spec g) = true -> auth_ok (with_grant s now (grants s) g).
Proof.
  intros Hok Hnow (Hne & Hold & _ & _) Hid Ho Hrev Ha Hv.
  destruct (ok_grants _ Hok _ _ Hold) as (Hoid & _). rewrite Hoid in Hid.
  apply with_grant_ok; try done; [by rewrite Hid| |].
  - apply (lineaged_update (grants s)); [by apply ok_lineages| |]; intros x.
    + rewrite Hid. destruct (decide (x = id)) as [->|]; [|by rewrite lookup_insert_ne]. rewrite lookup_insert_eq, Hold.
      by split; eauto.
    + rewrite Hid. intros y y'. destruct (decide (x = id)) as [->|]; [|rewrite lookup_insert_ne by done; congruence].
      rewrite lookup_insert_eq, Hold. intros [= <-] [= <-]. unfold parent_of. by rewrite Ho.
  - rewrite Hid, (size_insert_same _ _ _ _ Hold). by apply ok_size.
Qed.

Lemma live_lineage_Ok s id now path : live_lineage s id now = Ok path -> lineage s id = Ok path.
Proof. unfold live_lineage. intros. inv_ok. by subst. Qed.

Lemma live_alive s id now path : live_lineage s id now = Ok path -> dead s id now = false.
Proof.
  intros Hl. pose proof (live_lineage_Ok _ _ _ _ Hl) as Hp. rewrite (dead_chain _ _ _ _ Hp).
  unfold live_lineage in Hl. apply rbind_Ok in Hl as (p & Hp' & ([] & Hf & _)%rbind_Ok).
  rewrite Hp in Hp'. injection Hp' as <-. clear Hp. induction path as [|x path IH]; [done|]. cbn [rfold existsb] in *.
  apply rbind_Ok in Hf as ([] & Hx & Hf). rewrite (IH Hf), orb_false_r.
  unfold live_link in Hx. apply rbind_Ok in Hx as (g & Hg%ok_or_Ok & Hx). rewrite Hg.
  destruct (grant_revoked g); [done|]. destruct (_ || _) eqn:E in Hx; [done|]. apply orb_false_iff in E as [_ E]. exact E.
Qed.

Lemma effect_ok s actor now command s' : auth_ok s -> effect s actor now command s' -> auth_ok s'.
Proof.
  intros Hok [au id sp m (Hnow & Ha & Hv & _) _ Hn Hb|parent p path id sp m (Hnow & Ha & Hv & _) Hl Hp _ _ Hlen Hn Hb
             |au id ex sp old (Hnow & Ha & Hv & _) _ Ht|au id ex old Hnow Ht].
  - assert (Hm : m !! id = None) by (destruct (m !! id) eqn:E; [by rewrite (base_lookup _ _ _ _ _ Hb E) in Hn|done]).
    apply with_grant_ok; try done; cbn; [by intros; eapply base_lookup|by eapply base_root| | |by eapply base_size].
    + intros ->. destruct (ok_root _ Hok) as (? & ? & ? & _). congruence.
    + eapply lineaged_issue; [by eapply base_lineaged|done..].
  - assert (Hm : m !! id = None) by (destruct (m !! id) eqn:E; [by rewrite (base_lookup _ _ _ _ _ Hb E) in Hn|done]).
    pose proof (base_lineaged _ _ _ Hok Hb) as Hlm.
    assert (Hpm : is_Some (m !! parent)).
    { destruct Hb as [[->| ->] _]; [by eauto|]. exists p. apply kept_lookup. split; [done|right]. by eapply live_alive. }
    destruct (Hlm _ Hpm) as (q & Hq & Hnd & _).
    assert (q = path) as ->.
    { apply live_lineage_Ok, lineage_Ok in Hl as (Hc & _). eapply chain_det; [|exact Hc].
      eapply chain_transfer; [exact Hq|]. pose proof (chain_present _ _ _ Hq) as Hf. eapply Forall_impl; [exact Hf|].
      intros y [gy Hy]. exists gy, gy. split_and!; [done|by eapply base_lookup|done]. }
    apply with_grant_ok; try done; cbn; [by intros; eapply base_lookup|by eapply base_root| | |by eapply base_size].
    + intros ->. destruct (ok_root _ Hok) as (? & ? & ? & _). congruence.
    + eapply lineaged_delegate; [done|done|cbn; done|done|done|done].
  - by eapply update_grant_ok.
  - pose proof Ht as (_ & Hold & _). destruct (ok_grants _ Hok _ _ Hold) as (? & ? & ? & ?). by eapply update_grant_ok.
Qed.

Lemma with_credentials_ok s now cs :
  auth_ok s -> state_now s <= now ->
  (forall id c, cs !! id = Some c -> credential_ok (with_credentials s (revision s + 1) now cs) id c) ->
  (0 < size cs)%nat -> N.of_nat (size cs) <= MAX_CREDENTIALS ->
  auth_ok (with_credentials s (revision s + 1) now cs).
Proof.
  intros [Og Ol Os Or Oc Ocs Ogen Orec] Hnow Hcs H0s Hs.
  split; cbn [with_credentials grants authority revision state_now root_grant generation last_recovery credentials]; try done; [|lia|].
  - intros x g (? & ? & ? & ?)%Og. repeat split; cbn; try done; lia.
  - unfold recovery_ok in *. cbn [with_credentials last_recovery generation revision state_now root_grant] in *.
    destruct (last_recovery s) as [r|]; [|done]. destruct Orec as (? & ? & ? & ? & ? & ? & Hst). split_and!; try done; lia.
Qed.

Lemma cred_effect_ok s now command s' : auth_ok s -> cred_effect s now command s' -> auth_ok s'.
Proof.
  intros Hok [au c held Hnow Hv Hr Hn Hsub Hs|au id ex c Hnow Hc]; apply with_credentials_ok; try done.
  - intros x d. destruct (decide (x = credential_id c)) as [->|Hx].
    + rewrite lookup_insert_eq. intros [= <-]. eapply (credential_ok_later s); [by split|cbn; done || lia..].
    + rewrite lookup_insert_ne by done. intros Hd. eapply (credential_ok_later s); [|cbn; done || lia..].
      apply (ok_credentials _ Hok). by eapply lookup_weaken.
  - rewrite map_size_insert. destruct (held !! _) eqn:E; cbn; [|lia].
    assert (size held <> 0%nat); [|lia]. intros ?%map_size_empty_inv. subst. done.
  - pose proof (size_insert_le held (credential_id c) c). unfold MAX_CREDENTIALS in *. lia.
  - intros x d. destruct (decide (x = id)) as [->|Hx].
    + rewrite lookup_insert_eq. intros [= <-]. destruct (ok_credentials _ Hok _ _ Hc) as [Hid Hv].
      split; [done|]. apply validate_credential_Ok in Hv as (? & ? & ? & ? & ?). apply validate_credential_Ok.
      cbn. repeat split; try done; lia.
    + rewrite lookup_insert_ne by done. intros Hd. eapply (credential_ok_later s); [|cbn; done || lia..].
      by apply (ok_credentials _ Hok).
  - rewrite (size_insert_same _ _ _ _ Hc). apply (ok_credentials_size _ Hok).
  - rewrite (size_insert_same _ _ _ _ Hc). apply (ok_credentials_size _ Hok).
Qed.

(** The first credential of a generation is valid in the state that holds it. *)
Lemma initial_credential_Ok admin c gen now :
  validate_initial_credential admin c gen now = Ok tt ->
  spec_authority (scope c) = spec_authority admin /\ credential_generation c = gen /\ spec_validate (scope c) = true
  /\ admits (holder c) (scope c) = true /\ credential_revision c = 1 /\ subject (scope c) = subject admin.
Proof.
  unfold validate_initial_credential, bearer. intros Hv. inv_ok. bool_simpl. repeat split; try done.
  by destruct (holder c).
Qed.

Lemma administrator_valid admin now :
  validate_administrator admin now = Ok tt ->
  spec_validate admin = true /\ exists c, issuance admin = Some c /\ covers c admin now = true.
Proof.
  unfold validate_administrator. intros Hv. inv_ok. bool_simpl. split; [done|].
  destruct (issuance admin) as [c|]; [|done]. by exists c.
Qed.

Lemma bootstrap_ok id pin admin credential owner now s :
  bootstrap id pin admin credential owner now = Ok s -> auth_ok s.
Proof.
  unfold bootstrap. intros Hb. inv_ok. subst.
  repeat match goal with H : _ = Ok ?u |- _ => is_var u; match type of u with unit => destruct u end end.
  match goal with H : validate_initial_credential _ _ _ _ = Ok _ |- _ => apply initial_credential_Ok in H as (? & ? & ? & ? & ? & ?) end.
  match goal with H : validate_administrator _ _ = Ok _ |- _ => apply administrator_valid in H as [Hv _] end.
  split; cbn [grants authority revision state_now root_grant generation last_recovery credentials].
  - intros x g [<- <-]%lookup_singleton_Some. repeat split; cbn; try done; lia.
  - apply (lineaged_issue ∅ _ _ (subject admin)); [|done|done]. intros x [? []%lookup_empty_Some].
  - rewrite map_size_singleton. unfold MAX_GRANTS. lia.
  - rewrite lookup_singleton_eq. repeat eexists; cbn; done || lia.
  - intros x c [<- <-]%lookup_singleton_Some. split; [done|]. apply validate_credential_Ok. cbn. repeat split; try done; lia.
  - rewrite map_size_singleton. unfold MAX_CREDENTIALS. lia.
  - lia.
  - done.
Qed.

Lemma revoke1_id rev g : grant_id (revoke1 rev g) = grant_id g.
Proof. unfold revoke1. by destruct (grant_revoked g). Qed.
Lemma revoke1_spec rev g : spec (revoke1 rev g) = spec g.
Proof. unfold revoke1. by destruct (grant_revoked g). Qed.
Lemma revoke1_origin rev g : origin (revoke1 rev g) = origin g.
Proof. unfold revoke1. by destruct (grant_revoked g). Qed.
Lemma revoke1_revoked rev g : grant_revoked (revoke1 rev g) = true.
Proof. unfold revoke1. by destruct (grant_revoked g) eqn:E. Qed.
Lemma revoke1_revision rev g : grant_revision (revoke1 rev g) = grant_revision g \/ grant_revision (revoke1 rev g) = rev.
Proof. unfold revoke1. destruct (grant_revoked g); auto. Qed.

(** A grant after a recovery: the new root, a revoked one, or one that was left alone. *)
Lemma recovered_lookup (s : AuthorityState) (m : gmap GrantId Grant) (root : Grant) (revoked : gset GrantId) x g :
  (forall x, m !! x = if bool_decide (x = root_grant s) then Some root
     else if bool_decide (x ∈ revoked) then revoke1 (revision s + 1) <$> grants s !! x else grants s !! x) ->
  m !! x = Some g ->
  x = root_grant s /\ g = root
  \/ x <> root_grant s /\ exists old, grants s !! x = Some old
     /\ (x ∈ revoked /\ g = revoke1 (revision s + 1) old \/ x ∉ revoked /\ g = old).
Proof.
  intros Hm. rewrite Hm. case_bool_decide; [intros [= <-]; by left|]. case_bool_decide.
  - intros (old & Ho & ->)%fmap_Some. right. split; [done|]. exists old. by auto.
  - intros Hg. right. split; [done|]. exists g. by auto.
Qed.

Lemma recovered_dom (s : AuthorityState) (m : gmap GrantId Grant) (root : Grant) (revoked : gset GrantId) :
  (forall x, m !! x = if bool_decide (x = root_grant s) then Some root
     else if bool_decide (x ∈ revoked) then revoke1 (revision s + 1) <$> grants s !! x else grants s !! x) ->
  is_Some (grants s !! root_grant s) -> forall x, is_Some (m !! x) <-> is_Some (grants s !! x).
Proof.
  intros Hm Hr x. rewrite Hm. case_bool_decide; [subst; split; eauto|]. case_bool_decide; [by rewrite fmap_is_Some|done].
Qed.

Lemma recovered_ok s command now s' : auth_ok s -> recovered s command now s' -> auth_ok s'.
Proof.
  intros Hok [(Hnow & Ha & Hv & _) Hadmin Hcred _ (revoked & prev & m & Hroot & Hall & Hev & Hm & ->)].
  apply initial_credential_Ok in Hcred as (? & ? & ? & ? & ? & ?).
  destruct Hok as [Og Ol Os (r & i & Hr & Hro & Hrg & _) Oc Ocs Ogen Orec].
  pose proof (recovered_dom _ _ _ _ Hm (ltac:(eauto))) as Hdom.
  assert (Hsize : size m = size (grants s)).
  { rewrite <- !size_dom. f_equal. apply set_eq. intros x. rewrite !elem_of_dom. apply Hdom. }
  assert (Hrs : N.of_nat (size revoked) <= MAX_GRANTS).
  { assert (Hle : (size revoked <= size (dom (grants s)))%nat); [|rewrite size_dom in *; unfold MAX_GRANTS in *; lia].
    apply subseteq_size. intros x Hx. apply elem_of_dom. by apply Hall. }
  split; cbn [grants authority revision state_now root_grant generation last_recovery credentials].
  - intros x g Hg. destruct (recovered_lookup _ _ _ _ _ _ Hm Hg) as [[-> ->]|(_ & old & (? & ? & ? & ?)%Og & Hcase)].
    + repeat split; cbn; try done; lia.
    + pose proof (revoke1_revision (revision s + 1) old).
      destruct Hcase as [[_ ->]|[_ ->]]; repeat split; cbn; rewrite ?revoke1_id, ?revoke1_spec; try done; lia.
  - apply (lineaged_update (grants s)); [done|exact Hdom|]. intros x g g' Hg Hg'.
    destruct (recovered_lookup _ _ _ _ _ _ Hm Hg') as [[-> ->]|(_ & old & Ho & [[_ ->]|[_ ->]])]; simplify_eq.
    + unfold parent_of. by rewrite Hro.
    + unfold parent_of. by rewrite revoke1_origin.
    + done.
  - by rewrite Hsize.
  - rewrite Hm, bool_decide_true by done. repeat eexists; cbn; done || lia.
  - intros x c [<- <-]%lookup_singleton_Some. split; [done|]. apply validate_credential_Ok. cbn.
    repeat split; try congruence; try done; lia.
  - rewrite map_size_singleton. unfold MAX_CREDENTIALS. lia.
  - lia.
  - unfold recovery_ok. cbn. split_and!; try done; try lia.
    intros x Hx. destruct (decide (x = root_grant s)) as [|Hne]; [by left|right]. cbn. intros g Hg.
    destruct (recovered_lookup _ _ _ _ _ _ Hm Hg) as [[? _]|(_ & old & Ho & [[_ ->]|[? _]])]; [done| |done].
    left. apply revoke1_revoked.
Qed.

(** ** Reachable authorities *)

Inductive Change :=
  | ChGrant (actor : PrincipalId) (command : GrantCommand) (now : UnixMillis)
  | ChCredential (actor : PrincipalId) (command : CredentialCommand) (now : UnixMillis)
  | ChAdministration (record : AdministrationRecord)
  | ChRecover (command : RecoveryCommand) (now : UnixMillis).

Definition change (s : AuthorityState) (c : Change) : result AuthorityState AuthorityError :=
  match c with
  | ChGrant actor command now => apply s actor command now
  | ChCredential actor command now => apply_credential s actor command now
  | ChAdministration record => apply_administration s record
  | ChRecover command now => recover s command now
  end.

Definition changes (s : AuthorityState) (cs : list Change) : result AuthorityState AuthorityError := rfold change s cs.

(** A change is one grant, credential or ownership effect. *)
Inductive stepped (s : AuthorityState) : Change -> AuthorityState -> Prop :=
  | st_grant c actor now command s' : effect s actor now command s' -> stepped s c s'
  | st_credential c now command s' : cred_effect s now command s' -> stepped s c s'
  | st_recovered command now s' : recovered s command now s' -> stepped s (ChRecover command now) s'.

Lemma apply_administration_Ok s record s' :
  apply_administration s record = Ok s' ->
  match record_command record with
  | AdminGrant c => effect s (cr_actor (record_caller_of record)) (cr_at (record_caller_of record)) c s'
  | AdminCredential c => cred_effect s (cr_at (record_caller_of record)) c s'
  end.
Proof.
  unfold apply_administration. intros Ha.
  apply rbind_Ok in Ha as (sc & _ & (u & _ & Ha)%rbind_Ok).
  destruct (record_command record); apply rbind_Ok in Ha as (v & _ & Ha); eauto using apply_effect, apply_credential_effect.
Qed.

Lemma change_stepped s c s' : change s c = Ok s' -> stepped s c s'.
Proof.
  destruct c as [a c n|a c n|r|c n]; cbn [change]; intros Hc.
  - eapply st_grant, apply_effect, Hc.
  - eapply st_credential, apply_credential_effect, Hc.
  - apply apply_administration_Ok in Hc. destruct (record_command r); [by eapply st_grant|by eapply st_credential].
  - eapply st_recovered, recover_Ok, Hc.
Qed.

Lemma stepped_ok s c s' : auth_ok s -> stepped s c s' -> auth_ok s'.
Proof. intros Hok []; eauto using effect_ok, cred_effect_ok, recovered_ok. Qed.

(** What every change keeps holds along a history. *)
Lemma changes_ind (P : AuthorityState -> Prop) s cs s' :
  (forall t c t', c ∈ cs -> auth_ok t -> P t -> stepped t c t' -> P t') ->
  auth_ok s -> P s -> changes s cs = Ok s' -> auth_ok s' /\ P s'.
Proof.
  revert s. induction cs as [|c cs IH]; intros s Hstep Hok Hp; cbn [changes rfold]; [by intros [= <-]|].
  intros (s1 & Hc%change_stepped & Hcs)%rbind_Ok.
  eapply IH; [|by eapply stepped_ok|eapply Hstep; [constructor|done..]|exact Hcs].
  intros t d t' Hd. apply Hstep. by constructor.
Qed.

Lemma changes_ok s cs s' : auth_ok s -> changes s cs = Ok s' -> auth_ok s'.
Proof. intros Hok Hc. by apply (changes_ind (fun _ => True) s cs s'). Qed.

(** ** Snapshots *)

Lemma rfold_inserts {K V} `{Countable K} (key : V -> K) (f : gmap K V -> V -> result (gmap K V) AuthorityError) l : forall m0,
  (forall m v, v ∈ l -> m !! key v = None -> f m v = Ok (<[key v := v]> m)) ->
  NoDup (map key l) -> (forall v, v ∈ l -> m0 !! key v = None) ->
  exists m, rfold f m0 l = Ok m /\ forall x v, m !! x = Some v <-> m0 !! x = Some v \/ (v ∈ l /\ key v = x).
Proof.
  induction l as [|a l IH]; intros m0 Hf Hnd Hn; cbn [rfold].
  { exists m0. split; [done|]. intros x v. split; [by left|]. intros [?|[[]%elem_of_nil _]]; done. }
  rewrite Hf by (by constructor || apply Hn; by constructor). cbn [rbind]. cbn [map] in Hnd.
  apply NoDup_cons in Hnd as [Ha Hnd].
  destruct (IH (<[key a := a]> m0)) as (m & Hm & Hlook).
  - intros m v Hv. apply Hf. by constructor.
  - done.
  - intros v Hv. rewrite lookup_insert_ne; [apply Hn; by constructor|]. intros E. apply Ha. rewrite E. by apply list_elem_of_fmap_2.
  - exists m. split; [done|]. intros x v. rewrite Hlook, elem_of_cons. destruct (decide (x = key a)) as [->|Hx].
    + rewrite lookup_insert_eq. split.
      * intros [[= ->]|[Hv Hk]]; [by auto|]. by auto.
      * intros [E|[[->|Hv] Hk]]; [by rewrite Hn in E by constructor|by left|by right].
    + rewrite lookup_insert_ne by done. split; [naive_solver|]. intros [?|[[->|?] ?]]; by auto.
Qed.

Lemma in_order_keys {K V} `{Countable K} (key : K -> bytes) (m : gmap K V) :
  NoDup (map fst (in_order key m)).
Proof. unfold in_order. rewrite merge_sort_Permutation. apply NoDup_fst_map_to_list. Qed.

Lemma in_order_length {K V} `{Countable K} (key : K -> bytes) (m : gmap K V) :
  length (map snd (in_order key m)) = size m.
Proof. rewrite length_map. unfold in_order. rewrite merge_sort_Permutation. apply length_map_to_list. Qed.

Lemma restored {K V} `{Countable K} (order : K -> bytes) (key : V -> K) f (m : gmap K V) :
  (forall k v, m !! k = Some v -> key v = k) ->
  (forall m' k v, m !! k = Some v -> m' !! key v = None -> f m' v = @Ok _ AuthorityError (<[key v := v]> m')) ->
  rfold f ∅ (map snd (in_order order m)) = Ok m.
Proof.
  intros Hk Hf. destruct (rfold_inserts key f (map snd (in_order order m)) ∅) as (m' & -> & Hm').
  - intros m' v [k Hv]%in_order_value. by eapply Hf.
  - replace (map key (map snd (in_order order m))) with (map fst (in_order order m)); [apply in_order_keys|].
    rewrite map_map. apply map_ext_in. intros [k v] Hin%list_elem_of_In%in_order_elem. cbn. symmetry. by apply Hk.
  - intros. apply lookup_empty.
  - f_equal. apply map_eq. intros x. apply option_eq. intros v. rewrite Hm', lookup_empty, in_order_value. split.
    + intros [?|[[k Hv] <-]]; [done|]. by rewrite (Hk _ _ Hv).
    + intros Hv. right. split; [by eauto|by apply Hk].
Qed.

Lemma validate_recovery_Ok s : auth_ok s -> validate_recovery s = Ok tt.
Proof.
  intros [_ _ _ (g & i & Hg & Ho & Hr & _) _ _ Hgen Hrec]. unfold validate_recovery. rewrite Hg. cbn [none_or some_and].
  rewrite Ho. rewrite (proj2 (N.eqb_neq _ _)), !(proj2 (N.ltb_ge _ _)) by lia. cbn [orb negb].
  unfold recovery_ok in Hrec. destruct (last_recovery s) as [r|]; [|by rewrite Hrec].
  destruct Hrec as (E1 & E2 & [E3 E4] & E5 & E6 & E7 & Hst).
  rewrite E2, N.eqb_refl, (proj2 (N.ltb_lt _ _) E1), (proj2 (N.leb_le _ _) E3), (proj2 (N.leb_le _ _) E4),
    (proj2 (N.leb_le _ _) E5), (proj2 (N.leb_le _ _) E7), bool_decide_true by done. cbn [andb].
  unfold all_of. rewrite (proj2 (forallb_forall _ _)); [done|].
  intros x Hx%list_elem_of_In%elem_of_elements. apply orb_true_iff. destruct (Hst x Hx) as [->|Hs]; [left; by apply bool_decide_eq_true|].
  right. destruct (grants s !! x) as [y|]; [|done]. cbn. apply orb_true_iff. rewrite N.ltb_lt. by apply Hs.
Qed.

Lemma snapshot_restores s : auth_ok s -> restore (snapshot s) = Ok s.
Proof.
  intros Hok. unfold restore. cbn [snapshot snap_grants snap_credentials]. rewrite !in_order_length.
  destruct (ok_credentials_size _ Hok) as [Hc0 Hc1]. pose proof (ok_size _ Hok) as Hg1.
  assert (Hg0 : size (grants s) <> 0%nat).
  { intros E%map_size_empty_inv. destruct (ok_root _ Hok) as (g & i & Hg & _). by rewrite E in Hg. }
  rewrite !(proj2 (N.eqb_neq _ _)), !(proj2 (N.ltb_ge _ _)) by (done || lia). cbn [orb].
  rewrite (restored credential_bytes credential_id restore_credential).
  2: { intros k v Hv. apply (ok_credentials _ Hok _ _ Hv). }
  2: { intros m k v _ E. unfold restore_credential. by rewrite E, bool_decide_false by (by intros []). }
  cbn [rbind]. rewrite (restored grant_bytes grant_id).
  2: { intros k v Hv. apply (ok_grants _ Hok _ _ Hv). }
  2: { intros m k v (E1 & E2 & E3 & E4)%(ok_grants _ Hok) E. unfold restore_grant. cbn [snapshot snap_authority snap_revision].
       rewrite E, E3, bool_decide_true by done. rewrite (proj2 (N.eqb_neq _ _)), (proj2 (N.ltb_ge _ _)) by lia.
       by rewrite bool_decide_false by (by intros []). }
  cbn [rbind snapshot snap_authority snap_revision snap_now snap_root_grant snap_generation snap_last_recovery].
  replace (mk_AuthorityState _ _ _ _ _ _ _ _) with s by (by destruct s). rewrite (validate_recovery_Ok s Hok). cbn [rbind].
  rewrite (proj2 (rfold_unit_Ok (validate_credential s) _)).
  2: { apply Forall_forall. intros c [k Hc]%in_order_value. apply (ok_credentials _ Hok _ _ Hc). }
  cbn [rbind]. rewrite (proj2 (rfold_unit_Ok (fun id => let? _ := lineage s id in Ok tt) _)); [done|].
  apply Forall_forall. intros x ([k g] & -> & Hx%in_order_elem)%list_elem_of_fmap. destruct (ok_lineages _ Hok k) as (p & Hp); [by eauto|].
  cbn [fst]. rewrite (proj2 (lineage_Ok s k p)) by done. done.
Qed.

(** ** Ceilings *)

Lemma all_of_true {A} `{Countable A} (X : gset A) f : all_of X f = true <-> forall a, a ∈ X -> f a = true.
Proof. unfold all_of. rewrite forallb_forall. setoid_rewrite <- list_elem_of_In. by setoid_rewrite elem_of_elements. Qed.
Lemma any_of_true {A} `{Countable A} (X : gset A) f : any_of X f = true <-> exists a, a ∈ X /\ f a = true.
Proof. unfold any_of. rewrite existsb_exists. setoid_rewrite <- list_elem_of_In. by setoid_rewrite elem_of_elements. Qed.

Definition permits (c : IssuanceCeiling) (p : Permission) : Prop :=
  operation p ∈ operations c /\ resources_contains (resources c) (resource p) = true.

Lemma covers_scope_true c sp :
  covers_scope c sp = true <->
  (forall p, p ∈ permissions sp -> permits c p) /\ forall c', issuance sp = Some c' -> ceiling_subset c' c = true.
Proof.
  unfold covers_scope, permits. rewrite andb_true_iff, all_of_true. split; intros [Hp Hi]; split.
  - intros p Hin. specialize (Hp p Hin). by apply andb_true_iff in Hp as [?%bool_decide_eq_true ?].
  - intros c' Hc. by rewrite Hc in Hi.
  - intros p Hin. apply andb_true_iff. rewrite bool_decide_eq_true. by apply Hp.
  - destruct (issuance sp); cbn [none_or]; [by apply Hi|done].
Qed.

Lemma resources_subset_contains r r' x :
  resources_subset r r' = true -> resources_contains r x = true -> resources_contains r' x = true.
Proof.
  destruct r, r'; cbn; try done. rewrite !bool_decide_eq_true. set_solver.
Qed.
Lemma resources_subset_trans r r' r'' :
  resources_subset r r' = true -> resources_subset r' r'' = true -> resources_subset r r'' = true.
Proof. destruct r, r', r''; cbn; try done. rewrite !bool_decide_eq_true. set_solver. Qed.

Lemma ceiling_subset_true c c' :
  ceiling_subset c c' = true <->
  operations c ⊆ operations c' /\ resources_subset (resources c) (resources c') = true
  /\ max_validity_ms c <= max_validity_ms c' /\ max_delegation_depth c <= max_delegation_depth c'.
Proof. unfold ceiling_subset. rewrite !andb_true_iff, bool_decide_eq_true, !N.leb_le. tauto. Qed.

Lemma ceiling_subset_trans c c' c'' :
  ceiling_subset c c' = true -> ceiling_subset c' c'' = true -> ceiling_subset c c'' = true.
Proof.
  rewrite !ceiling_subset_true. intros (? & ? & ? & ?) (? & ? & ? & ?).
  split_and!; [set_solver|by eapply resources_subset_trans|lia|lia].
Qed.

Lemma permits_subset c c' p : ceiling_subset c c' = true -> permits c p -> permits c' p.
Proof.
  rewrite ceiling_subset_true. intros (? & ? & _) [? ?]. split; [set_solver|by eapply resources_subset_contains].
Qed.

Lemma covers_scope_subset c c' sp : ceiling_subset c c' = true -> covers_scope c sp = true -> covers_scope c' sp = true.
Proof.
  rewrite !covers_scope_true. intros Hs [Hp Hi]. split; [by eauto using permits_subset|].
  intros d Hd. eapply ceiling_subset_trans; eauto.
Qed.

Lemma covers_covers_scope c sp now : covers c sp now = true -> covers_scope c sp = true.
Proof. unfold covers. rewrite !andb_true_iff. tauto. Qed.

(** What a ceiling covers, the holder's own ceiling covers within it. *)
Lemma covers_scope_issued c c' sp sp' now :
  covers_scope c sp = true -> issuance sp = Some c' -> covers c' sp' now = true -> covers_scope c sp' = true.
Proof.
  intros [_ Hi]%covers_scope_true Hc Hcov%covers_covers_scope. eapply covers_scope_subset; eauto.
Qed.

Lemma narrows_true sp p :
  narrows sp p = true ->
  permissions sp ⊆ permissions p
  /\ forall c, issuance sp = Some c -> exists c', issuance p = Some c' /\ ceiling_subset c c' = true.
Proof.
  unfold narrows. rewrite !andb_true_iff, !bool_decide_eq_true. intros (((((_ & Hp) & _) & _) & _) & Hi). split; [done|].
  intros c Hc. rewrite Hc in Hi. cbn in Hi. destruct (issuance p) as [c'|]; [|done]. by exists c'.
Qed.

Lemma covers_scope_narrows c sp p : narrows sp p = true -> covers_scope c p = true -> covers_scope c sp = true.
Proof.
  intros [Hp Hi]%narrows_true. rewrite !covers_scope_true. intros [Hp' Hi']. split; [set_solver|].
  intros d Hd. destruct (Hi _ Hd) as (d' & Hd' & Hs). eapply ceiling_subset_trans; eauto.
Qed.

Lemma narrows_administrative sp p : narrows sp p = true -> administrative sp = true -> administrative p = true.
Proof.
  intros [Hp Hi]%narrows_true. unfold administrative. rewrite !orb_true_iff, !any_of_true. intros [Hs|(a & Ha & Hop)].
  - left. destruct (issuance sp) as [c|]; [|done]. destruct (Hi _ eq_refl) as (c' & -> & _). done.
  - right. exists a. split; [set_solver|done].
Qed.

(** ** Rights stay within installed ceilings *)

Definition ceilinged (admins : list GrantSpec) (sp : GrantSpec) : Prop :=
  exists a c, a ∈ admins /\ issuance a = Some c /\ covers_scope c sp = true.

(** Every grant is within the ceiling of an administrator that was installed, and a
    usable administrative one within that of the administrator there is now. *)
Record confined (admins : list GrantSpec) (s : AuthorityState) : Prop := {
  con_all : forall id g, grants s !! id = Some g -> ceilinged admins (spec g);
  con_root : exists r c, grants s !! root_grant s = Some r /\ issuance (spec r) = Some c
    /\ forall id g, grants s !! id = Some g -> grant_revoked g = false -> administrative (spec g) = true ->
       covers_scope c (spec g) = true;
}.

Lemma live_head s id now path g :
  live_lineage s id now = Ok path -> grants s !! id = Some g -> grant_revoked g = false.
Proof.
  intros Hl Hg. pose proof (live_alive _ _ _ _ Hl) as Hd. pose proof (live_lineage_Ok _ _ _ _ Hl) as Hp.
  rewrite (dead_chain _ _ _ _ Hp) in Hd. apply lineage_Ok in Hp as (Hc & _). apply chain_head in Hc as [rest ->].
  cbn [existsb] in Hd. rewrite Hg in Hd. apply orb_false_iff in Hd as [[? _]%orb_false_iff _]. done.
Qed.

(** A grant whose scope [confined] grants allow keeps it. *)
Lemma confined_with_grant admins s now m g :
  confined admins s -> (forall x y, m !! x = Some y -> grants s !! x = Some y) ->
  m !! root_grant s = grants s !! root_grant s -> grant_id g <> root_grant s ->
  (forall c, (forall id h, grants s !! id = Some h -> grant_revoked h = false -> administrative (spec h) = true ->
      covers_scope c (spec h) = true) -> grant_revoked g = false -> administrative (spec g) = true -> covers_scope c (spec g) = true) ->
  ceilinged admins (spec g) -> confined admins (with_grant s now m g).
Proof.
  intros [Hall (r & c & Hr & Hc & Hadm)] Hm Hroot Hne Hg Hcg. split; cbn [with_grant grants root_grant].
  - intros x y. destruct (decide (x = grant_id g)) as [->|]; [rewrite lookup_insert_eq; by intros [= <-]|].
    rewrite lookup_insert_ne by done. intros ?%Hm. eauto.
  - exists r, c. rewrite lookup_insert_ne, Hroot by done. split_and!; [done..|].
    intros x y. destruct (decide (x = grant_id g)) as [->|]; [rewrite lookup_insert_eq; intros [= <-]; by apply Hg|].
    rewrite lookup_insert_ne by done. intros ?%Hm. eauto.
Qed.

Lemma issuance_administrative sp c : issuance sp = Some c -> administrative sp = true.
Proof. intros E. unfold administrative. by rewrite E. Qed.

Lemma issuable_ceilinged admins s actor sp now :
  confined admins s -> issuable s actor sp now ->
  ceilinged admins sp
  /\ forall c, (forall id h, grants s !! id = Some h -> grant_revoked h = false -> administrative (spec h) = true ->
       covers_scope c (spec h) = true) -> covers_scope c sp = true.
Proof.
  intros [Hall _] (id & a & c & path & Hl & Ha & _ & Hc & Hcov). split.
  - destruct (Hall _ _ Ha) as (b & d & ? & ? & ?). exists b, d. eauto using covers_scope_issued.
  - intros d Hd. eapply covers_scope_issued; [|done..]. eapply Hd; eauto using live_head, issuance_administrative.
Qed.

Lemma confined_effect admins s actor now command s' :
  auth_ok s -> confined admins s -> effect s actor now command s' -> confined admins s'.
Proof.
  intros Hok Hcon [au id sp m _ Hi Hn Hb|parent p path id sp m _ Hl Hp _ Hnar _ Hn Hb|au id ex sp old _ Hi Ht|au id ex old _ Ht].
  - destruct (issuable_ceilinged _ _ _ _ _ Hcon Hi) as [Hc Hadm].
    apply confined_with_grant; cbn; [done|by intros; eapply base_lookup|by eapply base_root| |by eauto|done].
    intros ->. destruct (ok_root _ Hok) as (? & ? & ? & _). congruence.
  - apply confined_with_grant; cbn; [done|by intros; eapply base_lookup|by eapply base_root| | |].
    + intros ->. destruct (ok_root _ Hok) as (? & ? & ? & _). congruence.
    + intros c Hadm _ Ha. eapply covers_scope_narrows; [done|]. eapply Hadm; eauto using live_head, narrows_administrative.
    + destruct (con_all _ _ Hcon _ _ Hp) as (b & d & ? & ? & ?). exists b, d. eauto using covers_scope_narrows.
  - destruct (issuable_ceilinged _ _ _ _ _ Hcon Hi) as [Hc Hadm]. destruct Ht as (Hne & Hold & _).
    destruct (ok_grants _ Hok _ _ Hold) as (Hid & _).
    apply confined_with_grant; cbn; [done|done|done|by rewrite Hid|by eauto|done].
  - destruct Ht as (Hne & Hold & _). destruct (ok_grants _ Hok _ _ Hold) as (Hid & _).
    apply confined_with_grant; cbn; [done|done|done|by rewrite Hid|done|]. by eapply con_all.
Qed.

Lemma confined_recovered admins s command now s' :
  confined admins s -> recovery_administrator command ∈ admins -> auth_ok s -> recovered s command now s' -> confined admins s'.
Proof.
  intros [Hall _] Hin Hok [_ (_ & c & Hc & Hcov%covers_covers_scope)%administrator_valid _ _
                          (revoked & prev & m & _ & _ & Hev & Hm & ->)].
  split; cbn [grants root_grant].
  - intros x g Hg. destruct (recovered_lookup _ _ _ _ _ _ Hm Hg) as [[_ ->]|(_ & old & Ho & [[_ ->]|[_ ->]])].
    + by exists (recovery_administrator command), c.
    + rewrite revoke1_spec. eauto.
    + eauto.
  - eexists _, c. rewrite Hm, bool_decide_true by done. split_and!; [done..|]. intros x g Hg Hr Ha.
    destruct (recovered_lookup _ _ _ _ _ _ Hm Hg) as [[_ ->]|(_ & old & Ho & [[_ ->]|[Hnot ->]])]; [done| |].
    + by rewrite revoke1_revoked in Hr.
    + destruct Hnot. destruct (ok_grants _ Hok _ _ Ho) as (<- & _). apply (Hev _ _ Ho). split; [done|by left].
Qed.

Definition installed (cs : list Change) : list GrantSpec :=
  omap (fun c => match c with ChRecover command _ => Some (recovery_administrator command) | _ => None end) cs.

Lemma confined_bootstrap id pin admin credential owner now s admins :
  bootstrap id pin admin credential owner now = Ok s -> admin ∈ admins -> confined admins s.
Proof.
  unfold bootstrap. intros Hb Hin. apply rbind_Ok in Hb as ([] & Ha & Hb). inv_ok. subst.
  apply administrator_valid in Ha as (_ & c & Hc & Hcov%covers_covers_scope). split; cbn [grants root_grant].
  - intros x g [<- <-]%lookup_singleton_Some. by exists admin, c.
  - eexists _, c. rewrite lookup_singleton_eq. split_and!; [done..|]. by intros x g [<- <-]%lookup_singleton_Some.
Qed.

Lemma confined_changes admins s cs s' :
  auth_ok s -> confined admins s -> (forall a, a ∈ installed cs -> a ∈ admins) -> changes s cs = Ok s' -> confined admins s'.
Proof.
  intros Hok Hcon Hin Hcs. apply (changes_ind (confined admins) s cs s'); [|done..].
  intros t c t' Hc Hokt Hcont Hst. inversion Hst as [c' actor nw command t1 He|c' nw command t1 He|command nw t1 He]; subst.
  - by eapply confined_effect.
  - destruct Hcont as [Hall Hroot]. by destruct He.
  - eapply confined_recovered; [done| |done..]. apply Hin. apply list_elem_of_omap. eauto.
Qed.

(** ** Evidence *)

Lemma with_grant_lookup s now m g x y :
  (forall x y, m !! x = Some y -> grants s !! x = Some y) -> grant_revision g = revision s + 1 ->
  grants (with_grant s now m g) !! x = Some y -> grant_revision y <= revision s -> grants s !! x = Some y.
Proof.
  intros Hm Hr. cbn [with_grant grants]. destruct (decide (x = grant_id g)) as [->|].
  - rewrite lookup_insert_eq. intros [= <-]. lia.
  - rewrite lookup_insert_ne by done. by intros ?%Hm.
Qed.

(** A grant with an old revision is the grant it was. *)
Lemma stepped_old s c s' x g :
  stepped s c s' -> grants s' !! x = Some g -> grant_revision g <= revision s -> grants s !! x = Some g.
Proof.
  intros [c' a n cmd t He|c' n cmd t He|cmd n t He].
  - destruct He; apply with_grant_lookup; try done; by intros; eapply base_lookup.
  - by destruct He.
  - destruct He as [_ _ _ _ (revoked & prev & m & _ & _ & _ & Hm & ->)]. cbn [grants]. intros Hg Hr.
    destruct (recovered_lookup _ _ _ _ _ _ Hm Hg) as [[_ ->]|(_ & old & Ho & [[_ ->]|[_ ->]])]; [cbn in Hr; lia| |done].
    unfold revoke1 in *. destruct (grant_revoked old); [done|]. cbn in Hr. lia.
Qed.

Lemma stepped_revision s c s' : stepped s c s' -> revision s <= revision s'.
Proof.
  intros [c' a n cmd t He|c' n cmd t He|cmd n t He].
  - destruct He; cbn; lia.
  - destruct He; cbn; lia.
  - destruct He as [_ _ _ _ (revoked & prev & m & _ & _ & _ & Hm & ->)]. cbn. lia.
Qed.

Lemma changes_old s cs s' : auth_ok s -> changes s cs = Ok s' ->
  forall x g, grants s' !! x = Some g -> grant_revision g <= revision s -> grants s !! x = Some g.
Proof.
  intros Hok Hcs.
  apply (changes_ind (fun t => revision s <= revision t /\ forall x g, grants t !! x = Some g -> grant_revision g <= revision s ->
    grants s !! x = Some g) s cs s'); [|done|split; [lia|done]|done].
  intros t c t' _ _ [Hr Ht] Hst. pose proof (stepped_revision _ _ _ Hst). split; [lia|].
  intros x g Hg Hle. apply Ht; [|done]. eapply stepped_old; [done..|]. lia.
Qed.

Lemma authorize_Ok s actor id p now ev :
  authorize s actor id p now = Ok ev ->
  exists path g, live_lineage s id now = Ok path /\ grants s !! id = Some g /\ subject (spec g) = actor
    /\ p ∈ permissions (spec g) /\ ev = map (fun x => (x, default 0 (grant_revision <$> grants s !! x))) path.
Proof. unfold authorize. intros. inv_ok. bool_simpl. subst. eauto 10. Qed.

Lemma evidence_lookup s actor id p now ev x r :
  authorize s actor id p now = Ok ev -> (x, r) ∈ ev -> exists g, grants s !! x = Some g /\ grant_revision g = r.
Proof.
  intros (path & g & Hl%live_lineage_Ok & _ & _ & _ & ->)%authorize_Ok (y & [= -> ->] & Hx)%list_elem_of_fmap_1.
  apply lineage_Ok in Hl as (Hc%chain_present & _). rewrite Forall_forall in Hc. destruct (Hc _ Hx) as [gy Hy].
  exists gy. by rewrite Hy.
Qed.

Definition administers (p : Permission) : Prop :=
  operation_name (operation p) ∈ [GRANT_ISSUE; GRANT_REVOKE; GRANT_ADMINISTER; CREDENTIAL_ISSUE; CREDENTIAL_REVOKE].

Lemma administers_administrative sp p : p ∈ permissions sp -> administers p -> administrative sp = true.
Proof.
  intros Hp Ha. unfold administrative. apply orb_true_iff. right. apply any_of_true. exists p. split; [done|].
  by apply bool_decide_eq_true.
Qed.

(** ** The properties *)

(** C27: whatever an authority went through since its bootstrap - commands, recorded
    administration, recoveries, in any order - restoring the snapshot of its state
    succeeds and gives back exactly that state. *)
Theorem snapshot_exact id pin admin credential owner now cs s0 s :
  bootstrap id pin admin credential owner now = Ok s0 -> changes s0 cs = Ok s -> restore (snapshot s) = Ok s.
Proof. intros Hb Hcs. eapply snapshot_restores, changes_ok; [by eapply bootstrap_ok|done]. Qed.

(** C16: no sequence of commands escalates.  A permission that an authority allows
    lies within the issuance ceiling of an administrator that a bootstrap or a
    recovery installed, and one that administers grants or credentials within the
    ceiling of the administrator that holds the root grant now. *)
Theorem rights_confined id pin admin credential owner now cs s0 s actor gid p t ev :
  bootstrap id pin admin credential owner now = Ok s0 -> changes s0 cs = Ok s ->
  authorize s actor gid p t = Ok ev ->
  (exists a c, a ∈ admin :: installed cs /\ issuance a = Some c /\ permits c p)
  /\ (administers p -> exists r c, grants s !! root_grant s = Some r /\ issuance (spec r) = Some c /\ permits c p).
Proof.
  intros Hb Hcs (path & g & Hl & Hg & _ & Hp & _)%authorize_Ok.
  assert (Hcon : confined (admin :: installed cs) s).
  { eapply confined_changes; [by eapply bootstrap_ok|eapply confined_bootstrap; [done|constructor]| |done]. by constructor. }
  split.
  - destruct (con_all _ _ Hcon _ _ Hg) as (a & c & Ha & Hc & Hcov). exists a, c.
    apply covers_scope_true in Hcov as [Hcov _]. eauto.
  - intros Hadm. destruct (con_root _ _ Hcon) as (r & c & Hr & Hc & Hall). exists r, c. split_and!; [done..|].
    eapply covers_scope_true; [|done]. eapply Hall; eauto using live_head, administers_administrative.
Qed.

(** C25: the evidence of an authorization - the ids and revisions of its lineage -
    identifies the grants it rested on: where a later state gives the same evidence,
    each of them is unchanged.  So evidence recorded for a grant that has since been
    revised, revoked, or pruned and issued again under its id never matches. *)
Theorem evidence_identifies id pin admin credential owner now cs cs' s0 s s' actor actor' gid gid' p p' t t' ev :
  bootstrap id pin admin credential owner now = Ok s0 -> changes s0 cs = Ok s -> changes s cs' = Ok s' ->
  authorize s actor gid p t = Ok ev -> authorize s' actor' gid' p' t' = Ok ev ->
  forall x r, (x, r) ∈ ev -> exists g, grants s !! x = Some g /\ grants s' !! x = Some g /\ grant_revision g = r.
Proof.
  intros Hb Hcs Hcs' He He' x r Hx. assert (Hok : auth_ok s) by (eapply changes_ok; [by eapply bootstrap_ok|done]).
  destruct (evidence_lookup _ _ _ _ _ _ _ _ He Hx) as (g & Hg & <-).
  destruct (evidence_lookup _ _ _ _ _ _ _ _ He' Hx) as (g' & Hg' & Hr).
  exists g. assert (Hold : grants s !! x = Some g').
  { eapply changes_old; [done..|]. destruct (ok_grants _ Hok _ _ Hg) as (_ & _ & _ & ?). lia. }
  assert (g' = g) as -> by congruence. done.
Qed.

Lemma check_caller_Ok s caller now c :
  check_caller s caller now = Ok c -> exists id, credentials s !! id = Some c.
Proof. unfold check_caller, live_credential. intros. inv_ok. subst. eauto. Qed.

Lemma recovered_lineage s command now s' x path :
  auth_ok s -> recovered s command now s' -> lineage s' x = Ok path -> lineage s x = Ok path.
Proof.
  intros Hok [_ _ _ _ (revoked & prev & m & _ & _ & _ & Hm & ->)] (Hc & Hnd & Hl)%lineage_Ok. apply lineage_Ok. split; [|done].
  destruct (ok_root _ Hok) as (r & i & Hr & Hro & _). cbn [grants] in Hc. eapply chain_transfer; [done|].
  apply Forall_forall. intros y Hy. pose proof (chain_present _ _ _ Hc) as Hf. rewrite Forall_forall in Hf.
  destruct (Hf _ Hy) as [g Hg].
  destruct (recovered_lookup _ _ _ _ _ _ Hm Hg) as [[-> ->]|(_ & old & Ho & [[_ ->]|[_ ->]])].
  - eexists _, r. split_and!; [done..|]. unfold parent_of. by rewrite Hro.
  - eexists _, old. split_and!; [done..|]. unfold parent_of. by rewrite revoke1_origin.
  - by eexists _, old.
Qed.

(** C18: a recovery takes the approval of the new administrator's passkey over the
    exact change and evicts every earlier administrator: in the state it leaves,
    only the root grant of the new administrator administers grants or credentials,
    no grant that descended from the old root is usable, and no credential or
    session but the new credential is accepted. *)
Theorem recovery_evicts id pin admin credential owner now cs s0 s command t s' :
  bootstrap id pin admin credential owner now = Ok s0 -> changes s0 cs = Ok s -> recover s command t = Ok s' ->
  (exists key, holder (recovery_credential command) = HolderNode key
     /\ passkey_verify (recovery_owner command) (subject (recovery_administrator command))
          (ownership_digest (Recover (revision s)) (recovery_administrator command) (scope (recovery_credential command)) key) = Ok tt)
  /\ (forall actor gid p t' ev, authorize s' actor gid p t' = Ok ev ->
        gid = root_grant s /\ actor = subject (recovery_administrator command)
        \/ ~ administers p /\ root_grant s ∉ map fst ev)
  /\ (forall caller t' c, check_caller s' caller t' = Ok c -> c = recovery_credential command).
Proof.
  intros Hb Hcs Hr%recover_Ok. assert (Hok : auth_ok s) by (eapply changes_ok; [by eapply bootstrap_ok|done]). split_and!.
  - destruct Hr as [_ _ _ Hown _]. unfold check_owner in Hown. destruct (holder _) as [key|]; [|done]. exists key. split; [done|].
    by apply map_err_Ok in Hown.
  - intros actor gid p t' ev (path & g & Hl & Hg & Hsub & Hp & ->)%authorize_Ok.
    pose proof (live_head _ _ _ _ _ Hl Hg) as Hlive. pose proof (recovered_lineage _ _ _ _ _ _ Hok Hr (live_lineage_Ok _ _ _ _ Hl)) as Hpath.
    destruct Hr as [_ _ _ _ (revoked & prev & m & _ & _ & Hev & Hm & ->)].
    destruct (recovered_lookup _ _ _ _ _ _ Hm Hg) as [[-> ->]|(_ & old & Ho & [[_ ->]|[Hnot ->]])].
    + by left.
    + by rewrite revoke1_revoked in Hlive.
    + right. destruct (ok_grants _ Hok _ _ Ho) as (Hid & _). split.
      * intros Ha. apply Hnot. rewrite <- Hid. apply (Hev _ _ Ho). split; [done|left]. by eapply administers_administrative.
      * rewrite map_map. cbn [fst]. rewrite map_id. intros Hroot. apply Hnot. rewrite <- Hid. apply (Hev _ _ Ho).
        split; [done|right]. rewrite Hid. eauto.
  - intros caller t' c [x Hx]%check_caller_Ok. destruct Hr as [_ _ _ _ (revoked & prev & m & _ & _ & _ & _ & ->)].
    cbn [credentials] in Hx. by apply lookup_singleton_Some in Hx as [_ <-].
Qed.

Lemma daily_not_step_up s record s' :
  apply_administration s record = Ok s' -> cr_session (record_caller_of record) <> PasskeySession ->
  step_up s (cr_actor (record_caller_of record)) (record_command record) = false.
Proof.
  unfold apply_administration. intros (sc & _ & (u & Hs & _)%rbind_Ok)%rbind_Ok Hne.
  destruct (step_up _ _ _); [|done]. unfold SessionKind_step_up in Hs. by destruct (cr_session _).
Qed.

(** An execution grant of its own. *)
Definition own_execution (actor : PrincipalId) (g : Grant) : Prop :=
  subject (spec g) = actor /\ administrative (spec g) = false.

Lemma sensitive_false actor sp :
  negb (bool_decide (subject sp = actor)) || administrative sp = false -> subject sp = actor /\ administrative sp = false.
Proof. rewrite orb_false_iff, negb_false_iff, bool_decide_eq_true. done. Qed.

Lemma with_grant_changed actor s now m g x :
  (m = grants s \/ m = kept s now) -> own_execution actor g ->
  (forall old, grants s !! grant_id g = Some old -> own_execution actor old) ->
  grants (with_grant s now m g) !! x <> grants s !! x ->
  (grants (with_grant s now m g) !! x = None /\ dead s x now = true)
  \/ (exists g', grants (with_grant s now m g) !! x = Some g' /\ own_execution actor g')
     /\ forall old, grants s !! x = Some old -> own_execution actor old.
Proof.
  intros Hm Hg Hold. cbn [with_grant grants]. destruct (decide (x = grant_id g)) as [->|Hx].
  - rewrite lookup_insert_eq. intros _. right. eauto.
  - rewrite lookup_insert_ne by done. intros Hne. left. destruct Hm as [->| ->]; [done|].
    destruct (kept s now !! x) as [g'|] eqn:Ek; [by apply kept_lookup in Ek as [Ek _]|]. split; [done|].
    destruct (grants s !! x) as [old|] eqn:Eo; [|done]. apply not_false_iff_true. intros Hd.
    assert (kept s now !! x = Some old) by (apply kept_lookup; auto). congruence.
Qed.

(** C24: a recorded administration by a session without a passkey - a daily or a
    bearer session - changes no credential, and every grant it adds, revises or
    revokes is, before and after, an execution grant of the caller's own principal;
    the others it can only drop when they are dead. *)
Theorem daily_session_confined id pin admin credential owner now cs s0 s record s' :
  bootstrap id pin admin credential owner now = Ok s0 -> changes s0 cs = Ok s ->
  apply_administration s record = Ok s' -> cr_session (record_caller_of record) <> PasskeySession ->
  credentials s' = credentials s /\ root_grant s' = root_grant s
  /\ forall x, grants s' !! x <> grants s !! x ->
       (grants s' !! x = None /\ dead s x (cr_at (record_caller_of record)) = true)
       \/ (exists g', grants s' !! x = Some g' /\ own_execution (cr_actor (record_caller_of record)) g')
          /\ forall old, grants s !! x = Some old -> own_execution (cr_actor (record_caller_of record)) old.
Proof.
  intros Hb Hcs Ha Hne. assert (Hok : auth_ok s) by (eapply changes_ok; [by eapply bootstrap_ok|done]).
  pose proof (daily_not_step_up _ _ _ Ha Hne) as Hs. apply apply_administration_Ok in Ha.
  destruct (record_command record) as [c|c]; [|done].
  destruct Ha as [au gid sp m _ _ Hn [Hm _]|parent p path gid sp m _ _ _ _ _ _ Hn [Hm _]|au gid ex sp old _ _ (Hgid & Hold & _)
                 |au gid ex old _ (Hgid & Hold & _)]; cbn [step_up] in Hs; (split; [done|]); (split; [done|]); intros x;
    apply with_grant_changed; auto; cbn [grant_id].
  - by apply sensitive_false.
  - intros old Hold. congruence.
  - by apply sensitive_false.
  - intros old Hold. congruence.
  - apply orb_false_iff in Hs as [Hs _]. by apply sensitive_false.
  - apply orb_false_iff in Hs as [_ Hs]. rewrite Hold in Hs. destruct (ok_grants _ Hok _ _ Hold) as (-> & _).
    intros g Hg. assert (g = old) as -> by congruence. by apply sensitive_false.
  - rewrite Hold in Hs. by apply sensitive_false.
  - rewrite Hold in Hs. destruct (ok_grants _ Hok _ _ Hold) as (-> & _).
    intros g Hg. assert (g = old) as -> by congruence. by apply sensitive_false.
Qed.
End Safe.
