(* ===== verification/Examples.v ===== *)
(** * A concrete network

    A toy hash, a toy signature scheme and a short history on them: a provider
    posts a bond, a client opens a payment channel on it, starts a close with no
    certificate, the provider answers with one, and the channel is adjudicated;
    beside it a basic edge and a reshape.  Every step is computed, so the
    theorems' hypotheses are met by states the definitions really reach. *)

From S2P Require Import Prelude Xet Canonical Primitive Errors BoundedList Context Auth Objects.
From S2P Require Import Registry View Store Event Terms Work Lease Tx WorkTx OpenTx CloseTx.
From S2P Require Import Apply State Spec PaidWork.

#[local] Open Scope N_scope.

(** A polynomial checksum on 40 bits in the place of BLAKE3. *)
Definition toy_sum (acc : N) (bs : bytes) : N :=
  foldl (fun a b => N.land (N.shiftl a 5 + a + Byte.to_N b + 7) 1099511627775) acc bs.

Fixpoint toy_bytes (n : nat) (v : N) : bytes :=
  match n with O => [] | S n => byte_of_N (v mod 256) :: toy_bytes n (v / 256) end.

Lemma toy_bytes_length n v : length (toy_bytes n v) = n.
Proof. revert v. induction n; intros v; simpl; auto. Qed.

#[export] Instance toy_blake3 : Blake3 := {|
  blake3_keyed_hash key msg := toy_bytes 32 (toy_sum (toy_sum 1 key) msg);
  blake3_length key msg := toy_bytes_length 32 _;
|}.

(** A signature is the key and the message, cut to size. *)
Definition toy_sign (k : Key) (h : PayloadHash) : Auth :=
  Native (Sig_from_bytes (array_of SIG_LENGTH (Key_bytes k ++ PayloadHash_bytes h))).

Definition toy_verifier : SigVerifier := SigVerifier_default (fun s k h =>
  bool_decide (Native s = toy_sign k h)).

Definition toy_key (n : N) : Key := Key_from_bytes (repeat (byte_of_N n) 33).

Definition as_owner (k : PartyKeys) (h : PayloadHash) : PartyAuth :=
  PartyAuth_new Owner (toy_sign (PartyKeys_owner k) h).
Definition as_signer (k : PartyKeys) (h : PayloadHash) : PartyAuth :=
  PartyAuth_new Signer (toy_sign (PartyKeys_signer k) h).

Definition provider : PartyKeys := PartyKeys_new (toy_key 1) (toy_key 2) None.
Definition client : PartyKeys := PartyKeys_new (toy_key 3) (toy_key 4) (Some (toy_key 4)).

Definition toy_network : NetworkId :=
  match NetworkId_new (domain "toy") with Some n => n | None => mk_NetworkId [] 0 end.

Definition toy_fees : Fees := Fees_new 1 1 1 1.

Definition at_height (h : N) : Context :=
  Context_with_fees toy_network h (BlockHash_from_bytes (repeat x00 32)) toy_fees.

(** ** Genesis *)

Definition seeds : list Genesis :=
  [mk_Genesis (CoinId_genesis 0) (PartyKeys_owner provider) 1000;
   mk_Genesis (CoinId_genesis 1) (PartyKeys_owner client) 1000;
   mk_Genesis (CoinId_genesis 2) (PartyKeys_owner provider) 500;
   mk_Genesis (CoinId_genesis 3) (PartyKeys_owner client) 500].

Definition store0 : MapStore := mk_MapStore (mk_KState ∅ ∅ ∅).
Definition store1 : MapStore := (State_genesis store0 seeds).2.
Definition s1 : KState := map_state store1.

(** The state after a transaction, unchanged if it is rejected. *)
Definition step (h : N) (tx : Tx) (s : KState) : KState :=
  match kapply (at_height h) toy_verifier tx s with Ok (_, s') => s' | Err _ => s end.

(** What a timeout of the edge these terms and coins open must distribute. *)
Definition required (h : N) (funding : OpenFunding) (terms : Terms) : N :=
  match open_debits h toy_fees (OpenFunding_len funding) (OpenFunding_total funding) terms with
  | Ok d => default 0 (debits_timeout_payout d)
  | Err _ => 0
  end.

(** ** The bond *)

Definition bond_terms_paying (v : N) : WorkStakeBondTerms :=
  mk_WorkStakeBondTerms (Parties_new provider client) 100
    [PartyKeys_payout provider v false] 40.

Definition bond_value : N :=
  required 10 (OpenFunding_new [(CoinId_genesis 0, 1000)] [])
    (Terms_work_stake_bond (bond_terms_paying 0)).

Definition bond_terms : WorkStakeBondTerms := bond_terms_paying bond_value.
Definition bond_full : Terms := Terms_work_stake_bond bond_terms.
Definition bond_funding : Funding := Funding_new [CoinId_genesis 0] [].
Definition bond_edge : EdgeId := Tx_edge_id_of bond_funding bond_full.

Definition maker_signs (funding : Funding) (terms : Terms) : PartyAuth :=
  as_owner (Parties_maker (Terms_parties terms)) (Tx_open_hash toy_network funding terms).
Definition taker_signs (funding : Funding) (terms : Terms) : PartyAuth :=
  as_owner (Parties_taker (Terms_parties terms)) (Tx_open_hash toy_network funding terms).

Definition open_tx (funding : Funding) (terms : Terms) : Tx :=
  Tx_Open funding terms (maker_signs funding terms) (taker_signs funding terms).

Definition bond_open : Tx := open_tx bond_funding bond_full.
Definition s2 : KState := step 10 bond_open s1.

(** ** The payment channel *)

Definition toy_policy : PaidChannelPolicyV1 := mk_PaidChannelPolicyV1 100 60.
Definition toy_salt : bytes := repeat x07 32.

Definition pay_terms : WorkPaymentTerms :=
  mk_WorkPaymentTerms bond_edge bond_terms
    (private_policy_commitment toy_network toy_salt toy_policy) 16 10 50.
Definition pay_full : Terms := Terms_work_payment pay_terms.
Definition pay_funding : Funding := Funding_new [CoinId_genesis 1] [].
Definition pay_edge : EdgeId := Tx_edge_id_of pay_funding pay_full.
Definition pay_open : Tx := open_tx pay_funding pay_full.
Definition s3 : KState := step 11 pay_open s2.

Definition pay_terms_hash : TermsHash := Terms_hash pay_full.

(** The client starts a close without a certificate. *)
Definition start_unsigned (auth : PartyAuth) : PaymentCloseStart :=
  mk_PaymentCloseStart pay_edge pay_full Maker 12 20 None auth.
Definition start : PaymentCloseStart :=
  start_unsigned (as_owner client (PaymentCloseStart_digest
    (start_unsigned (PartyAuth_new Owner (Native (Sig_from_bytes [])))) toy_network)).
Definition start_tx : Tx := Tx_Move (StartPaymentClose start).
Definition s4 : KState := step 12 start_tx s3.

(** The provider answers with a certificate the client signed. *)
Definition certificate : EarnedCertificate := EarnedCertificate_new pay_edge pay_terms_hash 300.
Definition certificate_auth : PartyAuth :=
  as_signer client (EarnedCertificate_digest certificate toy_network).
Definition response_start : StartId :=
  start_id (PaymentCloseStart_digest start toy_network) 12.
Definition response : PaymentCloseResponse :=
  mk_PaymentCloseResponse pay_edge response_start Taker certificate certificate_auth
    (as_owner provider (response_digest toy_network pay_edge pay_terms_hash response_start Taker
       (EarnedCertificate_digest certificate toy_network))).
Definition response_tx : Tx := Tx_Move (RespondPaymentClose response).
Definition s5 : KState := step 13 response_tx s4.

Definition record_of (s : KState) : PendingPaymentClose :=
  match read_pending_close s toy_network pay_edge with
  | Ok (Some r) => r
  | _ => PendingPaymentClose_opened pay_edge Maker (StartId_from_bytes []) 0 (0, 0) false
  end.

Definition edge_of (s : KState) (e : EdgeId) : Edge :=
  match ks_edges s !! e with
  | Some x => x
  | None => Edge_new 0 0 toy_fees 0 (Parties_new client provider) pay_terms_hash CloseKindSet_BASIC
  end.

(** The payouts of a split close of the channel. *)
Definition split_outputs (kind : CloseKind) (provider_amount : N) (signed : bool * bool) : list Payout :=
  let total := default 0 (Edge_close_value (edge_of s3 pay_edge) (work_payment_close_cost kind)) in
  [PartyKeys_payout provider provider_amount signed.2;
   PartyKeys_payout client (total - provider_amount) signed.1].

Definition adjudicated_tx : Tx :=
  let r := record_of s5 in
  Tx_Close pay_edge
    (Proof_Adjudicated (PendingPaymentClose_contest_commitment r toy_network pay_edge pay_terms_hash))
    (split_outputs Adjudicated 350 (true, true)).
Definition s6 : KState := step 14 adjudicated_tx s5.

(** A cooperative end of the answered contest instead. *)
Definition freeze_tx : Tx :=
  let h := freeze_digest toy_network pay_edge pay_terms_hash 320 (13, 20) in
  Tx_Close pay_edge (Proof_Freeze 320 13 20 (as_owner client h) (as_owner provider h))
    (split_outputs Freeze 370 (true, true)).

(** Anyone may now return the bond: its lease is stale. *)
Definition bond_timeout_tx : Tx :=
  Tx_Close bond_edge (Proof_Timeout bond_full None) (bond_timeout_outputs bond_terms).
Definition s7 : KState := step 15 bond_timeout_tx s6.

Definition lease_of (s : KState) : BondLease :=
  match read_bond_lease s toy_network bond_edge with
  | Ok (Some l) => l
  | _ => BondLease_opened bond_edge bond_edge pay_terms_hash [] 0
  end.

(** ** A basic edge and a reshape *)

Definition basic_parties : Parties := Parties_new client provider.
Definition basic_body (v : N) : TermsBody :=
  Basic (ProtocolCode_new 0) basic_parties 30 [PartyKeys_payout client v false].
Definition basic_value : N :=
  required 10 (OpenFunding_new [(CoinId_genesis 3, 500)] []) (Terms_commit (basic_body 0)).
Definition basic_full : Terms := Terms_commit (basic_body basic_value).
Definition basic_funding : Funding := Funding_new [CoinId_genesis 3] [].
Definition basic_edge : EdgeId := Tx_edge_id_of basic_funding basic_full.
Definition basic_open : Tx := open_tx basic_funding basic_full.
Definition b2 : KState := step 10 basic_open s1.

Definition mutual_outputs : list Payout :=
  let total := default 0 (Edge_close_value (edge_of b2 basic_edge) (kind_close_cost 2 Mutual)) in
  [Payout_new (PartyKeys_owner client) (total - 100); Payout_new (PartyKeys_owner provider) 100].
Definition mutual_tx : Tx :=
  let h := Tx_payload_hash toy_network basic_edge Mutual (Terms_hash basic_full) mutual_outputs in
  Tx_Close basic_edge (Proof_Mutual (as_owner client h) (as_owner provider h)) mutual_outputs.

Definition reshape_tx : Tx :=
  let inputs := [CoinId_genesis 2] in
  let outputs := [Payout_new (PartyKeys_owner provider) 200; Payout_new (PartyKeys_owner client) 300] in
  Tx_Owner (Reshape_new inputs outputs
    (toy_sign (PartyKeys_owner provider) (Reshape_payload_hash toy_network inputs outputs))).

(** ** Every step is accepted *)

Definition accepted (h : N) (tx : Tx) (s : KState) : bool :=
  match kapply (at_height h) toy_verifier tx s with Ok _ => true | Err _ => false end.

Definition outcome (h : N) (tx : Tx) (s : KState) : ApplyOutcome :=
  match kapply (at_height h) toy_verifier tx s with
  | Ok (o, _) => o
  | Err _ => mk_ApplyOutcome None []
  end.

Lemma accepted_step h tx s :
  accepted h tx s = true ->
  kapply (at_height h) toy_verifier tx s = Ok (outcome h tx s, step h tx s).
Proof. unfold accepted, outcome, step. by destruct (kapply _ _ _ _) as [[]|]. Qed.

Lemma scenario_accepted :
  forallb (fun x => x) [accepted 10 bond_open s1; accepted 11 pay_open s2; accepted 12 start_tx s3;
    accepted 13 response_tx s4; accepted 14 adjudicated_tx s5; accepted 14 freeze_tx s5; accepted 15 bond_timeout_tx s6;
    accepted 10 basic_open s1; accepted 12 mutual_tx b2; accepted 12 reshape_tx s1] = true.
Proof. vm_compute. reflexivity. Qed.

Lemma toy_network_wf : NetworkId_wf toy_network.
Proof. exists (domain "toy"). reflexivity. Qed.
