(* ===== verification/Witness.v ===== *)
(** * The theorems at work

    Each theorem with hypotheses, applied at a step of the history of
    [Examples], where the hypotheses are evaluated. *)

From S2P Require Import Prelude Xet Canonical Primitive Errors BoundedList Context Auth Objects.
From S2P Require Import Registry View Store Event Terms Work Lease Tx WorkTx OpenTx CloseTx.
From S2P Require Import Apply State Spec Validate Conservation Invariant Contest Kernel.
From S2P Require Import Settlement Bond Authority Opening Digests Wire Examples.

#[local] Open Scope N_scope.

Ltac run := vm_compute; reflexivity.

(** The same, without reading whole states back. *)
Ltac run_state := match goal with |- _ = ?b => vm_cast_no_check (@eq_refl _ b) end.

Definition store_at (s : KState) : MapStore := mk_MapStore s.

Lemma store_step h tx s :
  accepted h tx s = true ->
  State_apply (store_at s) (at_height h) toy_verifier tx = (Ok (outcome h tx s), store_at (step h tx s)).
Proof.
  intros Ha%accepted_step.
  assert (Hk : kapply (at_height h) toy_verifier tx (sview (store_at s)) =
    Ok (outcome h tx s, step h tx s)) by exact Ha.
  destruct (kapply_State_apply (store_at s) _ _ _ _ _ Hk) as ([k] & Hs & Hv).
  simpl in Hv. by subst k.
Qed.

(** Decides a decidable hypothesis by evaluation. *)
Ltac by_eval := match goal with |- ?P => apply (bool_decide_eq_true_1 P); run end.

(** A verifier that accepts no signature at all. *)
Definition no_verifier : SigVerifier := SigVerifier_default (fun _ _ _ => false).

Definition validated (h : N) (tx : Tx) (s : KState) : Change :=
  match Tx_apply tx (at_height h) toy_verifier (begin (store_at s)) with
  | Ok c => c
  | Err _ => Change_Private []
  end.

Lemma validated_Ok h tx s :
  match Tx_apply tx (at_height h) toy_verifier (begin (store_at s)) with
  | Ok _ => true | Err _ => false end = true ->
  Tx_apply tx (at_height h) toy_verifier (begin (store_at s)) = Ok (validated h tx s).
Proof. unfold validated. by destruct (Tx_apply _ _ _ _). Qed.

Lemma at_height_wf h : wf u64 h = true -> Context_wf (at_height h).
Proof. intros Hh. split; [exact toy_network_wf|exact Hh|reflexivity]. Qed.

(** ** The kernel *)

Lemma State_apply_conserves_witness :
  supply (sview (store_at s2)) =
  supply (sview (store_at (step 11 pay_open s2))) + burned (at_height 11) pay_open (sview (store_at s2)).
Proof.
  exact (State_apply_conserves (store_at s2) (at_height 11) toy_verifier pay_open
    (outcome 11 pay_open s2) (store_at (step 11 pay_open s2)) (store_step 11 pay_open s2 ltac:(run))).
Defined.

Lemma validated_applies_witness :
  exists s', State_apply (store_at s1) (at_height 12) toy_verifier reshape_tx =
      (Ok (Change_outcome (validated 12 reshape_tx s1)), s') /\
    sview s' = Change_post (validated 12 reshape_tx s1) (sview (store_at s1)).
Proof.
  apply (validated_applies (store_at s1) (at_height 12) toy_verifier reshape_tx
    (validated 12 reshape_tx s1)); [apply validated_Ok; run|by_eval].
Defined.

Lemma history_from_genesis_witness :
  genesis_total seeds =
    supply (sview (store_at s2)) +
      (0 + burned_by (at_height 10) bond_open (sview (store_at s1)) (Ok (outcome 10 bond_open s1))) /\
  KState_wf (sview (store_at s2)).
Proof.
  apply (history_from_genesis store0 seeds (store_at s1) toy_verifier).
  - reflexivity.
  - by_eval.
  - run_state.
  - apply (history_step toy_verifier (store_at s1) 0 (store_at s1) (at_height 10) bond_open);
      [constructor|by apply at_height_wf|run|]. exact (store_step 10 bond_open s1 ltac:(run)).
Defined.

Lemma consumed_total_defined_witness :
  exists total, checked_sum (fun c => Coin_value c.2)
      [(CoinId_genesis 0, Coin_issue (toy_key 1) None 1000);
       (CoinId_genesis 1, Coin_issue (toy_key 3) None 1000)] = Some total /\
    total <= supply (sview (store_at s1)).
Proof.
  apply (consumed_total_defined (store_at s1) [CoinId_genesis 0; CoinId_genesis 1]);
    [vm_compute; discriminate|run|run].
Defined.

(** The working set of a block with the reshape: its inputs and its outputs. *)
Definition reshape_ws : BlockWorkingSet :=
  let ids := Change_created (validated 12 reshape_tx s1) in
  mk_BlockWorkingSet (foldr (fun id m => <[id := None]> m) (Some <$> ks_coins s1) ids) ∅ ∅.

Definition reshape_block : Block := Block_new (at_height 12) [reshape_tx].

Lemma working_set_agrees_with_map_store_witness :
  exists ms', State_apply_block (store_at s1) toy_verifier reshape_block =
      (Ok [outcome 12 reshape_tx s1], ms') /\
    sview ms' = sview (State_apply_block reshape_ws toy_verifier reshape_block).2.
Proof.
  apply (working_set_agrees_with_map_store reshape_ws (store_at s1) toy_verifier reshape_block);
    run_state.
Defined.

(** ** The channel *)

Lemma during_start : during toy_network pay_edge pay_full (at_height 12) start_tx.
Proof.
  split; [reflexivity|run| |exact I|intros _ _; reflexivity].
  apply Forall_singleton. split_and!; [intros Hne; destruct (Hne eq_refl)|by_eval|by_eval].
Qed.

Lemma during_response : during toy_network pay_edge pay_full (at_height 13) response_tx.
Proof.
  split; [reflexivity|run| |exact I|exact I].
  apply Forall_singleton. split_and!; [intros Hne; destruct (Hne eq_refl)|by_eval|by_eval].
Qed.

Lemma answered_run : channel_run toy_verifier toy_network pay_edge pay_full s3 s5.
Proof.
  eapply channel_step; [|exact during_response|exact (accepted_step 13 response_tx s4 ltac:(run))].
  eapply channel_step; [|exact during_start|exact (accepted_step 12 start_tx s3 ltac:(run))].
  constructor.
Qed.

Lemma contest_absent : contest_of s3 toy_network pay_edge = Pending_Absent.
Proof. run. Qed.

Lemma contest_answered : contest_of s5 toy_network pay_edge = Pending_Present (record_of s5).
Proof. run. Qed.

Lemma answered : pending_responded (record_of s5) = true.
Proof. run. Qed.

(** The answered contest is settled under a verifier that accepts nothing. *)
Lemma channel_settles_witness :
  exists edge total,
    ks_edges s5 !! pay_edge = Some edge /\
    let outputs := adjudicated_outputs edge (record_of s5) total in
    let commitment := PendingPaymentClose_contest_commitment (record_of s5) toy_network pay_edge
                        (Edge_terms edge) in
    total + Fees_price (Edge_close_fees edge) (work_payment_close_cost Adjudicated) =
      Edge_value edge + Edge_reserve edge /\
    pending_final_cumulative (record_of s5) + PendingPaymentClose_penalty (record_of s5) <= total /\
    (NoDup (Tx_close_output_ids pay_edge outputs) ->
     Forall (fun id => ks_coins s5 !! id = None) (Tx_close_output_ids pay_edge outputs) ->
     exists o s',
       kapply (at_height 14) no_verifier (Tx_Close pay_edge (Proof_Adjudicated commitment) outputs) s5
         = Ok (o, s') /\
       ks_edges s' !! pay_edge = None /\ contest_of s' toy_network pay_edge = Pending_Absent /\
       Forall (fun c => ks_coins s' !! c.1 = Some c.2) (close_coins pay_edge outputs)).
Proof.
  exact (channel_settles (at_height 11) toy_verifier pay_funding pay_full
    (maker_signs pay_funding pay_full) (taker_signs pay_funding pay_full) pay_terms s2
    (outcome 11 pay_open s2) s3 s5 toy_network (record_of s5) (at_height 14) no_verifier
    (accepted_step 11 pay_open s2 ltac:(run)) eq_refl contest_absent answered_run contest_answered
    eq_refl (or_introl answered)).
Defined.

Lemma State_apply_refines_contest_witness :
  contest_step 12 L_start (contest_of (sview (store_at s3)) toy_network pay_edge)
    (contest_of (sview (store_at (step 12 start_tx s3))) toy_network pay_edge).
Proof.
  exact (State_apply_refines_contest (store_at s3) (store_at (step 12 start_tx s3)) (at_height 12)
    toy_verifier start_tx (Ok (outcome 12 start_tx s3)) pay_edge
    (store_step 12 start_tx s3 ltac:(run)) ltac:(run)
    (du_isolated _ _ _ _ _ during_start)).
Defined.

Lemma channel_record_faithful_witness :
  contest_of s5 toy_network pay_edge = Pending_Absent \/
  exists r, contest_of s5 toy_network pay_edge = Pending_Present r /\
    pending_penalty_amount r = wp_omission_bond pay_terms /\
    pending_start_cumulative r <= pending_final_cumulative r /\
    (pending_responded r = true <-> pending_start_cumulative r < pending_final_cumulative r) /\
    PendingPaymentClose_penalty r =
      (if pending_responded r && is_maker (pending_opener_role r)
       then wp_omission_bond pay_terms else 0).
Proof.
  exact (channel_record_faithful (at_height 11) toy_verifier pay_funding pay_full
    (maker_signs pay_funding pay_full) (taker_signs pay_funding pay_full) pay_terms s2
    (outcome 11 pay_open s2) s3 s5 toy_network (accepted_step 11 pay_open s2 ltac:(run)) eq_refl
    contest_absent answered_run).
Defined.

Lemma adjudicated_pays_witness :
  exists edge r total,
    ks_edges s5 !! pay_edge = Some edge /\
    contest_of s5 toy_network pay_edge = Pending_Present r /\
    (pending_responded r = true \/ pending_response_deadline r <= 14) /\
    split_outputs Adjudicated 350 (true, true) = adjudicated_outputs edge r total /\
    total + Fees_price (Edge_close_fees edge) (work_payment_close_cost Adjudicated) =
      Edge_value edge + Edge_reserve edge /\
    pending_final_cumulative r + PendingPaymentClose_penalty r <= total /\
    PendingPaymentClose_contest_commitment (record_of s5) toy_network pay_edge pay_terms_hash =
      PendingPaymentClose_contest_commitment r toy_network pay_edge (Edge_terms edge).
Proof.
  exact (adjudicated_pays (at_height 14) toy_verifier pay_edge _ _ s5 _ _
    (accepted_step 14 adjudicated_tx s5 ltac:(run))).
Defined.

Definition freeze_hash : PayloadHash := freeze_digest toy_network pay_edge pay_terms_hash 320 (13, 20).

Lemma freeze_respects_contest_witness :
  exists edge total provider_amount signed,
    ks_edges s5 !! pay_edge = Some edge /\
    verify_party toy_verifier (as_owner client freeze_hash) (Parties_maker (Edge_parties edge))
      (freeze_digest toy_network pay_edge (Edge_terms edge) 320 (13, 20)) = true /\
    verify_party toy_verifier (as_owner provider freeze_hash) (Parties_taker (Edge_parties edge))
      (freeze_digest toy_network pay_edge (Edge_terms edge) 320 (13, 20)) = true /\
    13 <= 14 <= 20 /\
    split_outputs Freeze 370 (true, true) =
      [PartyKeys_payout (Parties_taker (Edge_parties edge)) provider_amount signed.2;
       PartyKeys_payout (Parties_maker (Edge_parties edge)) (total - provider_amount) signed.1] /\
    total + Fees_price (Edge_close_fees edge) (work_payment_close_cost Freeze) =
      Edge_value edge + Edge_reserve edge /\
    320 <= provider_amount <= total /\
    match contest_of s5 toy_network pay_edge with
    | Pending_Absent => provider_amount = 320
    | Pending_Present r =>
        pending_final_cumulative r + PendingPaymentClose_penalty r <= provider_amount /\
        (is_maker (pending_opener_role r) = true -> pending_start_cumulative r < 320 ->
         provider_amount = 320 + pending_penalty_amount r)
    | Pending_Faulty _ => False
    end.
Proof.
  exact (freeze_respects_contest (at_height 14) toy_verifier pay_edge 320 13 20
    (as_owner client freeze_hash) (as_owner provider freeze_hash) _ s5 _ _
    (accepted_step 14 freeze_tx s5 ltac:(run))).
Defined.

Lemma response_excludes_adjudication_witness :
  accepted 13 response_tx s4 = true /\
  forall c, kcheck (at_height 13) toy_verifier
    (Tx_Close (resp_payment_edge response) (Proof_Adjudicated (PendingPaymentClose_contest_commitment
       (record_of s4) toy_network pay_edge pay_terms_hash)) []) s4 <> Ok c.
Proof.
  split; [run|].
  exact (response_excludes_adjudication (at_height 13) (at_height 13) toy_verifier toy_verifier
    response (outcome 13 response_tx s4) (step 13 response_tx s4) s4 _ _
    (accepted_step 13 response_tx s4 ltac:(run)) eq_refl eq_refl).
Defined.

Definition pay_edge_value : Edge := edge_of s3 pay_edge.

Lemma capacity_fits_both_routes_witness :
  exists freeze adjudicated,
    Edge_close_value pay_edge_value (work_payment_close_cost Freeze) = Some freeze /\
    Edge_close_value pay_edge_value (work_payment_close_cost Adjudicated) = Some adjudicated /\
    freeze <= adjudicated /\ default 0 (payment_capacity pay_edge_value 50) + 50 = freeze.
Proof.
  exact (capacity_fits_both_routes pay_edge_value 50 (default 0 (payment_capacity pay_edge_value 50))
    ltac:(run)).
Defined.

(** ** The bond *)

Lemma stale_due s context e edge terms l :
  is_work_bond terms = true -> read_bond_lease s (Context_network context) e = Ok (Some l) ->
  ks_edges s !! lease_payment_edge l = None -> timeout_due s context e edge terms.
Proof.
  intros Hb Hr Hn. split; [by eauto|right]. split; [done|]. intros (l' & Hl & [x Hx]). congruence.
Qed.

Lemma stale_lease : timeout_due s6 (at_height 15) bond_edge (edge_of s2 bond_edge) bond_full.
Proof.
  apply (stale_due s6 (at_height 15) bond_edge (edge_of s2 bond_edge) bond_full (lease_of s6)); run.
Qed.

Lemma bond_opened : ks_edges s2 !! bond_edge = Some (edge_of s2 bond_edge).
Proof. run. Qed.

Lemma bond_kept : ks_edges s6 !! bond_edge = Some (edge_of s2 bond_edge).
Proof. run. Qed.

Lemma bond_slots_differ : bond_lease_slot toy_network bond_edge 0 <> bond_lease_slot toy_network bond_edge 1.
Proof. by_eval. Qed.

Definition bond_outputs : list Payout := bond_timeout_outputs bond_terms.

Lemma timeout_exit_witness :
  exists tx o s', Tx_timeout_close bond_edge bond_full = Some tx /\
    kapply (at_height 15) no_verifier tx s6 = Ok (o, s') /\ ks_edges s' !! bond_edge = None /\
    Forall (fun c => ks_coins s' !! c.1 = Some c.2) (close_coins bond_edge bond_outputs).
Proof.
  exact (timeout_exit (at_height 10) toy_verifier bond_funding bond_full
    (maker_signs bond_funding bond_full) (taker_signs bond_funding bond_full) s1
    (outcome 10 bond_open s1) s2 bond_outputs (at_height 15) no_verifier s6 (edge_of s2 bond_edge)
    (accepted_step 10 bond_open s1 ltac:(run)) eq_refl bond_opened bond_kept stale_lease
    bond_slots_differ ltac:(by_eval) ltac:(by_eval)).
Defined.

Lemma payment_open_leases_bond_witness :
  (exists edge, ks_edges s2 !! wp_bond_edge pay_terms = Some edge /\
     Edge_terms edge = WorkPaymentTerms_bond_terms_hash pay_terms) /\
  read_bond_lease s2 toy_network (wp_bond_edge pay_terms) = Ok None /\
  read_bond_lease s3 toy_network (wp_bond_edge pay_terms) =
    Ok (Some (BondLease_opened (wp_bond_edge pay_terms) (Tx_edge_id_of pay_funding pay_full)
                (Terms_hash pay_full) (wp_private_policy_commitment pay_terms)
                (WorkPaymentTerms_admission_horizon pay_terms))) /\
  leased s3 toy_network (wp_bond_edge pay_terms) /\
  (forall context' verifier' funding' terms' maker_auth' taker_auth' payment' c,
     Context_network context' = toy_network ->
     Terms_profile terms' = Profile_WorkPayment payment' ->
     wp_bond_edge payment' = wp_bond_edge pay_terms ->
     kcheck context' verifier' (Tx_Open funding' terms' maker_auth' taker_auth') s3 <> Ok c).
Proof.
  exact (payment_open_leases_bond (at_height 11) toy_verifier pay_funding pay_full
    (maker_signs pay_funding pay_full) (taker_signs pay_funding pay_full) pay_terms s2
    (outcome 11 pay_open s2) s3 (accepted_step 11 pay_open s2 ltac:(run)) ltac:(run) eq_refl).
Defined.

Lemma bond_leased : leased s3 toy_network bond_edge.
Proof. exists (lease_of s3). split; [run|by_eval]. Qed.

Lemma bond_live : ks_edges s3 !! bond_edge = Some (edge_of s3 bond_edge).
Proof. run. Qed.

Lemma leased_bond_locked_witness :
  Context_block_height (at_height 50) < Edge_timeout (edge_of s3 bond_edge) /\
  forall c, kcheck (at_height 50) toy_verifier bond_timeout_tx s3 <> Ok c.
Proof.
  split; [run|].
  exact (leased_bond_locked (at_height 50) toy_verifier bond_edge (edge_of s3 bond_edge)
    (Proof_Timeout bond_full None) bond_outputs s3 bond_live ltac:(run) bond_leased ltac:(run)).
Defined.

Lemma bond_timeout_retires_lease_witness :
  read_bond_lease s7 toy_network bond_edge = Ok None /\ ks_edges s7 !! bond_edge = None.
Proof.
  exact (bond_timeout_retires_lease (at_height 15) toy_verifier bond_edge bond_full None bond_outputs
    s6 (outcome 15 bond_timeout_tx s6) s7 (accepted_step 15 bond_timeout_tx s6 ltac:(run)) eq_refl).
Defined.

(** ** Authority *)

Definition reshape_coin : Coin := Coin_issue (PartyKeys_owner provider) None 500.

Lemma coin_spend_authorized_witness :
  spend_authorized (at_height 12) toy_verifier reshape_tx (CoinId_genesis 2) reshape_coin.
Proof.
  exact (coin_spend_authorized (at_height 12) toy_verifier reshape_tx s1 (outcome 12 reshape_tx s1)
    (step 12 reshape_tx s1) (CoinId_genesis 2) reshape_coin
    (accepted_step 12 reshape_tx s1 ltac:(run)) ltac:(run) ltac:(by_eval)).
Defined.

Definition mutual_hash : PayloadHash :=
  Tx_payload_hash toy_network basic_edge Mutual (Terms_hash basic_full) mutual_outputs.

Lemma basic_live : ks_edges b2 !! basic_edge = Some (edge_of b2 basic_edge).
Proof. run. Qed.

Lemma close_pays_parties_witness : Forall (pays_party (Terms_parties basic_full)) mutual_outputs.
Proof.
  exact (close_pays_parties (at_height 10) toy_verifier basic_funding basic_full
    (maker_signs basic_funding basic_full) (taker_signs basic_funding basic_full) s1
    (outcome 10 basic_open s1) b2 (at_height 12) toy_verifier
    (Proof_Mutual (as_owner client mutual_hash) (as_owner provider mutual_hash)) mutual_outputs b2
    (outcome 12 mutual_tx b2) (step 12 mutual_tx b2) (edge_of b2 basic_edge)
    (accepted_step 10 basic_open s1 ltac:(run)) basic_live basic_live I
    (accepted_step 12 mutual_tx b2 ltac:(run))).
Defined.

Lemma mutual_close_consent_witness :
  exists edge, ks_edges b2 !! basic_edge = Some edge /\ 12 < Edge_timeout edge /\
    let hash := Tx_payload_hash toy_network basic_edge Mutual (Edge_terms edge) mutual_outputs in
    verify_party toy_verifier (as_owner client mutual_hash) (Parties_maker (Edge_parties edge)) hash = true /\
    verify_party toy_verifier (as_owner provider mutual_hash) (Parties_taker (Edge_parties edge)) hash = true.
Proof.
  exact (mutual_close_consent (at_height 12) toy_verifier basic_edge (as_owner client mutual_hash)
    (as_owner provider mutual_hash) mutual_outputs b2 (outcome 12 mutual_tx b2) (step 12 mutual_tx b2)
    (accepted_step 12 mutual_tx b2 ltac:(run))).
Defined.

Lemma accepted_not_replayable_witness :
  accepted 12 reshape_tx s1 = true /\
  forall c, kcheck (at_height 40) toy_verifier reshape_tx (step 12 reshape_tx s1) <> Ok c.
Proof.
  split; [run|].
  exact (accepted_not_replayable (at_height 12) toy_verifier reshape_tx s1 (outcome 12 reshape_tx s1)
    (step 12 reshape_tx s1) (at_height 40) toy_verifier (accepted_step 12 reshape_tx s1 ltac:(run))
    ltac:(run) eq_refl).
Defined.

Lemma outcome_complete_witness :
  let o := outcome 11 pay_open s2 in
  (forall id, ks_coins s3 !! id <> ks_coins s2 !! id ->
     coin_reported (outcome_public_event o) id (ks_coins s2 !! id) (ks_coins s3 !! id)) /\
  (forall id, ks_edges s3 !! id <> ks_edges s2 !! id ->
     edge_reported (outcome_public_event o) id (ks_edges s2 !! id) (ks_edges s3 !! id)) /\
  ks_registry s3 = diff_post (outcome_registry o) (ks_registry s2).
Proof.
  exact (outcome_complete (at_height 11) toy_verifier pay_open s2 (outcome 11 pay_open s2) s3
    (accepted_step 11 pay_open s2 ltac:(run))).
Defined.

(** ** Opens *)

Definition freeze_proof : CloseProof :=
  Proof_Freeze 320 13 20 (as_owner client freeze_hash) (as_owner provider freeze_hash).

Lemma pay_live : ks_edges s3 !! Tx_edge_id_of pay_funding pay_full = Some pay_edge_value.
Proof. run. Qed.

Lemma reserve_covers_every_close_witness :
  exists total, Edge_close_value pay_edge_value (close_cost 2 freeze_proof) = Some total /\
    Edge_value pay_edge_value <= total.
Proof.
  exact (reserve_covers_every_close (at_height 11) toy_verifier pay_funding pay_full
    (maker_signs pay_funding pay_full) (taker_signs pay_funding pay_full) s2 (outcome 11 pay_open s2)
    s3 pay_edge_value freeze_proof 2 (accepted_step 11 pay_open s2 ltac:(run)) pay_live
    ltac:(by_eval) ltac:(run) I).
Defined.

Lemma open_projection_exact_witness :
  exists projection,
    open_projection 10 toy_fees (priced s1 bond_funding) bond_full = Ok projection /\
    projection_edge projection = Tx_edge_id_of bond_funding bond_full /\
    projection_values projection = Edge_values (edge_of s2 bond_edge) /\
    burned (at_height 10) bond_open s1 =
      projection_open_fee projection + projection_lifetime_fee projection /\
    (forall outputs, Terms_timeout_outputs bond_full = Some outputs ->
       projection_timeout_payout projection = Some (sumN Payout_value outputs)).
Proof.
  exact (open_projection_exact (at_height 10) toy_verifier bond_funding bond_full
    (maker_signs bond_funding bond_full) (taker_signs bond_funding bond_full) s1
    (outcome 10 bond_open s1) s2 (edge_of s2 bond_edge) (accepted_step 10 bond_open s1 ltac:(run))
    bond_opened).
Defined.

(** ** Digests *)

Lemma open_message_wf : message_wf (M_open toy_network bond_edge).
Proof. split; [exact toy_network_wf|run]. Qed.

Lemma preimage_injective_witness : M_open toy_network bond_edge = M_open toy_network bond_edge.
Proof.
  exact (preimage_injective (M_open toy_network bond_edge) (M_open toy_network bond_edge)
    open_message_wf open_message_wf eq_refl).
Defined.

Lemma message_hash_total_witness :
  hash_writes (message_writes (M_open toy_network bond_edge)) =
    Some (message_hash (M_open toy_network bond_edge)).
Proof.
  exact (message_hash_total (M_open toy_network bond_edge) open_message_wf).
Defined.

(** ** Views *)

(** The view of the registry after the start: the lease and the contest. *)
Definition registry_entries : list (option (RegistryChunkId * RegistryChunk)) :=
  None :: map Some (map_to_list (ks_registry s4)).

Definition registry_view : View.View := View_with_registry [] [] registry_entries.

Lemma registry_entries_canonical :
  Forall (fun c => wf RegistryChunk_codec c.2 = true) (omap id registry_entries).
Proof. by_eval. Qed.

Lemma registry_view_wf i c :
  View_registry_chunk registry_view
    (RegistryChunkId_derive toy_network NS_PaymentClose (EdgeId_bytes pay_edge) i) = Some c ->
  wf RegistryChunk_codec c = true.
Proof.
  unfold registry_view. generalize (RegistryChunkId_derive toy_network NS_PaymentClose
    (EdgeId_bytes pay_edge) i). intros k Hk.
  assert (NoDup (map fst (omap id registry_entries))) as Hnd by by_eval.
  pose proof registry_entries_canonical as Hall. revert Hk Hnd Hall. generalize registry_entries.
  intros entries Hk Hnd Hall.
  apply (find_id_Some RegistryChunkId_bytes k c entries Hnd) in Hk.
  rewrite Forall_forall in Hall. apply (Hall (k, c)). apply list_elem_of_omap. by exists (Some (k, c)).
Qed.

Lemma registry_value_exact_witness :
  View_registry_value registry_view toy_network NS_PaymentClose (EdgeId_bytes pay_edge)
    (repeat x00 200) = Some (Rec_PaymentPending, encode_to PendingPaymentClose_codec (record_of s4)) <->
  (length (encode_to PendingPaymentClose_codec (record_of s4)) <= length (repeat x00 200))%nat /\
  stores_value (fun index => View_registry_chunk registry_view
      (RegistryChunkId_derive toy_network NS_PaymentClose (EdgeId_bytes pay_edge) index))
    NS_PaymentClose Rec_PaymentPending (encode_to PendingPaymentClose_codec (record_of s4)).
Proof.
  exact (registry_value_exact registry_view toy_network NS_PaymentClose (EdgeId_bytes pay_edge)
    (repeat x00 200) Rec_PaymentPending (encode_to PendingPaymentClose_codec (record_of s4))
    registry_view_wf).
Defined.

(** The reassembly really returns the stored record. *)
Lemma registry_value_example :
  View_registry_value registry_view toy_network NS_PaymentClose (EdgeId_bytes pay_edge)
    (repeat x00 200) = Some (Rec_PaymentPending, encode_to PendingPaymentClose_codec (record_of s4)).
Proof. run. Qed.

Definition coin_entries : list (option (CoinId * Coin)) :=
  [Some (CoinId_genesis 2, reshape_coin); None;
   Some (CoinId_genesis 0, Coin_issue (PartyKeys_owner provider) None 1000)].

Lemma view_faithful_witness :
  let v := View_with_registry coin_entries [] [] in
  (forall k c, View_coin v k = Some c <-> Some (k, c) ∈ coin_entries) /\
  (forall k e, View_edge v k = Some e <-> Some (k, e) ∈ []) /\
  (forall k c, View_registry_chunk v k = Some c <-> Some (k, c) ∈ []) /\
  (forall coins' edges' registry',
     coin_entries ≡ₚ coins' -> [] ≡ₚ edges' -> [] ≡ₚ registry' ->
     View_with_registry coins' edges' registry' = v).
Proof.
  exact (view_faithful coin_entries [] [] ltac:(by_eval) ltac:(constructor) ltac:(constructor)).
Defined.

(** ** The wire *)

Definition write_buffer : bytes := repeat x00 (MAX_ENCODED_SIZE Tx_codec).

Lemma write_buffer_fits : (MAX_ENCODED_SIZE Tx_codec <= length write_buffer)%nat.
Proof. unfold write_buffer. by rewrite repeat_length. Qed.

Lemma Tx_write_exact_witness :
  encoded_size Tx_codec reshape_tx = length (encode_to Tx_codec reshape_tx) /\
  (length (encode_to Tx_codec reshape_tx) <= MAX_ENCODED_SIZE Tx_codec)%nat /\
  write_to Tx_codec reshape_tx write_buffer =
    Some (encode_to Tx_codec reshape_tx ++
            drop (length (encode_to Tx_codec reshape_tx)) write_buffer,
          length (encode_to Tx_codec reshape_tx)).
Proof.
  exact (Tx_write_exact reshape_tx write_buffer ltac:(run) write_buffer_fits).
Defined.

Lemma s1_wf : KState_wf s1.
Proof. split; by_eval. Qed.

Lemma stored_objects_roundtrip_witness :
  (forall id c, ks_coins s1 !! id = Some c ->
     decode_exact CoinId_codec (encode_to CoinId_codec id) = Ok id /\
     decode_exact Coin_codec (encode_to Coin_codec c) = Ok c) /\
  (forall id e, ks_edges s1 !! id = Some e ->
     decode_exact EdgeId_codec (encode_to EdgeId_codec id) = Ok id /\
     decode_exact Edge_codec (encode_to Edge_codec e) = Ok e) /\
  (forall id c, ks_registry s1 !! id = Some c ->
     decode_exact RegistryChunkId_codec (encode_to RegistryChunkId_codec id) = Ok id /\
     decode_exact RegistryChunk_codec (encode_to RegistryChunk_codec c) = Ok c).
Proof. exact (stored_objects_roundtrip s1 s1_wf). Defined.

Definition chunk_at (s : KState) (id : RegistryChunkId) : RegistryChunk :=
  default (mk_RegistryChunk NS_PaymentClose Rec_PaymentPending 0 0 0 0 []) (ks_registry s !! id).

Definition contest_chunk : RegistryChunk := chunk_at s5 (pending_payment_close_slot toy_network pay_edge).

Lemma pending_record_exact_witness :
  PendingPaymentClose_from_chunk contest_chunk pay_edge = Ok (record_of s5) <->
  wf PendingPaymentClose_codec (record_of s5) = true /\
  pending_payment_edge (record_of s5) = pay_edge /\
  PendingPaymentClose_to_chunk (record_of s5) = Some contest_chunk.
Proof.
  exact (pending_record_exact contest_chunk pay_edge (record_of s5) ltac:(run)).
Defined.

Definition lease_chunk0 : RegistryChunk := chunk_at s3 (bond_lease_slot toy_network bond_edge 0).
Definition lease_chunk1 : RegistryChunk := chunk_at s3 (bond_lease_slot toy_network bond_edge 1).

Lemma lease_record_exact_witness :
  BondLease_from_chunks (lease_chunk0, lease_chunk1) bond_edge = Ok (lease_of s3) <->
  wf BondLease_codec (lease_of s3) = true /\ lease_bond_edge (lease_of s3) = bond_edge /\
  BondLease_to_chunks (lease_of s3) = Some (lease_chunk0, lease_chunk1).
Proof.
  exact (lease_record_exact lease_chunk0 lease_chunk1 bond_edge (lease_of s3) ltac:(run) ltac:(run)).
Defined.

Definition list_a : List N := mk_List [1; 2; 0] 2.
Definition list_b : List N := mk_List [1; 2; 9] 2.

Lemma list_a_represents : represents 3 list_a [1; 2].
Proof. by_eval. Qed.

Lemma list_b_represents : represents 3 list_b [1; 2].
Proof. by_eval. Qed.

Lemma List_refines_list_witness :
  (List_new [1; 2; 3] 4 = None <-> (3 < 4)%nat) /\
  (forall made, List_new [1; 2; 3] 4 = Some made -> represents 3 made (take 4 [1; 2; 3])) /\
  represents 3 (List_take [1; 2; 3] 4) (take 4 [1; 2; 3]) /\
  (exists mapped, List_map list_a 0 N.succ = Some mapped /\ represents 3 mapped (map N.succ [1; 2])) /\
  (List_eqb list_a list_b = true <-> [1; 2] = [1; 2]).
Proof.
  exact (List_refines_list 3 [1; 2; 3] 4 0 N.succ list_a list_b [1; 2] [1; 2] eq_refl
    list_a_represents list_b_represents).
Defined.
