(* ===== verification/ChannelExamples.v ===== *)
(** * A concrete channel

    The payment edge of [Examples] used as a paid channel, at both endpoints: two
    jobs proposed, accepted, run, answered, verified and paid for, a close start
    signed and left to expire between them, and the contest of [Examples]
    answered.  The rolling hash has gearhash's shape with a computed table; the
    invocation protocol is the identity on bytes. *)

From S2P Require Import Examples.
From S2P Require Import Prelude Xet XetChunk Canonical Primitive Errors Context Auth Objects Registry.
From S2P Require Import View Store Terms Work Lease Tx PaidWork JobBook JobInput ChannelState.
From S2P Require Import ChannelSteps ChannelInvariant ChannelReplay ChannelCodec ChannelCheckpoint.
#[local] Open Scope N_scope.

(** ** The rolling hash *)

Definition toy_gear_step (g : N) (b : byte) : N :=
  N.land (N.shiftl g 1 + (Byte.to_N b + 1) * 0x9e3779b97f4a7c15) U64_MAX.

Fixpoint toy_next_match (g : N) (bs : bytes) (mask : N) : option N * N :=
  match bs with
  | [] => (None, g)
  | b :: bs =>
      let g := toy_gear_step g b in
      if N.land g mask =? 0 then (Some 1, g)
      else let '(m, g) := toy_next_match g bs mask in (N.succ <$> m, g)
  end.

#[export] Instance toy_gear : Gearhash := {|
  gear := N; gear_default := 0; gear_next_match := toy_next_match |}.

#[export] Instance toy_gear_laws : GearLaws.
Proof.
  split; cbn [gear_next_match toy_gear].
  - intros g bs mask. revert g. induction bs as [|b bs IH]; intros g n g' Hm; simpl in Hm; [done|].
    cbn [length]. destruct (_ =? 0); [simplify_eq; lia|].
    destruct (toy_next_match _ bs mask) as [[m|] g2] eqn:E; simplify_eq/=.
    specialize (IH _ _ _ E). lia.
  - done.
  - intros g bs mask n g' rest. revert g n. induction bs as [|b bs IH]; intros g n Hm; simpl in *; [done|].
    destruct (_ =? 0); [done|]. destruct (toy_next_match _ bs mask) as [[m|] g2] eqn:E; simplify_eq/=.
    by rewrite (IH _ _ E).
  - intros g bs mask g' rest. revert g. induction bs as [|b bs IH]; intros g Hm; simpl in *.
    + simplify_eq. destruct (toy_next_match g' rest mask) as [[m|] g2]; done.
    + destruct (_ =? 0); [done|].
      destruct (toy_next_match _ bs mask) as [[m|] g2] eqn:E; simplify_eq/=.
      rewrite (IH _ E). destruct (toy_next_match g' rest mask) as [[m|] g2]; simpl; [|done].
      do 2 f_equal. lia.
Qed.

(** ** The invocation protocol *)

Definition toy_digest (bs : bytes) : Digest := Digest_from_bytes (blake3_keyed_hash ZERO_KEY bs).

#[export] Instance toy_invocations : Invocations := {|
  PreparedInvocation := bytes;
  InvocationPolicy := unit;
  ProgramManifest := unit;
  OutputEventEnvelope := bytes;
  prepared_from_canonical_bytes bs := Ok bs;
  prepared_canonical_bytes bs := Ok bs;
  application_policy _ := [];
  request_commitment_of bs := Ok (toy_digest bs);
  execution_environment _ := toy_digest [];
  runner_public_key _ := PublicKey_Secp256k1 (Key_bytes (PartyKeys_signer provider));
  request_retain _ := false;
  policy_from_canonical_bytes _ := Ok tt;
  policy_canonical_bytes _ := Ok [];
  policy_validate _ := Ok tt;
  invocation_admit _ _ _ := Ok (mk_AdmissionFacts Ephemeral 1000 1000 10);
  verify_output _ _ _ _ events :=
    Ok (mk_VerifiedOutput true (toy_digest (concat events)) (ContentRef_for_bytes (concat events)));
  event_commitment e := toy_digest e;
  event_terminal _ := true;
  event_dag_cbor e := Ok e;
  encode_dag_cbor events := Ok (concat events);
  decode_dag_cbor bs := Ok [bs];
  manifest _ := Ok tt;
  manifest_root _ := toy_digest [];
  policy_max_upload_bytes _ := 1000;
  policy_content_closure _ _ _ := Ok [];
|}.

(** ** The channel *)

Definition channel : PaidChannel :=
  match PaidChannel_new toy_network pay_edge pay_terms toy_salt toy_policy with
  | Ok c => c
  | Err _ => mk_PaidChannel toy_network pay_edge pay_terms pay_terms_hash toy_policy (toy_digest [])
  end.

Definition settlement : WorkPaymentSettlement :=
  default (mk_WorkPaymentSettlement 0 0 0 0)
    (work_payment_settlement (Edge_values (Examples.edge_of Examples.s3 pay_edge)) 50).

(** The payload of the finalized block at a height. *)
Definition block_payload (h : N) : bytes := repeat (byte_of_N h) 32.

Definition sig_of (k : Key) (d : PayloadHash) : Sig :=
  match toy_sign k d with Native s => s | _ => Sig_from_bytes [] end.
Definition signed_by (k : Key) (d : Digest) : Sig := sig_of k (signing_hash d).

Definition payment_policy : JobPaymentPolicyV2 := mk_JobPaymentPolicyV2 40 1 1 1.

Definition authorization (nonce : N) : PaidJobAuthorizationV2 :=
  match propose channel tt payment_policy (domain "input") nonce (mk_JobDeadlines 20 30 40) with
  | Ok a => a
  | Err _ => mk_PaidJobAuthorizationV2 (toy_digest []) (toy_digest []) (toy_digest [])
      (ContentRef_new (toy_digest []) 0) (toy_digest []) 0 0 (toy_digest []) (toy_digest []) 0 0 0
      Ephemeral
  end.

Definition job (nonce : N) : Digest := work_id channel (authorization nonce).

Definition transcript : bytes := domain "output".

Definition receipt (nonce : N) : PaidJobResultV1 :=
  match paid_terminal_result channel (authorization nonce) tt (domain "input") [transcript] with
  | Ok r => r
  | Err _ => mk_PaidJobResultV1 (job nonce) (toy_digest []) (toy_digest []) ResultFailed
      (ContentRef_new (toy_digest []) 0)
  end.

Definition signed_receipt (nonce : N) : PaidJobResultV1 * Sig :=
  (receipt nonce, signed_by (provider_key channel) (result_digest channel (receipt nonce))).

Definition certificate (cumulative : N) : EarnedCertificate :=
  EarnedCertificate_new pay_edge pay_terms_hash cumulative.
Definition certificate_sig (cumulative : N) : Sig :=
  sig_of (client_key channel) (EarnedCertificate_digest (certificate cumulative) toy_network).

Definition binding (nonce cumulative : N) : PaymentBindingV1 :=
  mk_PaymentBindingV1 (job nonce) (result_digest channel (receipt nonce))
    (EarnedCertificate_digest (certificate cumulative) toy_network).

Definition certified (nonce cumulative : N) : TerminalOutcome :=
  Certified (signed_receipt nonce) (certificate cumulative) (binding nonce cumulative)
    (signed_by (client_key channel) (payment_binding_digest channel (binding nonce cumulative)))
    (certificate_sig cumulative).

(** ** Histories *)

Definition proposed (nonce : N) : ChannelRecord :=
  JobProposed (authorization nonce) (signed_by (client_key channel) (job nonce)) (domain "input").
Definition cosigned (nonce : N) : ChannelRecord :=
  JobAccepted (job nonce) (signed_by (provider_key channel) (job nonce)).
Definition answered (nonce : N) : ChannelRecord :=
  JobResultRecord (job nonce) (receipt nonce) (signed_receipt nonce).2 transcript.
Definition paid_for (nonce cumulative : N) : ChannelRecord :=
  JobTerminated (job nonce) (certified nonce cumulative).
Definition advanced (h : N) : ChannelRecord :=
  CursorAdvanced h (block_payload (h - 1)) (block_payload h).

(** A client's close start over the certificate it holds, valid through block 13. *)
Definition start_over (cumulative : N) (auth : PartyAuth) : PaymentCloseStart :=
  mk_PaymentCloseStart pay_edge pay_full Maker 12 13
    (Some (certificate cumulative, PartyAuth_new Signer (Native (certificate_sig cumulative)))) auth.
Definition close_start (cumulative : N) : PaymentCloseStart :=
  start_over cumulative (Examples.as_owner client (PaymentCloseStart_digest
    (start_over cumulative (PartyAuth_new Owner (Native (Sig_from_bytes [])))) toy_network)).

Definition client_job (nonce cumulative : N) : list ChannelRecord :=
  [proposed nonce; cosigned nonce; answered nonce; ResultVerified (job nonce);
   paid_for nonce cumulative].
Definition provider_job (nonce cumulative : N) : list ChannelRecord :=
  [proposed nonce; cosigned nonce; JobRunning (job nonce); PlaintextReleased (job nonce);
   answered nonce; paid_for nonce cumulative].

Definition opened (role : Role) : Channel :=
  Channel_new channel settlement role 12 (block_payload 12).

(** The state a list of records commits to, full strength. *)
Definition committed (s : Channel) (records : list ChannelRecord) : result Channel ChannelStateError :=
  rfold (fun s record => let? '(_, s) := apply s toy_verifier record false in Ok s) s records.

Definition client_history : list ChannelRecord :=
  client_job 1 40 ++ [ClosePrepared (close_start 40); advanced 13; advanced 14] ++ client_job 2 80.
