(* ===== verification/GrantsWitness.v ===== *)
(** * A node authority at work

    One history of an authority, evaluated with a small hash in place of BLAKE3 and
    an accepting curve: a bootstrap, an assignment, a delegation, a revocation, a
    daily session and a recovery; and the properties of [GrantsSafe] at it. *)

From stdpp Require Import strings sorting.
From S2P Require Import Prelude Xet XetChunk Webauthn Grants GrantsStep GrantsSafe Examples ChannelExamples.

#[local] Open Scope N_scope.

#[local] Existing Instance any_curve.

Definition node : AuthorityId := mk_AuthorityId (repeat x0a 32).
Definition alice : PrincipalId := mk_PrincipalId (repeat x01 33).
Definition bob : PrincipalId := mk_PrincipalId (repeat x02 33).
Definition carol : PrincipalId := mk_PrincipalId (repeat x03 33).
Definition dora : PrincipalId := mk_PrincipalId (repeat x04 33).
Definition gid (b : byte) : GrantId := mk_GrantId (repeat b 16).
Definition model : ResourceId := mk_ResourceId (repeat x0b 32).

Definition ops : list string := [GRANT_ISSUE; GRANT_REVOKE; GRANT_ADMINISTER; CREDENTIAL_ISSUE; CREDENTIAL_REVOKE].
Definition invoke : Permission := mk_Permission (mk_OperationId GATEWAY_INVOKE) model.
Definition own (op : string) : Permission := mk_Permission (mk_OperationId op) (authority_resource node).

Definition ceiling : IssuanceCeiling :=
  mk_IssuanceCeiling (list_to_set (map mk_OperationId (GATEWAY_INVOKE :: ops))) WholeAuthority 1000000 4.
Definition admin_spec (who : PrincipalId) : GrantSpec :=
  mk_GrantSpec node who (list_to_set (invoke :: map own ops)) 0 900000 2 (Some ceiling).
Definition exec_spec (who : PrincipalId) (depth : N) : GrantSpec :=
  mk_GrantSpec node who {[invoke]} 0 500000 depth None.
Definition node_key : NodeKey := mk_NodeKey (repeat x05 33).
Definition first_credential (who : PrincipalId) (id : byte) (generation : N) : Credential :=
  mk_Credential (mk_CredentialId (repeat id 16)) (admin_spec who) (HolderNode node_key) generation 1 (repeat id 32) false.

(** The passkey's approval of a digest. *)
Definition approval (digest : bytes) : PasskeyAssertion :=
  mk_PasskeyAssertion (repeat x01 64) sample_data (sample_json digest).

Definition alice_admin : GrantSpec := admin_spec alice.
Definition alice_credential : Credential := first_credential alice x21 1.
Definition boot : result AuthorityState AuthorityError :=
  bootstrap (gid x10) None alice_admin alice_credential
    (approval (ownership_digest (Bootstrap (gid x10) None) alice_admin (scope alice_credential) node_key)) 100.

Definition assigned : list Change :=
  [ChGrant alice (Issue (gid x10) (gid x11) (exec_spec bob 1)) 200;
   ChGrant bob (Delegate (gid x11) (gid x12) (exec_spec carol 0)) 300].
Definition unrelated : list Change :=
  [ChGrant alice (Issue (gid x10) (gid x13) (exec_spec dora 0)) 400;
   ChGrant alice (Revoke (gid x10) (gid x13) 4) 500].

Definition state_of (r : result AuthorityState AuthorityError) : AuthorityState :=
  match r with Ok s => s | Err _ => mk_AuthorityState node 0 0 (gid x00) 0 None ∅ ∅ end.
Definition s_boot : AuthorityState := state_of boot.
Definition s_assigned : AuthorityState := state_of (changes s_boot assigned).
Definition s_later : AuthorityState := state_of (changes s_assigned unrelated).
Definition evidence : list (GrantId * Revision) := [(gid x12, 3); (gid x11, 2)].

Lemma state_of_Ok r : is_ok r = true -> r = Ok (state_of r).
Proof. by destruct r. Qed.

Lemma s_boot_Ok : boot = Ok s_boot.
Proof. apply state_of_Ok. vm_compute. reflexivity. Qed.
Lemma s_assigned_Ok : changes s_boot assigned = Ok s_assigned.
Proof. apply state_of_Ok. vm_compute. reflexivity. Qed.
Lemma s_later_Ok : changes s_assigned unrelated = Ok s_later.
Proof. apply state_of_Ok. vm_compute. reflexivity. Qed.


(** Dora takes the authority over. *)
Definition dora_credential : Credential := first_credential dora x22 2.
Definition takeover : RecoveryCommand :=
  mk_RecoveryCommand dora_credential 3 (admin_spec dora) ∅
    (approval (ownership_digest (Recover 3) (admin_spec dora) (scope dora_credential) node_key)).
Definition s_recovered : AuthorityState := state_of (recover s_assigned takeover 600).
Lemma s_recovered_Ok : recover s_assigned takeover 600 = Ok s_recovered.
Proof. apply state_of_Ok. vm_compute. reflexivity. Qed.

Definition whole : list Change := assigned ++ [ChRecover takeover 600].
Definition s_whole : AuthorityState := state_of (changes s_boot whole).
Lemma s_whole_Ok : changes s_boot whole = Ok s_whole.
Proof. apply state_of_Ok. vm_compute. reflexivity. Qed.

(** Alice gives herself an execution grant in a daily session. *)
Definition daily : AdministrationRecord :=
  mk_AdministrationRecord
    (mk_CallerRecord node 1 3 alice (credential_id alice_credential) 1 (HolderNode node_key) DailySession 700)
    (AdminGrant (Issue (gid x10) (gid x14) (exec_spec alice 0))).
Definition s_daily : AuthorityState := state_of (apply_administration s_assigned daily).
Lemma s_daily_Ok : apply_administration s_assigned daily = Ok s_daily.
Proof. apply state_of_Ok. vm_compute. reflexivity. Qed.

(** The same command for bob takes a passkey. *)
Example daily_refused :
  apply_administration s_assigned
    (mk_AdministrationRecord (record_caller_of daily) (AdminGrant (Issue (gid x10) (gid x14) (exec_spec bob 0)))) = Err StepUp.
Proof. vm_compute. reflexivity. Qed.

Lemma snapshot_exact_witness :
  boot = Ok s_boot /\ changes s_boot whole = Ok s_whole /\ restore (snapshot s_whole) = Ok s_whole.
Proof.
  split; [exact s_boot_Ok|]. split; [exact s_whole_Ok|]. exact (snapshot_exact _ _ _ _ _ _ _ _ _ s_boot_Ok s_whole_Ok).
Defined.

Lemma root_revokes : authorize s_assigned alice (gid x10) (own GRANT_REVOKE) 400 = Ok [(gid x10, 1)].
Proof. vm_compute. reflexivity. Qed.
Lemma carol_invokes : authorize s_assigned carol (gid x12) invoke 350 = Ok evidence.
Proof. vm_compute. reflexivity. Qed.
Lemma carol_invokes_later : authorize s_later carol (gid x12) invoke 600 = Ok evidence.
Proof. vm_compute. reflexivity. Qed.

Lemma rights_confined_witness :
  exists r c, grants s_assigned !! root_grant s_assigned = Some r /\ issuance (spec r) = Some c /\ permits c (own GRANT_REVOKE).
Proof.
  apply (proj2 (rights_confined _ _ _ _ _ _ _ _ _ _ _ _ _ _ s_boot_Ok s_assigned_Ok root_revokes)).
  right. left.
Defined.

Lemma evidence_identifies_witness :
  exists g, grants s_assigned !! gid x11 = Some g /\ grants s_later !! gid x11 = Some g /\ grant_revision g = 2.
Proof.
  apply (evidence_identifies _ _ _ _ _ _ _ _ _ _ _ _ _ _ _ _ _ _ _ _ s_boot_Ok s_assigned_Ok s_later_Ok carol_invokes
           carol_invokes_later).
  right. left.
Defined.

Lemma recovery_evicts_witness :
  recover s_assigned takeover 600 = Ok s_recovered
  /\ forall caller t c, check_caller s_recovered caller t = Ok c -> c = dora_credential.
Proof.
  split; [exact s_recovered_Ok|].
  exact (proj2 (proj2 (recovery_evicts _ _ _ _ _ _ _ _ _ _ _ _ s_boot_Ok s_assigned_Ok s_recovered_Ok))).
Defined.

Lemma daily_session_confined_witness :
  apply_administration s_assigned daily = Ok s_daily /\ credentials s_daily = credentials s_assigned.
Proof.
  split; [exact s_daily_Ok|].
  exact (proj1 (daily_session_confined _ _ _ _ _ _ _ _ _ _ _ s_boot_Ok s_assigned_Ok s_daily_Ok
                  (fun E => match E in _ = k return match k with DailySession => True | _ => False end with eq_refl => I end))).
Defined.
