(* ===== verification/ChannelWitness.v ===== *)
(** * The channel theorems at work

    Each theorem about channels, journals and file hashes that has hypotheses,
    applied at a state of the histories of [ChannelExamples]. *)

From S2P Require Import Examples.
From S2P Require Import Prelude Xet XetChunk Canonical Primitive Errors Context Auth Objects Registry.
From S2P Require Import View Store Terms Work PaidWork JobBook JobInput ChannelState ChannelSteps.
From S2P Require Import ChannelInvariant ChannelReplay ChannelCodec ChannelCheckpoint ChannelReopen.
From S2P Require Import Journal ChannelLedger ChannelFits ChannelStore ChannelDurable ChannelExamples.

#[local] Open Scope N_scope.

Ltac run := vm_compute; reflexivity.

(** ** Histories *)

Definition is_ok {A E} (r : result A E) : bool := match r with Ok _ => true | Err _ => false end.

Definition after (s : Channel) (records : list ChannelRecord) : Channel :=
  match committed s records with Ok s => s | Err _ => s end.

Lemma committed_after s records :
  is_ok (committed s records) = true -> committed s records = Ok (after s records).
Proof. unfold after. by destruct (committed s records). Qed.

Lemma committed_split s l1 l2 s' :
  is_ok (committed s l1) = true -> committed s (l1 ++ l2) = Ok s' ->
  committed (after s l1) l2 = Ok s'.
Proof.
  intros H1%committed_after. unfold committed at 1. rewrite rfold_app. fold (committed s l1).
  rewrite H1. done.
Qed.

Lemma committed_reachable role s records s' :
  reachable toy_verifier channel settlement role s -> committed s records = Ok s' ->
  reachable toy_verifier channel settlement role s'.
Proof.
  unfold committed. revert s. induction records as [|record records IH]; intros s Hs Hr; simpl in Hr.
  - by simplify_eq.
  - destruct (apply s toy_verifier record false) as [[a s1]|] eqn:Ha; [|done].
    eapply IH; [|exact Hr]. by eapply reachable_apply.
Qed.

Lemma committed_evolve s records s' :
  committed s records = Ok s' -> rtc (evolve toy_verifier) s s'.
Proof.
  unfold committed. revert s. induction records as [|record records IH]; intros s Hr; simpl in Hr.
  - by simplify_eq.
  - destruct (apply s toy_verifier record false) as [[a s1]|] eqn:Ha; [|done].
    eapply rtc_l; [by eapply evolve_apply|by apply IH].
Qed.

Lemma committed_typed s records s' :
  state_typed s -> forallb record_fits records = true -> committed s records = Ok s' -> state_typed s'.
Proof.
  unfold committed. revert s. induction records as [|record records IH]; intros s Hs Hf Hr; simpl in *.
  - by simplify_eq.
  - apply andb_true_iff in Hf as [Hf1 Hf2].
    destruct (apply s toy_verifier record false) as [[a s1]|] eqn:Ha; [|done].
    eapply IH; [|exact Hf2|exact Hr]. by eapply apply_typed.
Qed.

(** The payments a list of records makes, the last first. *)
Fixpoint payments (s : Channel) (records : list ChannelRecord) (l : list (Digest * N))
    : list (Digest * N) :=
  match records with
  | [] => l
  | record :: records =>
      match apply s toy_verifier record false with
      | Ok (a, s') => payments s' records (payment_of s record a ++ l)
      | Err _ => l
      end
  end.

Lemma committed_paid role s records l s' :
  paid_run toy_verifier channel settlement role l s -> committed s records = Ok s' ->
  paid_run toy_verifier channel settlement role (payments s records l) s'.
Proof.
  unfold committed. revert s l. induction records as [|record records IH]; intros s l Hs Hr; simpl in *.
  - by simplify_eq.
  - destruct (apply s toy_verifier record false) as [[a s1]|] eqn:Ha; [|done].
    eapply IH; [|exact Hr]. by eapply paid_apply.
Qed.

Lemma opened_reachable role : reachable toy_verifier channel settlement role (opened role).
Proof. by constructor. Qed.

Lemma opened_typed role : state_typed (opened role).
Proof. apply state_typed_new; run. Qed.

Lemma reachable_after role records :
  is_ok (committed (opened role) records) = true ->
  reachable toy_verifier channel settlement role (after (opened role) records).
Proof.
  intros Hr%committed_after. by eapply committed_reachable; [apply opened_reachable|exact Hr].
Qed.

Definition paid_client : Channel := after (opened Client) (client_job 1 40).
Definition closing_client : Channel :=
  after (opened Client) (client_job 1 40 ++ [ClosePrepared (close_start 40)]).
Definition final_client : Channel := after (opened Client) client_history.
Definition busy_history : list ChannelRecord :=
  [proposed 1; cosigned 1; JobRunning (job 1); PlaintextReleased (job 1)].
Definition busy_provider : Channel := after (opened Provider) busy_history.

Lemma client_history_commits : is_ok (committed (opened Client) client_history) = true.
Proof. run. Qed.

(** ** The ledger *)

Lemma paid_once_witness :
  payments (opened Client) client_history [] = [(job 2, 40); (job 1, 40)] /\
  NoDup (map fst (payments (opened Client) client_history [])) /\
  (forall id, id ∈ map fst (payments (opened Client) client_history []) <->
     is_Some (payment final_client id)) /\
  credited_cumulative (ch_ledger final_client) = sumN snd (payments (opened Client) client_history []) /\
  max_executable_certificate final_client = sumN snd (payments (opened Client) client_history []).
Proof.
  split; [run|].
  exact (paid_once toy_verifier channel settlement Client _ final_client
    (committed_paid Client (opened Client) client_history [] final_client
      (paid_new _ _ _ _ 12 (block_payload 12) eq_refl)
      (committed_after _ _ client_history_commits))).
Defined.

Lemma terminal_permanent_witness :
  exists t, terminals paid_client !! job 1 = Some t /\
  terminals final_client !! job 1 = Some t /\ jobs final_client !! job 1 = None /\
  proposal_nonce_high_water (ch_book paid_client) <= proposal_nonce_high_water (ch_book final_client).
Proof.
  destruct (terminals paid_client !! job 1) as [t|] eqn:Ht.
  - exists t. split; [reflexivity|].
    refine (terminal_permanent toy_verifier channel settlement Client paid_client final_client (job 1) t
      (reachable_after Client (client_job 1 40) ltac:(run)) _ Ht).
    exact (committed_evolve _ _ _ (committed_split (opened Client) (client_job 1 40) _ final_client
      ltac:(run) (committed_after _ _ client_history_commits))).
  - exfalso. apply (f_equal is_some) in Ht. vm_compute in Ht. discriminate Ht.
Defined.

Lemma closing_frozen_witness :
  is_closing closing_client = true /\
  exists s', jobs closing_client = ∅ /\ jobs s' = ∅ /\ terminals s' = terminals closing_client /\
    ch_ledger s' = ch_ledger closing_client /\
    executable_certificate s' = executable_certificate closing_client.
Proof.
  split; [run|].
  destruct (apply closing_client toy_verifier (advanced 13) false) as [[a s']|] eqn:Ha.
  - exists s'. refine (closing_frozen toy_verifier channel settlement Client closing_client (advanced 13)
      false a s' (reachable_after Client _ _) _ Ha); run.
  - exfalso. apply (f_equal is_ok) in Ha. vm_compute in Ha. discriminate Ha.
Defined.

Lemma exposure_bounded_witness :
  outstanding delivered busy_provider = 40 /\
  N.min (outstanding (fun _ => true) busy_provider) U64_MAX
    <= compute_credit_limit (channel_policy channel) /\
  N.min (outstanding delivered busy_provider) U64_MAX
    <= delivery_credit_limit (channel_policy channel).
Proof.
  split; [run|].
  exact (exposure_bounded toy_verifier channel settlement busy_provider
    (reachable_after Provider busy_history ltac:(run))).
Defined.

Lemma payment_evidence_witness :
  exists p, payment final_client (job 2) = Some p /\
  cert_payment_edge (paid_certificate p) = channel_payment_edge channel /\
  cert_payment_terms_hash (paid_certificate p) = channel_payment_terms_hash channel /\
  cert_earned_cumulative (paid_certificate p) <= settlement_capacity settlement /\
  verify_sig toy_verifier (paid_certificate_signature p) (client_key channel)
    (EarnedCertificate_digest (paid_certificate p) (channel_network channel)) = true /\
  exists r sig, result_outcome r = Finished /\ result_work_id r = job 2 /\
    verify_sig toy_verifier sig (provider_key channel) (signing_hash (result_digest channel r)) = true /\
    paid_binding p = mk_PaymentBindingV1 (job 2) (result_digest channel r)
      (EarnedCertificate_digest (paid_certificate p) (channel_network channel)).
Proof.
  destruct (payment final_client (job 2)) as [p|] eqn:Hp.
  - exists p. split; [reflexivity|].
    exact (payment_evidence toy_verifier channel settlement Client final_client (job 2) p
      (reachable_after Client client_history client_history_commits) Hp).
  - exfalso. apply (f_equal is_some) in Hp. vm_compute in Hp. discriminate Hp.
Defined.

(** ** The journal *)

Definition toy_journal : JournalId := mk_JournalId Journal_Channel Client (repeat x01 32).

Definition toy_open : result (Journal * Replay) JournalError * Disk :=
  open_owned (mk_Disk (mk_Database None (mk_Replay None [])) [Commits; Commits; CommitsUnseen])
    toy_journal true.

(** Three appends: the second commits but its report is lost, the third is refused. *)
Definition toy_ops : list JournalOp := [Append [x01]; Append [x02]; Append [x03]].

Definition toy_ran : option (Journal * Disk * Replay) :=
  match toy_open with
  | (Ok (j, replay), disk) => Some (run_ops toy_ops j disk replay)
  | _ => None
  end.

Lemma journal_refines_log_witness :
  exists j replay disk j' disk' log,
  toy_open = (Ok (j, replay), disk) /\ run_ops toy_ops j disk replay = (j', disk', log) /\
  snd <$> toy_ran = Some (mk_Replay None [[x01]]) /\
  exists j2 replay', open_owned disk' toy_journal false = (Ok (j2, replay'), disk') /\ bounded replay' /\
    (replay' = log \/ poisoned j' = true /\ exists op, op ∈ toy_ops /\ replay' = log_op op log).
Proof.
  destruct toy_open as [[[j replay]|e] disk] eqn:Ho.
  - destruct (run_ops toy_ops j disk replay) as [[j' disk'] log] eqn:Hr.
    exists j, replay, disk, j', disk', log. split; [reflexivity|]. split; [exact Hr|].
    split; [run|].
    exact (journal_refines_log toy_journal [Commits; Commits; CommitsUnseen] toy_ops j replay disk j'
      disk' log Ho Hr).
  - exfalso. apply (f_equal (fun x => is_ok x.1)) in Ho. vm_compute in Ho. discriminate Ho.
Defined.

(** ** Checkpoints *)

Lemma checkpoint_reopens_witness :
  state_fits true paid_client /\
  from_checkpoint (checkpoint_inner paid_client true) channel settlement Client toy_verifier =
  let? _ := match close_prepared (ch_funding paid_client) with
            | Some start => check_close_start paid_client start
            | None => Ok tt
            end in
  Ok (strip paid_client).
Proof.
  assert (state_fits true paid_client) as Hf.
  { apply state_typed_fits. apply (committed_typed (opened Client) (client_job 1 40));
      [apply opened_typed|run|apply committed_after; run]. }
  split; [exact Hf|].
  exact (checkpoint_reopens toy_verifier channel settlement Client paid_client
    (reachable_after Client (client_job 1 40) ltac:(run)) Hf).
Defined.


(** ** The store *)

(** An upload store that holds nothing. *)
#[export] Instance toy_uploads : Uploads := {|
  UploadStore := unit;
  InvocationContent := unit;
  uploads_read _ _ _ _ := Err ContentMissing;
  uploads_root _ _ _ _ := Err ContentMissing;
  uploads_retained _ _ := Err ContentMissing;
  uploads_retained_closure _ _ := None;
  uploads_invocation_content _ _ _ _ := Err ContentMissing;
  uploads_has_stage _ _ := false;
  uploads_retain u bs := (Ok (ContentRef_for_bytes bs), u);
  uploads_publish_accepted u _ _ _ := (Ok tt, u);
  uploads_stage_complete u _ _ _ _ _ _ := (Ok tt, u);
  uploads_gc u _ _ := (Ok tt, u);
|}.

Definition no_uploads : UploadStore := tt.

Definition toy_origin : SetupOrigin :=
  mk_SetupOrigin (channel_payment_edge channel) 12 (block_payload 12) (block_payload 11).

Definition toy_store_id : JournalId := store_id channel Client.

(** The client's store, the report of its next write to be lost. *)
Definition toy_store : ChannelStore :=
  mk_ChannelStore (mk_Journal true toy_store_id 0 0 0 false) (opened Client) ∅ no_uploads
    (mk_Disk (mk_Database (Some (toy_store_id, 0)) (mk_Replay None [])) [CommitsUnseen]).

Definition toy_store_ok : ChannelStore -> Prop :=
  store_ok toy_verifier channel settlement Client (12, block_payload 12).

Lemma toy_store_sound : toy_store_ok toy_store.
Proof. apply store_ok_fresh; try reflexivity. apply opened_typed. Qed.


(** The store after that write, and the disk it left, opened again. *)
Definition crashed_store : ChannelStore := (commit toy_verifier (proposed 1) toy_store).2.
Definition left_disk : Disk := mk_Disk (disk_db (st_disk crashed_store)) [].

Lemma crashed_store_sound : toy_store_ok crashed_store.
Proof.
  assert (forall next, apply (opened Client) toy_verifier (proposed 1) false = Ok (Changed, next) ->
    rotatable next) as Hn
    by (intros next; exact (unclosed_rotatable toy_verifier (opened Client) _ _ _ next eq_refl)).
  assert (rotatable (opened Client)) as Hr by (intros start Hs; discriminate Hs).
  assert (record_fits (proposed 1) = true) as Hf by run.
  destruct (commit_spec toy_verifier channel settlement Client (12, block_payload 12) (opened Client)
    (proposed 1) toy_store (commit toy_verifier (proposed 1) toy_store).1 crashed_store
    (conj toy_store_sound eq_refl) Hf Hr Hn (surjective_pairing _))
    as [[[Hok _] _]|(next & _ & [Hok _] & _)]; exact Hok.
Qed.

Lemma crashed_near sd : near toy_verifier (st_state crashed_store) sd -> rotatable sd.
Proof.
  assert (st_state crashed_store = opened Client) as -> by run.
  intros [->|(record & _ & Ha)]; [intros start Hs; discriminate Hs|].
  exact (unclosed_rotatable toy_verifier (opened Client) _ _ _ sd eq_refl Ha).
Qed.

Lemma toy_origin_edge : origin_payment_edge toy_origin = channel_payment_edge channel.
Proof. run. Qed.


(** ** File hashes *)

Lemma streaming_chunks_exact_witness :
  exists h chunks, update_all XetFileHasher_new [domain "two"; domain " pieces"] = Some h /\
    chunk (concat [domain "two"; domain " pieces"]) = Some chunks /\ finalize_chunks h = chunks /\
    XetFileHasher_finalize h = XetHash_hash (concat [domain "two"; domain " pieces"]).
Proof. exact (streaming_chunks_exact [domain "two"; domain " pieces"]). Defined.


Lemma single_chunk_is_file_hash_witness :
  lenN (concat [domain "a"; domain "b"]) < MIN_CHUNK_SIZE /\
  hash_writes [domain "a"; domain "b"] = XetHash_hash (concat [domain "a"; domain "b"]).
Proof.
  split; [by vm_compute|]. apply (single_chunk_is_file_hash [domain "a"; domain "b"]). by vm_compute.
Defined.
