(* ===== verification/CloseWitness.v ===== *)
(** * The closing theorems at work

    A provider that was paid for one job reads the block in which the client
    starts a close that claims nothing, answers it and is paid; the client
    prepares a close of its own. *)

From S2P Require Import Examples Witness.
From S2P Require Import Prelude Xet XetChunk Canonical Primitive Errors BoundedList Context Auth.
From S2P Require Import Objects Registry View Store Event Terms Work Lease Tx WorkTx OpenTx CloseTx.
From S2P Require Import Apply State Spec Validate Conservation Invariant Contest Kernel Settlement.
From S2P Require Import PaidWork JobBook JobInput ChannelState ChannelSteps.
From S2P Require Import ChannelInvariant ChannelReplay ChannelCodec ChannelCheckpoint ChannelReopen.
From S2P Require Import ChannelFits Journal ChannelLedger ChannelStore ChannelDurable Setup CloseWatch.
From S2P Require Import Mirror Watch Closing ChannelExamples ChannelWitness.

#[local] Open Scope N_scope.

Ltac run := vm_compute; reflexivity.

(** ** The chain *)

Definition held_edge : Edge := Examples.edge_of Examples.s3 pay_edge.
Definition contested : KState := Examples.step 13 Examples.start_tx Examples.s3.
Definition start_block : FinalizedWork :=
  mk_FinalizedWork 13 (ChannelExamples.block_payload 12) (ChannelExamples.block_payload 13)
    [Examples.start_tx].

Lemma held_edge_funded : funded_edge channel settlement held_edge.
Proof. split; run. Qed.

Lemma start_usual : usual channel Examples.start_tx.
Proof.
  split; [run| | |done].
  - replace (channel_network channel) with toy_network by run.
    replace (channel_payment_edge channel) with pay_edge by run.
    exact (du_isolated _ _ _ _ _ during_start).
  - intros _ _. run.
Qed.

Lemma start_block_run :
  block_run toy_verifier channel 13 (block_txs start_block) Examples.s3 contested.
Proof.
  apply (block_cons toy_verifier channel 13 Examples.start_tx [] (Examples.at_height 13)
    (Examples.outcome 13 Examples.start_tx Examples.s3) Examples.s3 contested contested);
    [run|run|exact start_usual
    |exact (Examples.accepted_step 13 Examples.start_tx Examples.s3 ltac:(run))|constructor].
Qed.

(** ** The endpoints *)

Definition store_of (role : Role) (s : Channel) : ChannelStore :=
  mk_ChannelStore (mk_Journal true (store_id channel role) 0 0 0 false) s ∅ no_uploads
    (mk_Disk (mk_Database (Some (store_id channel role, 0)) (mk_Replay None [])) []).

Definition paid_provider : Channel := after (opened Provider) (provider_job 1 40).
Definition provider_store : ChannelStore := store_of Provider paid_provider.
Definition client_store : ChannelStore := store_of Client paid_client.

Lemma uncontested : contest_of Examples.s3 (channel_network channel) (channel_payment_edge channel) = Pending_Absent.
Proof. run. Qed.
Lemma uncontested_edge : ks_edges Examples.s3 !! channel_payment_edge channel = Some held_edge.
Proof. run. Qed.

Lemma mirrors_open role s :
  reachable toy_verifier channel settlement role s -> close_opened (ch_funding s) = None ->
  close_settled (ch_funding s) = None -> close_history (ch_funding s) = None ->
  mirror toy_verifier channel settlement role held_edge Examples.s3 s.
Proof.
  intros Hr Ho Ht Hh. split; [exact Hr|]. rewrite Ho, Ht, Hh. split; [|intros _ x Hx; discriminate Hx].
  unfold kernel_view. rewrite uncontested, uncontested_edge. split; [reflexivity|split; reflexivity].
Qed.

Lemma paid_provider_mirrors :
  mirror toy_verifier channel settlement Provider held_edge Examples.s3 paid_provider.
Proof. apply mirrors_open; [apply reachable_after; run|run..]. Qed.

Lemma start_block_next : next_block start_block paid_provider.
Proof. split; [run|intros E; discriminate E|run]. Qed.

(** ** Reading the block *)

Definition read_store : ChannelStore := (observe toy_verifier start_block provider_store).2.

Lemma read_start : observe toy_verifier start_block provider_store = (Ok tt, read_store).
Proof.
  assert ((observe toy_verifier start_block provider_store).1 = Ok tt) as Hr by run.
  rewrite <- Hr. apply surjective_pairing.
Qed.

Lemma read_start_follows :
  following toy_verifier channel settlement Provider held_edge Examples.s3 start_block
    (st_state provider_store).
Proof. apply mirror_following; [exact paid_provider_mirrors|exact start_block_next]. Qed.

Lemma observe_mirrors_chain_witness :
  observe toy_verifier start_block provider_store = (Ok tt, read_store) /\
  let funding := ch_funding (st_state read_store) in
  mirror toy_verifier channel settlement Provider held_edge contested (st_state read_store) /\
  ps_cursor funding = (13, ChannelExamples.block_payload 13) /\
  match close_settled funding with
  | Some _ => ks_edges contested !! channel_payment_edge channel = None
  | None => ks_edges contested !! channel_payment_edge channel = Some held_edge /\
      match contest_of contested (channel_network channel) (channel_payment_edge channel) with
      | Pending_Absent => close_opened funding = None /\ close_history funding = None
      | Pending_Present r => close_opened funding = Some (contest_of_record r) /\
          history_pending <$> close_history funding = Some r
      | Pending_Faulty _ => False
      end
  end.
Proof.
  split; [exact read_start|].
  exact (observe_mirrors_chain toy_verifier toy_verifier channel settlement Provider held_edge
    held_edge_funded Examples.s3 contested start_block provider_store (Ok tt) read_store
    start_block_run (or_introl read_start_follows) read_start).
Defined.

Lemma read_mirrors :
  mirror toy_verifier channel settlement Provider held_edge contested (st_state read_store).
Proof.
  exact (proj1 (observe_mirrors toy_verifier toy_verifier channel settlement Provider held_edge
    held_edge_funded Examples.s3 contested start_block provider_store (Ok tt) read_store
    start_block_run (or_introl read_start_follows) read_start)).
Qed.

(** ** Collecting *)

Definition toy_signer (k : Key) : Secp256k1Signer := mk_Secp256k1Signer k (sig_of k).

Lemma toy_signs k : signs toy_verifier (toy_signer k).
Proof. intros digest. apply bool_decide_eq_true_2. reflexivity. Qed.

Lemma toy_native sig key digest :
  verify_sig toy_verifier sig key digest = true -> verify_auth toy_verifier (Native sig) key digest = true.
Proof. exact (fun Hv => Hv). Qed.

Definition owed : OpenContest * (EarnedCertificate * Sig) :=
  default (mk_OpenContest (StartId_from_bytes []) Maker 0 0, (ChannelExamples.certificate 0, Sig_from_bytes []))
    (answerable_contest (st_state read_store)).

Lemma owed_answer : answerable_contest (st_state read_store) = Some (owed.1, owed.2).
Proof. run. Qed.

Definition own_answer : PaymentCloseResponse :=
  match close_response channel (contest_start_id owed.1) owed.2 (toy_signer (provider_key channel)) with
  | Ok response => response
  | Err _ => Examples.response
  end.

Lemma own_answer_built :
  close_response channel (contest_start_id owed.1) owed.2 (toy_signer (provider_key channel)) = Ok own_answer.
Proof. run. Qed.

Lemma provider_collects_witness :
  credited_cumulative (ch_ledger (st_state read_store)) = 40 /\
  exists o k' r tx outputs,
    kapply (Examples.at_height 14) toy_verifier (Tx_Move (RespondPaymentClose own_answer)) contested
      = Ok (o, k') /\
    Closing.answered channel settlement held_edge k' (st_state read_store) r /\
    adjudicates toy_verifier channel settlement held_edge k' r tx outputs /\
    provider_paid channel outputs
      = credited_cumulative (ch_ledger (st_state read_store)) + wp_omission_bond (channel_payment_terms channel).
Proof.
  split; [run|].
  exact (provider_collects toy_verifier toy_verifier channel settlement Provider held_edge held_edge_funded
    toy_native contested (st_state read_store) owed.1 owed.2 (toy_signer (provider_key channel)) own_answer
    (Examples.at_height 14) read_mirrors owed_answer (toy_signs _) own_answer_built ltac:(run) ltac:(run)).
Defined.

(** ** Driving the close *)

Definition toy_source : FinalizedBlocks :=
  mk_FinalizedBlocks (Ok (Some 13)) (fun h => Ok (if h =? 13 then Some start_block else None)).
Definition toy_sink (_ : Tx) : result SubmitTxOutcome BlockSourceError := Ok Enqueued.
Definition toy_states (h : N) : KState := if h <? 13 then Examples.s3 else contested.

Lemma toy_chain :
  chain_source toy_verifier channel toy_source toy_states ChannelExamples.block_payload 12 13.
Proof.
  split; [reflexivity|reflexivity|]. intros h Hh. assert (h = 13) as -> by lia. exists start_block.
  split_and!; [reflexivity..|]. exact start_block_run.
Qed.

Definition closing_provider : CloseEndpoint :=
  mk_CloseEndpoint provider_store (toy_signer (provider_key channel)) None.

#[local] Instance toy_close_channel : CloseChannel CloseEndpoint := endpoint_channel toy_verifier.
#[local] Instance toy_close_laws :
  CloseChannelLaws toy_verifier toy_verifier CloseEndpoint (fun self => signs toy_verifier (close_signer self)) :=
  endpoint_channel_laws toy_verifier toy_verifier.

Lemma closing_provider_tracked :
  tracked toy_verifier channel settlement Provider held_edge toy_states ChannelExamples.block_payload 12 13
    (drive_state closing_provider).
Proof.
  change (drive_state closing_provider) with paid_provider.
  assert (ps_cursor (ch_funding paid_provider) = (12, ChannelExamples.block_payload 12)) as Hc by run.
  split; rewrite Hc; [exact paid_provider_mirrors|reflexivity|split; intros E; discriminate E].
Qed.


(** ** Beginning a close *)

Definition own_start_of (r : result PaymentCloseStart CloseError * ChannelStore) : PaymentCloseStart :=
  match r.1 with Ok start => start | Err _ => Examples.start end.
Definition client_signer : Secp256k1Signer := toy_signer (client_key channel).
Definition prepared : result PaymentCloseStart CloseError * ChannelStore :=
  prepare_close toy_verifier Maker client_signer client_store.

Lemma prepared_start : prepare_close toy_verifier Maker client_signer client_store
  = (Ok (own_start_of prepared), prepared.2).
Proof.
  fold prepared. assert (prepared.1 = Ok (own_start_of prepared)) as Hr by run.
  rewrite <- Hr. apply surjective_pairing.
Qed.

Lemma client_credited : credited_cumulative (ch_ledger (st_state client_store)) = 40.
Proof. run. Qed.
Lemma own_window :
  start_valid_from_height (own_start_of prepared) = 13 /\
  start_valid_through_height (own_start_of prepared) = 22.
Proof. split; run. Qed.
Lemma own_omit : wp_omit_response_blocks (channel_payment_terms channel) = 16.
Proof. run. Qed.

Lemma prepared_start_accepted_witness :
  prepare_close toy_verifier Maker client_signer client_store = (Ok (own_start_of prepared), prepared.2) /\
  exists o k' r,
    kapply (Examples.at_height 13) toy_verifier (Tx_Move (StartPaymentClose (own_start_of prepared)))
      Examples.s3 = Ok (o, k') /\
    contest_of k' (channel_network channel) (channel_payment_edge channel) = Pending_Present r /\
    pending_opener_role r = Maker /\
    pending_start_cumulative r = credited_cumulative (ch_ledger (st_state client_store)).
Proof.
  split; [exact prepared_start|].
  assert (mirror toy_verifier channel settlement Client held_edge Examples.s3 (st_state client_store)) as Hm
    by (apply mirrors_open; [apply reachable_after; run|run..]).
  refine (prepared_start_accepted toy_verifier toy_verifier channel settlement Client held_edge held_edge_funded
    toy_native Examples.s3 client_store Maker client_signer (own_start_of prepared) prepared.2
    (Examples.at_height 13) Hm _ _ _ (toy_signs _) _ _ prepared_start _ _ _).
  all: try run.
  - intros _. rewrite client_credited. discriminate.
  - rewrite (proj1 own_window), (proj2 own_window). split; discriminate.
  - rewrite own_omit. discriminate.
Defined.
