(* ===== verification/EndpointWitness.v ===== *)
(** * The endpoint theorems at work

    One job of the channel of [ChannelExamples] from proposal to credit, through
    the two endpoints: the client proposes, the provider accepts, runs, signs and
    delivers, the client verifies and pays, the provider credits the payment, and
    the client prepares an honest close. *)

From S2P Require Import Examples Witness.
From S2P Require Import Prelude Xet XetChunk Canonical Primitive Errors BoundedList Context Auth.
From S2P Require Import Objects Registry View Store Event Terms Work Lease Tx.
From S2P Require Import PaidWork JobBook JobInput ChannelState ChannelSteps.
From S2P Require Import ChannelInvariant ChannelReplay ChannelCodec ChannelCheckpoint ChannelReopen.
From S2P Require Import ChannelFits Journal ChannelLedger ChannelStore ChannelDurable Cbor Stream Setup.
From S2P Require Import CloseWatch Mirror Watch Closing Endpoint EndpointLife Exchange.
From S2P Require Import ChannelExamples ChannelWitness CloseWitness.

#[local] Open Scope N_scope.

(** ** What the endpoints call *)

(** Uploads that hold the one input. *)
#[export] Instance input_uploads : Uploads := {|
  UploadStore := unit;
  InvocationContent := unit;
  uploads_read _ _ _ _ := Ok (domain "input");
  uploads_root _ _ _ _ := Ok [];
  uploads_retained _ _ := Err ContentMissing;
  uploads_retained_closure _ _ := None;
  uploads_invocation_content _ _ _ _ := Ok tt;
  uploads_has_stage _ _ := false;
  uploads_retain u bs := (Ok (ContentRef_for_bytes bs), u);
  uploads_publish_accepted u _ _ _ := (Ok tt, u);
  uploads_stage_complete u _ _ _ _ _ _ := (Ok tt, u);
  uploads_gc u _ _ := (Ok tt, u);
|}.

(** Protobuf's seven bits to a byte, and frames counted by what they carry. *)
#[export] Instance toy_protobuf : Protobuf := {|
  encoded_len_varint n := N.log2 n / 7 + 1;
  stream_encoded_len frame :=
    match frame with
    | Stream_Prefix bs => lenN bs
    | Stream_Refused _ => 2
    | Stream_Terminal t => lenN (terminal_transcript t)
    end;
|}.

(** ** The endpoints *)

Definition ready : ReadyChannel := mk_ReadyChannel channel tt payment_policy settlement 12 100.
Definition fresh_store (role : Role) : ChannelStore :=
  mk_ChannelStore (mk_Journal true (store_id channel role) 0 0 0 false) (opened role) ∅ tt
    (mk_Disk (mk_Database (Some (store_id channel role, 0)) (mk_Replay None [])) []).

Definition client0 : ClientEndpoint :=
  mk_ClientEndpoint (Some ready) None (fresh_store Client) (toy_signer (client_key channel)).
Definition provider0 : ProviderEndpoint :=
  mk_ProviderEndpoint (mk_CloseEndpoint (fresh_store Provider) (toy_signer (provider_key channel)) None)
    (Some ready) None.

Definition t0 : ObservationTime := mk_ObservationTime 0 (Some 0).
Definition answer {A E} (d : A) (r : result A E) : A := match r with Ok a => a | Err _ => d end.

(** ** The job *)

Definition proposing := ClientEndpoint_propose toy_verifier t0
  (mk_JobProposal (domain "input") (mk_JobDeadlines 20 30 40)) client0.
Definition offer : AcceptWorkRequest := answer (mk_AcceptWorkRequest None [] [] []) proposing.1.
Definition client1 : ClientEndpoint := proposing.2.

Definition deciding := decide_proposal toy_verifier t0 offer provider0.
Definition cosignature : Digest * Sig := answer (toy_digest [], Sig_from_bytes []) deciding.1.
Definition provider1 : ProviderEndpoint := deciding.2.

Definition accepting := accepted toy_verifier (acceptance_response deciding.1) client1.
Definition client2 : ClientEndpoint := accepting.2.

Definition beginning := begin_run toy_verifier t0 t0 (job 1) ready provider1.
Definition provider2 : ProviderEndpoint := beginning.2.

Definition recording := ProviderEndpoint_record_result toy_verifier (job 1) [transcript] provider2.
Definition provider3 : ProviderEndpoint := recording.2.

Definition exporter : bytes := repeat x07 32.
Definition delivery_request : StreamResultRequest :=
  answer (mk_StreamResultRequest None [] []) (request_delivery client2 (job 1) exporter).
Definition delivering := retained_delivery toy_verifier t0 delivery_request (Some exporter) provider3.
Definition provider4 : ProviderEndpoint := delivering.2.

Definition received : ResultTranscript :=
  match delivering.1 with
  | Ok d => mk_ResultTranscript (record_encode PaidJobResultV1_record (delivery_result d))
              (Sig_bytes (delivery_signature d)) (delivery_transcript d)
  | Err _ => mk_ResultTranscript [] [] []
  end.
Definition receiving := receive_stream toy_verifier (job 1) ready received client2.
Definition client3 : ClientEndpoint := receiving.2.
Definition verifying := verified toy_verifier (job 1) client3.
Definition client4 : ClientEndpoint := verifying.2.

Definition paying := pay toy_verifier t0 (job 1) client4.
Definition client5 : ClientEndpoint := paying.2.
Definition released : PaidCertificate :=
  default (mk_PaidCertificate (job 1) (certificate 0) (binding 1 0) (Sig_from_bytes []) (Sig_from_bytes []))
    (payment (state_of client5) (job 1)).

Definition crediting := admit_payment toy_verifier t0 (admit_request (channel_id channel) released) provider4.
Definition provider5 : ProviderEndpoint := crediting.2.

(** ** The run *)

Notation toy_exchange := (exchange toy_verifier channel settlement (12, ChannelExamples.block_payload 12)
  (12, ChannelExamples.block_payload 12)).

(** Every payment of a state is one of those sent. *)
Definition all_sent (sent : list PaidCertificate) (s : Channel) : bool :=
  forallb (fun '(_, t) =>
    match payment_from_terminal t with
    | Some p => existsb (fun q => bool_decide (paid_binding q = paid_binding p) &&
                                  bool_decide (paid_certificate q = paid_certificate p)) sent
    | None => true
    end) (map_to_list (book_terminals (ch_book s))).

Lemma all_sent_unforged sent s s' : all_sent sent s' = true -> unforged toy_verifier channel sent s s'.
Proof.
  intros Hall id p Hp _ _ _. rewrite payment_lookup in Hp. apply bind_Some in Hp as (t & Ht & Hp).
  unfold all_sent in Hall. rewrite forallb_forall in Hall.
  specialize (Hall (id, t)). cbn in Hall. rewrite Hp in Hall.
  apply elem_of_map_to_list, list_elem_of_In, Hall, existsb_exists in Ht as (q & Hq & Hb).
  apply andb_true_iff in Hb as [Hb Hc]. exists q. split; [by apply list_elem_of_In|].
  split; by eapply bool_decide_eq_true_1.
Qed.

Lemma paying_releases : pay toy_verifier t0 (job 1) client4
  = (Ok (admit_request (channel_id channel) released), client5).
Proof.
  assert (paying.1 = Ok (admit_request (channel_id channel) released)) as <- by run.
  apply surjective_pairing.
Qed.

Lemma released_held : payment (state_of client5) (job 1) = Some released.
Proof. run. Qed.

Lemma client_acts x y sent x' :
  toy_exchange x y sent ->
  client_step toy_verifier channel settlement (12, ChannelExamples.block_payload 12) x [] x' ->
  toy_exchange x' y sent.
Proof. apply exchange_client. Qed.

Lemma provider_acts x y sent l y' :
  toy_exchange x y sent ->
  provider_step toy_verifier channel settlement (12, ChannelExamples.block_payload 12) y l y' ->
  all_sent sent (state_of y') = true -> toy_exchange x y' sent.
Proof. intros He Hs Ha. eapply exchange_provider; [exact He|exact Hs|by apply all_sent_unforged]. Qed.

Lemma toy_start : toy_exchange client0 provider0 [].
Proof.
  exact (exchange_start toy_verifier channel settlement (12, ChannelExamples.block_payload 12)
    (12, ChannelExamples.block_payload 12) client0 provider0 12 (ChannelExamples.block_payload 12) 12
    (ChannelExamples.block_payload 12) eq_refl eq_refl eq_refl eq_refl).
Qed.

Lemma deciding_step :
  provider_step toy_verifier channel settlement (12, ChannelExamples.block_payload 12) provider0 [] provider1.
Proof. eapply provider_accept. unfold provider1, deciding. apply surjective_pairing. Qed.

Definition invokes (r : result RunAdmission RunError * ProviderEndpoint) : bool :=
  match r.1 with Ok (Invoke _ _ _) => true | _ => false end.

Lemma beginning_invokes : invokes beginning = true.
Proof. run. Qed.

Lemma beginning_step :
  provider_step toy_verifier channel settlement (12, ChannelExamples.block_payload 12) provider1 [job 1] provider2.
Proof.
  pose proof (provider_begin toy_verifier channel settlement (12, ChannelExamples.block_payload 12) provider1
    t0 t0 (job 1) ready _ _ (surjective_pairing _)) as Hs.
  fold beginning in Hs. fold provider2 in Hs. pose proof beginning_invokes as Hi. unfold invokes in Hi.
  destruct beginning.1 as [[]|]; [exact Hs|discriminate Hi..].
Qed.

Lemma recording_step :
  provider_step toy_verifier channel settlement (12, ChannelExamples.block_payload 12) provider2 [] provider3.
Proof. eapply provider_result. unfold provider3, recording. apply surjective_pairing. Qed.

Lemma delivering_step :
  provider_step toy_verifier channel settlement (12, ChannelExamples.block_payload 12) provider3 [] provider4.
Proof. eapply provider_delivery. unfold provider4, delivering. apply surjective_pairing. Qed.

Lemma crediting_step :
  provider_step toy_verifier channel settlement (12, ChannelExamples.block_payload 12) provider4 [] provider5.
Proof. eapply provider_admit. unfold provider5, crediting. apply surjective_pairing. Qed.

Lemma exchange_accepted : toy_exchange client2 provider1 [].
Proof.
  assert (toy_exchange client1 provider0 []) as E.
  { apply (client_acts client0); [exact toy_start|].
    eapply client_propose. unfold client1, proposing. apply surjective_pairing. }
  apply (client_acts client1).
  - apply (provider_acts client1 provider0 [] []); [exact E|exact deciding_step|run].
  - eapply client_accepted. unfold client2, accepting. apply surjective_pairing.
Qed.

Lemma exchange_delivered : toy_exchange client4 provider4 [].
Proof.
  assert (toy_exchange client2 provider4 []) as E.
  { apply (provider_acts client2 provider3 [] []); [|exact delivering_step|run].
    apply (provider_acts client2 provider2 [] []); [|exact recording_step|run].
    apply (provider_acts client2 provider1 [] [job 1]); [exact exchange_accepted|exact beginning_step|run]. }
  apply (client_acts client3).
  - apply (client_acts client2); [exact E|].
    eapply client_receive. unfold client3, receiving. apply surjective_pairing.
  - eapply client_verified. unfold client4, verifying. apply surjective_pairing.
Qed.

Lemma exchange_paid : toy_exchange client5 provider5 [released].
Proof.
  apply (provider_acts client5 provider4 [released] []); [|exact crediting_step|run].
  apply (exchange_client _ _ _ _ _ client4 provider4 [] [released]); [exact exchange_delivered|].
  exact (client_paid _ _ _ _ client4 t0 (job 1) released client5 paying_releases released_held).
Qed.

(** The client's records are those of [ChannelExamples]. *)
Lemma client5_records : state_of client5 = paid_client.
Proof. run. Qed.

Lemma client5_typed : state_typed (state_of client5).
Proof.
  rewrite client5_records.
  apply (committed_typed (opened Client) (client_job 1 40)); [apply opened_typed|run|apply committed_after; run].
Qed.


(** ** An honest close *)

Definition preparing := prepare_close toy_verifier Maker (Endpoint.client_signer client5) (journal_of client5).
Definition client6 : ClientEndpoint := put_journal preparing.2 client5.
Definition honest_start : PaymentCloseStart :=
  default Examples.start (includable_close_start (state_of client6) (height (state_of client6))).

Lemma exchange_closing : toy_exchange client6 provider5 [released].
Proof.
  apply (client_acts client5); [exact exchange_paid|]. unfold client6.
  eapply client_prepare. unfold preparing. apply surjective_pairing.
Qed.

Lemma honest_start_held :
  includable_close_start (state_of client6) (height (state_of client6)) = Some honest_start.
Proof. run. Qed.

Lemma honest_close_unanswerable_witness :
  start_claimed honest_start = 40 /\
  (forall id p, payment (state_of provider5) id = Some p -> paid_cumulative p <= start_claimed honest_start) /\
  forall contest, close_opened (ch_funding (state_of provider5)) = Some contest ->
    contest_claimed contest = start_claimed honest_start -> answerable_contest (state_of provider5) = None.
Proof.
  split; [run|].
  exact (honest_close_unanswerable toy_verifier channel settlement (12, ChannelExamples.block_payload 12)
    (12, ChannelExamples.block_payload 12) client6 provider5 [released] honest_start exchange_closing
    honest_start_held).
Defined.

(** ** A payment credited *)

Definition no_job : JobState :=
  mk_JobState (authorization 1) (job 1) [] (Sig_from_bytes []) None HalfSigned None [].
Definition client_held : JobState := default no_job (jobs (state_of client4) !! job 1).
Definition provider_held : JobState := default no_job (jobs (state_of provider4) !! job 1).

Lemma default_held (o : option JobState) : is_some o = true -> o = Some (default no_job o).
Proof. by destruct o. Qed.

Lemma client_held_open : jobs (state_of client4) !! job 1 = Some client_held.
Proof. apply default_held. run. Qed.
Lemma provider_held_open : jobs (state_of provider4) !! job 1 = Some provider_held.
Proof. apply default_held. run. Qed.
Lemma client_held_result : job_result client_held = Some (signed_receipt 1).
Proof. run. Qed.
Lemma provider_held_result : job_result provider_held = Some (signed_receipt 1).
Proof. run. Qed.
Lemma provider_held_delivered :
  job_phase provider_held = Delivered /\ job_authorization provider_held = job_authorization client_held.
Proof. split; run. Qed.
Lemma unpaid_before :
  payment (state_of client4) (job 1) = None /\
  credited_cumulative (ch_ledger (state_of provider4)) = credited_cumulative (ch_ledger (state_of client4)).
Proof. split; run. Qed.

Lemma crediting_paid :
  admit_payment toy_verifier t0 (admit_request (channel_id channel) released) provider4 = (Ok 40, provider5).
Proof.
  assert (crediting.1 = Ok 40) as <- by run. unfold provider5, crediting. apply surjective_pairing.
Qed.

Lemma payment_admitted_witness :
  admit_payment toy_verifier t0 (admit_request (channel_id channel) released) provider4 = (Ok 40, provider5) /\
  payment (state_of provider5) (job 1) = payment (state_of client5) (job 1) /\
  40 = credited_cumulative (ch_ledger (state_of provider5)) /\
  40 = credited_cumulative (ch_ledger (state_of client5)) /\
  acknowledged client5 (job 1) (Some (Outcome_Paid 40)) = Ok 40.
Proof.
  split; [exact crediting_paid|].
  exact (payment_admitted toy_verifier channel settlement (12, ChannelExamples.block_payload 12)
    (12, ChannelExamples.block_payload 12) client4 provider4 [] t0 t0 (job 1)
    (admit_request (channel_id channel) released) client5 client_held provider_held
    (signed_receipt 1) (signed_receipt 1) (Ok 40) provider5 exchange_delivered (proj1 unpaid_before)
    paying_releases client5_typed client_held_open client_held_result provider_held_open
    provider_held_result (proj1 provider_held_delivered) (proj2 provider_held_delivered) eq_refl
    (proj2 unpaid_before) eq_refl crediting_paid).
Defined.

(** ** A co-signature and a payment kept *)

Lemma provider0_reachable : reachable toy_verifier channel settlement Provider (state_of provider0).
Proof. exact (opened_reachable Provider). Qed.

Lemma deciding_accepts : decide_proposal toy_verifier t0 offer provider0 = (Ok cosignature, provider1).
Proof.
  assert (deciding.1 = Ok cosignature) as <- by run. unfold provider1, deciding. apply surjective_pairing.
Qed.

Lemma cosigns_job : decide_proposal toy_verifier t0 offer provider0
  = (Ok (cosignature.1, cosignature.2), provider1).
Proof. rewrite <- surjective_pairing. exact deciding_accepts. Qed.

Lemma acceptance_kept_witness :
  decide_proposal toy_verifier t0 offer provider0 = (Ok (cosignature.1, cosignature.2), provider1) /\
  retained_signature (state_of provider1) cosignature.1 = Some cosignature.2 /\
  (exists a csig, authenticate_proposal toy_verifier (state_of provider0) offer = Ok (a, csig, cosignature.1) /\
     cosignature.1 = work_id channel a /\
     verify_sig toy_verifier csig (client_key channel) (signing_hash cosignature.1) = true) /\
  forall now' y id' sig' y', rtc (evolve toy_verifier) (state_of provider1) (state_of y) ->
    decide_proposal toy_verifier now' offer y = (Ok (id', sig'), y') ->
    id' = cosignature.1 /\ sig' = cosignature.2.
Proof.
  split; [exact cosigns_job|].
  exact (acceptance_kept toy_verifier channel settlement t0 offer provider0 cosignature.1 cosignature.2
    provider1 provider0_reachable cosigns_job).
Defined.

Lemma client4_reachable : reachable toy_verifier channel settlement Client (state_of client4).
Proof. exact (ok_client _ _ _ _ _ _ (exchange_inv _ _ _ _ _ _ _ _ exchange_delivered)). Qed.

Lemma payment_kept_witness :
  pay toy_verifier t0 (job 1) client4 = (Ok (admit_request (channel_id channel) released), client5) /\
  exists p, payment (state_of client5) (job 1) = Some p /\
    admit_request (channel_id channel) released = admit_request (channel_id channel) p /\
    EndpointLife.paid_for client4 (job 1) client5 p /\
    forall now' y, rtc (evolve toy_verifier) (state_of client5) (state_of y) ->
      pay toy_verifier now' (job 1) y = (Ok (admit_request (channel_id channel) released), y).
Proof.
  split; [exact paying_releases|].
  exact (payment_kept toy_verifier channel settlement t0 (job 1) client4
    (admit_request (channel_id channel) released) client5 client4_reachable paying_releases).
Defined.

(** ** One invocation *)

Lemma provider_lived :
  provider_life toy_verifier channel settlement (12, ChannelExamples.block_payload 12) provider0 [job 1] provider5.
Proof.
  apply (life_step _ _ _ _ provider0 [] provider1 [job 1]); [exact deciding_step|].
  apply (life_step _ _ _ _ provider1 [job 1] provider2 []); [exact beginning_step|].
  apply (life_step _ _ _ _ provider2 [] provider3 []); [exact recording_step|].
  apply (life_step _ _ _ _ provider3 [] provider4 []); [exact delivering_step|].
  apply (life_step _ _ _ _ provider4 [] provider5 []); [exact crediting_step|constructor].
Qed.


(** ** Frames *)

Definition events : list bytes := [repeat x01 20; repeat x02 20; repeat x03 20; repeat x04 5].

Lemma result_frames_exact_witness :
  map length (prefix_batches (take 3 events) 50) = [2%nat; 1%nat] /\
  concat (prefix_batches (take 3 events) 50) ++ [repeat x04 5] = events /\
  (forall batch, batch ∈ prefix_batches (take 3 events) 50 ->
     batch <> [] /\ (length batch = 1%nat \/ frame_fits 50 batch)) /\
  result_frames received events 50 =
    map (fun batch => let? bs := encode_transcript batch in Ok (Stream_Prefix bs))
      (prefix_batches (take 3 events) 50) ++
    [let? bs := encode_transcript [repeat x04 5] in
     Ok (Stream_Terminal (mk_WorkStreamTerminal (transcript_result received)
           (transcript_provider_signature received) bs))].
Proof.
  split; [run|]. exact (result_frames_exact received events 50 (repeat x04 5) eq_refl).
Defined.
